(* ===== verification/_CoqProject ===== *)
-Q . S2P
Prelude.v
RtList.v
KState.v
Ffs.v
KInv.v
Sched.v
Object.v
Timer.v
Thread.v
ThreadLife.v
Ipc.v
Sem.v
Mutex.v
Event.v
Mailbox.v
MsgQueue.v
Clock.v
KCheck.v
Idle.v
Restart.v
Startup.v
Dynamic.v
Scenarios.v
Mem.v
Printf.v
PrintfSpec.v
Device.v
DeviceSpec.v
Heap.v
HeapBlocks.v
HeapSpec.v
HeapFree.v
HeapLive.v
HeapOps.v
HeapAlign.v
Mempool.v
MempoolSpec.v
HeapScenarios.v
ServiceScenarios.v
CanData.v
CanFilter.v
CanCmd.v
CanSafe.v
Lcd.v
Menu.v
App.v
Boot.v
Emergency.v
RobotScenarios.v
RingBuffer.v
RingBufferSpec.v
Finsh.v
FinshHeap.v
FinshCompiler.v
FinshVm.v
FinshVmSpec.v
FinshExpr.v
FinshEval.v
FinshTree.v
FinshFront.v
FinshLine.v
FinshToken.v
FinshParser.v
FinshRun.v
FinshNodes.v
FinshParse.v
FinshStatements.v
FinshLex.v
FinshShell.v
FinshVars.v
FinshInput.v
FinshInputSpec.v
FinshScenarios.v
