(* ===== verification/Prelude.v ===== *)
(** Verification of the badminton robot's firmware: the RT-Thread kernel it runs on
    and the robot's own threads (bsp/stm32f40x).

    * The program

    The firmware is one image for an STM32F4: the RT-Thread 1.2.0 kernel (src/src,
    src/include) and the robot's application (src/bsp/stm32f40x).  The kernel keeps
    every thread, timer and waiting queue in circular lists of nodes embedded in
    its objects; the scheduler runs the first thread of the most urgent non-empty
    ready queue; the clock interrupt charges time slices and fires timers; threads
    communicate by semaphores, mutexes, events, mailboxes and message queues, whose
    operations suspend the caller in a waiting queue or resume the first waiter.
    The configuration is that of bsp/stm32f40x/rtconfig.h: 32 priorities, 200 ticks
    per second, names of 32 characters, alignment 8, no assertions (RT_DEBUG is not
    defined), no soft timers, one level of the timer skip list.

    * The model

    A C function is a definition of the same name in the state and error monad
    [M S] of this file over the kernel state [KState.kernel]; a pointer to an
    object is its identifier, a pointer to an embedded list node is a [node], and
    the next and prev fields of all nodes are one heap, [lists].  A wild or null
    pointer is [Fail BadPointer], exhausted fuel [Fail OutOfFuel]: a theorem
    [wp m Phi k] says that [m] started in [k] ends without a fault in a state
    where [Phi] holds.  Machine integers are [Z] with [u8], [u16], [u32], [s16],
    [s32] where the code stores them.  A call of rt_schedule records the switch
    and the new running thread; what the function does once the suspended caller
    runs again is a second definition with the suffix [_wakeup].

    * The files

    - [Prelude]: integers, the monad and its weakest preconditions, [wp] tactics,
      lemmas on lists and functional maps.
    - [RtList]: rt_list_t (rtservice.h) on the heap; [Rep h Q], the heap [h] is
      made of the disjoint circular lists [Q].
    - [KState]: the structs of rtdef.h and the globals of the kernel.
    - [Ffs]: __rt_ffs (kservice.c) against a bit-by-bit search.
    - [KInv]: the kernel invariant [KI]: the lists are well formed and disjoint;
      the ready bitmap says which ready queues are non-empty; a thread is in the
      ready queue of its priority iff it is ready; a timer is in the timer list iff
      it is active; stacks are intact.
    - [Sched] (scheduler.c, irq.c), [Object] (object.c), [Timer] (timer.c),
      [Thread] and [ThreadLife] (thread.c), [Clock] (clock.c), [Idle] (idle.c).
    - [Ipc]: the waiting queues of ipc.c; [Sem], [Mutex], [Event], [Mailbox],
      [MsgQueue]: its five kinds of objects.
    - [Startup] (applications/startup.c), [Restart]: the initialisation of static
      threads, and the restart the emergency handler makes of it; [Dynamic]: the
      xxx_create and xxx_delete functions, with what the heap answers as an argument.
    - [Mem]: memory as bytes, the memory and string functions of kservice.c.
    - [Printf], [PrintfSpec]: rt_vsnprintf and its callers against a reference
      formatter; [Device], [DeviceSpec]: device.c, errno and the console, with the
      functions of the drivers as a parameter.
    - [Heap]: mem.c, the blocks and their headers in memory.  [HeapBlocks] is the view
      of a heap as a sequence of blocks, [HeapSpec] what a search and [HeapFree] what
      a release and a shrinking do to it, [HeapLive] the blocks its users hold,
      [HeapOps] the functions with the semaphore of the heap, [HeapAlign]
      rt_malloc_align, rt_free_align and rt_strdup.
    - [Mempool], [MempoolSpec]: mempool.c.
    - [CanData] and [CanFilter] (can_database.c, can.c: the table of CAN messages, its
      hash table, sending and the acceptance filters), [CanCmd] and [CanSafe]
      (Command.c, the receive interrupts, motor.c, relay.c, sonic.c, sd_save.c): the
      globals of the robot are arrays in [CanData.io], an access outside of one is
      [Fail BadPointer].
    - [Lcd] (lcd_keyboard.c, mystring.c), [Menu] (menuSys): the display buffer, the
      input of integers and the menus.
    - [App], [Boot]: the mailboxes and threads of the application, and the system from
      reset to its first thread; [Emergency] (t_emergency.c, USART2_IRQHandler): the
      emergency key and its handler.
    - The finsh shell (components/finsh), which reads lines of a C-like language, compiles
      them to byte code and runs it.  [Finsh]: its globals, finsh_error.c, finsh_var.c,
      the symbols and finsh_node.c; [FinshHeap]: finsh_heap.c; [FinshToken],
      [FinshParser], [FinshCompiler], [FinshVm]: the lexer, the parser, the compiler with
      its type check and the machine; [FinshRun] and [FinshInput]: shell.c.  The
      exported symbols and the functions behind them are the class [finsh_image].
      [FinshVmSpec]: the instructions; [FinshExpr]: the expressions of the language with
      their types, values and code; [FinshEval]: the code computes the values;
      [FinshTree], [FinshFront]: what the type check and the compiler make of a tree;
      [FinshLine]: a whole line, compiled and run; [FinshNodes], [FinshParse],
      [FinshStatements]: the parser builds the tree of what the tokens spell; [FinshLex]:
      the lexer reads the tokens that the text spells; [FinshShell]: all of it together;
      [FinshVars]: the table of variables; [FinshInputSpec]: the input against an editor
      of one line.
    - [RingBuffer], [RingBufferSpec]: components/drivers/src/ringbuffer.c.
    - [KCheck]: a decision procedure for [KI] on a concrete kernel; [Scenarios],
      [HeapScenarios], [ServiceScenarios], [RobotScenarios] and [FinshScenarios]: systems booted and run
      by the definitions themselves, in which the hypotheses of the theorems hold.

    * The theorems

    Every operation keeps [KI].  On top of it: the scheduler runs the most urgent
    ready thread and yielding is round robin; a tick fires exactly the timers that
    are due, in order, across the wrap-around of the counter; the semaphore refines
    an abstract one whose invariant (nobody waits while it is available) holds in
    all histories; the mutex follows its ownership and priority inheritance rules
    on every branch; an event wakes exactly the threads whose condition holds; the
    mailbox and the message queue are first-in first-out queues on every branch,
    errors and blocking included, and a message queue keeps its slots apart under
    every interleaving of the critical sections of its users; exited threads leave
    the kernel or go to the idle thread, which clears them and gives their memory back.
    Where a counter of the code is not tested (the value of a semaphore, the hold of a
    mutex, the opens of a device, the sizes given to the heap) the theorems say from
    which value on it wraps around and what happens then.

    The heap keeps the blocks of its users apart and untouched through every history
    of rt_malloc, rt_realloc and rt_free, releasing undoes a request, and rt_realloc keeps
    the data.  A pool hands out its blocks and serves its waiting threads; the error of a
    wait that timed out is stated as it is.  rt_vsnprintf never leaves its buffer and
    writes the text that the conversions describe, but for those it gets wrong (%o and a
    precision of 0); the memory functions do what
    their plain descriptions say; the device framework refines devices with a count.

    Of the robot: reset leads to the first thread with every thread and mailbox in
    place; the emergency key preempts every less urgent thread unless the scheduler is
    locked, and its handler, when the CAN controller has room for its frames, stops the motors,
    empties the mailboxes and restarts the threads of the automatic mode; the receive
    interrupts stay inside the program's arrays; the filters accept exactly the
    messages the robot reads; the menus go where the tables say, and the keys that leave the
    tables are named; a number that is typed is the number that is shown.

    Of the shell: for every line whose text spells expressions that have types and fit
    in the tables, what finsh_run_line shows is the value of the last expression (its low
    bytes, when it is narrower than the word shown) and the memory is what evaluating them
    leaves; the type check gives every node the type and the mark of its subexpression; the
    machine stops on every text; the stack is large enough for every tree, and the text for
    every line with at most two increments; a variable that is
    inserted is found until it is deleted; typing fewer than 78 characters edits the line like
    an editor and enters it.  A ring buffer is a queue with a bound.  The shell is in the
    tree of the robot, but its rtconfig.h leaves RT_USING_FINSH undefined.

    * Bounds and fuel

    Loops over lists carry fuel: the walks of [RtList] use the size of the heap,
    [event_send_loop] and [resume_all_loop] the number of waiters, the timer loops
    the number of timers given by the caller.  The theorems on them are total: with
    that fuel they return.  [list_walk] is the C loop over a circular list; its
    fuel is at most the number of nodes.  The walks over the heap use its size in
    bytes ([block_fuel]), the loops of rt_memset and rt_memcpy the number
    of bytes, the walks over strings a bound on their length that the caller gives,
    the loop over a format its length; tmp[16] of print_number is a bound, not fuel.
    The recursion of the parser takes a fuel: one more than the length of the line is
    enough for a line that spells expressions (a line that ends in an identifier makes the
    parser of the code loop, see [FinshScenarios]).  The type check and the compiler have
    the size of the node table, the lexer the length of the line; the machine has the
    size of the text, which [finsh_vm_run_stops] shows to be enough.

    * Not modelled

    Hooks (the one that is installed, ttime_hook, records the times of the switches
    and leaves the kernel alone), the assembly of the context switch, soft timers, modules, memheap.c and slab.c (compiled out), the
    drivers of components/ but for the ring buffer, the other shell msh, what finsh
    prints but for the values and the errors of lines, rt_show_version and the list_xxx commands, which print,
    device registers and the initialisation of the controllers, LCD_Printf (vsprintf of
    the C library), the bodies of the threads that compute with floating-point sensor
    data (motion control, pid.c), the thread side of the image transfer, which writes
    files, and vendored code (FatFs, CMSIS, StdPeriph, the other components of
    RT-Thread).  The semaphore of the heap is contended in the model only as far as
    the call that waits returns [Blocked]; memory of dynamic objects and of pools is
    not taken from the modelled heap but given as an argument, and the idle thread returns
    the blocks it releases.
*)

From Stdlib Require Export ZArith Lia FunctionalExtensionality.
From stdpp Require Export gmap functions base list.

#[export] Set Default Goal Selector "!".

(** * Machine integers

    [rt_uint8_t], [rt_uint16_t], [rt_uint32_t] and [rt_int16_t], [rt_int32_t]
    are carried by [Z]; every store into such a field goes through the
    truncation of its width. *)

Definition u8 (x : Z) : Z := x mod 2 ^ 8.
Definition u16 (x : Z) : Z := x mod 2 ^ 16.
Definition u32 (x : Z) : Z := x mod 2 ^ 32.

Definition s8 (x : Z) : Z := (x + 2 ^ 7) mod 2 ^ 8 - 2 ^ 7.
Definition s16 (x : Z) : Z := (x + 2 ^ 15) mod 2 ^ 16 - 2 ^ 15.
Definition s32 (x : Z) : Z := (x + 2 ^ 31) mod 2 ^ 32 - 2 ^ 31.

(** [RT_ALIGN] and [RT_ALIGN_DOWN] of rtdef.h on unsigned 32-bit operands. *)
Definition RT_ALIGN (size align : Z) : Z :=
  Z.land (u32 (size + align - 1)) (u32 (Z.lnot (align - 1))).
Definition RT_ALIGN_DOWN (size align : Z) : Z :=
  Z.land (u32 size) (u32 (Z.lnot (align - 1))).

(** * Outcomes

    A C function is a state transformer that either returns a value and the
    new state, or performs an access the language gives no meaning to. *)

Inductive fault : Type :=
| NullDeref        (* a field of a NULL pointer is read or written *)
| BadPointer       (* container_of applied to something else, or an index out of an array *)
| StackOverflow    (* _rt_scheduler_stack_check stops the machine *)
| Diverges         (* a loop that has no exit *)
| OutOfFuel.       (* a loop ran past the bound its measure gives it *)

Inductive outcome (S A : Type) : Type :=
| Ret (a : A) (s : S)
| Fail (f : fault).
Arguments Ret {S A} a s.
Arguments Fail {S A} f.

Definition M (S A : Type) : Type := S -> outcome S A.

Definition ret {S A} (a : A) : M S A := fun s => Ret a s.
Definition bind {S A B} (m : M S A) (f : A -> M S B) : M S B :=
  fun s => match m s with Ret a s' => f a s' | Fail e => Fail e end.
Definition get {S} : M S S := fun s => Ret s s.
Definition modify {S} (f : S -> S) : M S unit := fun s => Ret tt (f s).
Definition fail {S A} (e : fault) : M S A := fun _ => Fail e.
Definition of_option {S A} (e : fault) (o : option A) : M S A :=
  fun s => match o with Some a => Ret a s | None => Fail e end.

Declare Scope c_scope.
Delimit Scope c_scope with c.
Notation "'let!' x ':=' m 'in' f" := (bind m (fun x => f))
  (at level 10, x name, m at level 100, f at level 200) : c_scope.
Notation "m ';!' f" := (bind m (fun _ => f))
  (at level 199, f at level 200, right associativity) : c_scope.
#[global] Open Scope c_scope.

(** [for (i = i0; n more times; i++) body(i)] *)
Fixpoint for_range {S} (n : nat) (i : Z) (body : Z -> M S unit) : M S unit :=
  match n with
  | O => ret tt
  | Datatypes.S n => bind (body i) (fun _ => for_range n (i + 1)%Z body)
  end.

(** ** Total correctness

    [wp m Phi s]: run from [s], [m] performs no undefined access and ends in a
    value and a state related by [Phi]. *)

Definition wp {S A} (m : M S A) (Phi : A -> S -> Prop) (s : S) : Prop :=
  match m s with Ret a s' => Phi a s' | Fail _ => False end.

Section wp_rules.
  Context {S : Type}.
  Implicit Types s : S.

Lemma wp_ret {A} (a : A) (Phi : A -> S -> Prop) s : Phi a s -> wp (ret a) Phi s.
Proof. done. Qed.

Lemma wp_get (Phi : S -> S -> Prop) s : Phi s s -> wp get Phi s.
Proof. done. Qed.

Lemma wp_modify f (Phi : unit -> S -> Prop) s : Phi tt (f s) -> wp (modify f) Phi s.
Proof. done. Qed.

Lemma wp_of_option {A} e (o : option A) a (Phi : A -> S -> Prop) s :
  o = Some a -> Phi a s -> wp (of_option e o) Phi s.
Proof. by intros ->. Qed.

Lemma wp_bind {A B} (m : M S A) (f : A -> M S B) Phi s :
  wp m (fun a s' => wp (f a) Phi s') s -> wp (bind m f) Phi s.
Proof. unfold wp, bind. by destruct (m s). Qed.

Lemma wp_bind_inv {A B} (m : M S A) (f : A -> M S B) Phi s :
  wp (bind m f) Phi s -> wp m (fun a s' => wp (f a) Phi s') s.
Proof. unfold wp, bind. by destruct (m s). Qed.

Lemma wp_assoc {A B C} (m : M S A) (f : A -> M S B) (g : B -> M S C) Phi s :
  wp (bind (bind m f) g) Phi s -> wp (bind m (fun a => bind (f a) g)) Phi s.
Proof. unfold wp, bind. by destruct (m s). Qed.

Lemma wp_assoc_r {A B C} (m : M S A) (f : A -> M S B) (g : B -> M S C) Phi s :
  wp (bind m (fun a => bind (f a) g)) Phi s -> wp (bind (bind m f) g) Phi s.
Proof. unfold wp, bind. by destruct (m s). Qed.

Lemma wp_mono {A} (m : M S A) (Phi Psi : A -> S -> Prop) s :
  wp m Phi s -> (forall a s', Phi a s' -> Psi a s') -> wp m Psi s.
Proof. unfold wp. destruct (m s); naive_solver. Qed.

Lemma wp_Ret {A} (m : M S A) Phi s :
  wp m Phi s <-> exists a s', m s = Ret a s' /\ Phi a s'.
Proof. unfold wp. destruct (m s); naive_solver. Qed.

Lemma wp_intro {A} (m : M S A) (Phi : A -> S -> Prop) s a s' :
  m s = Ret a s' -> Phi a s' -> wp m Phi s.
Proof. intros. apply wp_Ret. eauto. Qed.

Lemma wp_for_range (I : Z -> S -> Prop) (body : Z -> M S unit) n : forall i s,
  I i s ->
  (forall j s', (i <= j < i + Z.of_nat n)%Z -> I j s' -> wp (body j) (fun _ s'' => I (j + 1)%Z s'') s') ->
  wp (for_range n i body) (fun _ s' => I (i + Z.of_nat n)%Z s') s.
Proof.
  induction n as [|n IH]; intros i s Hi Hstep; simpl.
  - apply wp_ret. by rewrite Z.add_0_r.
  - apply wp_bind. eapply wp_mono; [apply Hstep; [lia|done]|]. cbv beta. intros _ s' Hi'.
    replace (i + Z.of_nat (Datatypes.S n))%Z with (i + 1 + Z.of_nat n)%Z by lia.
    apply IH; [done|]. intros j s'' Hj. apply Hstep. lia.
Qed.

End wp_rules.

(** ** Two parts of a state

    A function that works on one component of a pair leaves the other alone. *)

Definition on_fst {S T A} (m : M S A) : M (S * T) A := fun s =>
  match m s.1 with Ret a x => Ret a (x, s.2) | Fail e => Fail e end.
Definition on_snd {S T A} (m : M T A) : M (S * T) A := fun s =>
  match m s.2 with Ret a y => Ret a (s.1, y) | Fail e => Fail e end.

Lemma wp_on_fst {S T A} (m : M S A) (Phi : A -> S * T -> Prop) x y : wp m (fun a x' => Phi a (x', y)) x -> wp (on_fst m) Phi (x, y).
Proof. unfold wp, on_fst. simpl. by destruct (m x). Qed.
Lemma wp_on_snd {S T A} (m : M T A) (Phi : A -> S * T -> Prop) x y : wp m (fun a y' => Phi a (x, y')) y -> wp (on_snd m) Phi (x, y).
Proof. unfold wp, on_snd. simpl. by destruct (m y). Qed.

(** * Tactics *)

(** ** Running statements one after the other *)

Lemma bind_Ret {S A B} (m : M S A) (f : A -> M S B) s a s' : m s = Ret a s' -> bind m f s = f a s'.
Proof. unfold bind. by intros ->. Qed.

Lemma bind_Fail {S A B} (m : M S A) (f : A -> M S B) s e : m s = Fail e -> bind m f s = Fail e.
Proof. unfold bind. by intros ->. Qed.

Lemma bind_bind {S A B C} (m : M S A) (f : A -> M S B) (g : B -> M S C) s : bind m (fun a => bind (f a) g) s = bind (bind m f) g s.
Proof. unfold bind. by destruct (m s). Qed.

(** Split a goal [wp (bind m f) Phi s] at its first statement. *)
Ltac wp_step :=
  lazymatch goal with
  | |- wp (bind _ _) _ _ => apply wp_bind
  | |- wp _ _ _ => idtac
  end.

(** Run the statements that only read or write the state record. *)
Ltac wp_pure :=
  repeat (cbv beta;
    lazymatch goal with
    | |- wp (bind _ _) _ _ => apply wp_bind
    | |- wp get _ _ => apply wp_get
    | |- wp (modify _) _ _ => apply wp_modify
    | |- wp (ret _) _ _ => apply wp_ret
    end);
  cbv beta.

(** Use the specification [H] of the first statement of the goal. *)
Tactic Notation "wp_use" uconstr(H) :=
  lazymatch goal with
  | |- wp (bind _ _) _ _ => apply wp_bind; eapply wp_mono; [eapply H | cbv beta]
  | |- wp _ _ _ => eapply wp_mono; [eapply H | cbv beta]
  end.

(** * Function stores

    The C objects of one struct type are a total function from their identity
    to their contents; stores are updates at one point. *)

Create Rewrite HintDb store.
#[export] Hint Rewrite @fn_lookup_insert : store.
#[export] Hint Rewrite @fn_lookup_insert_ne using congruence : store.

Lemma fn_insert_case {A T} `{EqDecision A} (f : A -> T) a (v : T) b :
  <[a := v]> f b = if decide (a = b) then v else f b.
Proof. case_decide; subst; autorewrite with store; done. Qed.

Lemma fn_insert_id' {A T} `{EqDecision A} (f : A -> T) a : <[a := f a]> f = f.
Proof. apply functional_extensionality. intros b. rewrite fn_insert_case. by case_decide; subst. Qed.

Lemma fn_insert_insert' {A T} `{EqDecision A} (f : A -> T) a (v w : T) :
  <[a := v]> (<[a := w]> f) = <[a := v]> f.
Proof.
  apply functional_extensionality. intros b. rewrite !fn_insert_case. by case_decide.
Qed.

(** * Arithmetic of the widths *)

Lemma u8_range x : (0 <= u8 x < 256)%Z.
Proof. apply (Z.mod_pos_bound x 256). lia. Qed.
Lemma u16_range x : (0 <= u16 x < 65536)%Z.
Proof. apply (Z.mod_pos_bound x 65536). lia. Qed.
Lemma u32_range x : (0 <= u32 x < 4294967296)%Z.
Proof. apply (Z.mod_pos_bound x 4294967296). lia. Qed.

Lemma u8_small x : (0 <= x < 256)%Z -> u8 x = x.
Proof. apply (Z.mod_small x 256). Qed.
Lemma u16_small x : (0 <= x < 65536)%Z -> u16 x = x.
Proof. apply (Z.mod_small x 65536). Qed.
Lemma u32_small x : (0 <= x < 4294967296)%Z -> u32 x = x.
Proof. apply (Z.mod_small x 4294967296). Qed.

Lemma s32_small x : (- 2 ^ 31 <= x < 2 ^ 31)%Z -> s32 x = x.
Proof. intros Hx. unfold s32. rewrite Z.mod_small; lia. Qed.

Lemma u32_u32 x : u32 (u32 x) = u32 x.
Proof. apply Z.mod_mod. lia. Qed.
Lemma u32_s32 x : u32 (s32 x) = u32 x.
Proof. unfold u32, s32. Z.to_euclidean_division_equations; lia. Qed.
Lemma s32_u32 x : s32 (u32 x) = s32 x.
Proof. unfold u32, s32. Z.to_euclidean_division_equations; lia. Qed.

Create Rewrite HintDb width.
#[export] Hint Rewrite u8_small u16_small u32_small using lia : width.

(** ** Bits of a bounded word *)

Lemma testbit_high x w n : (0 <= x < 2 ^ w)%Z -> (0 <= w <= n)%Z -> Z.testbit x n = false.
Proof.
  intros Hx Hn. rewrite <- (Z.mod_small x (2 ^ w)) by lia. apply Z.mod_pow2_bits_high. lia.
Qed.

Lemma bits_bound x w :
  (0 <= w)%Z -> (0 <= x)%Z -> (forall n, (w <= n)%Z -> Z.testbit x n = false) ->
  (0 <= x < 2 ^ w)%Z.
Proof.
  intros Hw Hx Hbits.
  assert (x = x mod 2 ^ w)%Z as ->; [|apply Z.mod_pos_bound; lia].
  apply Z.bits_inj'. intros n Hn. destruct (Z.lt_ge_cases n w).
  - by rewrite Z.mod_pow2_bits_low.
  - by rewrite Z.mod_pow2_bits_high, Hbits by lia.
Qed.

(** * Lists *)

Section lists.
  Context {A : Type}.
  Implicit Types l : list A.

Lemma removelast_snoc l a : removelast (l ++ [a]) = l.
Proof. apply removelast_last. Qed.

Lemma removelast_app_cons l a l' :
  removelast (l ++ a :: l') = l ++ removelast (a :: l').
Proof. by rewrite removelast_app. Qed.

Lemma tail_app_cons l a l' : tail (l ++ a :: l') = tail (l ++ [a]) ++ l'.
Proof. destruct l as [|b l]; simpl; [done|]. by rewrite <- app_assoc. Qed.

Lemma list_fmap_ext_in {B} (f g : A -> B) l :
  (forall x, x ∈ l -> f x = g x) -> f <$> l = g <$> l.
Proof. intros H. apply list_fmap_ext. intros i x Hi. by eapply H, list_elem_of_lookup_2. Qed.

Lemma elem_of_split_first l a : a ∈ l -> exists l1 l2, l = l1 ++ a :: l2.
Proof. apply list_elem_of_split. Qed.

Lemma NoDup_insert_middle l1 l2 a :
  NoDup (l1 ++ l2) -> a ∉ l1 ++ l2 -> NoDup (l1 ++ a :: l2).
Proof.
  intros Hnd Hna.
  rewrite <- (NoDup_Permutation_proper (a :: l1 ++ l2)); [by constructor|].
  apply Permutation_middle.
Qed.

Lemma NoDup_delete_middle l1 l2 a :
  NoDup (l1 ++ a :: l2) -> NoDup (l1 ++ l2) /\ a ∉ l1 ++ l2.
Proof.
  intros Hnd.
  rewrite <- (Permutation_middle l1 l2 a) in Hnd. by apply NoDup_cons in Hnd as [??].
Qed.

End lists.
