(* ===== verification/RtList.v ===== *)
(** The intrusive circular doubly linked list of include/rtservice.h.

    Every queue of the kernel (the ready table, the waiting lists of the IPC
    objects, the timer list, the object containers) is threaded through
    [rt_list_t] nodes embedded in other structs.  The nodes live in one store;
    a node whose memory was never written holds NULL in both fields.  [ring]
    says that a node heads a well-formed list, [Rep] that a whole store is a
    set of disjoint rings, and the lemmas show that the four primitives of
    rtservice.h are insertion and deletion on the sequences the rings spell. *)

From S2P Require Import Prelude.

Section rt_list.
Context {N : Type} `{Countable N}.

(** * The data and the operations *)

(** [struct rt_list_node]; [None] is the NULL pointer. *)
Record rt_list_node : Type := mk_node { next : option N; prev : option N }.

Implicit Types h : gmap N rt_list_node.
Implicit Types l n a b p s : N.

Definition cell h n : rt_list_node := default (mk_node None None) (h !! n).
Definition get_next h n : option N := next (cell h n).
Definition get_prev h n : option N := prev (cell h n).
Definition set_next h n (v : option N) : gmap N rt_list_node :=
  <[n := mk_node v (get_prev h n)]> h.
Definition set_prev h n (v : option N) : gmap N rt_list_node :=
  <[n := mk_node (get_next h n) v]> h.

(** [l->next = l->prev = l] *)
Definition rt_list_init l h : gmap N rt_list_node :=
  set_next (set_prev h l (Some l)) l (Some l).

(** [l->next->prev = n; n->next = l->next; l->next = n; n->prev = l] *)
Definition rt_list_insert_after l n h : option (gmap N rt_list_node) :=
  match get_next h l with
  | None => None
  | Some ln =>
      let h1 := set_prev h ln (Some n) in
      let h2 := set_next h1 n (get_next h1 l) in
      let h3 := set_next h2 l (Some n) in
      Some (set_prev h3 n (Some l))
  end.

(** [l->prev->next = n; n->prev = l->prev; l->prev = n; n->next = l] *)
Definition rt_list_insert_before l n h : option (gmap N rt_list_node) :=
  match get_prev h l with
  | None => None
  | Some lp =>
      let h1 := set_next h lp (Some n) in
      let h2 := set_prev h1 n (get_prev h1 l) in
      let h3 := set_prev h2 l (Some n) in
      Some (set_next h3 n (Some l))
  end.

(** [n->next->prev = n->prev; n->prev->next = n->next; n->next = n->prev = n] *)
Definition rt_list_remove n h : option (gmap N rt_list_node) :=
  match get_next h n with
  | None => None
  | Some nn =>
      let h1 := set_prev h nn (get_prev h n) in
      match get_prev h1 n with
      | None => None
      | Some np =>
          let h2 := set_next h1 np (get_next h1 n) in
          Some (set_next (set_prev h2 n (Some n)) n (Some n))
      end
  end.

(** [l->next == l] *)
Definition rt_list_isempty l h : bool := bool_decide (get_next h l = Some l).

(** The loop [for (n = l->next; n != l; n = n->next)]: the nodes it visits.
    No simple cycle is longer than the store has cells, so the number of cells
    is enough fuel for every ring ([list_nodes_ring]). *)
Fixpoint list_walk (fuel : nat) l n h : option (list N) :=
  match fuel with
  | O => None
  | S fuel =>
      if decide (n = l) then Some []
      else match get_next h n with
           | None => None
           | Some n' => cons n <$> list_walk fuel l n' h
           end
  end.
Definition list_nodes l h : option (list N) :=
  match get_next h l with
  | None => None
  | Some n => list_walk (S (size h)) l n h
  end.

(** * Reads after writes *)

Lemma get_next_insert h x c y :
  get_next (<[x := c]> h) y = if decide (x = y) then next c else get_next h y.
Proof.
  unfold get_next, cell. rewrite lookup_insert. by case_decide.
Qed.

Lemma get_prev_insert h x c y :
  get_prev (<[x := c]> h) y = if decide (x = y) then prev c else get_prev h y.
Proof.
  unfold get_prev, cell. rewrite lookup_insert. by case_decide.
Qed.

Ltac list_reads :=
  unfold set_next, set_prev in *;
  repeat (rewrite get_next_insert || rewrite get_prev_insert || simpl);
  repeat case_decide; simplify_eq; try done.

(** What splicing [n] in between the adjacent nodes [p] and [s] does. *)
Definition spliced h h' p n s : Prop :=
  (forall x, get_next h' x =
     if decide (x = p) then Some n else if decide (x = n) then Some s else get_next h x) /\
  (forall x, get_prev h' x =
     if decide (x = s) then Some n else if decide (x = n) then Some p else get_prev h x).

(** What taking [n] out from between [p] and [s] does. *)
Definition unspliced h h' p n s : Prop :=
  (forall x, get_next h' x =
     if decide (x = n) then Some n else if decide (x = p) then Some s else get_next h x) /\
  (forall x, get_prev h' x =
     if decide (x = n) then Some n else if decide (x = s) then Some p else get_prev h x).

Lemma insert_before_spliced s n p h :
  get_prev h s = Some p -> n <> s -> n <> p ->
  exists h', rt_list_insert_before s n h = Some h' /\ spliced h h' p n s.
Proof.
  intros Hp Hns Hnp. unfold rt_list_insert_before. rewrite Hp.
  eexists; split; [done|]. split; intros x; list_reads.
Qed.

Lemma insert_after_spliced p n s h :
  get_next h p = Some s -> n <> s -> n <> p ->
  exists h', rt_list_insert_after p n h = Some h' /\ spliced h h' p n s.
Proof.
  intros Hs Hns Hnp. unfold rt_list_insert_after. rewrite Hs.
  eexists; split; [done|]. split; intros x; list_reads.
Qed.

Lemma remove_unspliced n p s h :
  get_next h n = Some s -> get_prev h n = Some p -> n <> p -> n <> s ->
  exists h', rt_list_remove n h = Some h' /\ unspliced h h' p n s.
Proof.
  intros Hs Hp Hnp Hns. unfold rt_list_remove. rewrite Hs.
  assert (get_prev (set_prev h s (get_prev h n)) n = Some p) as -> by list_reads.
  eexists; split; [done|]. split; intros x; list_reads.
Qed.

(** * Paths and rings *)

Definition linked h a b : Prop := get_next h a = Some b /\ get_prev h b = Some a.

Fixpoint path h (xs : list N) : Prop :=
  match xs with
  | a :: ((b :: _) as tl) => linked h a b /\ path h tl
  | _ => True
  end.

(** [ring h l xs]: starting at [l], [next] visits [xs] and comes back to [l],
    and [prev] is its inverse. *)
Definition ring h l (xs : list N) : Prop :=
  NoDup (l :: xs) /\ path h (l :: xs ++ [l]).

Lemma path_app h xs a b ys :
  path h (xs ++ a :: b :: ys) <-> path h (xs ++ [a]) /\ linked h a b /\ path h (b :: ys).
Proof.
  induction xs as [|x xs IH]; [simpl; tauto|].
  destruct xs as [|y xs]; simpl in *; tauto.
Qed.

Lemma path_ext h h' xs :
  (forall x, x ∈ removelast xs -> get_next h' x = get_next h x) ->
  (forall x, x ∈ tail xs -> get_prev h' x = get_prev h x) ->
  path h xs -> path h' xs.
Proof.
  induction xs as [|a xs IH]; [done|]. destruct xs as [|b xs]; [done|].
  intros Hn Hp [[Hab Hba] Hpath]. split.
  - split; [rewrite Hn by (simpl; set_solver) | rewrite Hp by (simpl; set_solver)]; done.
  - apply IH; [| |done]; intros x Hx; [apply Hn|apply Hp]; simpl in *; set_solver.
Qed.

(** Adjacent nodes of a ring, with the source and target sequences split. *)
Lemma ring_split h l xs A p s B :
  ring h l xs -> l :: xs ++ [l] = A ++ p :: s :: B ->
  path h (A ++ [p]) /\ linked h p s /\ path h (s :: B) /\
  p ∉ A /\ p ∉ removelast (s :: B) /\ s ∉ tail (A ++ [p]) /\ s ∉ B.
Proof.
  intros [Hnd Hpath] E. rewrite E in Hpath.
  apply path_app in Hpath as (H1 & H2 & H3).
  assert (A ++ p :: removelast (s :: B) = l :: xs) as Hsrc.
  { apply (f_equal (@removelast N)) in E. rewrite removelast_app_cons in E.
    change (l :: xs ++ [l]) with ((l :: xs) ++ [l]) in E.
    by rewrite removelast_snoc in E. }
  assert (tail (A ++ [p]) ++ s :: B = xs ++ [l]) as Htgt.
  { apply (f_equal (@tl N)) in E. rewrite tail_app_cons in E. done. }
  assert (NoDup (xs ++ [l])) as Hnd' by (by rewrite <- Permutation_cons_append).
  rewrite <- Hsrc in Hnd. rewrite <- Htgt in Hnd'.
  apply NoDup_delete_middle in Hnd as [_ Hp], Hnd' as [_ Hs].
  split_and!; try done; set_solver.
Qed.

Lemma ring_splice h h' l xs A p n s B :
  ring h l xs -> l :: xs ++ [l] = A ++ p :: s :: B -> n ∉ l :: xs ->
  spliced h h' p n s -> path h' (A ++ p :: n :: s :: B).
Proof.
  intros Hr E Hn [Hnx Hpv].
  destruct (ring_split _ _ _ _ _ _ _ Hr E) as (H1 & H2 & H3 & ? & ? & ? & ?).
  assert (forall x, x ∈ A ++ p :: s :: B -> x <> n) as Hne.
  { intros x Hx ->. rewrite <- E in Hx. set_solver. }
  assert (forall x, x ∈ removelast (s :: B) -> x ∈ s :: B) as Hrl.
  { intros x Hx. rewrite (app_removelast_last s (l := s :: B)) by done. set_solver. }
  assert (forall x, x ∈ tail (A ++ [p]) -> x ∈ A ++ [p]) as Htl.
  { intros x Hx. destruct A; simpl in *; set_solver. }
  assert (n <> p) by (intros ->; eapply (Hne p); [set_solver|done]).
  assert (n <> s) by (intros ->; eapply (Hne s); [set_solver|done]).
  apply path_app; split; [|split].
  - eapply path_ext; [| |exact H1].
    + rewrite removelast_snoc. intros x Hx. rewrite Hnx.
      rewrite !decide_False; [done| |]; intros ->; set_solver.
    + intros x Hx. rewrite Hpv.
      rewrite !decide_False; [done| |]; intros ->; [|done].
      eapply (Hne n); [|done]. set_solver.
  - split; [rewrite Hnx, decide_True by done | rewrite Hpv, decide_False, decide_True by done];
      done.
  - simpl. split.
    + split; [rewrite Hnx, decide_False, decide_True by done
             | rewrite Hpv, decide_True by done]; done.
    + change (path h' (s :: B)). eapply path_ext; [| |exact H3].
      * intros x Hx. rewrite Hnx.
        rewrite !decide_False; [done| |]; intros ->; [|done].
        eapply (Hne n); [|done]. set_solver.
      * simpl. intros x Hx. rewrite Hpv.
        rewrite !decide_False; [done| |]; intros ->; set_solver.
Qed.

Lemma ring_unsplice h h' l xs A p n s B :
  ring h l xs -> l :: xs ++ [l] = A ++ p :: n :: s :: B -> n <> l ->
  unspliced h h' p n s -> path h' (A ++ p :: s :: B).
Proof.
  intros Hr E Hnl [Hnx Hpv].
  destruct (ring_split _ _ _ _ _ _ _ Hr E) as (P1 & _ & _ & Q1 & Q2 & Q3 & Q4).
  assert (l :: xs ++ [l] = (A ++ [p]) ++ n :: s :: B) as E' by (by rewrite <- app_assoc).
  destruct (ring_split _ _ _ _ _ _ _ Hr E') as (_ & _ & P3 & R1 & R2 & R3 & R4).
  assert (p <> n) as Hpn by (intros ->; apply R1; set_solver +).
  assert (s <> n) as Hsn by (intros ->; apply Q4; set_solver +).
  assert (tail ((A ++ [p]) ++ [n]) = tail (A ++ [p]) ++ [n]) as Et by (by destruct A).
  assert (removelast (n :: s :: B) = n :: removelast (s :: B)) as Er by done.
  rewrite Et in R3. rewrite Er in Q2.
  apply path_app; split; [|split].
  - eapply path_ext; [| |exact P1].
    + rewrite removelast_snoc. intros x Hx. rewrite Hnx.
      rewrite !decide_False; [done| |]; intros ->; set_solver +Hx Q1 R1.
    + intros x Hx. rewrite Hpv.
      rewrite !decide_False; [done| |]; intros ->; set_solver +Hx Q3 R3.
  - split; [rewrite Hnx, decide_False, decide_True by done
           | rewrite Hpv, decide_False, decide_True by done]; done.
  - eapply path_ext; [| |exact P3].
    + intros x Hx. rewrite Hnx.
      rewrite !decide_False; [done| |]; intros ->; set_solver +Hx Q2 R2.
    + simpl. intros x Hx. rewrite Hpv.
      rewrite !decide_False; [done| |]; intros ->; set_solver +Hx Q4 R4.
Qed.

Lemma ring_frame h h' l xs :
  (forall x, x ∈ l :: xs -> get_next h' x = get_next h x /\ get_prev h' x = get_prev h x) ->
  ring h l xs -> ring h' l xs.
Proof.
  intros Hext [Hnd Hp]. split; [done|]. eapply path_ext; [| |done].
  - change (l :: xs ++ [l]) with ((l :: xs) ++ [l]). rewrite removelast_snoc.
    intros x Hx. by apply Hext.
  - simpl. intros x Hx. apply Hext. set_solver +Hx.
Qed.

(** ** The primitives on one ring *)

Lemma ring_self h l : ring h l [] <-> get_next h l = Some l /\ get_prev h l = Some l.
Proof.
  unfold ring, linked. simpl. split; [by intros [_ [[??] _]]|]. intros [? ?].
  split; [apply NoDup_singleton|]. done.
Qed.

Lemma ring_next h l xs : ring h l xs -> get_next h l = head (xs ++ [l]).
Proof. intros [_ Hp]. destruct xs; simpl in *; destruct Hp as [[??] _]; done. Qed.

Lemma path_split h xs a b ys : path h (xs ++ a :: b :: ys) -> linked h a b.
Proof. intros Hp. by apply path_app in Hp as (_ & ? & _). Qed.

(** The successor of the last node of a prefix, and the predecessor of the head. *)
Lemma ring_next_at h l ys zs a :
  ring h l (ys ++ zs) -> last (l :: ys) = Some a -> get_next h a = head (zs ++ [l]).
Proof.
  intros [_ Hp] Ha. apply last_Some in Ha as [A EA].
  assert (exists b B, zs ++ [l] = b :: B) as (b & B & EB) by (destruct zs; simpl; eauto).
  rewrite EB. simpl. apply (path_split h A a b B).
  replace (A ++ a :: b :: B) with (l :: (ys ++ zs) ++ [l]); [done|].
  rewrite <- app_assoc, EB, app_comm_cons, EA, <- app_assoc. done.
Qed.

Lemma ring_prev h l xs : ring h l xs -> get_prev h l = last (l :: xs).
Proof.
  intros [_ Hp]. destruct (last (l :: xs)) as [a|] eqn:E; [|by apply last_None in E].
  apply last_Some in E as [A EA]. apply (path_split h A a l []).
  replace (A ++ [a; l]) with (l :: xs ++ [l]); [done|].
  rewrite app_comm_cons, EA, <- app_assoc. done.
Qed.

Lemma ring_isempty h l xs :
  ring h l xs -> rt_list_isempty l h = bool_decide (xs = []).
Proof.
  intros Hr. unfold rt_list_isempty. rewrite (ring_next _ _ _ Hr).
  destruct xs as [|x xs]; simpl; [by rewrite !bool_decide_true|].
  rewrite !bool_decide_false; [done..|]. destruct Hr as [Hnd _].
  intros [= ->]. apply NoDup_cons in Hnd. set_solver.
Qed.

Lemma ring_init l h : ring (rt_list_init l h) l [].
Proof. apply ring_self. unfold rt_list_init. split; list_reads. Qed.

(** Insertion at a position of the sequence; the code names the position by
    its successor ([rt_list_insert_before]) or predecessor
    ([rt_list_insert_after]). *)
Lemma ring_insert_before h l xs ys zs s n :
  ring h l xs -> xs = ys ++ zs -> head (zs ++ [l]) = Some s -> n ∉ l :: xs ->
  exists p h', rt_list_insert_before s n h = Some h' /\ spliced h h' p n s /\
    p ∈ l :: xs /\ s ∈ l :: xs /\ ring h' l (ys ++ n :: zs).
Proof.
  intros Hr -> Hs Hn.
  destruct (exists_last (l := l :: ys)) as (A & p & EA); [done|].
  destruct (zs ++ [l]) as [|s' B] eqn:EB; [done|]. injection Hs as ->.
  assert (l :: (ys ++ zs) ++ [l] = A ++ p :: s :: B) as E.
  { rewrite <- app_assoc, EB. change (l :: ys ++ s :: B) with ((l :: ys) ++ s :: B).
    rewrite EA, <- app_assoc. done. }
  destruct (ring_split _ _ _ _ _ _ _ Hr E) as (_ & [_ Hp] & _).
  assert (forall x, x ∈ A ++ p :: s :: B -> x ∈ l :: ys ++ zs) as Hin.
  { intros x Hx. rewrite <- E in Hx. set_solver +Hx. }
  assert (p ∈ l :: ys ++ zs /\ s ∈ l :: ys ++ zs) as [Hpin Hsin].
  { split; apply Hin; set_solver +. }
  destruct (insert_before_spliced s n p h Hp) as (h' & Hh' & Hsp); [congruence..|].
  exists p, h'. split_and!; [done..|]. split.
  - change (NoDup ((l :: ys) ++ n :: zs)). apply NoDup_insert_middle; [apply Hr|done].
  - assert (l :: (ys ++ n :: zs) ++ [l] = A ++ p :: n :: s :: B) as ->.
    { rewrite <- app_assoc. simpl. rewrite EB.
      change (l :: ys ++ n :: s :: B) with ((l :: ys) ++ n :: s :: B).
      rewrite EA, <- app_assoc. done. }
    eapply ring_splice; eauto.
Qed.

Lemma ring_insert_after h l xs ys zs p n :
  ring h l xs -> xs = ys ++ zs -> last (l :: ys) = Some p -> n ∉ l :: xs ->
  exists s h', rt_list_insert_after p n h = Some h' /\ spliced h h' p n s /\
    p ∈ l :: xs /\ s ∈ l :: xs /\ ring h' l (ys ++ n :: zs).
Proof.
  intros Hr -> Hlast Hn.
  destruct (exists_last (l := l :: ys)) as (A & p' & EA); [done|].
  rewrite EA, last_snoc in Hlast. injection Hlast as ->.
  destruct (zs ++ [l]) as [|s B] eqn:EB; [by destruct zs|].
  assert (l :: (ys ++ zs) ++ [l] = A ++ p :: s :: B) as E.
  { rewrite <- app_assoc, EB. change (l :: ys ++ s :: B) with ((l :: ys) ++ s :: B).
    rewrite EA, <- app_assoc. done. }
  destruct (ring_split _ _ _ _ _ _ _ Hr E) as (_ & [Hs _] & _).
  assert (forall x, x ∈ A ++ p :: s :: B -> x ∈ l :: ys ++ zs) as Hin.
  { intros x Hx. rewrite <- E in Hx. set_solver +Hx. }
  assert (p ∈ l :: ys ++ zs /\ s ∈ l :: ys ++ zs) as [Hpin Hsin].
  { split; apply Hin; set_solver +. }
  destruct (insert_after_spliced p n s h Hs) as (h' & Hh' & Hsp); [congruence..|].
  exists s, h'. split_and!; [done..|]. split.
  - change (NoDup ((l :: ys) ++ n :: zs)). apply NoDup_insert_middle; [apply Hr|done].
  - assert (l :: (ys ++ n :: zs) ++ [l] = A ++ p :: n :: s :: B) as ->.
    { rewrite <- app_assoc. simpl. rewrite EB.
      change (l :: ys ++ n :: s :: B) with ((l :: ys) ++ n :: s :: B).
      rewrite EA, <- app_assoc. done. }
    eapply ring_splice; eauto.
Qed.

Lemma ring_remove h l ys zs n :
  ring h l (ys ++ n :: zs) ->
  exists p s h', rt_list_remove n h = Some h' /\ unspliced h h' p n s /\
    p ∈ l :: ys ++ zs /\ s ∈ l :: ys ++ zs /\ ring h' l (ys ++ zs) /\ ring h' n [].
Proof.
  intros Hr.
  destruct (exists_last (l := l :: ys)) as (A & p & EA); [done|].
  destruct (zs ++ [l]) as [|s B] eqn:EB; [by destruct zs|].
  assert (l :: (ys ++ n :: zs) ++ [l] = A ++ p :: n :: s :: B) as E.
  { rewrite <- app_assoc. simpl. rewrite EB.
    change (l :: ys ++ n :: s :: B) with ((l :: ys) ++ n :: s :: B).
    rewrite EA, <- app_assoc. done. }
  destruct (ring_split _ _ _ _ _ _ _ Hr E) as (_ & [_ Hp] & Hp2 & Q).
  assert (linked h n s) as [Hs _].
  { destruct Hp2. done. }
  assert (NoDup (l :: ys ++ zs) /\ n ∉ l :: ys ++ zs) as [Hnd Hn].
  { apply (NoDup_delete_middle (l :: ys) zs n). apply Hr. }
  assert (p ∈ l :: ys ++ zs) as Hpin.
  { assert (p ∈ l :: ys) by (rewrite EA; set_solver +). set_solver. }
  assert (s ∈ l :: ys ++ zs) as Hsin.
  { assert (s ∈ zs ++ [l]) by (rewrite EB; set_solver +). set_solver. }
  destruct (remove_unspliced n p s h Hs Hp) as (h' & Hh' & Hun); [congruence..|].
  exists p, s, h'. split_and!; [done..| |].
  - split; [done|].
    assert (l :: (ys ++ zs) ++ [l] = A ++ p :: s :: B) as ->.
    { rewrite <- app_assoc, EB. change (l :: ys ++ s :: B) with ((l :: ys) ++ s :: B).
      rewrite EA, <- app_assoc. done. }
    eapply ring_unsplice; eauto. set_solver +Hn.
  - apply ring_self. destruct Hun as [-> ->]. by rewrite !decide_True.
Qed.

Lemma ring_remove_self h n :
  ring h n [] ->
  exists h', rt_list_remove n h = Some h' /\
    (forall x, get_next h' x = get_next h x /\ get_prev h' x = get_prev h x).
Proof.
  intros [Hn Hp]%ring_self. unfold rt_list_remove. rewrite Hn.
  assert (get_prev (set_prev h n (get_prev h n)) n = Some n) as -> by list_reads.
  eexists; split; [done|]. intros x; split; list_reads.
Qed.

(** ** Walking a ring *)

Lemma get_next_dom h x y : get_next h x = Some y -> x ∈ dom h.
Proof.
  unfold get_next, cell. intros Hx. apply elem_of_dom.
  destruct (h !! x); simpl in Hx; [eauto|done].
Qed.

Lemma path_dom h xs b : path h (xs ++ [b]) -> forall x, x ∈ xs -> x ∈ dom h.
Proof.
  induction xs as [|a xs IH]; [set_solver|]. intros Hp x Hx.
  assert (exists c, linked h a c) as (c & Hc & _).
  { destruct xs; simpl in Hp; destruct Hp; eauto. }
  apply elem_of_cons in Hx as [->|Hx]; [by eapply get_next_dom|].
  apply IH; [|done]. destruct xs; simpl in *; [done|tauto].
Qed.

Lemma ring_length h l xs : ring h l xs -> length xs < size h.
Proof.
  intros [Hnd Hp].
  assert (list_to_set (l :: xs) ⊆@{gset N} dom h) as Hsub.
  { intros x Hx. eapply (path_dom h (l :: xs)); [done|]. by apply elem_of_list_to_set in Hx. }
  apply subseteq_size in Hsub. rewrite size_list_to_set in Hsub by done.
  rewrite size_dom in Hsub. simpl in Hsub. lia.
Qed.

Lemma list_walk_path h l xs x fuel :
  path h (xs ++ [l]) -> l ∉ xs -> head (xs ++ [l]) = Some x -> length xs < fuel ->
  list_walk fuel l x h = Some xs.
Proof.
  revert x fuel. induction xs as [|a xs IH]; intros x fuel Hp Hl Hx Hf;
    (destruct fuel as [|fuel]; [simpl in Hf; lia|]); simpl in *; injection Hx as <-.
  - by rewrite decide_True.
  - rewrite decide_False by set_solver.
    assert (get_next h a = head (xs ++ [l]) /\ path h (xs ++ [l])) as [-> Hp'].
    { destruct xs; simpl in *; destruct Hp as [[??] ?]; done. }
    destruct (head (xs ++ [l])) as [y|] eqn:E; [|by destruct xs].
    rewrite (IH y fuel); [done|done|set_solver|done|lia].
Qed.

(** The loop over a ring visits exactly its members, in order, and ends within
    the fuel the store gives. *)
Lemma list_nodes_ring h l xs : ring h l xs -> list_nodes l h = Some xs.
Proof.
  intros Hr. pose proof (ring_length _ _ _ Hr) as Hlen.
  unfold list_nodes. rewrite (ring_next _ _ _ Hr). destruct Hr as [Hnd Hp].
  apply NoDup_cons in Hnd as [Hl _].
  destruct (head (xs ++ [l])) as [y|] eqn:E; [|by destruct xs].
  apply list_walk_path; [|done..|lia].
  destruct xs; simpl in *; [done|tauto].
Qed.

(** * A store of disjoint rings *)

Implicit Types Q : gmap N (list N).

Record Rep h Q : Prop := {
  rep_ring : forall l xs, Q !! l = Some xs -> ring h l xs;
  rep_disj : forall l1 l2 xs1 xs2 x, Q !! l1 = Some xs1 -> Q !! l2 = Some xs2 ->
    x ∈ l1 :: xs1 -> x ∈ l2 :: xs2 -> l1 = l2 }.

(** [n] is a member of no ring, save possibly the head of an empty one. *)
Definition detached Q n : Prop :=
  forall l xs, Q !! l = Some xs -> n ∉ xs /\ (l = n -> xs = []).

Lemma Rep_detached_self h Q n : Rep h Q -> Q !! n = Some [] -> detached Q n.
Proof.
  intros Hrep Hn l xs Hl. split; [|intros ->; congruence].
  intros Hin. assert (n = l) as <-.
  { eapply (rep_disj _ _ Hrep n l [] xs n); [done..| |]; set_solver. }
  assert (xs = []) as -> by congruence. set_solver.
Qed.

Lemma Rep_not_self h Q l xs : Rep h Q -> Q !! l = Some xs -> l ∉ xs.
Proof. intros Hrep Hl. apply (rep_ring _ _ Hrep), proj1, NoDup_cons in Hl. tauto. Qed.

Lemma Rep_NoDup h Q l xs : Rep h Q -> Q !! l = Some xs -> NoDup xs.
Proof. intros Hrep Hl. apply (rep_ring _ _ Hrep), proj1, NoDup_cons in Hl. tauto. Qed.

(** A node sits in one ring only. *)
Lemma Rep_unique h Q l1 l2 xs1 xs2 x :
  Rep h Q -> Q !! l1 = Some xs1 -> Q !! l2 = Some xs2 -> x ∈ xs1 -> x ∈ xs2 -> l1 = l2.
Proof. intros Hrep H1 H2 ??. eapply (rep_disj _ _ Hrep l1 l2 xs1 xs2 x); [done..| |]; set_solver. Qed.

(** A member of a ring heads none. *)
Lemma Rep_member_head h Q l xs x : Rep h Q -> Q !! l = Some xs -> x ∈ xs -> Q !! x = None.
Proof.
  intros Hrep Hl Hx. destruct (Q !! x) as [ys|] eqn:E; [|done].
  assert (x = l) as ->.
  { eapply (rep_disj _ _ Hrep x l ys xs x); [done..| |]; set_solver. }
  by destruct (Rep_not_self _ _ _ _ Hrep Hl).
Qed.

Lemma Rep_isempty h Q l xs :
  Rep h Q -> Q !! l = Some xs -> rt_list_isempty l h = bool_decide (xs = []).
Proof. intros Hrep Hl. by apply ring_isempty, (rep_ring _ _ Hrep). Qed.

Lemma Rep_next h Q l xs :
  Rep h Q -> Q !! l = Some xs -> get_next h l = head (xs ++ [l]).
Proof. intros Hrep Hl. by apply ring_next, (rep_ring _ _ Hrep). Qed.

Lemma Rep_prev h Q l xs : Rep h Q -> Q !! l = Some xs -> get_prev h l = last (l :: xs).
Proof. intros Hrep Hl. by apply ring_prev, (rep_ring _ _ Hrep). Qed.

Lemma Rep_next_at h Q l ys zs a :
  Rep h Q -> Q !! l = Some (ys ++ zs) -> last (l :: ys) = Some a -> get_next h a = head (zs ++ [l]).
Proof. intros Hrep Hl. by apply ring_next_at, (rep_ring _ _ Hrep). Qed.

Lemma Rep_prev_at h Q l ys zs n :
  Rep h Q -> Q !! l = Some (ys ++ n :: zs) -> get_prev h n = last (l :: ys).
Proof.
  intros Hrep Hl. destruct (rep_ring _ _ Hrep _ _ Hl) as [_ Hp].
  destruct (last (l :: ys)) as [a|] eqn:E; [|by apply last_None in E].
  apply last_Some in E as [A EA]. apply (path_split h A a n (zs ++ [l])).
  replace (A ++ a :: n :: zs ++ [l]) with (l :: (ys ++ n :: zs) ++ [l]); [done|].
  rewrite <- app_assoc, app_comm_cons, EA, <- app_assoc. done.
Qed.

(** The test of rt_thread_yield: the two neighbours of a member are the same
    node just when it is the only member. *)
Lemma Rep_alone h Q l ys zs n :
  Rep h Q -> Q !! l = Some (ys ++ n :: zs) ->
  get_next h n = get_prev h n <-> ys ++ zs = [].
Proof.
  intros Hrep Hl. rewrite (Rep_prev_at _ _ _ _ _ _ Hrep Hl).
  rewrite (Rep_next_at h Q l (ys ++ [n]) zs n); [|done|by rewrite <- app_assoc|by rewrite app_comm_cons, last_snoc].
  destruct (rep_ring _ _ Hrep _ _ Hl) as [Hnd _]. split.
  - intros E. destruct zs as [|z zs].
    + destruct ys as [|y ys] using rev_ind; [done|]. simpl in E.
      rewrite app_comm_cons, last_snoc in E. injection E as <-.
      rewrite NoDup_cons in Hnd. destruct Hnd. set_solver.
    + simpl in E. symmetry in E. exfalso. apply last_Some in E as [A EA].
      rewrite app_comm_cons, EA in Hnd. apply NoDup_app in Hnd as (_ & Hd & _).
      apply (Hd z); set_solver.
  - intros [-> ->]%app_nil. done.
Qed.

Lemma Rep_length h Q l xs : Rep h Q -> Q !! l = Some xs -> length xs < size h.
Proof. intros Hrep Hl. by eapply ring_length, (rep_ring _ _ Hrep). Qed.

Lemma Rep_nodes h Q l xs : Rep h Q -> Q !! l = Some xs -> list_nodes l h = Some xs.
Proof. intros Hrep Hl. by apply list_nodes_ring, (rep_ring _ _ Hrep). Qed.

Lemma Rep_splice h h' Q l ys zs n p s :
  Rep h Q -> Q !! l = Some (ys ++ zs) -> detached Q n -> n <> l ->
  spliced h h' p n s -> p ∈ l :: ys ++ zs -> s ∈ l :: ys ++ zs ->
  ring h' l (ys ++ n :: zs) ->
  Rep h' (<[l := ys ++ n :: zs]> (delete n Q)).
Proof.
  intros Hrep Hl Hdet Hnl [Hnx Hpv] Hp Hs Hr.
  assert (forall l' xs, delete n Q !! l' = Some xs -> l' <> l ->
            Q !! l' = Some xs /\ forall x, x ∈ l' :: xs -> x ∉ l :: ys ++ zs /\ x <> n) as Hoth.
  { intros l' xs [Hne Hl']%lookup_delete_Some Hll'. split; [done|]. intros x Hx. split.
    - intros Hx'. apply Hll'. by eapply (rep_disj _ _ Hrep).
    - intros ->. apply elem_of_cons in Hx as [->|Hx]; [done|].
      by apply (Hdet l' xs). }
  split.
  - intros l' xs [[-> <-]|[Hne Hl']]%lookup_insert_Some; [done|].
    destruct (Hoth l' xs Hl') as [HQ Hx]; [done|].
    eapply ring_frame; [|by apply (rep_ring _ _ Hrep)].
    intros x [Hx1 Hx2]%Hx. rewrite Hnx, Hpv.
    rewrite !decide_False by (intros ->; done). done.
  - intros l1 l2 xs1 xs2 x
      [[<- <-]|[Hne1 H1]]%lookup_insert_Some [[<- <-]|[Hne2 H2]]%lookup_insert_Some Hx1 Hx2.
    + done.
    + destruct (Hoth l2 xs2 H2) as [_ Ho]; [done|]. destruct (Ho x Hx2).
      set_solver.
    + destruct (Hoth l1 xs1 H1) as [_ Ho]; [done|]. destruct (Ho x Hx1).
      set_solver.
    + destruct (Hoth l1 xs1 H1) as [? _]; [done|]. destruct (Hoth l2 xs2 H2) as [? _]; [done|].
      by eapply (rep_disj _ _ Hrep).
Qed.

Lemma Rep_detached_notin h Q l xs n :
  Q !! l = Some xs -> detached Q n -> n <> l -> n ∉ l :: xs.
Proof. intros Hl Hdet Hne. destruct (Hdet l xs Hl). set_solver. Qed.

(** Enqueue at the tail: [rt_list_insert_before] on the head. *)
Lemma Rep_insert_before h Q l xs n :
  Rep h Q -> Q !! l = Some xs -> detached Q n -> n <> l ->
  exists h', rt_list_insert_before l n h = Some h' /\
    Rep h' (<[l := xs ++ [n]]> (delete n Q)).
Proof.
  intros Hrep Hl Hdet Hnl.
  destruct (ring_insert_before h l xs xs [] l n) as (p & h' & Hh & Hsp & Hp & Hs & Hr);
    [by apply (rep_ring _ _ Hrep)|by rewrite app_nil_r|done
    |by eapply Rep_detached_notin|].
  exists h'. split; [done|]. apply (Rep_splice h h' Q l xs [] n p l); try done;
    by rewrite ?app_nil_r.
Qed.

(** Insert in front of the member [s]. *)
Lemma Rep_insert_before_mem h Q l ys zs s n :
  Rep h Q -> Q !! l = Some (ys ++ s :: zs) -> detached Q n -> n <> l ->
  exists h', rt_list_insert_before s n h = Some h' /\
    Rep h' (<[l := ys ++ n :: s :: zs]> (delete n Q)).
Proof.
  intros Hrep Hl Hdet Hnl.
  destruct (ring_insert_before h l (ys ++ s :: zs) ys (s :: zs) s n)
    as (p & h' & Hh & Hsp & Hp & Hs & Hr);
    [by apply (rep_ring _ _ Hrep)|done|done|by eapply Rep_detached_notin|].
  exists h'. split; [done|]. by apply (Rep_splice h h' Q l ys (s :: zs) n p s).
Qed.

(** Push at the front: [rt_list_insert_after] on the head. *)
Lemma Rep_insert_after h Q l xs n :
  Rep h Q -> Q !! l = Some xs -> detached Q n -> n <> l ->
  exists h', rt_list_insert_after l n h = Some h' /\
    Rep h' (<[l := n :: xs]> (delete n Q)).
Proof.
  intros Hrep Hl Hdet Hnl.
  destruct (ring_insert_after h l xs [] xs l n) as (s & h' & Hh & Hsp & Hp & Hs & Hr);
    [by apply (rep_ring _ _ Hrep)|done|done|by eapply Rep_detached_notin|].
  exists h'. split; [done|]. by apply (Rep_splice h h' Q l [] xs n l s).
Qed.

(** Insert behind the member [p]. *)
Lemma Rep_insert_after_mem h Q l ys p zs n :
  Rep h Q -> Q !! l = Some (ys ++ p :: zs) -> detached Q n -> n <> l ->
  exists h', rt_list_insert_after p n h = Some h' /\
    Rep h' (<[l := ys ++ p :: n :: zs]> (delete n Q)).
Proof.
  intros Hrep Hl Hdet Hnl.
  assert (forall m, ys ++ p :: m = (ys ++ [p]) ++ m) as Eapp by (intros; by rewrite <- app_assoc).
  rewrite (Eapp (n :: zs)). rewrite (Eapp zs) in Hl.
  destruct (ring_insert_after h l ((ys ++ [p]) ++ zs) (ys ++ [p]) zs p n)
    as (s & h' & Hh & Hsp & Hp & Hs & Hr);
    [by apply (rep_ring _ _ Hrep)|done|by rewrite app_comm_cons, last_snoc
    |by eapply Rep_detached_notin|].
  exists h'. split; [done|]. by apply (Rep_splice h h' Q l (ys ++ [p]) zs n p s).
Qed.

(** Insertion after the last node of a prefix, the head included. *)
Lemma Rep_insert_at h Q l ys zs a n :
  Rep h Q -> Q !! l = Some (ys ++ zs) -> last (l :: ys) = Some a -> detached Q n -> n <> l ->
  exists h', rt_list_insert_after a n h = Some h' /\
    Rep h' (<[l := ys ++ n :: zs]> (delete n Q)).
Proof.
  intros Hrep Hl Ha Hd Hne. destruct ys as [|y ys' _] using rev_ind.
  - injection Ha as <-. by apply Rep_insert_after.
  - rewrite app_comm_cons, last_snoc in Ha. injection Ha as <-. rewrite <- app_assoc in *.
    by apply Rep_insert_after_mem.
Qed.

(** Unlink a member. *)
Lemma Rep_remove h Q l ys zs n :
  Rep h Q -> Q !! l = Some (ys ++ n :: zs) ->
  exists h', rt_list_remove n h = Some h' /\
    Rep h' (<[n := []]> (<[l := ys ++ zs]> Q)).
Proof.
  intros Hrep Hl.
  destruct (ring_remove h l ys zs n) as (p & s & h' & Hh & [Hnx Hpv] & Hp & Hs & Hr & Hr0);
    [by apply (rep_ring _ _ Hrep)|].
  assert (n <> l) as Hnl.
  { intros ->. apply (Rep_not_self _ _ _ _ Hrep Hl). set_solver. }
  assert (NoDup (ys ++ zs) /\ n ∉ ys ++ zs) as [_ Hn].
  { by eapply NoDup_delete_middle, Rep_NoDup. }
  exists h'. split; [done|].
  assert (forall l' xs, Q !! l' = Some xs -> l' <> l ->
            forall x, x ∈ l' :: xs -> x ∉ l :: ys ++ n :: zs) as Hoth.
  { intros l' xs Hl' Hne x Hx Hx'. apply Hne. by eapply (rep_disj _ _ Hrep). }
  split.
  - intros l' xs [[-> <-]|[Hne [[-> <-]|[Hne' Hl']]%lookup_insert_Some]]%lookup_insert_Some;
      [done..|].
    eapply ring_frame; [|by apply (rep_ring _ _ Hrep)].
    intros x Hx. pose proof (Hoth l' xs Hl' (not_eq_sym Hne') x Hx) as Hx'.
    rewrite Hnx, Hpv. rewrite !decide_False; [done|..]; intros ->; set_solver +Hp Hs Hx'.
  - intros l1 l2 xs1 xs2 x
      [[<- <-]|[Hne1 [[<- <-]|[Hne1' H1]]%lookup_insert_Some]]%lookup_insert_Some
      [[<- <-]|[Hne2 [[<- <-]|[Hne2' H2]]%lookup_insert_Some]]%lookup_insert_Some Hx1 Hx2;
      try done; try (exfalso; set_solver +Hx1 Hx2 Hn Hnl).
    + pose proof (Hoth l2 xs2 H2 (not_eq_sym Hne2') x Hx2). set_solver.
    + pose proof (Hoth l2 xs2 H2 (not_eq_sym Hne2') x Hx2). set_solver.
    + pose proof (Hoth l1 xs1 H1 (not_eq_sym Hne1') x Hx1). set_solver.
    + pose proof (Hoth l1 xs1 H1 (not_eq_sym Hne1') x Hx1). set_solver.
    + by eapply (rep_disj _ _ Hrep).
Qed.

Lemma Rep_remove_self h Q n :
  Rep h Q -> Q !! n = Some [] -> exists h', rt_list_remove n h = Some h' /\ Rep h' Q.
Proof.
  intros Hrep Hn.
  destruct (ring_remove_self h n) as (h' & Hh & Hext); [by apply (rep_ring _ _ Hrep)|].
  exists h'. split; [done|]. split; [|apply (rep_disj _ _ Hrep)].
  intros l xs Hl. eapply ring_frame; [|by apply (rep_ring _ _ Hrep)]. intros; apply Hext.
Qed.

Lemma Rep_init h Q n :
  Rep h Q -> detached Q n -> Rep (rt_list_init n h) (<[n := []]> Q).
Proof.
  intros Hrep Hdet.
  assert (forall l xs, Q !! l = Some xs -> n <> l -> n ∉ l :: xs) as Hoth.
  { intros l xs Hl Hne. destruct (Hdet l xs Hl). set_solver. }
  split.
  - intros l xs [[-> <-]|[Hne Hl]]%lookup_insert_Some; [apply ring_init|].
    eapply ring_frame; [|by apply (rep_ring _ _ Hrep)].
    intros x Hx. assert (n <> x) by (intros <-; by eapply Hoth).
    unfold rt_list_init. split; list_reads.
  - intros l1 l2 xs1 xs2 x
      [[<- <-]|[Hne1 H1]]%lookup_insert_Some [[<- <-]|[Hne2 H2]]%lookup_insert_Some Hx1 Hx2.
    + done.
    + exfalso. apply (Hoth l2 xs2 H2); [done|]. set_solver.
    + exfalso. apply (Hoth l1 xs1 H1); [done|]. set_solver.
    + by eapply (rep_disj _ _ Hrep).
Qed.

(** Inserting a free node and removing it again gives the lists back. *)
Theorem rt_list_insert_remove h Q l xs n :
  Rep h Q -> Q !! l = Some xs -> Q !! n = Some [] -> n <> l ->
  exists h1 h2, rt_list_insert_before l n h = Some h1 /\ Rep h1 (<[l := xs ++ [n]]> (delete n Q)) /\
    rt_list_remove n h1 = Some h2 /\ Rep h2 Q.
Proof.
  intros Hrep Hl Hn Hne.
  destruct (Rep_insert_before h Q l xs n Hrep Hl) as (h1 & Hh1 & Hrep1);
    [by eapply Rep_detached_self|done|].
  destruct (Rep_remove h1 _ l xs [] n Hrep1) as (h2 & Hh2 & Hrep2); [by rewrite lookup_insert_eq|].
  exists h1, h2. split_and!; [done..|]. rewrite app_nil_r in Hrep2.
  assert (<[n := []]> (<[l := xs]> (<[l := xs ++ [n]]> (delete n Q))) = Q) as E; [|by rewrite E in Hrep2].
  apply map_eq. intros x. rewrite !lookup_insert, lookup_delete. repeat case_decide; congruence.
Qed.

End rt_list.

Arguments rt_list_node : clear implicits.
Arguments mk_node {N} next prev.
