(* ===== verification/KState.v ===== *)
(** The data of the kernel (include/rtdef.h) and its global state.

    Pointers to kernel structs are identities: threads, semaphores, mutexes,
    events, mailboxes and message queues are numbered, a timer is the one built
    into a thread or a free-standing one.  Each struct type has a store, a total
    function from identity to contents; the [rt_list_t] nodes embedded in the
    structs and the list heads among the globals are the constructors of [node]
    and live in one store of their own, so that the aliasing of the lists is the
    one of the code. *)

From S2P Require Import Prelude RtList.

(** * Constants (include/rtdef.h and bsp/stm32f40x/rtconfig.h) *)

Definition RT_EOK : Z := 0.
Definition RT_ERROR : Z := 1.
Definition RT_ETIMEOUT : Z := 2.
Definition RT_EFULL : Z := 3.

Definition RT_THREAD_INIT : Z := 0.
Definition RT_THREAD_READY : Z := 1.
Definition RT_THREAD_SUSPEND : Z := 2.
Definition RT_THREAD_CLOSE : Z := 4.

Definition RT_TIMER_FLAG_ACTIVATED : Z := 1.
Definition RT_TIMER_FLAG_ONE_SHOT : Z := 0.
Definition RT_TIMER_FLAG_PERIODIC : Z := 2.

Definition RT_IPC_FLAG_FIFO : Z := 0.
Definition RT_IPC_FLAG_PRIO : Z := 1.
Definition RT_IPC_CMD_RESET : Z := 1.
Definition RT_WAITING_FOREVER : Z := -1.

Definition RT_EVENT_FLAG_AND : Z := 1.
Definition RT_EVENT_FLAG_OR : Z := 2.
Definition RT_EVENT_FLAG_CLEAR : Z := 4.

Definition RT_UINT32_MAX : Z := 4294967295.
Definition RT_TICK_MAX : Z := RT_UINT32_MAX.

Definition RT_NAME_MAX : nat := 32.
Definition RT_ALIGN_SIZE : Z := 8.
Definition RT_THREAD_PRIORITY_MAX : Z := 32.
Definition RT_TICK_PER_SECOND : Z := 200.

(** [enum rt_object_class_type] for the options of rtconfig.h. *)
Definition RT_Object_Class_Thread : Z := 0.
Definition RT_Object_Class_Semaphore : Z := 1.
Definition RT_Object_Class_Mutex : Z := 2.
Definition RT_Object_Class_Event : Z := 3.
Definition RT_Object_Class_MailBox : Z := 4.
Definition RT_Object_Class_MessageQueue : Z := 5.
Definition RT_Object_Class_MemPool : Z := 6.
Definition RT_Object_Class_Device : Z := 7.
Definition RT_Object_Class_Timer : Z := 8.
Definition RT_Object_Class_Unknown : Z := 9.
Definition RT_Object_Class_Static : Z := 128.

(** * Identities *)

Inductive timer_id : Type :=
| ThreadTimer (t : nat)      (* thread->thread_timer *)
| UserTimer (n : nat).

Inductive objid : Type :=
| OThread (t : nat)
| OSemaphore (s : nat)
| OMutex (m : nat)
| OEvent (e : nat)
| OMailBox (b : nat)
| OMessageQueue (q : nat)
| OMemPool (p : nat)
| ODevice (d : nat)
| OTimer (tm : timer_id).

(** Every [rt_list_t] of the kernel. *)
Inductive node : Type :=
| ReadyHead (p : Z)          (* rt_thread_priority_table[p] *)
| DefunctHead                (* rt_thread_defunct *)
| TimerHead                  (* rt_timer_list[RT_TIMER_SKIP_LIST_LEVEL - 1] *)
| ObjHead (c : Z)            (* rt_object_container[c].object_list *)
| SuspHead (o : objid)       (* ipc->suspend_thread *)
| SenderHead (b : nat)       (* mb->suspend_sender_thread *)
| TList (t : nat)            (* thread->tlist *)
| ObjNode (o : objid)        (* object->list *)
| TimerRow (tm : timer_id).  (* timer->row[RT_TIMER_SKIP_LIST_LEVEL - 1] *)

#[export] Instance timer_id_eq_dec : EqDecision timer_id.
Proof. solve_decision. Defined.
#[export] Instance objid_eq_dec : EqDecision objid.
Proof. solve_decision. Defined.
#[export] Instance node_eq_dec : EqDecision node.
Proof. solve_decision. Defined.

#[export] Instance timer_id_countable : Countable timer_id.
Proof.
  refine (inj_countable'
    (fun tm => match tm with ThreadTimer t => inl t | UserTimer n => inr n end)
    (fun c => match c with inl t => ThreadTimer t | inr n => UserTimer n end) _).
  by intros [].
Defined.

#[export] Instance objid_countable : Countable objid.
Proof.
  refine (inj_countable'
    (fun o => match o with
              | OTimer tm => inl tm
              | OThread n => inr (0, n) | OSemaphore n => inr (1, n)
              | OMutex n => inr (2, n) | OEvent n => inr (3, n)
              | OMailBox n => inr (4, n) | OMessageQueue n => inr (5, n)
              | OMemPool n => inr (6, n) | ODevice n => inr (7, n)
              end)
    (fun c => match c with
              | inl tm => OTimer tm
              | inr (0, n) => OThread n | inr (1, n) => OSemaphore n
              | inr (2, n) => OMutex n | inr (3, n) => OEvent n
              | inr (4, n) => OMailBox n | inr (5, n) => OMessageQueue n
              | inr (6, n) => OMemPool n | inr (_, n) => ODevice n
              end) _).
  by intros [].
Defined.

#[export] Instance node_countable : Countable node.
Proof.
  refine (inj_countable'
    (fun x => match x with
              | SuspHead o => inl (inl (inl o)) | ObjNode o => inl (inl (inr o))
              | TimerRow tm => inl (inr tm)
              | ReadyHead p => inr (inl (inl p)) | ObjHead c => inr (inl (inr c))
              | SenderHead b => inr (inr (0, b)) | TList t => inr (inr (1, t))
              | DefunctHead => inr (inr (2, 0)) | TimerHead => inr (inr (3, 0))
              end)
    (fun c => match c with
              | inl (inl (inl o)) => SuspHead o | inl (inl (inr o)) => ObjNode o
              | inl (inr tm) => TimerRow tm
              | inr (inl (inl p)) => ReadyHead p | inr (inl (inr c)) => ObjHead c
              | inr (inr (0, b)) => SenderHead b | inr (inr (1, t)) => TList t
              | inr (inr (2, _)) => DefunctHead | inr (inr (_, _)) => TimerHead
              end) _).
  by intros [].
Defined.

(** The functions a timer of the kernel calls: [rt_thread_timeout] with its
    thread, or a function of the application with its argument. *)
Inductive timeout_fn : Type :=
| FN_rt_thread_timeout (t : nat)
| FN_user (f : nat) (arg : Z).

(** * Structs *)

(** [struct rt_object] (rtdef.h), the list node apart. *)
Record rt_object : Type := mk_object {
  name : list Z;
  type : Z;
  flag : Z }.

Definition set_name (v : list Z) (o : rt_object) : rt_object :=
  mk_object v (type o) (flag o).
Definition set_type (v : Z) (o : rt_object) : rt_object :=
  mk_object (name o) v (flag o).
Definition set_flag (v : Z) (o : rt_object) : rt_object :=
  mk_object (name o) (type o) v.

(** [struct rt_thread] (rtdef.h); the inherited object fields are in the object
    store, [tlist] and the built-in timer in theirs. [cleanup] is NULL or a function. *)
Record rt_thread : Type := mk_thread {
  sp : Z;
  entry : Z;
  parameter : Z;
  stack_addr : Z;
  stack_size : Z;
  error : Z;
  stat : Z;
  current_priority : Z;
  init_priority : Z;
  number_mask : Z;
  event_set : Z;
  event_info : Z;
  init_tick : Z;
  remaining_tick : Z;
  cleanup : option Z;
  user_data : Z }.

Definition set_sp (v : Z) (th : rt_thread) : rt_thread :=
  mk_thread v (entry th) (parameter th) (stack_addr th) (stack_size th) (error th) (stat th) (current_priority th) (init_priority th) (number_mask th) (event_set th) (event_info th) (init_tick th) (remaining_tick th) (cleanup th) (user_data th).
Definition set_entry (v : Z) (th : rt_thread) : rt_thread :=
  mk_thread (sp th) v (parameter th) (stack_addr th) (stack_size th) (error th) (stat th) (current_priority th) (init_priority th) (number_mask th) (event_set th) (event_info th) (init_tick th) (remaining_tick th) (cleanup th) (user_data th).
Definition set_parameter (v : Z) (th : rt_thread) : rt_thread :=
  mk_thread (sp th) (entry th) v (stack_addr th) (stack_size th) (error th) (stat th) (current_priority th) (init_priority th) (number_mask th) (event_set th) (event_info th) (init_tick th) (remaining_tick th) (cleanup th) (user_data th).
Definition set_stack_addr (v : Z) (th : rt_thread) : rt_thread :=
  mk_thread (sp th) (entry th) (parameter th) v (stack_size th) (error th) (stat th) (current_priority th) (init_priority th) (number_mask th) (event_set th) (event_info th) (init_tick th) (remaining_tick th) (cleanup th) (user_data th).
Definition set_stack_size (v : Z) (th : rt_thread) : rt_thread :=
  mk_thread (sp th) (entry th) (parameter th) (stack_addr th) v (error th) (stat th) (current_priority th) (init_priority th) (number_mask th) (event_set th) (event_info th) (init_tick th) (remaining_tick th) (cleanup th) (user_data th).
Definition set_error (v : Z) (th : rt_thread) : rt_thread :=
  mk_thread (sp th) (entry th) (parameter th) (stack_addr th) (stack_size th) v (stat th) (current_priority th) (init_priority th) (number_mask th) (event_set th) (event_info th) (init_tick th) (remaining_tick th) (cleanup th) (user_data th).
Definition set_stat (v : Z) (th : rt_thread) : rt_thread :=
  mk_thread (sp th) (entry th) (parameter th) (stack_addr th) (stack_size th) (error th) v (current_priority th) (init_priority th) (number_mask th) (event_set th) (event_info th) (init_tick th) (remaining_tick th) (cleanup th) (user_data th).
Definition set_current_priority (v : Z) (th : rt_thread) : rt_thread :=
  mk_thread (sp th) (entry th) (parameter th) (stack_addr th) (stack_size th) (error th) (stat th) v (init_priority th) (number_mask th) (event_set th) (event_info th) (init_tick th) (remaining_tick th) (cleanup th) (user_data th).
Definition set_init_priority (v : Z) (th : rt_thread) : rt_thread :=
  mk_thread (sp th) (entry th) (parameter th) (stack_addr th) (stack_size th) (error th) (stat th) (current_priority th) v (number_mask th) (event_set th) (event_info th) (init_tick th) (remaining_tick th) (cleanup th) (user_data th).
Definition set_number_mask (v : Z) (th : rt_thread) : rt_thread :=
  mk_thread (sp th) (entry th) (parameter th) (stack_addr th) (stack_size th) (error th) (stat th) (current_priority th) (init_priority th) v (event_set th) (event_info th) (init_tick th) (remaining_tick th) (cleanup th) (user_data th).
Definition set_event_set (v : Z) (th : rt_thread) : rt_thread :=
  mk_thread (sp th) (entry th) (parameter th) (stack_addr th) (stack_size th) (error th) (stat th) (current_priority th) (init_priority th) (number_mask th) v (event_info th) (init_tick th) (remaining_tick th) (cleanup th) (user_data th).
Definition set_event_info (v : Z) (th : rt_thread) : rt_thread :=
  mk_thread (sp th) (entry th) (parameter th) (stack_addr th) (stack_size th) (error th) (stat th) (current_priority th) (init_priority th) (number_mask th) (event_set th) v (init_tick th) (remaining_tick th) (cleanup th) (user_data th).
Definition set_init_tick (v : Z) (th : rt_thread) : rt_thread :=
  mk_thread (sp th) (entry th) (parameter th) (stack_addr th) (stack_size th) (error th) (stat th) (current_priority th) (init_priority th) (number_mask th) (event_set th) (event_info th) v (remaining_tick th) (cleanup th) (user_data th).
Definition set_remaining_tick (v : Z) (th : rt_thread) : rt_thread :=
  mk_thread (sp th) (entry th) (parameter th) (stack_addr th) (stack_size th) (error th) (stat th) (current_priority th) (init_priority th) (number_mask th) (event_set th) (event_info th) (init_tick th) v (cleanup th) (user_data th).
Definition set_cleanup (v : option Z) (th : rt_thread) : rt_thread :=
  mk_thread (sp th) (entry th) (parameter th) (stack_addr th) (stack_size th) (error th) (stat th) (current_priority th) (init_priority th) (number_mask th) (event_set th) (event_info th) (init_tick th) (remaining_tick th) v (user_data th).
Definition set_user_data (v : Z) (th : rt_thread) : rt_thread :=
  mk_thread (sp th) (entry th) (parameter th) (stack_addr th) (stack_size th) (error th) (stat th) (current_priority th) (init_priority th) (number_mask th) (event_set th) (event_info th) (init_tick th) (remaining_tick th) (cleanup th) v.

(** [struct rt_timer] (rtdef.h); its flag is the flag of its object. *)
Record rt_timer : Type := mk_timer {
  timeout_func : timeout_fn;
  timer_init_tick : Z;
  timeout_tick : Z }.

Definition set_timeout_func (v : timeout_fn) (tm : rt_timer) : rt_timer :=
  mk_timer v (timer_init_tick tm) (timeout_tick tm).
Definition set_timer_init_tick (v : Z) (tm : rt_timer) : rt_timer :=
  mk_timer (timeout_func tm) v (timeout_tick tm).
Definition set_timeout_tick (v : Z) (tm : rt_timer) : rt_timer :=
  mk_timer (timeout_func tm) (timer_init_tick tm) v.

(** [struct rt_mutex] (rtdef.h). *)
Record rt_mutex : Type := mk_mutex {
  mutex_value : Z;
  original_priority : Z;
  hold : Z;
  owner : option nat }.

Definition set_mutex_value (v : Z) (m : rt_mutex) : rt_mutex :=
  mk_mutex v (original_priority m) (hold m) (owner m).
Definition set_original_priority (v : Z) (m : rt_mutex) : rt_mutex :=
  mk_mutex (mutex_value m) v (hold m) (owner m).
Definition set_hold (v : Z) (m : rt_mutex) : rt_mutex :=
  mk_mutex (mutex_value m) (original_priority m) v (owner m).
Definition set_owner (v : option nat) (m : rt_mutex) : rt_mutex :=
  mk_mutex (mutex_value m) (original_priority m) (hold m) v.

(** [struct rt_mailbox] (rtdef.h); [msg_pool] is the array it points to. *)
Record rt_mailbox : Type := mk_mailbox {
  msg_pool : list Z;
  mb_size : Z;
  mb_entry : Z;
  in_offset : Z;
  out_offset : Z }.

Definition set_msg_pool (v : list Z) (b : rt_mailbox) : rt_mailbox :=
  mk_mailbox v (mb_size b) (mb_entry b) (in_offset b) (out_offset b).
Definition set_mb_size (v : Z) (b : rt_mailbox) : rt_mailbox :=
  mk_mailbox (msg_pool b) v (mb_entry b) (in_offset b) (out_offset b).
Definition set_mb_entry (v : Z) (b : rt_mailbox) : rt_mailbox :=
  mk_mailbox (msg_pool b) (mb_size b) v (in_offset b) (out_offset b).
Definition set_in_offset (v : Z) (b : rt_mailbox) : rt_mailbox :=
  mk_mailbox (msg_pool b) (mb_size b) (mb_entry b) v (out_offset b).
Definition set_out_offset (v : Z) (b : rt_mailbox) : rt_mailbox :=
  mk_mailbox (msg_pool b) (mb_size b) (mb_entry b) (in_offset b) v.

(** [struct rt_mq_message] (ipc.c) followed by the message bytes. *)
Record rt_mq_message : Type := mk_message {
  msg_next : option nat;
  msg_data : list Z }.

(** [struct rt_messagequeue] (rtdef.h); messages are numbered by their slot in the pool. *)
Record rt_messagequeue : Type := mk_mq {
  mq_pool : nat -> rt_mq_message;
  msg_size : Z;
  max_msgs : Z;
  mq_entry : Z;
  msg_queue_head : option nat;
  msg_queue_tail : option nat;
  msg_queue_free : option nat }.

Definition set_mq_pool (v : nat -> rt_mq_message) (q : rt_messagequeue) : rt_messagequeue :=
  mk_mq v (msg_size q) (max_msgs q) (mq_entry q) (msg_queue_head q) (msg_queue_tail q) (msg_queue_free q).
Definition set_msg_size (v : Z) (q : rt_messagequeue) : rt_messagequeue :=
  mk_mq (mq_pool q) v (max_msgs q) (mq_entry q) (msg_queue_head q) (msg_queue_tail q) (msg_queue_free q).
Definition set_max_msgs (v : Z) (q : rt_messagequeue) : rt_messagequeue :=
  mk_mq (mq_pool q) (msg_size q) v (mq_entry q) (msg_queue_head q) (msg_queue_tail q) (msg_queue_free q).
Definition set_mq_entry (v : Z) (q : rt_messagequeue) : rt_messagequeue :=
  mk_mq (mq_pool q) (msg_size q) (max_msgs q) v (msg_queue_head q) (msg_queue_tail q) (msg_queue_free q).
Definition set_msg_queue_head (v : option nat) (q : rt_messagequeue) : rt_messagequeue :=
  mk_mq (mq_pool q) (msg_size q) (max_msgs q) (mq_entry q) v (msg_queue_tail q) (msg_queue_free q).
Definition set_msg_queue_tail (v : option nat) (q : rt_messagequeue) : rt_messagequeue :=
  mk_mq (mq_pool q) (msg_size q) (max_msgs q) (mq_entry q) (msg_queue_head q) v (msg_queue_free q).
Definition set_msg_queue_free (v : option nat) (q : rt_messagequeue) : rt_messagequeue :=
  mk_mq (mq_pool q) (msg_size q) (max_msgs q) (mq_entry q) (msg_queue_head q) (msg_queue_tail q) v.

(** A context switch the machine is asked for: from, to, and whether it was
    requested from an interrupt (scheduler.c: rt_hw_context_switch and
    rt_hw_context_switch_interrupt). *)
Inductive switch : Type :=
| Switch (from : option nat) (to : nat)
| SwitchInterrupt (from : option nat) (to : nat)
| SwitchTo (to : nat).

(** The globals of the kernel: src/scheduler.c, src/irq.c, src/clock.c,
    src/timer.c and the stores of its objects. *)
Record kernel : Type := mk_kernel {
  lists : gmap node (rt_list_node node);
  objects : objid -> rt_object;
  threads : nat -> rt_thread;
  timers : timer_id -> rt_timer;
  sem_value : nat -> Z;
  mutexes : nat -> rt_mutex;
  event_sets : nat -> Z;
  mailboxes : nat -> rt_mailbox;
  mqs : nat -> rt_messagequeue;
  rt_scheduler_lock_nest : Z;
  rt_interrupt_nest : Z;
  rt_current_thread : option nat;
  rt_current_priority : Z;
  rt_thread_ready_priority_group : Z;
  rt_tick : Z;
  random_nr : Z;
  switches : list switch }.

Definition set_lists (v : gmap node (rt_list_node node)) (k : kernel) : kernel :=
  mk_kernel v (objects k) (threads k) (timers k) (sem_value k) (mutexes k) (event_sets k) (mailboxes k) (mqs k) (rt_scheduler_lock_nest k) (rt_interrupt_nest k) (rt_current_thread k) (rt_current_priority k) (rt_thread_ready_priority_group k) (rt_tick k) (random_nr k) (switches k).
Definition set_objects (v : objid -> rt_object) (k : kernel) : kernel :=
  mk_kernel (lists k) v (threads k) (timers k) (sem_value k) (mutexes k) (event_sets k) (mailboxes k) (mqs k) (rt_scheduler_lock_nest k) (rt_interrupt_nest k) (rt_current_thread k) (rt_current_priority k) (rt_thread_ready_priority_group k) (rt_tick k) (random_nr k) (switches k).
Definition set_threads (v : nat -> rt_thread) (k : kernel) : kernel :=
  mk_kernel (lists k) (objects k) v (timers k) (sem_value k) (mutexes k) (event_sets k) (mailboxes k) (mqs k) (rt_scheduler_lock_nest k) (rt_interrupt_nest k) (rt_current_thread k) (rt_current_priority k) (rt_thread_ready_priority_group k) (rt_tick k) (random_nr k) (switches k).
Definition set_timers (v : timer_id -> rt_timer) (k : kernel) : kernel :=
  mk_kernel (lists k) (objects k) (threads k) v (sem_value k) (mutexes k) (event_sets k) (mailboxes k) (mqs k) (rt_scheduler_lock_nest k) (rt_interrupt_nest k) (rt_current_thread k) (rt_current_priority k) (rt_thread_ready_priority_group k) (rt_tick k) (random_nr k) (switches k).
Definition set_sem_value (v : nat -> Z) (k : kernel) : kernel :=
  mk_kernel (lists k) (objects k) (threads k) (timers k) v (mutexes k) (event_sets k) (mailboxes k) (mqs k) (rt_scheduler_lock_nest k) (rt_interrupt_nest k) (rt_current_thread k) (rt_current_priority k) (rt_thread_ready_priority_group k) (rt_tick k) (random_nr k) (switches k).
Definition set_mutexes (v : nat -> rt_mutex) (k : kernel) : kernel :=
  mk_kernel (lists k) (objects k) (threads k) (timers k) (sem_value k) v (event_sets k) (mailboxes k) (mqs k) (rt_scheduler_lock_nest k) (rt_interrupt_nest k) (rt_current_thread k) (rt_current_priority k) (rt_thread_ready_priority_group k) (rt_tick k) (random_nr k) (switches k).
Definition set_event_sets (v : nat -> Z) (k : kernel) : kernel :=
  mk_kernel (lists k) (objects k) (threads k) (timers k) (sem_value k) (mutexes k) v (mailboxes k) (mqs k) (rt_scheduler_lock_nest k) (rt_interrupt_nest k) (rt_current_thread k) (rt_current_priority k) (rt_thread_ready_priority_group k) (rt_tick k) (random_nr k) (switches k).
Definition set_mailboxes (v : nat -> rt_mailbox) (k : kernel) : kernel :=
  mk_kernel (lists k) (objects k) (threads k) (timers k) (sem_value k) (mutexes k) (event_sets k) v (mqs k) (rt_scheduler_lock_nest k) (rt_interrupt_nest k) (rt_current_thread k) (rt_current_priority k) (rt_thread_ready_priority_group k) (rt_tick k) (random_nr k) (switches k).
Definition set_mqs (v : nat -> rt_messagequeue) (k : kernel) : kernel :=
  mk_kernel (lists k) (objects k) (threads k) (timers k) (sem_value k) (mutexes k) (event_sets k) (mailboxes k) v (rt_scheduler_lock_nest k) (rt_interrupt_nest k) (rt_current_thread k) (rt_current_priority k) (rt_thread_ready_priority_group k) (rt_tick k) (random_nr k) (switches k).
Definition set_rt_scheduler_lock_nest (v : Z) (k : kernel) : kernel :=
  mk_kernel (lists k) (objects k) (threads k) (timers k) (sem_value k) (mutexes k) (event_sets k) (mailboxes k) (mqs k) v (rt_interrupt_nest k) (rt_current_thread k) (rt_current_priority k) (rt_thread_ready_priority_group k) (rt_tick k) (random_nr k) (switches k).
Definition set_rt_interrupt_nest (v : Z) (k : kernel) : kernel :=
  mk_kernel (lists k) (objects k) (threads k) (timers k) (sem_value k) (mutexes k) (event_sets k) (mailboxes k) (mqs k) (rt_scheduler_lock_nest k) v (rt_current_thread k) (rt_current_priority k) (rt_thread_ready_priority_group k) (rt_tick k) (random_nr k) (switches k).
Definition set_rt_current_thread (v : option nat) (k : kernel) : kernel :=
  mk_kernel (lists k) (objects k) (threads k) (timers k) (sem_value k) (mutexes k) (event_sets k) (mailboxes k) (mqs k) (rt_scheduler_lock_nest k) (rt_interrupt_nest k) v (rt_current_priority k) (rt_thread_ready_priority_group k) (rt_tick k) (random_nr k) (switches k).
Definition set_rt_current_priority (v : Z) (k : kernel) : kernel :=
  mk_kernel (lists k) (objects k) (threads k) (timers k) (sem_value k) (mutexes k) (event_sets k) (mailboxes k) (mqs k) (rt_scheduler_lock_nest k) (rt_interrupt_nest k) (rt_current_thread k) v (rt_thread_ready_priority_group k) (rt_tick k) (random_nr k) (switches k).
Definition set_rt_thread_ready_priority_group (v : Z) (k : kernel) : kernel :=
  mk_kernel (lists k) (objects k) (threads k) (timers k) (sem_value k) (mutexes k) (event_sets k) (mailboxes k) (mqs k) (rt_scheduler_lock_nest k) (rt_interrupt_nest k) (rt_current_thread k) (rt_current_priority k) v (rt_tick k) (random_nr k) (switches k).
Definition set_rt_tick (v : Z) (k : kernel) : kernel :=
  mk_kernel (lists k) (objects k) (threads k) (timers k) (sem_value k) (mutexes k) (event_sets k) (mailboxes k) (mqs k) (rt_scheduler_lock_nest k) (rt_interrupt_nest k) (rt_current_thread k) (rt_current_priority k) (rt_thread_ready_priority_group k) v (random_nr k) (switches k).
Definition set_random_nr (v : Z) (k : kernel) : kernel :=
  mk_kernel (lists k) (objects k) (threads k) (timers k) (sem_value k) (mutexes k) (event_sets k) (mailboxes k) (mqs k) (rt_scheduler_lock_nest k) (rt_interrupt_nest k) (rt_current_thread k) (rt_current_priority k) (rt_thread_ready_priority_group k) (rt_tick k) v (switches k).
Definition set_switches (v : list switch) (k : kernel) : kernel :=
  mk_kernel (lists k) (objects k) (threads k) (timers k) (sem_value k) (mutexes k) (event_sets k) (mailboxes k) (mqs k) (rt_scheduler_lock_nest k) (rt_interrupt_nest k) (rt_current_thread k) (rt_current_priority k) (rt_thread_ready_priority_group k) (rt_tick k) (random_nr k) v.

(** * Accessors

    A read or write through a struct pointer, and the list primitives on the
    store of nodes. *)

Abbreviation K := (M kernel).

Definition upd_thread (t : nat) (f : rt_thread -> rt_thread) : K unit :=
  modify (fun k => set_threads (<[t := f (threads k t)]> (threads k)) k).
Definition upd_object (o : objid) (f : rt_object -> rt_object) : K unit :=
  modify (fun k => set_objects (<[o := f (objects k o)]> (objects k)) k).
Definition upd_timer (tm : timer_id) (f : rt_timer -> rt_timer) : K unit :=
  modify (fun k => set_timers (<[tm := f (timers k tm)]> (timers k)) k).

Definition list_init (l : node) : K unit :=
  modify (fun k => set_lists (rt_list_init l (lists k)) k).
Definition list_op (op : gmap node (rt_list_node node) -> option (gmap node (rt_list_node node)))
  : K unit :=
  fun k => match op (lists k) with
           | Some h => Ret tt (set_lists h k)
           | None => Fail NullDeref
           end.
Definition list_insert_after (l n : node) : K unit := list_op (rt_list_insert_after l n).
Definition list_insert_before (l n : node) : K unit := list_op (rt_list_insert_before l n).
Definition list_remove (n : node) : K unit := list_op (rt_list_remove n).
Definition list_isempty (l : node) (k : kernel) : bool := rt_list_isempty l (lists k).

(** [rt_list_entry(l->next, struct rt_thread, tlist)] *)
Definition thread_entry (n : node) : option nat :=
  match n with TList t => Some t | _ => None end.
Definition list_first_thread (l : node) : K nat :=
  let! k := get in
  let! n := of_option NullDeref (get_next (lists k) l) in
  of_option BadPointer (thread_entry n).
