(* ===== verification/Ffs.v ===== *)
(** [__rt_ffs] (src/kservice.c): the index of the first bit set, by a table of
    the 256 bytes.  The scheduler finds the highest ready priority with it. *)

From S2P Require Import Prelude.

Open Scope Z_scope.

Definition __lowest_bit_bitmap : list Z :=
  [
   0; 0; 1; 0; 2; 0; 1; 0; 3; 0; 1; 0; 2; 0; 1; 0;
   4; 0; 1; 0; 2; 0; 1; 0; 3; 0; 1; 0; 2; 0; 1; 0;
   5; 0; 1; 0; 2; 0; 1; 0; 3; 0; 1; 0; 2; 0; 1; 0;
   4; 0; 1; 0; 2; 0; 1; 0; 3; 0; 1; 0; 2; 0; 1; 0;
   6; 0; 1; 0; 2; 0; 1; 0; 3; 0; 1; 0; 2; 0; 1; 0;
   4; 0; 1; 0; 2; 0; 1; 0; 3; 0; 1; 0; 2; 0; 1; 0;
   5; 0; 1; 0; 2; 0; 1; 0; 3; 0; 1; 0; 2; 0; 1; 0;
   4; 0; 1; 0; 2; 0; 1; 0; 3; 0; 1; 0; 2; 0; 1; 0;
   7; 0; 1; 0; 2; 0; 1; 0; 3; 0; 1; 0; 2; 0; 1; 0;
   4; 0; 1; 0; 2; 0; 1; 0; 3; 0; 1; 0; 2; 0; 1; 0;
   5; 0; 1; 0; 2; 0; 1; 0; 3; 0; 1; 0; 2; 0; 1; 0;
   4; 0; 1; 0; 2; 0; 1; 0; 3; 0; 1; 0; 2; 0; 1; 0;
   6; 0; 1; 0; 2; 0; 1; 0; 3; 0; 1; 0; 2; 0; 1; 0;
   4; 0; 1; 0; 2; 0; 1; 0; 3; 0; 1; 0; 2; 0; 1; 0;
   5; 0; 1; 0; 2; 0; 1; 0; 3; 0; 1; 0; 2; 0; 1; 0;
   4; 0; 1; 0; 2; 0; 1; 0; 3; 0; 1; 0; 2; 0; 1; 0].

(** The [value] of the code is an [int] holding the 32 bits of the priority
    group; the operations on it are those of the unsigned word. *)
Definition __rt_ffs (value : Z) : Z :=
  if value =? 0 then 0
  else if negb (Z.land value 0xff =? 0) then
    nth (Z.to_nat (Z.land value 0xff)) __lowest_bit_bitmap 0 + 1
  else if negb (Z.land value 0xff00 =? 0) then
    nth (Z.to_nat (Z.shiftr (Z.land value 0xff00) 8)) __lowest_bit_bitmap 0 + 9
  else if negb (Z.land value 0xff0000 =? 0) then
    nth (Z.to_nat (Z.shiftr (Z.land value 0xff0000) 16)) __lowest_bit_bitmap 0 + 17
  else
    nth (Z.to_nat (Z.shiftr (Z.land value 0xff000000) 24)) __lowest_bit_bitmap 0 + 25.

(** [i] is the position of the least significant bit set in [v]. *)
Definition lowest_bit (v i : Z) : Prop :=
  0 <= i /\ Z.testbit v i = true /\ forall j, 0 <= j < i -> Z.testbit v j = false.

Definition bitmap (b : Z) : Z := nth (Z.to_nat b) __lowest_bit_bitmap 0.

Definition bitmap_ok (b : nat) : bool :=
  let i := bitmap (Z.of_nat b) in
  (0 <=? i) && (i <? 8) && Z.testbit (Z.of_nat b) i &&
  forallb (fun j => negb (Z.testbit (Z.of_nat b) (Z.of_nat j))) (seq 0 (Z.to_nat i)).

Lemma bitmap_all_ok : forallb bitmap_ok (seq 1 255) = true.
Proof. by vm_compute. Qed.

Lemma bitmap_lowest b : 0 < b < 256 -> lowest_bit b (bitmap b) /\ bitmap b < 8.
Proof.
  intros Hb. pose proof bitmap_all_ok as Hall. rewrite forallb_forall in Hall.
  specialize (Hall (Z.to_nat b)). rewrite in_seq in Hall.
  unfold bitmap_ok in Hall. rewrite Z2Nat.id in Hall by lia.
  specialize (Hall ltac:(lia)). rewrite !andb_true_iff in Hall.
  destruct Hall as [[[H0 H1] H2] H3]. split; [|lia].
  split; [lia|]. split; [done|]. intros j Hj. rewrite forallb_forall in H3.
  specialize (H3 (Z.to_nat j)). rewrite in_seq, Z2Nat.id in H3 by lia.
  apply negb_true_iff, H3. lia.
Qed.

(** The byte of [v] at bit position [sh]. *)
Lemma byte_testbit v sh i :
  0 <= sh -> 0 <= i < 8 ->
  Z.testbit (Z.shiftr (Z.land v (Z.shiftl 0xff sh)) sh) i = Z.testbit v (sh + i).
Proof.
  intros Hsh Hi. rewrite Z.shiftr_spec, Z.land_spec, Z.shiftl_spec by lia.
  replace (i + sh - sh) with i by lia.
  change 0xff with (Z.ones 8). rewrite Z.ones_spec_low by lia.
  rewrite andb_true_r. f_equal. lia.
Qed.

Lemma byte_range v sh :
  0 <= sh -> 0 <= Z.shiftr (Z.land v (Z.shiftl 0xff sh)) sh < 256.
Proof.
  intros Hsh.
  assert (Z.shiftr (Z.land v (Z.shiftl 0xff sh)) sh = Z.land (Z.shiftr v sh) (Z.ones 8)) as ->.
  { rewrite Z.shiftr_land, Z.shiftr_shiftl_l, Z.sub_diag by lia. done. }
  rewrite Z.land_ones by lia. apply (Z.mod_pos_bound _ 256). lia.
Qed.

Lemma byte_zero v sh :
  0 <= sh -> Z.land v (Z.shiftl 0xff sh) = 0 ->
  forall j, sh <= j < sh + 8 -> Z.testbit v j = false.
Proof.
  intros Hsh Hz j Hj. replace j with (sh + (j - sh)) by lia.
  rewrite <- byte_testbit by lia. rewrite Hz, Z.shiftr_0_l. apply Z.bits_0.
Qed.

Lemma byte_nonzero v sh :
  0 <= sh -> Z.land v (Z.shiftl 0xff sh) <> 0 ->
  Z.shiftr (Z.land v (Z.shiftl 0xff sh)) sh <> 0.
Proof.
  intros Hsh Hnz Hz. apply Hnz. apply Z.bits_inj'. intros n Hn.
  rewrite Z.bits_0. destruct (Z.lt_ge_cases n sh).
  - rewrite Z.land_spec, (Z.shiftl_spec_low 0xff sh n) by lia. by rewrite andb_false_r.
  - apply (f_equal (fun z => Z.testbit z (n - sh))) in Hz.
    rewrite Z.shiftr_spec, Z.bits_0 in Hz by lia.
    by replace (n - sh + sh) with n in Hz by lia.
Qed.

Lemma byte_lowest v sh :
  0 <= sh -> Z.land v (Z.shiftl 0xff sh) <> 0 ->
  (forall j, 0 <= j < sh -> Z.testbit v j = false) ->
  lowest_bit v (bitmap (Z.shiftr (Z.land v (Z.shiftl 0xff sh)) sh) + sh).
Proof.
  intros Hsh Hnz Hlow.
  pose proof (byte_range v sh Hsh). pose proof (byte_nonzero v sh Hsh Hnz).
  destruct (bitmap_lowest (Z.shiftr (Z.land v (Z.shiftl 0xff sh)) sh)) as [(H1 & H2 & H3) H4];
    [lia|].
  set (b := Z.shiftr _ _) in *. split; [lia|]. split.
  - unfold b in H2 at 1. rewrite byte_testbit in H2 by lia. by rewrite Z.add_comm.
  - intros j Hj. destruct (Z.lt_ge_cases j sh); [apply Hlow; lia|].
    specialize (H3 (j - sh) ltac:(lia)). unfold b in H3.
    rewrite byte_testbit in H3 by lia. by replace (sh + (j - sh)) with j in H3 by lia.
Qed.

Lemma __rt_ffs_0 : __rt_ffs 0 = 0.
Proof. done. Qed.

Lemma __rt_ffs_lowest v :
  0 < v < 2 ^ 32 -> lowest_bit v (__rt_ffs v - 1).
Proof.
  intros Hv. unfold __rt_ffs. rewrite (proj2 (Z.eqb_neq v 0)) by lia.
  fold (bitmap (Z.land v 0xff)).
  fold (bitmap (Z.shiftr (Z.land v 0xff00) 8)).
  fold (bitmap (Z.shiftr (Z.land v 0xff0000) 16)).
  fold (bitmap (Z.shiftr (Z.land v 0xff000000) 24)).
  destruct (Z.eqb_spec (Z.land v 0xff) 0) as [E0|E0]; simpl negb; cbv iota.
  2:{ replace (_ - 1) with (bitmap (Z.land v 0xff) + 0) by lia.
      rewrite <- (Z.shiftr_0_r (Z.land v 0xff)).
      apply (byte_lowest v 0); [lia|done|intros; lia]. }
  pose proof (byte_zero v 0 ltac:(lia) E0) as B0.
  destruct (Z.eqb_spec (Z.land v 0xff00) 0) as [E1|E1]; simpl negb; cbv iota.
  2:{ replace (_ - 1) with (bitmap (Z.shiftr (Z.land v 0xff00) 8) + 8) by lia.
      apply (byte_lowest v 8); [lia|done|intros; apply B0; lia]. }
  pose proof (byte_zero v 8 ltac:(lia) E1) as B1.
  destruct (Z.eqb_spec (Z.land v 0xff0000) 0) as [E2|E2]; simpl negb; cbv iota.
  2:{ replace (_ - 1) with (bitmap (Z.shiftr (Z.land v 0xff0000) 16) + 16) by lia.
      apply (byte_lowest v 16); [lia|done|].
      intros j Hj. destruct (Z.lt_ge_cases j 8); [apply B0|apply B1]; lia. }
  pose proof (byte_zero v 16 ltac:(lia) E2) as B2.
  assert (forall j, 0 <= j < 24 -> Z.testbit v j = false) as Hlow.
  { intros j Hj. destruct (Z.lt_ge_cases j 8); [apply B0; lia|].
    destruct (Z.lt_ge_cases j 16); [apply B1|apply B2]; lia. }
  replace (_ - 1) with (bitmap (Z.shiftr (Z.land v 0xff000000) 24) + 24) by lia.
  apply (byte_lowest v 24); [lia| |done].
  intros E3. pose proof (byte_zero v 24 ltac:(lia) E3) as B3.
  assert (v = 0); [|lia]. apply Z.bits_inj'. intros j Hj. rewrite Z.bits_0.
  destruct (Z.lt_ge_cases j 24); [apply Hlow; lia|].
  destruct (Z.lt_ge_cases j 32); [apply B3; lia|].
  rewrite <- (Z.mod_small v (2 ^ 32)) by lia. apply Z.mod_pow2_bits_high. lia.
Qed.

(** * The reference *)

(** The position of the lowest set bit, from 1, by trying the bits in turn; 0 if
    none of the [n] bits from [i] on is set. *)
Fixpoint first_set (n : nat) (i value : Z) : Z :=
  match n with
  | O => 0
  | S n => if Z.testbit value i then i + 1 else first_set n (i + 1) value
  end.

Lemma first_set_at n : forall i value p,
  i <= p < i + Z.of_nat n -> Z.testbit value p = true -> (forall q, i <= q < p -> Z.testbit value q = false) ->
  first_set n i value = p + 1.
Proof.
  induction n as [|n IH]; intros i value p Hp Hb Hlo; [lia|]. simpl.
  destruct (decide (i = p)) as [->|Hne]; [by rewrite Hb|].
  rewrite Hlo by lia. apply IH; [lia|done|]. intros q Hq. apply Hlo. lia.
Qed.

(** The table look-up by bytes finds the same bit as the search. *)
Theorem __rt_ffs_first_set value : 0 <= value < 2 ^ 32 -> __rt_ffs value = first_set 32 0 value.
Proof.
  intros Hv. destruct (decide (value = 0)) as [->|Hne]; [done|].
  destruct (__rt_ffs_lowest value) as (Hlo & Hbit & Hmin); [lia|].
  assert (__rt_ffs value - 1 < 32).
  { apply Z.nle_gt. intros Hge. by rewrite (testbit_high value 32) in Hbit by lia. }
  rewrite (first_set_at 32 0 value (__rt_ffs value - 1)); [lia|lia|done|]. intros q Hq. apply Hmin. lia.
Qed.
