(* ===== verification/KInv.v ===== *)
(** The invariant of the kernel state, and the moves between queues that keep it.

    A thread that is READY sits in the ready queue of its priority and nowhere
    else; a SUSPENDed one sits in the waiting list of one IPC object or in none;
    the ready group has a bit set exactly for the non-empty ready queues; the
    timers in the timer list are the activated ones.  [kinv] says so of the
    components of the state; the lemmas below it are the moves the operations of
    the kernel are made of: leave the ready queue, join a waiting list, leave
    it, become ready, arm and disarm the timer, change the priority. *)

From S2P Require Import Prelude RtList KState Ffs.

Open Scope Z_scope.

(** * The invariant *)

Definition wait_head (l : node) : bool :=
  match l with SuspHead _ | SenderHead _ => true | _ => false end.

Definition object_class (o : objid) : Z :=
  match o with
  | OThread _ => RT_Object_Class_Thread
  | OSemaphore _ => RT_Object_Class_Semaphore
  | OMutex _ => RT_Object_Class_Mutex
  | OEvent _ => RT_Object_Class_Event
  | OMailBox _ => RT_Object_Class_MailBox
  | OMessageQueue _ => RT_Object_Class_MessageQueue
  | OMemPool _ => RT_Object_Class_MemPool
  | ODevice _ => RT_Object_Class_Device
  | OTimer _ => RT_Object_Class_Timer
  end.

(** Which list a node may be a member of. *)
Definition node_ok (l n : node) : Prop :=
  match n with
  | TList _ => wait_head l = true \/ l = DefunctHead \/ exists p, l = ReadyHead p
  | TimerRow _ => l = TimerHead
  | ObjNode o => l = ObjHead (object_class o)
  | _ => False
  end.

Definition stack_ok (th : rt_thread) : Prop :=
  0 <= stack_addr th /\ 0 <= stack_size th /\ stack_addr th + stack_size th < 2 ^ 32 /\
  stack_addr th < sp th <= stack_addr th + stack_size th.

Definition thread_ok (th : rt_thread) : Prop :=
  0 <= current_priority th < RT_THREAD_PRIORITY_MAX /\
  number_mask th = Z.shiftl 1 (current_priority th) /\ stack_ok th.

Definition readyp (th : rt_thread) : Prop := stat th = RT_THREAD_READY.
Definition suspendedp (th : rt_thread) : Prop := stat th = RT_THREAD_SUSPEND.

Definition live (th : rt_thread) : Prop := readyp th \/ suspendedp th.

#[export] Instance readyp_dec th : Decision (readyp th).
Proof. unfold readyp. apply _. Defined.
#[export] Instance suspendedp_dec th : Decision (suspendedp th).
Proof. unfold suspendedp. apply _. Defined.

Section invariant.
Implicit Types (h : gmap node (rt_list_node node)) (Q : gmap node (list node)).
Implicit Types (ths : nat -> rt_thread) (act : timer_id -> bool) (tf : timer_id -> timeout_fn).
Implicit Types (g p : Z) (t : nat).

Definition member Q (l n : node) : Prop := exists xs, Q !! l = Some xs /\ n ∈ xs.

(** The ready table and the group of priorities. *)
Record ready_table Q g : Prop := {
  rt_heads : forall p, 0 <= p < RT_THREAD_PRIORITY_MAX <-> is_Some (Q !! ReadyHead p);
  rt_bits : forall p, 0 <= p < RT_THREAD_PRIORITY_MAX ->
    Z.testbit g p = true <-> exists n, member Q (ReadyHead p) n;
  rt_range : 0 <= g < 2 ^ 32 }.

(** Where the list node of a thread sits, by the state of the thread. *)
Record placed Q t (th : rt_thread) : Prop := {
  pl_in : forall l, member Q l (TList t) ->
    readyp th /\ l = ReadyHead (current_priority th) \/
    suspendedp th /\ wait_head l = true \/
    stat th = RT_THREAD_CLOSE /\ l = DefunctHead;
  pl_ready : readyp th -> member Q (ReadyHead (current_priority th)) (TList t);
  pl_susp : suspendedp th -> is_Some (Q !! TList t) \/
    exists l, wait_head l = true /\ member Q l (TList t);
  pl_ok : live th -> thread_ok th }.

(** The timer built into a thread: it is in the timer list only while the
    thread is suspended, and off otherwise. *)
Record timed Q t (th : rt_thread) (on : bool) (fn : timeout_fn) : Prop := {
  ti_in : member Q TimerHead (TimerRow (ThreadTimer t)) -> suspendedp th;
  ti_fn : live th -> fn = FN_rt_thread_timeout t;
  ti_row : live th ->
    is_Some (Q !! TimerRow (ThreadTimer t)) /\ on = false \/
    member Q TimerHead (TimerRow (ThreadTimer t)) }.

Record kinv h ths act tf g Q : Prop := {
  ki_rep : Rep h Q;
  ki_typed : forall l n, member Q l n -> node_ok l n;
  ki_table : ready_table Q g;
  ki_defunct : is_Some (Q !! DefunctHead);
  ki_timer_head : is_Some (Q !! TimerHead);
  ki_timer_act : forall tm, member Q TimerHead (TimerRow tm) -> act tm = true;
  ki_placed : forall t, placed Q t (ths t);
  ki_timed : forall t, timed Q t (ths t) (act (ThreadTimer t)) (tf (ThreadTimer t)) }.

(** ** Consequences *)

Lemma ready_not_suspended th : readyp th -> suspendedp th -> False.
Proof. unfold readyp, suspendedp. intros -> [=]. Qed.

Lemma not_node_ok_TList t m : ~ node_ok (TList t) m.
Proof. destruct m; simpl; naive_solver. Qed.
Lemma not_node_ok_TimerRow tm m : ~ node_ok (TimerRow tm) m.
Proof. destruct m; simpl; naive_solver. Qed.
Lemma not_node_ok_ObjNode o m : ~ node_ok (ObjNode o) m.
Proof. destruct m; simpl; naive_solver. Qed.

Lemma ki_no_member h ths act tf g Q n :
  kinv h ths act tf g Q -> (forall m, ~ node_ok n m) -> is_Some (Q !! n) -> Q !! n = Some [].
Proof.
  intros Hk Hn [xs Hq]. destruct xs as [|m xs]; [done|].
  exfalso. apply (Hn m), (ki_typed _ _ _ _ _ _ Hk). exists (m :: xs). set_solver.
Qed.

Lemma ki_tlist h ths act tf g Q t :
  kinv h ths act tf g Q -> is_Some (Q !! TList t) -> Q !! TList t = Some [].
Proof. intros Hk. eapply ki_no_member; [done|apply not_node_ok_TList]. Qed.
Lemma ki_timer_row h ths act tf g Q tm :
  kinv h ths act tf g Q -> is_Some (Q !! TimerRow tm) -> Q !! TimerRow tm = Some [].
Proof. intros Hk. eapply ki_no_member; [done|apply not_node_ok_TimerRow]. Qed.

Lemma ki_detached h ths act tf g Q n :
  kinv h ths act tf g Q -> (forall m, ~ node_ok n m) -> is_Some (Q !! n) -> detached Q n.
Proof. intros Hk Hn Hs. eapply Rep_detached_self; [apply Hk|]. by eapply ki_no_member. Qed.

(** The timer of a ready thread is off and out of the list. *)
Lemma ki_ready_timer h ths act tf g Q t :
  kinv h ths act tf g Q -> readyp (ths t) ->
  is_Some (Q !! TimerRow (ThreadTimer t)) /\ act (ThreadTimer t) = false.
Proof.
  intros Hk Hr. destruct (ki_timed _ _ _ _ _ _ Hk t) as [T1 T2 T3].
  destruct T3 as [?|Hin%T1]; [by left|done|]. by destruct (ready_not_suspended (ths t)).
Qed.

Lemma ki_ready_split h ths act tf g Q t :
  kinv h ths act tf g Q -> readyp (ths t) ->
  exists ys zs, Q !! ReadyHead (current_priority (ths t)) = Some (ys ++ TList t :: zs).
Proof.
  intros Hk Hr. destruct (pl_ready _ _ _ (ki_placed _ _ _ _ _ _ Hk t) Hr) as (xs & Hxs & Hin).
  apply elem_of_split_first in Hin as (ys & zs & ->). eauto.
Qed.

(** The fields of a thread the invariant speaks of. *)
Definition core (th : rt_thread) :=
  (stat th, current_priority th, number_mask th, (sp th, stack_addr th, stack_size th)).

Lemma core_placed Q t th th' : core th' = core th -> placed Q t th -> placed Q t th'.
Proof.
  unfold core. intros [= E1 E2 E3 E4 E5 E6] [P1 P2 P3 P4].
  split; unfold live, readyp, suspendedp, thread_ok, stack_ok in *;
    rewrite ?E1, ?E2, ?E3, ?E4, ?E5, ?E6; done.
Qed.
Lemma core_timed Q t th th' on fn : core th' = core th -> timed Q t th on fn -> timed Q t th' on fn.
Proof.
  unfold core. intros [= E1 _ _ _ _ _] [T1 T2 T3].
  split; unfold live, readyp, suspendedp in *; rewrite ?E1; done.
Qed.

Lemma ki_ext h ths ths' act act' tf tf' g Q :
  (forall t, core (ths' t) = core (ths t)) ->
  (forall tm, act' tm = act tm) -> (forall tm, tf' tm = tf tm) ->
  kinv h ths act tf g Q -> kinv h ths' act' tf' g Q.
Proof.
  intros E Ea Ef [K1 K2 K3 K4 K5 K6 K7 K8]. split; try done.
  - intros tm. rewrite Ea. apply K6.
  - intros t. by apply (core_placed _ _ (ths t)).
  - intros t. rewrite Ea, Ef. by apply (core_timed _ _ (ths t)).
Qed.

(** * Moves

    A list operation moves one node; [same_but n] says every other node stays
    where it is and every other list still exists. *)
Definition same_but (n : node) Q Q' : Prop :=
  (forall l m, m <> n -> member Q' l m <-> member Q l m) /\
  (forall l, l <> n -> is_Some (Q' !! l) <-> is_Some (Q !! l)).

(** Case analysis on a lookup in an updated map of lists. *)
Ltac qcases :=
  repeat match goal with
  | H : <[_ := _]> _ !! _ = Some _ |- _ =>
      apply lookup_insert_Some in H as [[? ?]|[? H]]; simplify_eq
  | H : delete _ _ !! _ = Some _ |- _ =>
      apply lookup_delete_Some in H as [? H]
  end.

Lemma same_but_refl n Q : same_but n Q Q.
Proof. split; done. Qed.

Lemma member_delete Q n l m :
  (forall xs, Q !! n = Some xs -> xs = []) -> member (delete n Q) l m <-> member Q l m.
Proof.
  intros Hn. split; intros (xs & Hl & Hm); exists xs; [by qcases|].
  split; [|done]. apply lookup_delete_Some. split; [|done]. intros <-.
  specialize (Hn _ Hl) as ->. set_solver.
Qed.

Lemma member_insert Q l xs l' m :
  member (<[l := xs]> Q) l' m <-> l = l' /\ m ∈ xs \/ l <> l' /\ member Q l' m.
Proof.
  unfold member. destruct (decide (l = l')) as [<-|Hne].
  - rewrite lookup_insert_eq. naive_solver.
  - rewrite lookup_insert_ne by done. naive_solver.
Qed.

Lemma same_but_insert n Q l ys zs :
  Q !! l = Some (ys ++ zs) -> detached Q n -> n <> l ->
  same_but n Q (<[l := ys ++ n :: zs]> (delete n Q)).
Proof.
  intros Hl Hd Hne. assert (forall xs, Q !! n = Some xs -> xs = []) as Hn
    by (intros xs ?; by eapply Hd). split.
  - intros l' m Hm. rewrite member_insert, member_delete by done.
    split; [intros [[<- Hin]|[??]]; [exists (ys ++ zs); set_solver|done]|].
    intros Hin. destruct (decide (l = l')) as [<-|]; [left|by right].
    destruct Hin as (xs & ? & ?). simplify_eq. set_solver.
  - intros l' Hl'. destruct (decide (l = l')) as [<-|].
    + rewrite lookup_insert_eq, Hl. split; eauto.
    + by rewrite lookup_insert_ne, lookup_delete_ne.
Qed.

Lemma same_but_remove n Q l ys zs :
  Q !! l = Some (ys ++ n :: zs) -> (forall xs, Q !! n = Some xs -> xs = []) ->
  same_but n Q (<[n := []]> (<[l := ys ++ zs]> Q)).
Proof.
  intros Hl Hn. split.
  - intros l' m Hm. rewrite !member_insert. destruct (decide (n = l')) as [<-|Hnl].
    + split; [intros [[_ []%not_elem_of_nil]|[? _]]; done|].
      intros (xs & Hxs & Hin). specialize (Hn _ Hxs) as ->. by apply not_elem_of_nil in Hin.
    + split.
      * intros [[? _]|[_ [[<- Hin]|[_ ?]]]]; [done| |done]. exists (ys ++ n :: zs). set_solver.
      * intros (xs & Hxs & Hin). right. split; [done|].
        destruct (decide (l = l')) as [<-|]; [left; simplify_eq; set_solver|right].
        split; [done|]. by exists xs.
  - intros l' Hl'. rewrite lookup_insert_ne by done. destruct (decide (l = l')) as [<-|].
    + rewrite lookup_insert_eq, Hl. split; eauto.
    + by rewrite lookup_insert_ne.
Qed.

Lemma same_but_init n Q :
  (forall xs, Q !! n = Some xs -> xs = []) -> same_but n Q (<[n := []]> Q).
Proof.
  intros Hn. split.
  - intros l m Hm. rewrite member_insert. split.
    + intros [[_ []%not_elem_of_nil]|[_ ?]]. done.
    + intros Hin. right. split; [|done]. intros <-. destruct Hin as (xs & Hxs & Hin).
      specialize (Hn _ Hxs) as ->. by apply not_elem_of_nil in Hin.
  - intros l Hl. by rewrite lookup_insert_ne.
Qed.

Lemma placed_frame n Q Q' t th :
  same_but n Q Q' -> n <> TList t -> placed Q t th -> placed Q' t th.
Proof.
  intros [Hm Hs] Hn [P1 P2 P3 P4]. split; [| | |done].
  - intros l. rewrite Hm by done. apply P1.
  - intros Hr. apply Hm; [done|]. by apply P2.
  - intros Hsu. destruct (P3 Hsu) as [?|(l & ? & ?)]; [left; by apply Hs|].
    right. exists l. split; [done|]. by apply Hm.
Qed.

Lemma timed_frame n Q Q' t th on fn :
  same_but n Q Q' -> n <> TimerRow (ThreadTimer t) -> timed Q t th on fn -> timed Q' t th on fn.
Proof.
  intros [Hm Hs] Hn [T1 T2 T3]. split; [| done |].
  - rewrite Hm by done. apply T1.
  - intros Hl. destruct (T3 Hl) as [[??]|?]; [left; split; [by apply Hs|done]|].
    right. by apply Hm.
Qed.

Lemma typed_frame n Q Q' :
  same_but n Q Q' -> (forall l, member Q' l n -> node_ok l n) ->
  (forall l m, member Q l m -> node_ok l m) -> forall l m, member Q' l m -> node_ok l m.
Proof.
  intros [Hm _] Hn Hq l m Hin. destruct (decide (m = n)) as [->|]; [by apply Hn|].
  by apply Hq, Hm.
Qed.

(** The ready table under the moves of a node [n]. *)
Lemma ready_table_frame n Q Q' g :
  same_but n Q Q' -> (forall p, n <> ReadyHead p) ->
  (forall p, ~ member Q (ReadyHead p) n) -> (forall p, ~ member Q' (ReadyHead p) n) ->
  ready_table Q g -> ready_table Q' g.
Proof.
  intros [Hm Hs] Hn HQ HQ' [H1 H2 H3]. split; [| |done].
  - intros p. rewrite H1, Hs by (intros E; by apply (Hn p)). done.
  - intros p Hp. rewrite H2 by done. split; intros [m Hin]; exists m.
    + apply Hm; [|done]. intros ->. by apply (HQ p).
    + apply Hm; [|done]. intros ->. by apply (HQ' p).
Qed.

Lemma ready_table_add n Q Q' g p :
  same_but n Q Q' -> (forall p, n <> ReadyHead p) -> (forall q, ~ member Q (ReadyHead q) n) ->
  (forall q, member Q' (ReadyHead q) n <-> q = p) -> 0 <= p < RT_THREAD_PRIORITY_MAX ->
  ready_table Q g -> ready_table Q' (Z.lor g (Z.shiftl 1 p)).
Proof.
  unfold RT_THREAD_PRIORITY_MAX.
  intros [Hm Hs] Hn HQ HQ' Hp [H1 H2 H3]. unfold RT_THREAD_PRIORITY_MAX in *. split.
  - intros q. unfold RT_THREAD_PRIORITY_MAX. rewrite H1, Hs by (intros E; by apply (Hn q)). done.
  - unfold RT_THREAD_PRIORITY_MAX. intros q Hq.
    rewrite Z.lor_spec, Z.shiftl_1_l, Z.pow2_bits_eqb, orb_true_iff, H2, Z.eqb_eq by lia. split.
    + intros [[m Hin]|<-]; [exists m|exists n; by apply HQ'].
      apply Hm; [|done]. intros ->. by apply (HQ q).
    + intros [m Hin]. destruct (decide (m = n)) as [->|]; [right; by apply HQ' in Hin|].
      left. exists m. by apply Hm.
  - apply bits_bound; [lia|apply Z.lor_nonneg; split; [lia|apply Z.shiftl_nonneg; lia]|].
    intros x Hx. rewrite Z.lor_spec, Z.shiftl_1_l, Z.pow2_bits_false by lia.
    by rewrite (testbit_high g 32).
Qed.

Lemma lnot_bit_testbit p q :
  0 <= p < 32 -> 0 <= q < 32 ->
  Z.testbit (u32 (Z.lnot (Z.shiftl 1 p))) q = negb (p =? q).
Proof.
  intros Hp Hq. unfold u32. rewrite Z.mod_pow2_bits_low by lia.
  rewrite Z.lnot_spec by lia. by rewrite Z.shiftl_1_l, Z.pow2_bits_eqb by lia.
Qed.

Lemma ready_table_del n Q Q' g p xs :
  same_but n Q Q' -> (forall p, n <> ReadyHead p) -> (forall q, member Q (ReadyHead q) n -> q = p) ->
  (forall q, ~ member Q' (ReadyHead q) n) -> Q' !! ReadyHead p = Some xs ->
  ready_table Q g ->
  ready_table Q' (if bool_decide (xs = []) then Z.land g (u32 (Z.lnot (Z.shiftl 1 p))) else g).
Proof.
  intros [Hm Hs] Hn HQ HQ' Hp [H1 H2 H3].
  assert (forall q, q <> p -> (exists m, member Q (ReadyHead q) m) <->
    exists m, member Q' (ReadyHead q) m) as Hoth.
  { intros q Hq. split; intros [m Hin]; exists m; (apply Hm; [|done]); intros ->;
      [by apply Hq, HQ|by apply (HQ' q)]. }
  assert (0 <= p < RT_THREAD_PRIORITY_MAX) as Hpr.
  { apply H1, Hs; [|eauto]. intros E. by apply (Hn p). }
  unfold RT_THREAD_PRIORITY_MAX in *. split.
  - intros q. unfold RT_THREAD_PRIORITY_MAX. rewrite H1, Hs by (intros E; by apply (Hn q)). done.
  - unfold RT_THREAD_PRIORITY_MAX. intros q Hq. case_bool_decide as E; subst.
    + rewrite Z.land_spec, lnot_bit_testbit, andb_true_iff, H2 by done.
      destruct (decide (q = p)) as [->|Hqp].
      * rewrite Z.eqb_refl. split; [by intros [_ ?]|]. intros (m & ys & ? & Hin). simplify_eq.
        by apply not_elem_of_nil in Hin.
      * rewrite (proj2 (Z.eqb_neq p q)) by done. rewrite Hoth by done. simpl. tauto.
    + rewrite H2 by done. destruct (decide (q = p)) as [->|Hqp]; [|by apply Hoth].
      destruct xs as [|m xs]; [done|].
      assert (member Q' (ReadyHead p) m) as Hin by (exists (m :: xs); set_solver).
      split; intros _; exists m; [done|]. apply Hm; [|done]. intros ->. by apply (HQ' p).
  - case_bool_decide; [|done]. apply bits_bound; [lia|apply Z.land_nonneg; lia|].
    intros x Hx. by rewrite Z.land_spec, (testbit_high g 32).
Qed.

(** The node of thread [t] moves and the thread gets new contents [th]. *)
Lemma kinv_thread_move h h' ths act tf g g' Q Q' t th :
  kinv h ths act tf g Q -> Rep h' Q' -> same_but (TList t) Q Q' ->
  ready_table Q' g' -> placed Q' t th ->
  timed Q t th (act (ThreadTimer t)) (tf (ThreadTimer t)) ->
  kinv h' (<[t := th]> ths) act tf g' Q'.
Proof.
  intros [K1 K2 K3 K4 K5 K6 K7 K8] Hrep Hsb Htab Hpl Hti. split; try done.
  - eapply typed_frame; [done| |done]. intros l Hl. simpl.
    destruct (pl_in _ _ _ Hpl l Hl) as [[_ ->]|[[_ ?]|[_ ->]]]; eauto.
  - by apply Hsb.
  - by apply Hsb.
  - intros tm Hin. apply K6. by apply Hsb.
  - intros x. destruct (decide (t = x)) as [<-|Hx]; autorewrite with store; [done|].
    eapply placed_frame; [done|congruence|apply K7].
  - intros x. eapply timed_frame; [done|done|].
    destruct (decide (t = x)) as [<-|Hx]; autorewrite with store; [done|apply K8].
Qed.

(** A timer moves and is switched on or off. *)
Lemma kinv_timer_move h h' ths act tf g Q Q' tm on :
  kinv h ths act tf g Q -> Rep h' Q' -> same_but (TimerRow tm) Q Q' ->
  (forall l, member Q' l (TimerRow tm) -> l = TimerHead /\ on = true) ->
  (forall t, tm = ThreadTimer t -> timed Q' t (ths t) on (tf tm)) ->
  kinv h' ths (<[tm := on]> act) tf g Q'.
Proof.
  intros [K1 K2 K3 K4 K5 K6 K7 K8] Hrep Hsb Hin Hti. split; try done.
  - eapply typed_frame; [done| |done]. intros l Hl. by apply Hin.
  - eapply ready_table_frame; [done|done| | |done].
    + intros p Hp. by apply K2 in Hp.
    + intros p Hp. by apply Hin in Hp as [? _].
  - by apply Hsb.
  - by apply Hsb.
  - intros tm' Hm. destruct (decide (tm = tm')) as [<-|]; autorewrite with store;
      [by destruct (Hin _ Hm)|].
    apply K6. apply Hsb; [congruence|done].
  - intros x. eapply placed_frame; [done|done|apply K7].
  - intros x. destruct (decide (tm = ThreadTimer x)) as [->|]; autorewrite with store; [by apply Hti|].
    eapply timed_frame; [done|congruence|apply K8].
Qed.

(** ** Moves of a thread *)

Lemma ki_TList_alone h ths act tf g Q t xs :
  kinv h ths act tf g Q -> Q !! TList t = Some xs -> xs = [].
Proof. intros Hk Hq. pose proof (ki_tlist _ _ _ _ _ _ t Hk ltac:(eauto)). congruence. Qed.

(** A thread whose node is in no list gets contents that put it in none. *)
Lemma kinv_set_detached h ths act tf g Q t th :
  kinv h ths act tf g Q -> is_Some (Q !! TList t) -> ~ readyp th ->
  (suspendedp th -> thread_ok th) ->
  timed Q t th (act (ThreadTimer t)) (tf (ThreadTimer t)) ->
  kinv h (<[t := th]> ths) act tf g Q.
Proof.
  intros Hk Hs Hnr Hok Hti. eapply kinv_thread_move; [done|apply Hk|apply same_but_refl|apply Hk| |done].
  assert (detached Q (TList t)) as Hd by (eapply ki_detached; [done|apply not_node_ok_TList|done]).
  split; [|done|by left|].
  - intros l (xs & Hl & Hin). by destruct (Hd l xs Hl).
  - by intros [?|?]; [|apply Hok].
Qed.

(** Leave a list: [rt_list_remove] on the node of thread [t]. *)
Lemma kinv_remove_node h ths act tf g Q l ys zs t :
  kinv h ths act tf g Q -> Q !! l = Some (ys ++ TList t :: zs) ->
  let Q' := <[TList t := []]> (<[l := ys ++ zs]> Q) in
  exists h', rt_list_remove (TList t) h = Some h' /\ Rep h' Q' /\
    same_but (TList t) Q Q' /\ forall l', ~ member Q' l' (TList t).
Proof.
  intros Hk Hl Q'.
  destruct (Rep_remove h Q l ys zs (TList t) (ki_rep _ _ _ _ _ _ Hk) Hl) as (h' & Hh' & Hrep').
  exists h'. split_and!; [done|done|eapply same_but_remove; [done|intros xs ?; by eapply ki_TList_alone]|].
  intros l' (xs & Hxs & Hin).
  assert (detached Q' (TList t)) as Hd.
  { eapply Rep_detached_self; [done|]. subst Q'. by rewrite lookup_insert_eq. }
  by destruct (Hd _ _ Hxs).
Qed.

(** Leave the ready queue for a state other than READY. *)
Lemma kinv_leave_ready h ths act tf g Q t :
  kinv h ths act tf g Q -> readyp (ths t) ->
  exists p ys zs h', p = current_priority (ths t) /\
    Q !! ReadyHead p = Some (ys ++ TList t :: zs) /\
    rt_list_remove (TList t) h = Some h' /\
    rt_list_isempty (ReadyHead p) h' = bool_decide (ys ++ zs = []) /\
    forall th, ~ readyp th -> (suspendedp th -> thread_ok th) ->
    kinv h' (<[t := th]> ths) act tf
      (if bool_decide (ys ++ zs = []) then Z.land g (u32 (Z.lnot (Z.shiftl 1 p))) else g)
      (<[TList t := []]> (<[ReadyHead p := ys ++ zs]> Q)).
Proof.
  intros Hk Hr. destruct (ki_ready_split _ _ _ _ _ _ _ Hk Hr) as (ys & zs & Hp).
  destruct (kinv_remove_node _ _ _ _ _ _ _ _ _ _ Hk Hp) as (h' & Hh' & Hrep' & Hsb & Hno).
  exists (current_priority (ths t)), ys, zs, h'. split_and!; [done..| |].
  { eapply Rep_isempty; [done|]. by simplify_map_eq. }
  intros th Hth Hok. eapply kinv_thread_move; [done|done|done| | |].
  - eapply ready_table_del; [done|done| |done|by simplify_map_eq|apply Hk].
    intros q (xs & Hq & Hin). assert (ReadyHead q = ReadyHead (current_priority (ths t))); [|congruence].
    eapply Rep_unique; [apply Hk|done|exact Hp|done|set_solver].
  - split; [by intros l ?%Hno|done|left; by simplify_map_eq|by intros [?|?]; auto].
  - destruct (ki_ready_timer _ _ _ _ _ _ _ Hk Hr) as [Hrow Hoff].
    split; [|intros _; apply (ki_timed _ _ _ _ _ _ Hk); by left|by left].
    intros Hin%(ki_timer_act _ _ _ _ _ _ Hk). congruence.
Qed.

(** Leave a waiting list, still suspended. *)
Lemma kinv_leave_wait h ths act tf g Q l ys zs t :
  kinv h ths act tf g Q -> wait_head l = true -> Q !! l = Some (ys ++ TList t :: zs) ->
  exists h', rt_list_remove (TList t) h = Some h' /\
    kinv h' ths act tf g (<[TList t := []]> (<[l := ys ++ zs]> Q)).
Proof.
  intros Hk Hw Hl.
  destruct (kinv_remove_node _ _ _ _ _ _ _ _ _ _ Hk Hl) as (h' & Hh' & Hrep' & Hsb & Hno).
  exists h'. split; [done|]. rewrite <- (fn_insert_id' ths t).
  eapply kinv_thread_move; [done|done|done| | |apply Hk].
  - eapply ready_table_frame; [done|done| |done|apply Hk].
    intros q (xs & Hq & Hin). assert (ReadyHead q = l) as <-; [|done].
    eapply Rep_unique; [apply Hk|done|exact Hl|done|set_solver].
  - pose proof (ki_placed _ _ _ _ _ _ Hk t) as [P1 P2 P3 P4].
    split; [by intros l' ?%Hno| |intros _; left; by simplify_map_eq|done].
    intros [xs [? ?]]%P2. assert (l = ReadyHead (current_priority (ths t))) as ->; [|done].
    eapply (Rep_unique _ _ _ _ _ _ (TList t)); [apply Hk|exact Hl|done|set_solver +|done].
Qed.

(** Join a list: the node of a suspended thread that is in none is inserted. *)
Lemma kinv_insert_node h' ths h act tf g Q l ys zs t :
  kinv h ths act tf g Q -> is_Some (Q !! TList t) -> Q !! l = Some (ys ++ zs) -> l <> TList t ->
  let Q' := <[l := ys ++ TList t :: zs]> (delete (TList t) Q) in
  Rep h' Q' -> same_but (TList t) Q Q' /\ (forall l', ~ member Q l' (TList t)) /\
    (forall l', member Q' l' (TList t) <-> l' = l).
Proof.
  intros Hk Hs Hl Hne Q' Hrep'.
  assert (detached Q (TList t)) as Hd by (eapply ki_detached; [done|apply not_node_ok_TList|done]).
  split; [by eapply same_but_insert|]. split; [intros l' (xs & Hxs & Hin); by destruct (Hd _ _ Hxs)|].
  intros l'. subst Q'. rewrite member_insert, member_delete by (intros xs ?; by eapply Hd).
  split.
  - intros [[? _]|[_ (xs & Hxs & Hin)]]; [done|]. by destruct (Hd _ _ Hxs).
  - intros ->. left. set_solver.
Qed.

Lemma kinv_join_wait h h' ths act tf g Q l ys zs t :
  kinv h ths act tf g Q -> wait_head l = true -> suspendedp (ths t) -> is_Some (Q !! TList t) ->
  Q !! l = Some (ys ++ zs) ->
  Rep h' (<[l := ys ++ TList t :: zs]> (delete (TList t) Q)) ->
  kinv h' ths act tf g (<[l := ys ++ TList t :: zs]> (delete (TList t) Q)).
Proof.
  intros Hk Hw Hsu Hs Hl Hrep'.
  destruct (kinv_insert_node h' ths h act tf g Q l ys zs t) as (Hsb & Hno & Hin); [done..| |done|].
  { by intros ->. }
  rewrite <- (fn_insert_id' ths t). eapply kinv_thread_move; [done|done|done| | |apply Hk].
  - eapply ready_table_frame; [done|done|done| |apply Hk]. intros q Hq%Hin. by subst l.
  - pose proof (ki_placed _ _ _ _ _ _ Hk t) as [P1 P2 P3 P4]. split; [| | |done].
    + intros l' ->%Hin. auto.
    + intros Hr. by destruct (ready_not_suspended (ths t)).
    + intros _. right. exists l. split; [done|]. by apply Hin.
Qed.

(** Become ready, at the tail of the queue of the thread's priority. *)
Lemma kinv_enter_ready h h' ths act tf g Q p xs t th :
  kinv h ths act tf g Q -> is_Some (Q !! TList t) ->
  is_Some (Q !! TimerRow (ThreadTimer t)) -> act (ThreadTimer t) = false ->
  tf (ThreadTimer t) = FN_rt_thread_timeout t ->
  readyp th -> thread_ok th -> p = current_priority th -> Q !! ReadyHead p = Some xs ->
  Rep h' (<[ReadyHead p := xs ++ [TList t]]> (delete (TList t) Q)) ->
  kinv h' (<[t := th]> ths) act tf (Z.lor g (Z.shiftl 1 p))
    (<[ReadyHead p := xs ++ [TList t]]> (delete (TList t) Q)).
Proof.
  intros Hk Hs Hrow Hoff Hfn Hr Hok -> Hp Hrep'.
  destruct (kinv_insert_node h' ths h act tf g Q (ReadyHead (current_priority th)) xs [] t)
    as (Hsb & Hno & Hin); [done|done|by rewrite app_nil_r|done|done|].
  eapply kinv_thread_move; [done|done|done| | |].
  - eapply (ready_table_add (TList t)); [done|done|done| |apply Hok|apply Hk].
    intros q. rewrite Hin. naive_solver.
  - split; [| | |done].
    + intros l ->%Hin. auto.
    + intros _. by apply Hin.
    + intros ?. by destruct (ready_not_suspended th).
  - split; [|done|by left]. intros Hm%(ki_timer_act _ _ _ _ _ _ Hk). congruence.
Qed.

(** Join the list of defunct threads. *)
Lemma kinv_join_defunct h h' ths act tf g Q xs t :
  kinv h ths act tf g Q -> is_Some (Q !! TList t) -> stat (ths t) = RT_THREAD_CLOSE ->
  Q !! DefunctHead = Some xs ->
  Rep h' (<[DefunctHead := TList t :: xs]> (delete (TList t) Q)) ->
  kinv h' ths act tf g (<[DefunctHead := TList t :: xs]> (delete (TList t) Q)).
Proof.
  intros Hk Hs Hcl Hp Hrep'.
  destruct (kinv_insert_node h' ths h act tf g Q DefunctHead [] xs t) as (Hsb & Hno & Hin); [done..|].
  rewrite <- (fn_insert_id' ths t). eapply kinv_thread_move; [done|done|done| | |apply Hk].
  - eapply ready_table_frame; [done|done|done| |apply Hk]. by intros q ?%Hin.
  - pose proof (ki_placed _ _ _ _ _ _ Hk t) as [P1 P2 P3 P4].
    split; [|unfold readyp; by rewrite Hcl|unfold suspendedp; by rewrite Hcl|done].
    intros l ->%Hin. auto.
Qed.

(** Only the order of the members of a list changes. *)
Lemma kinv_reorder h h' ths act tf g Q Q' :
  kinv h ths act tf g Q -> Rep h' Q' -> (forall l n, member Q' l n <-> member Q l n) ->
  (forall l, is_Some (Q' !! l) <-> is_Some (Q !! l)) -> kinv h' ths act tf g Q'.
Proof.
  intros [K1 K2 K3 K4 K5 K6 K7 K8] Hrep Hm Hs.
  assert (forall n, same_but n Q Q') as Hsb by (intros n; by split).
  split; try done.
  - intros l n. rewrite Hm. apply K2.
  - destruct K3 as [H1 H2 H3]. split; [intros p; by rewrite H1, Hs| |done].
    intros p Hp. rewrite H2 by done. by setoid_rewrite Hm.
  - by apply Hs.
  - by apply Hs.
  - intros tm. rewrite Hm. apply K6.
  - intros t. by eapply (placed_frame DefunctHead).
  - intros t. by eapply (timed_frame DefunctHead).
Qed.

(** A ready thread goes to the tail of its queue. *)
Lemma kinv_requeue h ths act tf g Q p ys zs t :
  kinv h ths act tf g Q -> Q !! ReadyHead p = Some (ys ++ TList t :: zs) ->
  exists h1 h2, rt_list_remove (TList t) h = Some h1 /\
    rt_list_insert_before (ReadyHead p) (TList t) h1 = Some h2 /\
    kinv h2 ths act tf g (<[ReadyHead p := ys ++ zs ++ [TList t]]> Q).
Proof.
  intros Hk Hl. pose proof (ki_rep _ _ _ _ _ _ Hk) as Hrep.
  destruct (Rep_remove h Q _ ys zs (TList t) Hrep Hl) as (h1 & Hh1 & Hrep1).
  set (Q1 := <[TList t := []]> _) in Hrep1.
  assert (Q1 !! ReadyHead p = Some (ys ++ zs)) as Hl1 by (subst Q1; by simplify_map_eq).
  destruct (Rep_insert_before h1 Q1 (ReadyHead p) (ys ++ zs) (TList t)) as (h2 & Hh2 & Hrep2);
    [done|done|eapply Rep_detached_self; [done|subst Q1; by simplify_map_eq]|done|].
  exists h1, h2. split_and!; [done|done|].
  assert (Q !! TList t = None) as Hnone by (eapply Rep_member_head; [done|exact Hl|set_solver]).
  assert (<[ReadyHead p := (ys ++ zs) ++ [TList t]]> (delete (TList t) Q1) =
          <[ReadyHead p := ys ++ zs ++ [TList t]]> Q) as E.
  { rewrite <- app_assoc. subst Q1. apply map_eq. intros x. rewrite !lookup_insert, lookup_delete, !lookup_insert.
    repeat case_decide; congruence. }
  rewrite E in Hrep2. eapply kinv_reorder; [exact Hk|done| |].
  - intros l n. rewrite member_insert. destruct (decide (ReadyHead p = l)) as [<-|]; [|naive_solver].
    unfold member. setoid_rewrite Hl. split; [intros [[_ ?]|[]]; [eexists; split; [done|set_solver]|done]|].
    intros (xs & [= <-] & ?). left. set_solver.
  - intros l. rewrite lookup_insert. case_decide; subst; [|done]. rewrite Hl. split; eauto.
Qed.

(** ** Moves of a timer *)

(** Take a timer out of the list; the code clears its flag at another point. *)
Lemma kinv_timer_off h ths act tf g Q tm ys zs :
  kinv h ths act tf g Q -> Q !! TimerHead = Some (ys ++ TimerRow tm :: zs) ->
  exists h', rt_list_remove (TimerRow tm) h = Some h' /\
    kinv h' ths (<[tm := false]> act) tf g (<[TimerRow tm := []]> (<[TimerHead := ys ++ zs]> Q)).
Proof.
  intros Hk Hl.
  destruct (Rep_remove h Q _ ys zs (TimerRow tm) (ki_rep _ _ _ _ _ _ Hk) Hl) as (h' & Hh' & Hrep').
  exists h'. split; [done|]. set (Q' := <[TimerRow tm := []]> _) in *.
  assert (forall l, ~ member Q' l (TimerRow tm)) as Hno.
  { intros l (xs & Hxs & Hin). assert (detached Q' (TimerRow tm)) as Hd.
    { eapply Rep_detached_self; [done|]. subst Q'. by rewrite lookup_insert_eq. }
    by destruct (Hd _ _ Hxs). }
  eapply kinv_timer_move; [done|done| |by intros l ?%Hno|].
  - eapply same_but_remove; [done|]. intros xs Hq.
    pose proof (ki_timer_row _ _ _ _ _ _ tm Hk ltac:(eauto)). congruence.
  - intros t ->. split; [by intros ?%Hno|apply (ki_timed _ _ _ _ _ _ Hk)|].
    intros _. left. split; [|done]. subst Q'. by simplify_map_eq.
Qed.

(** Put a timer into the list and switch it on. *)
Lemma kinv_timer_on h h' ths act tf g Q tm ys zs :
  kinv h ths act tf g Q -> is_Some (Q !! TimerRow tm) -> Q !! TimerHead = Some (ys ++ zs) ->
  (forall t, tm = ThreadTimer t -> suspendedp (ths t)) ->
  Rep h' (<[TimerHead := ys ++ TimerRow tm :: zs]> (delete (TimerRow tm) Q)) ->
  kinv h' ths (<[tm := true]> act) tf g
    (<[TimerHead := ys ++ TimerRow tm :: zs]> (delete (TimerRow tm) Q)).
Proof.
  intros Hk Hs Hl Hsu Hrep'.
  assert (detached Q (TimerRow tm)) as Hd by (eapply ki_detached; [done|apply not_node_ok_TimerRow|done]).
  set (Q' := <[TimerHead := _]> _) in *.
  assert (forall l', member Q' l' (TimerRow tm) <-> l' = TimerHead) as Hin.
  { intros l'. subst Q'. rewrite member_insert, member_delete by (intros xs ?; by eapply Hd).
    split; [intros [[? _]|[_ (xs & Hxs & Hin)]]; [done|by destruct (Hd _ _ Hxs)]|].
    intros ->. left. set_solver. }
  eapply kinv_timer_move; [done|done|by eapply same_but_insert|by intros l ->%Hin|].
  intros t ->. split; [intros _; by apply Hsu|apply (ki_timed _ _ _ _ _ _ Hk)|].
  intros _. right. by apply Hin.
Qed.

(** The flag of a timer that is in no list is cleared, or (the timer of no live
    thread) set to anything. *)
Lemma kinv_timer_flag h ths act tf g Q tm on :
  kinv h ths act tf g Q -> (forall l, ~ member Q l (TimerRow tm)) ->
  (on = true -> forall t, tm = ThreadTimer t -> ~ live (ths t)) ->
  kinv h ths (<[tm := on]> act) tf g Q.
Proof.
  intros Hk Hno Hon.
  eapply kinv_timer_move; [done|apply Hk|apply same_but_refl|by intros l ?%Hno|].
  intros t ->. destruct (ki_timed _ _ _ _ _ _ Hk t) as [T1 T2 T3].
  split; [by intros ?%Hno|done|]. intros Hl. destruct on; [by destruct (Hon eq_refl t eq_refl)|].
  destruct (T3 Hl) as [[? _]|Hm]; [by left|by apply Hno in Hm].
Qed.

Lemma kinv_free_row h ths act tf g Q tm :
  kinv h ths act tf g Q -> is_Some (Q !! TimerRow tm) -> forall l, ~ member Q l (TimerRow tm).
Proof.
  intros Hk Hs l (xs & Hxs & Hin).
  assert (detached Q (TimerRow tm)) as Hd by (eapply ki_detached; [done|apply not_node_ok_TimerRow|done]).
  by destruct (Hd _ _ Hxs).
Qed.

(** ** Taking a node out of wherever it is *)

Definition unlink (n : node) Q : gmap node (list node) :=
  <[n := []]> ((fun xs => filter (fun m => m <> n) xs) <$> Q).

Lemma lookup_unlink n Q l :
  unlink n Q !! l = if decide (n = l) then Some [] else filter (fun m => m <> n) <$> Q !! l.
Proof. unfold unlink. rewrite lookup_insert. case_decide; [done|]. by rewrite lookup_fmap. Qed.

Lemma filter_notin n (xs : list node) : n ∉ xs -> filter (fun m => m <> n) xs = xs.
Proof.
  induction xs as [|x xs IH]; [done|]. intros Hn. rewrite filter_cons_True by set_solver.
  f_equal. apply IH. set_solver.
Qed.

Lemma filter_middle n (ys zs : list node) :
  n ∉ ys ++ zs -> filter (fun m => m <> n) (ys ++ n :: zs) = ys ++ zs.
Proof.
  intros Hn. rewrite filter_app, filter_cons_False by (intros H; by apply H).
  rewrite !filter_notin by set_solver. done.
Qed.

(** The shape Rep_remove gives is the same map. *)
Lemma unlink_member h Q n l ys zs :
  Rep h Q -> Q !! l = Some (ys ++ n :: zs) -> <[n := []]> (<[l := ys ++ zs]> Q) = unlink n Q.
Proof.
  intros Hrep Hl. apply map_eq. intros x. rewrite lookup_unlink, !lookup_insert.
  case_decide; [done|]. case_decide as Hx; [subst x|].
  - rewrite Hl. simpl. rewrite filter_middle; [done|].
    apply NoDup_delete_middle. by eapply Rep_NoDup.
  - destruct (Q !! x) as [xs|] eqn:E; [|done]. simpl. rewrite filter_notin; [done|].
    intros Hin. apply Hx. eapply (Rep_unique _ _ l x); [done|done|done| |done]. set_solver.
Qed.

Lemma unlink_detached h Q n : Rep h Q -> Q !! n = Some [] -> unlink n Q = Q.
Proof.
  intros Hrep Hn. apply map_eq. intros x. rewrite lookup_unlink. case_decide as E; [by subst|].
  destruct (Q !! x) as [xs|] eqn:Ex; [|done]. simpl. rewrite filter_notin; [done|].
  by apply (Rep_detached_self _ _ _ Hrep Hn _ _ Ex).
Qed.

(** [rt_list_remove] on the node of a suspended thread. *)
Lemma kinv_unlink_thread h ths act tf g Q t :
  kinv h ths act tf g Q -> suspendedp (ths t) ->
  exists h', rt_list_remove (TList t) h = Some h' /\
    kinv h' ths act tf g (unlink (TList t) Q).
Proof.
  intros Hk Hs. destruct (pl_susp _ _ _ (ki_placed _ _ _ _ _ _ Hk t) Hs) as [Hd|(l & Hw & xs & Hl & Hin)].
  - pose proof (ki_tlist _ _ _ _ _ _ _ Hk Hd) as Hn.
    destruct (Rep_remove_self h Q (TList t)) as (h' & Hh' & Hrep'); [apply Hk|done|].
    exists h'. split; [done|]. rewrite (unlink_detached h') by done.
    destruct Hk. by split.
  - apply elem_of_split_first in Hin as (ys & zs & ->).
    destruct (kinv_leave_wait _ _ _ _ _ _ _ _ _ _ Hk Hw Hl) as (h' & Hh' & Hk').
    exists h'. split; [done|]. rewrite <- (unlink_member h Q (TList t) l ys zs); [done|apply Hk|done].
Qed.

Lemma unlink_TList_Some t Q : is_Some (unlink (TList t) Q !! TList t).
Proof. rewrite lookup_unlink, decide_True by done. eauto. Qed.

Lemma unlink_is_Some n Q l : is_Some (Q !! l) -> is_Some (unlink n Q !! l).
Proof. intros [xs E]. rewrite lookup_unlink. case_decide; [eauto|]. rewrite E. eauto. Qed.

Lemma unlink_other h Q n l xs :
  Rep h Q -> Q !! l = Some xs -> n ∉ xs -> n <> l -> unlink n Q !! l = Some xs.
Proof. intros Hrep Hl Hn Hne. by rewrite lookup_unlink, decide_False, Hl; [simpl; rewrite filter_notin|]. Qed.

(** ** Moves of no thread and no timer *)

Lemma kinv_other h h' ths act tf g Q Q' n :
  kinv h ths act tf g Q -> Rep h' Q' -> same_but n Q Q' ->
  (forall l, member Q' l n -> node_ok l n) ->
  (forall p, n <> ReadyHead p) -> n <> DefunctHead -> n <> TimerHead ->
  (forall t, n <> TList t) -> (forall tm, n <> TimerRow tm) ->
  kinv h' ths act tf g Q'.
Proof.
  intros [K1 K2 K3 K4 K5 K6 K7 K8] Hrep Hsb Hok N1 N2 N3 N4 N5. split; try done.
  - by eapply typed_frame.
  - eapply ready_table_frame; [done|done| | |done].
    + intros p Hp%K2. destruct n; naive_solver.
    + intros p Hp%Hok. destruct n; naive_solver.
  - by apply Hsb.
  - by apply Hsb.
  - intros tm Hin. apply K6, Hsb; [|done]. intros E. by apply (N5 tm).
  - intros t. eapply placed_frame; [done|done|apply K7].
  - intros t. eapply timed_frame; [done|done|apply K8].
Qed.

End invariant.

(** * The invariant of a kernel state

    [KIx act] lets the activated flags be other than the stored ones: during the
    call of a timeout function the timer is out of the list with its flag still
    set (rt_timer_check). *)

Definition activated (k : kernel) (tm : timer_id) : bool :=
  Z.testbit (flag (objects k (OTimer tm))) 0.
Definition timer_fn (k : kernel) (tm : timer_id) : timeout_fn := timeout_func (timers k tm).

Definition KIx (act : timer_id -> bool) (k : kernel) (Q : gmap node (list node)) : Prop :=
  kinv (lists k) (threads k) act (timer_fn k) (rt_thread_ready_priority_group k) Q.
Definition KI (k : kernel) : gmap node (list node) -> Prop := KIx (activated k) k.

(** The parts of the state an operation may leave alone. *)
Definition ipc_part (k : kernel) :=
  (sem_value k, mutexes k, event_sets k, mailboxes k, mqs k).
Definition nest_part (k : kernel) :=
  (rt_scheduler_lock_nest k, rt_interrupt_nest k, rt_tick k).
Definition cpu_part (k : kernel) :=
  (rt_current_thread k, rt_current_priority k, switches k).
Definition timer_part (k : kernel) := (objects k, timers k, random_nr k).
Definition env (k : kernel) := (ipc_part k, nest_part k).

Lemma wp_list_op op h (Phi : unit -> kernel -> Prop) k :
  op (lists k) = Some h -> Phi tt (set_lists h k) -> wp (list_op op) Phi k.
Proof. unfold wp, list_op. by intros ->. Qed.

Lemma wp_first_thread l t xs Q (Phi : nat -> kernel -> Prop) k :
  Rep (lists k) Q -> Q !! l = Some (TList t :: xs) -> Phi t k -> wp (list_first_thread l) Phi k.
Proof.
  intros Hrep Hl HPhi. unfold list_first_thread. wp_pure.
  eapply wp_of_option; [by rewrite (Rep_next _ _ _ _ Hrep Hl)|]. by eapply wp_of_option.
Qed.
