(* ===== verification/Sched.v ===== *)
(** The scheduler: src/scheduler.c and the interrupt nesting of src/irq.c.

    RT_THREAD_PRIORITY_MAX is 32 (rtconfig.h), so the ready group is one bit per
    priority.  RT_DEBUG is not defined there: RT_ASSERT and RT_DEBUG_LOG expand
    to nothing.  The code runs with interrupts disabled between
    rt_hw_interrupt_disable and rt_hw_interrupt_enable; a definition is one such
    section.  A context switch is recorded in [switches]: what the machine does
    then is to continue the code of the thread switched to. *)

From S2P Require Import Prelude RtList KState Ffs KInv.

Open Scope Z_scope.

(** * Operations *)

(** rt_system_scheduler_init *)
Definition rt_system_scheduler_init : K unit :=
  modify (set_rt_scheduler_lock_nest 0) ;!
  for_range (Z.to_nat RT_THREAD_PRIORITY_MAX) 0 (fun offset => list_init (ReadyHead offset)) ;!
  modify (set_rt_current_priority (RT_THREAD_PRIORITY_MAX - 1)) ;!
  modify (set_rt_current_thread None) ;!
  modify (set_rt_thread_ready_priority_group 0) ;!
  list_init DefunctHead.

(** _rt_scheduler_stack_check: below or above the stack, the machine stops;
    near its end it only prints a warning. *)
Definition _rt_scheduler_stack_check (t : nat) : K unit :=
  let! k := get in
  let th := threads k t in
  if (u32 (sp th) <=? u32 (stack_addr th)) ||
     (u32 (sp th) >? u32 (u32 (stack_addr th) + u32 (stack_size th)))
  then fail StackOverflow
  else ret tt.

(** The index [__rt_ffs(group) - 1], an unsigned word. *)
Definition highest_ready_priority (k : kernel) : Z :=
  u32 (__rt_ffs (rt_thread_ready_priority_group k) - 1).

(** rt_system_scheduler_start *)
Definition rt_system_scheduler_start : K unit :=
  let! k := get in
  let! to_thread := list_first_thread (ReadyHead (highest_ready_priority k)) in
  modify (set_rt_current_thread (Some to_thread)) ;!
  modify (fun k => set_switches (SwitchTo to_thread :: switches k) k).

(** rt_schedule *)
Definition rt_schedule : K unit :=
  let! k := get in
  if rt_scheduler_lock_nest k =? 0 then
    let highest := highest_ready_priority k in
    let! to_thread := list_first_thread (ReadyHead highest) in
    if decide (Some to_thread = rt_current_thread k) then ret tt
    else
      modify (set_rt_current_priority (u8 highest)) ;!
      let from_thread := rt_current_thread k in
      modify (set_rt_current_thread (Some to_thread)) ;!
      _rt_scheduler_stack_check to_thread ;!
      if rt_interrupt_nest k =? 0 then
        modify (fun k => set_switches (Switch from_thread to_thread :: switches k) k)
      else
        modify (fun k => set_switches (SwitchInterrupt from_thread to_thread :: switches k) k)
  else ret tt.

(** rt_schedule_insert_thread *)
Definition rt_schedule_insert_thread (t : nat) : K unit :=
  upd_thread t (set_stat RT_THREAD_READY) ;!
  let! k := get in
  list_insert_before (ReadyHead (current_priority (threads k t))) (TList t) ;!
  modify (fun k => set_rt_thread_ready_priority_group
    (Z.lor (rt_thread_ready_priority_group k) (number_mask (threads k t))) k).

(** rt_schedule_remove_thread *)
Definition rt_schedule_remove_thread (t : nat) : K unit :=
  list_remove (TList t) ;!
  let! k := get in
  if list_isempty (ReadyHead (current_priority (threads k t))) k then
    modify (fun k => set_rt_thread_ready_priority_group
      (Z.land (rt_thread_ready_priority_group k) (u32 (Z.lnot (number_mask (threads k t))))) k)
  else ret tt.

(** rt_enter_critical; the counter is an [rt_int16_t]. *)
Definition rt_enter_critical : K unit :=
  modify (fun k => set_rt_scheduler_lock_nest (s16 (rt_scheduler_lock_nest k + 1)) k).

(** rt_exit_critical *)
Definition rt_exit_critical : K unit :=
  modify (fun k => set_rt_scheduler_lock_nest (s16 (rt_scheduler_lock_nest k - 1)) k) ;!
  let! k := get in
  if rt_scheduler_lock_nest k <=? 0 then
    modify (set_rt_scheduler_lock_nest 0) ;! rt_schedule
  else ret tt.

(** rt_critical_level returns the counter as an [rt_uint16_t]. *)
Definition rt_critical_level (k : kernel) : Z := u16 (rt_scheduler_lock_nest k).

(** rt_interrupt_enter, rt_interrupt_leave, rt_interrupt_get_nest (irq.c) *)
Definition rt_interrupt_enter : K unit :=
  modify (fun k => set_rt_interrupt_nest (u8 (rt_interrupt_nest k + 1)) k).
Definition rt_interrupt_leave : K unit :=
  modify (fun k => set_rt_interrupt_nest (u8 (rt_interrupt_nest k - 1)) k).
Definition rt_interrupt_get_nest (k : kernel) : Z := rt_interrupt_nest k.

(** * Specifications *)

Section specs.
Implicit Types (k : kernel) (t : nat) (Q : gmap node (list node)) (act : timer_id -> bool).

(** Insertion at the tail of the thread's ready queue.  [ths] are the threads as
    the invariant sees them: the contents of [t] itself do not matter. *)
Lemma rt_schedule_insert_thread_spec act ths k Q t th :
  kinv (lists k) ths act (timer_fn k) (rt_thread_ready_priority_group k) Q ->
  threads k = <[t := th]> ths -> is_Some (Q !! TList t) ->
  is_Some (Q !! TimerRow (ThreadTimer t)) -> act (ThreadTimer t) = false ->
  timer_fn k (ThreadTimer t) = FN_rt_thread_timeout t -> thread_ok th ->
  wp (rt_schedule_insert_thread t) (fun _ k' => exists xs,
    Q !! ReadyHead (current_priority th) = Some xs /\
    KIx act k' (<[ReadyHead (current_priority th) := xs ++ [TList t]]> (delete (TList t) Q)) /\
    threads k' = <[t := set_stat RT_THREAD_READY th]> ths /\
    env k' = env k /\ cpu_part k' = cpu_part k /\ timer_part k' = timer_part k) k.
Proof.
  intros Hk Hths Hs Hrow Hoff Hfn Hok. pose proof Hok as (Hp & Hmask & _).
  destruct (proj1 (rt_heads _ _ (ki_table _ _ _ _ _ _ Hk) _) Hp) as [xs Hxs].
  destruct (Rep_insert_before (lists k) Q (ReadyHead (current_priority th)) xs (TList t))
    as (h' & Hh' & Hrep'); [apply Hk|done| |done|].
  { eapply ki_detached; [done|apply not_node_ok_TList|done]. }
  unfold rt_schedule_insert_thread, upd_thread. wp_pure. simpl.
  rewrite Hths, !fn_lookup_insert. simpl.
  wp_step. eapply wp_list_op; [done|]. simpl. wp_pure. exists xs.
  split_and!; [done| |simpl; by rewrite fn_insert_insert'|done..].
  unfold KIx. simpl. rewrite fn_insert_insert', fn_lookup_insert. simpl. rewrite Hmask.
  by eapply kinv_enter_ready.
Qed.

(** Removal from the ready queue; the thread is about to get the contents [th']. *)
Lemma rt_schedule_remove_thread_spec act ths k Q t th :
  kinv (lists k) ths act (timer_fn k) (rt_thread_ready_priority_group k) Q ->
  threads k = <[t := th]> ths -> readyp (ths t) ->
  current_priority th = current_priority (ths t) -> number_mask th = number_mask (ths t) ->
  wp (rt_schedule_remove_thread t) (fun _ k' => exists ys zs,
    let Q' := <[TList t := []]> (<[ReadyHead (current_priority th) := ys ++ zs]> Q) in
    Q !! ReadyHead (current_priority th) = Some (ys ++ TList t :: zs) /\
    (forall th', ~ readyp th' -> (suspendedp th' -> thread_ok th') ->
      kinv (lists k') (<[t := th']> ths) act (timer_fn k') (rt_thread_ready_priority_group k') Q') /\
    threads k' = threads k /\
    env k' = env k /\ cpu_part k' = cpu_part k /\ timer_part k' = timer_part k) k.
Proof.
  intros Hk Hths Hr Hp Hm.
  destruct (kinv_leave_ready _ _ _ _ _ _ _ Hk Hr) as (p & ys & zs & h' & Ep & Hq & Hh' & Hemp & Hnew).
  destruct (pl_ok _ _ _ (ki_placed _ _ _ _ _ _ Hk t)) as (_ & Hmask & _); [by left|].
  unfold rt_schedule_remove_thread. wp_step. eapply wp_list_op; [done|]. wp_pure. simpl.
  rewrite Hths, !fn_lookup_insert, Hp, <- Ep. unfold list_isempty. simpl. rewrite Hemp.
  case_bool_decide as E; wp_pure; exists ys, zs; simpl; split_and!; try done;
    intros th' H1 H2; specialize (Hnew th' H1 H2).
  - by rewrite Hths, fn_lookup_insert, Hm, Hmask, <- Ep.
Qed.

(** ** The choice of the next thread *)

(** [t] is the head of the non-empty ready queue of the most urgent priority. *)
Definition next_to_run Q (t : nat) (p : Z) : Prop :=
  exists xs, Q !! ReadyHead p = Some (TList t :: xs) /\
    forall q, 0 <= q < p -> Q !! ReadyHead q = Some [].

Lemma highest_ready_next act k Q t0 :
  KIx act k Q -> readyp (threads k t0) ->
  exists t, next_to_run Q t (highest_ready_priority k) /\ readyp (threads k t) /\
    current_priority (threads k t) = highest_ready_priority k /\
    0 <= highest_ready_priority k <= current_priority (threads k t0).
Proof.
  intros Hk Hr. pose proof (ki_table _ _ _ _ _ _ Hk) as [H1 H2 H3].
  pose proof (ki_placed _ _ _ _ _ _ Hk t0) as P0.
  pose proof (pl_ok _ _ _ P0 (or_introl Hr)) as (Hp0 & _).
  assert (Z.testbit (rt_thread_ready_priority_group k) (current_priority (threads k t0)) = true) as Hb.
  { apply H2; [done|]. exists (TList t0). by apply P0. }
  assert (0 < rt_thread_ready_priority_group k) as Hpos.
  { destruct (decide (rt_thread_ready_priority_group k = 0)) as [E|]; [|lia].
    by rewrite E, Z.bits_0 in Hb. }
  destruct (__rt_ffs_lowest (rt_thread_ready_priority_group k)) as (Hlo & Hbit & Hmin); [lia|].
  unfold highest_ready_priority. set (p := __rt_ffs _ - 1) in *.
  assert (p <= current_priority (threads k t0)) as Hle.
  { apply Z.le_ngt. intros Hlt. specialize (Hmin (current_priority (threads k t0))).
    rewrite Hb in Hmin. discriminate Hmin. lia. }
  unfold RT_THREAD_PRIORITY_MAX in *. rewrite u32_small by lia.
  apply H2 in Hbit as (n & xs & Hxs & Hn); [|lia].
  destruct xs as [|x xs]; [by apply not_elem_of_nil in Hn|].
  assert (member Q (ReadyHead p) x) as Hx by (exists (x :: xs); set_solver).
  pose proof (ki_typed _ _ _ _ _ _ Hk _ _ Hx) as Hty.
  destruct x as [| | | | | |t| |]; try done; [].
  exists t. assert (readyp (threads k t) /\ current_priority (threads k t) = p) as [Hrt Hpt].
  { destruct (pl_in _ _ _ (ki_placed _ _ _ _ _ _ Hk t) _ Hx) as [[? E]|[[_ ?]|[_ ?]]]; [|done..].
    split; congruence. }
  split_and!; [|done|done|lia|lia]. exists xs. split; [done|]. intros q Hq.
  destruct (proj1 (H1 q)) as [ys Hys]; [lia|]. destruct ys as [|y ys]; [done|].
  specialize (Hmin q Hq). assert (Z.testbit (rt_thread_ready_priority_group k) q = true); [|congruence].
  apply H2; [lia|]. exists y, (y :: ys). set_solver.
Qed.

Lemma stack_check_spec k t (Phi : unit -> kernel -> Prop) :
  stack_ok (threads k t) -> Phi tt k -> wp (_rt_scheduler_stack_check t) Phi k.
Proof.
  intros (? & ? & ? & ?) HPhi. unfold _rt_scheduler_stack_check. wp_pure.
  rewrite (u32_small (sp _)), (u32_small (stack_size _)), (u32_small (stack_addr _)), u32_small by lia.
  rewrite (proj2 (Z.leb_gt _ _)) by lia.
  rewrite Z.gtb_ltb, (proj2 (Z.ltb_ge _ _)) by lia. done.
Qed.

(** What [rt_schedule] leaves: the current thread is the one at the head of the
    most urgent queue and everything else is as before. *)
Definition scheduled k Q (k' : kernel) : Prop :=
  (if decide (rt_scheduler_lock_nest k = 0) then
    exists t p, next_to_run Q t p /\ rt_current_thread k' = Some t /\
      (rt_current_thread k = Some t /\ k' = k \/
       rt_current_thread k <> Some t /\ rt_current_priority k' = p /\
       switches k' = (if rt_interrupt_nest k =? 0 then Switch else SwitchInterrupt)
         (rt_current_thread k) t :: switches k)
  else k' = k) /\
  lists k' = lists k /\ threads k' = threads k /\ env k' = env k /\ timer_part k' = timer_part k /\
  rt_thread_ready_priority_group k' = rt_thread_ready_priority_group k.

Lemma rt_schedule_spec act k Q t0 :
  KIx act k Q -> readyp (threads k t0) -> wp rt_schedule (fun _ => scheduled k Q) k.
Proof.
  intros Hk Hr. unfold rt_schedule. wp_pure.
  destruct (Z.eqb_spec (rt_scheduler_lock_nest k) 0) as [E|E];
    [|apply wp_ret; split; [by rewrite decide_False|done]].
  destruct (highest_ready_next act k Q t0) as (t & Hn & Hrt & Hpt & Hlo); [done..|].
  pose proof Hn as (xs & Hxs & _).
  pose proof (pl_ok _ _ _ (ki_placed _ _ _ _ _ _ Hk t) (or_introl Hrt)) as (Hpr & _ & Hst).
  unfold RT_THREAD_PRIORITY_MAX in Hpr.
  wp_step. eapply wp_first_thread; [apply Hk|done|]. case_decide as Ec.
  - apply wp_ret. split; [|done]. rewrite decide_True by done.
    exists t, (highest_ready_priority k). auto.
  - wp_pure. wp_step. apply stack_check_spec; [done|]. rewrite u8_small by lia.
    destruct (rt_interrupt_nest k =? 0) eqn:En; wp_pure; (split; [|done]; rewrite decide_True by done;
      exists t, (highest_ready_priority k); simpl; rewrite En; split_and!; [done|done|];
      right; split_and!; [congruence|done|done]).
Qed.

Lemma scheduled_KIx act k Q k' : KIx act k Q -> scheduled k Q k' -> KIx act k' Q.
Proof.
  unfold KIx, timer_fn. intros Hk (_ & El & Et & _ & Etp & Eg). injection Etp as _ Etm _.
  by rewrite El, Et, Eg, Etm.
Qed.

(** ** What the scheduler promises *)

(** The thread that runs is ready and none that is ready is more urgent. *)
Lemma scheduled_most_urgent act k Q k' :
  KIx act k Q -> scheduled k Q k' -> rt_scheduler_lock_nest k = 0 -> exists t xs,
    rt_current_thread k' = Some t /\ readyp (threads k' t) /\
    Q !! ReadyHead (current_priority (threads k' t)) = Some (TList t :: xs) /\
    (forall s, readyp (threads k' s) -> current_priority (threads k' t) <= current_priority (threads k' s)) /\
    (rt_current_thread k = Some t -> switches k' = switches k).
Proof.
  intros Hk Hs Hl. pose proof (scheduled_KIx _ _ _ _ Hk Hs) as Hk'.
  destruct Hs as (Hsw & _ & Eth & _ & _ & Eg). rewrite decide_True in Hsw by done.
  destruct Hsw as (t & p & (xs & Hq & Hmin) & Hcur & Hcase).
  assert (readyp (threads k' t) /\ current_priority (threads k' t) = p) as [Hrt <-].
  { destruct (pl_in _ _ _ (ki_placed _ _ _ _ _ _ Hk' t) (ReadyHead p)) as [[? E]|[[_ ?]|[_ ?]]]; [|split; congruence|done..].
    exists (TList t :: xs). set_solver. }
  exists t, xs. split_and!; [done|done|done| |].
  - intros s Hs. apply Z.le_ngt. intros Hlt.
    destruct (pl_ready _ _ _ (ki_placed _ _ _ _ _ _ Hk' s) Hs) as (ys & Hys & Hin).
    destruct (pl_ok _ _ _ (ki_placed _ _ _ _ _ _ Hk' s) (or_introl Hs)) as ((Hlo & _) & _).
    rewrite Hmin in Hys by lia. injection Hys as <-. by apply not_elem_of_nil in Hin.
  - intros Hc. destruct Hcase as [[_ ->]|[? _]]; [done|congruence].
Qed.

(** C1: With the scheduler unlocked, the thread that runs after rt_schedule is ready,
    the first of its queue, and no ready thread is more urgent. *)
Theorem rt_schedule_runs_most_urgent act k Q t0 :
  KIx act k Q -> readyp (threads k t0) -> rt_scheduler_lock_nest k = 0 ->
  wp rt_schedule (fun _ k' => KIx act k' Q /\ exists t xs,
    rt_current_thread k' = Some t /\ readyp (threads k' t) /\
    Q !! ReadyHead (current_priority (threads k' t)) = Some (TList t :: xs) /\
    (forall s, readyp (threads k' s) -> current_priority (threads k' t) <= current_priority (threads k' s)) /\
    (rt_current_thread k = Some t -> switches k' = switches k)) k.
Proof.
  intros Hk Hr Hl. wp_use (rt_schedule_spec act k Q t0); [done|done|]. intros [] k' Hs.
  split; [by eapply scheduled_KIx|by eapply scheduled_most_urgent].
Qed.

(** A critical section inside another one: nothing is scheduled and the nesting
    comes back, as long as the 16-bit counter has room. *)
Theorem critical_nested k :
  0 < rt_scheduler_lock_nest k < 2 ^ 15 - 1 ->
  wp (rt_enter_critical ;! rt_schedule ;! rt_exit_critical) (fun _ k' =>
    rt_scheduler_lock_nest k' = rt_scheduler_lock_nest k /\ cpu_part k' = cpu_part k /\
    threads k' = threads k /\ lists k' = lists k) k.
Proof.
  intros Hn. unfold rt_enter_critical, rt_exit_critical, rt_schedule, s16. wp_pure. simpl.
  assert ((rt_scheduler_lock_nest k + 1 + 2 ^ 15) mod 2 ^ 16 - 2 ^ 15 = rt_scheduler_lock_nest k + 1) as ->
    by (rewrite Z.mod_small by lia; lia).
  rewrite (proj2 (Z.eqb_neq _ 0)) by lia. wp_pure. simpl.
  assert ((rt_scheduler_lock_nest k + 1 - 1 + 2 ^ 15) mod 2 ^ 16 - 2 ^ 15 = rt_scheduler_lock_nest k) as ->
    by (rewrite Z.mod_small by lia; lia).
  rewrite (proj2 (Z.leb_gt _ 0)) by lia. by apply wp_ret.
Qed.

End specs.
