(* ===== verification/Object.v ===== *)
(** Kernel objects (src/object.c): the container of objects by class, their
    names, and the string functions of src/kservice.c they are named with.

    A C string argument is the list of its bytes before the terminating NUL; the
    name stored in an object is its array of RT_NAME_MAX bytes.  The hooks are
    NULL unless an application installs one, and are not modelled. *)

From S2P Require Import Prelude RtList KState KInv Sched.

Open Scope Z_scope.

(** * Strings (kservice.c) *)

(** rt_strncpy: the [n] bytes it writes. *)
Fixpoint rt_strncpy (src : list Z) (n : nat) {struct n} : list Z :=
  match n with
  | O => []
  | S n' =>
      match src with
      | [] => 0 :: replicate n' 0
      | c :: src' => if c =? 0 then 0 :: replicate n' 0 else c :: rt_strncpy src' n'
      end
  end.

(** rt_strncmp: the difference is kept in a [signed char]; it is 0 whenever the
    loop goes on. *)
Fixpoint rt_strncmp (cs ct : list Z) (count : nat) : Z :=
  match count with
  | O => 0
  | S count' =>
      let c := hd 0 cs in
      let res := s8 (c - hd 0 ct) in
      if negb (res =? 0) || (c =? 0) then res
      else rt_strncmp (tl cs) (tl ct) count'
  end.

(** * Objects *)

(** rt_object_get_information: the list head of a class; the container has
    RT_Object_Class_Unknown entries. *)
Definition rt_object_get_information (type : Z) : option node :=
  if (0 <=? type) && (type <? RT_Object_Class_Unknown) then Some (ObjHead type) else None.

(** rt_object_init; every call in the kernel passes the class of the struct. *)
Definition rt_object_init (o : objid) (nm : list Z) : K unit :=
  let type := object_class o in
  let! information := of_option BadPointer (rt_object_get_information type) in
  upd_object o (set_type (Z.lor type RT_Object_Class_Static)) ;!
  upd_object o (set_name (rt_strncpy nm RT_NAME_MAX)) ;!
  list_insert_after information (ObjNode o).

(** rt_object_detach *)
Definition rt_object_detach (o : objid) : K unit := list_remove (ObjNode o).

(** rt_object_is_systemobject *)
Definition rt_object_is_systemobject (o : objid) (k : kernel) : bool :=
  negb (Z.land (type (objects k o)) RT_Object_Class_Static =? 0).

(** [rt_list_entry(node, struct rt_object, list)] *)
Definition object_entry (n : node) : option objid :=
  match n with ObjNode o => Some o | _ => None end.

(** The loop of rt_object_find and rt_thread_find over the nodes of a list. *)
Fixpoint find_name (ns : list node) (nm : list Z) (k : kernel) : option (option objid) :=
  match ns with
  | [] => Some None
  | n :: ns' =>
      match object_entry n with
      | None => None
      | Some o => if rt_strncmp (name (objects k o)) nm RT_NAME_MAX =? 0 then Some (Some o)
                  else find_name ns' nm k
      end
  end.

Definition find_object (nm : list Z) (type : Z) : K (option objid) :=
  let! k := get in
  let! information := of_option BadPointer (rt_object_get_information type) in
  let! ns := of_option OutOfFuel (list_nodes information (lists k)) in
  of_option BadPointer (find_name ns nm k).

(** rt_object_find; a NULL name is [None].  The scheduler is locked during the
    search, and unlocking it calls the scheduler. *)
Definition rt_object_find (nm : option (list Z)) (type : Z) : K (option objid) :=
  match nm with
  | None => ret None
  | Some nm =>
      if type >? RT_Object_Class_Unknown then ret None
      else
        rt_enter_critical ;!
        let! r := find_object nm type in
        rt_exit_critical ;!
        ret r
  end.

(** * Names *)

Definition no_nul (s : list Z) : Prop := Forall (fun c => 0 < c < 256) s.

Lemma rt_strncpy_length s n : length (rt_strncpy s n) = n.
Proof.
  revert s. induction n as [|n IH]; intros s; [done|]. destruct s as [|c s]; simpl;
    [by rewrite length_replicate|].
  destruct (c =? 0); simpl; by rewrite ?length_replicate, ?IH.
Qed.

Lemma s8_0_iff x : -256 < x < 256 -> s8 x = 0 <-> x = 0.
Proof.
  unfold s8. intros Hx. split; [|by intros ->].
  intros H. assert ((x + 2 ^ 7) mod 2 ^ 8 = 2 ^ 7) as E by lia.
  pose proof (Z.div_mod (x + 2 ^ 7) (2 ^ 8)). lia.
Qed.

(** A name stored by rt_strncpy compares equal to a string iff the first [n]
    characters are the same. *)
Lemma strncmp_strncpy a b n :
  no_nul a -> no_nul b -> rt_strncmp (rt_strncpy a n) b n = 0 <-> take n a = take n b.
Proof.
  revert a b. induction n as [|n IH]; intros a b Ha Hb; [done|].
  destruct a as [|x a]; simpl.
  - rewrite orb_true_r. destruct b as [|y b]; simpl; [done|].
    apply Forall_cons in Hb as [Hy _]. rewrite s8_0_iff by lia. split; [lia|done].
  - apply Forall_cons in Ha as [Hx Ha]. rewrite (proj2 (Z.eqb_neq x 0)) by lia. simpl.
    rewrite (proj2 (Z.eqb_neq x 0)), orb_false_r by lia.
    assert (forall y, 0 <= y < 256 -> s8 (x - y) =? 0 = (x =? y)) as Heq.
    { intros y Hy. destruct (Z.eqb_spec x y) as [->|]; [by rewrite Z.sub_diag|].
      apply Z.eqb_neq. rewrite s8_0_iff; lia. }
    destruct b as [|y b]; simpl.
    + rewrite Heq, (proj2 (Z.eqb_neq x 0)) by lia. simpl. rewrite s8_0_iff by lia. split; [lia|done].
    + apply Forall_cons in Hb as [Hy Hb]. rewrite Heq by lia. destruct (Z.eqb_spec x y) as [->|Hne]; simpl.
      * rewrite IH by done. split; [by intros ->|by intros [= ?]].
      * rewrite s8_0_iff by lia. split; [lia|congruence].
Qed.

(** * Specifications *)

Section specs.
Implicit Types (k : kernel) (Q : gmap node (list node)) (act : timer_id -> bool).

(** The containers as object.c initialises them. *)
Definition containers Q : Prop := forall c, 0 <= c < RT_Object_Class_Unknown -> is_Some (Q !! ObjHead c).

Lemma object_class_range o : 0 <= object_class o < RT_Object_Class_Unknown.
Proof. unfold RT_Object_Class_Unknown. destruct o; simpl; compute; split; congruence. Qed.

Lemma get_information_class o : rt_object_get_information (object_class o) = Some (ObjHead (object_class o)).
Proof.
  unfold rt_object_get_information. pose proof (object_class_range o).
  by rewrite (proj2 (Z.leb_le _ _)), (proj2 (Z.ltb_lt _ _)) by lia.
Qed.

Definition named (nm : list Z) (o : objid) (ob : rt_object) : rt_object :=
  mk_object (rt_strncpy nm RT_NAME_MAX) (Z.lor (object_class o) RT_Object_Class_Static) (flag ob).

(** The node of an object goes to the front of its container. *)
Lemma kinv_register act k Q o :
  KIx act k Q -> containers Q -> detached Q (ObjNode o) -> exists xs h,
    Q !! ObjHead (object_class o) = Some xs /\
    rt_list_insert_after (ObjHead (object_class o)) (ObjNode o) (lists k) = Some h /\
    forall obs, KIx act (set_lists h (set_objects obs k))
      (<[ObjHead (object_class o) := ObjNode o :: xs]> (delete (ObjNode o) Q)).
Proof.
  intros Hk Hc Hd. destruct (Hc _ (object_class_range o)) as [xs Hxs].
  destruct (Rep_insert_after (lists k) Q (ObjHead (object_class o)) xs (ObjNode o))
    as (h & Hh & Hrep); [apply Hk|done..|].
  exists xs, h. split_and!; [done|done|]. intros obs.
  unfold KIx, timer_fn. simpl. eapply (kinv_other (lists k) h _ _ _ _ Q _ (ObjNode o)); try done.
  - by apply (same_but_insert (ObjNode o) Q (ObjHead (object_class o)) [] xs).
  - intros l (ys & Hl & Hin). simpl. apply lookup_insert_Some in Hl as [[<- _]|[_ Hl]]; [done|].
    apply lookup_delete_Some in Hl as [_ Hl]. by destruct (Hd _ _ Hl).
Qed.

Lemma rt_object_init_spec act k Q o nm :
  KIx act k Q -> containers Q -> detached Q (ObjNode o) ->
  wp (rt_object_init o nm) (fun _ k' => exists xs h,
    Q !! ObjHead (object_class o) = Some xs /\
    KIx act k' (<[ObjHead (object_class o) := ObjNode o :: xs]> (delete (ObjNode o) Q)) /\
    k' = set_lists h (set_objects (<[o := named nm o (objects k o)]> (objects k)) k)) k.
Proof.
  intros Hk Hc Hd. destruct (kinv_register act k Q o Hk Hc Hd) as (xs & h & Hxs & Hh & Hk').
  unfold rt_object_init. wp_step. eapply wp_of_option; [apply get_information_class|].
  unfold upd_object. wp_pure. simpl. eapply wp_list_op; [done|].
  exists xs, h. split_and!; [done|apply Hk'|]. rewrite fn_lookup_insert, fn_insert_insert'. done.
Qed.

Lemma rt_object_detach_spec act k Q o ys zs :
  KIx act k Q -> Q !! ObjHead (object_class o) = Some (ys ++ ObjNode o :: zs) ->
  wp (rt_object_detach o) (fun _ k' => exists h, k' = set_lists h k /\
    KIx act k' (<[ObjNode o := []]> (<[ObjHead (object_class o) := ys ++ zs]> Q))) k.
Proof.
  intros Hk Hl.
  destruct (Rep_remove (lists k) Q _ ys zs (ObjNode o) (ki_rep _ _ _ _ _ _ Hk) Hl) as (h & Hh & Hrep).
  eapply wp_list_op; [done|]. exists h. split; [done|].
  unfold KIx. simpl. eapply (kinv_other (lists k) h _ _ _ _ Q _ (ObjNode o)); try done.
  - eapply same_but_remove; [done|]. intros xs Hn.
    pose proof (ki_no_member _ _ _ _ _ _ (ObjNode o) Hk (not_node_ok_ObjNode o) ltac:(eauto)). congruence.
  - intros l (xs & Hx & Hin). exfalso.
    destruct (Rep_detached_self h _ (ObjNode o) Hrep) with l xs; [|done|done].
    by rewrite lookup_insert_eq.
Qed.

(** ** Finding an object *)

(** The objects of a list carry the names [nms] they were given. *)
Definition stored_names k (nms : objid -> list Z) (xs : list objid) : Prop :=
  forall o, o ∈ xs -> no_nul (nms o) /\ name (objects k o) = rt_strncpy (nms o) RT_NAME_MAX.

Definition same_name (a b : list Z) : Prop := take RT_NAME_MAX a = take RT_NAME_MAX b.

(** The first object of the list with the name, if any. *)
Definition first_named (nms : objid -> list Z) (nm : list Z) (xs : list objid) (r : option objid) : Prop :=
  match r with
  | Some o => exists ys zs, xs = ys ++ o :: zs /\ same_name (nms o) nm /\ forall x, x ∈ ys -> ~ same_name (nms x) nm
  | None => forall x, x ∈ xs -> ~ same_name (nms x) nm
  end.

Lemma find_name_first k nms nm xs :
  stored_names k nms xs -> no_nul nm ->
  exists r, find_name (ObjNode <$> xs) nm k = Some r /\ first_named nms nm xs r.
Proof.
  intros Hst Hnm. induction xs as [|o xs IH]; [exists None; split; [done|]; by intros x ?%not_elem_of_nil|].
  rewrite fmap_cons. cbn [find_name object_entry]. destruct (Hst o) as [Hno ->]; [set_solver|].
  destruct IH as (r & Hr & Hf); [intros x Hx; apply Hst; set_solver|].
  destruct (Z.eqb_spec (rt_strncmp (rt_strncpy (nms o) RT_NAME_MAX) nm RT_NAME_MAX) 0) as [E|E].
  - exists (Some o). split; [done|]. exists [], xs. apply strncmp_strncpy in E; [|done|done]. set_solver.
  - assert (~ same_name (nms o) nm) as Hn by (intros Hs; by apply E, strncmp_strncpy).
    exists r. split; [done|]. destruct r as [x|].
    + destruct Hf as (ys & zs & -> & Hx & Hy). exists (o :: ys), zs. split_and!; [done|done|].
      intros y [->|?]%elem_of_cons; auto.
    + intros x [->|?]%elem_of_cons; auto.
Qed.

Lemma object_list act k Q c :
  KIx act k Q -> is_Some (Q !! ObjHead c) -> exists xs, Q !! ObjHead c = Some (ObjNode <$> xs).
Proof.
  intros Hk [ns Hns]. rewrite Hns.
  assert (forall n, n ∈ ns -> exists o, n = ObjNode o) as Hty.
  { intros n Hn. pose proof (ki_typed _ _ _ _ _ _ Hk (ObjHead c) n ltac:(by exists ns)) as Hok.
    destruct n; simpl in Hok; try done; [naive_solver|eauto]. }
  clear Hns. induction ns as [|n ns IH]; [by exists []|].
  destruct (Hty n) as [o ->]; [set_solver|]. destruct IH as [xs E]; [set_solver|].
  injection E as ->. by exists (o :: xs).
Qed.

(** rt_object_find returns the first object of the class with that name, compared
    up to RT_NAME_MAX characters, and NULL when there is none; the scheduler is
    locked as deep as before. *)
Theorem rt_object_find_spec act k Q nms nm c t0 :
  KIx act k Q -> readyp (threads k t0) -> 0 <= rt_scheduler_lock_nest k < 2 ^ 15 - 1 ->
  0 <= c < RT_Object_Class_Unknown -> containers Q -> no_nul nm ->
  (forall xs, Q !! ObjHead c = Some (ObjNode <$> xs) -> stored_names k nms xs) ->
  wp (rt_object_find (Some nm) c) (fun r k' => exists xs, Q !! ObjHead c = Some (ObjNode <$> xs) /\
    first_named nms nm xs r /\ rt_scheduler_lock_nest k' = rt_scheduler_lock_nest k /\
    threads k' = threads k /\ objects k' = objects k) k.
Proof.
  intros Hk Hr0 Hn Hc Hco Hnm Hst. destruct (object_list _ _ _ c Hk (Hco c Hc)) as [xs Hxs].
  set (k1 := set_rt_scheduler_lock_nest (s16 (rt_scheduler_lock_nest k + 1)) k).
  destruct (find_name_first k1 nms nm xs (Hst xs Hxs) Hnm) as (r & Hr & Hf).
  unfold rt_object_find. rewrite Z.gtb_ltb, (proj2 (Z.ltb_ge _ _)) by lia.
  unfold rt_enter_critical, rt_exit_critical, find_object, rt_object_get_information. wp_pure.
  rewrite (proj2 (Z.leb_le 0 c)), (proj2 (Z.ltb_lt c _)) by lia. cbn [andb].
  eapply wp_of_option; [done|]. wp_step. eapply wp_of_option; [by eapply Rep_nodes; [apply Hk|]|]. wp_step. eapply wp_of_option; [exact Hr|].
  clear k1 Hr. wp_pure. simpl. unfold s16.
  assert ((rt_scheduler_lock_nest k + 1 + 2 ^ 15) mod 2 ^ 16 - 2 ^ 15 = rt_scheduler_lock_nest k + 1) as ->
    by (rewrite Z.mod_small by lia; lia).
  assert ((rt_scheduler_lock_nest k + 1 - 1 + 2 ^ 15) mod 2 ^ 16 - 2 ^ 15 = rt_scheduler_lock_nest k) as ->
    by (rewrite Z.mod_small by lia; lia).
  destruct (Z.leb_spec (rt_scheduler_lock_nest k) 0) as [Hle|Hgt].
  - assert (rt_scheduler_lock_nest k = 0) as E0 by lia. wp_pure.
    wp_use (rt_schedule_spec act _ Q t0); [exact Hk|done|].
    intros [] k' (_ & _ & Eth & Ee & Et & _). wp_pure. exists xs. rewrite E0.
    injection Ee as _ _ _ _ _ En _ _. injection Et as Eo _ _. simpl in *. split_and!; try done.
  - wp_pure. by exists xs.
Qed.

(** The check of the class lets RT_Object_Class_Unknown itself pass, and the
    search then indexes the array of containers past its end. *)
Theorem rt_object_find_unknown_class k nm :
  rt_object_find (Some nm) RT_Object_Class_Unknown k = Fail BadPointer.
Proof. done. Qed.

End specs.
