(* ===== verification/Timer.v ===== *)
(** Timers (src/timer.c).

    RT_TIMER_SKIP_LIST_LEVEL is 1, so the skip list is the one list
    [TimerHead], and the loop over the upper levels at the end of rt_timer_start
    does not run.  RT_USING_TIMER_SOFT is off.  The function a timer calls is a
    value of [timeout_fn]; rt_timer_check takes what calling it does as the
    parameter [call]. *)

From Stdlib Require Import Sorted.
From S2P Require Import Prelude RtList KState KInv Sched Object.

Open Scope Z_scope.

(** * Operations *)

(** rt_tick_get (clock.c) *)
Definition rt_tick_get (k : kernel) : Z := rt_tick k.

Definition flag_activated (f : Z) : bool := negb (Z.land f RT_TIMER_FLAG_ACTIVATED =? 0).
Definition flag_periodic (f : Z) : bool := negb (Z.land f RT_TIMER_FLAG_PERIODIC =? 0).
Definition clear_activated (f : Z) : Z := u8 (Z.land f (Z.lnot RT_TIMER_FLAG_ACTIVATED)).

Definition upd_flag (tm : timer_id) (f : Z -> Z) : K unit :=
  upd_object (OTimer tm) (fun o => set_flag (f (flag o)) o).

(** _rt_timer_init *)
Definition _rt_timer_init (tm : timer_id) (timeout : timeout_fn) (time fl : Z) : K unit :=
  upd_flag tm (fun _ => fl) ;!
  upd_flag tm clear_activated ;!
  upd_timer tm (set_timeout_func timeout) ;!
  upd_timer tm (set_timeout_tick 0) ;!
  upd_timer tm (set_timer_init_tick time) ;!
  list_init (TimerRow tm).

(** [rt_list_entry(n, struct rt_timer, row[RT_TIMER_SKIP_LIST_LEVEL - 1])] *)
Definition timer_entry (n : node) : option timer_id :=
  match n with TimerRow tm => Some tm | _ => None end.

(** rt_timer_list_next_timeout *)
Definition rt_timer_list_next_timeout : K Z :=
  let! k := get in
  if list_isempty TimerHead k then ret RT_TICK_MAX
  else
    let! n := of_option NullDeref (get_next (lists k) TimerHead) in
    let! tm := of_option BadPointer (timer_entry n) in
    ret (timeout_tick (timers k tm)).

(** _rt_timer_remove *)
Definition _rt_timer_remove (tm : timer_id) : K unit := list_remove (TimerRow tm).

(** rt_timer_init *)
Definition rt_timer_init (tm : timer_id) (nm : list Z) (timeout : timeout_fn) (time fl : Z) : K unit :=
  rt_object_init (OTimer tm) nm ;!
  _rt_timer_init tm timeout time fl.

(** rt_timer_detach *)
Definition rt_timer_detach (tm : timer_id) : K Z :=
  _rt_timer_remove tm ;!
  rt_object_detach (OTimer tm) ;!
  ret (- RT_EOK).

(** The search of rt_timer_start: [row_head] advances while the next timer ends
    no later than [tick].  A list is no longer than the store has cells, which
    bounds the loop. *)
Fixpoint timer_search (fuel : nat) (row_head : node) (tick : Z) (k : kernel) : outcome kernel node :=
  match fuel with
  | O => Fail OutOfFuel
  | S fuel =>
      if decide (Some row_head = get_prev (lists k) TimerHead) then Ret row_head k
      else
        match get_next (lists k) row_head with
        | None => Fail NullDeref
        | Some p =>
            match timer_entry p with
            | None => Fail BadPointer
            | Some t =>
                if u32 (timeout_tick (timers k t) - tick) =? 0 then timer_search fuel p tick k
                else if u32 (timeout_tick (timers k t) - tick) <? RT_TICK_MAX / 2 then Ret row_head k
                else timer_search fuel p tick k
            end
        end
  end.

(** rt_timer_start *)
Definition rt_timer_start (tm : timer_id) : K Z :=
  let! k := get in
  if flag_activated (flag (objects k (OTimer tm))) then ret (- RT_ERROR)
  else
    upd_timer tm (set_timeout_tick (u32 (rt_tick_get k + timer_init_tick (timers k tm)))) ;!
    let! k := get in
    let! row_head := timer_search (S (size (lists k))) TimerHead (timeout_tick (timers k tm)) in
    modify (fun k => set_random_nr (u32 (random_nr k + 1)) k) ;!
    list_insert_after row_head (TimerRow tm) ;!
    upd_flag tm (fun f => Z.lor f RT_TIMER_FLAG_ACTIVATED) ;!
    ret (- RT_EOK).

(** rt_timer_stop *)
Definition rt_timer_stop (tm : timer_id) : K Z :=
  let! k := get in
  if negb (flag_activated (flag (objects k (OTimer tm)))) then ret (- RT_ERROR)
  else
    _rt_timer_remove tm ;!
    upd_flag tm clear_activated ;!
    ret RT_EOK.

(** rt_timer_control; GET_TIME stores through its argument, here its result. *)
Inductive timer_cmd : Type :=
| RT_TIMER_CTRL_SET_TIME (arg : Z)
| RT_TIMER_CTRL_GET_TIME
| RT_TIMER_CTRL_SET_ONESHOT
| RT_TIMER_CTRL_SET_PERIODIC
| RT_TIMER_CTRL_OTHER (cmd : Z).

Definition rt_timer_control (tm : timer_id) (cmd : timer_cmd) : K (Z * option Z) :=
  let! k := get in
  match cmd with
  | RT_TIMER_CTRL_GET_TIME => ret (RT_EOK, Some (timer_init_tick (timers k tm)))
  | RT_TIMER_CTRL_SET_TIME arg => upd_timer tm (set_timer_init_tick arg) ;! ret (RT_EOK, None)
  | RT_TIMER_CTRL_SET_ONESHOT =>
      upd_flag tm (fun f => u8 (Z.land f (Z.lnot RT_TIMER_FLAG_PERIODIC))) ;! ret (RT_EOK, None)
  | RT_TIMER_CTRL_SET_PERIODIC =>
      upd_flag tm (fun f => Z.lor f RT_TIMER_FLAG_PERIODIC) ;! ret (RT_EOK, None)
  | RT_TIMER_CTRL_OTHER _ => ret (RT_EOK, None)
  end.

(** rt_timer_check.  Each round of the loop reads the tick again after the call;
    [fuel] bounds the number of timers fired by one check. *)
Fixpoint rt_timer_check_loop (call : timeout_fn -> K unit) (fuel : nat) (current_tick : Z) : K unit :=
  match fuel with
  | O => fail OutOfFuel
  | S fuel =>
      let! k := get in
      if list_isempty TimerHead k then ret tt
      else
        let! n := of_option NullDeref (get_next (lists k) TimerHead) in
        let! t := of_option BadPointer (timer_entry n) in
        if u32 (current_tick - timeout_tick (timers k t)) <? RT_TICK_MAX / 2 then
          _rt_timer_remove t ;!
          call (timeout_func (timers k t)) ;!
          let! k := get in
          let current_tick := rt_tick_get k in
          let f := flag (objects k (OTimer t)) in
          (if flag_periodic f && flag_activated f then
            upd_flag t clear_activated ;! rt_timer_start t
          else
            upd_flag t clear_activated ;! ret 0) ;!
          rt_timer_check_loop call fuel current_tick
        else ret tt
  end.

Definition rt_timer_check (call : timeout_fn -> K unit) (fuel : nat) : K unit :=
  let! k := get in
  rt_timer_check_loop call fuel (rt_tick_get k).

(** rt_timer_next_timeout_tick *)
Definition rt_timer_next_timeout_tick : K Z := rt_timer_list_next_timeout.

(** rt_system_timer_init *)
Definition rt_system_timer_init : K unit := list_init TimerHead.

(** * Flags *)

Lemma flag_activated_bit f : flag_activated f = Z.testbit f 0.
Proof.
  unfold flag_activated, RT_TIMER_FLAG_ACTIVATED. rewrite Z.bit0_odd.
  change 1 with (Z.ones 1). rewrite Z.land_ones, Zmod_odd by lia. by destruct (Z.odd f).
Qed.

Lemma clear_activated_bit f : Z.testbit (clear_activated f) 0 = false.
Proof.
  unfold clear_activated, u8. rewrite Z.mod_pow2_bits_low by lia.
  rewrite Z.land_spec. by rewrite andb_false_r.
Qed.

Lemma set_activated_bit f : Z.testbit (Z.lor f RT_TIMER_FLAG_ACTIVATED) 0 = true.
Proof. rewrite Z.lor_spec. by rewrite orb_true_r. Qed.

Lemma activated_upd_flag k tm f :
  activated (set_objects (<[OTimer tm := set_flag f (objects k (OTimer tm))]> (objects k)) k) =
  <[tm := Z.testbit f 0]> (activated k).
Proof.
  apply functional_extensionality. intros tm'. unfold activated. simpl.
  rewrite !fn_insert_case. repeat case_decide; naive_solver.
Qed.

Lemma flag_activated_is k tm : flag_activated (flag (objects k (OTimer tm))) = activated k tm.
Proof. apply flag_activated_bit. Qed.

(** * Specifications *)

Section specs.
Implicit Types (k : kernel) (Q : gmap node (list node)) (act : timer_id -> bool).

(** The timer of a node ends strictly later than [tick], on the half circle
    ahead of it. *)
Definition later k (tick : Z) (n : node) : Prop :=
  match n with
  | TimerRow t => let d := u32 (timeout_tick (timers k t) - tick) in d <> 0 /\ d < RT_TICK_MAX / 2
  | _ => False
  end.

#[export] Instance later_dec k tick n : Decision (later k tick n).
Proof. destruct n; simpl; apply _. Defined.

(** Where a timer that ends at [tick] goes: after everything up to the first
    timer that ends later. *)
Definition slot k tick (ys zs : list node) : Prop :=
  Forall (fun n => ~ later k tick n) ys /\
  match zs with [] => True | z :: _ => later k tick z end.

Lemma timer_search_spec k Q tick fuel dn rest rh :
  Rep (lists k) Q -> Q !! TimerHead = Some (dn ++ rest) ->
  (forall n, n ∈ rest -> exists tm, n = TimerRow tm) ->
  last (TimerHead :: dn) = Some rh -> (length rest < fuel)%nat ->
  exists ys zs rh', rest = ys ++ zs /\ timer_search fuel rh tick k = Ret rh' k /\
    last (TimerHead :: dn ++ ys) = Some rh' /\ slot k tick ys zs.
Proof.
  intros Hrep. revert dn rest rh. induction fuel as [|fuel IH]; intros dn rest rh Hq Hty Hl Hf; [lia|].
  simpl. rewrite (Rep_prev _ _ _ _ Hrep Hq). destruct rest as [|n rest].
  { rewrite app_nil_r, decide_True by done. exists [], [], rh. split_and!; [done|done|by rewrite app_nil_r|split; [by constructor|done]]. }
  rewrite decide_False; [|].
  2: { rewrite <- Hl, app_comm_cons, last_app_cons. intros E.
       assert (NoDup ((TimerHead :: dn) ++ n :: rest)) as Hnd.
       { by apply (rep_ring _ _ Hrep) in Hq as [? _]. }
       apply NoDup_app in Hnd as (_ & Hnd & _).
       destruct (last (n :: rest)) as [m|] eqn:Em; [|by apply last_None in Em].
       apply (Hnd m); [apply last_Some_elem_of; congruence|by apply last_Some_elem_of]. }
  rewrite (Rep_next_at _ _ _ dn (n :: rest) rh Hrep Hq Hl). simpl.
  destruct (Hty n) as [t ->]; [set_solver|]. simpl.
  assert (last (TimerHead :: dn ++ [TimerRow t]) = Some (TimerRow t)) as Hl'
    by (by rewrite app_comm_cons, last_snoc).
  destruct (decide (later k tick (TimerRow t))) as [Hlt|Hnl].
  - exists [], (TimerRow t :: rest), rh. destruct Hlt as [H0 H1].
    rewrite (proj2 (Z.eqb_neq _ _)), (proj2 (Z.ltb_lt _ _)) by done.
    split_and!; [done|done|by rewrite app_nil_r|split; [by constructor|done]].
  - destruct (IH (dn ++ [TimerRow t]) rest (TimerRow t)) as (ys & zs & rh' & -> & Hs & Hl2 & Hy & Hz);
      [by rewrite <- app_assoc|set_solver|done|simpl in Hf; lia|].
    exists (TimerRow t :: ys), zs, rh'. rewrite <- app_assoc in Hl2.
    split_and!; [done| |done|split; [by apply Forall_cons|done]].
    rewrite Hs. simpl in Hnl. destruct (Z.eqb_spec (u32 (timeout_tick (timers k t) - tick)) 0); [done|].
    destruct (Z.ltb_spec (u32 (timeout_tick (timers k t) - tick)) (RT_TICK_MAX / 2)); [|done].
    by destruct Hnl.
Qed.

(** ** Starting and stopping *)

Definition started (T : Z) tm k (k' : kernel) : Prop :=
  threads k' = threads k /\ env k' = env k /\ cpu_part k' = cpu_part k /\
  timers k' = <[tm := set_timeout_tick T (timers k tm)]> (timers k) /\
  objects k' = <[OTimer tm := set_flag (Z.lor (flag (objects k (OTimer tm))) RT_TIMER_FLAG_ACTIVATED)
                                (objects k (OTimer tm))]> (objects k).

Definition stopped tm k (k' : kernel) : Prop :=
  threads k' = threads k /\ env k' = env k /\ cpu_part k' = cpu_part k /\
  timers k' = timers k /\ random_nr k' = random_nr k /\
  objects k' = <[OTimer tm := set_flag (clear_activated (flag (objects k (OTimer tm))))
                                (objects k (OTimer tm))]> (objects k).

Lemma activated_objects k k' tm f :
  objects k' = <[OTimer tm := set_flag f (objects k (OTimer tm))]> (objects k) ->
  activated k' = <[tm := Z.testbit f 0]> (activated k).
Proof.
  intros E. rewrite <- activated_upd_flag. unfold activated. simpl.
  apply functional_extensionality. intros x. by rewrite E.
Qed.

Lemma started_activated T tm k k' : started T tm k k' -> activated k' = <[tm := true]> (activated k).
Proof. intros (_ & _ & _ & _ & E). apply activated_objects in E. by rewrite E, set_activated_bit. Qed.
Lemma stopped_activated tm k k' : stopped tm k k' -> activated k' = <[tm := false]> (activated k).
Proof. intros (_ & _ & _ & _ & _ & E). apply activated_objects in E. by rewrite E, clear_activated_bit. Qed.

Lemma timer_fn_tick k tm T :
  timer_fn (set_timers (<[tm := set_timeout_tick T (timers k tm)]> (timers k)) k) = timer_fn k.
Proof.
  apply functional_extensionality. intros x. unfold timer_fn. simpl.
  rewrite fn_insert_case. case_decide; by subst.
Qed.

Lemma rt_timer_start_active k tm :
  activated k tm = true -> rt_timer_start tm k = Ret (- RT_ERROR) k.
Proof.
  intros Ha. unfold rt_timer_start, bind, get. by rewrite flag_activated_is, Ha.
Qed.

Lemma rt_timer_start_spec act k Q tm :
  KIx act k Q -> activated k tm = false -> is_Some (Q !! TimerRow tm) ->
  (forall t, tm = ThreadTimer t -> suspendedp (threads k t)) ->
  let T := u32 (rt_tick k + timer_init_tick (timers k tm)) in
  wp (rt_timer_start tm) (fun r k' => r = RT_EOK /\ started T tm k k' /\ exists ys zs,
    Q !! TimerHead = Some (ys ++ zs) /\ slot k' T ys zs /\
    KIx (<[tm := true]> act) k' (<[TimerHead := ys ++ TimerRow tm :: zs]> (delete (TimerRow tm) Q))) k.
Proof.
  intros Hk Ha Hrow Hsu T. destruct (ki_timer_head _ _ _ _ _ _ Hk) as [xs Hxs].
  unfold rt_timer_start. wp_pure. rewrite flag_activated_is, Ha.
  unfold upd_timer. wp_pure. simpl. rewrite fn_lookup_insert. simpl. fold T.
  set (k1 := set_timers _ k).
  destruct (timer_search_spec k1 Q T (S (size (lists k))) [] xs TimerHead)
    as (ys & zs & rh & -> & Hs & Hl & Hslot); [apply Hk|done| |done| |].
  { intros n Hn. assert (node_ok TimerHead n) as Hok.
    { apply (ki_typed _ _ _ _ _ _ Hk). by exists xs. }
    destruct n; simpl in Hok; try done; [naive_solver|eauto]. }
  { pose proof (Rep_length _ _ _ _ (ki_rep _ _ _ _ _ _ Hk) Hxs). lia. }
  destruct (Rep_insert_at (lists k) Q TimerHead ys zs rh (TimerRow tm))
    as (h & Hh & Hrep); [apply Hk|done|done| |done|].
  { eapply ki_detached; [done|apply not_node_ok_TimerRow|done]. }
  eapply wp_intro; [exact Hs|]. wp_pure. eapply wp_list_op; [done|].
  unfold upd_flag, upd_object. wp_pure. split; [done|]. split; [done|].
  exists ys, zs. split_and!; [done|done|].
  unfold KIx in *. simpl. rewrite <- (timer_fn_tick k tm T) in Hk.
  change (timer_fn _) with (timer_fn k1). by eapply kinv_timer_on.
Qed.

Lemma rt_timer_stop_inactive k tm :
  activated k tm = false -> rt_timer_stop tm k = Ret (- RT_ERROR) k.
Proof.
  intros Ha. unfold rt_timer_stop, bind, get. by rewrite flag_activated_is, Ha.
Qed.

Lemma rt_timer_stop_spec act k Q tm ys zs :
  KIx act k Q -> activated k tm = true -> Q !! TimerHead = Some (ys ++ TimerRow tm :: zs) ->
  wp (rt_timer_stop tm) (fun r k' => r = RT_EOK /\ stopped tm k k' /\
    KIx (<[tm := false]> act) k' (<[TimerRow tm := []]> (<[TimerHead := ys ++ zs]> Q))) k.
Proof.
  intros Hk Ha Hl. destruct (kinv_timer_off _ _ _ _ _ _ _ _ _ Hk Hl) as (h & Hh & Hk').
  unfold rt_timer_stop. wp_pure. rewrite flag_activated_is, Ha. simpl.
  wp_step. eapply wp_list_op; [done|]. unfold upd_flag, upd_object. wp_pure. done.
Qed.

(** ** Order of the timer list

    Ticks are compared on a circle: with every timer within half a circle
    [RT_TICK_MAX / 2] of a base tick, the list is sorted by the distance of the
    timers from that base, and rt_timer_start keeps it sorted. *)

Definition distance k (base : Z) (n : node) : Z :=
  match n with TimerRow t => u32 (timeout_tick (timers k t) - base) | _ => 0 end.

Definition timers_sorted k Q (base : Z) : Prop :=
  exists xs, Q !! TimerHead = Some xs /\
    Forall (fun n => distance k base n < RT_TICK_MAX / 2) xs /\
    StronglySorted Z.le (distance k base <$> xs).

Lemma later_distance k base tick t :
  distance k base (TimerRow t) < RT_TICK_MAX / 2 -> u32 (tick - base) < RT_TICK_MAX / 2 ->
  later k tick (TimerRow t) <-> u32 (tick - base) < distance k base (TimerRow t).
Proof.
  unfold later, distance. change (RT_TICK_MAX / 2) with 2147483647. unfold u32. intros H1 H2.
  replace (timeout_tick (timers k t) - tick)
    with ((timeout_tick (timers k t) - base) - (tick - base)) by lia.
  rewrite Zminus_mod. pose proof (Z.mod_pos_bound (timeout_tick (timers k t) - base) (2 ^ 32)).
  pose proof (Z.mod_pos_bound (tick - base) (2 ^ 32)).
  set (a := (timeout_tick (timers k t) - base) mod 2 ^ 32) in *. set (b := (tick - base) mod 2 ^ 32) in *.
  destruct (Z.lt_ge_cases b a).
  - rewrite Z.mod_small by lia. lia.
  - destruct (decide (a = b)) as [->|]; [rewrite Z.sub_diag, Z.mod_0_l by lia; lia|].
    rewrite <- (Z.mod_add _ 1), Z.mod_small by lia. lia.
Qed.

Lemma sorted_insert_at (ys zs : list Z) d :
  StronglySorted Z.le (ys ++ zs) -> Forall (fun y => y <= d) ys ->
  (forall z zs', zs = z :: zs' -> d <= z) -> StronglySorted Z.le (ys ++ d :: zs).
Proof.
  induction ys as [|y ys IH]; simpl.
  - intros Hs _ Hd. constructor; [done|]. destruct zs as [|z zs]; [done|].
    pose proof (Hd z zs eq_refl). apply StronglySorted_inv in Hs as [_ Hz].
    constructor; [done|]. eapply Forall_impl; [exact Hz|]. simpl. lia.
  - intros [Hs Hy]%StronglySorted_inv [Hyd Hys]%Forall_cons Hd. constructor; [by apply IH|].
    apply Forall_app in Hy as [? ?]. apply Forall_app. split; [done|]. by apply Forall_cons.
Qed.

Lemma sorted_remove_at (ys zs : list Z) d :
  StronglySorted Z.le (ys ++ d :: zs) -> StronglySorted Z.le (ys ++ zs).
Proof.
  induction ys as [|y ys IH]; simpl; [by intros [? _]%StronglySorted_inv|].
  intros [Hs Hy]%StronglySorted_inv. constructor; [by apply IH|].
  apply Forall_app in Hy as [? [_ ?]%Forall_cons]. by apply Forall_app.
Qed.

Lemma distance_other T tm k k' base n :
  started T tm k k' -> n <> TimerRow tm -> distance k' base n = distance k base n.
Proof.
  intros (_ & _ & _ & E & _) Hn. destruct n as [| | | | | | | |t]; try done. simpl.
  rewrite E, fn_lookup_insert_ne; [done|congruence].
Qed.

(** Keeping the list sorted, for any base within half a circle of all timers. *)
Lemma rt_timer_start_sorted k k' Q T tm base ys zs :
  timers_sorted k Q base -> u32 (T - base) < RT_TICK_MAX / 2 -> started T tm k k' ->
  Q !! TimerHead = Some (ys ++ zs) -> TimerRow tm ∉ ys ++ zs ->
  (forall n, n ∈ ys ++ zs -> exists t, n = TimerRow t) -> slot k' T ys zs ->
  timers_sorted k' (<[TimerHead := ys ++ TimerRow tm :: zs]> (delete (TimerRow tm) Q)) base.
Proof.
  intros (xs & Hxs & Hd & Hs) HT Hst Hq Hni Hty [Hys Hzs]. simplify_eq.
  assert (forall n, n ∈ ys ++ zs -> distance k' base n = distance k base n) as Heq.
  { intros n Hn. eapply distance_other; [done|]. by intros ->. }
  assert (distance k' base (TimerRow tm) = u32 (T - base)) as Hdt.
  { destruct Hst as (_ & _ & _ & E & _). simpl. by rewrite E, fn_lookup_insert. }
  rewrite Forall_forall in Hd, Hys.
  exists (ys ++ TimerRow tm :: zs). split; [by simplify_map_eq|]. split.
  - apply Forall_forall. intros n Hn. assert (n = TimerRow tm \/ n ∈ ys ++ zs) as [->|Hn'] by set_solver;
      [lia|]. rewrite Heq by done. by apply Hd.
  - rewrite fmap_app, fmap_cons, Hdt. rewrite fmap_app in Hs.
    apply sorted_insert_at.
    + by rewrite !(list_fmap_ext_in (distance k' base) (distance k base)) by (intros; apply Heq; set_solver).
    + apply Forall_fmap, Forall_forall. intros n Hn. simpl.
      destruct (Hty n) as [t ->]; [set_solver|]. specialize (Hys _ Hn). apply Z.le_ngt. intros Hlt.
      apply Hys, (later_distance k' base); [|done|done]. rewrite Heq by set_solver. apply Hd. set_solver.
    + intros z zs' Ez. destruct zs as [|n zs]; [done|]. injection Ez as <- _.
      destruct (Hty n) as [t ->]; [set_solver|].
      apply (later_distance k' base) in Hzs; [lia| |done]. rewrite Heq by set_solver. apply Hd. set_solver.
Qed.

(** Leaving the list keeps it sorted. *)
Lemma timers_sorted_remove k k' Q base ys zs n :
  (forall m, m ∈ ys ++ zs -> distance k' base m = distance k base m) ->
  Q !! TimerHead = Some (ys ++ n :: zs) -> timers_sorted k Q base -> n <> TimerHead ->
  timers_sorted k' (<[n := []]> (<[TimerHead := ys ++ zs]> Q)) base.
Proof.
  intros Heq Hq (xs & Hxs & Hd & Hs) Hn. simplify_eq. exists (ys ++ zs).
  split; [by simplify_map_eq|]. split.
  - rewrite Forall_forall in *. intros m Hm. rewrite Heq by done. apply Hd. set_solver.
  - rewrite (list_fmap_ext_in (distance k' base) (distance k base)) by done.
    rewrite fmap_app in *. simpl in Hs. by eapply sorted_remove_at.
Qed.
(** Starting a timer that ends within half a circle of the base puts it behind
    every timer that ends no later and keeps the list sorted. *)
Theorem rt_timer_start_keeps_order act k Q tm base :
  KIx act k Q -> activated k tm = false -> is_Some (Q !! TimerRow tm) ->
  (forall t, tm = ThreadTimer t -> suspendedp (threads k t)) ->
  timers_sorted k Q base ->
  let T := u32 (rt_tick k + timer_init_tick (timers k tm)) in
  u32 (T - base) < RT_TICK_MAX / 2 ->
  wp (rt_timer_start tm) (fun r k' => r = - RT_EOK /\ exists Q' ys zs,
    KIx (<[tm := true]> act) k' Q' /\ timers_sorted k' Q' base /\
    Q !! TimerHead = Some (ys ++ zs) /\ Q' !! TimerHead = Some (ys ++ TimerRow tm :: zs) /\
    timeout_tick (timers k' tm) = T /\ activated k' tm = true /\
    (forall n, n ∈ ys -> distance k' base n <= u32 (T - base)) /\
    (forall n, n ∈ zs -> u32 (T - base) <= distance k' base n)) k.
Proof.
  intros Hk Ha Hrow Hsu Hs T HT. wp_use (rt_timer_start_spec act k Q tm); [done|done|done|done|].
  intros r k' (-> & Hst & ys & zs & Hq & Hslot & Hk'). fold T in Hst, Hslot. split; [done|].
  assert (forall n, n ∈ ys ++ zs -> exists t, n = TimerRow t) as Hty.
  { intros n Hn. pose proof (ki_typed _ _ _ _ _ _ Hk TimerHead n ltac:(by exists (ys ++ zs))) as Hok.
    destruct n; simpl in Hok; try done; [naive_solver|eauto]. }
  assert (TimerRow tm ∉ ys ++ zs) as Hni.
  { eapply ki_detached; [exact Hk|apply not_node_ok_TimerRow|done|exact Hq]. }
  pose proof (rt_timer_start_sorted k k' Q T tm base ys zs Hs HT Hst Hq Hni Hty Hslot) as Hs'.
  eexists _, ys, zs. split_and!; [exact Hk'|exact Hs'|done|by rewrite lookup_insert_eq| | | |].
  - destruct Hst as (_ & _ & _ & -> & _). by rewrite fn_lookup_insert.
  - rewrite (started_activated _ _ _ _ Hst). apply fn_lookup_insert.
  - destruct Hs' as (xs & Hxs & Hd & _). rewrite lookup_insert_eq in Hxs. injection Hxs as <-.
    rewrite Forall_forall in Hd. destruct Hslot as [Hys _]. rewrite Forall_forall in Hys. intros n Hn.
    destruct (Hty n) as [t ->]; [set_solver|]. apply Z.le_ngt. intros Hlt.
    apply (Hys _ Hn), (later_distance k' base); [apply Hd; set_solver|done|done].
  - destruct Hs' as (xs & Hxs & Hd & Hsrt). rewrite lookup_insert_eq in Hxs. injection Hxs as <-.
    assert (distance k' base (TimerRow tm) = u32 (T - base)) as Et.
    { destruct Hst as (_ & _ & _ & E & _). simpl. by rewrite E, fn_lookup_insert. }
    intros n Hn. rewrite <- Et. rewrite fmap_app, fmap_cons in Hsrt. clear -Hsrt Hn.
    induction ys as [|y ys IH]; [|apply IH; by apply StronglySorted_inv in Hsrt as [? _]].
    apply StronglySorted_inv in Hsrt as [_ Hf]. rewrite Forall_fmap, Forall_forall in Hf. by apply Hf.
Qed.
End specs.
