(* ===== verification/Thread.v ===== *)
(** Threads (src/thread.c).

    A function that lets the caller run on another thread's time is split where
    it calls the scheduler for the calling thread: what it does before is one
    definition, what it does when the thread runs again is another, named
    [.._wakeup].  The contents of the stack (rt_memset, the register frame of
    rt_hw_stack_init) are not modelled, the stack pointer is. *)

From S2P Require Import Prelude RtList KState Ffs KInv Sched Object Timer.

Open Scope Z_scope.

(** * Operations *)

(** [sizeof(struct stack_frame)] of libcpu/arm/cortex-m4/cpuport.c with the
    FPU flag word: 17 registers. *)
Definition STACK_FRAME_SIZE : Z := 68.

(** rt_hw_stack_init: the stack pointer it returns. *)
Definition rt_hw_stack_init (addr : Z) : Z :=
  u32 (RT_ALIGN_DOWN (u32 (addr + 4)) 8 - STACK_FRAME_SIZE).

(** rt_thread_self *)
Definition rt_thread_self (k : kernel) : option nat := rt_current_thread k.

(** _rt_thread_init *)
Definition _rt_thread_init (t : nat) (entry_ parameter_ stack_start stack_size_ priority tick : Z) : K Z :=
  list_init (TList t) ;!
  upd_thread t (set_entry entry_) ;!
  upd_thread t (set_parameter parameter_) ;!
  upd_thread t (set_stack_addr stack_start) ;!
  upd_thread t (set_stack_size (u16 stack_size_)) ;!
  upd_thread t (fun th => set_sp (rt_hw_stack_init (u32 (stack_addr th + stack_size th - 4))) th) ;!
  upd_thread t (set_init_priority priority) ;!
  upd_thread t (set_current_priority priority) ;!
  upd_thread t (set_init_tick tick) ;!
  upd_thread t (set_remaining_tick tick) ;!
  upd_thread t (set_error RT_EOK) ;!
  upd_thread t (set_stat RT_THREAD_INIT) ;!
  upd_thread t (set_cleanup None) ;!
  upd_thread t (set_user_data 0) ;!
  let! k := get in
  rt_timer_init (ThreadTimer t) (name (objects k (OThread t))) (FN_rt_thread_timeout t)
    0 RT_TIMER_FLAG_ONE_SHOT ;!
  ret RT_EOK.

(** rt_thread_init *)
Definition rt_thread_init (t : nat) (nm : list Z)
    (entry_ parameter_ stack_start stack_size_ priority tick : Z) : K Z :=
  rt_object_init (OThread t) nm ;!
  _rt_thread_init t entry_ parameter_ stack_start stack_size_ priority tick.

(** rt_thread_suspend *)
Definition rt_thread_suspend (t : nat) : K Z :=
  let! k := get in
  if negb (stat (threads k t) =? RT_THREAD_READY) then ret (- RT_ERROR)
  else
    upd_thread t (set_stat RT_THREAD_SUSPEND) ;!
    rt_schedule_remove_thread t ;!
    ret RT_EOK.

(** rt_thread_resume *)
Definition rt_thread_resume (t : nat) : K Z :=
  let! k := get in
  if negb (stat (threads k t) =? RT_THREAD_SUSPEND) then ret (- RT_ERROR)
  else
    list_remove (TList t) ;!
    rt_timer_stop (ThreadTimer t) ;!
    rt_schedule_insert_thread t ;!
    ret RT_EOK.

(** rt_thread_timeout *)
Definition rt_thread_timeout (t : nat) : K unit :=
  upd_thread t (set_error (- RT_ETIMEOUT)) ;!
  list_remove (TList t) ;!
  rt_schedule_insert_thread t ;!
  rt_schedule.

(** rt_thread_startup *)
Definition rt_thread_startup (t : nat) : K Z :=
  upd_thread t (fun th => set_current_priority (init_priority th) th) ;!
  upd_thread t (fun th => set_number_mask (u32 (Z.shiftl 1 (current_priority th))) th) ;!
  upd_thread t (set_stat RT_THREAD_SUSPEND) ;!
  rt_thread_resume t ;!
  let! k := get in
  match rt_thread_self k with
  | Some _ => rt_schedule
  | None => ret tt
  end ;!
  ret RT_EOK.

(** rt_thread_exit, called when the entry function of the current thread returns. *)
Definition rt_thread_exit : K unit :=
  let! k := get in
  let! t := of_option NullDeref (rt_current_thread k) in
  rt_schedule_remove_thread t ;!
  upd_thread t (set_stat RT_THREAD_CLOSE) ;!
  rt_timer_detach (ThreadTimer t) ;!
  let! k := get in
  (if rt_object_is_systemobject (OThread t) k && bool_decide (cleanup (threads k t) = None)
   then rt_object_detach (OThread t)
   else list_insert_after DefunctHead (TList t)) ;!
  rt_schedule.

(** rt_thread_detach *)
Definition rt_thread_detach (t : nat) : K Z :=
  rt_schedule_remove_thread t ;!
  rt_timer_detach (ThreadTimer t) ;!
  upd_thread t (set_stat RT_THREAD_CLOSE) ;!
  rt_object_detach (OThread t) ;!
  let! k := get in
  (if bool_decide (cleanup (threads k t) = None) then ret tt
   else list_insert_after DefunctHead (TList t)) ;!
  ret RT_EOK.

(** rt_thread_delete *)
Definition rt_thread_delete (t : nat) : K Z :=
  rt_schedule_remove_thread t ;!
  rt_timer_detach (ThreadTimer t) ;!
  upd_thread t (set_stat RT_THREAD_CLOSE) ;!
  list_insert_after DefunctHead (TList t) ;!
  ret RT_EOK.

(** rt_thread_yield *)
Definition rt_thread_yield : K Z :=
  let! k := get in
  let! t := of_option NullDeref (rt_current_thread k) in
  if (stat (threads k t) =? RT_THREAD_READY) &&
     negb (bool_decide (get_next (lists k) (TList t) = get_prev (lists k) (TList t)))
  then
    list_remove (TList t) ;!
    list_insert_before (ReadyHead (current_priority (threads k t))) (TList t) ;!
    rt_schedule ;!
    ret RT_EOK
  else ret RT_EOK.

(** rt_thread_sleep, up to the call of rt_schedule and after it. *)
Definition rt_thread_sleep (tick : Z) : K unit :=
  let! k := get in
  let! t := of_option NullDeref (rt_current_thread k) in
  rt_thread_suspend t ;!
  rt_timer_control (ThreadTimer t) (RT_TIMER_CTRL_SET_TIME tick) ;!
  rt_timer_start (ThreadTimer t) ;!
  rt_schedule.

Definition rt_thread_sleep_wakeup (t : nat) : K Z :=
  let! k := get in
  (if error (threads k t) =? - RT_ETIMEOUT then upd_thread t (set_error RT_EOK) else ret tt) ;!
  ret RT_EOK.

(** rt_thread_delay *)
Definition rt_thread_delay (tick : Z) : K unit := rt_thread_sleep tick.

(** rt_thread_control *)
Inductive thread_cmd : Type :=
| RT_THREAD_CTRL_STARTUP
| RT_THREAD_CTRL_CLOSE
| RT_THREAD_CTRL_CHANGE_PRIORITY (arg : Z)
| RT_THREAD_CTRL_OTHER (cmd : Z).

Definition rt_thread_control (t : nat) (cmd : thread_cmd) : K Z :=
  match cmd with
  | RT_THREAD_CTRL_CHANGE_PRIORITY arg =>
      let! k := get in
      (if stat (threads k t) =? RT_THREAD_READY then
        rt_schedule_remove_thread t ;!
        upd_thread t (set_current_priority arg) ;!
        upd_thread t (fun th => set_number_mask (u32 (Z.shiftl 1 (current_priority th))) th) ;!
        rt_schedule_insert_thread t
      else
        upd_thread t (set_current_priority arg) ;!
        upd_thread t (fun th => set_number_mask (u32 (Z.shiftl 1 (current_priority th))) th)) ;!
      ret RT_EOK
  | RT_THREAD_CTRL_STARTUP => rt_thread_startup t
  | RT_THREAD_CTRL_CLOSE => rt_thread_delete t
  | RT_THREAD_CTRL_OTHER _ => ret RT_EOK
  end.

(** rt_thread_find; the scheduler is locked only once a thread runs. *)
Definition rt_thread_find (nm : list Z) : K (option objid) :=
  let! k := get in
  match rt_thread_self k with Some _ => rt_enter_critical | None => ret tt end ;!
  let! r := find_object nm RT_Object_Class_Thread in
  let! k := get in
  match rt_thread_self k with Some _ => rt_exit_critical | None => ret tt end ;!
  ret r.

(** * Specifications *)

Section specs.
Implicit Types (k : kernel) (Q : gmap node (list node)) (act : timer_id -> bool) (t : nat).

(** The objects that are not timers keep their names, types and flags. *)
Definition same_objects k k' : Prop :=
  forall o, (forall tm, o <> OTimer tm) -> objects k' o = objects k o.

Lemma same_objects_refl k : same_objects k k.
Proof. done. Qed.
Lemma same_objects_trans k1 k2 k3 : same_objects k1 k2 -> same_objects k2 k3 -> same_objects k1 k3.
Proof. intros H1 H2 o Ho. by rewrite H2, H1. Qed.

Lemma stat_ready_eqb k t : readyp (threads k t) -> stat (threads k t) =? RT_THREAD_READY = true.
Proof. unfold readyp. by intros ->. Qed.
Lemma stat_suspend_eqb k t : suspendedp (threads k t) -> stat (threads k t) =? RT_THREAD_SUSPEND = true.
Proof. unfold suspendedp. by intros ->. Qed.

(** ** Suspend and resume *)

Lemma rt_thread_suspend_not_ready k t :
  ~ readyp (threads k t) -> rt_thread_suspend t k = Ret (- RT_ERROR) k.
Proof.
  intros Hr. unfold rt_thread_suspend, bind, get. by rewrite (proj2 (Z.eqb_neq _ _)).
Qed.

Lemma rt_thread_suspend_spec act k Q t :
  KIx act k Q -> readyp (threads k t) ->
  wp (rt_thread_suspend t) (fun r k' => r = RT_EOK /\
    (TList t) ∈ default [] (Q !! ReadyHead (current_priority (threads k t))) /\
    KIx act k' (unlink (TList t) Q) /\
    threads k' = <[t := set_stat RT_THREAD_SUSPEND (threads k t)]> (threads k) /\
    env k' = env k /\ cpu_part k' = cpu_part k /\ timer_part k' = timer_part k) k.
Proof.
  intros Hk Hr. unfold rt_thread_suspend. wp_pure. rewrite stat_ready_eqb by done. simpl.
  unfold upd_thread. wp_pure.
  pose proof (pl_ok _ _ _ (ki_placed _ _ _ _ _ _ Hk t) (or_introl Hr)) as Hok.
  wp_use (rt_schedule_remove_thread_spec act (threads k)); [done|done|done|done|done|].
  intros [] k' (ys & zs & Hq & Hnew & Hths & He & Hc & Ht). simpl in *. apply wp_ret.
  split_and!; try done.
  - rewrite Hq. simpl. set_solver.
  - erewrite <- (unlink_member (lists k) Q (TList t)); [|apply Hk|exact Hq].
    unfold KIx. rewrite Hths. apply Hnew; done.
Qed.

Lemma rt_thread_resume_not_suspended k t :
  ~ suspendedp (threads k t) -> rt_thread_resume t k = Ret (- RT_ERROR) k.
Proof.
  intros Hr. unfold rt_thread_resume, bind, get. by rewrite (proj2 (Z.eqb_neq _ _)).
Qed.

(** rt_timer_stop on the timer of a live thread, on or off. *)
Lemma rt_timer_stop_thread act k Q t :
  KIx act k Q -> act (ThreadTimer t) = activated k (ThreadTimer t) -> live (threads k t) ->
  wp (rt_timer_stop (ThreadTimer t)) (fun _ k' =>
    KIx (<[ThreadTimer t := false]> act) k' (unlink (TimerRow (ThreadTimer t)) Q) /\
    activated k' = <[ThreadTimer t := false]> (activated k) /\ timers k' = timers k /\
    threads k' = threads k /\ env k' = env k /\ cpu_part k' = cpu_part k /\ same_objects k k') k.
Proof.
  intros Hk Ha Hl. pose proof (ki_timed _ _ _ _ _ _ Hk t) as [T1 T2 T3].
  destruct (T3 Hl) as [[Hrow Hoff]|(xs & Hxs & Hin)].
  - rewrite Ha in Hoff. eapply wp_intro; [by apply rt_timer_stop_inactive|].
    rewrite (unlink_detached (lists k)); [|apply Hk|by eapply ki_timer_row].
    rewrite <- Hoff at 2. rewrite fn_insert_id'. rewrite <- Hoff, <- Ha, fn_insert_id'. done.
  - assert (activated k (ThreadTimer t) = true) as Hon.
    { rewrite <- Ha. apply (ki_timer_act _ _ _ _ _ _ Hk). by exists xs. }
    apply elem_of_split_first in Hin as (ys & zs & ->).
    wp_use rt_timer_stop_spec; [done|done|done|]. intros r k' (_ & Hst & Hk').
    rewrite (unlink_member (lists k)) in Hk'; [|apply Hk|done].
    split_and!; [done|by apply stopped_activated|by apply Hst..|].
    intros o Ho. destruct Hst as (_ & _ & _ & _ & _ & ->). by rewrite fn_lookup_insert_ne.
Qed.

(** Where the lists end up when thread [t] of priority [p] becomes ready. *)
Definition woken t (p : Z) Q : gmap node (list node) :=
  let Q1 := unlink (TimerRow (ThreadTimer t)) (unlink (TList t) Q) in
  <[ReadyHead p := default [] (Q1 !! ReadyHead p) ++ [TList t]]> (delete (TList t) Q1).

Lemma rt_thread_resume_spec act k Q t :
  KIx act k Q -> act (ThreadTimer t) = activated k (ThreadTimer t) -> suspendedp (threads k t) ->
  wp (rt_thread_resume t) (fun r k' => r = RT_EOK /\
    KIx (<[ThreadTimer t := false]> act) k' (woken t (current_priority (threads k t)) Q) /\
    activated k' = <[ThreadTimer t := false]> (activated k) /\ timers k' = timers k /\
    threads k' = <[t := set_stat RT_THREAD_READY (threads k t)]> (threads k) /\
    env k' = env k /\ cpu_part k' = cpu_part k /\ same_objects k k') k.
Proof.
  intros Hk Ha Hs. unfold rt_thread_resume. wp_pure. rewrite stat_suspend_eqb by done. simpl.
  destruct (kinv_unlink_thread _ _ _ _ _ _ _ Hk Hs) as (h & Hh & Hk1).
  wp_step. eapply wp_list_op; [done|].
  wp_use (rt_timer_stop_thread act); [exact Hk1|done|by right|].
  intros r k2 (Hk2 & Ha2 & Etm & Eth & Ee & Ec & Eo). simpl in *.
  wp_use (rt_schedule_insert_thread_spec (<[ThreadTimer t := false]> act) (threads k2)).
  - exact Hk2.
  - symmetry. apply fn_insert_id'.
  - apply unlink_is_Some, unlink_TList_Some.
  - rewrite lookup_unlink, decide_True by done. eauto.
  - apply fn_lookup_insert.
  - apply (ki_timed _ _ _ _ _ _ Hk2). right. by rewrite Eth.
  - apply (pl_ok _ _ _ (ki_placed _ _ _ _ _ _ Hk2 t)). right. by rewrite Eth.
  - intros [] k3 (xs & Hxs & Hk3 & Eth3 & Ee3 & Ec3 & Et3). apply wp_ret.
    injection Et3 as Eob3 Etm3 _. rewrite Eth in *.
    split_and!; [done| | |congruence|done|by rewrite Ee3, Ee|by rewrite Ec3, Ec|].
    + unfold woken. rewrite Hxs. simpl. exact Hk3.
    + unfold activated in *. by rewrite Eob3.
    + intros o Ho. by rewrite Eob3, Eo.
Qed.

(** ** Timeout *)

(** What becoming ready does to the lists when the timer is already out. *)
Definition made_ready t (p : Z) Q : gmap node (list node) :=
  let Q1 := unlink (TList t) Q in
  <[ReadyHead p := default [] (Q1 !! ReadyHead p) ++ [TList t]]> (delete (TList t) Q1).

Lemma rt_thread_timeout_spec act k Q t :
  KIx act k Q -> suspendedp (threads k t) -> act (ThreadTimer t) = false ->
  is_Some (Q !! TimerRow (ThreadTimer t)) ->
  let Q' := made_ready t (current_priority (threads k t)) Q in
  wp (rt_thread_timeout t) (fun _ k' => exists k1,
    KIx act k1 Q' /\ env k1 = env k /\ cpu_part k1 = cpu_part k /\ timer_part k1 = timer_part k /\
    threads k1 = <[t := set_stat RT_THREAD_READY (set_error (- RT_ETIMEOUT) (threads k t))]> (threads k) /\
    scheduled k1 Q' k') k.
Proof.
  intros Hk Hs Hoff Hrow. unfold rt_thread_timeout, upd_thread. wp_pure.
  destruct (kinv_unlink_thread _ _ _ _ _ _ _ Hk Hs) as (h & Hh & Hk1).
  eapply wp_list_op; [done|]. set (th := set_error _ _).
  wp_use (rt_schedule_insert_thread_spec act (threads k)); simpl.
  - exact Hk1.
  - done.
  - apply unlink_TList_Some.
  - by apply unlink_is_Some.
  - done.
  - apply (ki_timed _ _ _ _ _ _ Hk). by right.
  - apply (pl_ok _ _ _ (ki_placed _ _ _ _ _ _ Hk t)). by right.
  - intros [] k2 (xs & Hxs & Hk2 & Eth2 & Ee2 & Ec2 & Et2).
    wp_use (rt_schedule_spec act k2 _ t); [exact Hk2|by rewrite Eth2, fn_lookup_insert|].
    intros [] k3 Hsch. exists k2. subst th. simpl in *. unfold made_ready. rewrite Hxs. simpl.
    split_and!; try done.
Qed.

(** ** Startup *)

(** A thread as rt_thread_init leaves it. *)
Definition startable act k Q t : Prop :=
  stat (threads k t) = RT_THREAD_INIT /\ is_Some (Q !! TList t) /\
  is_Some (Q !! TimerRow (ThreadTimer t)) /\ act (ThreadTimer t) = false /\
  timer_fn k (ThreadTimer t) = FN_rt_thread_timeout t /\
  0 <= init_priority (threads k t) < RT_THREAD_PRIORITY_MAX /\ stack_ok (threads k t).

Definition started_thread (th : rt_thread) : rt_thread :=
  set_stat RT_THREAD_READY (set_number_mask (Z.shiftl 1 (init_priority th))
    (set_current_priority (init_priority th) th)).

Lemma u32_bit p : 0 <= p < RT_THREAD_PRIORITY_MAX -> u32 (Z.shiftl 1 p) = Z.shiftl 1 p.
Proof.
  unfold RT_THREAD_PRIORITY_MAX. intros Hp. rewrite Z.shiftl_1_l. apply u32_small.
  pose proof (Z.pow_lt_mono_r 2 p 32). lia.
Qed.

Lemma rt_thread_startup_spec act k Q t :
  KIx act k Q -> act (ThreadTimer t) = activated k (ThreadTimer t) -> startable act k Q t ->
  let Q' := woken t (init_priority (threads k t)) Q in
  wp (rt_thread_startup t) (fun r k' => r = RT_EOK /\ exists k1,
    KIx act k1 Q' /\ env k1 = env k /\ cpu_part k1 = cpu_part k /\
    activated k1 = activated k /\ timers k1 = timers k /\ same_objects k k1 /\
    threads k1 = <[t := started_thread (threads k t)]> (threads k) /\
    (rt_current_thread k = None /\ k' = k1 \/ rt_current_thread k <> None /\ scheduled k1 Q' k')) k.
Proof.
  intros Hk Ha (Hst & Htl & Hrow & Hoff & Hfn & Hp & Hstk).
  unfold rt_thread_startup, upd_thread. wp_pure. simpl. repeat rewrite ?fn_insert_insert', ?fn_lookup_insert.
  simpl. rewrite u32_bit by done.
  set (k1 := set_threads _ _). set (th := set_stat RT_THREAD_SUSPEND _) in k1.
  assert (KIx act k1 Q) as Hk1.
  { subst k1. unfold KIx. simpl. rewrite ?fn_insert_insert'.
    eapply kinv_set_detached; [exact Hk|done|done|done|].
    split; [|done|by left]. intros Hin%(ki_timer_act _ _ _ _ _ _ Hk). congruence. }
  assert (threads k1 t = th) as Eth1 by apply fn_lookup_insert.
  wp_use (rt_thread_resume_spec act k1 Q t); [done|done|by rewrite Eth1|].
  intros r k2 (_ & Hk2 & Ha2 & Etm2 & Eth2 & Ee2 & Ec2 & Eo2).
  assert (rt_current_thread k2 = rt_current_thread k) as Ecur by (injection Ec2 as ?; done).
  assert (<[ThreadTimer t := false]> act = act) as Eact by (rewrite <- Hoff; apply fn_insert_id').
  rewrite Eth1, Eact in *.
  assert (exists th', threads k2 = <[t := th']> (threads k) /\ th' = started_thread (threads k t))
    as (th' & Eth & ->).
  { eexists. split; [rewrite Eth2; subst k1; simpl; by rewrite ?fn_insert_insert'|done]. }
  assert (activated k2 = activated k) as Ea2.
  { rewrite Ha2. change (activated k1) with (activated k). rewrite <- Hoff, Ha. apply fn_insert_id'. }
  wp_pure. unfold rt_thread_self. rewrite Ecur.
  destruct (rt_current_thread k) eqn:Ek; simpl.
  - wp_step. wp_use (rt_schedule_spec act k2 _ t); [exact Hk2|by rewrite Eth, fn_lookup_insert|].
    intros [] k3 Hsch. wp_pure. split; [done|]. exists k2. split_and!; try done. right. by split.
  - wp_pure. split; [done|]. exists k2. split_and!; try done. by left.
Qed.

(** ** Sleeping: suspend and arm the timer *)

(** The state after the timer of thread [t] is set to [tick] and started. *)
Definition armed act t (tick : Z) k Q (k' : kernel) Q' : Prop :=
  let T := u32 (rt_tick k + tick) in
  (exists ys zs, Q !! TimerHead = Some (ys ++ zs) /\ slot k' T ys zs /\
    Q' = <[TimerHead := ys ++ TimerRow (ThreadTimer t) :: zs]> (delete (TimerRow (ThreadTimer t)) Q)) /\
  KIx (<[ThreadTimer t := true]> act) k' Q' /\
  activated k' = <[ThreadTimer t := true]> (activated k) /\
  timers k' = <[ThreadTimer t := set_timeout_tick T (set_timer_init_tick tick (timers k (ThreadTimer t)))]>
                (timers k) /\
  threads k' = threads k /\ env k' = env k /\ cpu_part k' = cpu_part k /\ same_objects k k'.

Lemma wp_arm {A} act k Q t tick (f : Z -> K A) Phi :
  KIx act k Q -> suspendedp (threads k t) -> activated k (ThreadTimer t) = false ->
  is_Some (Q !! TimerRow (ThreadTimer t)) ->
  (forall k' Q', armed act t tick k Q k' Q' -> wp (f RT_EOK) Phi k') ->
  wp (rt_timer_control (ThreadTimer t) (RT_TIMER_CTRL_SET_TIME tick) ;!
      let! r := rt_timer_start (ThreadTimer t) in f r) Phi k.
Proof.
  intros Hk Hs Hoff Hrow Hf. unfold rt_timer_control, upd_timer. wp_pure.
  set (k1 := set_timers _ k).
  assert (timer_fn k1 = timer_fn k) as Efn.
  { apply functional_extensionality. intros x. unfold timer_fn, k1. simpl.
    rewrite fn_insert_case. case_decide; by subst. }
  assert (KIx act k1 Q) as Hk1 by (unfold KIx; rewrite Efn; exact Hk).
  wp_use (rt_timer_start_spec act k1 Q (ThreadTimer t)); [done|done|done|by intros ? [= <-]|].
  intros r k2 (-> & Hst & ys & zs & Hq & Hslot & Hk2). unfold k1 in *. simpl in *.
  rewrite fn_lookup_insert in *. simpl in *. eapply Hf.
  pose proof (started_activated _ _ _ _ Hst) as Ea. destruct Hst as (E1 & E2 & E3 & E4 & E5). simpl in *.
  split; [by exists ys, zs|]. split_and!; try done.
  - by rewrite E4, fn_lookup_insert, fn_insert_insert'.
  - intros o Ho. rewrite E5. by apply fn_lookup_insert_ne.
Qed.

(** C34: rt_thread_sleep suspends the caller, arms its timer with the given ticks and gives the
    processor to the most urgent of the others. *)
Lemma rt_thread_sleep_spec k Q t t0 tick :
  KI k Q -> rt_current_thread k = Some t -> readyp (threads k t) ->
  t0 <> t -> readyp (threads k t0) ->
  wp (rt_thread_sleep tick) (fun _ k' => exists k1 k2 Q2,
    threads k1 = <[t := set_stat RT_THREAD_SUSPEND (threads k t)]> (threads k) /\
    env k1 = env k /\ cpu_part k1 = cpu_part k /\ timer_part k1 = timer_part k /\
    armed (activated k) t tick k1 (unlink (TList t) Q) k2 Q2 /\ scheduled k2 Q2 k') k.
Proof.
  intros Hk Hcur Hr Hne Hr0. unfold rt_thread_sleep. wp_pure.
  eapply wp_of_option; [done|]. destruct (ki_ready_timer _ _ _ _ _ _ _ Hk Hr) as [Hrow Hoff].
  wp_use (rt_thread_suspend_spec _ k Q t); [done|done|].
  intros r k1 (_ & _ & Hk1 & Eth1 & Ee1 & Ec1 & Et1).
  assert (activated k1 = activated k) as Ea1 by (injection Et1 as Eo _; unfold activated; by rewrite Eo).
  apply (wp_arm (activated k) _ (unlink (TList t) Q));
    [done|by rewrite Eth1, fn_lookup_insert|by rewrite Ea1|by apply unlink_is_Some|].
  intros k2 Q2 Harm. pose proof Harm as (_ & Hk2 & Ea2 & _ & Eth2 & _).
  wp_use (rt_schedule_spec _ k2 Q2 t0); [exact Hk2|by rewrite Eth2, Eth1, fn_lookup_insert_ne|].
  intros [] k3 Hsch. by exists k1, k2, Q2.
Qed.

(** ** Yield *)

(** The running thread goes behind the other threads of its priority. *)
Lemma yield_moves act k Q t ys zs :
  KIx act k Q -> rt_current_thread k = Some t -> readyp (threads k t) ->
  Q !! ReadyHead (current_priority (threads k t)) = Some (ys ++ TList t :: zs) ->
  wp rt_thread_yield (fun r k' => r = RT_EOK /\
    (ys ++ zs = [] /\ k' = k \/
     ys ++ zs <> [] /\
     let Q' := <[ReadyHead (current_priority (threads k t)) := ys ++ zs ++ [TList t]]> Q in
     exists h, KIx act (set_lists h k) Q' /\ scheduled (set_lists h k) Q' k')) k.
Proof.
  intros Hk Hcur Hr Hq. unfold rt_thread_yield. wp_pure. eapply wp_of_option; [done|].
  rewrite stat_ready_eqb by done. cbn [andb].
  rewrite (bool_decide_ext _ _ (Rep_alone _ _ _ _ _ _ (ki_rep _ _ _ _ _ _ Hk) Hq)).
  case_bool_decide as E; cbn [negb]; [wp_pure; split; [done|by left]|].
  destruct (kinv_requeue _ _ _ _ _ _ _ _ _ _ Hk Hq) as (h1 & h2 & Hh1 & Hh2 & Hk2).
  wp_step. eapply wp_list_op; [done|]. wp_step. eapply wp_list_op; [done|].
  wp_use (rt_schedule_spec act (set_lists h2 (set_lists h1 k)) _ t); [exact Hk2|done|].
  intros [] k' Hsch. wp_pure. split; [done|]. right. split; [done|]. by exists h2.
Qed.

(** A running thread that is the first of its queue and yields goes to the end
    of it; the next of the queue runs. *)
Theorem rt_thread_yield_round_robin k Q t s zs :
  KI k Q -> rt_current_thread k = Some t -> readyp (threads k t) -> rt_scheduler_lock_nest k = 0 ->
  next_to_run Q t (current_priority (threads k t)) ->
  Q !! ReadyHead (current_priority (threads k t)) = Some (TList t :: TList s :: zs) ->
  wp rt_thread_yield (fun r k' => r = RT_EOK /\ rt_current_thread k' = Some s /\
    threads k' = threads k /\ exists Q', KI k' Q' /\
    Q' !! ReadyHead (current_priority (threads k t)) = Some (TList s :: zs ++ [TList t]) /\
    forall l, l <> ReadyHead (current_priority (threads k t)) -> Q' !! l = Q !! l) k.
Proof.
  intros Hk Hcur Hr Hlk (xs & Hxs & Hmin) Hq. set (p := current_priority (threads k t)) in *.
  wp_use (yield_moves (activated k) k Q t [] (TList s :: zs)); [done|done|done|exact Hq|].
  intros r k' (-> & [[? _]|(_ & h & Hk1 & Hsch)]); [done|]. split; [done|]. fold p in Hk1, Hsch.
  set (Q' := <[ReadyHead p := _]> Q) in *.
  pose proof (scheduled_KIx _ _ _ _ Hk1 Hsch) as Hk2.
  destruct Hsch as (Hsw & _ & Eth & Ee & Et & _). simpl in Hsw. rewrite decide_True in Hsw by done.
  destruct Hsw as (u & q & (ys & Hu & Humin) & Hcu & _).
  assert (Q' !! ReadyHead p = Some (TList s :: zs ++ [TList t])) as Hp by (subst Q'; by rewrite lookup_insert_eq).
  assert (forall l, l <> ReadyHead p -> Q' !! l = Q !! l) as Hoth by (intros l Hl; subst Q'; by rewrite lookup_insert_ne).
  destruct (pl_ok _ _ _ (ki_placed _ _ _ _ _ _ Hk t) (or_introl Hr)) as (Hpr & _). fold p in Hpr.
  assert (q = p) as ->.
  { pose proof (proj2 (rt_heads _ _ (ki_table _ _ _ _ _ _ Hk1) q) ltac:(rewrite Hu; eauto)) as Hqr.
    destruct (Z.lt_trichotomy q p) as [Hlt|[?|Hgt]]; [|done|].
    - rewrite Hoth, Hmin in Hu by (lia || intros [= ->]; lia). done.
    - rewrite (Humin p) in Hp by lia. done. }
  rewrite Hp in Hu. injection Hu as <- _.
  split_and!; [done|by rewrite Eth|]. exists Q'. split_and!; [|done|done].
  injection Et as Eo _ _. unfold KI, activated. rewrite Eo. exact Hk2.
Qed.

(** ** Change of priority *)

Definition with_priority (p : Z) (th : rt_thread) : rt_thread :=
  set_number_mask (Z.shiftl 1 p) (set_current_priority p th).

(** A ready thread moves to the tail of the queue of its new priority. *)
Lemma change_priority_ready act k Q t p :
  KIx act k Q -> readyp (threads k t) -> 0 <= p < RT_THREAD_PRIORITY_MAX ->
  wp (rt_thread_control t (RT_THREAD_CTRL_CHANGE_PRIORITY p)) (fun r k' => r = RT_EOK /\
    KIx act k' (made_ready t p Q) /\ threads k' = <[t := with_priority p (threads k t)]> (threads k) /\
    env k' = env k /\ cpu_part k' = cpu_part k /\ timer_part k' = timer_part k) k.
Proof.
  intros Hk Hr Hp. unfold rt_thread_control. wp_pure. rewrite stat_ready_eqb by done. wp_step.
  pose proof (pl_ok _ _ _ (ki_placed _ _ _ _ _ _ Hk t) (or_introl Hr)) as (Hp0 & Hm & Hst).
  destruct (ki_ready_timer _ _ _ _ _ _ _ Hk Hr) as [Hrow Hoff].
  wp_use (rt_schedule_remove_thread_spec act (threads k) k Q t (threads k t));
    [done|by rewrite fn_insert_id'|done|done|done|].
  intros [] k1 (ys & zs & Hq & Hnew & Eth1 & Ee1 & Ec1 & Et1).
  rewrite (unlink_member (lists k)) in Hnew; [|apply Hk|done].
  set (th0 := set_stat RT_THREAD_SUSPEND (threads k t)).
  specialize (Hnew th0 ltac:(done) ltac:(by intros _)).
  assert (Eob : objects k1 = objects k /\ timers k1 = timers k) by (injection Et1 as -> -> _; done).
  unfold upd_thread. wp_pure. simpl. rewrite ?fn_insert_insert', !fn_lookup_insert. simpl.
  rewrite u32_bit, Eth1 by done.
  wp_use (rt_schedule_insert_thread_spec act (<[t := th0]> (threads k)) _ _ t (with_priority p (threads k t)));
    simpl.
  - exact Hnew.
  - by rewrite fn_insert_insert'.
  - apply unlink_TList_Some.
  - by apply unlink_is_Some.
  - done.
  - apply (ki_timed _ _ _ _ _ _ Hnew). right. by rewrite fn_lookup_insert.
  - done.
  - intros [] k2 (xs & Hxs & Hk2 & Eth2 & Ee2 & Ec2 & Et2). wp_pure.
    split_and!; [done| | |by rewrite Ee2, <- Ee1|by rewrite Ec2, <- Ec1|by rewrite Et2, <- Et1].
    + unfold made_ready. by rewrite Hxs.
    + rewrite Eth2, fn_insert_insert'. f_equal. unfold with_priority, readyp in *. destruct (threads k t).
      simpl in *. by subst.
Qed.

(** A suspended one keeps its place. *)
Lemma change_priority_suspended act k Q t p :
  KIx act k Q -> suspendedp (threads k t) -> 0 <= p < RT_THREAD_PRIORITY_MAX ->
  wp (rt_thread_control t (RT_THREAD_CTRL_CHANGE_PRIORITY p)) (fun r k' => r = RT_EOK /\
    KIx act k' Q /\ threads k' = <[t := with_priority p (threads k t)]> (threads k) /\ lists k' = lists k /\
    env k' = env k /\ cpu_part k' = cpu_part k /\ timer_part k' = timer_part k) k.
Proof.
  intros Hk Hs Hp. unfold rt_thread_control, upd_thread. wp_pure.
  rewrite (proj2 (Z.eqb_neq _ _)) by (unfold suspendedp in Hs; by rewrite Hs). wp_step. wp_pure. simpl.
  rewrite ?fn_insert_insert', !fn_lookup_insert. simpl. rewrite u32_bit by done.
  split_and!; try done. unfold KIx. simpl. eapply kinv_thread_move.
  - exact Hk.
  - apply Hk.
  - apply same_but_refl.
  - apply Hk.
  - pose proof (ki_placed _ _ _ _ _ _ Hk t) as [P1 P2 P3 P4]. split.
    + intros l Hl. destruct (P1 l Hl) as [[? _]|[?|[Hc _]]];
        [by destruct (ready_not_suspended (threads k t))|by right; left|].
      unfold suspendedp in Hs. by rewrite Hs in Hc.
    + intros ?. by destruct (ready_not_suspended (threads k t)).
    + done.
    + intros _. destruct P4 as (_ & _ & ?); [by right|]. done.
  - pose proof (ki_timed _ _ _ _ _ _ Hk t) as [T1 T2 T3]. by split.
Qed.
End specs.
