(* ===== verification/ThreadLife.v ===== *)
(** The life of a thread (src/thread.c): initialised, started, detached.

    The nodes of a thread are its place in a queue, the row of its timer and the
    entries of both in the containers of objects.  rt_thread_init puts all of them
    in place, rt_thread_detach and rt_thread_delete take them out again from
    whatever state the thread is in. *)

From S2P Require Import Prelude RtList KState Ffs KInv Sched Object Timer Thread.

Open Scope Z_scope.

Section life.
Implicit Types (k : kernel) (Q : gmap node (list node)) (act : timer_id -> bool) (t : nat).
Implicit Types (h : gmap node (rt_list_node node)) (ths : nat -> rt_thread) (tf : timer_id -> timeout_fn).

(** * Taking the nodes out *)

Definition registered Q (o : objid) : Prop := member Q (ObjHead (object_class o)) (ObjNode o).

Lemma kinv_unlink_object h ths act tf g Q o :
  kinv h ths act tf g Q -> registered Q o ->
  exists h', rt_list_remove (ObjNode o) h = Some h' /\ kinv h' ths act tf g (unlink (ObjNode o) Q).
Proof.
  intros Hk (xs & Hl & Hin). apply elem_of_split_first in Hin as (ys & zs & ->).
  destruct (Rep_remove h Q _ ys zs (ObjNode o) (ki_rep _ _ _ _ _ _ Hk) Hl) as (h' & Hh & Hrep).
  exists h'. split; [done|]. rewrite <- (unlink_member h Q _ (ObjHead (object_class o)) ys zs); [|apply Hk|done].
  eapply (kinv_other h h' _ _ _ _ Q _ (ObjNode o)); try done.
  - eapply same_but_remove; [done|]. intros xs Hn.
    pose proof (ki_no_member _ _ _ _ _ _ (ObjNode o) Hk (not_node_ok_ObjNode o) ltac:(eauto)). congruence.
  - intros l (xs & Hx & Hin). exfalso.
    destruct (Rep_detached_self h' _ (ObjNode o) Hrep) with l xs; [|done|done]. by rewrite lookup_insert_eq.
Qed.

Lemma kinv_unlink_row h ths act tf g Q tm :
  kinv h ths act tf g Q -> is_Some (Q !! TimerRow tm) \/ member Q TimerHead (TimerRow tm) ->
  exists h', rt_list_remove (TimerRow tm) h = Some h' /\
    kinv h' ths (<[tm := false]> act) tf g (unlink (TimerRow tm) Q).
Proof.
  intros Hk [Hs|(xs & Hl & Hin)].
  - pose proof (ki_timer_row _ _ _ _ _ _ _ Hk Hs) as Hn.
    destruct (Rep_remove_self h Q (TimerRow tm)) as (h' & Hh & Hrep); [apply Hk|done|].
    exists h'. split; [done|]. rewrite (unlink_detached h') by done.
    apply kinv_timer_flag; [|by eapply kinv_free_row|done]. destruct Hk. by split.
  - apply elem_of_split_first in Hin as (ys & zs & ->).
    rewrite <- (unlink_member h Q _ TimerHead ys zs); [|apply Hk|done]. by apply kinv_timer_off.
Qed.

(** Clearing the bit of an empty queue that is clear already. *)
Lemma land_lnot_clear g p :
  0 <= g < 2 ^ 32 -> 0 <= p < 32 -> Z.testbit g p = false -> Z.land g (u32 (Z.lnot (Z.shiftl 1 p))) = g.
Proof.
  intros Hg Hp Hb. apply Z.bits_inj'. intros n Hn. rewrite Z.land_spec.
  destruct (Z.lt_ge_cases n 32).
  - rewrite lnot_bit_testbit by lia. destruct (Z.eqb_spec p n) as [<-|]; [by rewrite Hb|by rewrite andb_true_r].
  - by rewrite (testbit_high g 32 n) by lia.
Qed.

(** rt_schedule_remove_thread on a live thread, ready or not; the thread is then
    as if suspended in no list. *)
Lemma kinv_leave h ths act tf g Q t :
  kinv h ths act tf g Q -> live (ths t) ->
  exists h', rt_list_remove (TList t) h = Some h' /\
    kinv h' (<[t := set_stat RT_THREAD_SUSPEND (ths t)]> ths) act tf
      (if rt_list_isempty (ReadyHead (current_priority (ths t))) h'
       then Z.land g (u32 (Z.lnot (number_mask (ths t)))) else g) (unlink (TList t) Q).
Proof.
  intros Hk Hl. pose proof (pl_ok _ _ _ (ki_placed _ _ _ _ _ _ Hk t) Hl) as (Hp & Hm & Hst).
  rewrite Hm. destruct Hl as [Hr|Hs].
  - destruct (kinv_leave_ready _ _ _ _ _ _ _ Hk Hr) as (p & ys & zs & h' & -> & Hq & Hh & He & Hnew).
    exists h'. split; [done|]. rewrite He, <- (unlink_member h Q _ (ReadyHead (current_priority (ths t))) ys zs); [|apply Hk|done]. by apply Hnew.
  - destruct (kinv_unlink_thread _ _ _ _ _ _ _ Hk Hs) as (h' & Hh & Hk'). exists h'. split; [done|].
    assert (set_stat RT_THREAD_SUSPEND (ths t) = ths t) as ->.
    { unfold suspendedp in Hs. destruct (ths t). simpl in *. by subst. }
    rewrite fn_insert_id'. destruct (rt_list_isempty _ h') eqn:E; [|done].
    rewrite land_lnot_clear; [done|apply (ki_table _ _ _ _ _ _ Hk)|done|].
    pose proof (ki_table _ _ _ _ _ _ Hk') as [H1 H2 _]. apply not_true_iff_false. rewrite (H2 _ Hp).
    destruct (proj1 (H1 _) Hp) as [xs Hxs]. intros (n & ys & Hys & Hn). rewrite Hxs in Hys. injection Hys as <-.
    rewrite (Rep_isempty _ _ _ _ (ki_rep _ _ _ _ _ _ Hk') Hxs) in E. apply bool_decide_eq_true in E as ->.
    by apply not_elem_of_nil in Hn.
Qed.

(** The two removals at the start of rt_thread_detach, and the state CLOSE. *)
Lemma kinv_retire h ths act tf g Q t th :
  kinv h ths act tf g Q -> live (ths t) -> stat th = RT_THREAD_CLOSE ->
  exists h1 h2, rt_list_remove (TList t) h = Some h1 /\
    rt_list_remove (TimerRow (ThreadTimer t)) h1 = Some h2 /\
    kinv h2 (<[t := th]> ths) act tf
      (if rt_list_isempty (ReadyHead (current_priority (ths t))) h1
       then Z.land g (u32 (Z.lnot (number_mask (ths t)))) else g)
      (unlink (TimerRow (ThreadTimer t)) (unlink (TList t) Q)).
Proof.
  intros Hk Hl Hc. destruct (kinv_leave _ _ _ _ _ _ _ Hk Hl) as (h1 & Hh1 & Hk1).
  set (th1 := set_stat RT_THREAD_SUSPEND (ths t)) in Hk1.
  destruct (kinv_unlink_row _ _ _ _ _ _ (ThreadTimer t) Hk1) as (h2 & Hh2 & Hk2).
  { destruct (ti_row _ _ _ _ _ (ki_timed _ _ _ _ _ _ Hk1 t)) as [[? _]|?];
      [right; by rewrite fn_lookup_insert|by left|by right]. }
  exists h1, h2. split_and!; [done|done|]. set (Q2 := unlink _ (unlink _ Q)) in *.
  assert (is_Some (Q2 !! TimerRow (ThreadTimer t))) as Hrow.
  { subst Q2. rewrite lookup_unlink, decide_True by done. eauto. }
  eapply (kinv_set_detached _ _ _ _ _ _ t th) in Hk2;
    [|apply unlink_is_Some, unlink_TList_Some|unfold readyp; by rewrite Hc|unfold suspendedp; by rewrite Hc|].
  2:{ split.
      - intros Hm. by destruct (kinv_free_row _ _ _ _ _ _ _ Hk2 Hrow TimerHead).
      - unfold live, readyp, suspendedp. rewrite Hc. by intros [|].
      - unfold live, readyp, suspendedp. rewrite Hc. by intros [|]. }
  rewrite fn_insert_insert' in Hk2.
  apply (kinv_timer_flag _ _ _ _ _ _ (ThreadTimer t) (act (ThreadTimer t))) in Hk2.
  - by rewrite fn_insert_insert', fn_insert_id' in Hk2.
  - by eapply kinv_free_row.
  - intros _ x [= <-]. rewrite fn_lookup_insert. unfold live, readyp, suspendedp. rewrite Hc. by intros [|].
Qed.
(** * Ending *)

(** The lists without thread [t], its timer and their objects. *)
Definition off_queue t Q : gmap node (list node) :=
  unlink (ObjNode (OTimer (ThreadTimer t))) (unlink (TimerRow (ThreadTimer t)) (unlink (TList t) Q)).
Definition retired t Q : gmap node (list node) := unlink (ObjNode (OThread t)) (off_queue t Q).

Definition relisted h g k : kernel := set_rt_thread_ready_priority_group g (set_lists h k).

Lemma unlink_member_other Q n l m : member Q l m -> m <> n -> l <> n -> member (unlink n Q) l m.
Proof.
  intros (xs & Hl & Hm) Hmn Hln. exists (filter (fun x => x <> n) xs). split.
  - by rewrite lookup_unlink, decide_False, Hl by congruence.
  - by apply list_elem_of_filter.
Qed.

Lemma registered_unlink Q n o :
  registered Q o -> n <> ObjNode o -> n <> ObjHead (object_class o) -> registered (unlink n Q) o.
Proof. intros. by apply unlink_member_other. Qed.

(** A thread leaves all queues, by rt_schedule_remove_thread and rt_timer_detach. *)
Lemma wp_off_queue {A} act k Q t th (f : Z -> K A) Phi :
  KIx act k Q -> live (threads k t) -> stat th = RT_THREAD_CLOSE ->
  registered Q (OTimer (ThreadTimer t)) ->
  (forall h g, kinv h (<[t := th]> (threads k)) act (timer_fn k) g (off_queue t Q) ->
     wp (f (- RT_EOK)) Phi (relisted h g k)) ->
  wp (rt_schedule_remove_thread t ;! let! r := rt_timer_detach (ThreadTimer t) in f r) Phi k.
Proof.
  intros Hk Hl Hc Hreg Hf.
  destruct (kinv_retire _ _ _ _ _ _ _ th Hk Hl Hc) as (h1 & h2 & Hh1 & Hh2 & Hk2).
  destruct (kinv_unlink_object _ _ _ _ _ _ (OTimer (ThreadTimer t)) Hk2) as (h3 & Hh3 & Hk3).
  { by repeat (apply registered_unlink; [|done..]). }
  set (g := if rt_list_isempty _ _ then _ else _) in Hk3. specialize (Hf h3 g Hk3).
  unfold rt_schedule_remove_thread. wp_step. wp_step. eapply wp_list_op; [done|]. wp_pure. simpl.
  unfold list_isempty. simpl.
  assert (forall k1, lists k1 = h1 -> set_lists h3 k1 = relisted h3 g k ->
    wp (let! r := rt_timer_detach (ThreadTimer t) in f r) Phi k1) as Hrest.
  { intros k1 El E3. unfold rt_timer_detach. wp_step. wp_step. eapply wp_list_op; [by rewrite El|].
    wp_step. eapply wp_list_op; [exact Hh3|]. wp_pure.
    by replace (set_lists h3 (set_lists h2 k1)) with (relisted h3 g k). }
  subst g. destruct (rt_list_isempty _ h1); wp_pure; by apply wp_bind_inv, Hrest.
Qed.

Definition closed (th : rt_thread) : rt_thread := set_stat RT_THREAD_CLOSE th.

(** A thread after rt_thread_detach: gone from every list, or with a cleanup
    function left to the idle thread in the defunct list. *)
Definition detached_lists t Q (has_cleanup : bool) : gmap node (list node) :=
  if has_cleanup then
    <[DefunctHead := TList t :: default [] (retired t Q !! DefunctHead)]> (delete (TList t) (retired t Q))
  else retired t Q.

Definition untouched k k' : Prop :=
  env k' = env k /\ cpu_part k' = cpu_part k /\ timer_part k' = timer_part k.

Lemma rt_thread_detach_spec act k Q t :
  KIx act k Q -> live (threads k t) -> registered Q (OThread t) -> registered Q (OTimer (ThreadTimer t)) ->
  wp (rt_thread_detach t) (fun r k' => r = RT_EOK /\ untouched k k' /\
    KIx act k' (detached_lists t Q (bool_decide (cleanup (threads k t) <> None))) /\
    threads k' = <[t := closed (threads k t)]> (threads k)) k.
Proof.
  intros Hk Hl Hro Hrt. unfold rt_thread_detach.
  apply (wp_off_queue act k Q t (closed (threads k t))); [done..|]. intros h g Hk1.
  destruct (kinv_unlink_object _ _ _ _ _ _ (OThread t) Hk1) as (h2 & Hh2 & Hk2).
  { by repeat (apply registered_unlink; [|done..]). }
  fold (retired t Q) in Hk2. unfold upd_thread. wp_pure. eapply wp_list_op; [done|]. wp_pure. simpl.
  rewrite fn_lookup_insert. simpl. destruct (cleanup (threads k t)) eqn:E; simpl.
  - unfold detached_lists.
    destruct (ki_defunct _ _ _ _ _ _ Hk2) as [xs Hxs]. rewrite Hxs. simpl.
    assert (is_Some (retired t Q !! TList t)) as Hs by (do 3 apply unlink_is_Some; apply unlink_TList_Some).
    destruct (Rep_insert_after h2 _ DefunctHead xs (TList t) (ki_rep _ _ _ _ _ _ Hk2) Hxs)
      as (h3 & Hh3 & Hrep); [eapply ki_detached; [done|apply not_node_ok_TList|done]|done|].
    wp_step. eapply wp_list_op; [done|]. wp_pure. split_and!; [done|done| |done].
    eapply kinv_join_defunct; [exact Hk2|done|simpl; by rewrite fn_lookup_insert|done|done].
  - wp_step. wp_pure.
    split_and!; [done|done|exact Hk2|done].
Qed.

Lemma rt_thread_delete_spec act k Q t :
  KIx act k Q -> live (threads k t) -> registered Q (OTimer (ThreadTimer t)) ->
  wp (rt_thread_delete t) (fun r k' => r = RT_EOK /\ untouched k k' /\
    threads k' = <[t := closed (threads k t)]> (threads k) /\ exists xs,
    off_queue t Q !! DefunctHead = Some xs /\
    KIx act k' (<[DefunctHead := TList t :: xs]> (delete (TList t) (off_queue t Q)))) k.
Proof.
  intros Hk Hl Hrt. unfold rt_thread_delete.
  apply (wp_off_queue act k Q t (closed (threads k t))); [done..|]. intros h g Hk1.
  unfold upd_thread. wp_pure. destruct (ki_defunct _ _ _ _ _ _ Hk1) as [xs Hxs].
  assert (is_Some (off_queue t Q !! TList t)) as Hs by (do 2 apply unlink_is_Some; apply unlink_TList_Some).
  destruct (Rep_insert_after h _ DefunctHead xs (TList t) (ki_rep _ _ _ _ _ _ Hk1) Hxs)
    as (h3 & Hh3 & Hrep); [eapply ki_detached; [done|apply not_node_ok_TList|done]|done|].
  eapply wp_list_op; [done|]. wp_pure. split_and!; [done|done|done|]. exists xs. split; [done|].
  eapply kinv_join_defunct; [exact Hk1|done|simpl; by rewrite fn_lookup_insert|done|done].
Qed.
(** rt_thread_exit closes the thread before it detaches the timer; the two do not
    touch the same memory. *)
Lemma close_then_detach {A} t f tm (g : Z -> K A) k :
  (upd_thread t f ;! let! r := rt_timer_detach tm in g r) k =
  (let! r := rt_timer_detach tm in upd_thread t f ;! g r) k.
Proof.
  unfold rt_timer_detach, _rt_timer_remove, rt_object_detach, list_remove, list_op, upd_thread, bind, modify, ret.
  simpl. destruct (rt_list_remove (TimerRow tm) (lists k)) as [h|]; [|done]. simpl.
  by destruct (rt_list_remove (ObjNode (OTimer tm)) h).
Qed.

(** C35: A thread that returns from its entry function leaves the kernel, for good if
    it is static and has no cleanup function, otherwise to the idle thread; the
    processor goes to the most urgent of the others. *)
Lemma rt_thread_exit_spec k Q t t0 :
  KI k Q -> rt_current_thread k = Some t -> readyp (threads k t) -> t0 <> t -> readyp (threads k t0) ->
  registered Q (OThread t) -> registered Q (OTimer (ThreadTimer t)) ->
  let gone := rt_object_is_systemobject (OThread t) k && bool_decide (cleanup (threads k t) = None) in
  let Q' := if gone then retired t Q else
    <[DefunctHead := TList t :: default [] (off_queue t Q !! DefunctHead)]> (delete (TList t) (off_queue t Q)) in
  wp rt_thread_exit (fun _ k' => exists k1, untouched k k1 /\ KI k1 Q' /\
    threads k1 = <[t := closed (threads k t)]> (threads k) /\ scheduled k1 Q' k') k.
Proof.
  intros Hk Hcur Hr Hne Hr0 Hro Hrt gone Q'. unfold rt_thread_exit. wp_pure. eapply wp_of_option; [done|].
  assert (forall k1, KI k1 Q' -> untouched k k1 -> threads k1 = <[t := closed (threads k t)]> (threads k) ->
    wp rt_schedule (fun _ k' => exists k1, untouched k k1 /\ KI k1 Q' /\
      threads k1 = <[t := closed (threads k t)]> (threads k) /\ scheduled k1 Q' k') k1) as Hend.
  { intros k1 Hk1 Hu Eth. wp_use (rt_schedule_spec (activated k1) k1 Q' t0);
      [done|by rewrite Eth, fn_lookup_insert_ne|]. intros [] k' Hsch. by exists k1. }
  set (tail := fun _ : Z => _). unfold wp at 1.
  lazymatch goal with |- context [(rt_schedule_remove_thread t ;! ?m) k] =>
    assert ((rt_schedule_remove_thread t ;! m) k =
      (rt_schedule_remove_thread t ;! let! r := rt_timer_detach (ThreadTimer t) in
       upd_thread t (set_stat RT_THREAD_CLOSE) ;! tail r) k) as ->
  end.
  { unfold bind at 1 4. destruct (rt_schedule_remove_thread t k); [apply close_then_detach|done]. }
  apply (wp_off_queue (activated k) k Q t (closed (threads k t)) (fun r => upd_thread t _ ;! tail r)); [done|by left|done|done|].
  intros h g Hk1. subst tail. unfold upd_thread. wp_pure. simpl. unfold rt_object_is_systemobject. simpl.
  rewrite fn_lookup_insert. simpl. fold (rt_object_is_systemobject (OThread t) k). fold gone.
  subst Q'. destruct gone.
  - destruct (kinv_unlink_object _ _ _ _ _ _ (OThread t) Hk1) as (h2 & Hh2 & Hk2).
    { by repeat (apply registered_unlink; [|done..]). }
    wp_step. eapply wp_list_op; [done|]. by apply Hend.
  - destruct (ki_defunct _ _ _ _ _ _ Hk1) as [xs Hxs]. rewrite Hxs. simpl.
    assert (is_Some (off_queue t Q !! TList t)) as Hs by (do 2 apply unlink_is_Some; apply unlink_TList_Some).
    destruct (Rep_insert_after h _ DefunctHead xs (TList t) (ki_rep _ _ _ _ _ _ Hk1) Hxs)
      as (h3 & Hh3 & Hrep); [eapply ki_detached; [done|apply not_node_ok_TList|done]|done|].
    wp_step. eapply wp_list_op; [done|]. rewrite Hxs in Hend. apply Hend; [|done..].
    eapply kinv_join_defunct; [exact Hk1|done|simpl; by rewrite fn_lookup_insert|done|done].
Qed.
(** * Initialisation *)

Lemma not_live_init th : stat th = RT_THREAD_INIT -> ~ live th.
Proof. unfold live, readyp, suspendedp. intros ->. by intros [|]. Qed.

Lemma kinv_init_thread h ths act tf g Q t th :
  kinv h ths act tf g Q -> detached Q (TList t) -> detached Q (TimerRow (ThreadTimer t)) ->
  stat th = RT_THREAD_INIT ->
  kinv (rt_list_init (TList t) h) (<[t := th]> ths) act tf g (<[TList t := []]> Q).
Proof.
  intros Hk Hd Hdr Hst. pose proof (not_live_init _ Hst) as Hnl.
  assert (forall l, ~ member (<[TList t := []]> Q) l (TList t)) as Hno.
  { intros l. rewrite member_insert. intros [[_ []%not_elem_of_nil]|[_ (xs & Hl & Hin)]].
    by destruct (Hd _ _ Hl). }
  eapply kinv_thread_move; [done|apply Rep_init; [apply Hk|done]|apply same_but_init| | |].
  - intros xs Hx. by eapply Hd.
  - eapply ready_table_frame; [apply same_but_init|done| |done|apply Hk]; [intros xs Hx; by eapply Hd|].
    intros p (xs & Hl & Hin). by destruct (Hd _ _ Hl).
  - split; [by intros l ?%Hno|intros ?; destruct Hnl; by left|intros ?; destruct Hnl; by right|done].
  - split; [|done|done]. intros (xs & Hl & Hin). by destruct (Hdr _ _ Hl).
Qed.

Lemma kinv_init_row h ths act tf g Q t fn :
  kinv h ths act tf g Q -> detached Q (TimerRow (ThreadTimer t)) -> ~ live (ths t) ->
  kinv (rt_list_init (TimerRow (ThreadTimer t)) h) ths (<[ThreadTimer t := false]> act)
    (<[ThreadTimer t := fn]> tf) g (<[TimerRow (ThreadTimer t) := []]> Q).
Proof.
  intros Hk Hd Hnl.
  assert (forall l, ~ member (<[TimerRow (ThreadTimer t) := []]> Q) l (TimerRow (ThreadTimer t))) as Hno.
  { intros l. rewrite member_insert. intros [[_ []%not_elem_of_nil]|[_ (xs & Hl & Hin)]].
    by destruct (Hd _ _ Hl). }
  assert (kinv h ths act (<[ThreadTimer t := fn]> tf) g Q) as Hk1.
  { destruct Hk as [K1 K2 K3 K4 K5 K6 K7 K8]. split; try done. intros x. destruct (K8 x) as [T1 T2 T3].
    split; [done| |done]. intros Hl. rewrite fn_insert_case. case_decide as E; [|by apply T2].
    injection E as <-. done. }
  eapply kinv_timer_move; [exact Hk1|apply Rep_init; [apply Hk|done]|apply same_but_init|by intros l ?%Hno|].
  - intros xs Hx. by eapply Hd.
  - intros x [= <-]. by split; [intros ?%Hno|..].
Qed.

(** The contents rt_thread_init gives to a thread. *)
Definition initialised (entry_ parameter_ stack_start size_ priority tick : Z) (th : rt_thread) : rt_thread :=
  mk_thread (rt_hw_stack_init (u32 (stack_start + u16 size_ - 4))) entry_ parameter_ stack_start (u16 size_)
    RT_EOK RT_THREAD_INIT priority priority (number_mask th) (event_set th) (event_info th)
    tick tick None 0.

(** The nodes of a thread that is in no list. *)
Definition unused Q t : Prop :=
  detached Q (TList t) /\ detached Q (TimerRow (ThreadTimer t)) /\
  detached Q (ObjNode (OThread t)) /\ detached Q (ObjNode (OTimer (ThreadTimer t))).

(** The lists after rt_thread_init. *)
Definition register (o : objid) Q : gmap node (list node) :=
  <[ObjHead (object_class o) := ObjNode o :: default [] (Q !! ObjHead (object_class o))]> (delete (ObjNode o) Q).
Definition init_lists t Q : gmap node (list node) :=
  <[TimerRow (ThreadTimer t) := []]> (register (OTimer (ThreadTimer t)) (<[TList t := []]> (register (OThread t) Q))).

Lemma detached_register Q o n :
  detached Q n -> n <> ObjNode o -> n <> ObjHead (object_class o) -> detached (register o Q) n.
Proof.
  unfold register. intros Hd Hn Hh l xs [[<- <-]|[Hne [? Hl]%lookup_delete_Some]]%lookup_insert_Some; [|by apply Hd].
  split; [|by intros <-]. intros [->|Hin]%elem_of_cons; [done|].
  destruct (Q !! ObjHead (object_class o)) as [ys|] eqn:E; simpl in Hin; [by destruct (Hd _ _ E)|].
  by apply not_elem_of_nil in Hin.
Qed.

Lemma containers_register Q o : containers Q -> containers (register o Q).
Proof.
  intros Hc c Hcc. unfold register. rewrite lookup_insert. case_decide; [eauto|].
  rewrite lookup_delete_ne by done. by apply Hc.
Qed.

Lemma detached_insert_nil Q n m : detached Q n -> n <> m -> detached (<[m := []]> Q) n.
Proof.
  intros Hd Hn l xs [[<- <-]|[Hne Hl]]%lookup_insert_Some; [|by apply Hd]. split; [apply not_elem_of_nil|done].
Qed.

(** Rounding up and down to multiples of 8 *)
Lemma RT_ALIGN_spec n : 0 <= n <= 2 ^ 32 - 8 -> n <= RT_ALIGN n 8 < n + 8 /\ (8 | RT_ALIGN n 8).
Proof.
  intros Hn. unfold RT_ALIGN. rewrite u32_small by lia. change (u32 (Z.lnot (8 - 1))) with (Z.ldiff (Z.ones 32) (Z.ones 3)).
  assert (Z.land (n + 8 - 1) (Z.ldiff (Z.ones 32) (Z.ones 3)) = 8 * ((n + 8 - 1) / 8)) as ->.
  { rewrite Z.ldiff_land, Z.land_assoc, Z.land_ones, Z.mod_small by lia. rewrite <- Z.ldiff_land, Z.ldiff_ones_r by lia.
    rewrite Z.shiftr_div_pow2, Z.shiftl_mul_pow2 by lia. change (2 ^ 3) with 8. lia. }
  split; [Z.to_euclidean_division_equations; lia|by eexists; rewrite Z.mul_comm].
Qed.

Lemma RT_ALIGN_DOWN_spec n : 0 <= n < 2 ^ 32 -> n - 8 < RT_ALIGN_DOWN n 8 <= n /\ 0 <= RT_ALIGN_DOWN n 8 /\ (8 | RT_ALIGN_DOWN n 8).
Proof.
  intros Hn. unfold RT_ALIGN_DOWN. rewrite u32_small by lia. change (u32 (Z.lnot (8 - 1))) with (Z.ldiff (Z.ones 32) (Z.ones 3)).
  assert (Z.land n (Z.ldiff (Z.ones 32) (Z.ones 3)) = 8 * (n / 8)) as ->.
  { rewrite Z.ldiff_land, Z.land_assoc, Z.land_ones, Z.mod_small by lia. rewrite <- Z.ldiff_land, Z.ldiff_ones_r by lia.
    rewrite Z.shiftr_div_pow2, Z.shiftl_mul_pow2 by lia. change (2 ^ 3) with 8. lia. }
  split_and!; [Z.to_euclidean_division_equations; lia..|by eexists; rewrite Z.mul_comm].
Qed.


(** The first stack pointer is inside the stack, which has room for a frame. *)
Lemma initialised_stack_ok e pa start size_ p tick th :
  0 <= start -> 76 <= size_ < 2 ^ 16 -> start + size_ < 2 ^ 32 ->
  stack_ok (initialised e pa start size_ p tick th).
Proof.
  intros H1 H2 H3. unfold stack_ok, initialised, rt_hw_stack_init, STACK_FRAME_SIZE. simpl.
  rewrite (u16_small size_) by lia. rewrite (u32_small (start + size_ - 4)) by lia.
  replace (start + size_ - 4 + 4) with (start + size_) by lia. rewrite (u32_small (start + size_)) by lia.
  destruct (RT_ALIGN_DOWN_spec (start + size_) ltac:(lia)) as [? _]. rewrite u32_small by lia. lia.
Qed.

Definition fresh_names t (nm : list Z) k (k' : kernel) : Prop :=
  (forall o, o <> OThread t -> o <> OTimer (ThreadTimer t) -> objects k' o = objects k o) /\
  name (objects k' (OThread t)) = rt_strncpy nm RT_NAME_MAX /\
  type (objects k' (OThread t)) = Z.lor RT_Object_Class_Thread RT_Object_Class_Static.

(** Two writes to fields of one struct are one. *)
Lemma wp_fuse_thread {A} t f g (m : K A) Phi k :
  wp (upd_thread t (fun th => g (f th)) ;! m) Phi k -> wp (upd_thread t f ;! upd_thread t g ;! m) Phi k.
Proof.
  intros H. unfold wp, upd_thread, bind, modify in *. simpl in *.
  rewrite fn_lookup_insert, fn_insert_insert'. exact H.
Qed.

Lemma wp_fuse_object {A} o f g (m : K A) Phi k :
  wp (upd_object o (fun ob => g (f ob)) ;! m) Phi k -> wp (upd_object o f ;! upd_object o g ;! m) Phi k.
Proof.
  intros H. unfold wp, upd_object, bind, modify in *. simpl in *.
  rewrite fn_lookup_insert, fn_insert_insert'. exact H.
Qed.

Lemma wp_fuse_timer {A} tm f g (m : K A) Phi k :
  wp (upd_timer tm (fun x => g (f x)) ;! m) Phi k -> wp (upd_timer tm f ;! upd_timer tm g ;! m) Phi k.
Proof.
  intros H. unfold wp, upd_timer, bind, modify in *. simpl in *.
  rewrite fn_lookup_insert, fn_insert_insert'. exact H.
Qed.

Lemma register_default Q o xs :
  Q !! ObjHead (object_class o) = Some xs ->
  <[ObjHead (object_class o) := ObjNode o :: xs]> (delete (ObjNode o) Q) = register o Q.
Proof. intros E. unfold register. by rewrite E. Qed.

Lemma thread_timer_init_spec act k Q t nm fn time fl :
  KIx act k Q -> containers Q -> ~ live (threads k t) ->
  detached Q (TimerRow (ThreadTimer t)) -> detached Q (ObjNode (OTimer (ThreadTimer t))) ->
  wp (rt_timer_init (ThreadTimer t) nm fn time fl) (fun _ k' =>
    KIx (<[ThreadTimer t := false]> act) k'
      (<[TimerRow (ThreadTimer t) := []]> (register (OTimer (ThreadTimer t)) Q)) /\
    threads k' = threads k /\ env k' = env k /\ cpu_part k' = cpu_part k /\
    timers k' = <[ThreadTimer t := mk_timer fn time 0]> (timers k) /\
    objects k' = <[OTimer (ThreadTimer t) := set_flag (clear_activated fl)
      (named nm (OTimer (ThreadTimer t)) (objects k (OTimer (ThreadTimer t))))]> (objects k)) k.
Proof.
  intros Hk Hc Hnl Hd1 Hd2. unfold rt_timer_init.
  wp_use (rt_object_init_spec act k Q (OTimer (ThreadTimer t)) nm); [done|done|done|].
  intros [] k1 (xs & h1 & Hxs & Hk1 & ->). rewrite (register_default _ _ _ Hxs) in Hk1.
  unfold _rt_timer_init, upd_flag, list_init. apply wp_fuse_object. repeat apply wp_fuse_timer.
  unfold upd_object, upd_timer. wp_step. apply wp_modify. wp_step. apply wp_modify.
  cbn [set_lists set_objects set_timers lists objects timers threads].
  split_and!; [|done|done|done|done|].
  - eapply kinv_init_row in Hk1; [|by apply detached_register|done].
    eapply ki_ext; [done|done| |exact Hk1]. intros tm. unfold timer_fn. simpl.
    rewrite !fn_insert_case. by case_decide.
  - simpl. by rewrite fn_lookup_insert, fn_insert_insert'.
Qed.

Lemma _rt_thread_init_spec act k Q t e pa start size_ p tick :
  KIx act k Q -> containers Q -> ~ live (threads k t) ->
  detached Q (TList t) -> detached Q (TimerRow (ThreadTimer t)) -> detached Q (ObjNode (OTimer (ThreadTimer t))) ->
  wp (_rt_thread_init t e pa start size_ p tick) (fun r k' => r = RT_EOK /\
    KIx (<[ThreadTimer t := false]> act) k'
      (<[TimerRow (ThreadTimer t) := []]> (register (OTimer (ThreadTimer t)) (<[TList t := []]> Q))) /\
    env k' = env k /\ cpu_part k' = cpu_part k /\
    threads k' = <[t := initialised e pa start size_ p tick (threads k t)]> (threads k) /\
    timers k' = <[ThreadTimer t := mk_timer (FN_rt_thread_timeout t) 0 0]> (timers k) /\
    exists ob, objects k' =
      <[OTimer (ThreadTimer t) := set_flag (clear_activated RT_TIMER_FLAG_ONE_SHOT) ob]> (objects k)) k.
Proof.
  intros Hk Hc Hnl Hd1 Hd2 Hd3. unfold _rt_thread_init, list_init. wp_step. apply wp_modify.
  repeat apply wp_fuse_thread. wp_step. apply wp_modify. wp_step. apply wp_get. cbn [threads set_lists set_objects].
  set (th := set_user_data 0 _).
  assert (th = initialised e pa start size_ p tick (threads k t)) as Eth by done. clearbody th. subst th.
  set (th := initialised _ _ _ _ _ _ _). set (k2 := set_threads _ _). set (nm2 := name _).
  apply (kinv_init_thread _ _ _ _ _ _ t th) in Hk; [|done..].
  set (Q2 := <[TList t := []]> _) in Hk.
  wp_use (thread_timer_init_spec act k2 Q2 t nm2); [exact Hk| | | | |].
  - intros c Hcc. subst Q2. rewrite lookup_insert_ne by done. by apply Hc.
  - subst k2. simpl. rewrite fn_lookup_insert. by apply not_live_init.
  - by apply detached_insert_nil.
  - by apply detached_insert_nil.
  - intros [] k3 (Hk3 & Eth & Ee & Ec & Etm & Eo). subst k2. simpl in Etm, Eo, Eth. wp_pure.
    split_and!; try done. rewrite Eo. eauto.
Qed.

Lemma activated_init (k k' : kernel) t ob :
  (forall tm, tm <> ThreadTimer t -> flag (objects k' (OTimer tm)) = flag (objects k (OTimer tm))) ->
  objects k' (OTimer (ThreadTimer t)) = set_flag (clear_activated RT_TIMER_FLAG_ONE_SHOT) ob ->
  activated k' = <[ThreadTimer t := false]> (activated k).
Proof.
  intros Hne Hob. apply functional_extensionality. intros tm. unfold activated. rewrite fn_insert_case.
  case_decide as E; [subst; rewrite Hob; apply clear_activated_bit|by rewrite Hne].
Qed.

Lemma rt_thread_init_spec k Q t nm e pa start size_ p tick :
  KI k Q -> containers Q -> ~ live (threads k t) -> unused Q t ->
  wp (rt_thread_init t nm e pa start size_ p tick) (fun r k' => r = RT_EOK /\
    KI k' (init_lists t Q) /\ env k' = env k /\ cpu_part k' = cpu_part k /\
    threads k' = <[t := initialised e pa start size_ p tick (threads k t)]> (threads k) /\
    (forall tm, tm <> ThreadTimer t -> timers k' tm = timers k tm) /\
    timer_fn k' (ThreadTimer t) = FN_rt_thread_timeout t /\
    activated k' = <[ThreadTimer t := false]> (activated k) /\
    fresh_names t nm k k') k.
Proof.
  intros Hk Hc Hnl (Hd1 & Hd2 & Hd3 & Hd4). unfold rt_thread_init.
  wp_use (rt_object_init_spec (activated k) k Q (OThread t) nm); [done|done|done|].
  intros [] k1 (xs & h1 & Hxs & Hk1 & ->).
  rewrite (register_default _ _ _ Hxs) in Hk1.
  wp_use (_rt_thread_init_spec (activated k) _ (register (OThread t) Q) t);
    [exact Hk1|by apply containers_register|done|by apply detached_register..|].
  intros r k3 (-> & Hk3 & Ee & Ec & Eth & Etm & ob & Eo). simpl in Eth, Etm, Eo.
  assert (activated k3 = <[ThreadTimer t := false]> (activated k)) as Ea.
  { apply (activated_init _ _ _ ob); [|by rewrite Eo, fn_lookup_insert].
    intros tm Hne. by rewrite Eo, !fn_lookup_insert_ne by congruence. }
  split_and!; try done.
  - unfold KI. rewrite Ea. exact Hk3.
  - intros tm Hne. rewrite Etm. by apply fn_lookup_insert_ne.
  - unfold timer_fn. by rewrite Etm, fn_lookup_insert.
  - split_and!.
    + intros o H1 H2. by rewrite Eo, !fn_lookup_insert_ne by congruence.
    + by rewrite Eo, fn_lookup_insert_ne, fn_lookup_insert.
    + by rewrite Eo, fn_lookup_insert_ne, fn_lookup_insert.
Qed.
End life.
