(* ===== verification/Ipc.v ===== *)
(** What the IPC objects share (src/ipc.c, first part): the list of threads
    waiting on an object, in order of arrival or of priority, and waking one or
    all of them. *)

From S2P Require Import Prelude RtList KState Ffs KInv Sched Object Timer Thread.

Open Scope Z_scope.

(** * Operations *)

(** How a call that may block ends: it returns, or it has suspended the calling
    thread; the rest of its code then runs when the thread is resumed. *)
Inductive call_result (A : Type) : Type :=
| Done (a : A)
| Blocked.
Arguments Done {A} a.
Arguments Blocked {A}.

(** rt_ipc_object_init *)
Definition rt_ipc_object_init (o : objid) : K Z := list_init (SuspHead o) ;! ret RT_EOK.

(** The loop of rt_ipc_list_suspend: the first waiting thread that is less
    urgent than [prio]. *)
Fixpoint less_urgent (ns : list node) (prio : Z) (k : kernel) : option (option nat) :=
  match ns with
  | [] => Some None
  | n :: ns' =>
      match thread_entry n with
      | None => None
      | Some s => if prio <? current_priority (threads k s) then Some (Some s)
                  else less_urgent ns' prio k
      end
  end.

(** rt_ipc_list_suspend *)
Definition rt_ipc_list_suspend (l : node) (t : nat) (fl : Z) : K Z :=
  rt_thread_suspend t ;!
  (if fl =? RT_IPC_FLAG_FIFO then list_insert_before l (TList t)
   else if fl =? RT_IPC_FLAG_PRIO then
     let! k := get in
     let! ns := of_option OutOfFuel (list_nodes l (lists k)) in
     let! s := of_option BadPointer (less_urgent ns (current_priority (threads k t)) k) in
     match s with
     | Some s => list_insert_before (TList s) (TList t)
     | None => list_insert_before l (TList t)
     end
   else ret tt) ;!
  ret RT_EOK.

(** rt_ipc_list_resume *)
Definition rt_ipc_list_resume (l : node) : K Z :=
  let! t := list_first_thread l in
  rt_thread_resume t ;!
  ret RT_EOK.

(** rt_ipc_list_resume_all; a list is no longer than the store has cells. *)
Fixpoint resume_all_loop (fuel : nat) (l : node) : K unit :=
  match fuel with
  | O => fail OutOfFuel
  | S fuel =>
      let! k := get in
      if list_isempty l k then ret tt
      else
        let! t := list_first_thread l in
        upd_thread t (set_error (- RT_ERROR)) ;!
        rt_thread_resume t ;!
        resume_all_loop fuel l
  end.

Definition rt_ipc_list_resume_all (l : node) : K Z :=
  let! k := get in
  resume_all_loop (S (size (lists k))) l ;!
  ret RT_EOK.

(** The end of a send or a receive: wake a thread that waits for the other. *)
Definition wake_other (l : node) : K unit :=
  let! k := get in
  if negb (list_isempty l k) then rt_ipc_list_resume l ;! rt_schedule else ret tt.

(** The timed wait every blocking call ends in: arm the timer of the thread if
    the time is positive, and call the scheduler. *)
Definition ipc_wait (t : nat) (time : Z) : K unit :=
  if time >? 0 then
    rt_timer_control (ThreadTimer t) (RT_TIMER_CTRL_SET_TIME time) ;!
    let! r := rt_timer_start (ThreadTimer t) in
    rt_schedule
  else rt_schedule.

(** * Specifications *)

Section specs.
Implicit Types (k : kernel) (Q : gmap node (list node)) (act : timer_id -> bool) (t : nat).

(** The threads waiting in a list, first to be woken first. *)
Definition waiters Q (l : node) (ts : list nat) : Prop := Q !! l = Some (TList <$> ts).

Lemma waiters_ex act k Q l :
  KIx act k Q -> wait_head l = true -> is_Some (Q !! l) -> exists ts, waiters Q l ts.
Proof.
  intros Hk Hw [xs Hl]. unfold waiters. setoid_rewrite Hl.
  assert (forall n, n ∈ xs -> exists t, n = TList t) as Hty.
  { intros n Hn. pose proof (ki_typed _ _ _ _ _ _ Hk l n ltac:(by exists xs)) as Hok.
    destruct n; simpl in Hok; try done; [eauto|by subst..]. }
  clear Hl. induction xs as [|x xs IH]; [by exists []|].
  destruct (Hty x) as [t ->]; [set_solver|]. destruct IH as [ts E]; [set_solver|].
  injection E as ->. by exists (t :: ts).
Qed.

Lemma waiter_suspended act k Q l ts t :
  KIx act k Q -> wait_head l = true -> waiters Q l ts -> t ∈ ts -> suspendedp (threads k t).
Proof.
  intros Hk Hw Hl Hin.
  destruct (pl_in _ _ _ (ki_placed _ _ _ _ _ _ Hk t) l) as [[_ ->]|[[? _]|[_ ->]]]; try done.
  exists (TList <$> ts). split; [done|]. by apply list_elem_of_fmap_2.
Qed.

Lemma ready_not_waiter act k Q l xs t :
  KIx act k Q -> wait_head l = true -> Q !! l = Some xs -> readyp (threads k t) -> TList t ∉ xs.
Proof.
  intros Hk Hw Hl Hr Hin.
  destruct (pl_in _ _ _ (ki_placed _ _ _ _ _ _ Hk t) l) as [[_ ->]|[[? _]|[_ ->]]]; try done.
  - by exists xs.
  - by destruct (ready_not_suspended (threads k t)).
Qed.

(** ** Queueing *)

Definition urgency k (n : node) : Z :=
  match n with TList s => current_priority (threads k s) | _ => 0 end.

(** Where thread [t] goes in a list [ys ++ zs] of flag [fl]. *)
Definition queue_slot k (fl : Z) t (ys zs : list node) : Prop :=
  fl = RT_IPC_FLAG_FIFO /\ zs = [] \/
  fl = RT_IPC_FLAG_PRIO /\
    Forall (fun n => urgency k n <= current_priority (threads k t)) ys /\
    match zs with [] => True | z :: _ => current_priority (threads k t) < urgency k z end.

Lemma less_urgent_spec k ts p :
  exists ys zs, TList <$> ts = ys ++ zs /\ Forall (fun n => urgency k n <= p) ys /\
    match zs with
    | [] => less_urgent (TList <$> ts) p k = Some None
    | z :: _ => exists s, z = TList s /\ p < urgency k z /\ less_urgent (TList <$> ts) p k = Some (Some s)
    end.
Proof.
  induction ts as [|t ts (ys & zs & E & Hy & Hz)]; [by exists [], []|].
  rewrite fmap_cons. cbn [less_urgent thread_entry].
  destruct (Z.ltb_spec p (current_priority (threads k t))) as [Hlt|Hge].
  - exists [], (TList t :: (TList <$> ts)). split_and!; [done|done|]. by exists t.
  - exists (TList t :: ys), zs. rewrite E. split_and!; [done|by apply Forall_cons|].
    rewrite <- E. done.
Qed.

(** The lists after thread [t] joined [l] between [ys] and [zs]. *)
Definition queued t (l : node) (ys zs : list node) Q : gmap node (list node) :=
  <[l := ys ++ TList t :: zs]> (delete (TList t) (unlink (TList t) Q)).

Lemma rt_ipc_list_suspend_spec act k Q l xs t fl :
  KIx act k Q -> readyp (threads k t) -> wait_head l = true -> Q !! l = Some xs ->
  fl = RT_IPC_FLAG_FIFO \/ fl = RT_IPC_FLAG_PRIO ->
  wp (rt_ipc_list_suspend l t fl) (fun r k' => r = RT_EOK /\ exists ys zs,
    xs = ys ++ zs /\ queue_slot k' fl t ys zs /\ KIx act k' (queued t l ys zs Q) /\
    threads k' = <[t := set_stat RT_THREAD_SUSPEND (threads k t)]> (threads k) /\
    env k' = env k /\ cpu_part k' = cpu_part k /\ timer_part k' = timer_part k) k.
Proof.
  intros Hk Hr Hw Hl Hfl. pose proof (ready_not_waiter _ _ _ _ _ _ Hk Hw Hl Hr) as Hni.
  unfold rt_ipc_list_suspend. wp_use (rt_thread_suspend_spec act k Q t); [done|done|].
  intros r k1 (_ & _ & Hk1 & Eth1 & Ee1 & Ec1 & Et1).
  assert (l <> TList t) as Hne by (by intros ->).
  assert (unlink (TList t) Q !! l = Some xs) as Hl1 by (apply (unlink_other (lists k)); [apply Hk|done..]).
  assert (suspendedp (threads k1 t)) as Hs1 by (by rewrite Eth1, fn_lookup_insert).
  assert (detached (unlink (TList t) Q) (TList t)) as Hd.
  { eapply ki_detached; [exact Hk1|apply not_node_ok_TList|apply unlink_TList_Some]. }
  assert (forall ys zs h, xs = ys ++ zs -> Rep h (queued t l ys zs Q) ->
    KIx act (set_lists h k1) (queued t l ys zs Q)) as Hjoin.
  { intros ys zs h -> Hrep. eapply kinv_join_wait; [exact Hk1|done|done|apply unlink_TList_Some|done|done]. }
  wp_step. destruct Hfl as [-> | ->]; simpl.
  - destruct (Rep_insert_before (lists k1) _ l xs (TList t) (ki_rep _ _ _ _ _ _ Hk1) Hl1 Hd)
      as (h & Hh & Hrep); [done|]. eapply wp_list_op; [done|]. wp_pure. split; [done|].
    exists xs, []. rewrite app_nil_r. split_and!; try done; [by left|]. by apply Hjoin; rewrite ?app_nil_r.
  - destruct (waiters_ex act k1 (unlink (TList t) Q) l) as [ts Hts]; [done|done|eauto|].
    unfold waiters in Hts. rewrite Hl1 in Hts. injection Hts as ->.
    wp_pure. eapply wp_of_option; [by eapply Rep_nodes; [apply Hk1|]|]. wp_step.
    destruct (less_urgent_spec k1 ts (current_priority (threads k1 t))) as (ys & zs & E & Hy & Hz).
    destruct zs as [|z zs].
    + eapply wp_of_option; [exact Hz|]. rewrite app_nil_r in E. rewrite E in *.
      destruct (Rep_insert_before (lists k1) _ l ys (TList t) (ki_rep _ _ _ _ _ _ Hk1) Hl1 Hd)
        as (h & Hh & Hrep); [done|]. eapply wp_list_op; [done|]. wp_pure. split; [done|].
      exists ys, []. rewrite app_nil_r. split_and!; try done; [by right|]. by apply Hjoin; rewrite ?app_nil_r.
    + destruct Hz as (s & -> & Hlt & Hz). eapply wp_of_option; [exact Hz|]. rewrite E in *.
      destruct (Rep_insert_before_mem (lists k1) _ l ys zs (TList s) (TList t)
        (ki_rep _ _ _ _ _ _ Hk1) Hl1 Hd) as (h & Hh & Hrep); [done|].
      eapply wp_list_op; [done|]. wp_pure. split; [done|].
      exists ys, (TList s :: zs). split_and!; try done; [by right|]. by apply Hjoin.
Qed.

(** ** Waking *)

Lemma filter_TList t (ts : list nat) :
  filter (fun m => m <> TList t) (TList <$> ts) = TList <$> (filter (fun s => s <> t) ts).
Proof.
  induction ts as [|s ts IH]; [done|]. rewrite fmap_cons, !filter_cons.
  repeat case_decide; rewrite ?fmap_cons, ?IH; congruence.
Qed.

Lemma filter_TimerRow tm (ts : list nat) :
  filter (fun m => m <> TimerRow tm) (TList <$> ts) = TList <$> ts.
Proof. apply filter_notin. by intros (? & ? & ?)%list_elem_of_fmap. Qed.

Lemma waiters_unlink_thread Q l ts t :
  wait_head l = true -> waiters Q l ts -> waiters (unlink (TList t) Q) l (filter (fun s => s <> t) ts).
Proof.
  unfold waiters. intros Hw Hl. rewrite lookup_unlink, decide_False by (by intros <-).
  rewrite Hl. simpl. by rewrite filter_TList.
Qed.

Lemma waiters_unlink_timer Q l ts tm :
  wait_head l = true -> waiters Q l ts -> waiters (unlink (TimerRow tm) Q) l ts.
Proof.
  unfold waiters. intros Hw Hl. rewrite lookup_unlink, decide_False by (by intros <-).
  rewrite Hl. simpl. by rewrite filter_TimerRow.
Qed.

Lemma waiters_woken Q l ts t p :
  wait_head l = true -> waiters Q l ts -> waiters (woken t p Q) l (filter (fun s => s <> t) ts).
Proof.
  intros Hw Hl. unfold woken, waiters. rewrite lookup_insert_ne, lookup_delete_ne by (by intros <-).
  by apply waiters_unlink_timer, waiters_unlink_thread.
Qed.

Lemma waiters_NoDup act k Q l ts : KIx act k Q -> waiters Q l ts -> NoDup ts.
Proof.
  intros Hk Hl. pose proof (Rep_NoDup _ _ _ _ (ki_rep _ _ _ _ _ _ Hk) Hl) as Hnd.
  by apply NoDup_fmap_1 in Hnd.
Qed.

Lemma filter_ne_notin t (ts : list nat) : t ∉ ts -> filter (fun s => s <> t) ts = ts.
Proof.
  induction ts as [|s ts IH]; [done|]. intros Hn. rewrite filter_cons_True by set_solver.
  f_equal. apply IH. set_solver.
Qed.

Lemma filter_ne_head t (ts : list nat) : NoDup (t :: ts) -> filter (fun s => s <> t) (t :: ts) = ts.
Proof.
  intros [Hn _]%NoDup_cons. rewrite filter_cons_False by (intros H; by apply H). by apply filter_ne_notin.
Qed.

Lemma filter_ne_middle t (ts1 ts2 : list nat) :
  t ∉ ts1 ++ ts2 -> filter (fun s => s <> t) (ts1 ++ t :: ts2) = ts1 ++ ts2.
Proof.
  intros Hn. rewrite filter_app, filter_cons_False by (intros H; by apply H).
  rewrite !filter_ne_notin by set_solver. done.
Qed.

Lemma KIx_ext act act' k Q : (forall tm, act' tm = act tm) -> KIx act k Q -> KIx act' k Q.
Proof. intros E Hk. by eapply ki_ext. Qed.

(** rt_thread_resume under the plain invariant. *)
Lemma rt_thread_resume_KI k Q t :
  KI k Q -> suspendedp (threads k t) ->
  wp (rt_thread_resume t) (fun r k' => r = RT_EOK /\
    KI k' (woken t (current_priority (threads k t)) Q) /\ timers k' = timers k /\
    threads k' = <[t := set_stat RT_THREAD_READY (threads k t)]> (threads k) /\
    env k' = env k /\ cpu_part k' = cpu_part k /\ same_objects k k') k.
Proof.
  intros Hk Hs. wp_use (rt_thread_resume_spec _ k Q t); [done|done|done|].
  intros r k' (-> & Hk' & Ea & ? & ? & ? & ? & ?). split_and!; try done.
  unfold KI. by rewrite Ea.
Qed.

(** Writing a field of a thread the invariant does not speak of. *)
Lemma KIx_upd_thread act k Q t th :
  core th = core (threads k t) -> KIx act k Q ->
  KIx act (set_threads (<[t := th]> (threads k)) k) Q.
Proof.
  intros E Hk. unfold KIx. simpl. eapply (ki_ext _ (threads k)); [|done|done|exact Hk].
  intros x. rewrite fn_insert_case. case_decide; by subst.
Qed.

(** Waking the first waiter. *)
Lemma rt_ipc_list_resume_spec k Q l t ts :
  KI k Q -> wait_head l = true -> waiters Q l (t :: ts) ->
  wp (rt_ipc_list_resume l) (fun r k' => r = RT_EOK /\
    KI k' (woken t (current_priority (threads k t)) Q) /\
    waiters (woken t (current_priority (threads k t)) Q) l ts /\ timers k' = timers k /\
    threads k' = <[t := set_stat RT_THREAD_READY (threads k t)]> (threads k) /\
    env k' = env k /\ cpu_part k' = cpu_part k /\ same_objects k k') k.
Proof.
  intros Hk Hw Hl. unfold rt_ipc_list_resume. wp_step.
  eapply wp_first_thread; [apply Hk|exact Hl|].
  assert (suspendedp (threads k t)) as Hs by (eapply waiter_suspended; [done..|set_solver]).
  wp_use (rt_thread_resume_KI k Q t); [done|done|].
  intros r k' (-> & ?). wp_pure. split; [done|]. split; [tauto|]. split; [|tauto].
  pose proof (waiters_NoDup _ _ _ _ _ Hk Hl) as Hnd.
  pose proof (waiters_woken Q l (t :: ts) t (current_priority (threads k t)) Hw Hl) as Hl2.
  by rewrite filter_ne_head in Hl2.
Qed.

(** The containers of objects keep their members. *)
Lemma woken_ObjHead act k Q t p c : KIx act k Q -> woken t p Q !! ObjHead c = Q !! ObjHead c.
Proof.
  intros Hk. unfold woken. rewrite lookup_insert_ne, lookup_delete_ne, !lookup_unlink, !decide_False by done.
  destruct (Q !! ObjHead c) as [xs|] eqn:E; [|done]. simpl.
  assert (forall n, n ∈ xs -> exists o, n = ObjNode o) as Hty.
  { intros n Hn. pose proof (ki_typed _ _ _ _ _ _ Hk (ObjHead c) n ltac:(by exists xs)) as Hok.
    destruct n; simpl in Hok; try done; [naive_solver|eauto]. }
  rewrite (filter_notin (TList t)), filter_notin; [done|..]; by intros [? ?]%Hty.
Qed.

(** Waking all of them, each with the error of an object that went away. *)
Definition woken_all (ts : list nat) k (k' : kernel) : Prop :=
  (forall t, t ∈ ts ->
    threads k' t = set_stat RT_THREAD_READY (set_error (- RT_ERROR) (threads k t))) /\
  (forall t, t ∉ ts -> threads k' t = threads k t) /\
  timers k' = timers k /\ env k' = env k /\ cpu_part k' = cpu_part k /\ same_objects k k'.

Lemma resume_all_loop_spec fuel k Q l ts :
  KI k Q -> wait_head l = true -> waiters Q l ts -> (length ts < fuel)%nat ->
  wp (resume_all_loop fuel l) (fun _ k' => woken_all ts k k' /\ exists Q', KI k' Q' /\ waiters Q' l [] /\
    (forall c, Q' !! ObjHead c = Q !! ObjHead c) /\ forall l' ts', wait_head l' = true -> l' <> l -> waiters Q l' ts' -> waiters Q' l' ts') k.
Proof.
  revert k Q ts. induction fuel as [|fuel IH]; intros k Q ts Hk Hw Hl Hf; [lia|].
  simpl. wp_pure. unfold list_isempty. rewrite (Rep_isempty _ _ _ _ (ki_rep _ _ _ _ _ _ Hk) Hl).
  pose proof (waiters_NoDup _ _ _ _ _ Hk Hl) as Hnd.
  destruct ts as [|t ts]; simpl.
  { apply wp_ret. split; [split_and!; [by intros t ?%not_elem_of_nil|done..]|]. eauto. }
  wp_step. eapply wp_first_thread; [apply Hk|exact Hl|].
  assert (suspendedp (threads k t)) as Hs by (eapply waiter_suspended; [done..|set_solver]).
  unfold upd_thread. wp_pure. set (k1 := set_threads _ k).
  assert (KI k1 Q) as Hk1 by (by apply KIx_upd_thread).
  assert (threads k1 t = set_error (- RT_ERROR) (threads k t)) as Et1 by apply fn_lookup_insert.
  wp_use (rt_thread_resume_KI k1 Q t); [done|by rewrite Et1|].
  intros r k2 (_ & Hk2 & Etm2 & Eth2 & Ee2 & Ec2 & Eo2). rewrite Et1 in *.
  pose proof (waiters_woken Q l (t :: ts) t (current_priority (threads k t)) Hw Hl) as Hl2.
  rewrite filter_ne_head in Hl2 by done. pose proof (proj1 (NoDup_cons _ _) Hnd) as [Hnt _].
  assert (threads k2 = <[t := set_stat RT_THREAD_READY (set_error (- RT_ERROR) (threads k t))]> (threads k))
    as Eth by (rewrite Eth2; apply fn_insert_insert').
  wp_use (IH k2 _ ts); [exact Hk2|done|exact Hl2|simpl in Hf; lia|].
  intros [] k3 ((H1 & H2 & H3 & H4 & H5 & H6) & Q3 & Hk3 & Hl3 & Hobj & Hoth). split.
  - split_and!; [| |by rewrite H3, Etm2|by rewrite H4, Ee2|by rewrite H5, Ec2|by eapply same_objects_trans].
    + intros x [->|Hx]%elem_of_cons.
      * by rewrite H2, Eth, fn_lookup_insert.
      * rewrite H1, Eth, fn_lookup_insert_ne by (done || congruence). done.
    + intros x [Hxt Hx]%not_elem_of_cons. rewrite H2, Eth, fn_lookup_insert_ne by congruence. done.
  - exists Q3. split_and!; [done|done|intros c; rewrite Hobj; by eapply woken_ObjHead|].
    intros l' ts' Hw' Hne Hl'. apply Hoth; [done|done|].
    rewrite <- (filter_ne_notin t ts'); [by apply waiters_woken|]. intros Hin.
    apply Hne. eapply (Rep_unique _ _ l' l _ _ (TList t)); [apply Hk|exact Hl'|exact Hl|..];
      apply list_elem_of_fmap_2; [done|set_solver].
Qed.

Lemma rt_ipc_list_resume_all_spec k Q l ts :
  KI k Q -> wait_head l = true -> waiters Q l ts ->
  wp (rt_ipc_list_resume_all l) (fun r k' => r = RT_EOK /\ woken_all ts k k' /\
    exists Q', KI k' Q' /\ waiters Q' l [] /\
    (forall c, Q' !! ObjHead c = Q !! ObjHead c) /\ forall l' ts', wait_head l' = true -> l' <> l -> waiters Q l' ts' -> waiters Q' l' ts') k.
Proof.
  intros Hk Hw Hl. unfold rt_ipc_list_resume_all. wp_pure.
  wp_use (resume_all_loop_spec _ k Q l ts); [done|done|done| |].
  - pose proof (Rep_length _ _ _ _ (ki_rep _ _ _ _ _ _ Hk) Hl) as Hlen. rewrite length_fmap in Hlen. lia.
  - intros [] k' ?. by apply wp_ret.
Qed.

(** ** Waiting *)

(** Thread [t] waits: its timer is running exactly if the time is positive, and
    another thread has the processor. *)
Definition waiting t (time : Z) k Q (k' : kernel) : Prop :=
  exists Q', KI k' Q' /\
    (forall l ts, wait_head l = true -> waiters Q l ts -> waiters Q' l ts) /\
    (0 < time -> member Q' TimerHead (TimerRow (ThreadTimer t)) /\
       timeout_tick (timers k' (ThreadTimer t)) = u32 (rt_tick k + time)) /\
    (time <= 0 -> ~ member Q' TimerHead (TimerRow (ThreadTimer t))) /\
    threads k' = threads k /\ env k' = env k /\ same_objects k k' /\
    (rt_scheduler_lock_nest k = 0 -> rt_current_thread k' <> Some t).

Lemma scheduled_frame k Q k' :
  scheduled k Q k' -> threads k' = threads k /\ env k' = env k /\ same_objects k k' /\
    timers k' = timers k /\ activated k' = activated k.
Proof.
  intros (_ & _ & -> & -> & Et & _). injection Et as Eo Etm _. unfold activated, same_objects.
  rewrite Eo, Etm. done.
Qed.

Lemma scheduled_KI k Q k' : KI k Q -> scheduled k Q k' -> KI k' Q.
Proof.
  intros Hk Hs. unfold KI. destruct (scheduled_frame _ _ _ Hs) as (_ & _ & _ & _ & ->).
  by eapply scheduled_KIx.
Qed.

(** The scheduler does not leave the processor to a suspended thread. *)
Lemma scheduled_not_suspended k Q k' t :
  KI k Q -> scheduled k Q k' -> rt_scheduler_lock_nest k = 0 -> suspendedp (threads k t) ->
  rt_current_thread k' <> Some t.
Proof.
  intros Hk (Hs & _) Hlock Hsu Hcur. rewrite decide_True in Hs by done.
  destruct Hs as (t' & p & (xs & Hq & _) & Hc & _). assert (t' = t) as -> by congruence.
  assert (member Q (ReadyHead p) (TList t)) as Hm by (exists (TList t :: xs); set_solver).
  destruct (pl_in _ _ _ (ki_placed _ _ _ _ _ _ Hk t) _ Hm) as [[? _]|[[_ ?]|[_ ?]]]; try done.
  by destruct (ready_not_suspended (threads k t)).
Qed.

Lemma waiters_armed act t tick k Q k' Q' l ts :
  armed act t tick k Q k' Q' -> wait_head l = true -> waiters Q l ts -> waiters Q' l ts.
Proof.
  intros ((ys & zs & Hq & _ & ->) & _) Hw Hl. unfold waiters.
  rewrite lookup_insert_ne, lookup_delete_ne by (by intros <-). done.
Qed.

Lemma ipc_wait_spec k Q t t0 time :
  KI k Q -> suspendedp (threads k t) -> activated k (ThreadTimer t) = false ->
  is_Some (Q !! TimerRow (ThreadTimer t)) -> readyp (threads k t0) ->
  wp (ipc_wait t time) (fun _ => waiting t time k Q) k.
Proof.
  intros Hk Hs Hoff Hrow Hr0. unfold ipc_wait. destruct (Z.gtb_spec time 0) as [Htime|Htime].
  - apply (wp_arm (activated k) _ Q); [done..|]. intros k1 Q1 Harm.
    pose proof Harm as ((ys & zs & Hq & _ & EQ) & Hk1 & Ea1 & Etm1 & Eth1 & Ee1 & Ec1 & Eo1).
    assert (KI k1 Q1) as HK1 by (unfold KI; by rewrite Ea1).
    assert (rt_scheduler_lock_nest k1 = rt_scheduler_lock_nest k) as Elk by (injection Ee1; done).
    wp_use (rt_schedule_spec _ k1 Q1 t0); [exact Hk1|by rewrite Eth1|].
    intros [] k2 Hsch. destruct (scheduled_frame _ _ _ Hsch) as (E1 & E2 & E3 & E4 & E5).
    exists Q1. split_and!.
    + by eapply scheduled_KI.
    + intros l ts. by eapply waiters_armed.
    + intros _. split; [|by rewrite E4, Etm1, fn_lookup_insert].
      exists (ys ++ TimerRow (ThreadTimer t) :: zs). rewrite EQ, lookup_insert_eq. set_solver.
    + lia.
    + congruence.
    + congruence.
    + by eapply same_objects_trans.
    + intros Hl. eapply (scheduled_not_suspended k1); [done|done|congruence|by rewrite Eth1].
  - wp_use (rt_schedule_spec _ k Q t0); [exact Hk|done|]. intros [] k1 Hsch.
    destruct (scheduled_frame _ _ _ Hsch) as (E1 & E2 & E3 & E4 & E5).
    exists Q. split_and!; try done.
    + by eapply scheduled_KI.
    + lia.
    + intros _. by eapply kinv_free_row.
    + intros Hl. by eapply (scheduled_not_suspended k).
Qed.

(** ** Blocking on a list *)

(** The waiting lists other than [l] are as before. *)
Definition others (l : node) Q Q' : Prop :=
  forall l' ts, wait_head l' = true -> l' <> l -> waiters Q l' ts -> waiters Q' l' ts.

Lemma others_trans l Q1 Q2 Q3 : others l Q1 Q2 -> others l Q2 Q3 -> others l Q1 Q3.
Proof. intros H1 H2 l' ts Hw Hne Hl. apply H2; [done|done|]. by apply H1. Qed.

Lemma others_woken act k Q l ts t p :
  KIx act k Q -> waiters Q l ts -> t ∈ ts -> others l Q (woken t p Q).
Proof.
  intros Hk Hl Hin l' ts' Hw Hne Hl'. rewrite <- (filter_ne_notin t ts'); [by apply waiters_woken|].
  intros Hin'. apply Hne. eapply (Rep_unique _ _ l' l _ _ (TList t)); [apply Hk|exact Hl'|exact Hl|..];
    by apply list_elem_of_fmap_2.
Qed.

Lemma waiters_queued_other act k Q l l' ts' ys zs t :
  KIx act k Q -> readyp (threads k t) -> wait_head l' = true -> l' <> l -> waiters Q l' ts' ->
  waiters (queued t l ys zs Q) l' ts'.
Proof.
  intros Hk Hr Hw Hne Hl'. unfold queued, waiters.
  rewrite lookup_insert_ne, lookup_delete_ne by (congruence || by intros <-).
  apply (unlink_other (lists k)); [apply Hk|exact Hl'| |by intros <-].
  by eapply ready_not_waiter.
Qed.

(** The order of a waiting list: of arrival, or of urgency. *)
Definition in_order k (fl : Z) t (ts1 ts2 : list nat) : Prop :=
  fl = RT_IPC_FLAG_FIFO /\ ts2 = [] \/
  fl = RT_IPC_FLAG_PRIO /\
    Forall (fun s => current_priority (threads k s) <= current_priority (threads k t)) ts1 /\
    match ts2 with [] => True | s :: _ => current_priority (threads k t) < current_priority (threads k s) end.

(** What a blocking call leaves: [t] is suspended in the list, after [ts1] and
    before [ts2]. *)
Definition blocked (l : node) t (fl time : Z) (ts1 ts2 : list nat) k Q (k' : kernel) : Prop :=
  in_order k fl t ts1 ts2 /\
  threads k' = <[t := set_stat RT_THREAD_SUSPEND (threads k t)]> (threads k) /\
  env k' = env k /\ same_objects k k' /\
  (rt_scheduler_lock_nest k = 0 -> rt_current_thread k' <> Some t) /\
  exists Q', KI k' Q' /\ waiters Q' l (ts1 ++ t :: ts2) /\ others l Q Q' /\
    (0 < time -> member Q' TimerHead (TimerRow (ThreadTimer t)) /\
       timeout_tick (timers k' (ThreadTimer t)) = u32 (rt_tick k + time)) /\
    (time <= 0 -> ~ member Q' TimerHead (TimerRow (ThreadTimer t))).

Lemma fmap_TList_app (ts : list nat) ys zs :
  TList <$> ts = ys ++ zs -> exists ts1 ts2, ts = ts1 ++ ts2 /\ ys = TList <$> ts1 /\ zs = TList <$> ts2.
Proof. intros (ts1 & ts2 & -> & -> & ->)%fmap_app_inv. by exists ts1, ts2. Qed.

Lemma queue_slot_in_order k k' fl t ts1 ts2 :
  (forall s, current_priority (threads k' s) = current_priority (threads k s)) ->
  queue_slot k' fl t (TList <$> ts1) (TList <$> ts2) -> in_order k fl t ts1 ts2.
Proof.
  intros E [[-> Hz]|(-> & Hy & Hz)].
  - left. split; [done|]. by apply fmap_nil_inv in Hz.
  - right. split_and!; [done| |].
    + rewrite Forall_fmap in Hy. eapply Forall_impl; [exact Hy|]. simpl. intros s. by rewrite !E.
    + destruct ts2; [done|]. simpl in Hz. by rewrite !E in Hz.
Qed.

Lemma wp_block {A} k Q l ts t t0 fl time (m : K A) Phi :
  KI k Q -> readyp (threads k t) -> wait_head l = true -> waiters Q l ts ->
  fl = RT_IPC_FLAG_FIFO \/ fl = RT_IPC_FLAG_PRIO -> t0 <> t -> readyp (threads k t0) ->
  (forall ts1 ts2 k', ts = ts1 ++ ts2 -> blocked l t fl time ts1 ts2 k Q k' -> wp m Phi k') ->
  wp (rt_ipc_list_suspend l t fl) (fun _ k' => wp (ipc_wait t time ;! m) Phi k') k.
Proof.
  intros Hk Hr Hw Hl Hfl Hne Hr0 Hm. destruct (ki_ready_timer _ _ _ _ _ _ _ Hk Hr) as [Hrow Hoff].
  wp_use (rt_ipc_list_suspend_spec _ k Q l _ t fl); [exact Hk|done|done|exact Hl|done|].
  intros r k1 (_ & ys & zs & (ts1 & ts2 & -> & -> & ->)%fmap_TList_app & Hslot & Hk1 & Eth1 & Ee1 & Ec1 & Et1).
  assert (activated k1 = activated k) as Ea1 by (injection Et1 as Eo _; unfold activated; by rewrite Eo).
  assert (same_objects k k1) as Eo1 by (injection Et1 as Eo _; unfold same_objects; by rewrite Eo).
  assert (rt_scheduler_lock_nest k1 = rt_scheduler_lock_nest k) as Elk by (injection Ee1; done).
  assert (rt_tick k1 = rt_tick k) as Etk by (injection Ee1; done).
  assert (KI k1 (queued t l (TList <$> ts1) (TList <$> ts2) Q)) as HK1 by (unfold KI; by rewrite Ea1).
  assert (waiters (queued t l (TList <$> ts1) (TList <$> ts2) Q) l (ts1 ++ t :: ts2)) as Hl1.
  { unfold waiters, queued. by rewrite lookup_insert_eq, fmap_app. }
  wp_use (ipc_wait_spec k1 _ t t0 time).
  - exact HK1.
  - by rewrite Eth1, fn_lookup_insert.
  - by rewrite Ea1.
  - unfold queued. rewrite lookup_insert_ne, lookup_delete_ne by (done || by intros ->).
    by apply unlink_is_Some.
  - by rewrite Eth1, fn_lookup_insert_ne.
  - intros [] k2 (Q2 & Hk2 & Hws & Hon & Hno & Eth2 & Ee2 & Eo2 & Hcur). eapply Hm; [done|].
    split_and!.
    + eapply queue_slot_in_order; [|exact Hslot]. intros x. rewrite Eth1, fn_insert_case. by case_decide; subst.
    + by rewrite Eth2.
    + by rewrite Ee2.
    + by eapply same_objects_trans.
    + intros Hlock. apply Hcur. by rewrite Elk.
    + exists Q2. rewrite <- Etk. split_and!; [done|by apply Hws| |done|done].
      intros l' ts' Hw' Hne' Hl'. apply Hws; [done|]. by eapply waiters_queued_other.
Qed.

(** ** Priority of a thread that may be waiting *)

Lemma change_priority_live k Q o p :
  KI k Q -> live (threads k o) -> 0 <= p < RT_THREAD_PRIORITY_MAX ->
  wp (rt_thread_control o (RT_THREAD_CTRL_CHANGE_PRIORITY p)) (fun r k' => r = RT_EOK /\ exists Q',
    KI k' Q' /\ (forall l ts, wait_head l = true -> waiters Q l ts -> waiters Q' l ts) /\
    threads k' = <[o := with_priority p (threads k o)]> (threads k) /\
    env k' = env k /\ cpu_part k' = cpu_part k /\ timer_part k' = timer_part k) k.
Proof.
  intros Hk [Hr|Hs] Hp.
  - wp_use (change_priority_ready _ k Q o p); [exact Hk|done|done|].
    intros r k' (-> & Hk' & Eth & Ee & Ec & Et). split; [done|].
    exists (made_ready o p Q). split_and!; try done.
    + unfold KI, activated. injection Et as -> _. exact Hk'.
    + intros l ts Hw Hl. unfold made_ready, waiters.
      rewrite lookup_insert_ne, lookup_delete_ne by (by intros <-).
      apply (unlink_other (lists k)); [apply Hk|exact Hl|eapply (ready_not_waiter _ k Q l); done|by intros <-].
  - wp_use (change_priority_suspended _ k Q o p); [exact Hk|done|done|].
    intros r k' (-> & Hk' & Eth & _ & Ee & Ec & Et). split; [done|].
    exists Q. split_and!; try done. unfold KI, activated. injection Et as -> _. exact Hk'.
Qed.

(** ** Waking the other side *)

(** The first waiting thread, if any, becomes ready. *)
Definition wake_first (ts : list nat) (ths : nat -> rt_thread) : nat -> rt_thread :=
  match ts with [] => ths | t :: _ => <[t := set_stat RT_THREAD_READY (ths t)]> ths end.

(** After waking one of [ts] the most urgent ready thread runs; a locked scheduler leaves the
    running thread alone. *)
Definition preempts (ts : list nat) k k' : Prop :=
  (ts <> [] -> rt_scheduler_lock_nest k = 0 -> exists t, rt_current_thread k' = Some t /\ readyp (threads k' t) /\
    forall s, readyp (threads k' s) -> current_priority (threads k' t) <= current_priority (threads k' s)) /\
  (rt_scheduler_lock_nest k <> 0 -> rt_current_thread k' = rt_current_thread k).

Lemma wake_other_spec k Q l ts :
  KI k Q -> wait_head l = true -> waiters Q l ts ->
  wp (wake_other l) (fun _ k' => exists Q', KI k' Q' /\ waiters Q' l (tail ts) /\ others l Q Q' /\
    threads k' = wake_first ts (threads k) /\ env k' = env k /\ same_objects k k' /\ preempts ts k k') k.
Proof.
  intros Hk Hw Hl. unfold wake_other. wp_pure. unfold list_isempty.
  rewrite (Rep_isempty _ _ _ _ (ki_rep _ _ _ _ _ _ Hk) Hl). destruct ts as [|t ts]; simpl.
  - wp_pure. exists Q. split_and!; try done. by intros l' ts'.
  - wp_use (rt_ipc_list_resume_spec k Q l t ts); [done|done|done|].
    intros r k1 (_ & Hk1 & Hl1 & Etm & Eth & Ee & Ec & Eo).
    wp_use (rt_schedule_spec _ k1 _ t); [exact Hk1|by rewrite Eth, fn_lookup_insert|].
    intros [] k2 Hsch. destruct (scheduled_frame _ _ _ Hsch) as (E1 & E2 & E3 & _).
    eexists. split_and!; [by eapply scheduled_KI|exact Hl1| |by rewrite E1|by rewrite E2|by eapply same_objects_trans|].
    + eapply others_woken; [exact Hk|exact Hl|set_solver].
    + assert (rt_scheduler_lock_nest k1 = rt_scheduler_lock_nest k) as En by (unfold env, nest_part in Ee; by injection Ee).
      split; intros Hlock.
      * intros Hl0. destruct (scheduled_most_urgent _ k1 _ k2 Hk1 Hsch) as (s & xs & H1 & H2 & _ & H3 & _); [by rewrite En|by exists s].
      * destruct Hsch as [Hsch _]. rewrite En, decide_False in Hsch by done. subst k2. by injection Ec.
Qed.
End specs.
