(* ===== verification/Sem.v ===== *)
(** Semaphores (src/ipc.c): the operations, the abstract semaphore they
    implement, and the invariants of its histories. *)

From S2P Require Import Prelude RtList KState Ffs KInv Sched Object Timer Thread Ipc.

Open Scope Z_scope.

(** * Operations *)

Definition upd_sem (s : nat) (v : Z) : K unit :=
  modify (fun k => set_sem_value (<[s := v]> (sem_value k)) k).

(** rt_sem_init; [value] is an [rt_uint16_t]. *)
Definition rt_sem_init (s : nat) (nm : list Z) (value fl : Z) : K Z :=
  rt_object_init (OSemaphore s) nm ;!
  rt_ipc_object_init (OSemaphore s) ;!
  upd_sem s (u16 value) ;!
  upd_object (OSemaphore s) (set_flag fl) ;!
  ret RT_EOK.

(** rt_sem_detach *)
Definition rt_sem_detach (s : nat) : K Z :=
  rt_ipc_list_resume_all (SuspHead (OSemaphore s)) ;!
  rt_object_detach (OSemaphore s) ;!
  ret RT_EOK.

(** rt_sem_take, up to the call of rt_schedule; [time] is an [rt_int32_t]. *)
Definition rt_sem_take (s : nat) (time : Z) : K (call_result Z) :=
  let! k := get in
  if sem_value k s >? 0 then
    upd_sem s (u16 (sem_value k s - 1)) ;!
    ret (Done RT_EOK)
  else if time =? 0 then ret (Done (- RT_ETIMEOUT))
  else
    let! t := of_option NullDeref (rt_thread_self k) in
    upd_thread t (set_error RT_EOK) ;!
    rt_ipc_list_suspend (SuspHead (OSemaphore s)) t (flag (objects k (OSemaphore s))) ;!
    ipc_wait t time ;!
    ret Blocked.

(** The rest of rt_sem_take, when the thread runs again. *)
Definition rt_sem_take_wakeup (t : nat) (k : kernel) : Z :=
  if negb (error (threads k t) =? RT_EOK) then error (threads k t) else RT_EOK.

(** rt_sem_trytake *)
Definition rt_sem_trytake (s : nat) : K (call_result Z) := rt_sem_take s 0.

(** rt_sem_release *)
Definition rt_sem_release (s : nat) : K Z :=
  let! k := get in
  let! need_schedule :=
    (if negb (list_isempty (SuspHead (OSemaphore s)) k) then
       rt_ipc_list_resume (SuspHead (OSemaphore s)) ;! ret true
     else
       upd_sem s (u16 (sem_value k s + 1)) ;! ret false) in
  (if need_schedule : bool then rt_schedule else ret tt) ;!
  ret RT_EOK.

(** rt_sem_control *)
Definition rt_sem_control (s : nat) (cmd arg : Z) : K Z :=
  if cmd =? RT_IPC_CMD_RESET then
    rt_ipc_list_resume_all (SuspHead (OSemaphore s)) ;!
    upd_sem s (u16 (u32 arg)) ;!
    rt_schedule ;!
    ret RT_EOK
  else ret (- RT_ERROR).

(** * The abstract semaphore *)

Record sem_state : Type := mk_sem { value : Z; queue : list nat }.

Inductive sem_event : Type :=
| TakeOk                       (* a take that returns at once with the semaphore *)
| TakeTimeout                  (* a take with no time to wait *)
| TakeBlock (t : nat)          (* thread [t] starts to wait *)
| Wake (t : nat)               (* a release that hands the semaphore to [t] *)
| Increment                    (* a release nobody waits for *)
| Leave (t : nat).             (* thread [t] stops waiting: its time is over *)

Inductive sem_step : sem_state -> sem_event -> sem_state -> Prop :=
| step_take_ok v q : 0 < v -> sem_step (mk_sem v q) TakeOk (mk_sem (v - 1) q)
| step_take_timeout q : sem_step (mk_sem 0 q) TakeTimeout (mk_sem 0 q)
| step_take_block q1 q2 t : t ∉ q1 ++ q2 ->
    sem_step (mk_sem 0 (q1 ++ q2)) (TakeBlock t) (mk_sem 0 (q1 ++ t :: q2))
| step_wake v t q : sem_step (mk_sem v (t :: q)) (Wake t) (mk_sem v q)
| step_increment v : v < 65535 -> sem_step (mk_sem v []) Increment (mk_sem (v + 1) [])
| step_leave v q1 q2 t : sem_step (mk_sem v (q1 ++ t :: q2)) (Leave t) (mk_sem v (q1 ++ q2)).

Inductive sem_run : sem_state -> list sem_event -> sem_state -> Prop :=
| run_nil s : sem_run s [] s
| run_step s1 e s2 es s3 : sem_step s1 e s2 -> sem_run s2 es s3 -> sem_run s1 (e :: es) s3.

(** No thread waits while the semaphore is available. *)
Definition sem_inv (s : sem_state) : Prop :=
  0 <= value s <= 65535 /\ NoDup (queue s) /\ (value s = 0 \/ queue s = []).

Lemma sem_step_inv s e s' : sem_step s e s' -> sem_inv s -> sem_inv s'.
Proof.
  unfold sem_inv. destruct 1; simpl; intros (Hr & Hnd & Hv).
  - split_and!; [lia|lia|done|]. destruct Hv; [lia|by right].
  - done.
  - split_and!; [lia|lia| |by left]. by apply NoDup_insert_middle.
  - apply NoDup_cons in Hnd as [_ Hnd]. split_and!; [lia|lia|done|]. left. by destruct Hv.
  - split_and!; [lia|lia|done|by right].
  - apply NoDup_delete_middle in Hnd as [Hnd _]. split_and!; [lia|lia|done|]. left.
    destruct Hv as [?|Hq]; [done|]. by destruct q1.
Qed.

(** Grants and releases of a history. *)
Definition granted (e : sem_event) : Z := match e with TakeOk | Wake _ => 1 | _ => 0 end.
Definition released (e : sem_event) : Z := match e with Wake _ | Increment => 1 | _ => 0 end.
Definition total (f : sem_event -> Z) (es : list sem_event) : Z := foldr (fun e n => f e + n) 0 es.

Lemma sem_run_inv s es s' : sem_run s es s' -> sem_inv s -> sem_inv s'.
Proof. induction 1; [done|]. intros Hi. by eapply IHsem_run, sem_step_inv. Qed.

Lemma sem_step_balance s e s' :
  sem_step s e s' -> value s + released e = value s' + granted e.
Proof. destruct 1; simpl; lia. Qed.

Lemma sem_run_balance s es s' :
  sem_run s es s' -> value s + total released es = value s' + total granted es.
Proof.
  induction 1 as [|s1 e s2 es s3 Hs _ IH]; simpl; [lia|].
  apply sem_step_balance in Hs. lia.
Qed.

(** * The kernel implements the abstract semaphore *)

Section refinement.
Implicit Types (k : kernel) (Q : gmap node (list node)) (s t : nat).

(** The semaphore [s] of the kernel is in the abstract state [a]. *)
Record sem_rep k Q s (a : sem_state) : Prop := {
  sr_value : sem_value k s = value a;
  sr_queue : waiters Q (SuspHead (OSemaphore s)) (queue a);
  sr_flag : flag (objects k (OSemaphore s)) = RT_IPC_FLAG_FIFO \/
            flag (objects k (OSemaphore s)) = RT_IPC_FLAG_PRIO;
  sr_inv : sem_inv a }.

(** Everything but the semaphore, the threads and the lists. *)
Definition only_sem s k k' : Prop :=
  (forall s', s' <> s -> sem_value k' s' = sem_value k s') /\
  mutexes k' = mutexes k /\ event_sets k' = event_sets k /\ mailboxes k' = mailboxes k /\
  mqs k' = mqs k /\ nest_part k' = nest_part k /\ same_objects k k'.

(** C12: rt_sem_take is a step of the abstract semaphore in every case: it takes a unit, times
    out at once when no wait is allowed, or queues the caller and suspends it; the kernel
    invariant and all other objects are kept. *)
Theorem rt_sem_take_refines k Q s a t t0 time :
  KI k Q -> sem_rep k Q s a -> rt_current_thread k = Some t -> readyp (threads k t) ->
  t0 <> t -> readyp (threads k t0) ->
  wp (rt_sem_take s time) (fun r k' => exists e a' Q',
    sem_step a e a' /\ KI k' Q' /\ sem_rep k' Q' s a' /\ others (SuspHead (OSemaphore s)) Q Q' /\
    only_sem s k k' /\
    match r with
    | Done z => z = RT_EOK /\ e = TakeOk \/ z = - RT_ETIMEOUT /\ e = TakeTimeout /\ time = 0
    | Blocked => e = TakeBlock t /\ time <> 0 /\ suspendedp (threads k' t) /\
                 error (threads k' t) = RT_EOK
    end) k.
Proof.
  intros Hk [Hv Hq Hfl Hinv] Hcur Hr Hne Hr0. pose proof Hinv as (Hrange & Hnd & _).
  unfold rt_sem_take. wp_pure. rewrite Hv. destruct a as [v q]. simpl in *.
  destruct (Z.gtb_spec v 0) as [Hpos|Hz].
  { unfold upd_sem. wp_pure. rewrite u16_small by lia.
    assert (sem_step (mk_sem v q) TakeOk (mk_sem (v - 1) q)) as Hst by (constructor; lia).
    exists TakeOk, (mk_sem (v - 1) q), Q. split_and!; try done.
    - split; simpl; try done; [apply fn_lookup_insert|]. by eapply sem_step_inv.
    - by intros l' ts'.
    - split; [|done]. intros s' Hs. simpl. by apply fn_lookup_insert_ne.
    - by left. }
  assert (v = 0) as -> by lia. destruct (Z.eqb_spec time 0) as [->|Ht].
  { apply wp_ret. exists TakeTimeout, (mk_sem 0 q), Q. split_and!; try done; [constructor|by intros l' ts'|].
    by right. }
  unfold upd_thread. wp_step. eapply wp_of_option; [exact Hcur|]. wp_pure.
  set (k1 := set_threads _ k).
  assert (KI k1 Q) as Hk1 by (by apply KIx_upd_thread).
  assert (readyp (threads k1 t)) as Hr1 by (subst k1; simpl; by rewrite fn_lookup_insert).
  assert (t ∉ q) as Hnq.
  { intros Hin. eapply ready_not_suspended; [exact Hr|]. eapply (waiter_suspended _ k Q (SuspHead (OSemaphore s)) q); done. }
  apply (wp_block k1 Q _ q t t0); [done|done|done|done|done|done| |].
  { subst k1. simpl. by rewrite fn_lookup_insert_ne. }
  intros q1 q2 k2 -> (_ & Eth & Ee & Eo & _ & Q2 & Hk2 & Hl2 & Hoth & _).
  injection Ee as Es Em Eev Emb Emq Enl Eni Etk.
  apply wp_ret. exists (TakeBlock t), (mk_sem 0 (q1 ++ t :: q2)), Q2.
  assert (sem_step (mk_sem 0 (q1 ++ q2)) (TakeBlock t) (mk_sem 0 (q1 ++ t :: q2))) as Hst by by constructor.
  split_and!; try done.
  - split; simpl; [by rewrite Es|done|by rewrite Eo|]. by eapply sem_step_inv.
  - split_and!; try done; [by rewrite Es|]. unfold nest_part. by rewrite Enl, Eni, Etk.
  - by rewrite Eth, fn_lookup_insert.
  - rewrite Eth, fn_lookup_insert. subst k1. simpl. by rewrite fn_lookup_insert.
Qed.

(** C13: rt_sem_release hands the unit to the first waiter, which becomes ready, or, when
    nobody waits, increments the value: a step of the abstract semaphore. The one exception is
    stated too: nothing tests the 16-bit value, so that a release at 65535 with nobody waiting
    makes it 0 and all units are lost. *)
Theorem rt_sem_release_refines k Q s a t0 :
  KI k Q -> sem_rep k Q s a -> readyp (threads k t0) ->
  wp (rt_sem_release s) (fun r k' => r = RT_EOK /\ exists a' Q',
    KI k' Q' /\ sem_rep k' Q' s a' /\ others (SuspHead (OSemaphore s)) Q Q' /\
    only_sem s k k' /\
    match queue a with
    | [] => threads k' = threads k /\
            if decide (value a = 65535) then a' = mk_sem 0 [] else sem_step a Increment a'
    | t :: _ => sem_step a (Wake t) a' /\
                threads k' = <[t := set_stat RT_THREAD_READY (threads k t)]> (threads k)
    end) k.
Proof.
  intros Hk [Hv Hq Hfl Hinv] Hr0. pose proof Hinv as (Hrange & Hnd & _).
  unfold rt_sem_release. wp_pure. unfold list_isempty.
  rewrite (Rep_isempty _ _ _ _ (ki_rep _ _ _ _ _ _ Hk) Hq).
  destruct a as [v q]. simpl in *. destruct q as [|t q]; simpl.
  - unfold upd_sem. wp_pure. rewrite Hv. split; [done|].
    exists (mk_sem (u16 (v + 1)) []), Q. split_and!; try done.
    + pose proof (u16_range (v + 1)). split; simpl; try done; [apply fn_lookup_insert|].
      split_and!; simpl; [lia|lia|constructor|by right].
    + by intros l' ts'.
    + split; [|done]. intros s' Hs. simpl. by apply fn_lookup_insert_ne.
    + case_decide as Hmax; [by rewrite Hmax|]. rewrite u16_small by lia. constructor. lia.
  - wp_step. wp_use (rt_ipc_list_resume_spec k Q _ t q); [done|done|done|].
    intros r k1 (_ & Hk1 & Hl1 & Etm & Eth & Ee & Ec & Eo). wp_pure.
    wp_use (rt_schedule_spec _ k1 _ t); [exact Hk1|by rewrite Eth, fn_lookup_insert|].
    intros [] k2 Hsch. destruct (scheduled_frame _ _ _ Hsch) as (E1 & E2 & E3 & _). rewrite Ee in E2.
    injection E2 as Es Em Eev Emb Emq Enl Eni Etk.
    wp_pure. split; [done|].
    assert (sem_step (mk_sem v (t :: q)) (Wake t) (mk_sem v q)) as Hst by by constructor.
    assert (same_objects k k2) as Eo2 by (by eapply same_objects_trans).
    eexists (mk_sem v q), _. split_and!; try done.
    + by eapply scheduled_KI.
    + split; simpl; [by rewrite Es|done|by rewrite Eo2|]. by eapply sem_step_inv.
    + eapply others_woken; [exact Hk|exact Hq|set_solver].
    + split_and!; try done; [by rewrite Es|]. unfold nest_part. by rewrite Enl, Eni, Etk.
    + by rewrite E1.
Qed.

(** ** Reset, detach and creation *)

(** What a reset or a detach does to the waiting threads, and what their calls
    then return. *)
Lemma woken_all_wakeup ts k k' t :
  woken_all ts k k' -> t ∈ ts -> readyp (threads k' t) /\ rt_sem_take_wakeup t k' = - RT_ERROR.
Proof.
  intros (Hin & _) Ht. unfold rt_sem_take_wakeup. by rewrite (Hin t Ht).
Qed.

(** rt_sem_control with RT_IPC_CMD_RESET wakes every waiter with -RT_ERROR in order and
    sets the value. *)
Theorem rt_sem_control_reset k Q s a arg t0 :
  KI k Q -> sem_rep k Q s a -> readyp (threads k t0) ->
  wp (rt_sem_control s RT_IPC_CMD_RESET arg) (fun r k' => r = RT_EOK /\ exists Q',
    KI k' Q' /\ sem_rep k' Q' s (mk_sem (u16 arg) []) /\ others (SuspHead (OSemaphore s)) Q Q' /\
    only_sem s k k' /\
    (forall t, t ∈ queue a -> readyp (threads k' t) /\ rt_sem_take_wakeup t k' = - RT_ERROR) /\
    (forall t, t ∉ queue a -> threads k' t = threads k t)) k.
Proof.
  intros Hk [Hv Hq Hfl Hinv] Hr0. unfold rt_sem_control. simpl.
  wp_use (rt_ipc_list_resume_all_spec k Q _ (queue a)); [done|done|done|].
  intros r k1 (_ & Hall & Q1 & Hk1 & Hl1 & _ & Hoth). pose proof Hall as (_ & Hout & Etm & Ee & Ec & Eo).
  unfold upd_sem. wp_pure. set (k2 := set_sem_value _ k1).
  assert (u16 (u32 arg) = u16 arg) as Eu.
  { unfold u16, u32. rewrite <- Znumtheory.Zmod_div_mod; [done|lia|lia|]. by exists (2 ^ 16). }
  wp_use (rt_schedule_spec _ k2 Q1 t0); [exact Hk1| |].
  { subst k2. simpl. destruct (decide (t0 ∈ queue a)) as [Hin|Hni].
    - by apply (woken_all_wakeup _ _ _ _ Hall).
    - by rewrite Hout. }
  intros [] k3 Hsch. destruct (scheduled_frame _ _ _ Hsch) as (E1 & E2 & E3 & _).
  injection Ee as Es Em Eev Emb Emq Enl Eni Etk. injection E2 as Fs Fm Fev Fmb Fmq Fnl Fni Ftk.
  wp_pure. split; [done|]. exists Q1.
  assert (same_objects k k3) as Eo3 by (by eapply same_objects_trans; [exact Eo|]).
  split_and!.
  - by apply (scheduled_KI k2 Q1).
  - split; simpl.
    + rewrite Fs, <- Eu. apply fn_lookup_insert.
    + done.
    + by rewrite Eo3.
    + pose proof (u16_range arg). split_and!; simpl; [lia|lia|constructor|by right].
  - done.
  - split_and!; [|by rewrite Fm|by rewrite Fev|by rewrite Fmb|by rewrite Fmq| |done].
    2: { unfold nest_part. rewrite Fnl, Fni, Ftk. simpl. by rewrite Enl, Eni, Etk. }
    intros s' Hs. rewrite Fs. simpl. rewrite fn_lookup_insert_ne by done. by rewrite Es.
  - intros t Ht. unfold rt_sem_take_wakeup. rewrite E1. by apply (woken_all_wakeup (queue a) k k1).
  - intros t Ht. rewrite E1. by apply Hout.
Qed.

(** A command other than reset is refused and changes nothing. *)
Lemma rt_sem_control_other k s cmd arg :
  cmd <> RT_IPC_CMD_RESET -> rt_sem_control s cmd arg k = Ret (- RT_ERROR) k.
Proof. intros Hc. unfold rt_sem_control. by rewrite (proj2 (Z.eqb_neq _ _)). Qed.
End refinement.
