(* ===== verification/Mutex.v ===== *)
(** Mutexes (src/ipc.c): recursive locks with an owner and priority inheritance. *)

From S2P Require Import Prelude RtList KState Ffs KInv Sched Object Timer Thread Ipc.

Open Scope Z_scope.

(** * Operations *)

Definition upd_mutex (m : nat) (f : rt_mutex -> rt_mutex) : K unit :=
  modify (fun k => set_mutexes (<[m := f (mutexes k m)]> (mutexes k)) k).

(** rt_mutex_init *)
Definition rt_mutex_init (m : nat) (nm : list Z) (fl : Z) : K Z :=
  rt_object_init (OMutex m) nm ;!
  rt_ipc_object_init (OMutex m) ;!
  upd_mutex m (set_mutex_value 1) ;!
  upd_mutex m (set_owner None) ;!
  upd_mutex m (set_original_priority 0xFF) ;!
  upd_mutex m (set_hold 0) ;!
  upd_object (OMutex m) (set_flag fl) ;!
  ret RT_EOK.

(** rt_mutex_detach *)
Definition rt_mutex_detach (m : nat) : K Z :=
  rt_ipc_list_resume_all (SuspHead (OMutex m)) ;!
  rt_object_detach (OMutex m) ;!
  ret RT_EOK.

(** rt_mutex_take, up to the call of rt_schedule. *)
Definition rt_mutex_take (m : nat) (time : Z) : K (call_result Z) :=
  let! k := get in
  let! t := of_option NullDeref (rt_thread_self k) in
  upd_thread t (set_error RT_EOK) ;!
  if decide (owner (mutexes k m) = Some t) then
    upd_mutex m (fun mu => set_hold (u8 (hold mu + 1)) mu) ;!
    ret (Done RT_EOK)
  else if mutex_value (mutexes k m) >? 0 then
    upd_mutex m (fun mu => set_mutex_value (u16 (mutex_value mu - 1)) mu) ;!
    upd_mutex m (set_owner (Some t)) ;!
    let! k := get in
    upd_mutex m (set_original_priority (current_priority (threads k t))) ;!
    upd_mutex m (fun mu => set_hold (u8 (hold mu + 1)) mu) ;!
    ret (Done RT_EOK)
  else if time =? 0 then
    upd_thread t (set_error (- RT_ETIMEOUT)) ;!
    ret (Done (- RT_ETIMEOUT))
  else
    let! o := of_option NullDeref (owner (mutexes k m)) in
    (if current_priority (threads k t) <? current_priority (threads k o) then
       rt_thread_control o (RT_THREAD_CTRL_CHANGE_PRIORITY (current_priority (threads k t))) ;! ret tt
     else ret tt) ;!
    rt_ipc_list_suspend (SuspHead (OMutex m)) t (flag (objects k (OMutex m))) ;!
    ipc_wait t time ;!
    ret Blocked.

(** The rest of rt_mutex_take, when the thread runs again. *)
Definition rt_mutex_take_wakeup (t : nat) (k : kernel) : Z :=
  if negb (error (threads k t) =? RT_EOK) then error (threads k t) else RT_EOK.

(** rt_mutex_release *)
Definition rt_mutex_release (m : nat) : K Z :=
  let! k := get in
  let! t := of_option NullDeref (rt_thread_self k) in
  if negb (bool_decide (owner (mutexes k m) = Some t)) then
    upd_thread t (set_error (- RT_ERROR)) ;!
    ret (- RT_ERROR)
  else
    upd_mutex m (fun mu => set_hold (u8 (hold mu - 1)) mu) ;!
    let! k := get in
    let! need_schedule :=
      (if hold (mutexes k m) =? 0 then
        (if negb (original_priority (mutexes k m) =? current_priority (threads k t)) then
           rt_thread_control t (RT_THREAD_CTRL_CHANGE_PRIORITY (original_priority (mutexes k m))) ;! ret tt
         else ret tt) ;!
        let! k := get in
        if negb (list_isempty (SuspHead (OMutex m)) k) then
          let! t' := list_first_thread (SuspHead (OMutex m)) in
          upd_mutex m (set_owner (Some t')) ;!
          upd_mutex m (set_original_priority (current_priority (threads k t'))) ;!
          upd_mutex m (fun mu => set_hold (u8 (hold mu + 1)) mu) ;!
          rt_ipc_list_resume (SuspHead (OMutex m)) ;!
          ret true
        else
          upd_mutex m (fun mu => set_mutex_value (u16 (mutex_value mu + 1)) mu) ;!
          upd_mutex m (set_owner None) ;!
          upd_mutex m (set_original_priority 0xff) ;!
          ret false
      else ret false) in
    (if need_schedule : bool then rt_schedule else ret tt) ;!
    ret RT_EOK.

(** rt_mutex_control *)
Definition rt_mutex_control (m : nat) (cmd arg : Z) : K Z := ret (- RT_ERROR).

(** * The invariant of a mutex

    Free, or held at least once by a live thread that does not wait for it. *)

Section invariant.
Implicit Types (k : kernel) (Q : gmap node (list node)) (m t o : nat).

Definition mutex_free (mu : rt_mutex) (ts : list nat) : Prop :=
  mu = mk_mutex 1 0xff 0 None /\ ts = [].

Definition mutex_held k (mu : rt_mutex) (ts : list nat) o : Prop :=
  owner mu = Some o /\ mutex_value mu = 0 /\ 1 <= hold mu <= 255 /\
  0 <= original_priority mu < RT_THREAD_PRIORITY_MAX /\ live (threads k o) /\ o ∉ ts.

Record mutex_rep k Q m (ts : list nat) : Prop := {
  mr_queue : waiters Q (SuspHead (OMutex m)) ts;
  mr_flag : flag (objects k (OMutex m)) = RT_IPC_FLAG_FIFO \/
            flag (objects k (OMutex m)) = RT_IPC_FLAG_PRIO;
  mr_state : mutex_free (mutexes k m) ts \/ exists o, mutex_held k (mutexes k m) ts o }.

Definition only_mutex m k k' : Prop :=
  (forall m', m' <> m -> mutexes k' m' = mutexes k m') /\
  sem_value k' = sem_value k /\ event_sets k' = event_sets k /\ mailboxes k' = mailboxes k /\
  mqs k' = mqs k /\ nest_part k' = nest_part k /\ same_objects k k'.

(** What each way a take can go does to the mutex. *)
Definition take_effect (time : Z) t ts k k' m ts' (r : call_result Z) : Prop :=
  match r with
  | Done z =>
      ts' = ts /\
      (z = RT_EOK /\ owner (mutexes k' m) = Some t /\
         (owner (mutexes k m) = Some t /\ hold (mutexes k' m) = hold (mutexes k m) + 1 \/
          owner (mutexes k m) = None /\ hold (mutexes k' m) = 1 /\
            original_priority (mutexes k' m) = current_priority (threads k t)) \/
       z = - RT_ETIMEOUT /\ time = 0 /\ mutexes k' m = mutexes k m /\ owner (mutexes k m) <> Some t)
  | Blocked =>
      mutexes k' m = mutexes k m /\ suspendedp (threads k' t) /\ error (threads k' t) = RT_EOK /\
      (exists ts1 ts2, ts = ts1 ++ ts2 /\ ts' = ts1 ++ t :: ts2) /\
      forall o, owner (mutexes k m) = Some o ->
        current_priority (threads k' o) = Z.min (current_priority (threads k o)) (current_priority (threads k t))
  end.

Lemma mutex_held_ext k k' mu ts o :
  (live (threads k o) -> live (threads k' o)) -> mutex_held k mu ts o -> mutex_held k' mu ts o.
Proof. intros Hl (? & ? & ? & ? & ? & ?). split_and!; auto; lia. Qed.

(** The state after the first statement of a take, [thread->error = RT_EOK]. *)
Definition no_error t k : kernel :=
  set_threads (<[t := set_error RT_EOK (threads k t)]> (threads k)) k.

Lemma KI_no_error t k Q : KI k Q -> KI (no_error t k) Q.
Proof. intros Hk. by apply KIx_upd_thread. Qed.

Lemma no_error_thread t k x :
  (live (threads (no_error t k) x) <-> live (threads k x)) /\
  (readyp (threads (no_error t k) x) <-> readyp (threads k x)) /\
  current_priority (threads (no_error t k) x) = current_priority (threads k x).
Proof. unfold no_error. simpl. rewrite fn_insert_case. case_decide; by subst. Qed.

(** A mutex written while everything else stays. *)
Definition set_mutex m (mu : rt_mutex) k : kernel := set_mutexes (<[m := mu]> (mutexes k)) k.

Lemma only_mutex_set m mu t k :
  only_mutex m k (set_mutex m mu (no_error t k)).
Proof. split_and!; try done. intros m' Hm. by apply fn_lookup_insert_ne. Qed.

Lemma mutex_rep_set k Q m ts mu t o :
  mutex_rep k Q m ts -> mutex_held k mu ts o -> mutex_rep (set_mutex m mu (no_error t k)) Q m ts.
Proof.
  intros [Hq Hfl _] (? & ? & ? & ? & Hl & ?). split; [done|done|]. right. exists o. unfold mutex_held.
  simpl. rewrite fn_lookup_insert. split_and!; try done; [lia..|]. by apply no_error_thread.
Qed.

(** Waiting for a held mutex: the owner inherits the priority of [t]. *)
Lemma rt_mutex_take_block k Q m ts t t0 o time fl :
  KI k Q -> waiters Q (SuspHead (OMutex m)) ts -> readyp (threads k t) ->
  t0 <> t -> readyp (threads k t0) -> mutex_held k (mutexes k m) ts o -> o <> t ->
  fl = RT_IPC_FLAG_FIFO \/ fl = RT_IPC_FLAG_PRIO ->
  error (threads k t) = RT_EOK -> fl = flag (objects k (OMutex m)) ->
  wp ((if current_priority (threads k t) <? current_priority (threads k o) then
         rt_thread_control o (RT_THREAD_CTRL_CHANGE_PRIORITY (current_priority (threads k t))) ;! ret tt
       else ret tt) ;!
      rt_ipc_list_suspend (SuspHead (OMutex m)) t fl ;! ipc_wait t time ;! ret (@Blocked Z))
   (fun r k' => exists Q' ts',
    KI k' Q' /\ mutex_rep k' Q' m ts' /\ others (SuspHead (OMutex m)) Q Q' /\ only_mutex m k k' /\
    r = Blocked /\ take_effect time t ts k k' m ts' r) k.
Proof.
  intros Hk Hq Hr Hne Hr0 Hheld Hot Hfl Herr Eflag.
  pose proof Hheld as (Hown & Hval & Hhold & Horig & Hlive & Hno).
  pose proof (pl_ok _ _ _ (ki_placed _ _ _ _ _ _ Hk t) (or_introl Hr)) as (Hpt & _).
  set (p' := Z.min (current_priority (threads k o)) (current_priority (threads k t))).
  wp_step. eapply (wp_mono _ (fun _ k' => exists Q1, KI k' Q1 /\
    (forall l ts, wait_head l = true -> waiters Q l ts -> waiters Q1 l ts) /\
    (forall x, x <> o -> threads k' x = threads k x) /\
    (live (threads k' o) /\ (readyp (threads k o) -> readyp (threads k' o)) /\
     current_priority (threads k' o) = p') /\
    env k' = env k /\ objects k' = objects k)).
  { destruct (Z.ltb_spec (current_priority (threads k t)) (current_priority (threads k o))).
    - wp_use (change_priority_live k Q o (current_priority (threads k t))); [done|done|done|].
      intros r k1 (_ & Q1 & Hk1 & Hw1 & Eth & Ee & Ec & Et). wp_pure. exists Q1.
      rewrite Eth, fn_lookup_insert. injection Et as Eo _.
      split_and!; try done; [by intros x Hx; apply fn_lookup_insert_ne|simpl; lia].
    - wp_pure. exists Q. split_and!; try done. lia. }
  intros [] k1 (Q1 & Hk1 & Hw1 & Hth & (Hl1 & Hro & Ep1) & Ee & Eob).
  assert (threads k1 t = threads k t) as Et1 by (apply Hth; done).
  assert (readyp (threads k1 t0)) as Hr1.
  { destruct (decide (t0 = o)) as [->|]; [by apply Hro|by rewrite Hth]. }
  wp_step. apply (wp_block k1 Q1 _ ts t t0); [done|by rewrite Et1|done|by apply Hw1|done|done|done|].
  intros ts1 ts2 k2 -> (_ & Eth2 & Ee2 & Eo2 & _ & Q2 & Hk2 & Hl2 & Hoth & _).
  rewrite Ee in Ee2. injection Ee2 as Es Em Eev Emb Emq Enl Eni Etk.
  apply wp_ret. exists Q2, (ts1 ++ t :: ts2).
  assert (same_objects k k2) as Eo by (intros x Hx; rewrite Eo2 by done; by rewrite Eob).
  assert (threads k2 o = threads k1 o) as Eo2' by (by rewrite Eth2, fn_lookup_insert_ne).
  split_and!; try done.
  - split; [done|by rewrite Eo, <- Eflag|]. right. exists o. rewrite Em. unfold mutex_held.
    rewrite Eo2'. split_and!; try done; [lia..|]. set_solver.
  - intros l' ts' Hw' Hne' Hl'. apply Hoth; [done|done|]. by apply Hw1.
  - split_and!; try done; [by rewrite Em|]. unfold nest_part. by rewrite Enl, Eni, Etk.
  - split_and!; [by rewrite Em|by rewrite Eth2, fn_lookup_insert| |by exists ts1, ts2|].
    + by rewrite Eth2, fn_lookup_insert, Et1.
    + intros o' Ho'. assert (o' = o) as -> by congruence. by rewrite Eo2'.
Qed.

(** What rt_mutex_take leaves behind *)
Definition take_done (time : Z) t ts k Q m r (k' : kernel) : Prop := exists Q' ts',
  KI k' Q' /\ mutex_rep k' Q' m ts' /\ others (SuspHead (OMutex m)) Q Q' /\ only_mutex m k k' /\
  take_effect time t ts k k' m ts' r.

(** The branches that return at once: taken again by the owner, taken while free, and
    refused without a wait *)
Lemma take_again k Q m ts t time : KI k Q -> mutex_rep k Q m ts -> owner (mutexes k m) = Some t -> hold (mutexes k m) < 255 ->
  take_done time t ts k Q m (Done RT_EOK) (set_mutex m (set_hold (u8 (hold (mutexes k m) + 1)) (mutexes k m)) (no_error t k)).
Proof.
  intros Hk Hrep Hown Hhold. pose proof Hrep as [Hq Hfl Hst]. pose proof (KI_no_error t k Q Hk) as Hk1.
  destruct Hst as [[Ef _]|(o & Ho & Hv & Hh & Hor & Hl & Hni)]; [by rewrite Ef in Hown|]. assert (o = t) as -> by congruence.
  rewrite u8_small by lia. exists Q, ts. split_and!; try done.
  - apply (mutex_rep_set _ _ _ _ _ _ t); [done|]. split_and!; simpl; try done; lia.
  - by intros l' ts'.
  - apply only_mutex_set.
  - split; [done|]. left. unfold set_mutex. simpl. rewrite fn_lookup_insert. simpl. split_and!; try done. by left.
Qed.

Lemma take_unowned k Q m t time : KI k Q -> mutex_rep k Q m [] -> readyp (threads k t) -> mutex_free (mutexes k m) [] ->
  take_done time t [] k Q m (Done RT_EOK) (set_mutex m (mk_mutex 0 (current_priority (threads k t)) 1 (Some t)) (no_error t k)).
Proof.
  intros Hk Hrep Hr [Ef _]. pose proof Hrep as [Hq Hfl _]. pose proof (KI_no_error t k Q Hk) as Hk1.
  pose proof (pl_ok _ _ _ (ki_placed _ _ _ _ _ _ Hk t) (or_introl Hr)) as (Hpt & _). exists Q, []. split_and!; try done.
  - apply (mutex_rep_set _ _ _ _ _ _ t); [done|]. split_and!; simpl; try done; try lia; [by left|apply not_elem_of_nil].
  - by intros l' ts'.
  - apply only_mutex_set.
  - split; [done|]. left. unfold set_mutex. simpl. rewrite fn_lookup_insert, Ef. split_and!; try done. by right.
Qed.

Lemma take_refused k Q m ts t : KI k Q -> mutex_rep k Q m ts -> owner (mutexes k m) <> Some t ->
  take_done 0 t ts k Q m (Done (- RT_ETIMEOUT)) (set_threads (<[t := set_error (- RT_ETIMEOUT) (threads k t)]> (threads k)) k).
Proof.
  intros Hk [Hq Hfl Hst] Hown. exists Q, ts. split_and!; try done.
  - by apply KIx_upd_thread.
  - split; [done|done|]. destruct Hst as [?|(o & Ho)]; [by left|]. right. exists o.
    eapply mutex_held_ext; [|exact Ho]. simpl. rewrite fn_insert_case. case_decide; by subst.
  - by intros l' ts'.
  - split; [done|]. by right.
Qed.

(** Nothing tests the 8-bit count: the owner that takes the mutex for the 256th time holds it
    with a count of 0. *)
Lemma take_hold_wraps k Q m t time :
  KI k Q -> rt_current_thread k = Some t -> owner (mutexes k m) = Some t -> hold (mutexes k m) = 255 ->
  wp (rt_mutex_take m time) (fun r k' => r = Done RT_EOK /\ KI k' Q /\ only_mutex m k k' /\
    mutexes k' m = set_hold 0 (mutexes k m)) k.
Proof.
  intros Hk Hcur Hown Hh. unfold rt_mutex_take, upd_thread, upd_mutex. wp_pure.
  eapply wp_of_option; [exact Hcur|]. wp_pure. fold (no_error t k). pose proof (KI_no_error t k Q Hk) as Hk1.
  rewrite decide_True by done. wp_pure. split_and!; try done.
  - apply only_mutex_set.
  - simpl. rewrite fn_lookup_insert. by rewrite Hh.
Qed.

(** C16: rt_mutex_take on each branch: the owner takes it again, a free mutex gets an owner, a
    caller with no time to wait fails with -RT_ETIMEOUT, and any other caller waits in the
    queue while the owner inherits its priority when that is more urgent. The branch where the
    8-bit count of the owner overflows is stated as the code has it: the 256th take of the
    owner returns RT_EOK and leaves the mutex owned with a count of 0. *)
Theorem rt_mutex_take_spec k Q m ts t t0 time :
  KI k Q -> mutex_rep k Q m ts -> rt_current_thread k = Some t -> readyp (threads k t) ->
  t0 <> t -> readyp (threads k t0) ->
  wp (rt_mutex_take m time) (fun r k' => exists Q' ts',
    KI k' Q' /\ others (SuspHead (OMutex m)) Q Q' /\ only_mutex m k k' /\
    if decide (owner (mutexes k m) = Some t /\ hold (mutexes k m) = 255) then
      r = Done RT_EOK /\ mutexes k' m = set_hold 0 (mutexes k m) /\ waiters Q' (SuspHead (OMutex m)) ts
    else mutex_rep k' Q' m ts' /\ take_effect time t ts k k' m ts' r) k.
Proof.
  intros Hk Hrep Hcur Hr Hne Hr0. pose proof Hrep as [Hq Hfl Hst].
  case_decide as Hmax.
  { destruct Hmax as [Hown Hmax]. eapply wp_mono; [exact (take_hold_wraps k Q m t time Hk Hcur Hown Hmax)|].
    intros r k' (-> & Hk' & Honly & Hmu). exists Q, ts. split_and!; try done. by intros l' ts'. }
  enough (wp (rt_mutex_take m time) (take_done time t ts k Q m) k) as Hwp.
  { eapply wp_mono; [exact Hwp|]. intros r k' (Q' & ts' & ? & ? & ? & ? & ?). exists Q', ts'. by split_and!. }
  unfold take_done.
  assert (owner (mutexes k m) = Some t -> hold (mutexes k m) < 255) as Hhold.
  { intros Hown. destruct Hst as [[Ef _]|(o & _ & _ & Hh & _)]; [by rewrite Ef in Hown|].
    destruct (decide (hold (mutexes k m) = 255)); [by destruct Hmax|lia]. }
  unfold rt_mutex_take, upd_thread, upd_mutex. wp_pure.
  eapply wp_of_option; [exact Hcur|]. wp_pure. fold (no_error t k). pose proof (KI_no_error t k Q Hk) as Hk1.
  assert (t ∉ ts) as Hnt.
  { intros Hin. eapply ready_not_suspended; [exact Hr|].
    eapply (waiter_suspended _ k Q (SuspHead (OMutex m)) ts); done. }
  case_decide as Hown; [wp_pure; exact (take_again k Q m ts t time Hk Hrep Hown (Hhold Hown))|].
  destruct (Z.gtb_spec (mutex_value (mutexes k m)) 0) as [Hv|Hv].
  { destruct Hst as [Hfree|(o & _ & Hv0 & _)]; [|lia]. pose proof Hfree as [Ef ->].
    wp_pure. match goal with |- exists Q' ts', KI ?x Q' /\ _ => change (take_done time t [] k Q m (Done RT_EOK) x);
      enough (x = set_mutex m (mk_mutex 0 (current_priority (threads k t)) 1 (Some t)) (no_error t k)) as -> by by apply take_unowned end.
    simpl. by rewrite !fn_lookup_insert, !fn_insert_insert', Ef. }
  destruct (Z.eqb_spec time 0) as [->|Ht].
  { wp_pure. simpl. rewrite fn_lookup_insert, fn_insert_insert'. exact (take_refused k Q m ts t Hk Hrep Hown). }
  destruct Hst as [[Ef _]|(o & Hheld)]; [by rewrite Ef in Hv; simpl in Hv|].
  pose proof Hheld as (Ho & Hrest). wp_step. eapply wp_of_option; [exact Ho|].
  destruct (no_error_thread t k t) as (_ & Hrt & Ept). destruct (no_error_thread t k o) as (Hlo & _ & Epo).
  rewrite <- Ept, <- Epo.
  eapply (wp_mono _ _ _ _ (rt_mutex_take_block (no_error t k) Q m ts t t0 o time _ _ _ _ _ _ _ _ _ _ _)).
  intros r k' (Q' & ts' & Hk' & Hrep' & Hoth & Honly & -> & Heff). exists Q', ts'. split_and!; try done.
  destruct Heff as (? & ? & ? & ? & Hp). split_and!; try done. intros o' Ho'. rewrite Hp by done.
  by rewrite Ept, (proj2 (proj2 (no_error_thread t k o'))).
  Unshelve.
  - done.
  - done.
  - by apply Hrt.
  - done.
  - by apply no_error_thread.
  - apply (mutex_held_ext k); [by apply Hlo|by split].
  - congruence.
  - done.
  - simpl. by rewrite fn_lookup_insert.
  - done.
Qed.

(** ** Release *)

Definition release_effect t ts k (k' : kernel) m ts' (r : Z) : Prop :=
  if decide (owner (mutexes k m) = Some t) then
    r = RT_EOK /\
    if decide (hold (mutexes k m) = 1) then
      current_priority (threads k' t) = original_priority (mutexes k m) /\
      match ts with
      | [] => mutex_free (mutexes k' m) ts'
      | w :: ws =>
          ts' = ws /\ readyp (threads k' w) /\
          mutexes k' m = mk_mutex 0 (current_priority (threads k w)) 1 (Some w)
      end
    else ts' = ts /\ mutexes k' m = set_hold (hold (mutexes k m) - 1) (mutexes k m)
  else r = - RT_ERROR /\ ts' = ts /\ mutexes k' m = mutexes k m /\ error (threads k' t) = - RT_ERROR.

(** The owner gets back the priority it had when it took the mutex. *)
Lemma restore_priority k Q m t p :
  KI k Q -> readyp (threads k t) -> 0 <= p < RT_THREAD_PRIORITY_MAX ->
  wp (if negb (p =? current_priority (threads k t)) then
        rt_thread_control t (RT_THREAD_CTRL_CHANGE_PRIORITY p) ;! ret tt
      else ret tt)
    (fun _ k' => exists Q', KI k' Q' /\
      (forall l ts, wait_head l = true -> waiters Q l ts -> waiters Q' l ts) /\
      (forall x, x <> t -> threads k' x = threads k x) /\
      readyp (threads k' t) /\ current_priority (threads k' t) = p /\
      env k' = env k /\ objects k' = objects k) k.
Proof.
  intros Hk Hr Hp. destruct (Z.eqb_spec p (current_priority (threads k t))) as [Ep|Ep]; simpl.
  - wp_pure. exists Q. by split_and!.
  - wp_use (change_priority_live k Q t p); [done|by left|done|].
    intros r k' (_ & Q' & Hk' & Hw & Eth & Ee & Ec & Et). injection Et as Eo _. wp_pure. exists Q'.
    rewrite Eth, fn_lookup_insert. split_and!; try done. intros x Hx. by apply fn_lookup_insert_ne.
Qed.

Lemma KI_set_mutex m mu k Q : KI k Q -> KI (set_mutex m mu k) Q.
Proof. done. Qed.

(** Passing the mutex to the first waiting thread. *)
Lemma pass_mutex k Q m w ws :
  KI k Q -> waiters Q (SuspHead (OMutex m)) (w :: ws) -> mutex_value (mutexes k m) = 0 ->
  hold (mutexes k m) = 0 ->
  wp (let! t' := list_first_thread (SuspHead (OMutex m)) in
      upd_mutex m (set_owner (Some t')) ;!
      upd_mutex m (set_original_priority (current_priority (threads k t'))) ;!
      upd_mutex m (fun mu => set_hold (u8 (hold mu + 1)) mu) ;!
      rt_ipc_list_resume (SuspHead (OMutex m)) ;! ret true)
    (fun r k' => r = true /\ exists Q', KI k' Q' /\ waiters Q' (SuspHead (OMutex m)) ws /\
      others (SuspHead (OMutex m)) Q Q' /\ same_objects k k' /\
      threads k' = <[w := set_stat RT_THREAD_READY (threads k w)]> (threads k) /\
      env k' = env (set_mutex m (mk_mutex 0 (current_priority (threads k w)) 1 (Some w)) k)) k.
Proof.
  intros Hk Hq Hv Hh. unfold upd_mutex. wp_step. eapply wp_first_thread; [apply Hk|exact Hq|].
  wp_pure. simpl. rewrite !fn_lookup_insert, !fn_insert_insert'. simpl. rewrite Hh.
  set (k2 := set_mutexes _ (set_mutexes _ _)).
  assert (k2 = set_mutex m (mk_mutex 0 (current_priority (threads k w)) 1 (Some w)) k) as ->.
  { subst k2. unfold set_mutex. destruct (mutexes k m). simpl in Hv. subst. reflexivity. }
  wp_use (rt_ipc_list_resume_spec _ Q _ w ws); [by apply KI_set_mutex|done|done|].
  intros r k3 (_ & Hk3 & Hl3 & Etm & Eth & Ee & Ec & Eo). wp_pure. split; [done|].
  eexists. split_and!; try done. eapply others_woken; [exact Hk|exact Hq|set_solver].
Qed.

(** The last release: restore the priority, then pass the mutex or free it. *)
Lemma rt_mutex_release_last k Q m ts t p :
  KI k Q -> waiters Q (SuspHead (OMutex m)) ts -> readyp (threads k t) -> t ∉ ts ->
  0 <= p < RT_THREAD_PRIORITY_MAX -> mutexes k m = mk_mutex 0 p 0 (Some t) ->
  wp (let! need_schedule :=
        ((if negb (p =? current_priority (threads k t)) then
           rt_thread_control t (RT_THREAD_CTRL_CHANGE_PRIORITY p) ;! ret tt
          else ret tt) ;!
         let! k := get in
         if negb (list_isempty (SuspHead (OMutex m)) k) then
           let! t' := list_first_thread (SuspHead (OMutex m)) in
           upd_mutex m (set_owner (Some t')) ;!
           upd_mutex m (set_original_priority (current_priority (threads k t'))) ;!
           upd_mutex m (fun mu => set_hold (u8 (hold mu + 1)) mu) ;!
           rt_ipc_list_resume (SuspHead (OMutex m)) ;!
           ret true
         else
           upd_mutex m (fun mu => set_mutex_value (u16 (mutex_value mu + 1)) mu) ;!
           upd_mutex m (set_owner None) ;!
           upd_mutex m (set_original_priority 0xff) ;!
           ret false) in
      (if need_schedule : bool then rt_schedule else ret tt) ;! ret RT_EOK)
    (fun r k' => r = RT_EOK /\ exists Q' ts', KI k' Q' /\ waiters Q' (SuspHead (OMutex m)) ts' /\
      others (SuspHead (OMutex m)) Q Q' /\ same_objects k k' /\
      current_priority (threads k' t) = p /\
      (exists mu, env k' = env (set_mutex m mu k) /\
        match ts with
        | [] => mutex_free mu ts'
        | w :: ws => ts' = ws /\ readyp (threads k' w) /\ mu = mk_mutex 0 (current_priority (threads k w)) 1 (Some w)
        end)) k.
Proof.
  intros Hk Hq Hr Hnt Hp Emu. wp_step. wp_step.
  eapply wp_mono; [by apply (restore_priority k Q m)|]. cbv beta.
  intros [] k1 (Q1 & Hk1 & Hw1 & Hth1 & Hr1 & Ep1 & Ee1 & Eo1).
  assert (mutexes k1 m = mk_mutex 0 p 0 (Some t)) as Emu1 by (injection Ee1 as _ -> _; done).
  pose proof (Hw1 (SuspHead (OMutex m)) ts eq_refl Hq) as Hq1.
  assert (forall l, others l Q Q1) as Hoth1 by (intros l l' ts' Hw' _ Hl'; by apply Hw1).
  wp_pure. unfold list_isempty. rewrite (Rep_isempty _ _ _ _ (ki_rep _ _ _ _ _ _ Hk1) Hq1).
  destruct ts as [|w ws]; simpl.
  - unfold upd_mutex. wp_pure. simpl. rewrite !fn_lookup_insert, !fn_insert_insert', Emu1. simpl.
    set (k2 := set_mutexes _ (set_mutexes _ _)).
    assert (k2 = set_mutex m (mk_mutex 1 0xff 0 None) k1) as -> by reflexivity.
    split; [done|]. exists Q1, []. split_and!; try done; [intros x Hx; simpl; by rewrite Eo1|].
    exists (mk_mutex 1 0xff 0 None). split; [|done].
    injection Ee1 as Es Em Eev Emb Emq Enl Eni Etk. unfold env, ipc_part, nest_part. simpl. congruence.
  - eapply wp_mono; [apply (pass_mutex k1 Q1 m w ws); [done|done|by rewrite Emu1..]|]. cbv beta.
    intros r k2 (-> & Q2 & Hk2 & Hq2 & Hoth2 & Eo2 & Eth2 & Ee2).
    wp_step. wp_use (rt_schedule_spec _ k2 Q2 w); [exact Hk2|by rewrite Eth2, fn_lookup_insert|].
    intros [] k3 Hsch. destruct (scheduled_frame _ _ _ Hsch) as (E1 & E2 & E3 & _). wp_pure.
    split; [done|]. exists Q2, ws. split_and!; try done.
    + by eapply scheduled_KI.
    + by eapply others_trans.
    + intros x Hx. rewrite E3, Eo2 by done. by rewrite Eo1.
    + rewrite E1, Eth2, fn_lookup_insert_ne; [done|]. set_solver.
    + assert (threads k1 w = threads k w) as Ew by (apply Hth1; set_solver).
      rewrite Ew in Ee2. exists (mk_mutex 0 (current_priority (threads k w)) 1 (Some w)). split; [rewrite E2, Ee2|].
      * injection Ee1 as Es Em Eev Emb Emq Enl Eni Etk. unfold env, ipc_part, nest_part. simpl. congruence.
      * split_and!; [done| |done]. by rewrite E1, Eth2, fn_lookup_insert.
Qed.

Lemma only_mutex_env m mu k k' :
  env k' = env (set_mutex m mu k) -> same_objects k k' -> only_mutex m k k' /\ mutexes k' m = mu.
Proof.
  intros [= Es Em Eev Emb Emq Enl Eni Etk] Eo. split; [|by rewrite Em; apply fn_lookup_insert].
  split_and!; try done; [|unfold nest_part; by rewrite Enl, Eni, Etk].
  intros m' Hm. rewrite Em. by apply fn_lookup_insert_ne.
Qed.

(** C17: rt_mutex_release on each branch: only the owner may release; the last release
    restores its original priority and hands the mutex to the first waiter or frees it; a
    caller that is not the owner gets -RT_ERROR, and the mutex and its queue are unchanged. *)
Theorem rt_mutex_release_spec k Q m ts t :
  KI k Q -> mutex_rep k Q m ts -> rt_current_thread k = Some t -> readyp (threads k t) ->
  wp (rt_mutex_release m) (fun r k' => exists Q' ts',
    KI k' Q' /\ mutex_rep k' Q' m ts' /\ others (SuspHead (OMutex m)) Q Q' /\ only_mutex m k k' /\
    release_effect t ts k k' m ts' r) k.
Proof.
  intros Hk Hrep Hcur Hr. pose proof Hrep as [Hq Hfl Hst].
  unfold rt_mutex_release, release_effect. wp_pure. eapply wp_of_option; [exact Hcur|].
  destruct (decide (owner (mutexes k m) = Some t)) as [Hown|Hown].
  2: { rewrite bool_decide_false by done. simpl. unfold upd_thread. wp_pure.
       exists Q, ts. split_and!; try done.
       - by apply KIx_upd_thread.
       - split; [done|done|]. destruct Hst as [?|(o & Ho)]; [by left|]. right. exists o.
         eapply mutex_held_ext; [|exact Ho]. simpl. rewrite fn_insert_case. case_decide; by subst.
       - by intros l' ts'.
       - simpl. by rewrite fn_lookup_insert. }
  rewrite bool_decide_true by done. simpl.
  destruct Hst as [[Ef _]|(o & Ho & Hv & Hh & Hor & Hl & Hni)]; [by rewrite Ef in Hown|].
  assert (o = t) as -> by congruence.
  unfold upd_mutex at 1. wp_pure. rewrite u8_small by lia.
  set (mu1 := set_hold (hold (mutexes k m) - 1) (mutexes k m)). fold (set_mutex m mu1 k).
  set (k1 := set_mutex m mu1 k).
  assert (mutexes k1 m = mu1) as Emu by apply fn_lookup_insert. rewrite Emu.
  destruct (decide (hold (mutexes k m) = 1)) as [E1|E1].
  - replace (hold mu1 =? 0) with true by (subst mu1; simpl; rewrite E1; done).
    assert (mu1 = mk_mutex 0 (original_priority mu1) 0 (Some t)) as Emu1.
    { subst mu1. destruct (mutexes k m). simpl in *. by subst. }
    apply wp_bind_inv.
    eapply wp_mono; [apply (rt_mutex_release_last k1 Q m ts t (original_priority mu1)); try done; by rewrite Emu|].
    intros r k2 (-> & Q2 & ts2 & Hk2 & Hq2 & Hoth2 & Eo2 & Ep2 & mu2 & Ee2 & Hmu2).
    change (env (set_mutex m mu2 k1)) with (env (set_mutex m mu2 (set_mutex m mu1 k))) in Ee2.
    assert (env (set_mutex m mu2 (set_mutex m mu1 k)) = env (set_mutex m mu2 k)) as Ee3.
    { unfold env, ipc_part, nest_part. simpl. by rewrite fn_insert_insert'. }
    rewrite Ee3 in Ee2. destruct (only_mutex_env m mu2 k k2 Ee2 Eo2) as [Honly Emu2].
    exists Q2, ts2. split_and!; try done.
    + split; [done|by rewrite Eo2|]. rewrite Emu2. destruct ts as [|w ws]; [by left|]. right.
      destruct Hmu2 as (-> & Hrw & ->). exists w.
      pose proof (waiters_NoDup _ _ _ _ _ Hk Hq) as [Hnw _]%NoDup_cons.
      assert (suspendedp (threads k w)) as Hsw
        by (eapply (waiter_suspended _ k Q (SuspHead (OMutex m)) (w :: ws)); [done..|set_solver]).
      pose proof (pl_ok _ _ _ (ki_placed _ _ _ _ _ _ Hk w) (or_intror Hsw)) as (Hpw & _).
      split_and!; simpl; try done; [lia|lia|by left].
    + by rewrite Emu2.
  - replace (hold mu1 =? 0) with false by (symmetry; apply Z.eqb_neq; subst mu1; simpl; lia).
    wp_pure. exists Q, ts. split_and!; try done.
    + split; [done|done|]. rewrite Emu. right. exists t. split_and!; simpl; try done; lia.
    + by intros l' ts'.
    + split; [|done]. intros m' Hm. by apply fn_lookup_insert_ne.
Qed.
End invariant.
