(* ===== verification/Event.v ===== *)
(** Events (src/ipc.c): sets of 32 flags; a thread waits for all or for one of
    the flags it asks for. *)

From S2P Require Import Prelude RtList KState Ffs KInv Sched Object Timer Thread Ipc.

Open Scope Z_scope.

(** * Operations *)

Definition upd_event (e : nat) (v : Z) : K unit :=
  modify (fun k => set_event_sets (<[e := v]> (event_sets k)) k).

Definition has_flag (info fl : Z) : bool := negb (Z.land info fl =? 0).

(** rt_event_init *)
Definition rt_event_init (e : nat) (nm : list Z) (fl : Z) : K Z :=
  rt_object_init (OEvent e) nm ;!
  upd_object (OEvent e) (set_flag fl) ;!
  rt_ipc_object_init (OEvent e) ;!
  upd_event e 0 ;!
  ret RT_EOK.

(** rt_event_detach *)
Definition rt_event_detach (e : nat) : K Z :=
  rt_ipc_list_resume_all (SuspHead (OEvent e)) ;!
  rt_object_detach (OEvent e) ;!
  ret RT_EOK.

(** One round of the loop of rt_event_send for the waiting thread [t]: whether
    its condition is satisfied; a thread that waits for one flag records which
    it received. *)
Definition event_check (e t : nat) : K bool :=
  let! k := get in
  let th := threads k t in
  if has_flag (event_info th) RT_EVENT_FLAG_AND then
    ret (Z.land (event_set th) (event_sets k e) =? event_set th)
  else if has_flag (event_info th) RT_EVENT_FLAG_OR then
    if negb (Z.land (event_set th) (event_sets k e) =? 0) then
      upd_thread t (set_event_set (Z.land (event_set th) (event_sets k e))) ;! ret true
    else ret false
  else ret false.

(** The loop itself; a list is no longer than the store has cells. *)
Fixpoint event_send_loop (fuel : nat) (e : nat) (n : node) (need_schedule : bool) : K bool :=
  match fuel with
  | O => fail OutOfFuel
  | S fuel =>
      if decide (n = SuspHead (OEvent e)) then ret need_schedule
      else
        let! t := of_option BadPointer (thread_entry n) in
        let! ok := event_check e t in
        let! k := get in
        let! next := of_option NullDeref (get_next (lists k) n) in
        if ok : bool then
          (if has_flag (event_info (threads k t)) RT_EVENT_FLAG_CLEAR then
             upd_event e (Z.land (event_sets k e) (u32 (Z.lnot (event_set (threads k t)))))
           else ret tt) ;!
          rt_thread_resume t ;!
          event_send_loop fuel e next true
        else event_send_loop fuel e next need_schedule
  end.

(** rt_event_send *)
Definition rt_event_send (e : nat) (set : Z) : K Z :=
  if set =? 0 then ret (- RT_ERROR)
  else
    let! k := get in
    upd_event e (Z.lor (event_sets k e) set) ;!
    let! k := get in
    let! need_schedule :=
      (if negb (list_isempty (SuspHead (OEvent e)) k) then
         let! n := of_option NullDeref (get_next (lists k) (SuspHead (OEvent e))) in
         event_send_loop (S (size (lists k))) e n false
       else ret false) in
    (if need_schedule : bool then rt_schedule else ret tt) ;!
    ret RT_EOK.

(** rt_event_recv, up to the call of rt_schedule; the result is the error code
    and the value stored through [recved], if any. *)
Definition rt_event_recv (e : nat) (set option_ timeout : Z) : K (call_result (Z * option Z)) :=
  if set =? 0 then ret (Done (- RT_ERROR, None))
  else
    let! k := get in
    let! t := of_option NullDeref (rt_thread_self k) in
    upd_thread t (set_error RT_EOK) ;!
    let status :=
      if has_flag option_ RT_EVENT_FLAG_AND then Z.land (event_sets k e) set =? set
      else if has_flag option_ RT_EVENT_FLAG_OR then negb (Z.land (event_sets k e) set =? 0)
      else false in
    if status then
      (if has_flag option_ RT_EVENT_FLAG_CLEAR then
         upd_event e (Z.land (event_sets k e) (u32 (Z.lnot set)))
       else ret tt) ;!
      ret (Done (RT_EOK, Some (Z.land (event_sets k e) set)))
    else if timeout =? 0 then
      upd_thread t (set_error (- RT_ETIMEOUT)) ;!
      ret (Done (- RT_ETIMEOUT, None))
    else
      upd_thread t (set_event_set set) ;!
      upd_thread t (set_event_info option_) ;!
      rt_ipc_list_suspend (SuspHead (OEvent e)) t (flag (objects k (OEvent e))) ;!
      ipc_wait t timeout ;!
      ret Blocked.

(** The rest of rt_event_recv, when the thread runs again. *)
Definition rt_event_recv_wakeup (t : nat) (k : kernel) : Z * option Z :=
  if negb (error (threads k t) =? RT_EOK) then (error (threads k t), None)
  else (error (threads k t), Some (event_set (threads k t))).

(** rt_event_control *)
Definition rt_event_control (e : nat) (cmd arg : Z) : K Z :=
  if cmd =? RT_IPC_CMD_RESET then
    rt_ipc_list_resume_all (SuspHead (OEvent e)) ;!
    upd_event e 0 ;!
    rt_schedule ;!
    ret RT_EOK
  else ret (- RT_ERROR).

(** * The delivery of a set of flags *)

Section delivery.
Implicit Types (th : rt_thread) (set : Z) (ths : nat -> rt_thread).

(** The condition of a waiting thread, what it receives, and what is left. *)
Definition accepts set th : bool :=
  if has_flag (event_info th) RT_EVENT_FLAG_AND then Z.land (event_set th) set =? event_set th
  else if has_flag (event_info th) RT_EVENT_FLAG_OR then negb (Z.land (event_set th) set =? 0)
  else false.
Definition received set th : Z :=
  if has_flag (event_info th) RT_EVENT_FLAG_AND then event_set th else Z.land (event_set th) set.
Definition remaining set th : Z :=
  if has_flag (event_info th) RT_EVENT_FLAG_CLEAR then Z.land set (u32 (Z.lnot (received set th))) else set.

(** Delivery to the waiting threads in their order: the flags left, the threads
    still waiting, and the threads served with what they received. *)
Fixpoint deliver ths set (ts : list nat) : Z * list nat * list (nat * Z) :=
  match ts with
  | [] => (set, [], [])
  | t :: ts =>
      if accepts set (ths t) then
        let '(set', kept, served) := deliver ths (remaining set (ths t)) ts in
        (set', kept, (t, received set (ths t)) :: served)
      else
        let '(set', kept, served) := deliver ths set ts in (set', t :: kept, served)
  end.

(** [set'] has no flag [set] has not. *)
Definition included set' set : Prop := Z.land set' set = set'.

Lemma included_refl set : included set set.
Proof. apply Z.land_diag. Qed.
Lemma included_trans a b c : included a b -> included b c -> included a c.
Proof. unfold included. intros H1 H2. rewrite <- H1 at 1. by rewrite <- Z.land_assoc, H2. Qed.
Lemma included_land a b : included (Z.land a b) a.
Proof. unfold included. by rewrite (Z.land_comm a b), <- Z.land_assoc, Z.land_diag. Qed.

Lemma remaining_included set th : included (remaining set th) set.
Proof. unfold remaining. case_match; [apply included_land|apply included_refl]. Qed.

(** Fewer flags satisfy fewer conditions. *)
Lemma accepts_mono set' set th : included set' set -> accepts set' th = true -> accepts set th = true.
Proof.
  unfold accepts, included. intros Hi. case_match.
  - rewrite !Z.eqb_eq. intros E. rewrite <- E, <- Hi, <- !Z.land_assoc, Z.land_diag. done.
  - case_match; [|done]. rewrite !negb_true_iff, !Z.eqb_neq. intros Hne E. apply Hne.
    by rewrite <- Hi, (Z.land_comm set'), Z.land_assoc, E.
Qed.

Lemma deliver_included ths ts set set' kept served :
  deliver ths set ts = (set', kept, served) -> included set' set.
Proof.
  revert set set' kept served. induction ts as [|t ts IH]; intros set set' kept served; simpl.
  - intros [= <- _ _]. apply included_refl.
  - destruct (accepts set (ths t)).
    + destruct (deliver ths (remaining set (ths t)) ts) as [[s1 k1] v1] eqn:E. intros [= -> -> <-].
      eapply included_trans; [by eapply IH|]. apply remaining_included.
    + destruct (deliver ths set ts) as [[s1 k1] v1] eqn:E. intros [= -> <- ->]. by eapply IH.
Qed.

(** No thread is left waiting for flags that are set. *)
Lemma deliver_complete ths ts set set' kept served :
  deliver ths set ts = (set', kept, served) ->
  forall t, t ∈ kept -> accepts set' (ths t) = false.
Proof.
  revert set set' kept served. induction ts as [|t ts IH]; intros set set' kept served; simpl.
  - intros [= _ <- _] t []%not_elem_of_nil.
  - destruct (accepts set (ths t)) eqn:Ha.
    + destruct (deliver ths (remaining set (ths t)) ts) as [[s1 k1] v1] eqn:E. intros [= -> -> <-].
      by eapply IH.
    + destruct (deliver ths set ts) as [[s1 k1] v1] eqn:E. intros [= -> <- ->] x [->|Hx]%elem_of_cons.
      * destruct (accepts set' (ths t)) eqn:Ha'; [|done]. apply deliver_included in E.
        by rewrite (accepts_mono set' set) in Ha.
      * by eapply IH.
Qed.

(** Every waiting thread is served or kept, in order. *)
Lemma deliver_perm ths ts set set' kept served :
  deliver ths set ts = (set', kept, served) -> ts ≡ₚ kept ++ (fst <$> served).
Proof.
  revert set set' kept served. induction ts as [|t ts IH]; intros set set' kept served; simpl.
  - by intros [= _ <- <-].
  - destruct (accepts set (ths t)).
    + destruct (deliver ths (remaining set (ths t)) ts) as [[s1 k1] v1] eqn:E. intros [= -> -> <-].
      simpl. rewrite <- Permutation_middle. constructor. by eapply IH.
    + destruct (deliver ths set ts) as [[s1 k1] v1] eqn:E. intros [= -> <- ->]. simpl.
      constructor. by eapply IH.
Qed.
End delivery.

(** * The kernel delivers as specified *)

Section refinement.
Implicit Types (k : kernel) (Q : gmap node (list node)) (e t : nat) (ts : list nat).

Lemma deliver_ext ths ths' set ts :
  (forall t, t ∈ ts -> ths' t = ths t) -> deliver ths' set ts = deliver ths set ts.
Proof.
  revert set. induction ts as [|t ts IH]; intros set E; [done|]. simpl.
  rewrite E by set_solver. rewrite !IH by set_solver. done.
Qed.

Definition only_event e k k' : Prop :=
  (forall e', e' <> e -> event_sets k' e' = event_sets k e') /\
  sem_value k' = sem_value k /\ mutexes k' = mutexes k /\ mailboxes k' = mailboxes k /\
  mqs k' = mqs k /\ nest_part k' = nest_part k /\ same_objects k k'.

Lemma only_event_trans e k1 k2 k3 : only_event e k1 k2 -> only_event e k2 k3 -> only_event e k1 k3.
Proof.
  intros (A1 & A2 & A3 & A4 & A5 & A6 & A7) (B1 & B2 & B3 & B4 & B5 & B6 & B7).
  split_and!; try congruence; [|by eapply same_objects_trans].
  intros e' He. by rewrite B1, A1.
Qed.

Lemma only_event_env e v k k' :
  env k' = env (set_event_sets (<[e := v]> (event_sets k)) k) -> same_objects k k' ->
  only_event e k k' /\ event_sets k' e = v.
Proof.
  intros [= Es Em Eev Emb Emq Enl Eni Etk] Eo. split; [|by rewrite Eev; apply fn_lookup_insert].
  split_and!; try done; [|unfold nest_part; by rewrite Enl, Eni, Etk].
  intros e' He. rewrite Eev. by apply fn_lookup_insert_ne.
Qed.

(** The effect of serving thread [t]. *)
Definition serve (v : Z) (th : rt_thread) : rt_thread := set_stat RT_THREAD_READY (set_event_set v th).

Lemma event_check_spec k Q e t :
  KI k Q ->
  wp (event_check e t) (fun ok k' => ok = accepts (event_sets k e) (threads k t) /\ KI k' Q /\
    (ok = false -> k' = k) /\
    (ok = true -> k' = set_threads (<[t := set_event_set (received (event_sets k e) (threads k t))
                                             (threads k t)]> (threads k)) k)) k.
Proof.
  intros Hk. unfold event_check, accepts, received. wp_pure.
  destruct (has_flag (event_info (threads k t)) RT_EVENT_FLAG_AND).
  - wp_pure. split_and!; try done. intros _.
    assert (set_event_set (event_set (threads k t)) (threads k t) = threads k t) as ->
      by (by destruct (threads k t)).
    rewrite fn_insert_id'. by destruct k.
  - destruct (has_flag (event_info (threads k t)) RT_EVENT_FLAG_OR); [|by wp_pure].
    destruct (Z.land (event_set (threads k t)) (event_sets k e) =? 0); simpl; [by wp_pure|].
    unfold upd_thread. wp_pure. split_and!; try done. by apply KIx_upd_thread.
Qed.

(** Clearing the flags of a served thread and resuming it. *)
Lemma event_serve_spec k Q e t ts1 ts2 v :
  KI k Q -> waiters Q (SuspHead (OEvent e)) (ts1 ++ t :: ts2) -> v = event_set (threads k t) ->
  wp ((if has_flag (event_info (threads k t)) RT_EVENT_FLAG_CLEAR then
         upd_event e (Z.land (event_sets k e) (u32 (Z.lnot (event_set (threads k t)))))
       else ret tt) ;! rt_thread_resume t)
    (fun _ k' => exists Q', KI k' Q' /\ waiters Q' (SuspHead (OEvent e)) (ts1 ++ ts2) /\
      others (SuspHead (OEvent e)) Q Q' /\ only_event e k k' /\
      event_sets k' e = (if has_flag (event_info (threads k t)) RT_EVENT_FLAG_CLEAR then
                           Z.land (event_sets k e) (u32 (Z.lnot v)) else event_sets k e) /\
      threads k' = <[t := set_stat RT_THREAD_READY (threads k t)]> (threads k)) k.
Proof.
  intros Hk Hq Ev. set (v' := if has_flag _ _ then _ else event_sets k e).
  pose proof (waiters_NoDup _ _ _ _ _ Hk Hq) as Hnd. apply NoDup_delete_middle in Hnd as [_ Hnt].
  wp_step. eapply (wp_mono _ (fun _ k1 => k1 = set_event_sets (<[e := v']> (event_sets k)) k)).
  { subst v'. rewrite <- Ev. destruct (has_flag (event_info (threads k t)) RT_EVENT_FLAG_CLEAR);
      unfold upd_event; wp_pure; [done|]. rewrite fn_insert_id'. by destruct k. }
  intros [] k1 ->. set (k1 := set_event_sets _ k).
  wp_use (rt_thread_resume_KI k1 Q t); [done| |].
  { eapply (waiter_suspended _ k Q (SuspHead (OEvent e)) (ts1 ++ t :: ts2)); [done..|set_solver]. }
  intros r k2 (_ & Hk2 & Etm & Eth & Ee & Ec & Eo).
  destruct (only_event_env e v' k k2) as [Honly Ev2]; [done|done|].
  eexists. split_and!; try done.
  - rewrite <- (filter_ne_middle t ts1 ts2) by done. by apply waiters_woken.
  - eapply others_woken; [exact Hk|exact Hq|set_solver].
Qed.

Lemma event_send_loop_spec fuel : forall k Q e kept0 ts n need set' kept served,
  KI k Q -> waiters Q (SuspHead (OEvent e)) (kept0 ++ ts) ->
  head ((TList <$> ts) ++ [SuspHead (OEvent e)]) = Some n -> (length ts < fuel)%nat ->
  deliver (threads k) (event_sets k e) ts = (set', kept, served) ->
  wp (event_send_loop fuel e n need) (fun r k' => r = need || negb (bool_decide (served = [])) /\
    exists Q', KI k' Q' /\ waiters Q' (SuspHead (OEvent e)) (kept0 ++ kept) /\
    others (SuspHead (OEvent e)) Q Q' /\ only_event e k k' /\ event_sets k' e = set' /\
    (forall t v, (t, v) ∈ served -> threads k' t = serve v (threads k t)) /\
    (forall t, t ∉ served.*1 -> threads k' t = threads k t)) k.
Proof.
  induction fuel as [|fuel IH]; intros k Q e kept0 ts n need set' kept served Hk Hq Hn Hf Hd; [lia|].
  simpl. destruct ts as [|t ts]; simpl in Hn, Hd.
  { injection Hn as <-. injection Hd as <- <- <-. rewrite decide_True by done. wp_pure.
    split; [by rewrite orb_false_r|]. exists Q. split_and!; try done; [by intros l' ts'|].
    by intros t v ?%not_elem_of_nil. }
  injection Hn as <-. rewrite decide_False by done. wp_step. eapply wp_of_option; [done|].
  pose proof (waiters_NoDup _ _ _ _ _ Hk Hq) as Hnd. apply NoDup_delete_middle in Hnd as [Hnd Hnt].
  wp_use (event_check_spec k Q e t); [done|]. intros ok k1 (-> & Hk1 & Hno & Hyes). wp_pure.
  assert (get_next (lists k1) (TList t) = head ((TList <$> ts) ++ [SuspHead (OEvent e)])) as Hnext.
  { apply (Rep_next_at _ Q _ (TList <$> (kept0 ++ [t]))); [apply Hk1| |].
    - unfold waiters in Hq. rewrite Hq. by rewrite <- fmap_app, <- app_assoc.
    - rewrite fmap_app, app_comm_cons. change (TList <$> [t]) with [TList t]. by rewrite last_snoc. }
  destruct (head ((TList <$> ts) ++ [SuspHead (OEvent e)])) as [nx|] eqn:Hnx; [|by destruct ts].
  eapply wp_of_option; [done|].
  destruct (accepts (event_sets k e) (threads k t)) eqn:Ha.
  - specialize (Hyes eq_refl). destruct (deliver (threads k) (remaining _ _) ts) as [[s1 kp] sv] eqn:E.
    injection Hd as -> -> <-.
    assert (threads k1 t = set_event_set (received (event_sets k e) (threads k t)) (threads k t)) as Et1
      by (rewrite Hyes; apply fn_lookup_insert).
    apply wp_assoc. wp_use (event_serve_spec k1 Q e t kept0 ts); [done|done|done|].
    intros r k2 (Q2 & Hk2 & Hq2 & Hoth2 & Honly2 & Ev2 & Eth2).
    assert (forall x, x <> t -> threads k2 x = threads k x) as Hoth.
    { intros x Hx. rewrite Eth2, fn_lookup_insert_ne, Hyes by done. by apply fn_lookup_insert_ne. }
    assert (threads k2 t = serve (received (event_sets k e) (threads k t)) (threads k t)) as Et2
      by (by rewrite Eth2, fn_lookup_insert, Et1).
    assert (event_sets k2 e = remaining (event_sets k e) (threads k t)) as Es2.
    { rewrite Ev2, Et1. unfold remaining. by rewrite Hyes. }
    eapply wp_mono; [eapply (IH k2 Q2 e kept0 ts nx true); [done|done|done|simpl in Hf; lia|]|].
    { rewrite Es2, (deliver_ext (threads k)); [exact E|]. intros x Hx. apply Hoth. set_solver. }
    simpl. intros r' k3 (-> & Q3 & Hk3 & Hq3 & Hoth3 & Honly3 & Es3 & Hs3 & Hn3).
    split; [by rewrite orb_true_r|]. exists Q3.
    assert (t ∉ sv.*1) as Htsv.
    { intros Hin. apply Hnt, elem_of_app. right. rewrite (deliver_perm _ _ _ _ _ _ E). set_solver. }
    split_and!; try done.
    + by eapply others_trans.
    + eapply only_event_trans; [|done]. eapply only_event_trans; [|done]. rewrite Hyes. done.
    + intros x v [[= -> ->]|Hin]%elem_of_cons; [by rewrite Hn3|].
      assert (x <> t) by (intros ->; apply Htsv; by apply (list_elem_of_fmap_2 fst _ (t, v))).
      rewrite (Hs3 x v Hin). by rewrite Hoth.
    + intros x [Hx Hni]%not_elem_of_cons. rewrite Hn3 by done. by apply Hoth.
  - rewrite (Hno eq_refl). destruct (deliver (threads k) (event_sets k e) ts) as [[s1 kp] sv] eqn:E.
    injection Hd as -> <- ->.
    eapply wp_mono; [eapply (IH k Q e (kept0 ++ [t]) ts nx); [done|by rewrite <- app_assoc|done|simpl in Hf; lia|exact E]|].
    simpl. intros r k' (-> & Q' & ? & Hq' & ?). split; [done|]. exists Q'. rewrite <- app_assoc in Hq'. done.
Qed.

(** No thread waits for flags that are set. *)
Record event_rep k Q e ts : Prop := {
  er_queue : waiters Q (SuspHead (OEvent e)) ts;
  er_flag : flag (objects k (OEvent e)) = RT_IPC_FLAG_FIFO \/
            flag (objects k (OEvent e)) = RT_IPC_FLAG_PRIO;
  er_unsatisfied : forall t, t ∈ ts -> accepts (event_sets k e) (threads k t) = false }.

(** ** Sending *)

(** C22: rt_event_send adds the flags and then serves the waiting threads in order, each with
    the flags left by those before it: exactly those whose AND or OR condition holds become
    ready with the flags they received, and no thread left in the queue has a satisfied
    condition. *)
Theorem rt_event_send_spec k Q e ts set set' kept served t0 :
  KI k Q -> event_rep k Q e ts -> readyp (threads k t0) -> set <> 0 ->
  deliver (threads k) (Z.lor (event_sets k e) set) ts = (set', kept, served) ->
  wp (rt_event_send e set) (fun r k' => r = RT_EOK /\ exists Q',
    KI k' Q' /\ event_rep k' Q' e kept /\ others (SuspHead (OEvent e)) Q Q' /\ only_event e k k' /\
    event_sets k' e = set' /\
    (forall t v, (t, v) ∈ served -> threads k' t = serve v (threads k t)) /\
    (forall t, t ∉ served.*1 -> threads k' t = threads k t)) k.
Proof.
  intros Hk [Hq Hfl Hun] Hr0 Hset Hd. unfold rt_event_send. rewrite (proj2 (Z.eqb_neq _ _)) by done.
  unfold upd_event. wp_pure. set (k1 := set_event_sets _ k).
  assert (event_sets k1 e = Z.lor (event_sets k e) set) as Es1 by apply fn_lookup_insert.
  assert (only_event e k k1) as Honly1.
  { split_and!; try done. intros e' He. by apply fn_lookup_insert_ne. }
  eapply (wp_mono _ (fun r k' => exists Q', KI k' Q' /\
    waiters Q' (SuspHead (OEvent e)) kept /\ others (SuspHead (OEvent e)) Q Q' /\ only_event e k k' /\
    event_sets k' e = set' /\
    (forall t v, (t, v) ∈ served -> threads k' t = serve v (threads k t)) /\
    (forall t, t ∉ served.*1 -> threads k' t = threads k t))).
  { unfold list_isempty. change (lists k1) with (lists k). rewrite (Rep_isempty _ _ _ _ (ki_rep _ _ _ _ _ _ Hk) Hq).
    destruct ts as [|t ts].
    - rewrite bool_decide_true by done. cbn [negb]. injection Hd as <- <- <-. wp_pure. exists Q. split_and!; try done; [by intros l' ts'|].
      by intros t v ?%not_elem_of_nil.
    - rewrite bool_decide_false by done. cbn [negb].
      wp_step. eapply wp_of_option; [by rewrite (Rep_next _ _ _ _ (ki_rep _ _ _ _ _ _ Hk) Hq)|].
      eapply wp_mono; [eapply (event_send_loop_spec _ k1 Q e [] (t :: ts)); [done|done|done| |by rewrite Es1]|].
      { pose proof (Rep_length _ _ _ _ (ki_rep _ _ _ _ _ _ Hk) Hq) as Hlen. rewrite length_fmap in Hlen. simpl in *. lia. }
      intros r k2 (_ & Q2 & ? & ? & ? & ? & ? & ? & ?). exists Q2. split_and!; try done.
      by eapply only_event_trans. }
  intros r k2 (Q2 & Hk2 & Hq2 & Hoth2 & Honly2 & Es2 & Hs2 & Hn2).
  assert (event_rep k2 Q2 e kept) as Hrep2.
  { split; [done|rewrite (proj2 (proj2 (proj2 (proj2 (proj2 (proj2 Honly2)))))); done|].
    intros t Ht. rewrite Es2, Hn2; [by eapply deliver_complete|]. intros Hin.
    pose proof (deliver_perm _ _ _ _ _ _ Hd) as Hp. pose proof (waiters_NoDup _ _ _ _ _ Hk Hq) as Hnd.
    rewrite Hp in Hnd. apply NoDup_app in Hnd as (_ & Hdis & _). by apply (Hdis t). }
  destruct r; [|wp_pure; split; [done|by exists Q2]].
  wp_step. wp_use (rt_schedule_spec _ k2 Q2 t0); [exact Hk2| |].
  { destruct (decide (t0 ∈ served.*1)) as [Hin|Hni]; [|by rewrite Hn2].
    apply list_elem_of_fmap in Hin as ([x v] & -> & Hin). simpl. by rewrite (Hs2 x v Hin). }
  intros [] k3 Hsch. destruct (scheduled_frame _ _ _ Hsch) as (E1 & E2 & E3 & _). wp_pure.
  injection E2 as Es Em Eev Emb Emq Enl Eni Etk.
  split; [done|]. exists Q2. rewrite E1, Eev. split_and!; try done.
  - by eapply scheduled_KI.
  - destruct Hrep2 as [? ? ?]. split; [done|by rewrite E3|]. by rewrite E1, Eev.
  - eapply only_event_trans; [done|]. split_and!; try done; [by rewrite Eev|].
    unfold nest_part. by rewrite Enl, Eni, Etk.
Qed.

(** ** Receiving *)

(** The condition a caller of rt_event_recv states, as the thread would record it. *)
Definition asks (set opt : Z) (th : rt_thread) : rt_thread := set_event_info opt (set_event_set set th).

(** The condition itself: all of the flags asked for are there, or one of them. *)
Definition wanted (set opt v : Z) : bool :=
  if has_flag opt RT_EVENT_FLAG_AND then Z.land v set =? set else negb (Z.land v set =? 0).

Lemma wanted_accepts set opt v th :
  has_flag opt RT_EVENT_FLAG_AND = true \/ has_flag opt RT_EVENT_FLAG_OR = true ->
  wanted set opt v = accepts v (asks set opt th).
Proof.
  unfold wanted, accepts, asks. simpl. rewrite (Z.land_comm set v).
  by destruct (has_flag opt RT_EVENT_FLAG_AND); [|intros [?| ->]].
Qed.

Definition recv_effect (set opt timeout : Z) e t ts k (k' : kernel) ts' (r : call_result (Z * option Z)) : Prop :=
  match r with
  | Done (z, v) =>
      ts' = ts /\
      if wanted set opt (event_sets k e) then
        z = RT_EOK /\ v = Some (Z.land (event_sets k e) set) /\
        event_sets k' e = (if has_flag opt RT_EVENT_FLAG_CLEAR
                           then Z.land (event_sets k e) (u32 (Z.lnot set)) else event_sets k e)
      else z = - RT_ETIMEOUT /\ v = None /\ timeout = 0 /\ event_sets k' e = event_sets k e
  | Blocked =>
      wanted set opt (event_sets k e) = false /\ timeout <> 0 /\
      event_sets k' e = event_sets k e /\ suspendedp (threads k' t) /\
      (exists ts1 ts2, ts = ts1 ++ ts2 /\ ts' = ts1 ++ t :: ts2) /\
      rt_event_recv_wakeup t k' = (RT_EOK, Some set)
  end.

Lemma status_accepts set opt v th :
  (if has_flag opt RT_EVENT_FLAG_AND then Z.land v set =? set
   else if has_flag opt RT_EVENT_FLAG_OR then negb (Z.land v set =? 0) else false) =
  accepts v (asks set opt th).
Proof. unfold accepts, asks. simpl. by rewrite (Z.land_comm set v). Qed.

Lemma KIx_set_threads act k Q ths :
  (forall t, core (ths t) = core (threads k t)) -> KIx act k Q -> KIx act (set_threads ths k) Q.
Proof. intros E Hk. unfold KIx. simpl. by eapply (ki_ext _ (threads k)). Qed.

Lemma accepts_error v z th : accepts v (set_error z th) = accepts v th.
Proof. done. Qed.

(** A caller whose condition does not hold waits, with what it asks for in its control block. *)
Lemma recv_waits k Q e ts set opt timeout t t0 :
  KI k Q -> event_rep k Q e ts -> readyp (threads k t) -> t0 <> t -> readyp (threads k t0) ->
  accepts (event_sets k e) (asks set opt (threads k t)) = false -> wanted set opt (event_sets k e) = false ->
  timeout <> 0 ->
  let k1 := set_threads (<[t := asks set opt (set_error RT_EOK (threads k t))]> (threads k)) k in
  wp (rt_ipc_list_suspend (SuspHead (OEvent e)) t (flag (objects k1 (OEvent e))) ;! ipc_wait t timeout ;! ret Blocked)
    (fun r k' => exists Q' ts', KI k' Q' /\ event_rep k' Q' e ts' /\ others (SuspHead (OEvent e)) Q Q' /\ only_event e k k' /\
      recv_effect set opt timeout e t ts k k' ts' r) k1.
Proof.
  intros Hk [Hq Hfl Hun] Hr Hne Hr0 Ha Hw Ht k1. assert (KI k1 Q) as Hk2 by (by apply KIx_upd_thread).
  apply wp_bind, (wp_block k1 Q _ ts t t0); [done|unfold k1; simpl; by rewrite fn_lookup_insert|done..|unfold k1; simpl; by rewrite fn_lookup_insert_ne|].
  intros ts1 ts2 k2 -> (_ & Eth & Ee & Eo & _ & Q2 & Hk3 & Hl2 & Hoth & _). unfold k1 in *. unfold recv_effect. rewrite Hw.
  simpl in *. rewrite fn_lookup_insert, fn_insert_insert' in *.
  injection Ee as Es Em Eev Emb Emq Enl Eni Etk. apply wp_ret. exists Q2, (ts1 ++ t :: ts2). split_and!; try done.
  - split; [done|by rewrite Eo|]. rewrite Eev. simpl. intros x Hx. rewrite Eth, fn_insert_case. case_decide as E.
    + subst. exact Ha.
    + apply Hun. set_solver.
  - split_and!; try done; [by rewrite Eev|]. unfold nest_part. by rewrite Enl, Eni, Etk.
  - by rewrite Eev.
  - by rewrite Eth, fn_lookup_insert.
  - by exists ts1, ts2.
  - unfold rt_event_recv_wakeup. by rewrite Eth, fn_lookup_insert.
Qed.

(** C23: rt_event_recv with an option that asks for all or for one of the flags (as the source
    requires) on each branch: an empty set is refused with -RT_ERROR and nothing changes; a
    satisfied condition returns the received flags and clears them on request; an unsatisfied
    one fails with -RT_ETIMEOUT when no wait is allowed and otherwise suspends the thread with
    its request recorded. *)
Theorem rt_event_recv_spec k Q e ts set opt timeout t t0 :
  KI k Q -> event_rep k Q e ts -> rt_current_thread k = Some t -> readyp (threads k t) ->
  t0 <> t -> readyp (threads k t0) ->
  has_flag opt RT_EVENT_FLAG_AND = true \/ has_flag opt RT_EVENT_FLAG_OR = true ->
  wp (rt_event_recv e set opt timeout) (fun r k' =>
    if decide (set = 0) then r = Done (- RT_ERROR, None) /\ k' = k
    else exists Q' ts',
      KI k' Q' /\ event_rep k' Q' e ts' /\ others (SuspHead (OEvent e)) Q Q' /\ only_event e k k' /\
      recv_effect set opt timeout e t ts k k' ts' r) k.
Proof.
  intros Hk Hrep Hcur Hr Hne Hr0 Hopt. unfold rt_event_recv. pose proof Hrep as [Hq Hfl Hun].
  case_decide as Hset; [by subst; apply wp_ret|].
  rewrite (proj2 (Z.eqb_neq _ _)) by done. unfold upd_thread, upd_event. wp_pure.
  eapply wp_of_option; [exact Hcur|]. wp_pure. cbv zeta. rewrite (status_accepts _ _ _ (threads k t)).
  assert (t ∉ ts) as Hnt.
  { intros Hin. eapply ready_not_suspended; [exact Hr|].
    eapply (waiter_suspended _ k Q (SuspHead (OEvent e)) ts); done. }
  assert (forall x z, accepts z (<[t := set_error RT_EOK (threads k t)]> (threads k) x) = accepts z (threads k x))
    as Hacc by (intros x z; rewrite fn_insert_case; case_decide; by subst).
  assert (KI (set_threads (<[t := set_error RT_EOK (threads k t)]> (threads k)) k) Q) as Hk1 by by apply KIx_upd_thread.
  pose proof (wanted_accepts set opt (event_sets k e) (threads k t) Hopt) as Hw. unfold recv_effect. rewrite Hw.
  destruct (accepts (event_sets k e) (asks set opt (threads k t))) eqn:Ha.
  { destruct (has_flag opt RT_EVENT_FLAG_CLEAR); wp_pure; exists Q, ts.
    - split_and!; try done.
      + split; [done|done|]. simpl. rewrite fn_lookup_insert. intros x Hx. rewrite Hacc.
        destruct (accepts (Z.land _ _) (threads k x)) eqn:Ex; [|done].
        rewrite <- (Hun x Hx). symmetry. eapply accepts_mono; [|exact Ex]. apply included_land.
      + by intros l' ts'.
      + split; [|done]. intros e' He. by apply fn_lookup_insert_ne.
      + simpl. by rewrite fn_lookup_insert.
    - split_and!; try done; [|by intros l' ts'].
      split; [done|done|]. intros x Hx. simpl. rewrite Hacc. by apply Hun. }
  destruct (Z.eqb_spec timeout 0) as [->|Ht].
  { wp_pure. exists Q, ts. simpl. rewrite fn_lookup_insert, fn_insert_insert'. split_and!; try done.
    - apply (KIx_set_threads _ k); [|exact Hk]. intros x. rewrite fn_insert_case. case_decide; by subst.
    - split; [done|done|]. intros x Hx. simpl. rewrite fn_lookup_insert_ne by (by intros ->). by apply Hun.
    - by intros l' ts'. }
  wp_pure. simpl. rewrite !fn_lookup_insert, !fn_insert_insert'.
  pose proof (recv_waits k Q e ts set opt timeout t t0 Hk Hrep Hr Hne Hr0 Ha Hw Ht) as H. unfold recv_effect in H. rewrite Hw in H. apply wp_bind_inv in H. exact H.
Qed.
End refinement.
