(* ===== verification/Mailbox.v ===== *)
(** Mailboxes (src/ipc.c): a ring buffer of 32-bit messages with a list of
    waiting receivers and a list of waiting senders.

    rt_mb_send_wait and rt_mb_recv loop: a thread that wakes up looks at the
    mailbox again and may have to wait again, for the time that is left.  A call
    that blocks carries the locals of its loop, [timeout] and [tick_delta]. *)

From S2P Require Import Prelude RtList KState Ffs KInv Sched Object Timer Thread ThreadLife Ipc.

Open Scope Z_scope.

(** * Operations *)

Inductive loop_result (A : Type) : Type :=
| Returns (a : A)
| Waits (timeout tick_delta : Z).
Arguments Returns {A} a.
Arguments Waits {A} timeout tick_delta.

Definition upd_mb (b : nat) (f : rt_mailbox -> rt_mailbox) : K unit :=
  modify (fun k => set_mailboxes (<[b := f (mailboxes k b)]> (mailboxes k)) k).

(** rt_mb_init; [size] is an [rt_uint16_t] in the struct. *)
Definition rt_mb_init (b : nat) (nm : list Z) (msgpool : list Z) (size fl : Z) : K Z :=
  rt_object_init (OMailBox b) nm ;!
  upd_object (OMailBox b) (set_flag fl) ;!
  rt_ipc_object_init (OMailBox b) ;!
  upd_mb b (set_msg_pool msgpool) ;!
  upd_mb b (set_mb_size (u16 size)) ;!
  upd_mb b (set_mb_entry 0) ;!
  upd_mb b (set_in_offset 0) ;!
  upd_mb b (set_out_offset 0) ;!
  list_init (SenderHead b) ;!
  ret RT_EOK.

(** rt_mb_detach *)
Definition rt_mb_detach (b : nat) : K Z :=
  rt_ipc_list_resume_all (SuspHead (OMailBox b)) ;!
  rt_ipc_list_resume_all (SenderHead b) ;!
  rt_object_detach (OMailBox b) ;!
  ret RT_EOK.

(** [msg_pool[i]]: an index outside the array is an error. *)
Definition pool_get (pool : list Z) (i : Z) : option Z :=
  if 0 <=? i then pool !! Z.to_nat i else None.
Definition pool_set (pool : list Z) (i v : Z) : option (list Z) :=
  match pool_get pool i with Some _ => Some (<[Z.to_nat i := v]> pool) | None => None end.

(** [++ offset; if (offset >= size) offset = 0;] on 16-bit fields *)
Definition next_offset (offset size : Z) : Z :=
  let offset := u16 (offset + 1) in if offset >=? size then 0 else offset.

(** rt_mb_send_wait from the store of the message on. *)
Definition mb_put (b : nat) (value : Z) : K Z :=
  let! k := get in
  let mb := mailboxes k b in
  let! pool := of_option BadPointer (pool_set (msg_pool mb) (in_offset mb) value) in
  upd_mb b (set_msg_pool pool) ;!
  upd_mb b (fun mb => set_in_offset (next_offset (in_offset mb) (mb_size mb)) mb) ;!
  upd_mb b (fun mb => set_mb_entry (u16 (mb_entry mb + 1)) mb) ;!
  wake_other (SuspHead (OMailBox b)) ;!
  ret RT_EOK.

(** The loop of rt_mb_send_wait. *)
Definition mb_send_loop (b : nat) (value timeout tick_delta : Z) : K (loop_result Z) :=
  let! k := get in
  if mb_entry (mailboxes k b) =? mb_size (mailboxes k b) then
    let! t := of_option NullDeref (rt_thread_self k) in
    upd_thread t (set_error RT_EOK) ;!
    if timeout =? 0 then ret (Returns (- RT_EFULL))
    else
      rt_ipc_list_suspend (SenderHead b) t (flag (objects k (OMailBox b))) ;!
      ipc_wait t timeout ;!
      ret (Waits timeout (if timeout >? 0 then rt_tick_get k else tick_delta))
  else
    let! r := mb_put b value in ret (Returns r).

Definition rt_mb_send_wait (b : nat) (value timeout : Z) : K (loop_result Z) :=
  let! k := get in
  if (mb_entry (mailboxes k b) =? mb_size (mailboxes k b)) && (timeout =? 0)
  then ret (Returns (- RT_EFULL))
  else mb_send_loop b value timeout 0.

(** The time left after waking up: [timeout -= tick_delta] on an [rt_int32_t]. *)
Definition time_left (timeout tick_delta now : Z) : Z :=
  if timeout >? 0 then
    let left := s32 (timeout - u32 (now - tick_delta)) in if left <? 0 then 0 else left
  else timeout.

(** The rest of the loop body, when the thread runs again. *)
Definition rt_mb_send_wakeup (t b : nat) (value timeout tick_delta : Z) : K (loop_result Z) :=
  let! k := get in
  if negb (error (threads k t) =? RT_EOK) then ret (Returns (error (threads k t)))
  else mb_send_loop b value (time_left timeout tick_delta (rt_tick_get k))
         (if timeout >? 0 then u32 (rt_tick_get k - tick_delta) else tick_delta).

(** rt_mb_send *)
Definition rt_mb_send (b : nat) (value : Z) : K (loop_result Z) := rt_mb_send_wait b value 0.

(** rt_mb_recv from the read of the message on; the result is the error code and
    the message. *)
Definition mb_get (b : nat) : K (Z * option Z) :=
  let! k := get in
  let mb := mailboxes k b in
  let! value := of_option BadPointer (pool_get (msg_pool mb) (out_offset mb)) in
  upd_mb b (fun mb => set_out_offset (next_offset (out_offset mb) (mb_size mb)) mb) ;!
  upd_mb b (fun mb => set_mb_entry (u16 (mb_entry mb - 1)) mb) ;!
  wake_other (SenderHead b) ;!
  ret (RT_EOK, Some value).

Definition mb_recv_loop (b : nat) (timeout tick_delta : Z) : K (loop_result (Z * option Z)) :=
  let! k := get in
  if mb_entry (mailboxes k b) =? 0 then
    let! t := of_option NullDeref (rt_thread_self k) in
    upd_thread t (set_error RT_EOK) ;!
    if timeout =? 0 then
      upd_thread t (set_error (- RT_ETIMEOUT)) ;!
      ret (Returns (- RT_ETIMEOUT, None))
    else
      rt_ipc_list_suspend (SuspHead (OMailBox b)) t (flag (objects k (OMailBox b))) ;!
      ipc_wait t timeout ;!
      ret (Waits timeout (if timeout >? 0 then rt_tick_get k else tick_delta))
  else
    let! r := mb_get b in ret (Returns r).

(** rt_mb_recv *)
Definition rt_mb_recv (b : nat) (timeout : Z) : K (loop_result (Z * option Z)) :=
  let! k := get in
  if (mb_entry (mailboxes k b) =? 0) && (timeout =? 0)
  then ret (Returns (- RT_ETIMEOUT, None))
  else mb_recv_loop b timeout 0.

Definition rt_mb_recv_wakeup (t b : nat) (timeout tick_delta : Z) : K (loop_result (Z * option Z)) :=
  let! k := get in
  if negb (error (threads k t) =? RT_EOK) then ret (Returns (error (threads k t), None))
  else mb_recv_loop b (time_left timeout tick_delta (rt_tick_get k))
         (if timeout >? 0 then u32 (rt_tick_get k - tick_delta) else tick_delta).

(** rt_mb_control *)
Definition rt_mb_control (b : nat) (cmd arg : Z) : K Z :=
  if cmd =? RT_IPC_CMD_RESET then
    rt_ipc_list_resume_all (SuspHead (OMailBox b)) ;!
    rt_ipc_list_resume_all (SenderHead b) ;!
    upd_mb b (set_mb_entry 0) ;!
    upd_mb b (set_in_offset 0) ;!
    upd_mb b (set_out_offset 0) ;!
    rt_schedule ;!
    ret RT_EOK
  else ret (- RT_ERROR).

(** * The ring buffer is a bounded queue *)

(** The [n] messages from [out] on. *)
Definition ring_contents (pool : list Z) (size out : Z) (n : nat) : list Z :=
  (fun i => nth (Z.to_nat ((out + Z.of_nat i) mod size)) pool 0) <$> seq 0 n.

Definition contents (mb : rt_mailbox) : list Z :=
  ring_contents (msg_pool mb) (mb_size mb) (out_offset mb) (Z.to_nat (mb_entry mb)).

Record mb_ok (mb : rt_mailbox) : Prop := {
  mb_size_ok : 0 < mb_size mb < 65536;
  mb_pool_ok : mb_size mb <= Z.of_nat (length (msg_pool mb));
  mb_entry_ok : 0 <= mb_entry mb <= mb_size mb;
  mb_out_ok : 0 <= out_offset mb < mb_size mb;
  mb_in_ok : in_offset mb = (out_offset mb + mb_entry mb) mod mb_size mb }.

Lemma next_offset_mod offset size :
  0 <= offset < size -> size < 65536 -> next_offset offset size = (offset + 1) mod size.
Proof.
  intros Ho Hs. unfold next_offset. rewrite u16_small by lia. rewrite Z.geb_leb.
  destruct (Z.leb_spec size (offset + 1)).
  - assert (offset + 1 = size) as -> by lia. by rewrite Z.mod_same by lia.
  - by rewrite Z.mod_small by lia.
Qed.

Lemma mod_offsets_ne a i j size :
  0 <= i -> i < j -> j < i + size -> (a + i) mod size <> (a + j) mod size.
Proof.
  intros Hi Hij Hj E. assert (0 < size) by lia.
  assert ((j - i) mod size = 0) as E0.
  { replace (j - i) with ((a + j) - (a + i)) by lia. rewrite Zminus_mod, E, Z.sub_diag. by apply Z.mod_0_l; lia. }
  rewrite Z.mod_small in E0 by lia. lia.
Qed.

Lemma ring_contents_push pool size out n v :
  0 < size -> size <= Z.of_nat (length pool) -> Z.of_nat n < size ->
  ring_contents (<[Z.to_nat ((out + Z.of_nat n) mod size) := v]> pool) size out (S n) =
  ring_contents pool size out n ++ [v].
Proof.
  intros Hs Hl Hn. unfold ring_contents. rewrite seq_S, fmap_app. simpl.
  pose proof (Z.mod_pos_bound (out + Z.of_nat n) size Hs) as Hb. f_equal.
  - apply list_fmap_ext_in. intros i Hi%elem_of_seq.
    pose proof (Z.mod_pos_bound (out + Z.of_nat i) size Hs) as Hbi.
    rewrite !nth_lookup, list_lookup_insert_ne; [done|].
    intros E. apply (mod_offsets_ne out (Z.of_nat i) (Z.of_nat n) size); lia.
  - f_equal. rewrite nth_lookup, list_lookup_insert_eq by lia. done.
Qed.

Lemma ring_contents_pop pool size out n :
  0 < size -> 0 <= out < size ->
  ring_contents pool size out (S n) = nth (Z.to_nat out) pool 0 :: ring_contents pool size ((out + 1) mod size) n.
Proof.
  intros Hs Ho. unfold ring_contents. simpl. rewrite Z.add_0_r, Z.mod_small by lia. f_equal.
  rewrite <- seq_shift, <- list_fmap_compose. apply list_fmap_ext_in. intros i _. simpl.
  f_equal. f_equal. rewrite Z.add_mod_idemp_l by lia. f_equal. lia.
Qed.

(** A message enters, a message leaves. *)
Definition put (v : Z) (mb : rt_mailbox) : rt_mailbox :=
  mk_mailbox (<[Z.to_nat (in_offset mb) := v]> (msg_pool mb)) (mb_size mb) (u16 (mb_entry mb + 1))
    (next_offset (in_offset mb) (mb_size mb)) (out_offset mb).
Definition taken (mb : rt_mailbox) : rt_mailbox :=
  mk_mailbox (msg_pool mb) (mb_size mb) (u16 (mb_entry mb - 1)) (in_offset mb)
    (next_offset (out_offset mb) (mb_size mb)).

Lemma contents_length mb : mb_ok mb -> Z.of_nat (length (contents mb)) = mb_entry mb.
Proof.
  intros [? ? ? ? ?]. unfold contents, ring_contents. rewrite length_fmap, length_seq. lia.
Qed.

Lemma mb_in_range mb : mb_ok mb -> 0 <= in_offset mb < mb_size mb.
Proof. intros [? ? ? ? ->]. apply Z.mod_pos_bound. lia. Qed.

Lemma put_ok v mb : mb_ok mb -> mb_entry mb < mb_size mb -> mb_ok (put v mb).
Proof.
  intros Hok Hlt. pose proof (mb_in_range mb Hok) as Hin. destruct Hok as [H1 H2 H3 H4 H5].
  split; simpl; rewrite ?length_insert, ?u16_small by lia; try lia.
  rewrite next_offset_mod by lia. rewrite H5, Z.add_mod_idemp_l by lia. f_equal. lia.
Qed.

Lemma put_contents v mb :
  mb_ok mb -> mb_entry mb < mb_size mb -> contents (put v mb) = contents mb ++ [v].
Proof.
  intros Hok Hlt. destruct Hok as [H1 H2 H3 H4 H5]. unfold contents, put. simpl.
  rewrite u16_small by lia. replace (Z.to_nat (mb_entry mb + 1)) with (S (Z.to_nat (mb_entry mb))) by lia.
  rewrite <- ring_contents_push by lia. rewrite H5, Z2Nat.id by lia. done.
Qed.

Lemma taken_ok mb : mb_ok mb -> 0 < mb_entry mb -> mb_ok (taken mb).
Proof.
  intros [H1 H2 H3 H4 H5] Hlt.
  split; simpl; rewrite ?u16_small by lia; try lia; rewrite next_offset_mod by lia.
  - apply Z.mod_pos_bound. lia.
  - rewrite H5, Z.add_mod_idemp_l by lia. f_equal. lia.
Qed.

Lemma taken_contents mb :
  mb_ok mb -> 0 < mb_entry mb ->
  exists v, pool_get (msg_pool mb) (out_offset mb) = Some v /\ contents mb = v :: contents (taken mb).
Proof.
  intros [H1 H2 H3 H4 H5] Hlt. unfold pool_get. rewrite (proj2 (Z.leb_le _ _)) by lia.
  destruct (lookup_lt_is_Some_2 (msg_pool mb) (Z.to_nat (out_offset mb))) as [v Hv]; [lia|].
  exists v. split; [done|]. unfold contents, taken. simpl. rewrite u16_small by lia.
  replace (Z.to_nat (mb_entry mb)) with (S (Z.to_nat (mb_entry mb - 1))) by lia.
  rewrite ring_contents_pop, next_offset_mod by lia. f_equal.
  by rewrite nth_lookup, Hv.
Qed.

(** * Specifications *)

Section refinement.
Implicit Types (k : kernel) (Q : gmap node (list node)) (b t : nat) (rs ss : list nat).

(** A mailbox with receivers [rs] and senders [ss] waiting. *)
Record mb_rep k Q b rs ss : Prop := {
  mbr_recv : waiters Q (SuspHead (OMailBox b)) rs;
  mbr_send : waiters Q (SenderHead b) ss;
  mbr_flag : flag (objects k (OMailBox b)) = RT_IPC_FLAG_FIFO \/
             flag (objects k (OMailBox b)) = RT_IPC_FLAG_PRIO;
  mbr_ok : mb_ok (mailboxes k b) }.

Definition other_lists b Q Q' : Prop :=
  forall l ts, wait_head l = true -> l <> SuspHead (OMailBox b) -> l <> SenderHead b ->
    waiters Q l ts -> waiters Q' l ts.

Definition only_mb b k k' : Prop :=
  (forall b', b' <> b -> mailboxes k' b' = mailboxes k b') /\
  sem_value k' = sem_value k /\ mutexes k' = mutexes k /\ event_sets k' = event_sets k /\
  mqs k' = mqs k /\ nest_part k' = nest_part k /\ same_objects k k'.

Lemma only_mb_env b mb k k' :
  env k' = env (set_mailboxes (<[b := mb]> (mailboxes k)) k) -> same_objects k k' ->
  only_mb b k k' /\ mailboxes k' b = mb.
Proof.
  intros [= Es Em Eev Emb Emq Enl Eni Etk] Eo. split; [|by rewrite Emb; apply fn_lookup_insert].
  split_and!; try done; [|unfold nest_part; by rewrite Enl, Eni, Etk].
  intros b' Hb. rewrite Emb. by apply fn_lookup_insert_ne.
Qed.

(** ** Storing and fetching a message *)

Lemma mb_put_spec k Q b rs ss v :
  KI k Q -> mb_rep k Q b rs ss -> mb_entry (mailboxes k b) < mb_size (mailboxes k b) ->
  wp (mb_put b v) (fun r k' => r = RT_EOK /\ exists Q', KI k' Q' /\
    mb_rep k' Q' b (tail rs) ss /\ other_lists b Q Q' /\ only_mb b k k' /\
    contents (mailboxes k' b) = contents (mailboxes k b) ++ [v] /\
    threads k' = wake_first rs (threads k) /\ preempts rs k k') k.
Proof.
  intros Hk [Hr Hs Hfl Hok] Hlt. pose proof (mb_in_range _ Hok) as Hin.
  pose proof (put_ok v _ Hok Hlt) as Hok'. pose proof (put_contents v _ Hok Hlt) as Hc'.
  unfold mb_put, upd_mb. wp_pure.
  assert (pool_set (msg_pool (mailboxes k b)) (in_offset (mailboxes k b)) v =
          Some (<[Z.to_nat (in_offset (mailboxes k b)) := v]> (msg_pool (mailboxes k b)))) as Hps.
  { unfold pool_set, pool_get. rewrite (proj2 (Z.leb_le _ _)) by lia.
    destruct (lookup_lt_is_Some_2 (msg_pool (mailboxes k b)) (Z.to_nat (in_offset (mailboxes k b)))) as [x ->];
      [destruct Hok; lia|done]. }
  eapply wp_of_option; [exact Hps|]. wp_pure. simpl. rewrite !fn_lookup_insert, !fn_insert_insert'. simpl.
  set (k1 := set_mailboxes _ (set_mailboxes _ _)).
  assert (k1 = set_mailboxes (<[b := put v (mailboxes k b)]> (mailboxes k)) k) as E1 by reflexivity.
  clearbody k1. subst k1. set (k1 := set_mailboxes _ k).
  wp_use (wake_other_spec k1 Q (SuspHead (OMailBox b)) rs); [done|done|done|].
  intros [] k2 (Q2 & Hk2 & Hl2 & Hoth & Eth & Ee & Eo & Hpre). wp_pure. split; [done|]. exists Q2.
  destruct (only_mb_env b (put v (mailboxes k b)) k k2 Ee Eo) as [Honly Emb].
  split_and!; try done.
  - split; [done|by apply Hoth|by rewrite Eo|by rewrite Emb].
  - intros l ts Hw Hn1 Hn2 Hl. by apply Hoth.
  - by rewrite Emb.
Qed.

Lemma mb_get_spec k Q b rs ss :
  KI k Q -> mb_rep k Q b rs ss -> 0 < mb_entry (mailboxes k b) ->
  wp (mb_get b) (fun r k' => exists v Q', r = (RT_EOK, Some v) /\ KI k' Q' /\
    mb_rep k' Q' b rs (tail ss) /\ other_lists b Q Q' /\ only_mb b k k' /\
    contents (mailboxes k b) = v :: contents (mailboxes k' b) /\
    threads k' = wake_first ss (threads k)) k.
Proof.
  intros Hk [Hr Hs Hfl Hok] Hlt. pose proof (taken_ok _ Hok Hlt) as Hok'.
  destruct (taken_contents _ Hok Hlt) as (v & Hv & Hc).
  unfold mb_get, upd_mb. wp_pure. eapply wp_of_option; [exact Hv|]. wp_pure. simpl.
  rewrite !fn_lookup_insert, !fn_insert_insert'. simpl.
  set (k1 := set_mailboxes _ (set_mailboxes _ _)).
  assert (k1 = set_mailboxes (<[b := taken (mailboxes k b)]> (mailboxes k)) k) as E1 by reflexivity.
  clearbody k1. subst k1. set (k1 := set_mailboxes _ k).
  wp_use (wake_other_spec k1 Q (SenderHead b) ss); [done|done|done|].
  intros [] k2 (Q2 & Hk2 & Hl2 & Hoth & Eth & Ee & Eo & Hpre). wp_pure. exists v, Q2. split; [done|].
  destruct (only_mb_env b (taken (mailboxes k b)) k k2 Ee Eo) as [Honly Emb].
  split_and!; try done.
  - split; [by apply Hoth|done|by rewrite Eo|by rewrite Emb].
  - intros l ts Hw Hn1 Hn2 Hl. by apply Hoth.
  - by rewrite Emb.
Qed.

(** ** Sending *)

Definition is_full (mb : rt_mailbox) : bool := mb_entry mb =? mb_size mb.

(** What the loop does to the mailbox, by the state it finds it in. *)
Definition send_effect v timeout t k (k' : kernel) b rs rs' ss ss' (r : loop_result Z) : Prop :=
  if is_full (mailboxes k b) then
    contents (mailboxes k' b) = contents (mailboxes k b) /\ rs' = rs /\
    if timeout =? 0 then r = Returns (- RT_EFULL) /\ ss' = ss
    else (exists d, r = Waits timeout d) /\ suspendedp (threads k' t) /\ error (threads k' t) = RT_EOK /\
         exists ss1 ss2, ss = ss1 ++ ss2 /\ ss' = ss1 ++ t :: ss2
  else r = Returns RT_EOK /\ contents (mailboxes k' b) = contents (mailboxes k b) ++ [v] /\
       threads k' = wake_first rs (threads k) /\ rs' = tail rs /\ ss' = ss.

Lemma others_other_lists b l Q Q' :
  l = SuspHead (OMailBox b) \/ l = SenderHead b -> others l Q Q' -> other_lists b Q Q'.
Proof. intros Hl Ho l' ts Hw H1 H2. apply Ho; [done|]. destruct Hl; congruence. Qed.

Lemma mb_rep_upd_thread k Q b rs ss t th :
  mb_rep k Q b rs ss -> mb_rep (set_threads (<[t := th]> (threads k)) k) Q b rs ss.
Proof. intros [? ? ? ?]. by split. Qed.

Lemma only_mb_same b k k' : env k' = env k -> same_objects k k' -> only_mb b k k' /\ mailboxes k' = mailboxes k.
Proof.
  intros [= Es Em Eev Emb Emq Enl Eni Etk] Eo. split; [|done].
  split_and!; try done; [by rewrite Emb|unfold nest_part; by rewrite Enl, Eni, Etk].
Qed.

(** The mailbox after a thread started to wait on one of its lists. *)
Lemma mb_blocked k Q k' b t rs ss l fl time ts1 ts2 :
  mb_rep k Q b rs ss -> blocked l t fl time ts1 ts2 k Q k' ->
  (l = SuspHead (OMailBox b) /\ rs = ts1 ++ ts2 \/ l = SenderHead b /\ ss = ts1 ++ ts2) ->
  exists Q', KI k' Q' /\ other_lists b Q Q' /\ only_mb b k k' /\ mailboxes k' = mailboxes k /\
    mb_rep k' Q' b (if decide (l = SenderHead b) then rs else ts1 ++ t :: ts2)
                   (if decide (l = SenderHead b) then ts1 ++ t :: ts2 else ss).
Proof.
  intros [Hr Hs Hfl Hok] (_ & Eth & Ee & Eo & _ & Q2 & Hk2 & Hl2 & Hoth & _) Hl.
  destruct (only_mb_same b k k' Ee Eo) as [Honly Emb]. exists Q2.
  split_and!; try done; [apply (others_other_lists b l); tauto|].
  assert (forall rs' ss', waiters Q2 (SuspHead (OMailBox b)) rs' -> waiters Q2 (SenderHead b) ss' ->
    mb_rep k' Q2 b rs' ss') as Hmk by (intros; split; [done|done|by rewrite Eo|by rewrite Emb]).
  destruct Hl as [[-> ->]|[-> ->]].
  - rewrite !decide_False by done. apply Hmk; [done|by apply Hoth].
  - rewrite !decide_True by done. apply Hmk; [by apply Hoth|done].
Qed.

Lemma mb_send_loop_spec k Q b rs ss v timeout d t t0 :
  KI k Q -> mb_rep k Q b rs ss -> rt_current_thread k = Some t -> readyp (threads k t) ->
  t0 <> t -> readyp (threads k t0) ->
  wp (mb_send_loop b v timeout d) (fun r k' => exists Q' rs' ss',
    KI k' Q' /\ mb_rep k' Q' b rs' ss' /\ other_lists b Q Q' /\ only_mb b k k' /\
    send_effect v timeout t k k' b rs rs' ss ss' r) k.
Proof.
  intros Hk Hrep Hcur Hr Hne Hr0. unfold mb_send_loop, send_effect, is_full. wp_pure.
  pose proof Hrep as [Hrs Hss Hfl Hok].
  destruct (mb_entry (mailboxes k b) =? mb_size (mailboxes k b)) eqn:Efull.
  - unfold upd_thread. wp_step. eapply wp_of_option; [exact Hcur|]. wp_pure.
    set (k1 := set_threads _ k). assert (KI k1 Q) as Hk1 by (by apply KIx_upd_thread).
    destruct (Z.eqb_spec timeout 0) as [->|Ht].
    { wp_pure. exists Q, rs, ss. split_and!; try done; by intros l ts'. }
    wp_step. apply (wp_block k1 Q _ ss t t0); try done.
    + subst k1. simpl. by rewrite fn_lookup_insert.
    + subst k1. simpl. by rewrite fn_lookup_insert_ne.
    + intros ss1 ss2 k2 -> Hbl. destruct (mb_blocked k1 Q k2 b t rs (ss1 ++ ss2) _ _ _ _ _ (mb_rep_upd_thread _ _ _ _ _ _ _ Hrep) Hbl)
        as (Q2 & Hk2 & Hoth & Honly & Emb & Hrep2); [by right|]. rewrite !decide_True in Hrep2 by done.
      destruct Hbl as (_ & Eth & _). wp_pure. exists Q2, rs, (ss1 ++ t :: ss2). rewrite Emb.
      split_and!; try done.
      * by eexists.
      * by rewrite Eth, fn_lookup_insert.
      * rewrite Eth, fn_lookup_insert. subst k1. simpl. by rewrite fn_lookup_insert.
      * by exists ss1, ss2.
  - apply Z.eqb_neq in Efull. wp_use (mb_put_spec k Q b rs ss v); [done|done|destruct Hok; lia|].
    intros r k' (-> & Q' & Hk' & Hrep' & Hoth & Honly & Hc & Eth & _). wp_pure. by exists Q', (tail rs), ss.
Qed.

(** C18: rt_mb_send_wait appends the value to the messages of the ring buffer and wakes the first
    receiver when there is room, fails with -RT_EFULL when the mailbox is full and no wait is
    allowed, and otherwise suspends the sender in the queue of senders. *)
Theorem rt_mb_send_wait_spec k Q b rs ss v timeout t t0 :
  KI k Q -> mb_rep k Q b rs ss -> rt_current_thread k = Some t -> readyp (threads k t) ->
  t0 <> t -> readyp (threads k t0) ->
  wp (rt_mb_send_wait b v timeout) (fun r k' => exists Q' rs' ss',
    KI k' Q' /\ mb_rep k' Q' b rs' ss' /\ other_lists b Q Q' /\ only_mb b k k' /\
    send_effect v timeout t k k' b rs rs' ss ss' r) k.
Proof.
  intros Hk Hrep Hcur Hr Hne Hr0. unfold rt_mb_send_wait. wp_pure.
  destruct (_ && _) eqn:E; [|by apply (mb_send_loop_spec _ Q _ _ _ _ _ _ _ t0)].
  apply andb_true_iff in E as [Ef Et]. wp_pure. exists Q, rs, ss. unfold send_effect, is_full. rewrite Ef, Et.
  split_and!; try done. by intros l ts.
Qed.

(** From an interrupt or a thread: rt_mb_send never blocks. *)
Theorem rt_mb_send_spec k Q b rs ss v :
  KI k Q -> mb_rep k Q b rs ss ->
  wp (rt_mb_send b v) (fun r k' => exists Q' rs',
    KI k' Q' /\ mb_rep k' Q' b rs' ss /\ other_lists b Q Q' /\ only_mb b k k' /\
    if is_full (mailboxes k b) then r = Returns (- RT_EFULL) /\ k' = k /\ rs' = rs
    else r = Returns RT_EOK /\ contents (mailboxes k' b) = contents (mailboxes k b) ++ [v] /\
         threads k' = wake_first rs (threads k) /\ rs' = tail rs /\ preempts rs k k') k.
Proof.
  intros Hk Hrep. unfold rt_mb_send, rt_mb_send_wait, is_full. wp_pure.
  destruct (mb_entry (mailboxes k b) =? mb_size (mailboxes k b)) eqn:Efull; simpl.
  - wp_pure. exists Q, rs. split_and!; try done. by intros l ts.
  - unfold mb_send_loop. wp_pure. rewrite Efull. wp_step. apply Z.eqb_neq in Efull.
    pose proof (mbr_ok _ _ _ _ _ Hrep) as Hok.
    eapply wp_mono; [apply (mb_put_spec k Q b rs ss v); [done|done|destruct Hok; lia]|].
    intros r k' (-> & Q' & Hk' & Hrep' & Hoth & Honly & Hc & Eth & Hpre). wp_pure. by exists Q', (tail rs).
Qed.

(** ** Receiving *)

Definition recv_effect timeout t k (k' : kernel) b rs rs' ss ss' (r : loop_result (Z * option Z)) : Prop :=
  match contents (mailboxes k b) with
  | [] =>
      contents (mailboxes k' b) = [] /\ ss' = ss /\
      if timeout =? 0 then r = Returns (- RT_ETIMEOUT, None) /\ rs' = rs
      else (exists d, r = Waits timeout d) /\ suspendedp (threads k' t) /\ error (threads k' t) = RT_EOK /\
           exists rs1 rs2, rs = rs1 ++ rs2 /\ rs' = rs1 ++ t :: rs2
  | v :: vs =>
      r = Returns (RT_EOK, Some v) /\ contents (mailboxes k' b) = vs /\
      threads k' = wake_first ss (threads k) /\ rs' = rs /\ ss' = tail ss
  end.

Lemma empty_contents mb : mb_ok mb -> mb_entry mb = 0 -> contents mb = [].
Proof. intros Hok E. unfold contents. by rewrite E. Qed.

Lemma mb_recv_loop_spec k Q b rs ss timeout d t t0 :
  KI k Q -> mb_rep k Q b rs ss -> rt_current_thread k = Some t -> readyp (threads k t) ->
  t0 <> t -> readyp (threads k t0) ->
  wp (mb_recv_loop b timeout d) (fun r k' => exists Q' rs' ss',
    KI k' Q' /\ mb_rep k' Q' b rs' ss' /\ other_lists b Q Q' /\ only_mb b k k' /\
    recv_effect timeout t k k' b rs rs' ss ss' r) k.
Proof.
  intros Hk Hrep Hcur Hr Hne Hr0. unfold mb_recv_loop, recv_effect. wp_pure.
  pose proof Hrep as [Hrs Hss Hfl Hok].
  destruct (Z.eqb_spec (mb_entry (mailboxes k b)) 0) as [Ee|Ee].
  - rewrite (empty_contents _ Hok Ee).
    unfold upd_thread. wp_step. eapply wp_of_option; [exact Hcur|]. wp_pure.
    set (k1 := set_threads _ k). assert (KI k1 Q) as Hk1 by (by apply KIx_upd_thread).
    pose proof (mb_rep_upd_thread k Q b rs ss t (set_error RT_EOK (threads k t)) Hrep) as Hrep1.
    destruct (Z.eqb_spec timeout 0) as [->|Ht].
    { wp_pure. exists Q, rs, ss. split_and!; try done.
      - by apply KIx_upd_thread.
      - by intros l ts'.
      - by apply empty_contents. }
    wp_step. apply (wp_block k1 Q _ rs t t0); try done.
    + subst k1. simpl. by rewrite fn_lookup_insert.
    + subst k1. simpl. by rewrite fn_lookup_insert_ne.
    + intros rs1 rs2 k2 -> Hbl. destruct (mb_blocked k1 Q k2 b t (rs1 ++ rs2) ss _ _ _ _ _ Hrep1 Hbl)
        as (Q2 & Hk2 & Hoth & Honly & Emb & Hrep2); [by left|]. rewrite !decide_False in Hrep2 by done.
      destruct Hbl as (_ & Eth & _). wp_pure. exists Q2, (rs1 ++ t :: rs2), ss. rewrite Emb.
      split_and!; try done.
      * by apply empty_contents.
      * by eexists.
      * by rewrite Eth, fn_lookup_insert.
      * rewrite Eth, fn_lookup_insert. subst k1. simpl. by rewrite fn_lookup_insert.
      * by exists rs1, rs2.
  - wp_use (mb_get_spec k Q b rs ss); [done|done|destruct Hok; lia|].
    intros r k' (v & Q' & -> & Hk' & Hrep' & Hoth & Honly & Hc & Eth). wp_pure.
    exists Q', rs, (tail ss). by rewrite Hc.
Qed.

(** C19: rt_mb_recv returns and removes the oldest message and wakes the first waiting sender,
    fails with -RT_ETIMEOUT when the mailbox is empty and no wait is allowed, and otherwise
    suspends the receiver. *)
Theorem rt_mb_recv_spec k Q b rs ss timeout t t0 :
  KI k Q -> mb_rep k Q b rs ss -> rt_current_thread k = Some t -> readyp (threads k t) ->
  t0 <> t -> readyp (threads k t0) ->
  wp (rt_mb_recv b timeout) (fun r k' => exists Q' rs' ss',
    KI k' Q' /\ mb_rep k' Q' b rs' ss' /\ other_lists b Q Q' /\ only_mb b k k' /\
    recv_effect timeout t k k' b rs rs' ss ss' r) k.
Proof.
  intros Hk Hrep Hcur Hr Hne Hr0. unfold rt_mb_recv. wp_pure.
  destruct (_ && _) eqn:E; [|by apply (mb_recv_loop_spec _ Q _ _ _ _ _ _ t0)].
  apply andb_true_iff in E as [Ee%Z.eqb_eq Et]. wp_pure. exists Q, rs, ss. unfold recv_effect.
  pose proof (mbr_ok _ _ _ _ _ Hrep) as Hok. rewrite (empty_contents _ Hok Ee), Et.
  split_and!; try done. by intros l ts.
Qed.

(** ** The time left to wait

    With less than half the range of the tick counter gone by since
    [tick_delta], across a wrap-around too, the time left is what was asked for
    minus what has passed, and never negative. *)

(** The timeout a blocked sender or receiver recomputes after waking is what it asked for
    minus the ticks gone by, never negative, also when the 32-bit tick counter has wrapped
    around meanwhile. *)
Lemma time_left_spec timeout tick_delta now :
  0 < timeout < 2 ^ 31 -> u32 (now - tick_delta) < 2 ^ 31 ->
  time_left timeout tick_delta now = Z.max 0 (timeout - u32 (now - tick_delta)).
Proof.
  intros Ht Hd. unfold time_left. pose proof (u32_range (now - tick_delta)) as Hr.
  rewrite Z.gtb_ltb, (proj2 (Z.ltb_lt _ _)) by lia.
  assert (s32 (timeout - u32 (now - tick_delta)) = timeout - u32 (now - tick_delta)) as ->.
  { unfold s32. rewrite Z.mod_small by lia. lia. }
  case_match eqn:E; [apply Z.ltb_lt in E|apply Z.ltb_ge in E]; lia.
Qed.
(** ** Initialisation and removal *)

(** A list head that is not in use is initialised. *)
Lemma kinv_init_head h ths act tf g Q l :
  wait_head l = true -> kinv h ths act tf g Q -> detached Q l ->
  kinv (rt_list_init l h) ths act tf g (<[l := []]> Q).
Proof.
  intros Hw Hk Hd. eapply (kinv_other h _ _ _ _ _ Q _ l); [done|apply Rep_init; [apply Hk|done]| | |by destruct l..].
  - apply same_but_init. intros xs Hx. by eapply Hd.
  - intros l' Hm. exfalso. apply member_insert in Hm as [[_ []%not_elem_of_nil]|[_ (xs & Hx & Hin)]].
    by destruct (Hd _ _ Hx).
Qed.

Definition mb_lists b Q : gmap node (list node) :=
  <[SenderHead b := []]> (<[SuspHead (OMailBox b) := []]> (register (OMailBox b) Q)).

Definition new_mailbox (pool : list Z) (size : Z) : rt_mailbox := mk_mailbox pool (u16 size) 0 0 0.

Lemma new_mailbox_ok pool size :
  0 < size < 65536 -> size <= Z.of_nat (length pool) -> mb_ok (new_mailbox pool size).
Proof. intros. split; simpl; rewrite ?u16_small by lia; try lia. by rewrite Z.mod_0_l by lia. Qed.

Lemma rt_mb_init_spec k Q b nm pool size fl :
  KI k Q -> containers Q -> detached Q (ObjNode (OMailBox b)) ->
  detached Q (SuspHead (OMailBox b)) -> detached Q (SenderHead b) ->
  0 < size < 65536 -> size <= Z.of_nat (length pool) -> fl = RT_IPC_FLAG_FIFO \/ fl = RT_IPC_FLAG_PRIO ->
  wp (rt_mb_init b nm pool size fl) (fun r k' => r = RT_EOK /\
    KI k' (mb_lists b Q) /\ mb_rep k' (mb_lists b Q) b [] [] /\ contents (mailboxes k' b) = [] /\
    threads k' = threads k /\ cpu_part k' = cpu_part k /\ nest_part k' = nest_part k /\
    timers k' = timers k /\
    mailboxes k' = <[b := new_mailbox pool size]> (mailboxes k) /\ mqs k' = mqs k /\
    (forall o, o <> OMailBox b -> objects k' o = objects k o)) k.
Proof.
  intros Hk Hc Hd1 Hd2 Hd3 Hs Hp Hfl. unfold rt_mb_init.
  wp_use (rt_object_init_spec (activated k) k Q (OMailBox b) nm); [done|done|done|].
  intros [] k1 (xs & h1 & Hxs & Hk1 & ->). rewrite (register_default _ _ _ Hxs) in Hk1.
  unfold upd_object, rt_ipc_object_init, list_init, upd_mb. wp_pure. simpl.
  rewrite ?fn_insert_insert', !fn_lookup_insert. simpl.
  assert (detached (register (OMailBox b) Q) (SuspHead (OMailBox b))) as Hd2' by (by apply detached_register).
  assert (detached (<[SuspHead (OMailBox b) := []]> (register (OMailBox b) Q)) (SenderHead b)) as Hd3'
    by (by apply detached_insert_nil; [apply detached_register|]).
  apply (kinv_init_head _ _ _ _ _ _ (SuspHead (OMailBox b))) in Hk1; [|done|done].
  apply (kinv_init_head _ _ _ _ _ _ (SenderHead b)) in Hk1; [|done|done].
  split_and!; try done.
  - split; simpl.
    + unfold waiters, mb_lists. by rewrite lookup_insert_ne, lookup_insert_eq.
    + unfold waiters, mb_lists. by rewrite lookup_insert_eq.
    + by rewrite fn_lookup_insert.
    + rewrite fn_lookup_insert. by apply new_mailbox_ok.
  - intros o Ho. simpl. by rewrite fn_lookup_insert_ne.
Qed.

Lemma unlink_obj_waiters Q o l ts : wait_head l = true -> waiters Q l ts -> waiters (unlink (ObjNode o) Q) l ts.
Proof.
  unfold waiters. intros Hw Hl. rewrite lookup_unlink, decide_False, Hl by (by intros <-). simpl.
  rewrite filter_notin; [done|]. by intros (? & ? & ?)%list_elem_of_fmap.
Qed.

Lemma woken_all_app k k1 k2 rs ss :
  (forall t, t ∈ rs -> t ∉ ss) -> woken_all rs k k1 -> woken_all ss k1 k2 -> woken_all (rs ++ ss) k k2.
Proof.
  intros Hdis (A1 & A2 & A3 & A4 & A5 & A6) (B1 & B2 & B3 & B4 & B5 & B6).
  split_and!; [| |congruence|congruence|congruence|by eapply same_objects_trans].
  - intros t [Ht|Ht]%elem_of_app; [rewrite B2 by auto; by apply A1|].
    rewrite B1, A2; [done| |done]. intros Hr. by apply (Hdis t).
  - intros t [Ht1 Ht2]%not_elem_of_app. by rewrite B2, A2.
Qed.

Lemma waiters_disjoint act k Q l1 l2 rs ss t :
  KIx act k Q -> l1 <> l2 -> waiters Q l1 rs -> waiters Q l2 ss -> t ∈ rs -> t ∉ ss.
Proof.
  intros Hk Hne Hr Hs H1 H2. apply Hne.
  eapply (Rep_unique _ _ l1 l2 _ _ (TList t)); [apply Hk|exact Hr|exact Hs|..]; by apply list_elem_of_fmap_2.
Qed.

Lemma rt_mb_detach_spec k Q b rs ss :
  KI k Q -> waiters Q (SuspHead (OMailBox b)) rs -> waiters Q (SenderHead b) ss -> registered Q (OMailBox b) ->
  wp (rt_mb_detach b) (fun r k' => r = RT_EOK /\ woken_all (rs ++ ss) k k' /\ exists Q', KI k' Q' /\
    waiters Q' (SuspHead (OMailBox b)) [] /\ waiters Q' (SenderHead b) [] /\
    (forall c, Q' !! ObjHead c = unlink (ObjNode (OMailBox b)) Q !! ObjHead c) /\
    detached Q' (ObjNode (OMailBox b)) /\ other_lists b Q Q') k.
Proof.
  intros Hk Hr Hs Hreg. unfold rt_mb_detach.
  wp_use (rt_ipc_list_resume_all_spec k Q (SuspHead (OMailBox b)) rs); [done|done|done|].
  intros r1 k1 (_ & Hw1 & Q1 & Hk1 & Hr1 & Ho1 & Hoth1).
  assert (waiters Q1 (SenderHead b) ss) as Hs1 by (by apply Hoth1).
  wp_use (rt_ipc_list_resume_all_spec k1 Q1 (SenderHead b) ss); [done|done|done|].
  intros r2 k2 (_ & Hw2 & Q2 & Hk2 & Hs2 & Ho2 & Hoth2).
  destruct (kinv_unlink_object _ _ _ _ _ _ (OMailBox b) Hk2) as (h & Hh & Hk3).
  { destruct Hreg as (xs & Hx & Hin). exists xs. by rewrite Ho2, Ho1. }
  wp_step. eapply wp_list_op; [done|]. wp_pure. split; [done|]. split.
  { eapply woken_all_app; [|exact Hw1|exact Hw2]. intros t Ht.
    eapply (waiters_disjoint _ k Q (SuspHead (OMailBox b)) (SenderHead b)); done. }
  exists (unlink (ObjNode (OMailBox b)) Q2). split_and!.
  - exact Hk3.
  - apply unlink_obj_waiters; [done|]. by apply Hoth2.
  - by apply unlink_obj_waiters.
  - intros c. rewrite !lookup_unlink, !decide_False by done. by rewrite Ho2, Ho1.
  - intros l xs Hl. rewrite lookup_unlink in Hl. case_decide; [simplify_eq; split; [apply not_elem_of_nil|done]|].
    apply fmap_Some in Hl as (ys & Hy & ->). split; [|by intros ->]. by intros [? _]%list_elem_of_filter.
  - intros l ts Hw H1 H2 Hl. apply unlink_obj_waiters; [done|]. apply Hoth2; [done|done|]. by apply Hoth1.
Qed.
End refinement.
