(* ===== verification/MsgQueue.v ===== *)
(** Message queues (src/ipc.c): messages of a fixed size in the slots of a pool,
    linked in a queue and a free list.

    rt_mq_send, rt_mq_urgent and rt_mq_recv are two critical sections each with
    the copy of the message in between, where interrupts are enabled: another
    thread or an interrupt may run a section of its own there.  The sections are
    definitions on the struct ([take_free], [link], ...); the functions are
    their composition, and [mq_step] is their interleaving. *)

From S2P Require Import Prelude RtList KState Ffs KInv Sched Object Timer Thread ThreadLife Ipc Mailbox.

Open Scope Z_scope.

(** * Operations *)

Definition upd_mq (q : nat) (f : rt_messagequeue -> rt_messagequeue) : K unit :=
  modify (fun k => set_mqs (<[q := f (mqs k q)]> (mqs k)) k).

(** [msg->next = next] *)
Definition write_next (m : nat) (next : option nat) (q : rt_messagequeue) : rt_messagequeue :=
  set_mq_pool (<[m := mk_message next (msg_data (mq_pool q m))]> (mq_pool q)) q.

(** [rt_memcpy(msg + 1, buffer, size)]: the rest of the slot keeps what it held; [None] when the
    bytes do not fit into the slot and would overwrite the one behind it. *)
Definition copy_in (m : nat) (buffer : list Z) (q : rt_messagequeue) : option rt_messagequeue :=
  if Z.of_nat (length buffer) <=? msg_size q then
    Some (set_mq_pool (<[m := mk_message (msg_next (mq_pool q m))
                                (buffer ++ drop (length buffer) (msg_data (mq_pool q m)))]> (mq_pool q)) q)
  else None.

(** How rt_mq_send and rt_mq_urgent begin: the size is tested and the first free slot is looked up. *)
Definition send_begin (size : Z) (q : rt_messagequeue) : Z + nat :=
  if size >? msg_size q then inl (- RT_ERROR)
  else match msg_queue_free q with None => inl (- RT_EFULL) | Some m => inr m end.

(** [mq->msg_queue_free = msg->next] for the first free slot *)
Definition take_free (m : nat) (q : rt_messagequeue) : rt_messagequeue :=
  set_msg_queue_free (msg_next (mq_pool q m)) q.

(** The second section of rt_mq_send. *)
Definition link (m : nat) (q : rt_messagequeue) : rt_messagequeue :=
  let q := match msg_queue_tail q with Some tail => write_next tail (Some m) q | None => q end in
  let q := set_msg_queue_tail (Some m) q in
  let q := match msg_queue_head q with None => set_msg_queue_head (Some m) q | Some _ => q end in
  set_mq_entry (u16 (mq_entry q + 1)) q.

(** The second section of rt_mq_urgent. *)
Definition link_urgent (m : nat) (q : rt_messagequeue) : rt_messagequeue :=
  let q := write_next m (msg_queue_head q) q in
  let q := set_msg_queue_head (Some m) q in
  let q := match msg_queue_tail q with None => set_msg_queue_tail (Some m) q | Some _ => q end in
  set_mq_entry (u16 (mq_entry q + 1)) q.

(** The first message leaves the queue (rt_mq_recv, rt_mq_control). *)
Definition unlink_head (m : nat) (q : rt_messagequeue) : rt_messagequeue :=
  let q := set_msg_queue_head (msg_next (mq_pool q m)) q in
  if decide (msg_queue_tail q = Some m) then set_msg_queue_tail None q else q.

(** The slot goes back to the free list. *)
Definition release (m : nat) (q : rt_messagequeue) : rt_messagequeue :=
  set_msg_queue_free (Some m) (write_next m (msg_queue_free q) q).

(** The loop of rt_mq_init over the slots [temp .. max_msgs - 1]. *)
Fixpoint mq_init_loop (n : nat) (temp : nat) (q : rt_messagequeue) : rt_messagequeue :=
  match n with
  | O => q
  | S n => mq_init_loop n (S temp) (release temp q)
  end.

(** [sizeof(struct rt_mq_message)] *)
Definition MQ_HEADER : Z := 4.

(** The assignments of rt_mq_init to the struct. *)
Definition mq_fresh (msg_size_ pool_size : Z) (q : rt_messagequeue) : rt_messagequeue :=
  let q := set_msg_size (u16 (RT_ALIGN msg_size_ RT_ALIGN_SIZE)) q in
  let q := set_max_msgs (u16 (u32 pool_size / (msg_size q + MQ_HEADER))) q in
  let q := set_msg_queue_head None q in
  let q := set_msg_queue_tail None q in
  let q := set_msg_queue_free None q in
  let q := mq_init_loop (Z.to_nat (max_msgs q)) 0 q in
  set_mq_entry 0 q.

(** rt_mq_init; [pool] is the memory of the slots. *)
Definition rt_mq_init (q : nat) (nm : list Z) (pool : nat -> rt_mq_message) (msg_size_ pool_size fl : Z) : K Z :=
  rt_object_init (OMessageQueue q) nm ;!
  upd_object (OMessageQueue q) (set_flag fl) ;!
  rt_ipc_object_init (OMessageQueue q) ;!
  upd_mq q (set_mq_pool pool) ;!
  upd_mq q (mq_fresh msg_size_ pool_size) ;!
  ret RT_EOK.

(** rt_mq_detach *)
Definition rt_mq_detach (q : nat) : K Z :=
  rt_ipc_list_resume_all (SuspHead (OMessageQueue q)) ;!
  rt_object_detach (OMessageQueue q) ;!
  ret RT_EOK.

Definition fill_slot (q m : nat) (buffer : list Z) : K unit :=
  let! k := get in
  let! mq := of_option BadPointer (copy_in m buffer (mqs k q)) in
  upd_mq q (fun _ => mq).

(** rt_mq_send; the buffer has [size] bytes. *)
Definition rt_mq_send (q : nat) (buffer : list Z) (size : Z) : K Z :=
  let! k := get in
  match send_begin size (mqs k q) with
  | inl e => ret e
  | inr m =>
      upd_mq q (take_free m) ;!
      upd_mq q (write_next m None) ;!
      fill_slot q m (take (Z.to_nat size) buffer) ;!
      upd_mq q (link m) ;!
      wake_other (SuspHead (OMessageQueue q)) ;!
      ret RT_EOK
  end.

(** rt_mq_urgent *)
Definition rt_mq_urgent (q : nat) (buffer : list Z) (size : Z) : K Z :=
  let! k := get in
  match send_begin size (mqs k q) with
  | inl e => ret e
  | inr m =>
      upd_mq q (take_free m) ;!
      fill_slot q m (take (Z.to_nat size) buffer) ;!
      upd_mq q (link_urgent m) ;!
      wake_other (SuspHead (OMessageQueue q)) ;!
      ret RT_EOK
  end.

(** rt_mq_recv from the read of the queue head on; the bytes copied out. *)
Definition mq_get (q : nat) (size : Z) : K (Z * option (list Z)) :=
  let! k := get in
  let! m := of_option NullDeref (msg_queue_head (mqs k q)) in
  upd_mq q (unlink_head m) ;!
  upd_mq q (fun mq => set_mq_entry (u16 (mq_entry mq - 1)) mq) ;!
  let! k := get in
  let n := if size >? msg_size (mqs k q) then msg_size (mqs k q) else size in
  let out := take (Z.to_nat n) (msg_data (mq_pool (mqs k q) m)) in
  upd_mq q (release m) ;!
  ret (RT_EOK, Some out).

Definition mq_recv_loop (q : nat) (size timeout tick_delta : Z) : K (loop_result (Z * option (list Z))) :=
  let! k := get in
  if mq_entry (mqs k q) =? 0 then
    let! t := of_option NullDeref (rt_thread_self k) in
    upd_thread t (set_error RT_EOK) ;!
    if timeout =? 0 then
      upd_thread t (set_error (- RT_ETIMEOUT)) ;!
      ret (Returns (- RT_ETIMEOUT, None))
    else
      rt_ipc_list_suspend (SuspHead (OMessageQueue q)) t (flag (objects k (OMessageQueue q))) ;!
      ipc_wait t timeout ;!
      ret (Waits timeout (if timeout >? 0 then rt_tick_get k else tick_delta))
  else
    let! r := mq_get q size in ret (Returns r).

(** rt_mq_recv *)
Definition rt_mq_recv (q : nat) (size timeout : Z) : K (loop_result (Z * option (list Z))) :=
  let! k := get in
  if (mq_entry (mqs k q) =? 0) && (timeout =? 0)
  then ret (Returns (- RT_ETIMEOUT, None))
  else mq_recv_loop q size timeout 0.

Definition rt_mq_recv_wakeup (t q : nat) (size timeout tick_delta : Z)
  : K (loop_result (Z * option (list Z))) :=
  let! k := get in
  if negb (error (threads k t) =? RT_EOK) then ret (Returns (error (threads k t), None))
  else mq_recv_loop q size (time_left timeout tick_delta (rt_tick_get k))
         (if timeout >? 0 then u32 (rt_tick_get k - tick_delta) else tick_delta).

(** The loop of rt_mq_control; the queue is no longer than the pool. *)
Fixpoint mq_flush (fuel : nat) (q : rt_messagequeue) : option rt_messagequeue :=
  match msg_queue_head q with
  | None => Some q
  | Some m =>
      match fuel with
      | O => None
      | S fuel => mq_flush fuel (release m (unlink_head m q))
      end
  end.

(** rt_mq_control *)
Definition rt_mq_control (q : nat) (cmd arg : Z) : K Z :=
  if cmd =? RT_IPC_CMD_RESET then
    rt_ipc_list_resume_all (SuspHead (OMessageQueue q)) ;!
    let! k := get in
    let! mq := of_option OutOfFuel (mq_flush (Z.to_nat (max_msgs (mqs k q))) (mqs k q)) in
    upd_mq q (fun _ => mq) ;!
    upd_mq q (set_mq_entry 0) ;!
    rt_schedule ;!
    ret RT_EOK
  else ret (- RT_ERROR).

(** * The slots of a queue *)

(** The slots linked from [h] are [xs], and the last one ends the list. *)
Fixpoint chain (pool : nat -> rt_mq_message) (h : option nat) (xs : list nat) : Prop :=
  match xs with
  | [] => h = None
  | x :: xs => h = Some x /\ chain pool (msg_next (pool x)) xs
  end.

(** A queue with the messages in the slots [ms], free slots [fs], and slots [bs]
    in the hands of a thread between two sections. *)
Record mq_ok (q : rt_messagequeue) (ms fs bs : list nat) : Prop := {
  mq_head_ok : chain (mq_pool q) (msg_queue_head q) ms;
  mq_tail_ok : msg_queue_tail q = last ms;
  mq_free_ok : chain (mq_pool q) (msg_queue_free q) fs;
  mq_entry_ok : mq_entry q = Z.of_nat (length ms);
  mq_part : ms ++ fs ++ bs ≡ₚ seq 0 (Z.to_nat (max_msgs q));
  mq_max_ok : 0 <= max_msgs q < 65536 }.

(** The messages waiting in the queue, first to be received first. *)
Definition messages (q : rt_messagequeue) (ms : list nat) : list (list Z) :=
  (fun m => msg_data (mq_pool q m)) <$> ms.

Section slots.
Implicit Types (q : rt_messagequeue) (ms fs bs : list nat) (m : nat).

Lemma chain_ext pool pool' h xs :
  (forall x, x ∈ xs -> msg_next (pool' x) = msg_next (pool x)) -> chain pool h xs -> chain pool' h xs.
Proof.
  revert h. induction xs as [|x xs IH]; intros h E; simpl; [done|]. intros [-> Hc].
  split; [done|]. rewrite E by set_solver. apply IH; [|done]. set_solver.
Qed.

(** A write outside the list does not change it. *)
Lemma chain_insert_ne pool h xs m v : m ∉ xs -> chain pool h xs -> chain (<[m := v]> pool) h xs.
Proof.
  intros Hm. apply chain_ext. intros x Hx. rewrite fn_lookup_insert_ne; [done|]. by intros ->.
Qed.

(** Appending a slot that ends a list. *)
Lemma chain_snoc pool h xs tl m v :
  NoDup (xs ++ [tl]) -> m ∉ xs ++ [tl] -> msg_next (pool m) = None ->
  chain pool h (xs ++ [tl]) -> chain (<[tl := mk_message (Some m) v]> pool) h ((xs ++ [tl]) ++ [m]).
Proof.
  revert h. induction xs as [|x xs IH]; intros h Hnd Hm Hn; simpl.
  - intros [-> Hnone]. split; [done|]. rewrite fn_lookup_insert. simpl. split; [done|].
    rewrite fn_lookup_insert_ne by (intros ->; set_solver). done.
  - intros [-> Hc]. apply NoDup_cons in Hnd as [Hx Hnd]. split; [done|].
    rewrite fn_lookup_insert_ne by (intros ->; set_solver). apply IH; try done. set_solver.
Qed.

Lemma mq_ok_disj q ms fs bs : mq_ok q ms fs bs -> NoDup (ms ++ fs ++ bs).
Proof. intros Hok. rewrite (mq_part _ _ _ _ Hok). apply NoDup_seq. Qed.

Lemma mq_ok_length q ms fs bs : mq_ok q ms fs bs -> Z.of_nat (length ms) <= max_msgs q.
Proof.
  intros Hok. pose proof (Permutation_length (mq_part _ _ _ _ Hok)) as E.
  rewrite !length_app, length_seq in E. destruct (mq_max_ok _ _ _ _ Hok). lia.
Qed.

Lemma mq_ok_perm q ms fs bs bs' : bs ≡ₚ bs' -> mq_ok q ms fs bs -> mq_ok q ms fs bs'.
Proof. intros E [? ? ? ? ? ?]. split; try done. by rewrite <- E. Qed.

(** A slot is in one place only. *)
Lemma busy_not_linked q ms fs bs m : mq_ok q ms fs (m :: bs) -> m ∉ ms /\ m ∉ fs.
Proof.
  intros Hok. pose proof (mq_ok_disj _ _ _ _ Hok) as Hnd. rewrite app_assoc in Hnd.
  apply NoDup_app in Hnd as (_ & Hd & _). split; intros Hin; apply (Hd m); set_solver.
Qed.

Lemma messages_ext q q' ms :
  (forall m, m ∈ ms -> msg_data (mq_pool q' m) = msg_data (mq_pool q m)) -> messages q' ms = messages q ms.
Proof. apply list_fmap_ext_in. Qed.

(** ** The sections *)

Lemma take_free_ok q ms fs bs m :
  mq_ok q ms (m :: fs) bs -> msg_queue_free q = Some m /\ mq_ok (take_free m q) ms fs (m :: bs).
Proof.
  intros [H1 H2 [H3 H3'] H4 H5 H6]. split; [done|]. split; try done. simpl.
  rewrite <- H5. apply Permutation_app_head. by rewrite <- Permutation_middle.
Qed.

Lemma busy_write_ok q ms fs bs m v :
  mq_ok q ms fs (m :: bs) ->
  let q' := set_mq_pool (<[m := v]> (mq_pool q)) q in
  mq_ok q' ms fs (m :: bs) /\ messages q' ms = messages q ms.
Proof.
  intros Hok. destruct (busy_not_linked _ _ _ _ _ Hok) as [Hm Hf]. destruct Hok as [H1 H2 H3 H4 H5 H6].
  split; [split; simpl; try done; by apply chain_insert_ne|].
  apply messages_ext. intros x Hx. simpl. rewrite fn_lookup_insert_ne; [done|]. by intros ->.
Qed.

Lemma link_ok q ms fs bs m :
  mq_ok q ms fs (m :: bs) -> msg_next (mq_pool q m) = None ->
  mq_ok (link m q) (ms ++ [m]) fs bs /\
  messages (link m q) (ms ++ [m]) = messages q ms ++ [msg_data (mq_pool q m)].
Proof.
  intros Hok Hn. destruct (busy_not_linked _ _ _ _ _ Hok) as [Hm Hf].
  pose proof (mq_ok_disj _ _ _ _ Hok) as Hnd.
  destruct Hok as [H1 H2 H3 H4 H5 H6].
  pose proof (Permutation_length H5) as Hlen. rewrite !length_app, length_seq in Hlen. simpl in Hlen.
  assert (u16 (mq_entry q + 1) = Z.of_nat (length (ms ++ [m]))) as Hent.
  { rewrite length_app. simpl. rewrite u16_small; lia. }
  assert ((ms ++ [m]) ++ fs ++ bs ≡ₚ seq 0 (Z.to_nat (max_msgs q))) as Hpart.
  { rewrite <- H5, <- app_assoc. apply Permutation_app_head. simpl.
    by rewrite (Permutation_middle fs bs m). }
  unfold link. destruct ms as [|tl ms' _] using rev_ind.
  - simpl in *. rewrite H2. simpl in *. rewrite H1. split; [|done]. split; simpl; try done.
  - rewrite last_snoc in H2. rewrite H2. simpl.
    assert (msg_queue_head q <> None) as Hh by (destruct ms'; simpl in H1; destruct H1 as [-> _]; done).
    destruct (msg_queue_head q) as [h|] eqn:Eh; [|done].
    assert (NoDup (ms' ++ [tl])) as Hnd' by (by apply NoDup_app in Hnd as (? & _)).
    assert (tl ∉ fs) as Htl.
    { apply NoDup_app in Hnd as (_ & Hd & _). intros Hin. apply (Hd tl); set_solver. }
    split.
    + split; simpl; try done.
      * rewrite Eh. by apply chain_snoc.
      * by rewrite last_snoc.
      * by apply chain_insert_ne.
    + unfold messages. rewrite !fmap_app. simpl. f_equal.
      * f_equal; [apply list_fmap_ext_in; intros x Hx; rewrite fn_insert_case; case_decide; by subst|].
        by rewrite fn_lookup_insert.
      * f_equal. rewrite fn_lookup_insert_ne; [done|]. intros ->. set_solver.
Qed.

Lemma link_urgent_ok q ms fs bs m :
  mq_ok q ms fs (m :: bs) ->
  mq_ok (link_urgent m q) (m :: ms) fs bs /\
  messages (link_urgent m q) (m :: ms) = msg_data (mq_pool q m) :: messages q ms.
Proof.
  intros Hok. destruct (busy_not_linked _ _ _ _ _ Hok) as [Hm Hf]. destruct Hok as [H1 H2 H3 H4 H5 H6].
  pose proof (Permutation_length H5) as Hlen. rewrite !length_app, length_seq in Hlen. simpl in Hlen.
  set (pool' := <[m := mk_message (msg_queue_head q) (msg_data (mq_pool q m))]> (mq_pool q)).
  assert (chain pool' (Some m) (m :: ms)) as C1.
  { split; [done|]. subst pool'. rewrite fn_lookup_insert. by apply chain_insert_ne. }
  assert (chain pool' (msg_queue_free q) fs) as C2 by by apply chain_insert_ne.
  assert ((m :: ms) ++ fs ++ bs ≡ₚ seq 0 (Z.to_nat (max_msgs q))) as C3.
  { rewrite <- H5. simpl. rewrite !(app_assoc ms). by rewrite <- Permutation_middle. }
  assert (u16 (mq_entry q + 1) = Z.of_nat (length (m :: ms))) as C4 by (rewrite u16_small; simpl; lia).
  assert (forall q', mq_pool q' = pool' -> messages q' (m :: ms) = msg_data (mq_pool q m) :: messages q ms) as C5.
  { intros q' E. unfold messages. simpl. rewrite E. subst pool'. rewrite fn_lookup_insert. f_equal.
    apply list_fmap_ext_in. intros x Hx. rewrite fn_lookup_insert_ne; [done|]. by intros ->. }
  unfold link_urgent.
  change (msg_queue_tail (set_msg_queue_head (Some m) (write_next m (msg_queue_head q) q))) with (msg_queue_tail q).
  destruct (msg_queue_tail q) as [tl|] eqn:Et.
  - split; [|by apply C5]. split; simpl; try done. rewrite Et. destruct ms; [done|]. by rewrite H2.
  - split; [|by apply C5]. split; simpl; try done.
    assert (ms = []) as -> by (by apply last_None). done.
Qed.

Lemma unlink_head_ok q ms fs bs m :
  mq_ok q (m :: ms) fs bs ->
  let q' := set_mq_entry (u16 (mq_entry (unlink_head m q) - 1)) (unlink_head m q) in
  msg_queue_head q = Some m /\ mq_pool q' = mq_pool q /\ mq_ok q' ms fs (m :: bs).
Proof.
  intros Hok. pose proof (mq_ok_disj _ _ _ _ Hok) as Hnd. destruct Hok as [[H1 H1'] H2 H3 H4 H5 H6].
  pose proof (Permutation_length H5) as Hlen. rewrite !length_app, length_seq in Hlen. simpl in Hlen.
  split; [done|]. apply NoDup_cons in Hnd as [Hm _]. simpl in H4.
  assert (u16 (mq_entry q - 1) = Z.of_nat (length ms)) as C1 by (rewrite u16_small; lia).
  assert (ms ++ fs ++ m :: bs ≡ₚ seq 0 (Z.to_nat (max_msgs q))) as C2.
  { rewrite <- H5. simpl. rewrite !(app_assoc ms). by rewrite <- Permutation_middle. }
  unfold unlink_head. simpl. case_decide as Et.
  - split; [done|]. split; simpl; try done. rewrite H2 in Et.
    destruct ms as [|x ms' _] using rev_ind; [done|]. rewrite app_comm_cons, last_snoc in Et.
    injection Et as ->. exfalso. apply Hm. set_solver.
  - split; [done|]. split; simpl; try done. rewrite H2 in *. destruct ms; [done|]. done.
Qed.

Lemma release_ok q ms fs bs m :
  mq_ok q ms fs (m :: bs) -> mq_ok (release m q) ms (m :: fs) bs /\ messages (release m q) ms = messages q ms.
Proof.
  intros Hok. destruct (busy_not_linked _ _ _ _ _ Hok) as [Hm Hf]. destruct Hok as [H1 H2 H3 H4 H5 H6].
  split.
  - split; simpl; try done.
    + by apply chain_insert_ne.
    + split; [done|]. rewrite fn_lookup_insert. by apply chain_insert_ne.
    + rewrite <- H5. apply Permutation_app_head. by rewrite <- Permutation_middle.
  - apply messages_ext. intros x Hx. simpl. rewrite fn_lookup_insert_ne; [done|]. by intros ->.
Qed.

(** ** Initialisation and flushing *)

Lemma mq_init_loop_ok n temp q fs :
  chain (mq_pool q) (msg_queue_free q) fs -> (forall x, x ∈ fs -> x < temp)%nat ->
  let q' := mq_init_loop n temp q in
  chain (mq_pool q') (msg_queue_free q') (rev (seq temp n) ++ fs) /\
  msg_queue_head q' = msg_queue_head q /\ msg_queue_tail q' = msg_queue_tail q /\
  max_msgs q' = max_msgs q /\ msg_size q' = msg_size q.
Proof.
  revert temp q fs. induction n as [|n IH]; intros temp q fs Hc Hlt; [done|]. simpl.
  destruct (IH (S temp) (release temp q) (temp :: fs)) as (H1 & H2 & H3 & H4 & H5).
  - simpl. split; [done|]. rewrite fn_lookup_insert. simpl. apply chain_insert_ne; [|done].
    intros Hin. specialize (Hlt _ Hin). lia.
  - intros x [->|Hx]%elem_of_cons; [lia|]. specialize (Hlt _ Hx). lia.
  - split_and!; [by rewrite <- app_assoc|done..].
Qed.

Lemma mq_fresh_ok q msg_size_ pool_size :
  let q' := mq_fresh msg_size_ pool_size q in
  exists fs, mq_ok q' [] fs [] /\
    msg_size q' = u16 (RT_ALIGN msg_size_ RT_ALIGN_SIZE) /\
    max_msgs q' = u16 (u32 pool_size / (msg_size q' + MQ_HEADER)).
Proof.
  unfold mq_fresh. set (q1 := set_msg_queue_free None _).
  destruct (mq_init_loop_ok (Z.to_nat (max_msgs q1)) 0 q1 []) as (H1 & H2 & H3 & H4 & H5);
    [done|by intros x ?%not_elem_of_nil|]. rewrite app_nil_r in H1.
  set (q2 := mq_init_loop _ _ _) in *. exists (rev (seq 0 (Z.to_nat (max_msgs q1)))).
  split_and!; simpl; [|by rewrite H5|by rewrite H4, H5].
  split; simpl; try done.
  - rewrite app_nil_r, H4. apply Permutation_sym, Permutation_rev.
  - rewrite H4. apply u16_range.
Qed.

Lemma link_msg_size m q : msg_size (link m q) = msg_size q.
Proof. unfold link. destruct (msg_queue_tail q); simpl; destruct (msg_queue_head q); done. Qed.
Lemma link_urgent_msg_size m q : msg_size (link_urgent m q) = msg_size q.
Proof. unfold link_urgent. simpl. destruct (msg_queue_tail q); done. Qed.
Lemma unlink_head_msg_size m q : msg_size (unlink_head m q) = msg_size q.
Proof. unfold unlink_head. by case_decide. Qed.

(** The loop does not count the messages it releases: [mq_entry] is set after it.  Slots in the
    hands of a call are left alone. *)
Lemma mq_flush_ok fuel q ms fs bs :
  mq_ok (set_mq_entry (Z.of_nat (length ms)) q) ms fs bs -> (length ms <= fuel)%nat ->
  exists q' fs', mq_flush fuel q = Some q' /\ mq_ok (set_mq_entry 0 q') [] fs' bs /\ msg_size q' = msg_size q /\
    forall m, m ∈ bs -> msg_next (mq_pool q' m) = msg_next (mq_pool q m).
Proof.
  revert q ms fs. induction fuel as [|fuel IH]; intros q ms fs Hok Hf; simpl.
  all: destruct ms as [|m ms].
  - pose proof (mq_head_ok _ _ _ _ Hok) as Hh. simpl in Hh. rewrite Hh. by exists q, fs.
  - simpl in Hf. lia.
  - pose proof (mq_head_ok _ _ _ _ Hok) as Hh. simpl in Hh. rewrite Hh. by exists q, fs.
  - pose proof (mq_ok_length _ _ _ _ Hok) as Hlen. pose proof (mq_max_ok _ _ _ _ Hok) as Hmax. simpl in Hlen, Hmax.
    destruct (unlink_head_ok _ _ _ _ _ Hok) as (Hh & _ & Hok1). simpl in Hh. rewrite Hh.
    apply release_ok in Hok1 as [Hok1 _]. destruct (IH (release m (unlink_head m q)) ms (m :: fs)) as (q' & fs' & E & Hok' & Esz & Hnext); [|simpl in Hf; lia|].
    + assert (set_mq_entry (Z.of_nat (length ms)) (release m (unlink_head m q)) =
        release m (set_mq_entry (u16 (mq_entry (unlink_head m (set_mq_entry (Z.of_nat (length (m :: ms))) q)) - 1))
                     (unlink_head m (set_mq_entry (Z.of_nat (length (m :: ms))) q)))) as ->; [|done].
      assert (u16 (Z.of_nat (length (m :: ms)) - 1) = Z.of_nat (length ms)) as E
        by (rewrite u16_small; simpl length in *; lia).
      unfold unlink_head, release, write_next, set_mq_entry. simpl length in *. cbn.
      case_decide; cbn; rewrite E; reflexivity.
    + exists q', fs'. split_and!; [done|done|by rewrite Esz; apply unlink_head_msg_size|]. intros x Hx. rewrite Hnext by done.
      assert (x <> m) as Hne.
      { intros ->. pose proof (mq_ok_disj _ _ _ _ Hok) as [Hn _]%NoDup_cons. apply Hn. set_solver. }
      unfold release, write_next. simpl. rewrite fn_lookup_insert_ne by done. unfold unlink_head. by case_decide.
Qed.
End slots.

(** * Interleaving of the sections

    A thread between two sections holds a slot: a sender that has not yet copied its buffer into
    it, a sender that has, an urgent sender that has, or a receiver that copies it out.  A reset
    by rt_mq_control is one section. *)

Inductive holder : Type :=
| Reserved (m : nat) (buffer : list Z)
| Filled (m : nat)
| FilledUrgent (m : nat)
| Reading (m : nat).

Definition slot_of (h : holder) : nat :=
  match h with Reserved m _ | Filled m | FilledUrgent m | Reading m => m end.

Inductive mq_step : rt_messagequeue * list holder -> rt_messagequeue * list holder -> Prop :=
| st_reserve q B m buffer :
    send_begin (Z.of_nat (length buffer)) q = inr m -> mq_step (q, B) (take_free m q, Reserved m buffer :: B)
| st_fill q q' B1 B2 m buffer :
    copy_in m buffer (write_next m None q) = Some q' ->
    mq_step (q, B1 ++ Reserved m buffer :: B2) (q', B1 ++ Filled m :: B2)
| st_fill_urgent q q' B1 B2 m buffer :
    copy_in m buffer q = Some q' ->
    mq_step (q, B1 ++ Reserved m buffer :: B2) (q', B1 ++ FilledUrgent m :: B2)
| st_link q B1 B2 m :
    mq_step (q, B1 ++ Filled m :: B2) (link m q, B1 ++ B2)
| st_link_urgent q B1 B2 m :
    mq_step (q, B1 ++ FilledUrgent m :: B2) (link_urgent m q, B1 ++ B2)
| st_unlink q B m :
    mq_entry q <> 0 -> msg_queue_head q = Some m ->
    mq_step (q, B) (set_mq_entry (u16 (mq_entry (unlink_head m q) - 1)) (unlink_head m q), Reading m :: B)
| st_release q B1 B2 m :
    mq_step (q, B1 ++ Reading m :: B2) (release m q, B1 ++ B2)
| st_reset q q' B :
    mq_flush (Z.to_nat (max_msgs q)) q = Some q' -> mq_step (q, B) (set_mq_entry 0 q', B).

Section interleaving.
Implicit Types (q : rt_messagequeue) (ms fs bs : list nat) (B : list holder) (m : nat).

Definition mq_world (w : rt_messagequeue * list holder) : Prop :=
  exists ms fs, mq_ok w.1 ms fs (slot_of <$> w.2) /\
    (forall m, Filled m ∈ w.2 -> msg_next (mq_pool w.1 m) = None) /\
    (forall m buffer, Reserved m buffer ∈ w.2 -> Z.of_nat (length buffer) <= msg_size w.1).

Lemma slots_middle B1 B2 h : slot_of <$> (B1 ++ h :: B2) ≡ₚ slot_of h :: (slot_of <$> (B1 ++ B2)).
Proof. rewrite !fmap_app, fmap_cons. by rewrite <- Permutation_middle. Qed.

(** The slots held by different threads are different. *)
Lemma holders_ne q ms fs B1 B2 h h' :
  mq_ok q ms fs (slot_of <$> (B1 ++ h :: B2)) -> h' ∈ B1 ++ B2 -> slot_of h' <> slot_of h.
Proof.
  intros Hok Hin E. pose proof (mq_ok_disj _ _ _ _ Hok) as Hnd.
  rewrite slots_middle, app_assoc in Hnd. apply NoDup_app in Hnd as (_ & _ & [Hn _]%NoDup_cons).
  apply Hn. rewrite <- E. by apply list_elem_of_fmap_2.
Qed.

(** Writes to a slot leave the end marks of the others alone. *)
Lemma filled_other q v m m' :
  m' <> m -> msg_next (<[m := v]> (mq_pool q) m') = msg_next (mq_pool q m').
Proof. intros Hne. by rewrite fn_lookup_insert_ne. Qed.

Lemma link_next q ms fs bs m m' :
  mq_ok q ms fs (m :: bs) -> m' ∈ bs -> msg_next (mq_pool (link m q) m') = msg_next (mq_pool q m').
Proof.
  intros Hok Hin. unfold link. rewrite (mq_tail_ok _ _ _ _ Hok).
  destruct (last ms) as [tl|] eqn:E.
  - assert (tl <> m') as Hne.
    { intros ->. apply last_Some_elem_of in E. pose proof (mq_ok_disj _ _ _ _ Hok) as Hnd.
      apply NoDup_app in Hnd as (_ & Hd & _). apply (Hd m'); set_solver. }
    simpl. destruct (msg_queue_head q); simpl; by rewrite fn_lookup_insert_ne.
  - simpl. by destruct (msg_queue_head q).
Qed.

(** The loop of a reset ends and empties the queue. *)
Lemma mq_world_flush q ms fs bs : mq_ok q ms fs bs -> exists q' fs',
  mq_flush (Z.to_nat (max_msgs q)) q = Some q' /\ mq_ok (set_mq_entry 0 q') [] fs' bs /\ msg_size q' = msg_size q /\
  forall m, m ∈ bs -> msg_next (mq_pool q' m) = msg_next (mq_pool q m).
Proof.
  intros Hok. apply (mq_flush_ok _ q ms fs bs); [|pose proof (mq_ok_length _ _ _ _ Hok); lia].
  rewrite <- (mq_entry_ok _ _ _ _ Hok). by destruct q.
Qed.

Lemma copy_in_Some m buffer q q' : copy_in m buffer q = Some q' ->
  q' = set_mq_pool (<[m := mk_message (msg_next (mq_pool q m)) (buffer ++ drop (length buffer) (msg_data (mq_pool q m)))]> (mq_pool q)) q.
Proof. unfold copy_in. destruct (_ <=? _); [by intros [= <-]|done]. Qed.

(** The copy of a buffer that was accepted stays inside its slot. *)
Lemma copy_in_fits m buffer q : Z.of_nat (length buffer) <= msg_size q -> is_Some (copy_in m buffer q).
Proof. intros H. unfold copy_in. rewrite (proj2 (Z.leb_le _ _)) by done. by eexists. Qed.

Lemma mq_step_world w w' : mq_step w w' -> mq_world w -> mq_world w'.
Proof.
  intros Hs (ms & fs & Hok & Hfill & Hres). destruct Hs as
    [q B m buffer Hbeg|q q' B1 B2 m buffer Hcp|q q' B1 B2 m buffer Hcp|q B1 B2 m|q B1 B2 m|q B m Hne Hhead|q B1 B2 m|q q' B Hfl];
    cbn [fst snd] in *.
  - unfold send_begin in Hbeg. destruct (Z.gtb_spec (Z.of_nat (length buffer)) (msg_size q)) as [|Hsz]; [done|].
    destruct fs as [|f fs]; [by rewrite (mq_free_ok _ _ _ _ Hok) in Hbeg|].
    destruct (take_free_ok _ _ _ _ _ Hok) as [Hf Hok']. rewrite Hf in Hbeg. injection Hbeg as ->.
    exists ms, fs. split_and!; [done| |].
    + intros x [?|Hx]%elem_of_cons; [done|]. by apply Hfill.
    + intros x b [[= _ ->]|Hx]%elem_of_cons; [done|]. by eapply Hres.
  - apply copy_in_Some in Hcp as ->. apply (mq_ok_perm _ _ _ _ _ (slots_middle B1 B2 _)) in Hok as Hok1.
    destruct (busy_write_ok _ _ _ _ _ (mk_message None (msg_data (mq_pool q m))) Hok1) as [Hok2 _].
    destruct (busy_write_ok _ _ _ _ _ (mk_message None
      (buffer ++ drop (length buffer) (msg_data (mq_pool (write_next m None q) m)))) Hok2) as [Hok3 _].
    exists ms, fs. split_and!.
    + cbn [fst snd]. apply (mq_ok_perm _ _ _ _ _ (Permutation_sym (slots_middle B1 B2 (Filled m)))).
      unfold write_next in *. simpl in *. by rewrite fn_lookup_insert in *.
    + intros x Hx. simpl. rewrite fn_lookup_insert. simpl.
      destruct (decide (x = m)) as [->|Hxm]; [by rewrite fn_lookup_insert|].
      rewrite !fn_lookup_insert_ne by done. apply Hfill. set_solver.
    + intros x b Hx. apply (Hres x). set_solver.
  - apply copy_in_Some in Hcp as ->. apply (mq_ok_perm _ _ _ _ _ (slots_middle B1 B2 _)) in Hok as Hok1.
    destruct (busy_write_ok _ _ _ _ _ (mk_message (msg_next (mq_pool q m))
      (buffer ++ drop (length buffer) (msg_data (mq_pool q m)))) Hok1) as [Hok2 _].
    exists ms, fs. split_and!; [by apply (mq_ok_perm _ _ _ _ _ (Permutation_sym (slots_middle B1 B2 (FilledUrgent m))))| |].
    + intros x Hx. simpl. assert (Filled x ∈ B1 ++ B2) as Hin by set_solver.
      pose proof (holders_ne _ _ _ _ _ _ _ Hok Hin) as Hxm. simpl in Hxm. rewrite fn_lookup_insert_ne by done.
      apply Hfill. set_solver.
    + intros x b Hx. apply (Hres x). set_solver.
  - apply (mq_ok_perm _ _ _ _ _ (slots_middle B1 B2 _)) in Hok as Hok1. simpl in Hok1.
    destruct (link_ok _ _ _ _ _ Hok1) as [Hok2 _]; [apply Hfill; set_solver|].
    exists (ms ++ [m]), fs. split_and!; [done| |].
    + intros x Hx. cbn [fst snd] in *. rewrite (link_next _ _ _ _ _ _ Hok1); [apply Hfill; set_solver|].
      by apply (list_elem_of_fmap_2 slot_of _ (Filled x)).
    + cbn [fst snd]. rewrite link_msg_size. intros x b Hx. apply (Hres x). set_solver.
  - apply (mq_ok_perm _ _ _ _ _ (slots_middle B1 B2 _)) in Hok as Hok1. simpl in Hok1.
    destruct (link_urgent_ok _ _ _ _ _ Hok1) as [Hok2 _].
    exists (m :: ms), fs. split_and!; [done| |].
    + intros x Hx. cbn [fst snd] in *.
      pose proof (holders_ne _ _ _ _ _ _ _ Hok Hx) as Hxm. simpl in Hxm. unfold link_urgent. simpl.
      destruct (msg_queue_tail q); simpl; rewrite fn_lookup_insert_ne by done; apply Hfill; set_solver.
    + cbn [fst snd]. rewrite link_urgent_msg_size. intros x b Hx. apply (Hres x). set_solver.
  - destruct ms as [|m' ms]; [by rewrite (mq_head_ok _ _ _ _ Hok) in Hhead|].
    destruct (unlink_head_ok _ _ _ _ _ Hok) as (Hh & Hp & Hok'). assert (m' = m) as -> by congruence.
    exists ms, fs. split_and!; [done| |].
    + intros x [?|Hx]%elem_of_cons; [done|]. cbn [fst snd]. rewrite Hp. by apply Hfill.
    + cbn [fst snd]. intros x b [?|Hx]%elem_of_cons; [done|]. simpl. rewrite unlink_head_msg_size. by eapply Hres.
  - apply (mq_ok_perm _ _ _ _ _ (slots_middle B1 B2 _)) in Hok as Hok1. simpl in Hok1.
    destruct (release_ok _ _ _ _ _ Hok1) as [Hok2 _].
    exists ms, (m :: fs). split_and!; [done| |].
    + intros x Hx. cbn [fst snd] in *.
      pose proof (holders_ne _ _ _ _ _ _ _ Hok Hx) as Hxm. simpl in Hxm. simpl. rewrite fn_lookup_insert_ne by done.
      apply Hfill. set_solver.
    + intros x b Hx. apply (Hres x). set_solver.
  - destruct (mq_world_flush q ms fs _ Hok) as (q'' & fs' & E & Hok' & Esz & Hnext). assert (q'' = q') as -> by congruence.
    exists [], fs'. split_and!; [done| |].
    + intros x Hx. cbn [fst snd mq_pool set_mq_entry]. rewrite Hnext; [by apply Hfill|]. by apply (list_elem_of_fmap_2 slot_of _ (Filled x)).
    + cbn [fst snd msg_size set_mq_entry]. rewrite Esz. exact Hres.
Qed.

(** C20: Whatever sends, urgent sends, receives and resets threads and interrupt handlers make
    on a message queue between the critical sections of each other: every slot of its pool is
    in exactly one of three places, linked in the queue, linked in the free list, or in the
    hands of one call; the copy of a message never leaves its slot, for the size was tested
    when the slot was reserved; and the loop of a reset ends. *)
Theorem mq_interleavings msg_size_ pool_size q w :
  rtc mq_step (mq_fresh msg_size_ pool_size q, []) w ->
  (exists ms fs, mq_ok w.1 ms fs (slot_of <$> w.2)) /\
  (forall m buffer, Reserved m buffer ∈ w.2 ->
     is_Some (copy_in m buffer (write_next m None w.1)) /\ is_Some (copy_in m buffer w.1)) /\
  is_Some (mq_flush (Z.to_nat (max_msgs w.1)) w.1).
Proof.
  intros Hrun. assert (mq_world (mq_fresh msg_size_ pool_size q, [])) as H0.
  { destruct (mq_fresh_ok q msg_size_ pool_size) as (fs & Hok & _). exists [], fs. split_and!; [exact Hok|..].
    - by intros m ?%not_elem_of_nil.
    - by intros m b ?%not_elem_of_nil. }
  assert (mq_world w) as (ms & fs & Hok & _ & Hres).
  { revert H0. induction Hrun as [|w1 w2 w3 Hs _ IH]; [done|]. intros H. by eapply IH, mq_step_world. }
  split_and!; [eauto| |].
  - intros m buffer Hin. split; apply copy_in_fits; by eapply Hres.
  - destruct (mq_world_flush _ _ _ _ Hok) as (q' & _ & E & _). eauto.
Qed.
End interleaving.

(** * Specifications *)

Section refinement.
Implicit Types (k : kernel) (Q : gmap node (list node)) (q t : nat) (rs ms fs : list nat).

Record mq_rep k Q q ms fs rs : Prop := {
  mqr_recv : waiters Q (SuspHead (OMessageQueue q)) rs;
  mqr_flag : flag (objects k (OMessageQueue q)) = RT_IPC_FLAG_FIFO \/
             flag (objects k (OMessageQueue q)) = RT_IPC_FLAG_PRIO;
  mqr_ok : mq_ok (mqs k q) ms fs [];
  mqr_size : 0 <= msg_size (mqs k q) }.

Definition only_mq q k k' : Prop :=
  (forall q', q' <> q -> mqs k' q' = mqs k q') /\
  sem_value k' = sem_value k /\ mutexes k' = mutexes k /\ event_sets k' = event_sets k /\
  mailboxes k' = mailboxes k /\ nest_part k' = nest_part k /\ same_objects k k'.

Lemma only_mq_env q mq k k' :
  env k' = env (set_mqs (<[q := mq]> (mqs k)) k) -> same_objects k k' ->
  only_mq q k k' /\ mqs k' q = mq.
Proof.
  intros [= Es Em Eev Emb Emq Enl Eni Etk] Eo. split; [|by rewrite Emq; apply fn_lookup_insert].
  split_and!; try done; [|unfold nest_part; by rewrite Enl, Eni, Etk].
  intros q' Hq. rewrite Emq. by apply fn_lookup_insert_ne.
Qed.

(** The queue changed as a whole, then a receiver is woken. *)
Lemma mq_wake_spec k Q q ms fs rs mq' ms' fs' :
  KI k Q -> mq_rep k Q q ms fs rs -> mq_ok mq' ms' fs' [] -> msg_size mq' = msg_size (mqs k q) ->
  wp (wake_other (SuspHead (OMessageQueue q))) (fun _ k' => exists Q', KI k' Q' /\
    mq_rep k' Q' q ms' fs' (tail rs) /\ others (SuspHead (OMessageQueue q)) Q Q' /\ only_mq q k k' /\
    mqs k' q = mq' /\ threads k' = wake_first rs (threads k))
    (set_mqs (<[q := mq']> (mqs k)) k).
Proof.
  intros Hk [Hr Hfl _ Hsz] Hok' Esz. set (k1 := set_mqs _ k).
  eapply wp_mono; [apply (wake_other_spec k1 Q (SuspHead (OMessageQueue q)) rs); done|].
  intros [] k2 (Q2 & Hk2 & Hl2 & Hoth & Eth & Ee & Eo & _). exists Q2.
  destruct (only_mq_env q mq' k k2 Ee Eo) as [Honly Emq].
  split_and!; try done. split; [done|by rewrite Eo|by rewrite Emq|by rewrite Emq, Esz].
Qed.

(** The slot of [q] as rt_mq_send and rt_mq_urgent fill it. *)
Definition filled (buffer : list Z) m (mq : rt_messagequeue) : list Z :=
  buffer ++ drop (length buffer) (msg_data (mq_pool mq m)).

Definition put_in m (buffer : list Z) (mq : rt_messagequeue) : rt_messagequeue :=
  set_mq_pool (<[m := mk_message (msg_next (mq_pool mq m)) (filled buffer m mq)]> (mq_pool mq)) mq.

Lemma copy_in_put m buffer mq : Z.of_nat (length buffer) <= msg_size mq -> copy_in m buffer mq = Some (put_in m buffer mq).
Proof. intros H. unfold copy_in. by rewrite (proj2 (Z.leb_le _ _)) by done. Qed.

Definition sent (mq : rt_messagequeue) (buffer : list Z) m : rt_messagequeue :=
  link m (put_in m buffer (write_next m None (take_free m mq))).

Definition sent_urgent (mq : rt_messagequeue) (buffer : list Z) m : rt_messagequeue :=
  link_urgent m (put_in m buffer (take_free m mq)).

Lemma sent_ok mq ms fs m buffer :
  mq_ok mq ms (m :: fs) [] ->
  mq_ok (sent mq buffer m) (ms ++ [m]) fs [] /\
  messages (sent mq buffer m) (ms ++ [m]) = messages mq ms ++ [filled buffer m mq] /\
  msg_size (sent mq buffer m) = msg_size mq.
Proof.
  intros Hok. destruct (take_free_ok _ _ _ _ _ Hok) as [_ Hok1].
  destruct (busy_write_ok _ _ _ _ _ (mk_message None (msg_data (mq_pool mq m))) Hok1) as [Hok2 E2].
  set (q2 := write_next m None (take_free m mq)).
  destruct (busy_write_ok q2 _ _ _ _ (mk_message (msg_next (mq_pool q2 m))
    (buffer ++ drop (length buffer) (msg_data (mq_pool q2 m)))) Hok2) as [Hok3 E3].
  destruct (link_ok (put_in m buffer q2) ms fs [] m) as [Hok4 E4]; [exact Hok3| |].
  { simpl. by rewrite !fn_lookup_insert. }
  split_and!; [exact Hok4| |].
  - unfold sent. fold q2. rewrite E4. f_equal; [etransitivity; [exact E3|exact E2]|].
    unfold filled. simpl. rewrite fn_lookup_insert. unfold filled. simpl. by rewrite fn_lookup_insert.
  - unfold sent. by rewrite link_msg_size.
Qed.

Lemma sent_urgent_ok mq ms fs m buffer :
  mq_ok mq ms (m :: fs) [] ->
  mq_ok (sent_urgent mq buffer m) (m :: ms) fs [] /\
  messages (sent_urgent mq buffer m) (m :: ms) = filled buffer m mq :: messages mq ms /\
  msg_size (sent_urgent mq buffer m) = msg_size mq.
Proof.
  intros Hok. destruct (take_free_ok _ _ _ _ _ Hok) as [_ Hok1].
  destruct (busy_write_ok _ _ _ _ _ (mk_message (msg_next (mq_pool mq m))
    (buffer ++ drop (length buffer) (msg_data (mq_pool mq m)))) Hok1) as [Hok2 E2].
  destruct (link_urgent_ok (put_in m buffer (take_free m mq)) ms fs [] m) as [Hok4 E4]; [exact Hok2|].
  split_and!; [exact Hok4| |].
  - unfold sent_urgent. rewrite E4. f_equal; [|exact E2]. simpl. by rewrite fn_lookup_insert.
  - unfold sent_urgent. by rewrite link_urgent_msg_size.
Qed.

(** What sending [buffer] at the end, or in front, does. *)
Definition mq_send_effect (urgent : bool) buffer k (k' : kernel) q ms ms' fs rs rs' (r : Z) : Prop :=
  if msg_size (mqs k q) <? Z.of_nat (length buffer) then r = - RT_ERROR /\ k' = k
  else match fs with
       | [] => r = - RT_EFULL /\ k' = k
       | m :: _ =>
           r = RT_EOK /\ threads k' = wake_first rs (threads k) /\ rs' = tail rs /\
           messages (mqs k' q) ms' =
             (if urgent then filled buffer m (mqs k q) :: messages (mqs k q) ms
              else messages (mqs k q) ms ++ [filled buffer m (mqs k q)])
       end.

(** rt_mq_send puts the message behind the others and wakes the first receiver, refuses an
    oversized message with -RT_ERROR and a full queue with -RT_EFULL. *)
Theorem rt_mq_send_spec k Q q ms fs rs buffer :
  KI k Q -> mq_rep k Q q ms fs rs ->
  wp (rt_mq_send q buffer (Z.of_nat (length buffer))) (fun r k' => exists Q' ms' fs' rs',
    KI k' Q' /\ mq_rep k' Q' q ms' fs' rs' /\ others (SuspHead (OMessageQueue q)) Q Q' /\ only_mq q k k' /\
    mq_send_effect false buffer k k' q ms ms' fs rs rs' r) k.
Proof.
  intros Hk Hrep. pose proof (mqr_ok _ _ _ _ _ _ Hrep) as Hok.
  unfold rt_mq_send, mq_send_effect, send_begin. wp_pure. rewrite Z.gtb_ltb.
  destruct (Z.ltb_spec (msg_size (mqs k q)) (Z.of_nat (length buffer))) as [|Hfit].
  { wp_pure. exists Q, ms, fs, rs. split_and!; try done. by intros l ts. }
  pose proof (mq_free_ok _ _ _ _ Hok) as Hfree. destruct fs as [|m fs]; simpl in Hfree.
  { rewrite Hfree. wp_pure. exists Q, ms, [], rs. split_and!; try done. by intros l ts. }
  destruct Hfree as [-> _]. destruct (sent_ok _ _ _ _ buffer Hok) as (Hok' & Hmsg & Esz).
  unfold fill_slot, upd_mq. wp_pure. simpl. rewrite Nat2Z.id, firstn_all. eapply wp_of_option.
  { rewrite !fn_lookup_insert. by apply copy_in_put. }
  wp_pure. simpl. rewrite !fn_lookup_insert, !fn_insert_insert'.
  set (k1 := set_mqs _ (set_mqs _ _)).
  assert (k1 = set_mqs (<[q := sent (mqs k q) buffer m]> (mqs k)) k) as -> by reflexivity.
  eapply wp_mono; [eapply (mq_wake_spec k Q q); [exact Hk|exact Hrep|exact Hok'|exact Esz]|].
  intros [] k2 (Q2 & Hk2 & Hrep2 & Hoth & Honly & Emq & Eth). wp_pure.
  exists Q2, (ms ++ [m]), fs, (tail rs). rewrite Emq. by split_and!.
Qed.

(** rt_mq_urgent puts the message in front of the others and wakes the first receiver, with
    the same errors as rt_mq_send. *)
Theorem rt_mq_urgent_spec k Q q ms fs rs buffer :
  KI k Q -> mq_rep k Q q ms fs rs ->
  wp (rt_mq_urgent q buffer (Z.of_nat (length buffer))) (fun r k' => exists Q' ms' fs' rs',
    KI k' Q' /\ mq_rep k' Q' q ms' fs' rs' /\ others (SuspHead (OMessageQueue q)) Q Q' /\ only_mq q k k' /\
    mq_send_effect true buffer k k' q ms ms' fs rs rs' r) k.
Proof.
  intros Hk Hrep. pose proof (mqr_ok _ _ _ _ _ _ Hrep) as Hok.
  unfold rt_mq_urgent, mq_send_effect, send_begin. wp_pure. rewrite Z.gtb_ltb.
  destruct (Z.ltb_spec (msg_size (mqs k q)) (Z.of_nat (length buffer))) as [|Hfit].
  { wp_pure. exists Q, ms, fs, rs. split_and!; try done. by intros l ts. }
  pose proof (mq_free_ok _ _ _ _ Hok) as Hfree. destruct fs as [|m fs]; simpl in Hfree.
  { rewrite Hfree. wp_pure. exists Q, ms, [], rs. split_and!; try done. by intros l ts. }
  destruct Hfree as [-> _]. destruct (sent_urgent_ok _ _ _ _ buffer Hok) as (Hok' & Hmsg & Esz).
  unfold fill_slot, upd_mq. wp_pure. simpl. rewrite Nat2Z.id, firstn_all. eapply wp_of_option.
  { rewrite !fn_lookup_insert. by apply copy_in_put. }
  wp_pure. simpl. rewrite !fn_lookup_insert, !fn_insert_insert'.
  set (k1 := set_mqs _ (set_mqs _ _)).
  assert (k1 = set_mqs (<[q := sent_urgent (mqs k q) buffer m]> (mqs k)) k) as -> by reflexivity.
  eapply wp_mono; [eapply (mq_wake_spec k Q q); [exact Hk|exact Hrep|exact Hok'|exact Esz]|].
  intros [] k2 (Q2 & Hk2 & Hrep2 & Hoth & Honly & Emq & Eth). wp_pure.
  exists Q2, (m :: ms), fs, (tail rs). rewrite Emq. by split_and!.
Qed.

(** ** Receiving *)

Definition fetched (mq : rt_messagequeue) m : rt_messagequeue :=
  release m (set_mq_entry (u16 (mq_entry (unlink_head m mq) - 1)) (unlink_head m mq)).

Lemma fetched_ok mq ms fs m :
  mq_ok mq (m :: ms) fs [] ->
  mq_ok (fetched mq m) ms (m :: fs) [] /\ messages (fetched mq m) ms = messages mq ms /\
  msg_size (fetched mq m) = msg_size mq.
Proof.
  intros Hok. destruct (unlink_head_ok _ _ _ _ _ Hok) as (Hh & Hp & Hok1).
  destruct (release_ok _ _ _ _ _ Hok1) as [Hok2 E2]. split_and!; [exact Hok2| |].
  - unfold fetched. rewrite E2. apply messages_ext. intros x _. by rewrite Hp.
  - unfold fetched, unlink_head. simpl. case_decide; done.
Qed.

(** The bytes a receiver with room for [size] gets of a message. *)
Definition truncated k q (size : Z) (msg : list Z) : list Z :=
  take (Z.to_nat (Z.min size (msg_size (mqs k q)))) msg.

Definition mq_recv_effect size timeout t k (k' : kernel) q ms ms' rs rs' (r : loop_result (Z * option (list Z))) : Prop :=
  match messages (mqs k q) ms with
  | [] =>
      mqs k' q = mqs k q /\ ms' = ms /\
      if timeout =? 0 then r = Returns (- RT_ETIMEOUT, None) /\ rs' = rs
      else (exists d, r = Waits timeout d) /\ suspendedp (threads k' t) /\ error (threads k' t) = RT_EOK /\
           exists rs1 rs2, rs = rs1 ++ rs2 /\ rs' = rs1 ++ t :: rs2
  | msg :: msgs =>
      r = Returns (RT_EOK, Some (truncated k q size msg)) /\ messages (mqs k' q) ms' = msgs /\
      threads k' = threads k /\ rs' = rs
  end.

Lemma only_mq_same q k k' : env k' = env k -> same_objects k k' -> only_mq q k k' /\ mqs k' = mqs k.
Proof.
  intros [= Es Em Eev Emb Emq Enl Eni Etk] Eo. split; [|done].
  split_and!; try done; [by rewrite Emq|unfold nest_part; by rewrite Enl, Eni, Etk].
Qed.

Lemma mq_get_spec k Q q m ms fs rs size :
  KI k Q -> mq_rep k Q q (m :: ms) fs rs ->
  wp (mq_get q size) (fun r k' =>
    r = (RT_EOK, Some (truncated k q size (msg_data (mq_pool (mqs k q) m)))) /\
    k' = set_mqs (<[q := fetched (mqs k q) m]> (mqs k)) k) k.
Proof.
  intros Hk Hrep. destruct (unlink_head_ok _ _ _ _ _ (mqr_ok _ _ _ _ _ _ Hrep)) as (Hh & Hp & _).
  unfold mq_get, upd_mq. wp_pure. eapply wp_of_option; [exact Hh|]. wp_pure.
  simpl. rewrite !fn_lookup_insert, !fn_insert_insert'.
  simpl in Hp. cbn [mq_pool set_mq_entry msg_size]. split; [|reflexivity].
  assert (msg_size (unlink_head m (mqs k q)) = msg_size (mqs k q)) as -> by (unfold unlink_head; simpl; by case_decide).
  rewrite Hp. do 3 f_equal. unfold truncated. rewrite Z.gtb_ltb.
  destruct (Z.ltb_spec (msg_size (mqs k q)) size); do 2 f_equal; lia.
Qed.

Lemma mq_recv_loop_spec k Q q ms fs rs size timeout d t t0 :
  KI k Q -> mq_rep k Q q ms fs rs -> rt_current_thread k = Some t -> readyp (threads k t) ->
  t0 <> t -> readyp (threads k t0) ->
  wp (mq_recv_loop q size timeout d) (fun r k' => exists Q' ms' fs' rs',
    KI k' Q' /\ mq_rep k' Q' q ms' fs' rs' /\ others (SuspHead (OMessageQueue q)) Q Q' /\ only_mq q k k' /\
    mq_recv_effect size timeout t k k' q ms ms' rs rs' r) k.
Proof.
  intros Hk Hrep Hcur Hr Hne Hr0. unfold mq_recv_loop, mq_recv_effect. wp_pure.
  pose proof Hrep as [Hrs Hfl Hok Hsz]. rewrite (mq_entry_ok _ _ _ _ Hok).
  destruct ms as [|m ms]; simpl.
  - unfold upd_thread. wp_step. eapply wp_of_option; [exact Hcur|]. wp_pure.
    set (k1 := set_threads _ k). assert (KI k1 Q) as Hk1 by (by apply KIx_upd_thread).
    destruct (Z.eqb_spec timeout 0) as [->|Ht].
    { wp_pure. exists Q, [], fs, rs. split_and!; try done; [by apply KIx_upd_thread|by intros l ts]. }
    wp_step. apply (wp_block k1 Q _ rs t t0); try done.
    + subst k1. simpl. by rewrite fn_lookup_insert.
    + subst k1. simpl. by rewrite fn_lookup_insert_ne.
    + intros rs1 rs2 k2 -> (_ & Eth & Ee & Eo & _ & Q2 & Hk2 & Hl2 & Hoth & _).
      destruct (only_mq_same q k k2 Ee Eo) as [Honly Emq]. wp_pure. exists Q2, [], fs, (rs1 ++ t :: rs2).
      split_and!; try done.
      * split; [done|by rewrite Eo|by rewrite Emq|by rewrite Emq].
      * by rewrite Emq.
      * by eexists.
      * by rewrite Eth, fn_lookup_insert.
      * rewrite Eth, fn_lookup_insert. subst k1. simpl. by rewrite fn_lookup_insert.
      * by exists rs1, rs2.
  - wp_use (mq_get_spec k Q q m ms fs rs size); [done|done|]. intros r k' (-> & ->). wp_pure.
    destruct (fetched_ok _ _ _ _ Hok) as (Hok' & Hmsg & Esz).
    exists Q, ms, (m :: fs), rs. simpl. rewrite fn_lookup_insert. split_and!; try done.
    + split; [done|done|simpl; by rewrite fn_lookup_insert|simpl; by rewrite fn_lookup_insert, Esz].
    + by intros l ts.
    + split; [|done]. intros q' Hq. by apply fn_lookup_insert_ne.
Qed.

(** C21: rt_mq_recv delivers the first message cut to the size of the buffer and returns its
    slot to the free list, times out at once on an empty queue when no wait is allowed, and
    otherwise suspends the receiver. *)
Theorem rt_mq_recv_spec k Q q ms fs rs size timeout t t0 :
  KI k Q -> mq_rep k Q q ms fs rs -> rt_current_thread k = Some t -> readyp (threads k t) ->
  t0 <> t -> readyp (threads k t0) ->
  wp (rt_mq_recv q size timeout) (fun r k' => exists Q' ms' fs' rs',
    KI k' Q' /\ mq_rep k' Q' q ms' fs' rs' /\ others (SuspHead (OMessageQueue q)) Q Q' /\ only_mq q k k' /\
    mq_recv_effect size timeout t k k' q ms ms' rs rs' r) k.
Proof.
  intros Hk Hrep Hcur Hr Hne Hr0. unfold rt_mq_recv. wp_pure.
  destruct (_ && _) eqn:E; [|by apply (mq_recv_loop_spec k Q q ms fs rs size timeout 0 t t0)].
  apply andb_true_iff in E as [Ee%Z.eqb_eq Et]. wp_pure. exists Q, ms, fs, rs. unfold mq_recv_effect.
  rewrite (mq_entry_ok _ _ _ _ (mqr_ok _ _ _ _ _ _ Hrep)) in Ee. destruct ms; [|simpl in Ee; lia].
  simpl. rewrite Et. split_and!; try done. by intros l ts.
Qed.

(** A message that fits is received as it was sent. *)
Lemma truncated_filled k q buffer m :
  Z.of_nat (length buffer) <= msg_size (mqs k q) ->
  truncated k q (Z.of_nat (length buffer)) (filled buffer m (mqs k q)) = buffer.
Proof.
  intros Hs. unfold truncated, filled. rewrite Z.min_l, Nat2Z.id by done. by rewrite take_app_length.
Qed.

(** ** Initialisation *)

Definition mq_lists q Q : gmap node (list node) :=
  <[SuspHead (OMessageQueue q) := []]> (register (OMessageQueue q) Q).

Lemma rt_mq_init_spec k Q q nm pool msg_size_ pool_size fl :
  KI k Q -> containers Q -> detached Q (ObjNode (OMessageQueue q)) -> detached Q (SuspHead (OMessageQueue q)) ->
  fl = RT_IPC_FLAG_FIFO \/ fl = RT_IPC_FLAG_PRIO ->
  wp (rt_mq_init q nm pool msg_size_ pool_size fl) (fun r k' => r = RT_EOK /\
    KI k' (mq_lists q Q) /\ (exists fs, mq_rep k' (mq_lists q Q) q [] fs []) /\
    threads k' = threads k /\ cpu_part k' = cpu_part k /\ nest_part k' = nest_part k /\
    timers k' = timers k /\ mailboxes k' = mailboxes k /\
    mqs k' = <[q := mq_fresh msg_size_ pool_size (set_mq_pool pool (mqs k q))]> (mqs k) /\
    (forall o, o <> OMessageQueue q -> objects k' o = objects k o)) k.
Proof.
  intros Hk Hc Hd1 Hd2 Hfl. unfold rt_mq_init.
  wp_use (rt_object_init_spec (activated k) k Q (OMessageQueue q) nm); [done|done|done|].
  intros [] k1 (xs & h1 & Hxs & Hk1 & ->). rewrite (register_default _ _ _ Hxs) in Hk1.
  unfold upd_object, rt_ipc_object_init, list_init, upd_mq. wp_pure.
  cbn [set_lists set_objects set_mqs lists objects mqs]. rewrite ?fn_insert_insert', !fn_lookup_insert.
  apply (kinv_init_head _ _ _ _ _ _ (SuspHead (OMessageQueue q))) in Hk1; [|done|by apply detached_register].
  destruct (mq_fresh_ok (set_mq_pool pool (mqs k q)) msg_size_ pool_size) as (fs & Hok & Hsz & Hmax).
  split_and!; try done.
  - exists fs. split; cbn [objects mqs set_mqs set_lists set_objects]; rewrite ?fn_lookup_insert; try done.
    + unfold waiters, mq_lists. by rewrite lookup_insert_eq.
    + rewrite Hsz. apply u16_range.
  - intros o Ho. cbn [objects]. simpl. by rewrite !fn_lookup_insert_ne.
Qed.
End refinement.
