(* ===== verification/Clock.v ===== *)
(** The clock (src/clock.c): ticks, time slices, and the expiry of timers.

    rt_tick_increase is called by the clock interrupt.  The timers of the kernel
    are those of its threads; a timer of an application calls a function of its
    own, the parameter [user] of the definitions. *)

From Stdlib Require Import Sorted.
From S2P Require Import Prelude RtList KState Ffs KInv Sched Object Timer Thread Ipc.

Open Scope Z_scope.

(** * Operations *)

(** rt_tick_set *)
Definition rt_tick_set (tick : Z) : K unit := modify (set_rt_tick (u32 tick)).

(** [t->timeout_func(t->parameter)] *)
Definition timeout_call (user : nat -> Z -> K unit) (fn : timeout_fn) : K unit :=
  match fn with
  | FN_rt_thread_timeout t => rt_thread_timeout t
  | FN_user f arg => user f arg
  end.

(** rt_tick_increase; [fuel] bounds the timers one check may fire. *)
Definition rt_tick_increase (user : nat -> Z -> K unit) (fuel : nat) : K unit :=
  modify (fun k => set_rt_tick (u32 (rt_tick k + 1)) k) ;!
  let! k := get in
  let! t := of_option NullDeref (rt_thread_self k) in
  upd_thread t (fun th => set_remaining_tick (u32 (remaining_tick th - 1)) th) ;!
  let! k := get in
  (if remaining_tick (threads k t) =? 0 then
     upd_thread t (fun th => set_remaining_tick (init_tick th) th) ;!
     rt_thread_yield ;! ret tt
   else ret tt) ;!
  rt_timer_check (timeout_call user) fuel.

(** rt_tick_from_millisecond *)
Definition rt_tick_from_millisecond (ms : Z) : Z :=
  u32 (u32 (RT_TICK_PER_SECOND * ms) + 999) / 1000.

(** * Conversion *)

(** The result is the time rounded up to ticks while the product fits in 32 bits. *)
Lemma rt_tick_from_millisecond_ceil ms :
  0 <= ms <= 21474831 ->
  let n := rt_tick_from_millisecond ms in
  ms <= 5 * n /\ 5 * (n - 1) < ms.
Proof.
  intros Hms. unfold rt_tick_from_millisecond, RT_TICK_PER_SECOND.
  rewrite (u32_small (200 * ms)), u32_small by lia.
  pose proof (Z.div_mod (200 * ms + 999) 1000). pose proof (Z.mod_pos_bound (200 * ms + 999) 1000). lia.
Qed.

(** * Expiry *)

Section expiry.
Implicit Types (k : kernel) (Q : gmap node (list node)) (t : nat) (ts : list nat).

Lemma filter_true {A} (P : A -> Prop) `{forall x, Decision (P x)} (l : list A) :
  (forall x, x ∈ l -> P x) -> filter P l = l.
Proof.
  induction l as [|x l IH]; [done|]. intros Hp. rewrite filter_cons_True by (apply Hp; set_solver).
  f_equal. apply IH. set_solver.
Qed.

Lemma filter_none {A} (P : A -> Prop) `{forall x, Decision (P x)} (l : list A) :
  (forall x, x ∈ l -> ~ P x) -> filter P l = [].
Proof.
  induction l as [|x l IH]; [done|]. intros Hp. rewrite filter_cons_False by (apply Hp; set_solver).
  apply IH. set_solver.
Qed.

Lemma filter_two {A} (P R S : A -> Prop) `{forall x, Decision (P x)} `{forall x, Decision (R x)}
    `{forall x, Decision (S x)} (l : list A) :
  (forall x, S x <-> R x /\ P x) -> filter P (filter R l) = filter S l.
Proof. intros E. rewrite list_filter_filter. apply list_filter_iff. intros x. rewrite E. tauto. Qed.

Definition row_of t : node := TimerRow (ThreadTimer t).

(** The timer of thread [t] is due at tick [now], as rt_timer_check tests it. *)
Definition due k (now : Z) t : Prop :=
  u32 (now - timeout_tick (timers k (ThreadTimer t))) < RT_TICK_MAX / 2.

Definition one_shot k t : Prop := flag_periodic (flag (objects k (OTimer (ThreadTimer t)))) = false.

(** The contents of a thread whose timer fired. *)
Definition expired (th : rt_thread) : rt_thread :=
  set_stat RT_THREAD_READY (set_error (- RT_ETIMEOUT) th).

Lemma waiters_eq Q l ts ts' : waiters Q l ts -> ts = ts' -> waiters Q l ts'.
Proof. by intros ? <-. Qed.

(** The lists after the timer of [t] fired. *)
Definition after_fire t (p : Z) Q : gmap node (list node) := made_ready t p (unlink (row_of t) Q).

Lemma filter_rows t' t ts :
  filter (fun m => m <> TList t') (row_of <$> ts) = row_of <$> ts.
Proof. apply filter_notin. by intros (? & ? & ?)%list_elem_of_fmap. Qed.

Lemma after_fire_timers act k Q t ts p :
  KIx act k Q -> Q !! TimerHead = Some (row_of <$> (t :: ts)) ->
  after_fire t p Q !! TimerHead = Some (row_of <$> ts).
Proof.
  intros Hk Hq. unfold after_fire, made_ready.
  rewrite lookup_insert_ne, lookup_delete_ne, lookup_unlink, decide_False by done.
  assert (unlink (row_of t) Q !! TimerHead = Some (row_of <$> ts)) as ->; [|simpl; by rewrite filter_rows].
  rewrite fmap_cons in Hq.
  rewrite <- (unlink_member (lists k) Q (row_of t) TimerHead [] (row_of <$> ts)); [|apply Hk|done].
  by rewrite lookup_insert_ne, lookup_insert_eq.
Qed.

Lemma after_fire_waiters t p Q l ts :
  wait_head l = true -> waiters Q l ts -> waiters (after_fire t p Q) l (filter (fun s => s <> t) ts).
Proof.
  intros Hw Hl. unfold after_fire, made_ready, waiters.
  rewrite lookup_insert_ne, lookup_delete_ne by (by intros <-).
  by apply waiters_unlink_thread, waiters_unlink_timer.
Qed.

Lemma after_fire_ready act k Q t p xs :
  KIx act k Q -> suspendedp (threads k t) -> Q !! ReadyHead p = Some xs ->
  after_fire t (current_priority (threads k t)) Q !! ReadyHead p =
    Some (xs ++ (TList <$> filter (fun s => current_priority (threads k s) = p) [t])).
Proof.
  intros Hk Hs Hp.
  assert (forall n, TList t = n \/ row_of t = n -> n ∉ xs) as Hni.
  { intros n [<-|<-] Hin.
    - destruct (pl_in _ _ _ (ki_placed _ _ _ _ _ _ Hk t) (ReadyHead p)) as [[? _]|[[_ ?]|[_ ?]]]; try done;
        [by exists xs|]. by destruct (ready_not_suspended (threads k t)).
    - pose proof (ki_typed _ _ _ _ _ _ Hk (ReadyHead p) (row_of t) ltac:(by exists xs)). done. }
  assert (unlink (TList t) (unlink (row_of t) Q) !! ReadyHead p = Some xs) as Hu.
  { rewrite !lookup_unlink, !decide_False, Hp by done. simpl.
    rewrite (filter_notin (row_of t)), (filter_notin (TList t)); eauto. }
  unfold after_fire, made_ready. rewrite filter_cons, filter_nil. case_decide as E.
  - subst p. by rewrite lookup_insert_eq, Hu.
  - rewrite lookup_insert_ne, lookup_delete_ne, Hu by congruence. simpl. by rewrite app_nil_r.
Qed.

(** One round of the loop of rt_timer_check on a due timer of a thread. *)
Lemma fire_spec user k Q t ts now fuel (Phi : unit -> kernel -> Prop) :
  KI k Q -> Q !! TimerHead = Some (row_of <$> (t :: ts)) -> one_shot k t ->
  timer_fn k (ThreadTimer t) = FN_rt_thread_timeout t -> due k now t ->
  (forall k', KI k' (after_fire t (current_priority (threads k t)) Q) ->
     threads k' = <[t := expired (threads k t)]> (threads k) -> env k' = env k -> timers k' = timers k ->
     (forall o, o <> OTimer (ThreadTimer t) -> objects k' o = objects k o) ->
     wp (rt_timer_check_loop (timeout_call user) fuel (rt_tick k)) Phi k') ->
  wp (rt_timer_check_loop (timeout_call user) (S fuel) now) Phi k.
Proof.
  intros Hk Hq Hos Hfn Hdue Hnext. cbn [rt_timer_check_loop]. wp_pure. unfold list_isempty.
  rewrite (Rep_isempty _ _ _ _ (ki_rep _ _ _ _ _ _ Hk) Hq). simpl.
  wp_step. eapply wp_of_option; [by rewrite (Rep_next _ _ _ _ (ki_rep _ _ _ _ _ _ Hk) Hq)|].
  wp_step. eapply wp_of_option; [done|]. unfold due in Hdue. rewrite (proj2 (Z.ltb_lt _ _)) by done.
  assert (suspendedp (threads k t)) as Hs.
  { apply (ki_timed _ _ _ _ _ _ Hk t). eexists. split; [exact Hq|]. set_solver. }
  destruct (kinv_timer_off _ _ _ _ _ _ _ [] _ Hk Hq) as (h & Hh & Hk1).
  rewrite (unlink_member (lists k)) in Hk1; [|apply Hk|done].
  wp_step. eapply wp_list_op; [exact Hh|]. unfold timer_fn in Hfn. rewrite Hfn. cbn [timeout_call].
  set (act := <[ThreadTimer t := false]> (activated k)) in *.
  wp_use (rt_thread_timeout_spec act (set_lists h k) (unlink (row_of t) Q) t);
    [exact Hk1|done|apply fn_lookup_insert|rewrite lookup_unlink, decide_True by done; eauto|].
  simpl. intros [] k2 (k1 & Hk1' & Ee1 & Ec1 & Et1 & Eth1 & Hsch).
  pose proof (scheduled_KIx _ _ _ _ Hk1' Hsch) as Hk2.
  destruct Hsch as (_ & _ & Eth2 & Ee2 & Et2 & _). rewrite Et1 in Et2. injection Et2 as Eo Etm _.
  assert (rt_tick k2 = rt_tick k) as Etick by (rewrite Ee1 in Ee2; injection Ee2; done).
  wp_pure. rewrite Eo. unfold one_shot in Hos. rewrite Hos. cbn [andb]. unfold upd_flag, upd_object.
  wp_pure. unfold rt_tick_get. rewrite Etick. apply Hnext.
  - unfold KI. rewrite (activated_upd_flag k2), clear_activated_bit.
    assert (activated k2 = activated k) as -> by (unfold activated; by rewrite Eo). exact Hk2.
  - simpl. by rewrite Eth2, Eth1.
  - etransitivity; [exact Ee2|exact Ee1].
  - done.
  - intros o Ho. simpl. rewrite fn_lookup_insert_ne by done. by rewrite Eo.
Qed.

(** The loop fires the due timers in their order and stops at the first that is not. *)
Lemma rt_timer_check_loop_spec user fuel : forall k Q dues rest,
  KI k Q -> Q !! TimerHead = Some (row_of <$> (dues ++ rest)) ->
  (forall t, t ∈ dues -> due k (rt_tick k) t /\ one_shot k t) ->
  (forall t rest', rest = t :: rest' -> ~ due k (rt_tick k) t) ->
  (length dues < fuel)%nat ->
  wp (rt_timer_check_loop (timeout_call user) fuel (rt_tick k)) (fun _ k' => exists Q',
    KI k' Q' /\ Q' !! TimerHead = Some (row_of <$> rest) /\
    (forall t, t ∈ dues -> threads k' t = expired (threads k t)) /\
    (forall t, t ∉ dues -> threads k' t = threads k t) /\
    (forall l ts, wait_head l = true -> waiters Q l ts -> waiters Q' l (filter (fun t => t ∉ dues) ts)) /\
    (forall p xs, Q !! ReadyHead p = Some xs -> Q' !! ReadyHead p =
      Some (xs ++ (TList <$> filter (fun t => current_priority (threads k t) = p) dues))) /\
    env k' = env k /\ timers k' = timers k /\ same_objects k k') k.
Proof.
  induction fuel as [|fuel IH]; intros k Q dues rest Hk Hq Hdue Hrest Hf; [lia|].
  destruct dues as [|t dues].
  - cbn [rt_timer_check_loop]. wp_pure. unfold list_isempty.
    rewrite (Rep_isempty _ _ _ _ (ki_rep _ _ _ _ _ _ Hk) Hq). simpl in Hq.
    assert (exists Q', KI k Q' /\ Q' !! TimerHead = Some (row_of <$> rest) /\
      (forall t, t ∈ [] -> threads k t = expired (threads k t)) /\
      (forall t, t ∉ [] -> threads k t = threads k t) /\
      (forall l ts, wait_head l = true -> waiters Q l ts -> waiters Q' l (filter (fun t => t ∉ []) ts)) /\
      (forall p xs, Q !! ReadyHead p = Some xs -> Q' !! ReadyHead p =
        Some (xs ++ (TList <$> filter (fun t => current_priority (threads k t) = p) []))) /\
      env k = env k /\ timers k = timers k /\ same_objects k k) as Hend.
    { exists Q. split_and!; try done; [by intros ? []%not_elem_of_nil| |
        intros p xs Hp; rewrite filter_nil; by rewrite app_nil_r].
      intros l ts _ Hl. rewrite filter_true; [done|]. intros ? _. apply not_elem_of_nil. }
    destruct rest as [|t rest]; [exact Hend|]. simpl.
    wp_step. eapply wp_of_option; [by rewrite (Rep_next _ _ _ _ (ki_rep _ _ _ _ _ _ Hk) Hq)|].
    wp_step. eapply wp_of_option; [done|].
    rewrite (proj2 (Z.ltb_ge _ _)); [exact Hend|]. apply Z.nlt_ge. by apply (Hrest t rest).
  - destruct (Hdue t) as [Hd Hos]; [set_solver|].
    assert (member Q TimerHead (row_of t)) as Hm by (eexists; split; [exact Hq|set_solver]).
    assert (live (threads k t)) as Hl by (right; by apply (ki_timed _ _ _ _ _ _ Hk t)).
    assert (t ∉ dues) as Hnt.
    { pose proof (Rep_NoDup _ _ _ _ (ki_rep _ _ _ _ _ _ Hk) Hq) as Hnd. apply NoDup_fmap_1 in Hnd.
      simpl in Hnd. apply NoDup_cons in Hnd as [? _]. set_solver. }
    eapply fire_spec; [done|exact Hq|done|by apply (ki_timed _ _ _ _ _ _ Hk)|done|].
    intros k1 Hk1 Eth1 Ee1 Etm1 Eo1.
    assert (rt_tick k1 = rt_tick k) as Etick by (by injection Ee1).
    assert (forall s now, due k1 now s <-> due k now s) as Hdd by (intros; unfold due; by rewrite Etm1).
    rewrite <- Etick. eapply wp_mono; [apply (IH k1 _ dues rest Hk1)|].
    + by eapply after_fire_timers.
    + intros s Hs. rewrite Etick, Hdd. destruct (Hdue s) as [? Hoss]; [set_solver|]. split; [done|].
      unfold one_shot. rewrite Eo1; [done|]. intros [= ->]. done.
    + intros s rest' E. rewrite Etick, Hdd. by eapply Hrest.
    + simpl in Hf. lia.
    + cbv beta. intros [] k2 (Q2 & Hk2 & Hq2 & Hin & Hout & Hw & Hr & Ee & Etm & Eo). exists Q2.
      split_and!; [done|done| | | | |by rewrite Ee|by rewrite Etm|].
      * intros s Hs. destruct (decide (s = t)) as [->|Hne].
        -- by rewrite Hout, Eth1, fn_lookup_insert.
        -- rewrite Hin, Eth1, fn_lookup_insert_ne; [done|congruence|set_solver].
      * intros s Hs. rewrite Hout, Eth1, fn_lookup_insert_ne; [done|set_solver..].
      * intros l ts Hwl Hls. eapply waiters_eq; [by apply Hw, after_fire_waiters|].
        apply filter_two. set_solver.
      * intros p xs Hp. apply (after_fire_ready (activated k) k Q t) in Hp; [|done|by apply (ki_timed _ _ _ _ _ _ Hk t)].
        apply Hr in Hp. rewrite Hp, <- app_assoc, <- fmap_app. do 3 f_equal.
        rewrite (list_filter_iff (fun s => current_priority (threads k1 s) = p)
          (fun s => current_priority (threads k s) = p) dues).
        { by rewrite <- filter_app. }
        intros s. rewrite Eth1, fn_insert_case. by case_decide; subst.
      * intros o Ho. rewrite Eo by done. apply Eo1. apply Ho.
Qed.
(** ** The whole check

    With every timer within half a circle of a base tick, and the list sorted
    from there, the due timers are a prefix of the list. *)

Lemma due_distance k base now t :
  distance k base (row_of t) < RT_TICK_MAX / 2 -> u32 (now - base) < RT_TICK_MAX / 2 ->
  due k now t <-> distance k base (row_of t) <= u32 (now - base).
Proof.
  unfold due, distance, row_of. change (RT_TICK_MAX / 2) with 2147483647. unfold u32. intros H1 H2.
  set (tt := timeout_tick _) in *.
  replace (now - tt) with ((now - base) - (tt - base)) by lia. rewrite Zminus_mod.
  pose proof (Z.mod_pos_bound (tt - base) (2 ^ 32)). pose proof (Z.mod_pos_bound (now - base) (2 ^ 32)).
  set (a := (tt - base) mod 2 ^ 32) in *. set (b := (now - base) mod 2 ^ 32) in *.
  destruct (Z.le_gt_cases a b).
  - rewrite Z.mod_small by lia. lia.
  - rewrite <- (Z.mod_add _ 1), Z.mod_small by lia. lia.
Qed.

(** The distance from the present tick of a timer that is not due yet. *)
Lemma distance_rebase k base now t :
  distance k base (row_of t) < RT_TICK_MAX / 2 -> u32 (now - base) < RT_TICK_MAX / 2 ->
  ~ due k now t -> distance k now (row_of t) = distance k base (row_of t) - u32 (now - base).
Proof.
  intros H1 H2. rewrite (due_distance k base) by done.
  revert H1 H2. unfold due, distance, row_of. change (RT_TICK_MAX / 2) with 2147483647. unfold u32.
  set (tt := timeout_tick _) in *. intros H1 H2.
  replace (tt - now) with ((tt - base) - (now - base)) by lia. rewrite (Zminus_mod (tt - base)).
  pose proof (Z.mod_pos_bound (tt - base) (2 ^ 32)). pose proof (Z.mod_pos_bound (now - base) (2 ^ 32)).
  intros ?. apply Z.mod_small. lia.
Qed.

#[export] Instance due_dec k now t : Decision (due k now t).
Proof. unfold due. apply _. Defined.

Lemma sorted_prefix (f : nat -> Z) b ts :
  StronglySorted Z.le (f <$> ts) ->
  exists ys zs, ts = ys ++ zs /\ (forall t, t ∈ ys -> f t <= b) /\ (forall t, t ∈ zs -> b < f t).
Proof.
  induction ts as [|t ts IH]; intros Hs; [exists [], []; set_solver|].
  apply StronglySorted_inv in Hs as [Hs Ht]. destruct (Z.le_gt_cases (f t) b) as [Hle|Hgt].
  - destruct IH as (ys & zs & -> & Hy & Hz); [done|]. exists (t :: ys), zs. set_solver.
  - exists [], (t :: ts). split_and!; [done|set_solver|]. apply (proj1 (Forall_fmap _ _ _)) in Ht.
    rewrite Forall_forall in Ht. intros s [->|Hs']%elem_of_cons; [lia|]. specialize (Ht s Hs'). simpl in Ht. lia.
Qed.

Lemma sorted_sub (f g : nat -> Z) c ts :
  (forall t, t ∈ ts -> g t = f t - c) -> StronglySorted Z.le (f <$> ts) -> StronglySorted Z.le (g <$> ts).
Proof.
  induction ts as [|t ts IH]; intros E Hs; [done|]. apply StronglySorted_inv in Hs as [Hs Ht].
  rewrite fmap_cons. constructor; [apply IH; [set_solver|done]|].
  apply Forall_fmap, Forall_forall. intros s Hs'. simpl. apply (proj1 (Forall_fmap _ _ _)) in Ht.
  rewrite Forall_forall in Ht. specialize (Ht s Hs'). simpl in Ht. rewrite !E by set_solver. lia.
Qed.

(** What one check does, for the timers [ts] of the list. *)
Definition due_now k ts : list nat := filter (fun t => due k (rt_tick k) t) ts.

Definition checked ts k Q (k' : kernel) Q' : Prop :=
  KI k' Q' /\ Q' !! TimerHead = Some (row_of <$> filter (fun t => ~ due k (rt_tick k) t) ts) /\
  timers_sorted k' Q' (rt_tick k') /\
  (forall t, t ∈ ts -> due k (rt_tick k) t -> threads k' t = expired (threads k t)) /\
  (forall t, ~ (t ∈ ts /\ due k (rt_tick k) t) -> threads k' t = threads k t) /\
  (forall l ws, wait_head l = true -> waiters Q l ws ->
    waiters Q' l (filter (fun t => ~ (t ∈ ts /\ due k (rt_tick k) t)) ws)) /\
  (forall p xs, Q !! ReadyHead p = Some xs -> Q' !! ReadyHead p =
    Some (xs ++ (TList <$> filter (fun t => current_priority (threads k t) = p) (due_now k ts)))) /\
  env k' = env k /\ timers k' = timers k /\ same_objects k k'.

Lemma timer_check_fires user k Q base ts fuel :
  KI k Q -> Q !! TimerHead = Some (row_of <$> ts) -> timers_sorted k Q base ->
  u32 (rt_tick k - base) < RT_TICK_MAX / 2 -> (forall t, t ∈ ts -> one_shot k t) ->
  (length ts < fuel)%nat ->
  wp (rt_timer_check (timeout_call user) fuel) (fun _ k' => exists Q', checked ts k Q k' Q') k.
Proof.
  intros Hk Hq (xs & Hxs & Hd & Hs) Hb Hos Hf. simplify_eq.
  rewrite Forall_fmap, Forall_forall in Hd. rewrite <- list_fmap_compose in Hs.
  destruct (sorted_prefix _ (u32 (rt_tick k - base)) _ Hs) as (ys & zs & -> & Hy & Hz).
  assert (forall t, t ∈ ys -> due k (rt_tick k) t) as Hyd.
  { intros t Ht. apply (due_distance k base); [apply Hd; set_solver|done|by apply Hy]. }
  assert (forall t, t ∈ zs -> ~ due k (rt_tick k) t) as Hzd.
  { intros t Ht. rewrite (due_distance k base); [apply Z.lt_nge; by apply Hz|apply Hd; set_solver|done]. }
  assert (forall t, t ∈ ys <-> t ∈ ys ++ zs /\ due k (rt_tick k) t) as Hin by set_solver.
  assert (filter (fun t => ~ due k (rt_tick k) t) (ys ++ zs) = zs) as Efil.
  { rewrite filter_app, (filter_true _ zs) by done. rewrite (filter_none _ ys); [done|].
    intros t Ht Hn. by apply Hn, Hyd. }
  assert (due_now k (ys ++ zs) = ys) as Edue.
  { unfold due_now. rewrite filter_app, (filter_true _ ys), (filter_none _ zs) by done. apply app_nil_r. }
  unfold rt_timer_check. wp_pure. unfold rt_tick_get.
  wp_use (rt_timer_check_loop_spec user fuel k Q ys zs); [done|done| | | |].
  - intros t Ht. split; [by apply Hyd|]. apply Hos. set_solver.
  - intros t rest' ->. apply Hzd. set_solver.
  - rewrite length_app in Hf. lia.
  - intros [] k' (Q' & Hk' & Hq' & Hi & Ho & Hw & Hr & Ee & Etm & Eob). exists Q'. unfold checked.
    rewrite Efil, Edue.
    assert (rt_tick k' = rt_tick k) as Etick by (by injection Ee). split_and!; try done.
    + exists (row_of <$> zs). split; [done|].
      assert (forall t, t ∈ zs -> distance k' (rt_tick k') (row_of t) =
        distance k base (row_of t) - u32 (rt_tick k - base)) as Hre.
      { intros t Ht. rewrite <- (distance_rebase k base); [|apply Hd; set_solver|done|by apply Hzd].
        unfold distance, row_of. by rewrite Etm, Etick. }
      split.
      * apply Forall_fmap, Forall_forall. intros t Ht. unfold compose. rewrite Hre by done.
        specialize (Hd t ltac:(set_solver)). unfold compose in Hd. pose proof (u32_range (rt_tick k - base)). lia.
      * rewrite <- list_fmap_compose. eapply sorted_sub; [exact Hre|].
        rewrite fmap_app in Hs. clear -Hs. induction ys as [|y ys IH]; [exact Hs|].
        apply IH. by apply StronglySorted_inv in Hs as [? _].
    + intros t Ht Hdt. apply Hi, Hin. done.
    + intros t Ht. apply Ho. by rewrite Hin.
    + intros l ws Hl Hws. eapply waiters_eq; [by apply Hw|]. apply list_filter_iff. intros t. by rewrite Hin.
Qed.
(** ** A tick *)

Definition slice_over (th : rt_thread) : bool := u32 (remaining_tick th - 1) =? 0.

(** The running thread after a tick: one tick less, or a new slice. *)
Definition sliced (th : rt_thread) : rt_thread :=
  set_remaining_tick (if slice_over th then init_tick th else u32 (remaining_tick th - 1)) th.

(** The first half of rt_tick_increase: the tick and the slice of the running
    thread, which goes behind its equals when the slice is over. *)
Lemma tick_slice {A} k Q t ys zs (f : K A) Phi :
  KI k Q -> rt_current_thread k = Some t -> readyp (threads k t) ->
  let p := current_priority (threads k t) in
  Q !! ReadyHead p = Some (ys ++ TList t :: zs) ->
  (forall k', KI k' (if slice_over (threads k t) then <[ReadyHead p := ys ++ zs ++ [TList t]]> Q else Q) ->
     threads k' = <[t := sliced (threads k t)]> (threads k) ->
     env k' = env (set_rt_tick (u32 (rt_tick k + 1)) k) -> timer_part k' = timer_part k -> wp f Phi k') ->
  wp (modify (fun k => set_rt_tick (u32 (rt_tick k + 1)) k) ;!
      let! k := get in
      let! t := of_option NullDeref (rt_thread_self k) in
      upd_thread t (fun th => set_remaining_tick (u32 (remaining_tick th - 1)) th) ;!
      let! k := get in
      (if remaining_tick (threads k t) =? 0 then
         upd_thread t (fun th => set_remaining_tick (init_tick th) th) ;!
         rt_thread_yield ;! ret tt
       else ret tt) ;! f) Phi k.
Proof.
  intros Hk Hcur Hr p Hq Hf. wp_pure. eapply wp_of_option; [exact Hcur|]. unfold upd_thread. wp_pure. simpl.
  rewrite !fn_lookup_insert. simpl. unfold sliced in Hf. unfold slice_over in *.
  destruct (u32 (remaining_tick (threads k t) - 1) =? 0) eqn:E.
  - wp_pure. simpl. rewrite fn_lookup_insert, fn_insert_insert'. simpl.
    set (k1 := set_threads _ _).
    assert (threads k1 t = sliced (threads k t)) as Et.
    { subst k1. simpl. rewrite fn_lookup_insert. unfold sliced, slice_over. by rewrite E. }
    assert (KI k1 Q) as Hk1 by (apply (KIx_upd_thread _ (set_rt_tick _ k)); [done|exact Hk]).
    wp_use (yield_moves (activated k) k1 Q t ys zs); [exact Hk1|done|by rewrite Et|by rewrite Et|].
    intros r k2 (_ & [[En ->]|(En & h & Hk2 & Hsch)]); wp_pure.
    + apply Hf; [|done..]. apply app_nil in En as [-> ->]. simpl.
      by rewrite insert_id.
    + rewrite Et in *. pose proof (scheduled_KIx _ _ _ _ Hk2 Hsch) as Hk3.
      destruct Hsch as (_ & _ & Eth & Ee & Etp & _). apply Hf; [|by rewrite Eth|by rewrite Ee|by rewrite Etp].
      injection Etp as Eo _ _. unfold KI, activated. rewrite Eo. exact Hk3.
  - wp_pure. apply Hf; [|done..]. apply (KIx_upd_thread _ (set_rt_tick _ k)); [done|exact Hk].
Qed.

Lemma tick_distance now : u32 (u32 (now + 1) - now) < RT_TICK_MAX / 2.
Proof.
  unfold u32. rewrite Zminus_mod_idemp_l. replace (now + 1 - now) with 1 by lia. done.
Qed.

(** C5: A tick of the clock: the time advances, the running thread spends a tick of
    its slice and goes behind its equals when the slice is over, and the threads
    whose timers are due, and no others, are made ready with -RT_ETIMEOUT, in the
    order of their timers, behind the threads already ready. *)
Theorem rt_tick_increase_spec user k Q t ts ys zs fuel :
  KI k Q -> rt_current_thread k = Some t -> readyp (threads k t) ->
  let p := current_priority (threads k t) in
  Q !! ReadyHead p = Some (ys ++ TList t :: zs) ->
  timers_sorted k Q (rt_tick k) -> Q !! TimerHead = Some (row_of <$> ts) ->
  (forall s, s ∈ ts -> one_shot k s) -> (length ts < fuel)%nat ->
  let now := u32 (rt_tick k + 1) in
  let over := filter (fun s => due k now s) ts in
  wp (rt_tick_increase user fuel) (fun _ k' => rt_tick k' = now /\ ipc_part k' = ipc_part k /\
    exists Q', KI k' Q' /\ timers_sorted k' Q' now /\
      Q' !! TimerHead = Some (row_of <$> filter (fun s => ~ due k now s) ts) /\
      threads k' t = sliced (threads k t) /\
      (forall s, s ∈ over -> threads k' s = expired (threads k s)) /\
      (forall s, s <> t -> s ∉ over -> threads k' s = threads k s) /\
      Q' !! ReadyHead p = Some ((if slice_over (threads k t) then ys ++ zs ++ [TList t] else ys ++ TList t :: zs)
        ++ (TList <$> filter (fun s => current_priority (threads k s) = p) over)) /\
      forall l ws, wait_head l = true -> waiters Q l ws -> waiters Q' l (filter (fun s => s ∉ over) ws)) k.
Proof.
  intros Hk Hcur Hr p Hq Hs Hts Hos Hf now over. unfold rt_tick_increase.
  apply (tick_slice k Q t ys zs); [done..|]. fold p. intros k1 Hk1 Eth Ee Etp.
  set (Q1 := if slice_over (threads k t) then _ else _) in Hk1.
  assert (forall l, l <> ReadyHead p -> Q1 !! l = Q !! l) as HQ1.
  { intros l Hl. subst Q1. destruct slice_over; [by rewrite lookup_insert_ne|done]. }
  assert (Q1 !! ReadyHead p = Some (if slice_over (threads k t) then ys ++ zs ++ [TList t]
    else ys ++ TList t :: zs)) as Hq1.
  { subst Q1. destruct slice_over; [by rewrite lookup_insert_eq|done]. }
  assert (rt_tick k1 = now) as Etick by (by injection Ee). injection Etp as Eo Etm _.
  assert (forall x s, due k1 x s <-> due k x s) as Hdue by (intros; unfold due; by rewrite Etm).
  assert (t ∉ ts) as Hnt.
  { intros Hin. apply (ready_not_suspended (threads k t)); [done|]. apply (ki_timed _ _ _ _ _ _ Hk t).
    eexists. split; [exact Hts|]. apply list_elem_of_fmap_2' with t; done. }
  assert (forall s, s <> t -> threads k1 s = threads k s) as Hoth.
  { intros s Hne. rewrite Eth. by apply fn_lookup_insert_ne. }
  assert (due_now k1 ts = over) as Eover.
  { unfold due_now, over. rewrite Etick. apply list_filter_iff. intros s. by rewrite Hdue. }
  assert (forall s, s ∈ over <-> s ∈ ts /\ due k1 (rt_tick k1) s) as Hin.
  { intros s. rewrite <- Eover. unfold due_now. rewrite list_elem_of_filter. tauto. }
  wp_use (timer_check_fires user k1 Q1 (rt_tick k) ts fuel);
    [exact Hk1|by rewrite HQ1| |rewrite Etick; apply tick_distance| |done|].
  - destruct Hs as (xs & Hxs & Hd & Hs). exists xs. rewrite HQ1 by done. split; [done|].
    assert (forall n, distance k1 (rt_tick k) n = distance k (rt_tick k) n) as Edist
      by (intros []; simpl; by rewrite ?Etm). split.
    + eapply Forall_impl; [exact Hd|]. intros n. by rewrite Edist.
    + by rewrite (list_fmap_ext_in (distance k1 (rt_tick k)) (distance k (rt_tick k))).
  - intros s Hin'. unfold one_shot. rewrite Eo. by apply Hos.
  - intros [] k2 (Q2 & Hk2 & Htl & Hs2 & Hi & Ho & Hw & Hrd & Ee2 & Etm2 & Eo2).
    assert (env k2 = env (set_rt_tick now k)) as Ee3 by (by rewrite Ee2).
    injection Ee3 as E1 E2 E3 E4 E5 _ _ Etick2. rewrite Etick2 in Hs2.
    split; [done|]. split; [unfold ipc_part; congruence|]. exists Q2. rewrite Eover in Hrd.
    split_and!; try done.
    + rewrite Htl. do 2 f_equal. apply list_filter_iff. intros s. by rewrite Etick, Hdue.
    + rewrite Ho, Eth, fn_lookup_insert; [done|]. by intros [??].
    + intros s Hs'. apply Hin in Hs' as [Hst Hd]. rewrite Hi, Hoth; [done| |done|done]. by intros ->.
    + intros s Hne Hs'. rewrite Ho, Hoth; [done|done|]. by rewrite <- Hin.
    + rewrite (Hrd _ _ Hq1). do 3 f_equal. apply list_filter_iff. intros s. rewrite Eth, fn_insert_case. by case_decide; subst.
    + intros l ws Hl Hws. eapply waiters_eq.
      * apply Hw; [done|]. unfold waiters. rewrite HQ1; [exact Hws|by intros ->].
      * apply list_filter_iff. intros s. by rewrite <- Hin.
Qed.
End expiry.
