(* ===== verification/KCheck.v ===== *)
(** Deciding the invariant on a concrete kernel.

    [KI] speaks of every thread and every list; on a state in which only finitely
    many threads have been initialised it is a finite condition on the maps of the
    state, [checked_state], which is decided by evaluation. *)

From S2P Require Import Prelude RtList KState Ffs KInv.

Open Scope Z_scope.

Section check.
Implicit Types (h : gmap node (rt_list_node node)) (Q : gmap node (list node)).

(** * Decidable forms *)

#[export] Instance timeout_fn_eq_dec : EqDecision timeout_fn.
Proof. solve_decision. Defined.

Definition linkedb h (a b : node) : bool :=
  bool_decide (get_next h a = Some b) && bool_decide (get_prev h b = Some a).

Fixpoint pathb h (xs : list node) : bool :=
  match xs with
  | a :: ((b :: _) as tl) => linkedb h a b && pathb h tl
  | _ => true
  end.

Definition ringb h (l : node) (xs : list node) : bool :=
  bool_decide (NoDup (l :: xs)) && pathb h (l :: xs ++ [l]).

Definition all_nodes Q : list node := map_to_list Q ≫= (fun p => p.1 :: p.2).

Definition node_okb (l n : node) : bool :=
  match n with
  | TList _ => wait_head l || match l with DefunctHead | ReadyHead _ => true | _ => false end
  | TimerRow _ => bool_decide (l = TimerHead)
  | ObjNode o => bool_decide (l = ObjHead (object_class o))
  | _ => false
  end.

Definition ready_headb (l : node) : bool :=
  match l with ReadyHead p => (0 <=? p) && (p <? RT_THREAD_PRIORITY_MAX) | _ => true end.

Definition priorities : list Z := seqZ 0 RT_THREAD_PRIORITY_MAX.

Definition thread_okb (th : rt_thread) : bool :=
  (0 <=? current_priority th) && (current_priority th <? RT_THREAD_PRIORITY_MAX) &&
  (number_mask th =? Z.shiftl 1 (current_priority th)) &&
  (0 <=? stack_addr th) && (0 <=? stack_size th) && (stack_addr th + stack_size th <? 2 ^ 32) &&
  (stack_addr th <? sp th) && (sp th <=? stack_addr th + stack_size th).

Definition liveb (th : rt_thread) : bool :=
  (stat th =? RT_THREAD_READY) || (stat th =? RT_THREAD_SUSPEND).

(** Where the node of a thread may be. *)
Definition place_okb (l : node) (th : rt_thread) : bool :=
  (stat th =? RT_THREAD_READY) && bool_decide (l = ReadyHead (current_priority th)) ||
  (stat th =? RT_THREAD_SUSPEND) && wait_head l ||
  (stat th =? RT_THREAD_CLOSE) && bool_decide (l = DefunctHead).

Definition memb Q (l n : node) : bool :=
  match Q !! l with Some xs => bool_decide (n ∈ xs) | None => false end.

Definition thread_checked (k : kernel) Q (t : nat) : bool :=
  let th := threads k t in
  let row := TimerRow (ThreadTimer t) in
  implb (stat th =? RT_THREAD_READY) (memb Q (ReadyHead (current_priority th)) (TList t)) &&
  implb (stat th =? RT_THREAD_SUSPEND)
    (bool_decide (is_Some (Q !! TList t)) ||
     existsb (fun p => wait_head p.1 && bool_decide (TList t ∈ p.2)) (map_to_list Q)) &&
  implb (liveb th)
    (thread_okb th && bool_decide (timer_fn k (ThreadTimer t) = FN_rt_thread_timeout t) &&
     (bool_decide (is_Some (Q !! row)) && negb (activated k (ThreadTimer t)) || memb Q TimerHead row)).

Definition entry_checked (n : nat) (k : kernel) (l m : node) : bool :=
  node_okb l m &&
  match m with
  | TList t => (t <? n)%nat && place_okb l (threads k t)
  | TimerRow tm => activated k tm &&
      match tm with ThreadTimer t => (t <? n)%nat && (stat (threads k t) =? RT_THREAD_SUSPEND) | _ => true end
  | _ => true
  end.

Definition list_checked (n : nat) (k : kernel) (p : node * list node) : bool :=
  ready_headb p.1 && ringb (lists k) p.1 p.2 && forallb (entry_checked n k p.1) p.2.

Definition checked_state (n : nat) (k : kernel) Q : bool :=
  let g := rt_thread_ready_priority_group k in
  forallb (list_checked n k) (map_to_list Q) &&
  bool_decide (NoDup (all_nodes Q)) &&
  forallb (fun p => match Q !! ReadyHead p with
                    | Some xs => Bool.eqb (Z.testbit g p) (negb (bool_decide (xs = [])))
                    | None => false end) priorities &&
  (0 <=? g) && (g <? 2 ^ 32) &&
  bool_decide (is_Some (Q !! DefunctHead)) && bool_decide (is_Some (Q !! TimerHead)) &&
  forallb (thread_checked k Q) (seq 0 n).

(** * Soundness *)

Lemma pathb_path h xs : pathb h xs = true -> path h xs.
Proof.
  induction xs as [|a [|b xs] IH]; [done|done|]. cbn [pathb path]. unfold linkedb.
  rewrite !andb_true_iff, !bool_decide_eq_true. intros [??]. split; [done|by apply IH].
Qed.

Lemma all_nodes_unique (ps : list (node * list node)) l1 l2 xs1 xs2 x :
  NoDup (ps ≫= (fun p => p.1 :: p.2)) -> (l1, xs1) ∈ ps -> (l2, xs2) ∈ ps ->
  x ∈ l1 :: xs1 -> x ∈ l2 :: xs2 -> l1 = l2.
Proof.
  induction ps as [|[l xs] ps IH]; [by intros _ ?%not_elem_of_nil|].
  rewrite bind_cons. intros (Hn1 & Hd & Hn2)%NoDup_app H1 H2 Hx1 Hx2.
  assert (forall l' xs', (l', xs') ∈ ps -> x ∈ l' :: xs' -> x ∈ ps ≫= (fun p => p.1 :: p.2)) as Hin.
  { intros l' xs' Hp Hx. apply list_elem_of_bind. by exists (l', xs'). }
  apply elem_of_cons in H1 as [[= -> ->]|H1], H2 as [[= -> ->]|H2].
  - done.
  - exfalso. apply (Hd x); [done|]. by eapply Hin.
  - exfalso. apply (Hd x); [done|]. by eapply Hin.
  - by eapply IH.
Qed.

Lemma memb_member Q l n : memb Q l n = true -> member Q l n.
Proof.
  unfold memb, member. destruct (Q !! l) as [xs|]; [|done]. rewrite bool_decide_eq_true. eauto.
Qed.

Lemma node_okb_ok l n : node_okb l n = true -> node_ok l n.
Proof.
  destruct n; simpl; try done; rewrite ?bool_decide_eq_true; try done.
  rewrite orb_true_iff. intros [?|H]; [by left|right]. destruct l; eauto; done.
Qed.

Lemma thread_okb_ok th : thread_okb th = true -> thread_ok th.
Proof.
  unfold thread_okb, thread_ok, stack_ok. rewrite !andb_true_iff, !Z.leb_le, !Z.ltb_lt, Z.eqb_eq. lia.
Qed.

Lemma place_okb_ok l th : place_okb l th = true ->
  readyp th /\ l = ReadyHead (current_priority th) \/ suspendedp th /\ wait_head l = true \/
  stat th = RT_THREAD_CLOSE /\ l = DefunctHead.
Proof.
  unfold place_okb, readyp, suspendedp.
  rewrite !orb_true_iff, !andb_true_iff, !Z.eqb_eq, !bool_decide_eq_true. tauto.
Qed.

(** A state that passes the check, with all threads from [n] on untouched,
    satisfies the invariant. *)
Lemma checked_KI n k Q :
  (forall t, (n <= t)%nat -> stat (threads k t) = RT_THREAD_INIT) ->
  checked_state n k Q = true -> KI k Q.
Proof.
  intros Hinit. unfold checked_state. rewrite !andb_true_iff, !forallb_forall, !bool_decide_eq_true, Z.leb_le, Z.ltb_lt.
  intros (((((((Hl & Hnd) & Hp) & Hg0) & Hg1) & Hdf) & Htm) & Hth).
  assert (forall l xs, Q !! l = Some xs -> ready_headb l = true /\ ring (lists k) l xs /\
    forall m, m ∈ xs -> entry_checked n k l m = true) as Hlist.
  { intros l xs Hx. apply elem_of_map_to_list, list_elem_of_In, Hl in Hx. unfold list_checked, ringb in Hx. cbn [fst snd] in Hx.
    rewrite !andb_true_iff, bool_decide_eq_true, forallb_forall in Hx. destruct Hx as [[? [? ?%pathb_path]] Hf].
    split_and!; [done|by split|]. intros m Hm. apply Hf. by apply list_elem_of_In. }
  assert (forall l m, member Q l m -> entry_checked n k l m = true) as Hent.
  { intros l m (xs & Hx & Hm). by apply Hlist in Hx as (_ & _ & ?); auto. }
  assert (forall t, liveb (threads k t) = true -> (t < n)%nat) as Hlt.
  { intros t Hlv. apply Nat.nle_gt. intros Hge. unfold liveb in Hlv. by rewrite Hinit in Hlv. }
  assert (forall t, liveb (threads k t) = true -> thread_checked k Q t = true) as Htc.
  { intros t Hlv. apply Hth, in_seq. pose proof (Hlt t Hlv). lia. }
  assert (forall t, live (threads k t) -> liveb (threads k t) = true) as Hlive.
  { intros t. unfold live, liveb, readyp, suspendedp. rewrite orb_true_iff, !Z.eqb_eq. done. }
  unfold thread_checked in Htc. split.
  - split; [intros l xs Hx; by apply Hlist|].
    intros l1 l2 xs1 xs2 x H1 H2. apply all_nodes_unique with (map_to_list Q); [done|by apply elem_of_map_to_list..].
  - intros l m Hm. apply Hent in Hm. unfold entry_checked in Hm. apply andb_true_iff in Hm as [? _].
    by apply node_okb_ok.
  - split; [| |lia].
    + intros p. split.
      * intros Hpr. specialize (Hp p). destruct (Q !! ReadyHead p); [done|].
        discriminate Hp. apply list_elem_of_In, elem_of_seqZ. lia.
      * intros [xs Hx]. apply Hlist in Hx as (Hr & _). simpl in Hr. rewrite andb_true_iff in Hr. lia.
    + intros p Hpr. specialize (Hp p). destruct (Q !! ReadyHead p) as [xs|] eqn:E.
      2:{ discriminate Hp. apply list_elem_of_In, elem_of_seqZ. lia. }
      rewrite eqb_true_iff in Hp. rewrite Hp by (apply list_elem_of_In, elem_of_seqZ; lia).
      rewrite negb_true_iff, bool_decide_eq_false. unfold member. setoid_rewrite E. split.
      * intros Hne. destruct xs as [|m xs]; [done|]. exists m, (m :: xs). set_solver.
      * intros (m & ? & [= <-] & Hm) ->. by apply not_elem_of_nil in Hm.
  - done.
  - done.
  - intros tm Hm. apply Hent in Hm. unfold entry_checked in Hm. rewrite !andb_true_iff in Hm. tauto.
  - intros t. split.
    + intros l Hm. apply Hent in Hm. unfold entry_checked in Hm. rewrite !andb_true_iff in Hm.
      destruct Hm as (_ & _ & Hm). by apply place_okb_ok.
    + intros Hr. specialize (Htc t (Hlive t (or_introl Hr))). unfold readyp in Hr. rewrite Hr in Htc. simpl in Htc.
      rewrite !andb_true_iff in Htc. apply memb_member. tauto.
    + intros Hs. specialize (Htc t (Hlive t (or_intror Hs))). unfold suspendedp in Hs. rewrite Hs in Htc. simpl in Htc.
      rewrite !andb_true_iff, orb_true_iff, bool_decide_eq_true in Htc. destruct Htc as [[?|He] _]; [by left|right].
      apply existsb_exists in He as ([l xs] & Hin & Hb). simpl in Hb. rewrite andb_true_iff, bool_decide_eq_true in Hb.
      exists l. split; [tauto|]. exists xs. split; [by apply elem_of_map_to_list, list_elem_of_In|tauto].
    + intros Hlv. specialize (Htc t (Hlive t Hlv)). rewrite (Hlive t Hlv) in Htc. simpl in Htc.
      rewrite !andb_true_iff in Htc. apply thread_okb_ok. tauto.
  - intros t. split.
    + intros Hm. apply Hent in Hm. unfold entry_checked in Hm. rewrite !andb_true_iff, Z.eqb_eq in Hm. apply Hm.
    + intros Hlv. specialize (Htc t (Hlive t Hlv)). rewrite (Hlive t Hlv) in Htc. simpl in Htc.
      rewrite !andb_true_iff, bool_decide_eq_true in Htc. tauto.
    + intros Hlv. specialize (Htc t (Hlive t Hlv)). rewrite (Hlive t Hlv) in Htc. simpl in Htc.
      rewrite !andb_true_iff, orb_true_iff, !andb_true_iff, !bool_decide_eq_true, negb_true_iff in Htc.
      destruct Htc as (_ & _ & [?|?%memb_member]); tauto.
Qed.
End check.

(** * Running a concrete call *)

Definition result {A} (m : K A) (k : kernel) : option A :=
  match m k with Ret a _ => Some a | Fail _ => None end.
Definition after {A} (m : K A) (k : kernel) : kernel :=
  match m k with Ret _ k' => k' | Fail _ => k end.

Lemma result_after {A} (m : K A) k a : result m k = Some a -> m k = Ret a (after m k).
Proof. unfold result, after. destruct (m k); [by intros [= ->]|done]. Qed.
