(* ===== verification/Idle.v ===== *)
(** The idle thread (src/idle.c): it clears the threads that ended.

    A cleanup function belongs to the application: what calling it does is the
    parameter [call]; nothing in the robot sets one.  The heap is not part of the
    kernel state: the blocks that go back to it are the result of the function, in the
    order of the calls of rt_free. *)

From S2P Require Import Prelude RtList KState Ffs KInv Sched Object Timer Thread ThreadLife Ipc.

Open Scope Z_scope.

(** * Operations *)

(** A block given to rt_free: the stack of a thread, or the object itself *)
Inductive freed : Type := FreeStack (addr : Z) | FreeObject (o : objid).

(** rt_object_delete (object.c) up to its rt_free of the object. *)
Definition rt_object_delete (o : objid) : K unit := list_remove (ObjNode o).

(** rt_thread_idle_excute; [fuel] bounds the threads cleared by one call. *)
Fixpoint rt_thread_idle_excute (call : nat -> Z -> K unit) (fuel : nat) : K (list freed) :=
  match fuel with
  | O => fail OutOfFuel
  | S fuel =>
      let! k := get in
      if negb (list_isempty DefunctHead k) then
        let! t := list_first_thread DefunctHead in
        list_remove (TList t) ;!
        (match cleanup (threads k t) with Some f => call t f | None => ret tt end) ;!
        let! k := get in
        if rt_object_is_systemobject (OThread t) k then ret []
        else
          rt_object_delete (OThread t) ;!
          let! blocks := rt_thread_idle_excute call fuel in
          ret (FreeStack (stack_addr (threads k t)) :: FreeObject (OThread t) :: blocks)
      else ret []
  end.

(** [sizeof(rt_thread_stack)] (idle.c, rtconfig.h). *)
Definition IDLE_THREAD_STACK_SIZE : Z := 1024.

(** rt_thread_idle_init: the thread [t] with its entry function and stack. *)
Definition tidle : list Z := [116; 105; 100; 108; 101].
Definition rt_thread_idle_init (t : nat) (entry_ stack : Z) : K unit :=
  rt_thread_init t tidle entry_ 0 stack IDLE_THREAD_STACK_SIZE (RT_THREAD_PRIORITY_MAX - 1) 32 ;!
  rt_thread_startup t ;!
  ret tt.

(** * Clearing *)

Section idle.
Implicit Types (k : kernel) (Q : gmap node (list node)) (t : nat) (ts : list nat).

Context (call : nat -> Z -> K unit).

(** The thread has no cleanup function, or one that leaves the kernel alone. *)
Definition quiet k t : Prop :=
  forall f, cleanup (threads k t) = Some f -> forall k', wp (call t f) (fun _ k2 => k2 = k') k'.

(** What a dynamic thread gives back *)
Definition memory_of k t : list freed := [FreeStack (stack_addr (threads k t)); FreeObject (OThread t)].

Definition defunct Q ts : Prop := Q !! DefunctHead = Some (TList <$> ts).

Lemma defunct_closed k Q ts t : KI k Q -> defunct Q ts -> t ∈ ts -> stat (threads k t) = RT_THREAD_CLOSE.
Proof.
  intros Hk Hd Ht.
  destruct (pl_in _ _ _ (ki_placed _ _ _ _ _ _ Hk t) DefunctHead) as [[_ ?]|[[_ ?]|[? _]]]; try done.
  exists (TList <$> ts). split; [done|]. by apply list_elem_of_fmap_2.
Qed.

(** A closed thread leaves the defunct list. *)
Lemma kinv_leave_defunct h ths act tf g Q t zs :
  kinv h ths act tf g Q -> Q !! DefunctHead = Some (TList t :: zs) -> stat (ths t) = RT_THREAD_CLOSE ->
  exists h', rt_list_remove (TList t) h = Some h' /\ kinv h' ths act tf g (unlink (TList t) Q).
Proof.
  intros Hk Hl Hc.
  destruct (kinv_remove_node _ _ _ _ _ _ DefunctHead [] zs t Hk Hl) as (h' & Hh & Hrep & Hsb & Hno).
  exists h'. split; [done|]. rewrite <- (unlink_member h Q _ DefunctHead [] zs); [|apply Hk|done].
  rewrite <- (fn_insert_id' ths t). eapply kinv_thread_move; [done|done|done| | |apply Hk].
  - eapply ready_table_frame; [done|done| |done|apply Hk].
    intros p (xs & Hq & Hin). assert (ReadyHead p = DefunctHead); [|done].
    eapply Rep_unique; [apply Hk|done|exact Hl|done|set_solver].
  - split; [by intros l ?%Hno|unfold readyp; by rewrite Hc|unfold suspendedp; by rewrite Hc|].
    apply (ki_placed _ _ _ _ _ _ Hk t).
Qed.

Lemma defunct_unlink Q t ts :
  NoDup (t :: ts) -> defunct Q (t :: ts) -> defunct (unlink (TList t) Q) ts.
Proof.
  intros Hnd Hd. unfold defunct. rewrite lookup_unlink, decide_False, Hd by done. cbn [fmap option_fmap option_map].
  rewrite filter_TList. by rewrite filter_ne_head.
Qed.

Lemma defunct_unlink_obj Q o ts : defunct Q ts -> defunct (unlink (ObjNode o) Q) ts.
Proof.
  unfold defunct. intros Hd. rewrite lookup_unlink, decide_False, Hd by done. simpl.
  rewrite filter_notin; [done|]. by intros (? & ? & ?)%list_elem_of_fmap.
Qed.

Lemma registered_unlink_inv Q n o : registered (unlink n Q) o -> registered Q o.
Proof.
  intros (xs & Hx & Hin). rewrite lookup_unlink in Hx. case_decide; [simplify_eq; by apply not_elem_of_nil in Hin|].
  apply fmap_Some in Hx as (ys & Hy & ->). exists ys. split; [done|]. by apply list_elem_of_filter in Hin as [_ ?].
Qed.

Lemma registered_unlink_self Q o : ~ registered (unlink (ObjNode o) Q) o.
Proof.
  intros (xs & Hx & Hin). rewrite lookup_unlink, decide_False in Hx by done.
  apply fmap_Some in Hx as (ys & Hy & ->). by apply list_elem_of_filter in Hin as [? _].
Qed.

Definition dynamic k t : Prop := rt_object_is_systemobject (OThread t) k = false.

(** The first defunct thread is taken out and cleaned up. *)
Lemma idle_round fuel k Q t ts Phi :
  KI k Q -> defunct Q (t :: ts) -> quiet k t ->
  (forall h, let k1 := set_lists h k in
     KI k1 (unlink (TList t) Q) -> defunct (unlink (TList t) Q) ts ->
     wp (if rt_object_is_systemobject (OThread t) k then ret []
         else rt_object_delete (OThread t) ;!
              let! blocks := rt_thread_idle_excute call fuel in
              ret (FreeStack (stack_addr (threads k t)) :: FreeObject (OThread t) :: blocks)) Phi k1) ->
  wp (rt_thread_idle_excute call (S fuel)) Phi k.
Proof.
  intros Hk Hd Hq Hnext. cbn [rt_thread_idle_excute]. wp_pure. unfold list_isempty.
  rewrite (Rep_isempty _ _ _ _ (ki_rep _ _ _ _ _ _ Hk) Hd). simpl.
  wp_step. eapply wp_first_thread; [apply Hk|exact Hd|].
  destruct (kinv_leave_defunct _ _ _ _ _ _ t _ Hk Hd) as (h & Hh & Hk1).
  { eapply defunct_closed; [done|exact Hd|set_solver]. }
  wp_step. eapply wp_list_op; [done|].
  assert (NoDup (t :: ts)) as Hnd.
  { pose proof (Rep_NoDup _ _ _ _ (ki_rep _ _ _ _ _ _ Hk) Hd) as Hn. by apply NoDup_fmap_1 in Hn. }
  specialize (Hnext h Hk1 (defunct_unlink _ _ _ Hnd Hd)).
  wp_step. unfold quiet in Hq. destruct (cleanup (threads k t)) as [f|].
  - eapply wp_mono; [by apply (Hq f)|]. cbv beta. intros [] ? ->. wp_pure. exact Hnext.
  - wp_pure. exact Hnext.
Qed.

(** One call clears the dynamic threads up to the first static one, clears that one too, and stops
    there: it does not do all the cleanups when threads are behind a static one. *)
Lemma idle_clears fuel : forall k Q dyn rest,
  KI k Q -> defunct Q (dyn ++ rest) -> (length dyn < fuel)%nat ->
  (forall t, t ∈ dyn -> dynamic k t /\ registered Q (OThread t) /\ quiet k t) ->
  (forall t rest', rest = t :: rest' -> ~ dynamic k t /\ quiet k t) ->
  wp (rt_thread_idle_excute call fuel) (fun blocks k' => blocks = dyn ≫= memory_of k /\ exists Q', KI k' Q' /\ defunct Q' (tail rest) /\
    threads k' = threads k /\ untouched k k' /\
    (forall t, t ∈ dyn -> ~ registered Q' (OThread t)) /\
    (forall o, registered Q' o -> registered Q o) /\
    (forall o, registered Q o -> o ∉ OThread <$> dyn -> registered Q' o)) k.
Proof.
  induction fuel as [|fuel IH]; intros k Q dyn rest Hk Hd Hf Hdyn Hrest; [lia|].
  destruct dyn as [|t dyn]; [destruct rest as [|t rest]|].
  - cbn [rt_thread_idle_excute]. wp_pure. unfold list_isempty.
    rewrite (Rep_isempty _ _ _ _ (ki_rep _ _ _ _ _ _ Hk) Hd). simpl. wp_pure.
    split; [done|]. exists Q. split_and!; try done. by intros t ?%not_elem_of_nil.
  - destruct (Hrest t rest eq_refl) as [Hst Hq].
    eapply idle_round; [done|exact Hd|done|]. intros h k1 Hk1 Hd1.
    apply not_false_iff_true in Hst. rewrite Hst. wp_pure. split; [done|].
    exists (unlink (TList t) Q). split_and!; try done; [by intros s ?%not_elem_of_nil| |].
    + intros o Hr. by apply registered_unlink_inv in Hr.
    + intros o Ho _. by apply registered_unlink.
  - simpl in Hd. destruct (Hdyn t) as (Hdy & Hreg & Hq); [set_solver|].
    eapply idle_round; [done|exact Hd|done|]. intros h k1 Hk1 Hd1. rewrite Hdy.
    destruct (kinv_unlink_object _ _ _ _ _ _ (OThread t) Hk1) as (h2 & Hh2 & Hk2).
    { by apply registered_unlink. }
    wp_step. eapply wp_list_op; [done|]. subst k1. wp_step.
    eapply wp_mono; [apply (IH _ (unlink (ObjNode (OThread t)) (unlink (TList t) Q)) dyn rest)|].
    + exact Hk2.
    + by apply defunct_unlink_obj.
    + simpl in Hf. lia.
    + intros s Hs. destruct (Hdyn s) as (? & Hr & ?); [set_solver|]. split_and!; [done| |done].
      apply registered_unlink; [by apply registered_unlink| |done]. intros [= ->].
      pose proof (Rep_NoDup _ _ _ _ (ki_rep _ _ _ _ _ _ Hk) Hd) as Hn. apply NoDup_fmap_1 in Hn.
      apply NoDup_cons in Hn. set_solver.
    + done.
    + cbv beta. intros blocks k3 (-> & Q3 & Hk3 & Hd3 & Eth & Hu & Hno & Hmono & Hkeep). apply wp_ret. split; [done|]. exists Q3.
      split_and!; try done.
      * intros s [->|Hs]%elem_of_cons; [|by apply Hno]. intros Hr%Hmono. by apply registered_unlink_self in Hr.
      * intros o Hr%Hmono. by do 2 apply registered_unlink_inv in Hr.
      * intros o Ho Hni. rewrite fmap_cons, not_elem_of_cons in Hni. apply Hkeep; [|apply Hni].
        apply registered_unlink; [by apply registered_unlink| |done]. intros [= E]. apply (proj1 Hni). by rewrite E.
Qed.

(** C36: One call of rt_thread_idle_excute does all the cleanups: with fuel for the threads of
    the defunct list, all of them dynamic and without cleanup function (a static thread gets
    there only with a cleanup function, which nothing in the robot sets), it empties the list,
    takes exactly these threads out of their container, frees the stack and the object of each
    in order, and changes nothing else. *)
Theorem rt_thread_idle_excute_spec fuel k Q ts :
  KI k Q -> defunct Q ts -> (length ts < fuel)%nat ->
  (forall t, t ∈ ts -> dynamic k t /\ registered Q (OThread t) /\ cleanup (threads k t) = None) ->
  wp (rt_thread_idle_excute call fuel) (fun blocks k' => blocks = ts ≫= memory_of k /\ exists Q', KI k' Q' /\ defunct Q' [] /\
    threads k' = threads k /\ untouched k k' /\
    forall o, registered Q' o <-> registered Q o /\ o ∉ OThread <$> ts) k.
Proof.
  intros Hk Hd Hf Hts. eapply wp_mono; [apply (idle_clears fuel k Q ts [])|].
  - done.
  - by rewrite app_nil_r.
  - done.
  - intros t Ht. destruct (Hts t Ht) as (? & ? & Hc). split_and!; [done..|]. intros f. by rewrite Hc.
  - done.
  - cbv beta. intros blocks k' (-> & Q' & ? & ? & ? & ? & Hgone & Hmono & Hkeep). split; [done|]. exists Q'. split_and!; try done.
    intros o. split; [|by intros []; auto]. intros Hr. split; [by apply Hmono|].
    intros (t & -> & Ht)%list_elem_of_fmap. by apply (Hgone t).
Qed.
End idle.
