(* ===== verification/Restart.v ===== *)
(** Static threads: started once at boot, and restarted.

    The application of bsp/stm32f40x initialises and starts every thread of its own
    by the same two calls, rt_thread_init on a static struct and stack and then
    rt_thread_startup (rt_thread_emergency_init, rt_thread_auto_init, ...); its
    emergency handler detaches some of them and calls their initialisation again. *)

From S2P Require Import Prelude RtList KState Ffs KInv Sched Object Timer Thread ThreadLife Ipc.

Open Scope Z_scope.

(** * Operations *)

(** The arguments of one rt_thread_xxx_init; a stack is the address and the size
    of its array. *)
Record static_thread : Type := mk_static {
  st_id : nat;
  st_name : list Z;
  st_entry : Z;
  st_stack : Z;
  st_size : Z;
  st_priority : Z;
  st_tick : Z }.

(** rt_thread_xxx_init *)
Definition static_thread_init (d : static_thread) : K Z :=
  let! result := rt_thread_init (st_id d) (st_name d) (st_entry d) 0 (st_stack d) (st_size d)
                   (st_priority d) (st_tick d) in
  if result =? RT_EOK then rt_thread_startup (st_id d) ;! ret RT_EOK
  else ret RT_ERROR.

(** rt_thread_detach followed by rt_thread_xxx_init *)
Definition restart (d : static_thread) : K Z :=
  rt_thread_detach (st_id d) ;! static_thread_init d.

(** * Specifications *)

Section static.
Implicit Types (k : kernel) (Q : gmap node (list node)) (t : nat) (d : static_thread).

Definition static_ok d : Prop :=
  0 <= st_priority d < RT_THREAD_PRIORITY_MAX /\ 0 <= st_stack d /\ 76 <= st_size d < 2 ^ 16 /\
  st_stack d + st_size d < 2 ^ 32.

(** The thread at its entry function, ready. *)
Definition at_entry d (th : rt_thread) : rt_thread :=
  started_thread (initialised (st_entry d) 0 (st_stack d) (st_size d) (st_priority d) (st_tick d) th).

Definition static_lists d Q : gmap node (list node) :=
  woken (st_id d) (st_priority d) (init_lists (st_id d) Q).

(** ** Nodes left alone *)

Lemma detached_unlink Q n m : detached Q n -> detached (unlink m Q) n.
Proof.
  intros Hd l xs Hl. rewrite lookup_unlink in Hl. case_decide.
  - simplify_eq. split; [apply not_elem_of_nil|done].
  - apply fmap_Some in Hl as (ys & Hy & ->). destruct (Hd _ _ Hy) as [Hn He]. split.
    + by intros [_ ?]%list_elem_of_filter.
    + intros E. by rewrite (He E).
Qed.

Lemma detached_unlink_self Q n : detached (unlink n Q) n.
Proof.
  intros l xs Hl. rewrite lookup_unlink in Hl. case_decide.
  - simplify_eq. split; [apply not_elem_of_nil|done].
  - apply fmap_Some in Hl as (ys & Hy & ->). split; [|by intros ->].
    by intros [? _]%list_elem_of_filter.
Qed.

Lemma detached_requeue Q n t p :
  detached Q n -> n <> TList t -> n <> ReadyHead p ->
  detached (<[ReadyHead p := default [] (Q !! ReadyHead p) ++ [TList t]]> (delete (TList t) Q)) n.
Proof.
  intros Hd Hn Hp l xs [[<- <-]|[Hne [_ Hl]%lookup_delete_Some]]%lookup_insert_Some; [|by apply Hd].
  split; [|by intros <-]. destruct (Q !! ReadyHead p) as [ys|] eqn:E; simpl;
    [destruct (Hd _ _ E) as [? _]|]; set_solver.
Qed.

Lemma detached_woken Q n t p : detached Q n -> n <> TList t -> n <> ReadyHead p -> detached (woken t p Q) n.
Proof. intros. unfold woken. apply detached_requeue; [|done..]. by do 2 apply detached_unlink. Qed.

Lemma detached_init_lists Q n t :
  detached Q n -> n <> ObjNode (OThread t) -> n <> ObjNode (OTimer (ThreadTimer t)) ->
  n <> TList t -> n <> TimerRow (ThreadTimer t) -> (forall c, n <> ObjHead c) -> detached (init_lists t Q) n.
Proof.
  intros. unfold init_lists. apply detached_insert_nil; [|done].
  apply detached_register; [|done|done]. apply detached_insert_nil; [|done]. by apply detached_register.
Qed.

Lemma unused_static d Q t : t <> st_id d -> unused Q t -> unused (static_lists d Q) t.
Proof.
  intros Hne (H1 & H2 & H3 & H4). unfold static_lists.
  split_and!; (apply detached_woken; [apply detached_init_lists|..]); congruence || done.
Qed.

Lemma containers_unlink Q n : containers Q -> containers (unlink n Q).
Proof. intros Hc c Hcc. by apply unlink_is_Some, Hc. Qed.

Lemma containers_static d Q : containers Q -> containers (static_lists d Q).
Proof.
  intros Hc c Hcc. unfold static_lists, woken. rewrite lookup_insert_ne, lookup_delete_ne by done.
  do 2 apply unlink_is_Some. unfold init_lists, register. rewrite lookup_insert_ne by done.
  rewrite lookup_insert. case_decide; [eauto|]. rewrite lookup_delete_ne, lookup_insert_ne by done.
  rewrite lookup_insert. case_decide; [eauto|]. rewrite lookup_delete_ne by done. by apply Hc.
Qed.

(** ** Starting *)

(** The objects other than the thread [t] and the timers *)
Definition objects_but t k (k' : kernel) : Prop :=
  forall o, (forall tm, o <> OTimer tm) -> o <> OThread t -> objects k' o = objects k o.

(** What starting the initialised thread [d] leaves *)
Definition started_from d k Q (k' : kernel) : Prop :=
  exists k1, KI k1 (woken (st_id d) (st_priority d) Q) /\ env k1 = env k /\ cpu_part k1 = cpu_part k /\
    same_objects k k1 /\
    threads k1 = <[st_id d := started_thread (threads k (st_id d))]> (threads k) /\
    (rt_current_thread k = None /\ k' = k1 \/
     rt_current_thread k <> None /\ scheduled k1 (woken (st_id d) (st_priority d) Q) k').

Lemma startup_initialised k Q d th :
  KI k (init_lists (st_id d) Q) -> static_ok d ->
  threads k (st_id d) = initialised (st_entry d) 0 (st_stack d) (st_size d) (st_priority d) (st_tick d) th ->
  timer_fn k (ThreadTimer (st_id d)) = FN_rt_thread_timeout (st_id d) ->
  activated k (ThreadTimer (st_id d)) = false ->
  wp (rt_thread_startup (st_id d)) (fun r k' => started_from d k (init_lists (st_id d) Q) k') k.
Proof.
  intros Hk (Hp & Hs1 & Hs2 & Hs3) Et Hfn Ha.
  assert (startable (activated k) k (init_lists (st_id d) Q) (st_id d)) as Hst.
  { unfold startable. rewrite Et. split_and!; try done.
    - unfold init_lists. rewrite lookup_insert_ne by done. unfold register at 1.
      rewrite lookup_insert_ne, lookup_delete_ne, lookup_insert_eq by done. eauto.
    - unfold init_lists. rewrite lookup_insert_eq. eauto.
    - apply Hp.
    - apply Hp.
    - apply initialised_stack_ok; lia. }
  wp_use (rt_thread_startup_spec (activated k) k (init_lists (st_id d) Q) (st_id d)); [done|done|done|].
  intros r k2 (_ & k3 & Hk3 & Ee3 & Ec3 & Ea3 & Etm3 & Eo3 & Eth3 & Hend).
  assert (init_priority (threads k (st_id d)) = st_priority d) as E by (by rewrite Et). rewrite E in Hk3, Hend.
  exists k3. split_and!; try done. unfold KI. rewrite Ea3. exact Hk3.
Qed.

Lemma static_thread_init_spec k Q d :
  KI k Q -> containers Q -> static_ok d -> ~ live (threads k (st_id d)) -> unused Q (st_id d) ->
  wp (static_thread_init d) (fun r k' => r = RT_EOK /\ exists k1,
    KI k1 (static_lists d Q) /\ env k1 = env k /\ cpu_part k1 = cpu_part k /\ objects_but (st_id d) k k1 /\
    threads k1 = <[st_id d := at_entry d (threads k (st_id d))]> (threads k) /\
    (rt_current_thread k = None /\ k' = k1 \/
     rt_current_thread k <> None /\ scheduled k1 (static_lists d Q) k')) k.
Proof.
  intros Hk Hc Hok Hnl Hu. unfold static_thread_init.
  wp_use (rt_thread_init_spec k Q (st_id d)); [done|done|done|done|].
  intros r k1 (-> & Hk1 & Ee1 & Ec1 & Eth1 & Etm1 & Efn1 & Ea1 & Hnames). simpl.
  assert (threads k1 (st_id d) = initialised (st_entry d) 0 (st_stack d) (st_size d) (st_priority d) (st_tick d)
    (threads k (st_id d))) as Et by (by rewrite Eth1, fn_lookup_insert).
  wp_use (startup_initialised k1 Q d); [done|done|exact Et|done|by rewrite Ea1; apply fn_lookup_insert|].
  intros r k2 (k3 & Hk3 & Ee3 & Ec3 & Eo3 & Eth3 & Hend). wp_pure. split; [done|].
  exists k3. assert (rt_current_thread k1 = rt_current_thread k) as Ecur by (injection Ec1 as ?; done).
  rewrite Ecur in Hend. split_and!; [done|by rewrite Ee3|by rewrite Ec3| | |done].
  - intros o H1 H2. rewrite Eo3 by done. by apply Hnames.
  - rewrite Eth3, Et, Eth1. apply fn_insert_insert'.
Qed.

(** ** Restarting *)

Lemma unused_retired Q t : unused (retired t Q) t.
Proof.
  unfold retired, off_queue. split_and!.
  - do 3 apply detached_unlink. apply detached_unlink_self.
  - do 2 apply detached_unlink. apply detached_unlink_self.
  - apply detached_unlink_self.
  - apply detached_unlink, detached_unlink_self.
Qed.

Lemma containers_retired Q t : containers Q -> containers (retired t Q).
Proof. intros Hc. by do 4 apply containers_unlink. Qed.

Lemma restart_spec k Q d :
  KI k Q -> containers Q -> static_ok d -> live (threads k (st_id d)) -> cleanup (threads k (st_id d)) = None ->
  registered Q (OThread (st_id d)) -> registered Q (OTimer (ThreadTimer (st_id d))) ->
  let Q' := static_lists d (retired (st_id d) Q) in
  wp (restart d) (fun r k' => r = RT_EOK /\ exists k1,
    KI k1 Q' /\ env k1 = env k /\ cpu_part k1 = cpu_part k /\ objects_but (st_id d) k k1 /\
    threads k1 = <[st_id d := at_entry d (threads k (st_id d))]> (threads k) /\
    (rt_current_thread k = None /\ k' = k1 \/ rt_current_thread k <> None /\ scheduled k1 Q' k')) k.
Proof.
  intros Hk Hc Hok Hl Hcl Hr1 Hr2 Q'. unfold restart.
  wp_use (rt_thread_detach_spec (activated k) k Q (st_id d)); [done|done|done|done|].
  intros r k1 (_ & (Ee & Ec & Et) & Hk1 & Eth). rewrite Hcl in Hk1. rewrite bool_decide_false in Hk1 by (by intros []).
  assert (KI k1 (retired (st_id d) Q)) as Hk2.
  { injection Et as Eo _ _. unfold KI, activated. rewrite Eo. exact Hk1. }
  assert (threads k1 (st_id d) = closed (threads k (st_id d))) as E1 by (by rewrite Eth, fn_lookup_insert).
  assert (rt_current_thread k1 = rt_current_thread k) as Ecur by (by injection Ec).
  wp_use (static_thread_init_spec k1 (retired (st_id d) Q) d);
    [done|by apply containers_retired|done| |apply unused_retired|].
  - rewrite E1. unfold live, readyp, suspendedp, closed. simpl. by intros [|].
  - intros r2 k2 (-> & k3 & Hk3 & Ee3 & Ec3 & Eo3 & Eth3 & Hend). split; [done|]. exists k3. rewrite Ecur in Hend.
    split_and!; [done|by rewrite Ee3|by rewrite Ec3| | |done].
    { injection Et as Eo _ _. intros o H1 H2. by rewrite Eo3, Eo. }
    rewrite Eth3, E1, Eth, fn_insert_insert'. f_equal.
Qed.
End static.
