(* ===== verification/Startup.v ===== *)
(** The kernel at start-up: the data the program is loaded with and the
    initialisation rtthread_startup performs before the application's own
    (bsp/stm32f40x/applications/startup.c).

    rt_system_tick_init, rt_system_object_init and rt_system_timer_thread_init do
    nothing (RT_USING_TIMER_SOFT is not defined), and RT_USING_FINSH is not defined.  Of
    rt_system_heap_init the semaphore of the heap is here, the memory is modelled in Heap.
    rt_hw_board_init, rt_show_version and rt_device_init_all work on the registers and on
    the devices the drivers have registered, which are not part of this state. *)

From S2P Require Import Prelude RtList KState Ffs KInv Sched Object Timer Thread ThreadLife Ipc Sem KCheck Idle Restart.

Open Scope Z_scope.

(** * The image *)

(** rt_object_container (object.c): every list is empty, its head linked to itself. *)
Definition object_classes : list Z := seqZ 0 RT_Object_Class_Unknown.
Definition container_lists : gmap node (rt_list_node node) :=
  foldr (fun c => rt_list_init (ObjHead c)) ∅ object_classes.

(** Statics without an initialiser are zero. *)
Definition zero_object : rt_object := mk_object (replicate RT_NAME_MAX 0) 0 0.
Definition zero_thread : rt_thread := mk_thread 0 0 0 0 0 0 0 0 0 0 0 0 0 0 None 0.
Definition zero_timer : rt_timer := mk_timer (FN_user 0 0) 0 0.
Definition zero_mutex : rt_mutex := mk_mutex 0 0 0 None.
Definition zero_mailbox : rt_mailbox := mk_mailbox [] 0 0 0 0.
Definition zero_mq : rt_messagequeue := mk_mq (fun _ => mk_message None []) 0 0 0 None None None.

Definition kernel_image : kernel :=
  mk_kernel container_lists (fun _ => zero_object) (fun _ => zero_thread) (fun _ => zero_timer)
    (fun _ => 0) (fun _ => zero_mutex) (fun _ => 0) (fun _ => zero_mailbox) (fun _ => zero_mq)
    0 0 None 0 0 0 0 [].

(** * Start-up *)

(** [static struct rt_semaphore heap_sem] of mem.c *)
Definition heap_sem : nat := 9.
Definition heap_name : list Z := [104; 101; 97; 112].

(** rtthread_startup up to rt_application_init. *)
Definition rt_system_init : K unit :=
  rt_system_timer_init ;!
  rt_sem_init heap_sem heap_name 1 RT_IPC_FLAG_FIFO ;!
  rt_system_scheduler_init.

(** rtthread_startup, with the application's initialisation [app]. *)
Definition rtthread_startup (app : K Z) (idle_thread : nat) (idle_entry idle_stack : Z) : K unit :=
  rt_system_init ;!
  app ;!
  rt_thread_idle_init idle_thread idle_entry idle_stack ;!
  rt_system_scheduler_start.

(** * The invariant at start-up *)

Definition boot_heads : list node :=
  TimerHead :: DefunctHead :: (ObjHead <$> object_classes) ++ (ReadyHead <$> priorities).
Definition empty_lists : gmap node (list node) := list_to_map ((fun l => (l, [])) <$> boot_heads).
Definition boot_lists : gmap node (list node) :=
  <[SuspHead (OSemaphore heap_sem) := []]>
    (<[ObjHead RT_Object_Class_Semaphore := [ObjNode (OSemaphore heap_sem)]]> empty_lists).

Definition booted : kernel := after rt_system_init kernel_image.

Lemma rt_system_init_runs : rt_system_init kernel_image = Ret tt booted.
Proof. unfold booted. apply result_after. vm_compute. reflexivity. Qed.

Lemma booted_KI : KI booted boot_lists.
Proof. apply (checked_KI 0); [by intros t _|vm_compute; reflexivity]. Qed.

Lemma boot_containers : containers boot_lists.
Proof.
  intros c Hc. unfold boot_lists. rewrite lookup_insert_ne by done.
  destruct (decide (c = RT_Object_Class_Semaphore)) as [->|Hne]; [rewrite lookup_insert_eq; eauto|].
  rewrite lookup_insert_ne by congruence. unfold empty_lists.
  assert (ObjHead c ∈ boot_heads) as Hin.
  { unfold boot_heads. do 2 right. apply elem_of_app. left. apply list_elem_of_fmap_2, elem_of_seqZ.
    unfold RT_Object_Class_Unknown in *. lia. }
  exists []. apply elem_of_list_to_map_1; [refine (bool_decide_unpack _ _); vm_compute; exact I|].
  by apply (list_elem_of_fmap_2 (fun l => (l, []))).
Qed.
