(* ===== verification/Dynamic.v ===== *)
(** Objects from the heap: rt_object_allocate and the create and delete functions of
    object.c, thread.c, timer.c and ipc.c.

    What the heap answers to each RT_KERNEL_MALLOC is an argument of the operation:
    [None] for RT_NULL, otherwise the identity of the object, the address of the
    stack or the initial contents of the pool.  The memory that rt_object_delete and
    the delete functions give back is not part of the kernel state. *)

From S2P Require Import Prelude RtList KState Ffs KInv Sched Object Timer Thread ThreadLife Ipc.
From S2P Require Import Sem Mutex Event Mailbox MsgQueue Idle Restart.

Open Scope Z_scope.

(** * Operations *)

(** rt_object_allocate *)
Definition rt_object_allocate (object : option objid) (nm : list Z) : K (option objid) :=
  match object with
  | None => ret None
  | Some o =>
      upd_object o (set_type (object_class o)) ;!
      upd_object o (set_flag 0) ;!
      upd_object o (set_name (rt_strncpy nm RT_NAME_MAX)) ;!
      list_insert_after (ObjHead (object_class o)) (ObjNode o) ;!
      ret (Some o)
  end.

(** rt_thread_create *)
Definition rt_thread_create (thread : option nat) (stack_start : option Z) (nm : list Z)
    (entry_ parameter_ stack_size_ priority tick : Z) : K (option nat) :=
  let! o := rt_object_allocate (OThread <$> thread) nm in
  match thread, o with
  | Some t, Some _ =>
      match stack_start with
      | None => rt_object_delete (OThread t) ;! ret None
      | Some stack =>
          _rt_thread_init t entry_ parameter_ stack stack_size_ priority tick ;! ret (Some t)
      end
  | _, _ => ret None
  end.

(** rt_timer_create, rt_timer_delete *)
Definition rt_timer_create (timer : option nat) (nm : list Z) (timeout : timeout_fn) (time fl : Z) : K (option nat) :=
  let! o := rt_object_allocate ((fun n => OTimer (UserTimer n)) <$> timer) nm in
  match timer, o with
  | Some n, Some _ => _rt_timer_init (UserTimer n) timeout time fl ;! ret (Some n)
  | _, _ => ret None
  end.

Definition rt_timer_delete (n : nat) : K Z :=
  _rt_timer_remove (UserTimer n) ;!
  rt_object_delete (OTimer (UserTimer n)) ;!
  ret (- RT_EOK).

(** rt_sem_create, rt_sem_delete *)
Definition rt_sem_create (sem : option nat) (nm : list Z) (value fl : Z) : K (option nat) :=
  let! o := rt_object_allocate (OSemaphore <$> sem) nm in
  match sem, o with
  | Some s, Some _ =>
      rt_ipc_object_init (OSemaphore s) ;!
      upd_sem s (u16 value) ;!
      upd_object (OSemaphore s) (set_flag fl) ;!
      ret (Some s)
  | _, _ => ret None
  end.

Definition rt_sem_delete (s : nat) : K Z :=
  rt_ipc_list_resume_all (SuspHead (OSemaphore s)) ;!
  rt_object_delete (OSemaphore s) ;!
  ret RT_EOK.

(** rt_mutex_create, rt_mutex_delete *)
Definition rt_mutex_create (mutex : option nat) (nm : list Z) (fl : Z) : K (option nat) :=
  let! o := rt_object_allocate (OMutex <$> mutex) nm in
  match mutex, o with
  | Some m, Some _ =>
      rt_ipc_object_init (OMutex m) ;!
      upd_mutex m (set_mutex_value 1) ;!
      upd_mutex m (set_owner None) ;!
      upd_mutex m (set_original_priority 0xFF) ;!
      upd_mutex m (set_hold 0) ;!
      upd_object (OMutex m) (set_flag fl) ;!
      ret (Some m)
  | _, _ => ret None
  end.

Definition rt_mutex_delete (m : nat) : K Z :=
  rt_ipc_list_resume_all (SuspHead (OMutex m)) ;!
  rt_object_delete (OMutex m) ;!
  ret RT_EOK.

(** rt_event_create, rt_event_delete *)
Definition rt_event_create (event : option nat) (nm : list Z) (fl : Z) : K (option nat) :=
  let! o := rt_object_allocate (OEvent <$> event) nm in
  match event, o with
  | Some e, Some _ =>
      upd_object (OEvent e) (set_flag fl) ;!
      rt_ipc_object_init (OEvent e) ;!
      upd_event e 0 ;!
      ret (Some e)
  | _, _ => ret None
  end.

Definition rt_event_delete (e : nat) : K Z :=
  rt_ipc_list_resume_all (SuspHead (OEvent e)) ;!
  rt_object_delete (OEvent e) ;!
  ret RT_EOK.

(** rt_mb_create, rt_mb_delete *)
Definition rt_mb_create (mb : option nat) (msgpool : option (list Z)) (nm : list Z) (size fl : Z) : K (option nat) :=
  let! o := rt_object_allocate (OMailBox <$> mb) nm in
  match mb, o with
  | Some b, Some _ =>
      upd_object (OMailBox b) (set_flag fl) ;!
      rt_ipc_object_init (OMailBox b) ;!
      upd_mb b (set_mb_size (u16 size)) ;!
      match msgpool with
      | None => upd_mb b (set_msg_pool []) ;! rt_object_delete (OMailBox b) ;! ret None
      | Some pool =>
          upd_mb b (set_msg_pool pool) ;!
          upd_mb b (set_mb_entry 0) ;!
          upd_mb b (set_in_offset 0) ;!
          upd_mb b (set_out_offset 0) ;!
          list_init (SenderHead b) ;!
          ret (Some b)
      end
  | _, _ => ret None
  end.

Definition rt_mb_delete (b : nat) : K Z :=
  rt_ipc_list_resume_all (SuspHead (OMailBox b)) ;!
  rt_ipc_list_resume_all (SenderHead b) ;!
  rt_object_delete (OMailBox b) ;!
  ret RT_EOK.

(** rt_mq_create, rt_mq_delete *)
Definition rt_mq_delete (q : nat) : K Z :=
  rt_ipc_list_resume_all (SuspHead (OMessageQueue q)) ;!
  rt_object_delete (OMessageQueue q) ;!
  ret RT_EOK.

Definition rt_mq_create (mq : option nat) (msgpool : option (nat -> rt_mq_message)) (nm : list Z)
    (msg_size_ max_msgs_ fl : Z) : K (option nat) :=
  let! o := rt_object_allocate (OMessageQueue <$> mq) nm in
  match mq, o with
  | Some q, Some _ =>
      upd_object (OMessageQueue q) (set_flag fl) ;!
      rt_ipc_object_init (OMessageQueue q) ;!
      upd_mq q (set_msg_size (u16 (RT_ALIGN msg_size_ RT_ALIGN_SIZE))) ;!
      upd_mq q (set_max_msgs (u16 max_msgs_)) ;!
      match msgpool with
      | None => rt_mq_delete q ;! ret None
      | Some pool =>
          upd_mq q (set_mq_pool pool) ;!
          upd_mq q (set_msg_queue_head None) ;!
          upd_mq q (set_msg_queue_tail None) ;!
          upd_mq q (set_msg_queue_free None) ;!
          upd_mq q (fun x => mq_init_loop (Z.to_nat (max_msgs x)) 0 x) ;!
          upd_mq q (set_mq_entry 0) ;!
          ret (Some q)
      end
  | _, _ => ret None
  end.

(** * Creating a thread *)

Section create.
Implicit Types (k : kernel) (Q : gmap node (list node)) (t : nat).

Definition allocated (nm : list Z) (o : objid) : rt_object :=
  mk_object (rt_strncpy nm RT_NAME_MAX) (object_class o) 0.

Lemma rt_object_allocate_spec act k Q o nm :
  KIx act k Q -> containers Q -> detached Q (ObjNode o) ->
  wp (rt_object_allocate (Some o) nm) (fun r k' => r = Some o /\ exists h,
    k' = set_lists h (set_objects (<[o := allocated nm o]> (objects k)) k) /\ KIx act k' (register o Q)) k.
Proof.
  intros Hk Hc Hd. destruct (kinv_register act k Q o Hk Hc Hd) as (xs & h & Hxs & Hh & Hk').
  unfold rt_object_allocate. repeat apply wp_fuse_object. unfold upd_object. wp_pure. simpl.
  wp_step. eapply wp_list_op; [exact Hh|]. wp_pure. split; [done|]. exists h. split; [done|].
  rewrite <- (register_default _ _ _ Hxs). apply Hk'.
Qed.

Lemma registered_register Q o : registered (register o Q) o.
Proof. unfold registered, register. eexists. rewrite lookup_insert_eq. split; [done|]. set_solver. Qed.

(** The lists when the object was allocated and given back *)
Definition released t Q : gmap node (list node) := unlink (ObjNode (OThread t)) (register (OThread t) Q).

(** A created thread is a dynamic object in its initial state; when the heap has no
    memory for the object or the stack the result is RT_NULL and nothing stays in
    the container. *)
Theorem rt_thread_create_spec k Q thread stack nm e pa size_ p tick :
  KI k Q -> containers Q -> (forall t, thread = Some t -> ~ live (threads k t) /\ unused Q t) ->
  wp (rt_thread_create thread stack nm e pa size_ p tick) (fun r k' =>
    match thread, stack with
    | None, _ => r = None /\ k' = k
    | Some t, None => r = None /\ threads k' = threads k /\ env k' = env k /\ cpu_part k' = cpu_part k /\
        objects_but t k k' /\ KI k' (released t Q) /\ ~ registered (released t Q) (OThread t) /\
        forall o, registered (released t Q) o -> registered Q o
    | Some t, Some a => r = Some t /\ KI k' (init_lists t Q) /\ env k' = env k /\ cpu_part k' = cpu_part k /\ dynamic k' t /\
        objects_but t k k' /\ timer_fn k' (ThreadTimer t) = FN_rt_thread_timeout t /\
        activated k' (ThreadTimer t) = false /\
        threads k' = <[t := initialised e pa a size_ p tick (threads k t)]> (threads k)
    end) k.
Proof.
  intros Hk Hc Ht. unfold rt_thread_create. destruct thread as [t|]; simpl; [|by wp_pure].
  destruct (Ht t eq_refl) as [Hnl (Hd1 & Hd2 & Hd3 & Hd4)].
  wp_use (rt_object_allocate_spec (activated k) k Q (OThread t) nm); [done|done|done|].
  intros r k1 (-> & h & -> & Hk1). destruct stack as [a|].
  - wp_use (_rt_thread_init_spec (activated k) _ (register (OThread t) Q) t);
      [exact Hk1|by apply containers_register|done|by apply detached_register..|].
    intros r k3 (-> & Hk3 & Ee & Ec & Eth & Etm & ob & Eo). simpl in Eth, Etm, Eo. wp_pure.
    assert (activated k3 = <[ThreadTimer t := false]> (activated k)) as Ea.
    { apply (activated_init _ _ _ ob); [|by rewrite Eo, fn_lookup_insert].
      intros tm Hne. by rewrite Eo, !fn_lookup_insert_ne by congruence. }
    split_and!; try done.
    + unfold KI. rewrite Ea. exact Hk3.
    + unfold dynamic, rt_object_is_systemobject. rewrite Eo, fn_lookup_insert_ne, fn_lookup_insert by done. done.
    + intros o H1 H2. by rewrite Eo, !fn_lookup_insert_ne by done.
    + unfold timer_fn. by rewrite Etm, fn_lookup_insert.
    + rewrite Ea. apply fn_lookup_insert.
  - destruct (kinv_unlink_object _ _ _ _ _ _ (OThread t) Hk1 (registered_register Q _)) as (h2 & Hh2 & Hk2).
    wp_step. eapply wp_list_op; [exact Hh2|]. wp_pure. split_and!; try done.
    + intros o H1 H2. simpl. by rewrite fn_lookup_insert_ne.
    + apply registered_unlink_self.
    + intros o (xs & Hx & Hin). unfold released in Hx. rewrite lookup_unlink, decide_False in Hx by done.
      apply fmap_Some in Hx as (ys & Hy & ->). apply list_elem_of_filter in Hin as [Hne Hin].
      unfold register in Hy. apply lookup_insert_Some in Hy as [[E <-]|[_ [_ Hy]%lookup_delete_Some]]; [|by exists ys].
      apply elem_of_cons in Hin as [?|Hin]; [done|]. rewrite E in Hin.
      destruct (Q !! ObjHead (object_class o)) as [zs|] eqn:E2; [by exists zs|by apply not_elem_of_nil in Hin].
Qed.
End create.
