(* ===== verification/Scenarios.v ===== *)
(** Concrete kernels: a system with four threads and one object of each kind,
    brought to the states in which the theorems of the other files apply. *)

From S2P Require Import Prelude RtList KState Ffs KInv Sched Object Timer Thread ThreadLife Ipc.
From S2P Require Import Sem Mutex Event Mailbox MsgQueue Clock KCheck Idle Restart Startup.

Open Scope Z_scope.

(** * The lists of a concrete state *)

(** A node is the head of a list of the state: a head by its nature, or the node
    of a struct that is in no list. *)
Definition is_head (k : kernel) (n : node) : bool :=
  match n with
  | TList _ | TimerRow _ | ObjNode _ => bool_decide (get_next (lists k) n = Some n)
  | _ => true
  end.

Definition lists_of (k : kernel) : gmap node (list node) :=
  list_to_map (omap (fun l => if is_head k l then (fun xs => (l, xs)) <$> list_nodes l (lists k) else None)
    (elements (dom (lists k)))).

(** The threads from [n] on as in the image. *)
Definition trim (n : nat) (k : kernel) : kernel :=
  set_threads (fun t => if (t <? n)%nat then threads k t else zero_thread) k.

Lemma trim_KI n k : checked_state n (trim n k) (lists_of (trim n k)) = true -> KI (trim n k) (lists_of (trim n k)).
Proof.
  apply checked_KI. intros t Ht. simpl. by rewrite (proj2 (Nat.ltb_ge t n)).
Qed.

Definition containersb (Q : gmap node (list node)) : bool :=
  forallb (fun c => bool_decide (is_Some (Q !! ObjHead c))) (seqZ 0 RT_Object_Class_Unknown).

Lemma containersb_ok Q : containersb Q = true -> containers Q.
Proof.
  unfold containersb. rewrite forallb_forall. intros H c Hc.
  eapply bool_decide_eq_true, H, list_elem_of_In, elem_of_seqZ. lia.
Qed.

Definition detachedb (Q : gmap node (list node)) (n : node) : bool := negb (bool_decide (n ∈ all_nodes Q)).

Lemma detachedb_ok Q n : detachedb Q n = true -> detached Q n.
Proof.
  unfold detachedb, all_nodes. rewrite negb_true_iff, bool_decide_eq_false. intros H l xs Hl.
  assert (n ∉ l :: xs) as [H1 H2]%not_elem_of_cons; [|split; [done|congruence]].
  intros Hn. apply H, list_elem_of_bind. exists (l, xs). split; [done|by apply elem_of_map_to_list].
Qed.

(** * The system *)

Definition demo_thread (t : nat) (prio : Z) : static_thread :=
  mk_static t [100] (4096 + Z.of_nat t) (536870912 + 1024 * Z.of_nat t) 1024 prio 5.

Definition demo_pool : nat -> rt_mq_message := fun _ => mk_message None (replicate 8 0).

Definition demo_script : K unit :=
  rt_system_init ;!
  static_thread_init (demo_thread 0 31) ;!
  static_thread_init (demo_thread 1 10) ;!
  static_thread_init (demo_thread 2 10) ;!
  static_thread_init (demo_thread 3 5) ;!
  rt_sem_init 0 [115] 0 RT_IPC_FLAG_FIFO ;!
  rt_mutex_init 0 [109] RT_IPC_FLAG_PRIO ;!
  rt_event_init 0 [101] RT_IPC_FLAG_FIFO ;!
  rt_mb_init 0 [98] (replicate 4 0) 4 RT_IPC_FLAG_FIFO ;!
  rt_mq_init 0 [113] demo_pool 8 48 RT_IPC_FLAG_FIFO ;!
  rt_system_scheduler_start.

(** Thread 3 runs, 1 and 2 are ready behind it, 0 is idle. *)
Definition demo : kernel := trim 4 (after demo_script kernel_image).
Lemma demo_KI : KI demo (lists_of demo).
Proof. apply trim_KI. vm_compute. reflexivity. Qed.

Ltac evaluate := vm_compute; reflexivity.

(** A state reached from [demo] by a call. *)
Definition then_do {A} (m : K A) (k : kernel) : kernel := trim 4 (after m k).

(** ** Lists and the scheduler *)

Lemma first_set_witness : __rt_ffs 40 = first_set 32 0 40.
Proof. apply (__rt_ffs_first_set 40). lia. Defined.

Lemma insert_remove_witness : exists h1 h2,
  rt_list_insert_before (ReadyHead 20) (TimerRow (ThreadTimer 1)) (lists demo) = Some h1 /\
  Rep h1 (<[ReadyHead 20 := [] ++ [TimerRow (ThreadTimer 1)]]> (delete (TimerRow (ThreadTimer 1)) (lists_of demo))) /\
  rt_list_remove (TimerRow (ThreadTimer 1)) h1 = Some h2 /\ Rep h2 (lists_of demo).
Proof.
  apply (rt_list_insert_remove (lists demo) (lists_of demo) (ReadyHead 20) [] (TimerRow (ThreadTimer 1)));
    [apply demo_KI|evaluate|evaluate|discriminate].
Defined.

(** A specification at a concrete state: the call returns, with what the
    specification says of its result. *)
Lemma wp_returns {S A} (m : M S A) Phi k : wp m Phi k -> exists r k', m k = Ret r k' /\ Phi r k'.
Proof. apply wp_Ret. Qed.

Lemma schedule_witness : exists k', rt_schedule demo = Ret tt k' /\
  exists t, rt_current_thread k' = Some t /\ readyp (threads k' t).
Proof.
  destruct (wp_returns _ _ _ (rt_schedule_runs_most_urgent (activated demo) demo (lists_of demo) 1
    demo_KI ltac:(evaluate) ltac:(evaluate))) as ([] & k' & E & _ & t & xs & H1 & H2 & _).
  exists k'. split; [exact E|]. exists t. split; [exact H1|exact H2].
Defined.

Lemma critical_witness : let k := set_rt_scheduler_lock_nest 1 demo in
  wp (rt_enter_critical ;! rt_schedule ;! rt_exit_critical) (fun _ k' =>
    rt_scheduler_lock_nest k' = rt_scheduler_lock_nest k /\ cpu_part k' = cpu_part k /\
    threads k' = threads k /\ lists k' = lists k) k.
Proof. apply (critical_nested (set_rt_scheduler_lock_nest 1 demo)). simpl. lia. Defined.

Lemma demo_names (xs : list objid) :
  lists_of demo !! ObjHead 0 = Some (ObjNode <$> xs) -> stored_names demo (fun _ => [100]) xs.
Proof.
  assert (lists_of demo !! ObjHead 0 = Some [ObjNode (OThread 3); ObjNode (OThread 2); ObjNode (OThread 1); ObjNode (OThread 0)])
    as -> by evaluate.
  intros E. destruct xs as [|a [|b [|c [|d [|e xs]]]]]; try discriminate E. injection E as <- <- <- <-.
  intros o Ho. split; [constructor; [lia|constructor]|].
  repeat (apply elem_of_cons in Ho as [->|Ho]; [evaluate|]). by apply not_elem_of_nil in Ho.
Qed.

Lemma demo_containers : containers (lists_of demo).
Proof.
  intros c Hc. unfold RT_Object_Class_Unknown in Hc.
  assert (c = 0 \/ c = 1 \/ c = 2 \/ c = 3 \/ c = 4 \/ c = 5 \/ c = 6 \/ c = 7 \/ c = 8) as Hcs by lia.
  repeat (destruct Hcs as [->|Hcs]; [eexists; evaluate|]). subst. eexists; evaluate.
Qed.

Lemma find_witness : exists r k', rt_object_find (Some [100]) RT_Object_Class_Thread demo = Ret r k' /\
  exists xs, first_named (fun _ => [100]) [100] xs r.
Proof.
  destruct (wp_returns _ _ _ (rt_object_find_spec (activated demo) demo (lists_of demo) (fun _ => [100]) [100]
    RT_Object_Class_Thread 1 demo_KI ltac:(evaluate) ltac:(vm_compute; split; [discriminate|reflexivity])
    ltac:(vm_compute; split; [discriminate|reflexivity]) demo_containers
    ltac:(constructor; [lia|constructor]) demo_names)) as (r & k' & E & xs & _ & Hf & _).
  exists r, k'. split; [exact E|]. exists xs. exact Hf.
Defined.

(** ** Threads and timers *)

(** Thread 1 suspended by hand: its timer is off. *)
Definition suspended : kernel := then_do (rt_thread_suspend 1) demo.
Lemma suspended_KI : KI suspended (lists_of suspended).
Proof. apply trim_KI. evaluate. Qed.

Lemma sorted_nil k Q base : Q !! TimerHead = Some [] -> timers_sorted k Q base.
Proof. intros H. exists []. split_and!; [done|constructor|constructor]. Qed.

Lemma timer_start_witness : exists r k', rt_timer_start (ThreadTimer 1) suspended = Ret r k' /\
  exists Q', timers_sorted k' Q' 0.
Proof.
  destruct (wp_returns _ _ _ (rt_timer_start_keeps_order (activated suspended) suspended (lists_of suspended)
    (ThreadTimer 1) 0 suspended_KI ltac:(evaluate) ltac:(eexists; evaluate)
    ltac:(intros t [= <-]; evaluate) ltac:(apply sorted_nil; evaluate) ltac:(evaluate)))
    as (r & k' & E & _ & Q' & ys & zs & _ & Hs & _).
  exists r, k'. split; [exact E|]. exists Q'. exact Hs.
Defined.

(** Thread 3 suspended: thread 1 runs, with 2 behind it in the same queue. *)
Definition equals : kernel := then_do (rt_thread_suspend 3 ;! rt_schedule) demo.
Lemma equals_KI : KI equals (lists_of equals).
Proof. apply trim_KI. evaluate. Qed.

Lemma equals_next : next_to_run (lists_of equals) 1 10.
Proof.
  exists [TList 2]. split; [evaluate|]. intros q Hq.
  assert (q = 0 \/ q = 1 \/ q = 2 \/ q = 3 \/ q = 4 \/ q = 5 \/ q = 6 \/ q = 7 \/ q = 8 \/ q = 9) as Hcs by lia.
  repeat (destruct Hcs as [->|Hcs]; [evaluate|]). subst. evaluate.
Qed.

Lemma yield_witness : exists k', rt_thread_yield equals = Ret RT_EOK k' /\ rt_current_thread k' = Some 2%nat.
Proof.
  destruct (wp_returns _ _ _ (rt_thread_yield_round_robin equals (lists_of equals) 1 2 []
    equals_KI ltac:(evaluate) ltac:(evaluate) ltac:(evaluate) equals_next ltac:(evaluate)))
    as (r & k' & E & -> & Hc & _).
  exists k'. split; [exact E|exact Hc].
Defined.

Lemma sleep_witness : exists r k', rt_thread_sleep 10 demo = Ret r k' /\ exists k1 k2 Q2,
  armed (activated demo) 3 10 k1 (unlink (TList 3) (lists_of demo)) k2 Q2 /\ scheduled k2 Q2 k'.
Proof.
  destruct (wp_returns _ _ _ (rt_thread_sleep_spec demo (lists_of demo) 3 1 10 demo_KI ltac:(evaluate) ltac:(evaluate)
    ltac:(discriminate) ltac:(evaluate))) as (r & k' & E & k1 & k2 & Q2 & _ & _ & _ & _ & H1 & H2).
  exists r, k'. split; [exact E|]. exists k1, k2, Q2. split; [exact H1|exact H2].
Defined.

Lemma lists_registered k o xs :
  lists_of k !! ObjHead (object_class o) = Some xs -> bool_decide (ObjNode o ∈ xs) = true ->
  registered (lists_of k) o.
Proof. intros H1 H2%bool_decide_eq_true. exists xs. split; [exact H1|exact H2]. Qed.

Lemma exit_witness : exists r k', rt_thread_exit demo = Ret r k' /\ exists k1,
  threads k1 = <[3%nat := closed (threads demo 3)]> (threads demo).
Proof.
  destruct (wp_returns _ _ _ (rt_thread_exit_spec demo (lists_of demo) 3 1 demo_KI ltac:(evaluate) ltac:(evaluate)
    ltac:(discriminate) ltac:(evaluate) ltac:(eapply lists_registered; evaluate) ltac:(eapply lists_registered; evaluate)))
    as (r & k' & E & k1 & _ & _ & H1 & _).
  exists r, k'. split; [exact E|]. exists k1. exact H1.
Defined.

(** ** Semaphores and mutexes *)

Lemma demo_sem : sem_rep demo (lists_of demo) 0 (mk_sem 0 []).
Proof.
  split; [evaluate|unfold waiters; evaluate|left; evaluate|].
  split_and!; [simpl; lia|simpl; lia|constructor|by left].
Qed.

Lemma sem_take_witness : exists r k', rt_sem_take 0 10 demo = Ret r k' /\ exists e a', sem_step (mk_sem 0 []) e a'.
Proof.
  destruct (wp_returns _ _ _ (rt_sem_take_refines demo (lists_of demo) 0 (mk_sem 0 []) 3 1 10 demo_KI demo_sem
    ltac:(evaluate) ltac:(evaluate) ltac:(discriminate) ltac:(evaluate))) as (r & k' & E & e & a' & Q' & Hs & _).
  exists r, k'. split; [exact E|]. exists e, a'. exact Hs.
Defined.

(** Thread 3 waits for the semaphore. *)
Definition waiting_sem : kernel := then_do (rt_sem_take 0 10) demo.
Lemma waiting_sem_KI : KI waiting_sem (lists_of waiting_sem).
Proof. apply trim_KI. evaluate. Qed.

Lemma waiting_sem_rep : sem_rep waiting_sem (lists_of waiting_sem) 0 (mk_sem 0 [3%nat]).
Proof.
  split; [evaluate|unfold waiters; evaluate|left; evaluate|].
  split_and!; [simpl; lia|simpl; lia|apply NoDup_singleton|by left].
Qed.

Lemma sem_release_witness : exists k', rt_sem_release 0 waiting_sem = Ret RT_EOK k' /\
  threads k' = <[3%nat := set_stat RT_THREAD_READY (threads waiting_sem 3)]> (threads waiting_sem).
Proof.
  destruct (wp_returns _ _ _ (rt_sem_release_refines waiting_sem (lists_of waiting_sem) 0 (mk_sem 0 [3%nat]) 1
    waiting_sem_KI waiting_sem_rep ltac:(evaluate)))
    as (r & k' & E & -> & a' & Q' & _ & _ & _ & _ & _ & Ht).
  exists k'. split; [exact E|exact Ht].
Defined.

Lemma sem_reset_witness : exists k', rt_sem_control 0 RT_IPC_CMD_RESET 2 waiting_sem = Ret RT_EOK k' /\
  exists Q', sem_rep k' Q' 0 (mk_sem (u16 2) []).
Proof.
  destruct (wp_returns _ _ _ (rt_sem_control_reset waiting_sem (lists_of waiting_sem) 0 (mk_sem 0 [3%nat]) 2 1
    waiting_sem_KI waiting_sem_rep ltac:(evaluate))) as (r & k' & E & -> & Q' & _ & Hr & _).
  exists k'. split; [exact E|]. exists Q'. exact Hr.
Defined.

Lemma demo_mutex : mutex_rep demo (lists_of demo) 0 [].
Proof. split; [unfold waiters; evaluate|right; evaluate|left; split; [evaluate|done]]. Qed.

Lemma mutex_take_witness : exists r k', rt_mutex_take 0 10 demo = Ret r k' /\
  exists ts', take_effect 10 3 [] demo k' 0 ts' r.
Proof.
  destruct (wp_returns _ _ _ (rt_mutex_take_spec demo (lists_of demo) 0 [] 3 1 10 demo_KI demo_mutex
    ltac:(evaluate) ltac:(evaluate) ltac:(discriminate) ltac:(evaluate)))
    as (r & k' & E & Q' & ts' & _ & _ & _ & He).
  exists r, k'. split; [exact E|]. exists ts'. exact (proj2 He).
Defined.

(** Thread 1 took the mutex and then thread 3 came to wait for it: 1 runs at the
    priority of 3. *)
Definition inherited : kernel :=
  then_do (rt_thread_suspend 3 ;! rt_schedule ;! rt_mutex_take 0 10 ;! rt_thread_resume 3 ;! rt_schedule ;!
           rt_mutex_take 0 10) demo.
Lemma inherited_KI : KI inherited (lists_of inherited).
Proof. apply trim_KI. evaluate. Qed.

Lemma inherited_mutex : mutex_rep inherited (lists_of inherited) 0 [3%nat].
Proof.
  split; [unfold waiters; evaluate|right; evaluate|right]. exists 1%nat.
  split_and!; [evaluate|evaluate|vm_compute; discriminate|vm_compute; discriminate|vm_compute; discriminate|evaluate|left; evaluate|].
  set_solver.
Qed.

Lemma mutex_release_witness : exists r k', rt_mutex_release 0 inherited = Ret r k' /\
  exists ts', release_effect 1 [3%nat] inherited k' 0 ts' r.
Proof.
  destruct (wp_returns _ _ _ (rt_mutex_release_spec inherited (lists_of inherited) 0 [3%nat] 1 inherited_KI
    inherited_mutex ltac:(evaluate) ltac:(evaluate))) as (r & k' & E & Q' & ts' & _ & _ & _ & _ & He).
  exists r, k'. split; [exact E|]. exists ts'. exact He.
Defined.

(** ** Events *)

Lemma demo_event : event_rep demo (lists_of demo) 0 [].
Proof. split; [unfold waiters; evaluate|left; evaluate|by intros t ?%not_elem_of_nil]. Qed.

Lemma event_recv_witness : exists r k', rt_event_recv 0 3 RT_EVENT_FLAG_AND 10 demo = Ret r k' /\
  exists ts', Event.recv_effect 3 RT_EVENT_FLAG_AND 10 0 3 [] demo k' ts' r.
Proof.
  destruct (wp_returns _ _ _ (rt_event_recv_spec demo (lists_of demo) 0 [] 3 RT_EVENT_FLAG_AND 10 3 1 demo_KI demo_event
    ltac:(evaluate) ltac:(evaluate) ltac:(discriminate) ltac:(evaluate) (or_introl eq_refl)))
    as (r & k' & E & Q' & ts' & _ & _ & _ & _ & He).
  exists r, k'. split; [exact E|]. exists ts'. exact He.
Defined.

(** Thread 3 waits for both of the flags 1 and 2. *)
Definition waiting_event : kernel := then_do (rt_event_recv 0 3 RT_EVENT_FLAG_AND 10) demo.
Lemma waiting_event_KI : KI waiting_event (lists_of waiting_event).
Proof. apply trim_KI. evaluate. Qed.

Lemma waiting_event_rep : event_rep waiting_event (lists_of waiting_event) 0 [3%nat].
Proof.
  split; [unfold waiters; evaluate|left; evaluate|].
  intros t Ht. apply list_elem_of_singleton in Ht as ->. evaluate.
Qed.

Lemma event_send_witness : exists k', rt_event_send 0 7 waiting_event = Ret RT_EOK k' /\
  threads k' 3 = serve 3 (threads waiting_event 3).
Proof.
  destruct (wp_returns _ _ _ (rt_event_send_spec waiting_event (lists_of waiting_event) 0 [3%nat] 7 7 [] [(3%nat, 3)] 1
    waiting_event_KI waiting_event_rep ltac:(evaluate) ltac:(discriminate) ltac:(evaluate)))
    as (r & k' & E & -> & Q' & _ & _ & _ & _ & _ & Hs & _).
  exists k'. split; [exact E|]. apply (Hs 3%nat 3). constructor.
Defined.

(** ** Mailboxes and message queues *)

Lemma demo_mb : mb_rep demo (lists_of demo) 0 [] [].
Proof.
  split; [unfold waiters; evaluate|unfold waiters; evaluate|left; evaluate|].
  assert (mailboxes demo 0 = new_mailbox (replicate 4 0) 4) as -> by evaluate. by apply new_mailbox_ok.
Qed.

Lemma mb_send_witness : exists r k', rt_mb_send_wait 0 42 10 demo = Ret r k' /\
  exists rs' ss', send_effect 42 10 3 demo k' 0 [] rs' [] ss' r.
Proof.
  destruct (wp_returns _ _ _ (rt_mb_send_wait_spec demo (lists_of demo) 0 [] [] 42 10 3 1 demo_KI demo_mb
    ltac:(evaluate) ltac:(evaluate) ltac:(discriminate) ltac:(evaluate)))
    as (r & k' & E & Q' & rs' & ss' & _ & _ & _ & _ & He).
  exists r, k'. split; [exact E|]. exists rs', ss'. exact He.
Defined.

Lemma mb_recv_witness : exists r k', rt_mb_recv 0 10 demo = Ret r k' /\
  exists rs' ss', Mailbox.recv_effect 10 3 demo k' 0 [] rs' [] ss' r.
Proof.
  destruct (wp_returns _ _ _ (rt_mb_recv_spec demo (lists_of demo) 0 [] [] 10 3 1 demo_KI demo_mb
    ltac:(evaluate) ltac:(evaluate) ltac:(discriminate) ltac:(evaluate)))
    as (r & k' & E & Q' & rs' & ss' & _ & _ & _ & _ & He).
  exists r, k'. split; [exact E|]. exists rs', ss'. exact He.
Defined.

Lemma time_left_witness : time_left 100 4294967290 4 = Z.max 0 (100 - u32 (4 - 4294967290)).
Proof. apply (time_left_spec 100 4294967290 4); [lia|evaluate]. Defined.

Lemma demo_mq : mq_rep demo (lists_of demo) 0 [] [3; 2; 1; 0]%nat [].
Proof.
  split; [unfold waiters; evaluate|left; evaluate| |vm_compute; discriminate].
  split; [evaluate|evaluate|vm_compute; tauto|evaluate| |vm_compute; split; [discriminate|reflexivity]].
  assert (Z.to_nat (max_msgs (mqs demo 0)) = 4%nat) as -> by evaluate. simpl.
  apply Permutation_rev.
Qed.

Lemma mq_send_witness : exists r k', rt_mq_send 0 [1; 2] 2 demo = Ret r k' /\
  exists ms' rs', mq_send_effect false [1; 2] demo k' 0 [] ms' [3; 2; 1; 0]%nat [] rs' r.
Proof.
  destruct (wp_returns _ _ _ (rt_mq_send_spec demo (lists_of demo) 0 [] [3; 2; 1; 0]%nat [] [1; 2] demo_KI demo_mq))
    as (r & k' & E & Q' & ms' & fs' & rs' & _ & _ & _ & _ & He).
  exists r, k'. split; [exact E|]. exists ms', rs'. exact He.
Defined.

Lemma mq_urgent_witness : exists r k', rt_mq_urgent 0 [1; 2] 2 demo = Ret r k' /\
  exists ms' rs', mq_send_effect true [1; 2] demo k' 0 [] ms' [3; 2; 1; 0]%nat [] rs' r.
Proof.
  destruct (wp_returns _ _ _ (rt_mq_urgent_spec demo (lists_of demo) 0 [] [3; 2; 1; 0]%nat [] [1; 2] demo_KI demo_mq))
    as (r & k' & E & Q' & ms' & fs' & rs' & _ & _ & _ & _ & He).
  exists r, k'. split; [exact E|]. exists ms', rs'. exact He.
Defined.

Lemma mq_recv_witness : exists r k', rt_mq_recv 0 8 10 demo = Ret r k' /\
  exists ms' rs', mq_recv_effect 8 10 3 demo k' 0 [] ms' [] rs' r.
Proof.
  destruct (wp_returns _ _ _ (rt_mq_recv_spec demo (lists_of demo) 0 [] [3; 2; 1; 0]%nat [] 8 10 3 1 demo_KI demo_mq
    ltac:(evaluate) ltac:(evaluate) ltac:(discriminate) ltac:(evaluate)))
    as (r & k' & E & Q' & ms' & fs' & rs' & _ & _ & _ & _ & He).
  exists r, k'. split; [exact E|]. exists ms', rs'. exact He.
Defined.

(** Two senders reserve a slot each; the first one fills and links its slot, a receiver takes the
    message out and is interrupted by a reset, all while the second sender has its slot in hands. *)
Lemma some_default {A} (o : option A) d : match o with Some _ => true | None => false end = true -> o = Some (default d o).
Proof. by destruct o. Qed.

Definition two_reserved : rt_messagequeue := take_free 2 (take_free 3 (mq_fresh 8 48 zero_mq)).
Definition one_linked : rt_messagequeue := link 3 (default zero_mq (copy_in 3 [1; 2] (write_next 3 None two_reserved))).
Definition one_read : rt_messagequeue := set_mq_entry (u16 (mq_entry (unlink_head 3 one_linked) - 1)) (unlink_head 3 one_linked).
Definition after_reset : rt_messagequeue := set_mq_entry 0 (default zero_mq (mq_flush (Z.to_nat (max_msgs one_read)) one_read)).

Lemma interleaving_run : rtc mq_step (mq_fresh 8 48 zero_mq, []) (after_reset, [Reading 3; Reserved 2 [9]]).
Proof.
  eapply rtc_l; [eapply (st_reserve _ [] 3 [1; 2]); evaluate|].
  eapply rtc_l; [eapply (st_reserve _ [Reserved 3 [1; 2]] 2 [9]); evaluate|].
  eapply rtc_l; [eapply (st_fill two_reserved _ [Reserved 2 [9]] [] 3 [1; 2]), (some_default _ zero_mq); evaluate|].
  eapply rtc_l; [eapply (st_link _ [Reserved 2 [9]] [] 3)|].
  eapply rtc_l; [eapply (st_unlink one_linked _ 3); [vm_compute; discriminate|evaluate]|].
  eapply rtc_l; [eapply (st_reset one_read), (some_default _ zero_mq); evaluate|]. apply rtc_refl.
Qed.

Lemma interleaving_witness : (exists ms fs, mq_ok after_reset ms fs [3; 2]%nat) /\
  is_Some (copy_in 2 [9] after_reset) /\ is_Some (mq_flush (Z.to_nat (max_msgs after_reset)) after_reset).
Proof.
  destruct (mq_interleavings 8 48 zero_mq (after_reset, [Reading 3; Reserved 2 [9]]) interleaving_run) as (H1 & H2 & H3).
  split; [exact H1|]. split; [|exact H3]. apply (H2 2%nat [9]). right. left.
Defined.

(** ** The clock *)

Lemma from_millisecond_witness : 7 <= 5 * rt_tick_from_millisecond 7 /\ 5 * (rt_tick_from_millisecond 7 - 1) < 7.
Proof. apply (rt_tick_from_millisecond_ceil 7). lia. Defined.

(** Thread 3 sleeps for one tick; thread 1 runs. *)
Definition asleep : kernel := then_do (rt_thread_sleep 1) demo.
Lemma asleep_KI : KI asleep (lists_of asleep).
Proof. apply trim_KI. evaluate. Qed.

Lemma asleep_sorted : timers_sorted asleep (lists_of asleep) (rt_tick asleep).
Proof.
  exists [row_of 3]. split_and!; [evaluate|constructor; [evaluate|constructor]|].
  constructor; [constructor|constructor].
Qed.

Lemma tick_witness : exists r k', rt_tick_increase (fun _ _ => ret tt) 2 asleep = Ret r k' /\ rt_tick k' = 1.
Proof.
  destruct (wp_returns _ _ _ (rt_tick_increase_spec (fun _ _ => ret tt) asleep (lists_of asleep) 1 [3%nat] [] [TList 2] 2
    asleep_KI ltac:(evaluate) ltac:(evaluate) ltac:(evaluate) asleep_sorted ltac:(evaluate)
    ltac:(intros s Hs; apply list_elem_of_singleton in Hs as ->; evaluate) ltac:(vm_compute; lia)))
    as (r & k' & E & Ht & _).
  exists r, k'. split; [exact E|]. rewrite Ht. evaluate.
Defined.

(** ** The idle thread *)

Definition make_dynamic (t : nat) : K unit := upd_object (OThread t) (set_type RT_Object_Class_Thread).

(** Threads 2 and 3, made dynamic ones, were deleted. *)
Definition deleted : kernel :=
  then_do (make_dynamic 2 ;! make_dynamic 3 ;! rt_thread_delete 2 ;! rt_thread_delete 3 ;! rt_schedule) demo.
Lemma deleted_KI : KI deleted (lists_of deleted).
Proof. apply trim_KI. evaluate. Qed.

Lemma idle_witness : exists k', rt_thread_idle_excute (fun _ _ => ret tt) 3 deleted =
    Ret [FreeStack (stack_addr (threads deleted 3)); FreeObject (OThread 3); FreeStack (stack_addr (threads deleted 2)); FreeObject (OThread 2)] k' /\
  exists Q', defunct Q' [] /\ ~ registered Q' (OThread 2).
Proof.
  destruct (wp_returns _ _ _ (rt_thread_idle_excute_spec (fun _ _ => ret tt) 3 deleted
    (lists_of deleted) [3; 2]%nat deleted_KI ltac:(unfold defunct; evaluate) ltac:(simpl; lia)
    ltac:(intros t Ht; apply elem_of_cons in Ht as [->|Ht%list_elem_of_singleton]; [|subst t];
      (split; [evaluate|split; [eapply lists_registered; evaluate|evaluate]]))))
    as (r & k' & E & -> & Q' & _ & Hd & _ & _ & Hr).
  exists k'. split; [exact E|]. exists Q'. split; [exact Hd|]. intros H. apply Hr in H as [_ H]. apply H. right. left.
Defined.

(** A static thread in front of a dynamic one: the call stops behind the static one. *)
Definition static_first : kernel :=
  then_do (make_dynamic 2 ;! rt_thread_delete 2 ;! rt_thread_delete 3 ;! rt_schedule) demo.
Lemma idle_stops_at_static :
  match rt_thread_idle_excute (fun _ _ => ret tt) 3 static_first with
  | Ret blocks k' => Some (blocks, list_isempty DefunctHead k')
  | Fail _ => None
  end = Some ([], false).
Proof. evaluate. Qed.
