(* ===== verification/Mem.v ===== *)
(** Memory as bytes, and the memory and string functions of src/kservice.c.

    An address is a number, a byte is a number below 256 ([bytes]); words are little
    endian, as on the Cortex-M4.  The functions are those of the configuration
    without RT_TINY_SIZE: they work on words where they can, and are compared with
    their plain descriptions [filled] and [copied]. *)

From S2P Require Import Prelude.

Open Scope Z_scope.

(** * Bytes and words *)

Definition memory : Type := Z -> Z.

Definition bytes (m : memory) : Prop := forall a, 0 <= m a < 256.

Definition get16 (m : memory) (a : Z) : Z := m a + 2 ^ 8 * m (a + 1).
Definition get32 (m : memory) (a : Z) : Z :=
  m a + 2 ^ 8 * m (a + 1) + 2 ^ 16 * m (a + 2) + 2 ^ 24 * m (a + 3).

Definition put8 (a v : Z) (m : memory) : memory := <[a := u8 v]> m.
Definition put16 (a v : Z) (m : memory) : memory := put8 (a + 1) (Z.shiftr v 8) (put8 a v m).
Definition put32 (a v : Z) (m : memory) : memory :=
  put8 (a + 3) (Z.shiftr v 24) (put8 (a + 2) (Z.shiftr v 16) (put8 (a + 1) (Z.shiftr v 8) (put8 a v m))).

(** * Operations *)

Notation B := (M memory) (only parsing).

(** rt_memset; [while (count >= 16)], the four stores *)
Fixpoint memset_big (fuel : nat) (aligned_addr buffer count : Z) : B (Z * Z) :=
  match fuel with
  | O => fail OutOfFuel
  | S fuel =>
      if 16 <=? count then
        modify (put32 aligned_addr buffer) ;!
        modify (put32 (aligned_addr + 4) buffer) ;!
        modify (put32 (aligned_addr + 8) buffer) ;!
        modify (put32 (aligned_addr + 12) buffer) ;!
        memset_big fuel (aligned_addr + 16) buffer (count - 16)
      else ret (aligned_addr, count)
  end.

(** [while (count >= 4)] *)
Fixpoint memset_words (fuel : nat) (aligned_addr buffer count : Z) : B (Z * Z) :=
  match fuel with
  | O => fail OutOfFuel
  | S fuel =>
      if 4 <=? count then
        modify (put32 aligned_addr buffer) ;! memset_words fuel (aligned_addr + 4) buffer (count - 4)
      else ret (aligned_addr, count)
  end.

(** [while (count--)] *)
Fixpoint memset_bytes (count : nat) (p d : Z) : B unit :=
  match count with
  | O => ret tt
  | S count => modify (put8 p d) ;! memset_bytes count (p + 1) d
  end.

Definition fuel_of (count : Z) : nat := S (Z.to_nat count).

Definition rt_memset (s c count : Z) : B Z :=
  let d := Z.land c 0xff in
  let! r := (if negb (count <? 4) && (Z.land s 3 =? 0) then
               let buffer := Z.lor (u32 (Z.shiftl d 8)) d in
               let buffer := Z.lor buffer (u32 (Z.shiftl buffer 16)) in
               let! r := memset_big (fuel_of count) s buffer count in
               memset_words (fuel_of count) r.1 buffer r.2
             else ret (s, count)) in
  memset_bytes (Z.to_nat r.2) r.1 d ;!
  ret s.

(** rt_memcpy; one assignment through the two word pointers *)
Definition copy_word (dst src : Z) : B unit := modify (fun m => put32 dst (get32 m src) m).
Definition copy_byte (dst src : Z) : B unit := modify (fun m => put8 dst (m src) m).

Fixpoint memcpy_big (fuel : nat) (dst src len : Z) : B (Z * Z * Z) :=
  match fuel with
  | O => fail OutOfFuel
  | S fuel =>
      if 16 <=? len then
        copy_word dst src ;!
        copy_word (dst + 4) (src + 4) ;!
        copy_word (dst + 8) (src + 8) ;!
        copy_word (dst + 12) (src + 12) ;!
        memcpy_big fuel (dst + 16) (src + 16) (len - 16)
      else ret (dst, src, len)
  end.

Fixpoint memcpy_words (fuel : nat) (dst src len : Z) : B (Z * Z * Z) :=
  match fuel with
  | O => fail OutOfFuel
  | S fuel =>
      if 4 <=? len then copy_word dst src ;! memcpy_words fuel (dst + 4) (src + 4) (len - 4)
      else ret (dst, src, len)
  end.

(** [while (n--) *dst++ = *src++] *)
Fixpoint copy_up (n : nat) (dst src : Z) : B unit :=
  match n with
  | O => ret tt
  | S n => copy_byte dst src ;! copy_up n (dst + 1) (src + 1)
  end.

(** [len] is compared as an unsigned number, as [count] is. *)
Definition rt_memcpy (dst src count : Z) : B Z :=
  let! r := (if negb (count <? 16) && (Z.lor (Z.land src 3) (Z.land dst 3) =? 0) then
               let! r := memcpy_big (fuel_of count) dst src count in
               memcpy_words (fuel_of count) r.1.1 r.1.2 r.2
             else ret (dst, src, count)) in
  copy_up (Z.to_nat r.2) r.1.1 r.1.2 ;!
  ret dst.

(** rt_memmove; [while (n--) *(--tmp) = *(--s)] *)
Fixpoint copy_down (n : nat) (tmp s : Z) : B unit :=
  match n with
  | O => ret tt
  | S n => copy_byte (tmp - 1) (s - 1) ;! copy_down n (tmp - 1) (s - 1)
  end.

Definition rt_memmove (dest src n : Z) : B Z :=
  (if (src <? dest) && (dest <? src + n) then copy_down (Z.to_nat n) (dest + n) (src + n)
   else copy_up (Z.to_nat n) dest src) ;!
  ret dest.

(** rt_memcmp *)
Fixpoint memcmp_loop (count : nat) (su1 su2 res : Z) (m : memory) : Z :=
  match count with
  | O => res
  | S count =>
      let res := m su1 - m su2 in
      if negb (res =? 0) then res else memcmp_loop count (su1 + 1) (su2 + 1) res m
  end.

Definition rt_memcmp (cs ct count : Z) (m : memory) : Z := memcmp_loop (Z.to_nat count) cs ct 0 m.

(** rt_strlen; [fuel] bounds the length. *)
Fixpoint strlen_loop (fuel : nat) (s sc : Z) : B Z :=
  match fuel with
  | O => fail OutOfFuel
  | S fuel =>
      let! m := get in
      if negb (m sc =? 0) then strlen_loop fuel s (sc + 1) else ret (sc - s)
  end.

Definition rt_strlen (fuel : nat) (s : Z) : B Z := strlen_loop fuel s s.

(** rt_strcmp; the result is an [rt_ubase_t]. *)
Fixpoint rt_strcmp (fuel : nat) (cs ct : Z) : B Z :=
  match fuel with
  | O => fail OutOfFuel
  | S fuel =>
      let! m := get in
      if negb (m cs =? 0) && (m cs =? m ct) then rt_strcmp fuel (cs + 1) (ct + 1)
      else ret (u32 (m cs - m ct))
  end.

(** rt_strcasecmp *)
Definition to_lower (c : Z) : Z := if (65 <=? c) && (c <=? 90) then c + (97 - 65) else c.

Fixpoint rt_strcasecmp (fuel : nat) (a b : Z) : B Z :=
  match fuel with
  | O => fail OutOfFuel
  | S fuel =>
      let! m := get in
      let ca := to_lower (Z.land (m a) 0xff) in
      let cb := to_lower (Z.land (m b) 0xff) in
      if (ca =? cb) && negb (ca =? 0) then rt_strcasecmp fuel (a + 1) (b + 1)
      else ret (u32 (ca - cb))
  end.

(** rt_strstr: [while (l1 >= l2)] *)
Fixpoint strstr_loop (fuel : nat) (s1 s2 l1 l2 : Z) : B (option Z) :=
  match fuel with
  | O => fail OutOfFuel
  | S fuel =>
      if l2 <=? l1 then
        let! m := get in
        if rt_memcmp s1 s2 l2 m =? 0 then ret (Some s1) else strstr_loop fuel (s1 + 1) s2 (l1 - 1) l2
      else ret None
  end.

Definition rt_strstr (fuel : nat) (s1 s2 : Z) : B (option Z) :=
  let! l2 := rt_strlen fuel s2 in
  if l2 =? 0 then ret (Some s1)
  else
    let! l1 := rt_strlen fuel s1 in
    strstr_loop (fuel_of l1) s1 s2 l1 l2.

(** * Bytes and words: laws *)

Section words.
Implicit Types (m : memory) (a b v : Z).

Lemma put8_lookup a v m b : put8 a v m b = if decide (a = b) then u8 v else m b.
Proof. apply fn_insert_case. Qed.

Lemma put8_bytes a v m : bytes m -> bytes (put8 a v m).
Proof. intros Hm b. rewrite put8_lookup. case_decide; [apply u8_range|apply Hm]. Qed.
Lemma put16_bytes a v m : bytes m -> bytes (put16 a v m).
Proof. intros. by apply put8_bytes, put8_bytes. Qed.
Lemma put32_bytes a v m : bytes m -> bytes (put32 a v m).
Proof. intros. by repeat apply put8_bytes. Qed.

(** A store changes its own bytes only. *)
Lemma put16_out a v m b : b < a \/ a + 2 <= b -> put16 a v m b = m b.
Proof. intros. unfold put16. rewrite !put8_lookup. repeat case_decide; [lia..|done]. Qed.
Lemma put32_out a v m b : b < a \/ a + 4 <= b -> put32 a v m b = m b.
Proof. intros. unfold put32. rewrite !put8_lookup. repeat case_decide; [lia..|done]. Qed.

Lemma byte_of v n : 0 <= n -> u8 (Z.shiftr v n) = v / 2 ^ n mod 256.
Proof. intros. unfold u8. by rewrite Z.shiftr_div_pow2. Qed.

Lemma get16_put16 a v m : get16 (put16 a v m) a = u16 v.
Proof.
  unfold get16, put16. rewrite !put8_lookup. rewrite decide_False, !decide_True by lia.
  rewrite byte_of by lia. unfold u8, u16. change (2 ^ 16) with (256 * 256). change (2 ^ 8) with 256.
  rewrite Z.rem_mul_r by lia. lia.
Qed.

Lemma get32_put32 a v m : get32 (put32 a v m) a = u32 v.
Proof.
  unfold get32, put32. rewrite !put8_lookup.
  rewrite !byte_of by lia. unfold u8, u32. change (2 ^ 8) with 256.
  change (2 ^ 32) with (256 * (256 * (256 * 256))). rewrite !Z.rem_mul_r by lia.
  rewrite !Z.div_div by lia. change (256 * 256) with 65536. change (65536 * 256) with 16777216.
  change (256 * 65536) with 16777216. change (2 ^ 16) with 65536. change (2 ^ 24) with 16777216.
  repeat (case_decide; try lia).
Qed.

Lemma get16_ext m m' a : m a = m' a -> m (a + 1) = m' (a + 1) -> get16 m a = get16 m' a.
Proof. unfold get16. by intros -> ->. Qed.
Lemma get32_ext m m' a : (forall b, a <= b < a + 4 -> m b = m' b) -> get32 m a = get32 m' a.
Proof. intros H. unfold get32. by rewrite !H by lia. Qed.

Lemma get32_bytes m a : bytes m -> 0 <= get32 m a < 2 ^ 32.
Proof.
  intros H. unfold get32. pose proof (H a). pose proof (H (a + 1)). pose proof (H (a + 2)). pose proof (H (a + 3)). lia.
Qed.

(** Copying a word copies its bytes. *)
Lemma copy_word_byte m dst src b : bytes m -> dst <= b < dst + 4 ->
  put32 dst (get32 m src) m b = m (src + (b - dst)).
Proof.
  intros Hm Hb. unfold put32. rewrite !put8_lookup.
  pose proof (Hm src) as H0. pose proof (Hm (src + 1)) as H1. pose proof (Hm (src + 2)) as H2. pose proof (Hm (src + 3)) as H3.
  rewrite !byte_of by lia. unfold u8, get32. change (2 ^ 8) with 256 in *. change (2 ^ 16) with 65536. change (2 ^ 24) with 16777216.
  repeat case_decide; subst; try lia.
  - replace (src + (dst + 3 - dst)) with (src + 3) by lia.
    rewrite Z.mod_small; [|split; [apply Z.div_pos|apply Z.div_lt_upper_bound]; lia]. symmetry. apply Z.div_unique with
      (r := m src + 256 * m (src + 1) + 65536 * m (src + 2)); lia.
  - replace (src + (dst + 2 - dst)) with (src + 2) by lia. symmetry. apply Z.mod_unique with (q := m (src + 3)); [lia|].
    symmetry. apply Z.div_unique with (r := m src + 256 * m (src + 1)); lia.
  - replace (src + (dst + 1 - dst)) with (src + 1) by lia. symmetry. apply Z.mod_unique with (q := m (src + 2) + 256 * m (src + 3)); [lia|].
    symmetry. apply Z.div_unique with (r := m src); lia.
  - replace (src + (b - b)) with src by lia. symmetry.
    apply Z.mod_unique with (q := m (src + 1) + 256 * m (src + 2) + 65536 * m (src + 3)); lia.
Qed.

Definition fill_buffer (d : Z) : Z :=
  let buffer := Z.lor (u32 (Z.shiftl d 8)) d in Z.lor buffer (u32 (Z.shiftl buffer 16)).

Lemma fill_buffer_value d : 0 <= d < 256 -> fill_buffer d = 16843009 * d.
Proof.
  intros Hd. assert (forallb (fun d => fill_buffer d =? 16843009 * d) (seqZ 0 256) = true) as H by (vm_compute; reflexivity).
  rewrite forallb_forall in H. apply Z.eqb_eq, H, list_elem_of_In, elem_of_seqZ. lia.
Qed.

Lemma fill_word_byte m a d b : 0 <= d < 256 -> a <= b < a + 4 -> put32 a (fill_buffer d) m b = d.
Proof.
  intros Hd Hb. rewrite fill_buffer_value by done. unfold put32. rewrite !put8_lookup, !byte_of by lia. unfold u8.
  change (2 ^ 8) with 256. change (2 ^ 16) with 65536. change (2 ^ 24) with 16777216.
  repeat case_decide; subst; try lia; Z.to_euclidean_division_equations; lia.
Qed.
End words.

(** * Reference definitions *)

Definition filled (s d n : Z) (m : memory) : memory := fun a => if decide (s <= a < s + n) then d else m a.
Definition copied (dst src n : Z) (m : memory) : memory :=
  fun a => if decide (dst <= a < dst + n) then m (src + (a - dst)) else m a.

Section functions.
Implicit Types (m : memory) (n : nat).

Ltac mem_ext := apply functional_extensionality; intros a; unfold filled, copied.

Lemma filled_step s d k (n : Z) m m1 : 0 <= k -> 0 <= n -> (forall a, m1 a = filled s d k m a) ->
  filled (s + k) d n m1 = filled s d (k + n) m.
Proof.
  intros Hk Hn H. mem_ext. rewrite H. unfold filled. repeat case_decide; lia || done.
Qed.

Lemma memset_bytes_spec n : forall p d m, wp (memset_bytes n p d) (fun _ m' => m' = filled p (u8 d) (Z.of_nat n) m) m.
Proof.
  induction n as [|n IH]; intros p d m; simpl.
  - apply wp_ret. mem_ext. by rewrite decide_False by lia.
  - wp_pure. eapply wp_mono; [apply IH|]. cbv beta. intros _ m' ->.
    rewrite (filled_step p (u8 d) 1 (Z.of_nat n) m); [f_equal; lia|lia|lia|]. intros a. rewrite put8_lookup. unfold filled.
    repeat case_decide; lia || done.
Qed.

Definition fills (s d count : Z) m (r : Z * Z) (m' : memory) : Prop :=
  r.1 = s + (count - r.2) /\ 0 <= r.2 <= count /\ m' = filled s d (count - r.2) m.

Lemma memset_words_spec fuel : forall s d count m, 0 <= d < 256 -> 0 <= count -> count / 4 < Z.of_nat fuel ->
  wp (memset_words fuel s (fill_buffer d) count) (fills s d count m) m.
Proof.
  induction fuel as [|fuel IH]; intros s d count m Hd Hc Hf; [exfalso; pose proof (Z.div_pos count 4); lia|]. cbn [memset_words].
  destruct (Z.leb_spec 4 count).
  - wp_pure. eapply wp_mono; [apply (IH (s + 4) d (count - 4)); [done|lia|]|].
    { replace (count - 4) with (count + -1 * 4) by lia. rewrite Z.div_add by lia. lia. }
    cbv beta. intros r m' (H1 & H2 & ->). split_and!; [lia|lia|lia|].
    rewrite (filled_step s d 4 (count - 4 - r.2) m); [f_equal; lia|lia|lia|]. intros a. unfold filled. case_decide.
    + by apply fill_word_byte.
    + apply put32_out. lia.
  - apply wp_ret. split_and!; simpl; [lia|lia|lia|]. rewrite Z.sub_diag. mem_ext. by rewrite decide_False by lia.
Qed.

Lemma memset_big_spec fuel : forall s d count m, 0 <= d < 256 -> 0 <= count -> count / 16 < Z.of_nat fuel ->
  wp (memset_big fuel s (fill_buffer d) count) (fills s d count m) m.
Proof.
  induction fuel as [|fuel IH]; intros s d count m Hd Hc Hf; [exfalso; pose proof (Z.div_pos count 16); lia|]. cbn [memset_big].
  destruct (Z.leb_spec 16 count).
  - wp_pure. eapply wp_mono; [apply (IH (s + 16) d (count - 16)); [done|lia|]|].
    { replace (count - 16) with (count + -1 * 16) by lia. rewrite Z.div_add by lia. lia. }
    cbv beta. intros r m' (H1 & H2 & ->). split_and!; [lia|lia|lia|].
    rewrite (filled_step s d 16 (count - 16 - r.2) m); [f_equal; lia|lia|lia|]. intros a. unfold filled.
    destruct (decide (s + 12 <= a < s + 16)); [rewrite decide_True by lia; apply fill_word_byte; lia|].
    rewrite put32_out by lia. destruct (decide (s + 8 <= a < s + 12)); [rewrite decide_True by lia; apply fill_word_byte; lia|].
    rewrite put32_out by lia. destruct (decide (s + 4 <= a < s + 8)); [rewrite decide_True by lia; apply fill_word_byte; lia|].
    rewrite put32_out by lia. case_decide; [apply fill_word_byte; lia|apply put32_out; lia].
  - apply wp_ret. split_and!; simpl; [lia|lia|lia|]. rewrite Z.sub_diag. mem_ext. by rewrite decide_False by lia.
Qed.

Lemma fuel_enough count d : 0 <= count -> 0 < d -> count / d < Z.of_nat (fuel_of count).
Proof. intros. unfold fuel_of. pose proof (Z.div_le_upper_bound count d count). nia. Qed.

(** rt_memset, by words or by bytes, stores the low byte of [c] in the [count] bytes
    from [s] and changes no other. *)
Lemma rt_memset_filled s c count m : 0 <= count ->
  wp (rt_memset s c count) (fun r m' => r = s /\ m' = filled s (u8 c) count m) m.
Proof.
  intros Hc. unfold rt_memset.
  assert (Z.land c 0xff = u8 c) as -> by (apply (Z.land_ones c 8); lia). pose proof (u8_range c) as Hd.
  assert (u8 (u8 c) = u8 c) as Hu by (apply u8_small; lia).
  wp_step. apply wp_mono with (fills s (u8 c) count m).
  - destruct (_ && _).
    + wp_use (memset_big_spec (fuel_of count) s (u8 c) count m); [lia|lia|by apply fuel_enough; lia|].
      intros r1 m1 (E1 & H1 & ->). wp_use (memset_words_spec (fuel_of count) r1.1 (u8 c) r1.2); [lia|lia| |].
      { pose proof (fuel_enough count 4). pose proof (Z.div_le_mono r1.2 count 4). lia. }
      intros r2 m2 (E2 & H2 & ->). split_and!; [lia|lia|lia|]. rewrite E1.
      rewrite (filled_step s (u8 c) (count - r1.2) (r1.2 - r2.2) m); [f_equal; lia|lia|lia|done].
    + apply wp_ret. split_and!; simpl; [lia|lia|lia|]. rewrite Z.sub_diag. mem_ext. by rewrite decide_False by lia.
  - intros r m' (E & Hr & ->). wp_use (memset_bytes_spec (Z.to_nat r.2) r.1 (u8 c)). intros _ m' ->. apply wp_ret. split; [done|].
    rewrite Hu, E, Z2Nat.id by lia. rewrite (filled_step s (u8 c) (count - r.2) r.2 m); [f_equal; lia|lia|lia|done].
Qed.

(** ** Copies *)

(** [dst] is a copy of [src] so far, and what remains to be read is unchanged, when the
    destination is not above the source or the two are apart. *)
Definition forward (dst src n : Z) : Prop := dst <= src \/ src + n <= dst.

Lemma copied_step dst src k (n : Z) m m1 : 0 <= k -> 0 <= n -> forward dst src (k + n) ->
  (forall a, m1 a = copied dst src k m a) -> copied (dst + k) (src + k) n m1 = copied dst src (k + n) m.
Proof.
  intros Hk Hn Hf H. mem_ext. destruct (decide (dst + k <= a < dst + k + n)).
  - rewrite decide_True by lia. rewrite H. unfold copied, forward in *. rewrite decide_False by lia. f_equal. lia.
  - rewrite H. unfold copied. repeat case_decide; lia || done.
Qed.

Lemma copied_0 dst src m : copied dst src 0 m = m.
Proof. mem_ext. by rewrite decide_False by lia. Qed.

Lemma copied_bytes dst src (n : Z) m : bytes m -> bytes (copied dst src n m).
Proof. intros Hm a. unfold copied. case_decide; apply Hm. Qed.

Lemma copy_byte_copied dst src m : bytes m -> put8 dst (m src) m = copied dst src 1 m.
Proof.
  intros Hm. mem_ext. rewrite put8_lookup. repeat case_decide; try lia.
  subst. rewrite u8_small by apply Hm. f_equal. lia.
Qed.

Lemma copy_word_copied dst src m : bytes m -> put32 dst (get32 m src) m = copied dst src 4 m.
Proof. intros Hm. mem_ext. case_decide; [by apply copy_word_byte|apply put32_out; lia]. Qed.

Lemma copy_up_spec n : forall dst src m, bytes m -> forward dst src (Z.of_nat n) ->
  wp (copy_up n dst src) (fun _ m' => m' = copied dst src (Z.of_nat n) m) m.
Proof.
  induction n as [|n IH]; intros dst src m Hm Hf; cbn [copy_up].
  - apply wp_ret. symmetry. apply copied_0.
  - unfold copy_byte. wp_pure. rewrite copy_byte_copied by done.
    eapply wp_mono; [apply IH; [by apply copied_bytes|unfold forward in *; lia]|]. cbv beta. intros _ m' ->.
    rewrite (copied_step dst src 1 (Z.of_nat n) m); [f_equal; lia|lia|lia|unfold forward in *; lia|done].
Qed.

Definition copies (dst src len : Z) m (r : Z * Z * Z) (m' : memory) : Prop :=
  r.1 = (dst + (len - r.2), src + (len - r.2)) /\ 0 <= r.2 <= len /\ m' = copied dst src (len - r.2) m.

Lemma copies_0 dst src len m : 0 <= len -> copies dst src len m (dst, src, len) m.
Proof. intros. split_and!; simpl; [f_equal; lia|lia|lia|]. by rewrite Z.sub_diag, copied_0. Qed.

Lemma copies_step dst src k len m r m' : 0 <= k <= len -> forward dst src len ->
  copies (dst + k) (src + k) (len - k) (copied dst src k m) r m' -> copies dst src len m r m'.
Proof.
  intros Hk Hf (E & Hr & ->). split_and!; [rewrite E; f_equal; lia|lia|lia|].
  rewrite (copied_step dst src k (len - k - r.2) m); [f_equal; lia|lia|lia|unfold forward in *; lia|done].
Qed.

Lemma memcpy_words_spec fuel : forall dst src len m, bytes m -> 0 <= len -> len / 4 < Z.of_nat fuel -> forward dst src len ->
  wp (memcpy_words fuel dst src len) (copies dst src len m) m.
Proof.
  induction fuel as [|fuel IH]; intros dst src len m Hm Hc Hf Hd; [exfalso; pose proof (Z.div_pos len 4); lia|]. cbn [memcpy_words].
  destruct (Z.leb_spec 4 len); [|by apply wp_ret, copies_0].
  unfold copy_word. wp_pure. rewrite copy_word_copied by done.
  eapply wp_mono; [apply (IH (dst + 4) (src + 4) (len - 4)); [by apply copied_bytes|lia| |unfold forward in *; lia]|].
  { replace (len - 4) with (len + -1 * 4) by lia. rewrite Z.div_add by lia. lia. }
  cbv beta. intros r m'. by apply copies_step; [lia|].
Qed.

(** The four assignments of a round *)
Lemma copy_four dst src m : bytes m -> forward dst src 16 ->
  let m1 := put32 dst (get32 m src) m in
  let m2 := put32 (dst + 4) (get32 m1 (src + 4)) m1 in
  let m3 := put32 (dst + 8) (get32 m2 (src + 8)) m2 in
  put32 (dst + 12) (get32 m3 (src + 12)) m3 = copied dst src 16 m.
Proof.
  intros Hm Hf m1 m2 m3. unfold forward in Hf.
  assert (m1 = copied dst src 4 m) as E1 by (by apply copy_word_copied).
  assert (m2 = copied dst src 8 m) as E2.
  { unfold m2. rewrite E1, copy_word_copied by (by apply copied_bytes).
    rewrite (copied_step dst src 4 4 m); [done|lia|lia|unfold forward; lia|done]. }
  assert (m3 = copied dst src 12 m) as E3.
  { unfold m3. rewrite E2, copy_word_copied by (by apply copied_bytes).
    rewrite (copied_step dst src 8 4 m); [done|lia|lia|unfold forward; lia|done]. }
  rewrite E3, copy_word_copied by (by apply copied_bytes).
  rewrite (copied_step dst src 12 4 m); [done|lia|lia|unfold forward; lia|done].
Qed.

Lemma memcpy_big_spec fuel : forall dst src len m, bytes m -> 0 <= len -> len / 16 < Z.of_nat fuel -> forward dst src len ->
  wp (memcpy_big fuel dst src len) (copies dst src len m) m.
Proof.
  induction fuel as [|fuel IH]; intros dst src len m Hm Hc Hf Hd; [exfalso; pose proof (Z.div_pos len 16); lia|]. cbn [memcpy_big].
  destruct (Z.leb_spec 16 len); [|by apply wp_ret, copies_0].
  unfold copy_word. wp_pure. rewrite copy_four by (done || (unfold forward in *; lia)).
  eapply wp_mono; [apply (IH (dst + 16) (src + 16) (len - 16)); [by apply copied_bytes|lia| |unfold forward in *; lia]|].
  { replace (len - 16) with (len + -1 * 16) by lia. rewrite Z.div_add by lia. lia. }
  cbv beta. intros r m'. by apply copies_step; [lia|].
Qed.

(** rt_memcpy, by words or by bytes, copies when the regions are apart, and also when
    the destination begins below the source. *)
Lemma rt_memcpy_copied dst src count m : bytes m -> 0 <= count -> forward dst src count ->
  wp (rt_memcpy dst src count) (fun r m' => r = dst /\ m' = copied dst src count m) m.
Proof.
  intros Hm Hc Hf. unfold rt_memcpy. wp_step. apply wp_mono with (copies dst src count m).
  - destruct (_ && _); [|by apply wp_ret, copies_0].
    wp_use (memcpy_big_spec (fuel_of count) dst src count m); [done|lia|by apply fuel_enough; lia|done|].
    intros r1 m1 (E1 & H1 & ->). rewrite E1. cbn [fst snd].
    wp_use (memcpy_words_spec (fuel_of count) (dst + (count - r1.2)) (src + (count - r1.2)) r1.2);
      [by apply copied_bytes|lia| |unfold forward in *; lia|].
    { pose proof (fuel_enough count 4). pose proof (Z.div_le_mono r1.2 count 4). lia. }
    intros r2 m2 H2. apply (copies_step dst src (count - r1.2)); [lia|done|].
    by replace (count - (count - r1.2)) with r1.2 by lia.
  - intros r m' (E & Hr & ->). rewrite E. cbn [fst snd].
    wp_use (copy_up_spec (Z.to_nat r.2) (dst + (count - r.2)) (src + (count - r.2)));
      [by apply copied_bytes|unfold forward in *; lia|].
    intros _ m' ->. apply wp_ret. split; [done|]. rewrite Z2Nat.id by lia.
    rewrite (copied_step dst src (count - r.2) r.2 m); [f_equal; lia|lia|lia|unfold forward in *; lia|done].
Qed.

Lemma copy_down_spec n : forall dst src m, bytes m -> src <= dst ->
  wp (copy_down n (dst + Z.of_nat n) (src + Z.of_nat n)) (fun _ m' => m' = copied dst src (Z.of_nat n) m) m.
Proof.
  induction n as [|n IH]; intros dst src m Hm Hd; cbn [copy_down].
  - apply wp_ret. symmetry. apply copied_0.
  - unfold copy_byte. wp_pure. rewrite copy_byte_copied by done.
    replace (dst + Z.of_nat (S n) - 1) with (dst + Z.of_nat n) by lia.
    replace (src + Z.of_nat (S n) - 1) with (src + Z.of_nat n) by lia.
    eapply wp_mono; [apply IH; [by apply copied_bytes|done]|]. cbv beta. intros _ m' ->. mem_ext.
    repeat case_decide; try lia; try done; f_equal; lia.
Qed.

(** rt_memmove copies whatever the overlap. *)
Lemma rt_memmove_copied dest src (n : Z) m : bytes m -> 0 <= n ->
  wp (rt_memmove dest src n) (fun r m' => r = dest /\ m' = copied dest src n m) m.
Proof.
  intros Hm Hn. unfold rt_memmove. wp_step. apply wp_mono with (fun _ m' => m' = copied dest src n m).
  2: { intros _ m' ->. by apply wp_ret. }
  destruct (Z.ltb_spec src dest), (Z.ltb_spec dest (src + n)); cbn [andb].
  - pose proof (copy_down_spec (Z.to_nat n) dest src m Hm) as H'. rewrite Z2Nat.id in H' by lia. apply H'. lia.
  - pose proof (copy_up_spec (Z.to_nat n) dest src m Hm) as H'. rewrite Z2Nat.id in H' by lia. apply H'. unfold forward. lia.
  - pose proof (copy_up_spec (Z.to_nat n) dest src m Hm) as H'. rewrite Z2Nat.id in H' by lia. apply H'. unfold forward. lia.
  - pose proof (copy_up_spec (Z.to_nat n) dest src m Hm) as H'. rewrite Z2Nat.id in H' by lia. apply H'. unfold forward. lia.
Qed.

(** C33: The memory functions, which work on words where they can, do what their plain
    descriptions say: rt_memset stores the low byte of [c] in exactly [n] bytes,
    rt_memcpy copies when the regions are apart or the destination begins below the
    source, and rt_memmove copies whatever the overlap. *)
Theorem memory_functions m dst src c (n : Z) : bytes m -> 0 <= n ->
  wp (rt_memset dst c n) (fun r m' => r = dst /\ m' = filled dst (u8 c) n m) m /\
  (forward dst src n -> wp (rt_memcpy dst src n) (fun r m' => r = dst /\ m' = copied dst src n m) m) /\
  wp (rt_memmove dst src n) (fun r m' => r = dst /\ m' = copied dst src n m) m.
Proof. intros Hm Hn. split_and!; [by apply rt_memset_filled|intros; by apply rt_memcpy_copied|by apply rt_memmove_copied]. Qed.

(** ** Comparison and strings *)

(** The bytes from [a] on *)
Definition region m (a : Z) (n : nat) : list Z := (fun i => m (a + Z.of_nat i)) <$> seq 0 n.

Lemma region_S m a n : region m a (S n) = m a :: region m (a + 1) n.
Proof.
  unfold region. cbn [seq fmap list_fmap]. f_equal; [f_equal; lia|]. rewrite <- fmap_S_seq, <- list_fmap_compose.
  apply list_fmap_ext. intros i x _. simpl. f_equal. lia.
Qed.

(** The difference of the first bytes that differ *)
Fixpoint first_difference (xs ys : list Z) : Z :=
  match xs, ys with
  | x :: xs, y :: ys => if x =? y then first_difference xs ys else x - y
  | _, _ => 0
  end.

Lemma rt_memcmp_spec cs ct count m : 0 <= count ->
  rt_memcmp cs ct count m = first_difference (region m cs (Z.to_nat count)) (region m ct (Z.to_nat count)).
Proof.
  intros _. unfold rt_memcmp. generalize (Z.to_nat count) as n. intros n. revert cs ct.
  induction n as [|n IH]; intros cs ct; [done|]. rewrite !region_S. cbn [memcmp_loop first_difference].
  destruct (Z.eqb_spec (m cs - m ct) 0), (Z.eqb_spec (m cs) (m ct)); try lia; cbn [negb]; [|done].
  rewrite <- IH. by rewrite e.
Qed.

Lemma first_difference_0 xs : forall ys, length xs = length ys -> first_difference xs ys = 0 <-> xs = ys.
Proof.
  induction xs as [|x xs IH]; intros [|y ys]; try done. cbn [first_difference length]. intros [= Hl].
  destruct (Z.eqb_spec x y); [subst; rewrite IH by done; split; congruence|]. split; [lia|congruence].
Qed.

(** A string of [n] characters at [s] *)
Definition string_at m (s : Z) (n : nat) : Prop := Forall (fun c => c <> 0) (region m s n) /\ m (s + Z.of_nat n) = 0.

Lemma string_at_S m s n : string_at m s (S n) <-> m s <> 0 /\ string_at m (s + 1) n.
Proof.
  unfold string_at. rewrite region_S, Forall_cons. replace (s + Z.of_nat (S n)) with (s + 1 + Z.of_nat n) by lia. tauto.
Qed.

Lemma rt_strlen_spec fuel m s n : string_at m s n -> (n < fuel)%nat ->
  wp (rt_strlen fuel s) (fun r m' => r = Z.of_nat n /\ m' = m) m.
Proof.
  unfold rt_strlen. intros H Hf. assert (forall sc, string_at m sc n ->
    wp (strlen_loop fuel s sc) (fun r m' => r = sc - s + Z.of_nat n /\ m' = m) m) as G.
  - clear H. revert n Hf. induction fuel as [|fuel IH]; intros n Hf sc H; [lia|]. cbn [strlen_loop]. wp_pure. destruct n as [|n].
    + destruct H as [_ H]. replace (sc + Z.of_nat 0) with sc in H by lia. rewrite H. apply wp_ret. split; [simpl; lia|done].
    + apply string_at_S in H as [Hc H]. rewrite (proj2 (Z.eqb_neq _ _) Hc). cbn [negb].
      eapply wp_mono; [apply (IH n); [lia|done]|]. cbv beta. intros r m' [-> ->]. split; [lia|done].
  - eapply wp_mono; [by apply G|]. cbv beta. intros r m' [-> ->]. split; [lia|done].
Qed.

Lemma string_at_drop m s n i : string_at m s n -> (i <= n)%nat -> string_at m (s + Z.of_nat i) (n - i).
Proof.
  revert s n. induction i as [|i IH]; intros s n H Hi.
  - by rewrite Z.add_0_r, Nat.sub_0_r.
  - destruct n as [|n]; [lia|]. apply string_at_S in H as [_ H]. replace (s + Z.of_nat (S i)) with (s + 1 + Z.of_nat i) by lia.
    apply IH; [done|lia].
Qed.

(** [s2] occurs in [s1] at offset [i]. *)
Definition occurs m (s1 s2 : Z) (l2 i : nat) : Prop := region m (s1 + Z.of_nat i) l2 = region m s2 l2.

Lemma region_length m a n : length (region m a n) = n.
Proof. unfold region. by rewrite length_fmap, length_seq. Qed.

Lemma strstr_loop_spec m l2 : forall fuel s1 s2 (l1 : Z), (0 < l2)%nat -> 0 <= l1 < Z.of_nat fuel ->
  wp (strstr_loop fuel s1 s2 l1 (Z.of_nat l2)) (fun r m' => m' = m /\
    match r with
    | Some p => exists i : nat, p = s1 + Z.of_nat i /\ Z.of_nat (i + l2) <= l1 /\ occurs m s1 s2 l2 i /\
        forall j, (j < i)%nat -> ~ occurs m s1 s2 l2 j
    | None => forall i : nat, Z.of_nat (i + l2) <= l1 -> ~ occurs m s1 s2 l2 i
    end) m.
Proof.
  induction fuel as [|fuel IH]; intros s1 s2 l1 Hl2 Hl1; [lia|]. cbn [strstr_loop].
  destruct (Z.leb_spec (Z.of_nat l2) l1).
  2: { apply wp_ret. split; [done|]. intros i Hi. lia. }
  wp_pure. rewrite rt_memcmp_spec, Nat2Z.id by lia. destruct (Z.eqb_spec (first_difference (region m s1 l2) (region m s2 l2)) 0) as [E|E].
  - apply wp_ret. split; [done|]. rewrite first_difference_0 in E by (by rewrite !region_length). exists 0%nat.
    split_and!; [lia|lia|unfold occurs; by rewrite Z.add_0_r|lia].
  - rewrite first_difference_0 in E by (by rewrite !region_length).
    assert (forall i, occurs m (s1 + 1) s2 l2 i <-> occurs m s1 s2 l2 (S i)) as Hocc.
    { intros i. unfold occurs. by replace (s1 + 1 + Z.of_nat i) with (s1 + Z.of_nat (S i)) by lia. }
    assert (~ occurs m s1 s2 l2 0) as H0 by (unfold occurs; by rewrite Z.add_0_r).
    eapply wp_mono; [apply IH; lia|]. cbv beta. intros r m' [-> Hr]. split; [done|]. destruct r as [p|].
    + destruct Hr as (i & -> & Hi & Ho & Hfirst). exists (S i). split_and!; [lia|lia|by apply Hocc|].
      intros [|j] Hj; [done|]. rewrite <- Hocc. apply Hfirst. lia.
    + intros [|i] Hi; [done|]. rewrite <- Hocc. apply Hr. lia.
Qed.

(** rt_strstr finds the first occurrence of [s2] in [s1], or that there is none. *)
Theorem rt_strstr_spec fuel m s1 s2 (l1 l2 : nat) :
  string_at m s1 l1 -> string_at m s2 l2 -> (l1 < fuel)%nat -> (l2 < fuel)%nat ->
  wp (rt_strstr fuel s1 s2) (fun r m' => m' = m /\
    match r with
    | Some p => exists i : nat, p = s1 + Z.of_nat i /\ (i + l2 <= l1)%nat /\ occurs m s1 s2 l2 i /\
        forall j, (j < i)%nat -> ~ occurs m s1 s2 l2 j
    | None => forall i : nat, (i + l2 <= l1)%nat -> ~ occurs m s1 s2 l2 i
    end) m.
Proof.
  intros H1 H2 Hf1 Hf2. unfold rt_strstr. wp_use (rt_strlen_spec fuel m s2 l2); [done..|]. intros ? ? [-> ->].
  destruct (Z.eqb_spec (Z.of_nat l2) 0).
  - apply wp_ret. split; [done|]. assert (l2 = 0%nat) as -> by lia. exists 0%nat. split_and!; [lia|lia|done|lia].
  - wp_use (rt_strlen_spec fuel m s1 l1); [done..|]. intros ? ? [-> ->].
    eapply wp_mono; [apply (strstr_loop_spec m l2); [lia|unfold fuel_of; lia]|]. cbv beta. intros r m' [-> Hr]. split; [done|].
    destruct r as [p|].
    + destruct Hr as (i & -> & Hi & Hr). exists i. split_and!; [done|lia|apply Hr..].
    + intros i Hi. apply Hr. lia.
Qed.
End functions.
