(* ===== verification/Printf.v ===== *)
(** Formatted output (src/kservice.c: print_number, rt_vsnprintf and its callers).

    A string constant is the list of its character codes without the zero; the variable
    arguments are words of 32 bits, and a string argument is an address.  RT_PRINTF_PRECISION
    is defined, RT_PRINTF_LONGLONG and RT_PRINTF_SPECIAL are not. *)

From Stdlib Require Import Ascii String.
From S2P Require Import Prelude Mem.

Open Scope Z_scope.

Definition ch (c : ascii) : Z := Z.of_nat (nat_of_ascii c).
Definition text (s : string) : list Z := ch <$> list_ascii_of_string s.

(** * Flags *)

Definition ZEROPAD : Z := 1.
Definition SIGN : Z := 2.
Definition PLUS : Z := 4.
Definition SPACE : Z := 8.
Definition LEFT : Z := 16.
Definition SPECIAL : Z := 32.
Definition LARGE : Z := 64.

Definition has_flag (flags f : Z) : bool := negb (Z.land flags f =? 0).

(** * The output *)

(** The memory and the place of the next character *)
Record cursor : Type := mk_cursor { cmem : memory; str : Z }.

Notation W := (M cursor) (only parsing).

Definition isdigit (c : Z) : bool := u32 (c - ch "0") <? 10.

(** divide: the remainder, and what is left in [*n] *)
Definition divide (n base : Z) : Z * Z :=
  if base =? 10 then (s32 (u32 n mod 10), s32 (u32 n / 10)) else (s32 (u32 n mod 16), s32 (u32 n / 16)).

Definition small_digits : list Z := text "0123456789abcdef".
Definition large_digits : list Z := text "0123456789ABCDEF".

(** [while (num != 0) tmp[i++] = digits[divide(&num, base)];] with [room] elements of tmp left *)
Fixpoint number_loop (room : nat) (num base : Z) (digits : list Z) : option (list Z) :=
  if num =? 0 then Some []
  else
    match room with
    | O => None
    | S room =>
        let '(d, num) := divide num base in
        c ← digits !! Z.to_nat d; tmp ← number_loop room num base digits; Some (c :: tmp)
    end.

Definition number_tmp (num base : Z) (digits : list Z) : option (list Z) :=
  if num =? 0 then Some [ch "0"] else number_loop 16 num base digits.

Section output.
Context (end_ : Z).

(** [if (buf <= end) *buf = c; ++ buf;] *)
Definition put (c : Z) : W unit :=
  modify (fun w => mk_cursor (if str w <=? end_ then put8 (str w) c (cmem w) else cmem w) (str w + 1)).

(** [while (lim < w--) put(c)] *)
Fixpoint pad_loop (fuel : nat) (lim w c : Z) : W Z :=
  match fuel with
  | O => fail OutOfFuel
  | S fuel => if lim <? w then put c ;! pad_loop fuel lim (s32 (w - 1)) c else ret (s32 (w - 1))
  end.

Definition pad (lim w c : Z) : W Z := pad_loop (S (Z.to_nat (w - lim))) lim w c.

(** [while (--w > 0) put(' ')] *)
Fixpoint pad_char_loop (fuel : nat) (w : Z) : W Z :=
  match fuel with
  | O => fail OutOfFuel
  | S fuel => let w := s32 (w - 1) in if w >? 0 then put (ch " ") ;! pad_char_loop fuel w else ret w
  end.

Definition pad_char (w : Z) : W Z := pad_char_loop (S (Z.to_nat (s32 (w - 1)))) w.

Fixpoint put_all (cs : list Z) : W unit :=
  match cs with
  | [] => ret tt
  | c :: cs => put c ;! put_all cs
  end.

(** print_number *)
Definition print_number (num base s precision type : Z) : W unit :=
  let digits := if has_flag type LARGE then large_digits else small_digits in
  let type := if has_flag type LEFT then Z.land type (Z.lnot ZEROPAD) else type in
  let c := if has_flag type ZEROPAD then ch "0" else ch " " in
  let '(sign, num) :=
    if has_flag type SIGN then
      if num <? 0 then (ch "-", s32 (- num))
      else if has_flag type PLUS then (ch "+", num)
      else if has_flag type SPACE then (ch " ", num)
      else (0, num)
    else (0, num) in
  let! tmp := of_option BadPointer (number_tmp num base digits) in
  let i := Z.of_nat (length tmp) in
  let precision := if i >? precision then i else precision in
  let size := s32 (s - precision) in
  let! size :=
    (if negb (has_flag type (Z.lor ZEROPAD LEFT)) then
       pad 0 (if negb (sign =? 0) && (size >? 0) then s32 (size - 1) else size) (ch " ")
     else ret size) in
  let! w := get in
  let! size :=
    (if negb (sign =? 0) then put sign ;! ret (if str w <=? end_ then s32 (size - 1) else size)
     else ret size) in
  let! size := (if negb (has_flag type LEFT) then pad 0 size c else ret size) in
  let! _precision := pad i precision (ch "0") in
  put_all (rev tmp) ;!
  let! _size := pad 0 size (ch " ") in
  ret tt.

(** * The format *)

Fixpoint parse_flags (fmt : list Z) (flags : Z) : Z * list Z :=
  match fmt with
  | [] => (flags, [])
  | c :: fmt' =>
      if c =? ch "-" then parse_flags fmt' (Z.lor flags LEFT)
      else if c =? ch "+" then parse_flags fmt' (Z.lor flags PLUS)
      else if c =? ch " " then parse_flags fmt' (Z.lor flags SPACE)
      else if c =? ch "#" then parse_flags fmt' (Z.lor flags SPECIAL)
      else if c =? ch "0" then parse_flags fmt' (Z.lor flags ZEROPAD)
      else (flags, fmt)
  end.

Fixpoint skip_atoi (fmt : list Z) (i : Z) : Z * list Z :=
  match fmt with
  | [] => (i, [])
  | c :: fmt' => if isdigit c then skip_atoi fmt' (s32 (i * 10 + c - ch "0")) else (i, fmt)
  end.

(** The character at [*fmt]; 0 at the end *)
Definition peek (fmt : list Z) : Z := hd 0 fmt.

Definition va_arg (args : list Z) : option (Z * list Z) :=
  match args with [] => None | a :: args => Some (a, args) end.

(** field_width, with the flags it may change *)
Definition parse_width (flags : Z) (fmt args : list Z) : option (Z * Z * list Z * list Z) :=
  if isdigit (peek fmt) then let '(w, fmt) := skip_atoi fmt 0 in Some (w, flags, fmt, args)
  else if peek fmt =? ch "*" then
    '(a, args) ← va_arg args;
    let w := s32 a in
    Some (if w <? 0 then (s32 (- w), Z.lor flags LEFT, tail fmt, args) else (w, flags, tail fmt, args))
  else Some (-1, flags, fmt, args).

Definition parse_precision (fmt args : list Z) : option (Z * list Z * list Z) :=
  if peek fmt =? ch "." then
    let fmt := tail fmt in
    '(p, fmt, args) ←
      (if isdigit (peek fmt) then let '(p, fmt) := skip_atoi fmt 0 in Some (p, fmt, args)
       else if peek fmt =? ch "*" then '(a, args) ← va_arg args; Some (s32 a, tail fmt, args)
       else Some (-1, fmt, args));
    Some (if p <? 0 then 0 else p, fmt, args)
  else Some (-1, fmt, args).

Definition parse_qualifier (fmt : list Z) : Z * list Z :=
  if (peek fmt =? ch "h") || (peek fmt =? ch "l") then (peek fmt, tail fmt) else (0, fmt).

(** * The conversions *)

(** case 'c' *)
Definition convert_char (flags field_width : Z) (args : list Z) : W (list Z) :=
  let! field_width := (if negb (has_flag flags LEFT) then pad_char field_width else ret field_width) in
  let! a := of_option BadPointer (va_arg args) in
  put (u8 a.1) ;!
  let! _w := pad_char field_width in
  ret a.2.

(** [for (i = 0; i < len; ++i)] of case 's' *)
Fixpoint copy_string (len : nat) (s : Z) : W unit :=
  match len with
  | O => ret tt
  | S len => let! w := get in put (cmem w s) ;! copy_string len (s + 1)
  end.

(** case 's'; [fuel] bounds the length of the string *)
Definition convert_string (fuel : nat) (flags field_width precision : Z) (args : list Z) : W (list Z) :=
  let! a := of_option BadPointer (va_arg args) in
  let s := a.1 in
  let! len := (if s =? 0 then ret (Z.of_nat (length (text "(NULL)")))
               else fun w => match rt_strlen fuel s (cmem w) with Ret n _ => Ret n w | Fail e => Fail e end) in
  let len := if (precision >? 0) && (len >? precision) then precision else len in
  let! field_width := (if negb (has_flag flags LEFT) then pad len field_width (ch " ") else ret field_width) in
  (if s =? 0 then put_all (take (Z.to_nat len) (text "(NULL)")) else copy_string (Z.to_nat len) s) ;!
  let! _w := pad len field_width (ch " ") in
  ret a.2.

(** case 'p' *)
Definition convert_pointer (flags field_width precision : Z) (args : list Z) : W (list Z) :=
  let '(field_width, flags) := if field_width =? -1 then (8, Z.lor flags ZEROPAD) else (field_width, flags) in
  let! a := of_option BadPointer (va_arg args) in
  print_number (s32 a.1) 16 field_width precision flags ;!
  ret a.2.

(** The integer conversions: the end of the loop *)
Definition convert_number (base flags field_width precision qualifier : Z) (args : list Z) : W (list Z) :=
  let! a := of_option BadPointer (va_arg args) in
  let num :=
    if qualifier =? ch "h" then let n := u16 a.1 in if has_flag flags SIGN then u32 (s16 n) else n
    else let n := u32 a.1 in if has_flag flags SIGN then u32 (s32 n) else n in
  print_number (s32 num) base field_width precision flags ;!
  ret a.2.

(** [switch ( *fmt)]; a character that is not the end of the format *)
Definition convert (fuel : nat) (c flags field_width precision qualifier : Z) (args : list Z) : W (list Z) :=
  if c =? ch "c" then convert_char flags field_width args
  else if c =? ch "s" then convert_string fuel flags field_width precision args
  else if c =? ch "p" then convert_pointer flags field_width precision args
  else if c =? ch "%" then put (ch "%") ;! ret args
  else if c =? ch "o" then convert_number 8 flags field_width precision qualifier args
  else if c =? ch "X" then convert_number 16 (Z.lor flags LARGE) field_width precision qualifier args
  else if c =? ch "x" then convert_number 16 flags field_width precision qualifier args
  else if (c =? ch "d") || (c =? ch "i") then convert_number 10 (Z.lor flags SIGN) field_width precision qualifier args
  else if c =? ch "u" then convert_number 10 flags field_width precision qualifier args
  else put (ch "%") ;! put c ;! ret args.

(** The loop over the format; every round takes at least one character. *)
Fixpoint vsn_loop (n fuel : nat) (fmt args : list Z) : W unit :=
  match n with
  | O => fail OutOfFuel
  | S n =>
      match fmt with
      | [] => ret tt
      | c :: fmt =>
          if negb (c =? ch "%") then put c ;! vsn_loop n fuel fmt args
          else
            let '(flags, fmt) := parse_flags fmt 0 in
            let! x := of_option BadPointer (parse_width flags fmt args) in
            let '(field_width, flags, fmt, args) := x in
            let! y := of_option BadPointer (parse_precision fmt args) in
            let '(precision, fmt, args) := y in
            let '(qualifier, fmt) := parse_qualifier fmt in
            match fmt with
            | [] => put (ch "%") ;! vsn_loop n fuel [] args
            | c :: fmt =>
                let! args := convert fuel c flags field_width precision qualifier args in
                vsn_loop n fuel fmt args
            end
      end
  end.
End output.

(** rt_vsnprintf *)
Definition rt_vsnprintf (fuel : nat) (buf size : Z) (fmt args : list Z) : M memory Z := fun m =>
  let end_ := u32 (buf + size - 1) in
  let end_ := if end_ <? buf then u32 (-1) else end_ in
  match vsn_loop end_ (S (length fmt)) fuel fmt args (mk_cursor m buf) with
  | Fail e => Fail e
  | Ret _ w => Ret (str w - buf) (put8 (if str w <=? end_ then str w else end_) 0 (cmem w))
  end.

(** rt_snprintf, rt_vsprintf and rt_sprintf *)
Definition rt_snprintf (fuel : nat) (buf size : Z) (fmt args : list Z) : M memory Z := rt_vsnprintf fuel buf size fmt args.
Definition rt_vsprintf (fuel : nat) (buf : Z) (fmt args : list Z) : M memory Z := rt_vsnprintf fuel buf (u32 (-1)) fmt args.
Definition rt_sprintf (fuel : nat) (buf : Z) (fmt args : list Z) : M memory Z := rt_vsprintf fuel buf fmt args.
