(* ===== verification/PrintfSpec.v ===== *)
(** What rt_vsnprintf writes: the text a format describes, cut to the buffer. *)

From Stdlib Require Import Ascii String.
From S2P Require Import Prelude Mem Printf.

Open Scope Z_scope.

(** * The text of a format *)

(** A number or a string *)
Inductive argument : Type := Word (w : Z) | Text (s : list Z).

Definition spaces (n : Z) : list Z := replicate (Z.to_nat n) (ch " ").
Definition zeros (n : Z) : list Z := replicate (Z.to_nat n) (ch "0").

(** The digits of [n] in base [b], the first one first; [fuel] is one less than their number. *)
Fixpoint numeral (fuel : nat) (b n : Z) : list Z :=
  match fuel with
  | O => [n mod b]
  | S fuel => if n <? b then [n] else numeral fuel b (n / b) ++ [n mod b]
  end.

Definition digit_char (large : bool) (d : Z) : Z := if d <? 10 then 48 + d else if large then 55 + d else 87 + d.

Definition len (l : list Z) : Z := Z.of_nat (length l).

(** Sign and digits with leading zeros up to the precision, in a field *)
Definition number_text (sign ds : list Z) (precision width : Z) (left zero : bool) : list Z :=
  let body := zeros (precision - len ds) ++ ds in
  let fill := width - len sign - len body in
  if left then sign ++ body ++ spaces fill
  else if zero then sign ++ zeros fill ++ body
  else spaces fill ++ sign ++ body.

Definition sign_text (flags num : Z) : list Z :=
  if has_flag flags SIGN then
    if num <? 0 then [ch "-"] else if has_flag flags PLUS then [ch "+"] else if has_flag flags SPACE then [ch " "] else []
  else [].

Definition magnitude (flags num : Z) : Z := if has_flag flags SIGN && (num <? 0) then - num else u32 num.

Definition format_number (base flags width precision num : Z) : list Z :=
  number_text (sign_text flags num) (digit_char (has_flag flags LARGE) <$> numeral 10 base (magnitude flags num))
    precision width (has_flag flags LEFT) (has_flag flags ZEROPAD).

Definition justified (s : list Z) (width : Z) (left : bool) : list Z :=
  if left then s ++ spaces (width - len s) else spaces (width - len s) ++ s.

(** An argument that has the kind the conversion asks for *)
Definition word_arg (args : list argument) : option (Z * list argument) :=
  match args with Word w :: args => Some (w, args) | _ => None end.
Definition text_arg (args : list argument) : option (list Z * list argument) :=
  match args with Text s :: args => Some (s, args) | _ => None end.

Definition short (n : Z) : bool := (- 2 ^ 30 <? n) && (n <? 2 ^ 30).

Definition number_arg (base flags width precision qualifier : Z) (args : list argument) : option (list Z * list argument) :=
  '(w, args) ← word_arg args;
  let num := if qualifier =? ch "h" then if has_flag flags SIGN then s16 w else u16 w else s32 w in
  Some (format_number base flags width precision num, args).

(** The text of one conversion.  The precision is the least number of digits of a number and the
    greatest number of characters of a string. *)
Definition format_one (c flags width precision qualifier : Z) (args : list argument) : option (list Z * list argument) :=
  if c =? ch "c" then
    '(w, args) ← word_arg args;
    Some (justified [u8 w] width (has_flag flags LEFT), args)
  else if c =? ch "s" then
    '(s, args) ← text_arg args;
    Some (justified (if precision <? 0 then s else take (Z.to_nat precision) s) width (has_flag flags LEFT), args)
  else if c =? ch "p" then
    '(w, args) ← word_arg args;
    let '(width, flags) := if width =? -1 then (8, Z.lor flags ZEROPAD) else (width, flags) in
    Some (format_number 16 flags width precision (s32 w), args)
  else if c =? ch "%" then Some ([ch "%"], args)
  else if c =? ch "o" then number_arg 8 flags width precision qualifier args
  else if c =? ch "X" then number_arg 16 (Z.lor flags LARGE) width precision qualifier args
  else if c =? ch "x" then number_arg 16 flags width precision qualifier args
  else if (c =? ch "d") || (c =? ch "i") then number_arg 10 (Z.lor flags SIGN) width precision qualifier args
  else if c =? ch "u" then number_arg 10 flags width precision qualifier args
  else Some ([ch "%"; c], args).

(** The decimal number at the beginning of a format *)
Fixpoint decimal (fmt : list Z) (i : Z) : Z * list Z :=
  match fmt with
  | [] => (i, [])
  | c :: fmt' => if isdigit c then decimal fmt' (i * 10 + c - ch "0") else (i, fmt)
  end.

Definition format_width (flags : Z) (fmt : list Z) (args : list argument) : option (Z * Z * list Z * list argument) :=
  if isdigit (peek fmt) then let '(w, fmt) := decimal fmt 0 in if short w then Some (w, flags, fmt, args) else None
  else if peek fmt =? ch "*" then
    '(a, args) ← word_arg args;
    if short (s32 a) then Some (Z.abs (s32 a), if s32 a <? 0 then Z.lor flags LEFT else flags, tail fmt, args) else None
  else Some (-1, flags, fmt, args).

Definition format_precision (fmt : list Z) (args : list argument) : option (Z * list Z * list argument) :=
  if peek fmt =? ch "." then
    let fmt := tail fmt in
    if isdigit (peek fmt) then let '(p, fmt) := decimal fmt 0 in if short p then Some (p, fmt, args) else None
    else if peek fmt =? ch "*" then '(a, args) ← word_arg args; if short (s32 a) then Some (Z.max 0 (s32 a), tail fmt, args) else None
    else Some (0, fmt, args)
  else Some (-1, fmt, args).

(** The text of a format, by the text [one] of a conversion; [None] when an argument is missing,
    has the wrong kind, or a width or precision is 2^30 or more. *)
Fixpoint format (one : Z -> Z -> Z -> Z -> Z -> list argument -> option (list Z * list argument))
    (n : nat) (fmt : list Z) (args : list argument) : option (list Z) :=
  match n with
  | O => None
  | S n =>
      match fmt with
      | [] => Some []
      | c :: fmt =>
          if negb (c =? ch "%") then rest ← format one n fmt args; Some (c :: rest)
          else
            let '(flags, fmt) := parse_flags fmt 0 in
            '(width, flags, fmt, args) ← format_width flags fmt args;
            '(precision, fmt, args) ← format_precision fmt args;
            let '(qualifier, fmt) := parse_qualifier fmt in
            match fmt with
            | [] => rest ← format one n [] args; Some (ch "%" :: rest)
            | c :: fmt =>
                '(t, args) ← one c flags width precision qualifier args;
                rest ← format one n fmt args;
                Some (t ++ rest)
            end
      end
  end.

(** What the format describes *)
Definition described (fmt : list Z) (args : list argument) : option (list Z) := format format_one (S (length fmt)) fmt args.

(** The conversions the code does as described: all but %o, which prints hexadecimal digits, and a
    string with the precision 0, which is not cut. *)
Definition regular_one (c flags width precision qualifier : Z) (args : list argument) : option (list Z * list argument) :=
  if (c =? ch "o") || (c =? ch "s") && (precision =? 0) then None else format_one c flags width precision qualifier args.
Definition regular (fmt : list Z) (args : list argument) : Prop := is_Some (format regular_one (S (length fmt)) fmt args).

Lemma regular_described c flags width precision q args r :
  regular_one c flags width precision q args = Some r -> format_one c flags width precision q args = Some r.
Proof. unfold regular_one. by destruct (_ || _). Qed.

Lemma regular_format n fmt args t : format regular_one n fmt args = Some t -> format format_one n fmt args = Some t.
Proof.
  revert fmt args t. induction n as [|n IH]; intros fmt args t; [done|]. cbn [format]. destruct fmt as [|c fmt]; [done|].
  destruct (negb _).
  { destruct (format regular_one n fmt args) as [r|] eqn:E; [|done]. by rewrite (IH _ _ _ E). }
  destruct (parse_flags fmt 0) as [flags fmt1]. destruct (format_width flags fmt1 args) as [[[[w fl] fmt2] args1]|]; [|done]. cbn [mbind option_bind].
  destruct (format_precision fmt2 args1) as [[[p fmt3] args2]|]; [|done]. cbn [mbind option_bind].
  destruct (parse_qualifier fmt3) as [q [|d fmt4]].
  { destruct (format regular_one n [] args2) as [r|] eqn:E; [|done]. by rewrite (IH _ _ _ E). }
  destruct (regular_one d fl w p q args2) as [[t1 args3]|] eqn:E1; [|done]. apply regular_described in E1. rewrite E1. cbn [mbind option_bind].
  destruct (format regular_one n fmt4 args3) as [r|] eqn:E; [|done]. by rewrite (IH _ _ _ E).
Qed.

(** * Digits *)

Definition value (b : Z) (ds : list Z) : Z := fold_left (fun n d => n * b + d) ds 0.

Section digits.
Implicit Types (n b d : Z) (ds : list Z).

Lemma value_snoc b ds d : value b (ds ++ [d]) = value b ds * b + d.
Proof. unfold value. by rewrite fold_left_app. Qed.

Lemma numeral_spec k b n : 1 < b -> 0 <= n < b ^ Z.of_nat (S k) ->
  value b (numeral k b n) = n /\ Forall (fun d => 0 <= d < b) (numeral k b n).
Proof.
  intros Hb. revert n. induction k as [|k IH]; intros n Hn; cbn [numeral].
  - rewrite Z.mod_small by (rewrite Z.pow_1_r in Hn; lia). rewrite Z.pow_1_r in Hn. unfold value. simpl. split; [done|by repeat constructor; lia].
  - destruct (Z.ltb_spec n b); [unfold value; simpl; split; [done|by repeat constructor; lia]|].
    rewrite (Nat2Z.inj_succ (S k)), Z.pow_succ_r in Hn by lia.
    destruct (IH (n / b)) as [IH1 IH2]; [split; [apply Z.div_pos; lia|apply Z.div_lt_upper_bound; lia]|].
    rewrite value_snoc, IH1. pose proof (Z.div_mod n b). pose proof (Z.mod_pos_bound n b). split; [lia|].
    apply Forall_app. split; [done|]. repeat constructor; lia.
Qed.

Lemma numeral_more k b n : 1 < b -> 0 <= n < b ^ Z.of_nat (S k) -> numeral (S k) b n = numeral k b n.
Proof.
  intros Hb. revert n. induction k as [|k IH]; intros n Hn.
  - rewrite Z.pow_1_r in Hn. cbn [numeral]. rewrite (proj2 (Z.ltb_lt _ _)) by lia. by rewrite Z.mod_small by lia.
  - rewrite (Nat2Z.inj_succ (S k)), Z.pow_succ_r in Hn by lia.
    change (numeral (S (S k)) b n) with (if n <? b then [n] else numeral (S k) b (n / b) ++ [n mod b]).
    change (numeral (S k) b n) with (if n <? b then [n] else numeral k b (n / b) ++ [n mod b]).
    rewrite IH; [done|]. split; [apply Z.div_pos; lia|apply Z.div_lt_upper_bound; lia].
Qed.

Lemma numeral_length k b n : (1 <= length (numeral k b n) <= S k)%nat.
Proof.
  revert n. induction k as [|k IH]; intros n; cbn [numeral]; [simpl; lia|].
  destruct (_ <? _); [simpl; lia|]. rewrite length_app. specialize (IH (n / b)). simpl. lia.
Qed.
End digits.

Definition the_base (base : Z) : Z := if base =? 10 then 10 else 16.

Lemma divide_spec num base :
  divide num base = (u32 num mod the_base base, u32 num / the_base base).
Proof.
  pose proof (u32_range num). unfold divide, the_base. destruct (base =? 10); f_equal; apply s32_small; Z.to_euclidean_division_equations; lia.
Qed.

Definition digits_of (large : bool) : list Z := if large then large_digits else small_digits.

Lemma digits_of_lookup large d : 0 <= d < 16 -> digits_of large !! Z.to_nat d = Some (digit_char large d).
Proof.
  intros Hd. assert (forallb (fun d => bool_decide (digits_of large !! Z.to_nat d = Some (digit_char large d))) (seqZ 0 16) = true) as H
    by (destruct large; vm_compute; reflexivity).
  rewrite forallb_forall in H. eapply bool_decide_eq_true, H, list_elem_of_In, elem_of_seqZ. lia.
Qed.

Lemma number_loop_spec k room num base large : (k < room)%nat -> 0 < u32 num < the_base base ^ Z.of_nat (S k) ->
  number_loop room num base (digits_of large) = Some (rev (digit_char large <$> numeral k (the_base base) (u32 num))).
Proof.
  assert (1 < the_base base <= 16) as Hb by (unfold the_base; destruct (base =? 10); lia).
  revert room num. induction k as [|k IH]; intros [|room] num Hr Hn; [lia| |lia|]; pose proof (u32_range num) as Hu.
  all: assert (num <> 0) by (intros ->; change (u32 0) with 0 in Hn; lia).
  all: cbn [number_loop]; rewrite (proj2 (Z.eqb_neq num 0)) by done; rewrite divide_spec.
  all: pose proof (Z.mod_pos_bound (u32 num) (the_base base)); rewrite digits_of_lookup by lia; cbn [mbind option_bind numeral].
  - rewrite Z.pow_1_r in Hn. rewrite Z.div_small by lia. destruct room; [|done]. done.
  - destruct (Z.ltb_spec (u32 num) (the_base base)).
    + rewrite Z.div_small, Z.mod_small by lia. destruct room; done.
    + rewrite (Nat2Z.inj_succ (S k)), Z.pow_succ_r in Hn by lia.
      assert (0 < u32 num / the_base base < the_base base ^ Z.of_nat (S k)) as Hd
        by (split; [apply Z.div_str_pos; lia|apply Z.div_lt_upper_bound; lia]).
      assert (u32 (u32 num / the_base base) = u32 num / the_base base) as E
        by (apply u32_small; split; [lia|]; apply Z.div_lt_upper_bound; nia).
      rewrite IH; rewrite ?E; [|lia|done]. cbn [mbind option_bind]. by rewrite fmap_app, rev_app_distr.
Qed.

Lemma number_tmp_spec num base large : - 2 ^ 31 <= num < 2 ^ 31 ->
  number_tmp num base (digits_of large) = Some (rev (digit_char large <$> numeral 10 (the_base base) (u32 num))).
Proof.
  intros Hn. unfold number_tmp. destruct (Z.eqb_spec num 0) as [->|].
  { change (u32 0) with 0. unfold the_base. by destruct (base =? 10), large. }
  apply number_loop_spec; [lia|]. pose proof (u32_range num) as Hu. split.
  - enough (u32 num <> 0) by lia. unfold u32. intros H%Z.mod_divide; [|lia]. destruct H as [q Hq]. lia.
  - eapply Z.lt_le_trans; [apply Hu|]. unfold the_base. by destruct (base =? 10).
Qed.

(** * Flags *)

Section flags.
Implicit Types (t : Z).

Lemma has_flag_bit t k : 0 <= k -> has_flag t (2 ^ k) = Z.testbit t k.
Proof.
  intros Hk. unfold has_flag. destruct (Z.testbit t k) eqn:E; [|rewrite negb_false_iff]; rewrite ?negb_true_iff.
  - apply Z.eqb_neq. intros H. apply (f_equal (fun x => Z.testbit x k)) in H.
    rewrite Z.land_spec, E, Z.pow2_bits_true, Z.bits_0 in H by lia. done.
  - apply Z.eqb_eq, Z.bits_inj'. intros n Hn. rewrite Z.land_spec, Z.bits_0. destruct (decide (n = k)) as [->|]; [by rewrite E|].
    rewrite Z.pow2_bits_false by lia. apply andb_false_r.
Qed.

Lemma has_flag_lor t f g : has_flag t (Z.lor f g) = has_flag t f || has_flag t g.
Proof.
  unfold has_flag. rewrite Z.land_lor_distr_r, <- negb_andb. f_equal. apply eq_true_iff_eq.
  rewrite andb_true_iff, !Z.eqb_eq. apply Z.lor_eq_0_iff.
Qed.

Lemma has_flag_clear t k : 0 < k -> has_flag (Z.land t (Z.lnot ZEROPAD)) (2 ^ k) = has_flag t (2 ^ k).
Proof.
  intros Hk. rewrite !has_flag_bit, Z.land_spec, Z.lnot_spec by lia. change ZEROPAD with (2 ^ 0).
  rewrite Z.pow2_bits_false by lia. apply andb_true_r.
Qed.

Lemma has_flag_cleared t : has_flag (Z.land t (Z.lnot ZEROPAD)) ZEROPAD = false.
Proof. change ZEROPAD with (2 ^ 0) at 2. rewrite has_flag_bit, Z.land_spec by lia. apply andb_false_r. Qed.
End flags.

(** * The output *)

(** The characters of [l] from [a] on *)
Fixpoint write_list (a : Z) (l : list Z) (m : memory) : memory :=
  match l with
  | [] => m
  | c :: l => write_list (a + 1) l (put8 a c m)
  end.

Lemma write_list_snoc a l c m : write_list a (l ++ [c]) m = put8 (a + len l) c (write_list a l m).
Proof.
  revert a m. induction l as [|d l IH]; intros a m; simpl; [by rewrite Z.add_0_r|].
  rewrite IH. f_equal. unfold len. simpl. lia.
Qed.

Lemma write_list_out a l m b : b < a \/ a + len l <= b -> write_list a l m b = m b.
Proof.
  revert a m. induction l as [|d l IH]; intros a m Hb; simpl; [done|]. unfold len in *. simpl in Hb.
  rewrite IH by lia. rewrite put8_lookup, decide_False by lia. done.
Qed.

Section output.
Context (m0 : memory) (buf size : Z).
Hypothesis size_pos : 0 < size.
Notation end_ := (buf + size - 1).
Implicit Types (out t : list Z) (w : cursor).

(** [out] has been written, as far as there is room. *)
Definition written out w : Prop :=
  cmem w = write_list buf (take (Z.to_nat size) out) m0 /\
  (str w = buf + len out \/ end_ < str w /\ end_ < buf + len out).

Lemma len_app l1 l2 : len (l1 ++ l2) = len l1 + len l2.
Proof. unfold len. rewrite length_app. lia. Qed.

Lemma len_nonneg l : 0 <= len l.
Proof. unfold len. lia. Qed.

(** Behind the end of the buffer it does not matter what is written. *)
Lemma written_beyond out t t' w : end_ < buf + len out -> written (out ++ t) w -> written (out ++ t') w.
Proof.
  intros Hb [Hm Hs]. rewrite len_app in Hs. pose proof (len_nonneg t). pose proof (len_nonneg t'). unfold len in *. split.
  - rewrite Hm. rewrite !take_app_le by lia. done.
  - right. rewrite len_app. unfold len. lia.
Qed.

Lemma put_spec c out w : written out w -> wp (put end_ c) (fun _ w' => written (out ++ [c]) w') w.
Proof.
  intros [Hm Hs]. unfold put. apply wp_modify. unfold written. cbn [cmem str]. rewrite len_app. change (len [c]) with 1.
  destruct (Z.leb_spec (str w) end_) as [Hle|Hgt].
  - assert (str w = buf + len out) as E by lia. unfold len in *. split; [|lia]. rewrite Hm, !take_ge by (rewrite ?length_app; simpl; lia).
    by rewrite E, write_list_snoc.
  - unfold len in *. split; [|lia]. rewrite Hm, take_app_le by lia. done.
Qed.

Lemma put_all_spec t out w : written out w -> wp (put_all end_ t) (fun _ w' => written (out ++ t) w') w.
Proof.
  revert out w. induction t as [|c t IH]; intros out w Hw; cbn [put_all]; [apply wp_ret; by rewrite app_nil_r|].
  wp_use (put_spec c out w Hw). intros [] w' Hw'. eapply wp_mono; [by apply IH|]. cbv beta. intros _ w2. by rewrite <- app_assoc.
Qed.

Lemma pad_loop_spec n fuel lim x c out w : (n < fuel)%nat -> - 2 ^ 31 < x < 2 ^ 31 -> Z.to_nat (x - lim) = n -> -2 ^ 31 < lim ->
  written out w -> wp (pad_loop end_ fuel lim x c) (fun r w' => r = Z.min x lim - 1 /\ written (out ++ replicate n c) w') w.
Proof.
  revert fuel x out w. induction n as [|n IH]; intros [|fuel] x out w Hf Hx En Hl Hw; [lia| |lia|]; cbn [pad_loop].
  - rewrite (proj2 (Z.ltb_ge _ _)) by lia. apply wp_ret. rewrite s32_small by lia. simpl. rewrite app_nil_r. split; [lia|done].
  - rewrite (proj2 (Z.ltb_lt _ _)) by lia. wp_use (put_spec c out w Hw). intros [] w' Hw'. rewrite s32_small by lia.
    eapply wp_mono; [apply (IH fuel (x - 1) (out ++ [c]) w'); [lia..|done]|]. cbv beta. intros r w2 [-> H2]. rewrite <- app_assoc in H2. split; [lia|done].
Qed.

Lemma pad_spec lim x c out w : - 2 ^ 31 < x < 2 ^ 31 -> - 2 ^ 31 < lim -> written out w ->
  wp (pad end_ lim x c) (fun r w' => r = Z.min x lim - 1 /\ written (out ++ replicate (Z.to_nat (x - lim)) c) w') w.
Proof. intros. unfold pad. apply pad_loop_spec; [lia|done..]. Qed.

Lemma pad_char_loop_spec n fuel x out w : (n < fuel)%nat -> - 2 ^ 31 < x < 2 ^ 31 -> Z.to_nat (x - 1) = n ->
  written out w -> wp (pad_char_loop end_ fuel x) (fun r w' => r = Z.min 0 (x - 1) /\ written (out ++ replicate n (ch " ")) w') w.
Proof.
  revert fuel x out w. induction n as [|n IH]; intros [|fuel] x out w Hf Hx En Hw; [lia| |lia|]; cbn [pad_char_loop]; rewrite s32_small, Z.gtb_ltb by lia.
  - rewrite (proj2 (Z.ltb_ge _ _)) by lia. apply wp_ret. simpl. rewrite app_nil_r. split; [lia|done].
  - rewrite (proj2 (Z.ltb_lt _ _)) by lia. wp_use (put_spec _ out w Hw). intros [] w' Hw'.
    eapply wp_mono; [apply (IH fuel (x - 1) (out ++ [ch " "]) w'); [lia..|done]|]. cbv beta. intros r w2 [-> H2]. rewrite <- app_assoc in H2. split; [lia|done].
Qed.

Lemma pad_char_spec x out w : - 2 ^ 31 < x < 2 ^ 31 -> written out w ->
  wp (pad_char end_ x) (fun r w' => r = Z.min 0 (x - 1) /\ written (out ++ spaces (x - 1)) w') w.
Proof. intros Hx Hw. unfold pad_char. rewrite s32_small by lia. apply pad_char_loop_spec; [lia|done..]. Qed.

(** ** print_number *)

Lemma replicate_spaces n x : Z.to_nat x = n -> replicate n (ch " ") = spaces x.
Proof. unfold spaces. by intros ->. Qed.

(** What follows the sign, with [x] characters to fill up *)
Definition digits_field (left zero : bool) (x : Z) (tmp : list Z) (precision : Z) : list Z :=
  (if left then [] else if zero then zeros x else spaces x) ++ zeros (precision - len tmp) ++ rev tmp ++ (if left then spaces x else []).

Lemma digits_field_spec (left zero : bool) x tmp precision out w : - 2 ^ 31 + 2 < x < 2 ^ 31 -> - 2 ^ 31 < precision < 2 ^ 31 -> written out w ->
  wp (let! size := (if negb left then pad end_ 0 x (if zero then ch "0" else ch " ") else ret x) in
      let! _precision := pad end_ (Z.of_nat (length tmp)) precision (ch "0") in
      put_all end_ (rev tmp) ;!
      let! _size := pad end_ 0 size (ch " ") in
      ret tt) (fun _ w' => written (out ++ digits_field left zero x tmp precision) w') w.
Proof.
  intros Hx Hp Hw. wp_step.
  apply wp_mono with (fun (r : Z) w' => (r = if left then x else Z.min x 0 - 1) /\
    written (out ++ (if left then [] else if zero then zeros x else spaces x)) w').
  { destruct left; cbn [negb]; [apply wp_ret; by rewrite app_nil_r|].
    eapply wp_mono; [apply pad_spec; [lia|lia|exact Hw]|]. cbv beta. intros r w' [-> H]. rewrite Z.sub_0_r in H. split; [lia|]. by destruct zero. }
  intros r w1 [-> H1]. wp_use (pad_spec (Z.of_nat (length tmp)) precision (ch "0") _ w1); [lia|lia|exact H1|]. intros _ w2 [_ H2].
  wp_use (put_all_spec (rev tmp) _ w2 H2). intros [] w3 H3.
  wp_use (pad_spec 0 _ (ch " ") _ w3); [destruct left; lia|lia|exact H3|]. intros _ w4 [_ H4]. apply wp_ret.
  unfold digits_field. rewrite <- !app_assoc in H4. rewrite Z.sub_0_r in H4. destruct left; [done|].
  rewrite (Z2Nat.nonpos (Z.min x 0 - 1)) in H4 by lia. done.
Qed.

(** The sign, as a character or 0, and the number without it *)
Definition sign_of (type num : Z) : Z * Z :=
  if has_flag type SIGN then
    if num <? 0 then (ch "-", s32 (- num))
    else if has_flag type PLUS then (ch "+", num)
    else if has_flag type SPACE then (ch " ", num)
    else (0, num)
  else (0, num).

Lemma sign_of_spec type num : - 2 ^ 31 <= num < 2 ^ 31 -> let '(sign, n) := sign_of type num in
  sign_text type num = (if sign =? 0 then [] else [sign]) /\ u32 n = magnitude type num /\ - 2 ^ 31 <= n < 2 ^ 31.
Proof.
  intros Hn. unfold sign_of, sign_text, magnitude. destruct (has_flag type SIGN); [|done]. destruct (Z.ltb_spec num 0); simpl.
  - split_and!; [done|rewrite u32_s32; apply u32_small; lia|unfold s32; pose proof (Z.mod_pos_bound (- num + 2 ^ 31) (2 ^ 32)); lia..].
  - destruct (has_flag type PLUS), (has_flag type SPACE); done.
Qed.

(** The field of a number is its padding, the sign and the digits. *)
Lemma number_text_fields sign tmp precision s (left zero : bool) :
  let p := Z.max (len tmp) precision in let x := s - p in
  number_text (if sign =? 0 then [] else [sign]) (rev tmp) precision s left zero =
    if sign =? 0 then
      (if left || zero then [] else spaces x) ++ digits_field left zero (if left || zero then x else Z.min x 0 - 1) tmp p
    else
      (if left || zero then [] else spaces (x - 1)) ++ [sign] ++
      digits_field left zero (if left || zero then x - 1 else Z.min (x - 1) 0 - 2) tmp p.
Proof.
  intros p x. unfold number_text, digits_field.
  assert (len (rev tmp) = len tmp) as -> by (unfold len; by rewrite length_rev).
  assert (zeros (precision - len tmp) = zeros (p - len tmp)) as -> by (unfold zeros; f_equal; lia).
  rewrite len_app. assert (len (rev tmp) = len tmp) as -> by (unfold len; by rewrite length_rev).
  assert (Z.max 0 (p - len tmp) + len tmp = p) as Ep by (pose proof (len_nonneg tmp); lia).
  assert (len (zeros (p - len tmp)) = Z.max 0 (p - len tmp)) as -> by (unfold len, zeros; rewrite length_replicate; lia).
  assert (forall y, y <= 0 -> spaces y = []) as Hs by (intros y Hy; unfold spaces; by rewrite Z2Nat.nonpos).
  rewrite Ep.
  destruct (Z.eqb_spec sign 0); [change (len []) with 0|change (len [sign]) with 1]; rewrite ?Z.sub_0_r;
    replace (s - 1 - p) with (x - 1) by lia; change (s - p) with x;
    destruct left, zero; simpl; rewrite ?app_nil_r, ?(Hs (Z.min _ _ - _)) by lia; simpl; by rewrite <- ?app_assoc.
Qed.

Lemma digits_field_neg left zero x y tmp p : x <= 0 -> y <= 0 -> digits_field left zero x tmp p = digits_field left zero y tmp p.
Proof. intros Hx Hy. unfold digits_field, zeros, spaces. by rewrite !(Z2Nat.nonpos x), !(Z2Nat.nonpos y) by done. Qed.

Lemma print_number_spec num base s precision type out w :
  - 2 ^ 31 <= num < 2 ^ 31 -> -1 <= s < 2 ^ 30 -> -1 <= precision < 2 ^ 30 -> written out w ->
  wp (print_number end_ num base s precision type) (fun _ w' =>
    written (out ++ format_number (the_base base) type s precision num) w') w.
Proof.
  intros Hn Hs Hp Hw. unfold print_number. fold (digits_of (has_flag type LARGE)).
  set (type1 := if has_flag type LEFT then _ else type).
  assert (forall k, 0 < k -> has_flag type1 (2 ^ k) = has_flag type (2 ^ k)) as Hfl
    by (intros k Hk; unfold type1; destruct (has_flag type LEFT); [by apply has_flag_clear|done]).
  fold (sign_of type1 num).
  assert (has_flag type1 SIGN = has_flag type SIGN) as F1 by (apply (Hfl 1); lia).
  assert (has_flag type1 PLUS = has_flag type PLUS) as F2 by (apply (Hfl 2); lia).
  assert (has_flag type1 SPACE = has_flag type SPACE) as F3 by (apply (Hfl 3); lia).
  assert (sign_of type1 num = sign_of type num) as -> by (unfold sign_of; by rewrite F1, F2, F3).
  assert (has_flag type1 LEFT = has_flag type LEFT) as HL by (apply (Hfl 4); lia).
  set (left := has_flag type LEFT) in *. set (zero := negb left && has_flag type ZEROPAD).
  assert (has_flag type1 ZEROPAD = zero) as HZ by (unfold zero, type1; destruct left; [apply has_flag_cleared|done]).
  rewrite has_flag_lor, HL, HZ. unfold format_number. fold left.
  pose proof (sign_of_spec type num Hn) as Hsg. destruct (sign_of type num) as [sign n]. destruct Hsg as (-> & <- & Hn').
  wp_step. eapply wp_of_option; [by apply number_tmp_spec|].
  set (ds := digit_char _ <$> _). set (tmp := rev ds).
  assert (len tmp <= 11) as Hlen.
  { unfold len, tmp, ds. rewrite length_rev, length_fmap. pose proof (numeral_length 10 (the_base base) (u32 n)). lia. }
  assert ((if Z.of_nat (length tmp) >? precision then Z.of_nat (length tmp) else precision) = Z.max (len tmp) precision) as ->
    by (unfold len; destruct (Z.gtb_spec (Z.of_nat (length tmp)) precision); lia).
  rewrite (s32_small (s - _)) by (pose proof (len_nonneg tmp); lia).
  pose proof (number_text_fields sign tmp precision s left zero) as Ht. cbv zeta in Ht.
  assert (rev tmp = ds) as Er by apply rev_involutive. rewrite Er in Ht.
  assert (number_text (if sign =? 0 then [] else [sign]) ds precision s left (has_flag type ZEROPAD) =
    number_text (if sign =? 0 then [] else [sign]) ds precision s left zero) as -> by (unfold number_text, zero; by destruct left).
  rewrite Ht. clear Ht. pose proof (len_nonneg tmp) as Hl0.
  set (p := Z.max (len tmp) precision) in *. set (x := s - p) in *. assert (-2^31 + 8 < x < 2 ^ 30) as Hx by lia.
  set (x1 := if negb (sign =? 0) && (x >? 0) then s32 (x - 1) else x).
  assert (x1 = if negb (sign =? 0) && (x >? 0) then x - 1 else x) as Ex1 by (unfold x1; by rewrite s32_small by lia). clearbody x1.
  assert (spaces x1 = if sign =? 0 then spaces x else spaces (x - 1)) as Esp.
  { rewrite Ex1. destruct (sign =? 0); simpl; [done|]. destruct (Z.gtb_spec x 0); [done|]. unfold spaces. by rewrite !Z2Nat.nonpos by lia. }
  assert (x - 1 <= x1 <= x) as Hx1 by (rewrite Ex1; destruct (negb (sign =? 0) && (x >? 0)); lia).
  wp_step. apply wp_mono with (fun (r : Z) w' => r = (if left || zero then x else Z.min x1 0 - 1) /\
    written (out ++ (if left || zero then [] else spaces x1)) w').
  { rewrite orb_comm. destruct (left || zero); cbn [negb]; [apply wp_ret; by rewrite app_nil_r|].
    eapply wp_mono; [apply pad_spec; [lia|lia|exact Hw]|]. cbv beta. intros r w' [-> H]. by rewrite Z.sub_0_r in H. }
  intros y w1 [Ey H1]. wp_step. apply wp_get. wp_step.
  assert (- 2 ^ 31 + 4 < y < 2 ^ 30) as Hy by (subst y; destruct (left || zero); lia).
  destruct (Z.eqb_spec sign 0) as [->|Hne]; cbn [negb].
  - apply wp_ret. eapply wp_mono; [apply (digits_field_spec left zero y tmp p (out ++ (if left || zero then [] else spaces x1)) w1); [lia|lia|exact H1]|]. cbv beta. intros _ w2 H2.
    rewrite <- app_assoc in H2. subst y. rewrite Esp in H2. destruct (left || zero); [done|]. by rewrite Ex1 in H2.
  - wp_use (put_spec sign _ w1 H1). intros [] w2 H2. apply wp_ret.
    destruct (Z.leb_spec (str w1) end_) as [Hroom|Hfull].
    + rewrite s32_small by lia. eapply wp_mono; [apply (digits_field_spec left zero (y - 1) tmp p ((out ++ (if left || zero then [] else spaces x1)) ++ [sign]) w2); [lia|lia|exact H2]|].
      cbv beta. intros _ w3 H3. rewrite <- !app_assoc in H3. subst y. rewrite Esp in H3. destruct (left || zero); [done|].
      by rewrite (digits_field_neg left zero (Z.min x1 0 - 1 - 1) (Z.min (x - 1) 0 - 2)) in H3 by lia.
    + eapply wp_mono; [apply (digits_field_spec left zero y tmp p ((out ++ (if left || zero then [] else spaces x1)) ++ [sign]) w2); [lia|lia|exact H2]|].
      cbv beta. intros _ w3 H3. rewrite <- app_assoc in H3.
      assert (end_ < buf + len (out ++ (if left || zero then [] else spaces x1))) as Hb by (destruct H1 as [_ [?|?]]; lia).
      apply (written_beyond _ _ ([sign] ++ digits_field left zero (if left || zero then x - 1 else Z.min (x - 1) 0 - 2) tmp p)) in H3; [|done].
      rewrite <- app_assoc, Esp in H3. by destruct (left || zero).
Qed.

(** ** The conversions *)

Context (fuel : nat).

(** The word that is passed for an argument; a string lies outside the buffer. *)
Inductive passes : argument -> Z -> Prop :=
| passes_word x : passes (Word x) x
| passes_null : passes (Text (text "(NULL)")) 0
| passes_text s a : a <> 0 -> string_at m0 a (length s) -> region m0 a (length s) = s -> (length s < fuel)%nat ->
    a + len s < buf \/ buf + size <= a -> passes (Text s) a.

Lemma written_other out w a : written out w -> a < buf \/ buf + size <= a -> cmem w a = m0 a.
Proof. intros [-> _] Ha. apply write_list_out. unfold len. rewrite length_take. lia. Qed.

Lemma region_ext m m' a n : (forall b, a <= b < a + Z.of_nat n -> m' b = m b) -> region m' a n = region m a n.
Proof. intros H. unfold region. apply list_fmap_ext. intros i x Hi%list_elem_of_lookup_2%elem_of_seq. apply H. lia. Qed.

Lemma copy_string_spec n a out w : a + Z.of_nat n < buf \/ buf + size <= a -> written out w ->
  wp (copy_string end_ n a) (fun _ w' => written (out ++ region m0 a n) w') w.
Proof.
  revert a out w. induction n as [|n IH]; intros a out w Ha Hw; cbn [copy_string]; [apply wp_ret; by rewrite app_nil_r|].
  wp_step. apply wp_get. rewrite (written_other out w a Hw) by lia. wp_use (put_spec _ _ w Hw). intros [] w1 H1.
  eapply wp_mono; [apply (IH (a + 1) (out ++ [m0 a]) w1); [lia|exact H1]|]. cbv beta. intros _ w2. rewrite <- app_assoc. by rewrite region_S.
Qed.

Lemma justified_fields t width (left : bool) :
  justified t width left = (if left then [] else spaces (width - len t)) ++ t ++ (if left then spaces (width - len t) else []).
Proof. unfold justified. destruct left; by rewrite ?app_nil_r. Qed.

Lemma convert_char_spec flags width x words out w : -1 <= width < 2 ^ 30 -> written out w ->
  wp (convert_char end_ flags width (x :: words)) (fun r w' => r = words /\
    written (out ++ justified [u8 x] width (has_flag flags LEFT)) w') w.
Proof.
  intros Hwd Hw. unfold convert_char. set (left := has_flag flags LEFT).
  wp_step. apply wp_mono with (fun (r : Z) w' => r = (if left then width else Z.min 0 (width - 1)) /\
    written (out ++ (if left then [] else spaces (width - 1))) w').
  { destruct left; cbn [negb]; [apply wp_ret; by rewrite app_nil_r|]. apply pad_char_spec; [lia|done]. }
  intros y w1 [-> H1]. wp_step. eapply wp_of_option; [reflexivity|]. cbn [fst snd]. wp_use (put_spec _ _ w1 H1). intros [] w2 H2.
  wp_use (pad_char_spec (if left then width else Z.min 0 (width - 1)) ((out ++ (if left then [] else spaces (width - 1))) ++ [u8 x]) w2); [destruct left; lia|exact H2|]. intros _ w3 [_ H3].
  apply wp_ret. split; [done|]. rewrite justified_fields. change (len [u8 x]) with 1. rewrite <- !app_assoc in H3. destruct left; [done|].
  unfold spaces at 2 in H3. by rewrite Z2Nat.nonpos in H3 by lia.
Qed.

Lemma string_at_ext m m' a n : (forall b, a <= b <= a + Z.of_nat n -> m' b = m b) -> string_at m a n -> string_at m' a n.
Proof. intros H [H1 H2]. split; [rewrite (region_ext m) by (intros; apply H; lia); done|]. rewrite H by lia. done. Qed.

(** The characters of a string argument, at most [n] *)
Lemma string_arg_spec s x out w n : passes (Text s) x -> written out w -> (n <= length s)%nat ->
  wp (if x =? 0 then put_all end_ (take n (text "(NULL)")) else copy_string end_ n x) (fun _ w' => written (out ++ take n s) w') w.
Proof.
  intros Hp Hw Hn. inversion Hp as [|E|s' a Hx Hs Hr Hf Ha]; subst; [by apply put_all_spec|]. rewrite (proj2 (Z.eqb_neq x 0)) by done.
  eapply wp_mono; [apply (copy_string_spec n x out w); [unfold len in Ha; lia|done]|]. cbv beta. intros _ w'.
  assert (region m0 x n = take n s) as ->; [|done]. rewrite <- Hr. unfold region. rewrite <- fmap_take, take_seq, Nat.min_l by done. done.
Qed.

Lemma string_len_spec s x out w (Phi : Z -> cursor -> Prop) : passes (Text s) x -> written out w -> Phi (len s) w ->
  wp (if x =? 0 then ret (Z.of_nat (length (text "(NULL)")))
      else fun w => match rt_strlen fuel x (cmem w) with Ret n _ => Ret n w | Fail e => Fail e end) Phi w.
Proof.
  intros Hp Hw HPhi. inversion Hp as [|E|s' a Hx Hs Hr Hf Ha]; subst; [by apply wp_ret|]. rewrite (proj2 (Z.eqb_neq x 0)) by done.
  assert (string_at (cmem w) x (length s)) as Hs' by (apply (string_at_ext m0); [intros b Hb; apply (written_other out); [done|unfold len in Ha; lia]|done]).
  pose proof (rt_strlen_spec fuel (cmem w) x (length s) Hs' Hf) as (r & m' & E & -> & ->)%wp_Ret. unfold wp. by rewrite E.
Qed.

Lemma convert_string_spec flags width precision s x words out w :
  -1 <= width < 2 ^ 30 -> passes (Text s) x -> written out w ->
  wp (convert_string end_ fuel flags width precision (x :: words)) (fun r w' => r = words /\
    written (out ++ justified (if precision >? 0 then take (Z.to_nat precision) s else s) width (has_flag flags LEFT)) w') w.
Proof.
  intros Hwd Hp Hw. unfold convert_string. set (left := has_flag flags LEFT).
  wp_step. eapply wp_of_option; [reflexivity|]. cbn [fst snd]. wp_step. eapply string_len_spec; [done|done|].
  set (s1 := if precision >? 0 then take (Z.to_nat precision) s else s).
  assert ((if (precision >? 0) && (len s >? precision) then precision else len s) = len s1) as ->.
  { unfold s1, len. destruct (Z.gtb_spec precision 0); simpl; [|done]. rewrite length_take. destruct (Z.gtb_spec (Z.of_nat (length s)) precision); lia. }
  assert (take (Z.to_nat (len s1)) s = s1) as Es1.
  { unfold s1, len. rewrite Nat2Z.id. destruct (precision >? 0); [|by rewrite take_ge]. rewrite length_take.
    destruct (decide (Z.to_nat precision <= length s)%nat); [by rewrite Nat.min_l|]. by rewrite Nat.min_r, !take_ge by lia. }
  assert (Z.to_nat (len s1) <= length s)%nat as Hl1 by (apply (f_equal length) in Es1; rewrite length_take in Es1; unfold len in *; lia).
  pose proof (len_nonneg s1) as Hl0.
  wp_step. apply wp_mono with (fun (r : Z) w' => r = (if left then width else Z.min width (len s1) - 1) /\
    written (out ++ (if left then [] else spaces (width - len s1))) w').
  { destruct left; cbn [negb]; [apply wp_ret; by rewrite app_nil_r|]. eapply wp_mono; [apply (pad_spec (len s1) width); [lia|lia|done]|]. done. }
  intros y w1 [-> H1]. wp_use (string_arg_spec s x _ w1 (Z.to_nat (len s1)) Hp H1 Hl1). rewrite Es1. intros _ w2 H2.
  wp_use (pad_spec (len s1) (if left then width else Z.min width (len s1) - 1) (ch " ") _ w2); [destruct left; lia|lia|exact H2|].
  intros _ w3 [_ H3]. apply wp_ret. split; [done|]. rewrite justified_fields. rewrite <- !app_assoc in H3. destruct left; [done|].
  by rewrite Z2Nat.nonpos in H3 by lia.
Qed.

Lemma s16_u16 x : s16 (u16 x) = s16 x.
Proof. unfold s16, u16. rewrite Zplus_mod, Zmod_mod, <- Zplus_mod. done. Qed.

Lemma s32_range x : - 2 ^ 31 <= s32 x < 2 ^ 31.
Proof. unfold s32. pose proof (Z.mod_pos_bound (x + 2 ^ 31) (2 ^ 32)). lia. Qed.

Lemma s16_range x : - 2 ^ 15 <= s16 x < 2 ^ 15.
Proof. unfold s16. pose proof (Z.mod_pos_bound (x + 2 ^ 15) (2 ^ 16)). lia. Qed.

Lemma convert_number_spec base flags width precision q x words out w :
  -1 <= width < 2 ^ 30 -> -1 <= precision < 2 ^ 30 -> written out w ->
  wp (convert_number end_ base flags width precision q (x :: words)) (fun r w' => r = words /\ exists t,
    number_arg (the_base base) flags width precision q [Word x] = Some (t, []) /\ written (out ++ t) w') w.
Proof.
  intros Hwd Hp Hw. unfold convert_number. wp_step. eapply wp_of_option; [reflexivity|]. cbn [fst snd].
  set (num := if q =? ch "h" then _ else _).
  assert (s32 num = if q =? ch "h" then if has_flag flags SIGN then s16 x else u16 x else s32 x) as ->.
  { unfold num. pose proof (u16_range x). pose proof (s16_range x). pose proof (s32_range x).
    destruct (q =? ch "h"), (has_flag flags SIGN); rewrite ?s32_u32, ?s16_u16; first [done|apply s32_small; lia]. }
  wp_use (print_number_spec _ base width precision flags out w); [|lia|lia|done|].
  { pose proof (u16_range x). pose proof (s16_range x). pose proof (s32_range x). destruct (q =? ch "h"); [destruct (has_flag flags SIGN)|]; lia. }
  intros [] w1 H1. apply wp_ret. split; [done|]. eexists. split; [reflexivity|done].
Qed.

Lemma convert_spec c flags width precision q args words t args' out w :
  -1 <= width < 2 ^ 30 -> -1 <= precision < 2 ^ 30 -> Forall2 passes args words -> written out w ->
  regular_one c flags width precision q args = Some (t, args') ->
  wp (convert end_ fuel c flags width precision q words) (fun r w' => Forall2 passes args' r /\ written (out ++ t) w') w.
Proof.
  intros Hwd Hp Ha Hw. unfold regular_one. destruct (_ || _) eqn:Hreg; [done|]. apply orb_false_iff in Hreg as [Ho Hs0].
  unfold format_one, convert. rewrite Ho.
  assert (forall base flags, number_arg (the_base base) flags width precision q args = Some (t, args') ->
    wp (convert_number end_ base flags width precision q words) (fun r w' => Forall2 passes args' r /\ written (out ++ t) w') w) as Hnum.
  { intros base fl. destruct Ha as [|[x|s] a args words Hpx Ha]; [done| |done]. inversion Hpx; subst. intros Ht.
    eapply wp_mono; [by apply (convert_number_spec base fl width precision q)|]. cbv beta. intros r w' (-> & t' & Et & H').
    unfold number_arg in Et, Ht. simpl in Et, Ht. simplify_eq. done. }
  destruct (c =? ch "c").
  { destruct Ha as [|[x|s] a args words Hpx Ha]; [done| |done]. inversion Hpx; subst. intros [= <- <-].
    eapply wp_mono; [by apply (convert_char_spec flags width)|]. cbv beta. by intros r w' [-> H']. }
  destruct (c =? ch "s").
  { destruct Ha as [|[x|s] a args words Hpx Ha]; [done|done|]. intros [= <- <-]. apply Z.eqb_neq in Hs0.
    eapply wp_mono; [by apply (convert_string_spec flags width precision s)|]. cbv beta. intros r w' [-> H'].
    destruct (Z.gtb_spec precision 0), (Z.ltb_spec precision 0); try lia; done. }
  destruct (c =? ch "p").
  { destruct Ha as [|[x|s] a args words Hpx Ha]; [done| |done]. inversion Hpx; subst. unfold convert_pointer. cbn [word_arg mbind option_bind].
    set (wf := if width =? -1 then _ else _). assert (-1 <= wf.1 < 2 ^ 30) as Hwf by (unfold wf; destruct (width =? -1); simpl; lia).
    destruct wf as [width' flags']. intros [= <- <-]. wp_step. eapply wp_of_option; [reflexivity|]. cbn [fst snd] in *.
    wp_use (print_number_spec (s32 a) 16 width' precision flags' out w); [apply s32_range|lia|lia|done|]. intros [] w1 H1. by apply wp_ret. }
  destruct (c =? ch "%").
  { intros [= <- <-]. wp_use (put_spec _ _ w Hw). intros [] w1 H1. by apply wp_ret. }
  destruct (c =? ch "X"); [apply (Hnum 16)|]. destruct (c =? ch "x"); [apply (Hnum 16)|].
  destruct (_ || _); [apply (Hnum 10)|]. destruct (c =? ch "u"); [apply (Hnum 10)|].
  intros [= <- <-]. wp_use (put_spec _ _ w Hw). intros [] w1 H1. wp_use (put_spec _ _ w1 H1). intros [] w2 H2. apply wp_ret.
  split; [done|]. by rewrite <- app_assoc in H2.
Qed.

(** ** The format *)

Definition string_chars (fmt : list Z) : Prop := Forall (fun c => 0 < c < 256) fmt.

Lemma string_chars_tail fmt : string_chars fmt -> string_chars (tail fmt).
Proof. destruct 1; [constructor|done]. Qed.

Lemma parse_flags_chars fmt flags : string_chars fmt -> string_chars (parse_flags fmt flags).2.
Proof.
  intros H. revert flags. induction H as [|c fmt Hc H IH]; intros flags; simpl; [constructor|].
  repeat (destruct (_ =? _); [apply IH|]). by constructor.
Qed.

Lemma isdigit_range c : 0 < c < 256 -> isdigit c = true -> 0 <= c - ch "0" < 10.
Proof.
  unfold isdigit. change (ch "0") with 48. intros Hc Hd%Z.ltb_lt. destruct (decide (0 <= c - 48)); [rewrite u32_small in Hd by lia; lia|].
  assert (u32 (c - 48) = c - 48 + 2 ^ 32) as E by (unfold u32; symmetry; apply (Z.mod_unique_pos _ _ (-1)); lia). lia.
Qed.

Lemma decimal_spec fmt i : string_chars fmt -> 0 <= i -> let '(n, fmt') := decimal fmt i in
  i <= n /\ string_chars fmt' /\ (n < 2 ^ 30 -> skip_atoi fmt i = (n, fmt')).
Proof.
  intros H. revert i. induction H as [|c fmt Hc H IH]; intros i Hi; cbn [decimal skip_atoi]; [by split_and!; [lia|constructor|]|].
  destruct (isdigit c) eqn:E; [|split_and!; [lia|by constructor|done]]. pose proof (isdigit_range c Hc E) as Hd.
  specialize (IH (i * 10 + c - ch "0") ltac:(lia)). destruct (decimal _ _) as [n fmt']. destruct IH as (I1 & I2 & I3).
  split_and!; [lia|done|]. intros Hn. rewrite s32_small by lia. by apply I3.
Qed.

Lemma short_range n : short n = true -> - 2 ^ 30 < n < 2 ^ 30.
Proof. unfold short. intros [H1%Z.ltb_lt H2%Z.ltb_lt]%andb_true_iff. lia. Qed.

Lemma parse_width_spec flags fmt args words width fl fmt' args' : string_chars fmt -> Forall2 passes args words ->
  format_width flags fmt args = Some (width, fl, fmt', args') ->
  -1 <= width < 2 ^ 30 /\ string_chars fmt' /\ exists words', Forall2 passes args' words' /\
    parse_width flags fmt words = Some (width, fl, fmt', words').
Proof.
  intros Hc Ha. unfold format_width, parse_width. destruct (isdigit _).
  - pose proof (decimal_spec fmt 0 Hc ltac:(lia)) as Hd. destruct (decimal fmt 0) as [n fmt1]. destruct Hd as (D1 & D2 & D3).
    destruct (short n) eqn:E; [|done]. apply short_range in E. intros [= <- <- <- <-]. rewrite D3 by lia. split_and!; [lia|lia|done|eauto].
  - destruct (peek fmt =? ch "*"); [|intros [= <- <- <- <-]; split_and!; [lia|lia|done|eauto]].
    destruct Ha as [|[x|s] a args words Hpx Ha]; [done| |done]. inversion Hpx; subst. cbn [word_arg va_arg mbind option_bind].
    destruct (short (s32 a)) eqn:E; [|done]. apply short_range in E. intros [= <- <- <- <-].
    split_and!; [lia|lia|by apply string_chars_tail|]. exists words. split; [done|].
    destruct (Z.ltb_spec (s32 a) 0); [rewrite (s32_small (- s32 a)), Z.abs_neq by lia; done|by rewrite Z.abs_eq].
Qed.

Lemma parse_precision_spec fmt args words precision fmt' args' : string_chars fmt -> Forall2 passes args words ->
  format_precision fmt args = Some (precision, fmt', args') ->
  -1 <= precision < 2 ^ 30 /\ string_chars fmt' /\ exists words', Forall2 passes args' words' /\
    parse_precision fmt words = Some (precision, fmt', words').
Proof.
  intros Hc Ha. unfold format_precision, parse_precision. apply string_chars_tail in Hc as Hc1.
  destruct (peek fmt =? ch "."); [|intros [= <- <- <-]; split_and!; [lia|lia|done|eauto]]. destruct (isdigit _).
  - pose proof (decimal_spec (tail fmt) 0 Hc1 ltac:(lia)) as Hd. destruct (decimal (tail fmt) 0) as [n fmt1]. destruct Hd as (D1 & D2 & D3).
    destruct (short n) eqn:E; [|done]. apply short_range in E. intros [= <- <- <-]. rewrite D3 by lia. cbn [mbind option_bind].
    rewrite (proj2 (Z.ltb_ge n 0)) by lia. split_and!; [lia|lia|done|eauto].
  - destruct (peek (tail fmt) =? ch "*"); [|intros [= <- <- <-]; split_and!; [lia|lia|done|by exists words]].
    destruct Ha as [|[x|s] a args words Hpx Ha]; [done| |done]. inversion Hpx; subst. cbn [word_arg va_arg mbind option_bind].
    destruct (short (s32 a)) eqn:E; [|done]. apply short_range in E. intros [= <- <- <-].
    split_and!; [lia|lia|by apply string_chars_tail|]. exists words. split; [done|].
    destruct (Z.ltb_spec (s32 a) 0); do 3 f_equal; lia.
Qed.

Lemma vsn_loop_spec n fmt args words t out w : string_chars fmt -> Forall2 passes args words -> written out w ->
  format regular_one n fmt args = Some t ->
  wp (vsn_loop end_ n fuel fmt words) (fun _ w' => written (out ++ t) w') w.
Proof.
  revert fmt args words t out w. induction n as [|n IH]; intros fmt args words t out w Hc Ha Hw; [done|]. cbn [format vsn_loop].
  destruct Hc as [|c fmt Hc Hcs]; [intros [= <-]; apply wp_ret; by rewrite app_nil_r|].
  destruct (negb (c =? ch "%")).
  { destruct (format regular_one n fmt args) as [rest|] eqn:E; [|done]. intros [= <-]. wp_use (put_spec c _ w Hw). intros [] w1 H1.
    eapply wp_mono; [by eapply IH|]. cbv beta. intros _ w2. by rewrite <- app_assoc. }
  pose proof (parse_flags_chars fmt 0 Hcs) as Hc1. destruct (parse_flags fmt 0) as [flags fmt1]. simpl in Hc1.
  destruct (format_width flags fmt1 args) as [[[[width fl] fmt2] args1]|] eqn:E1; [|done]. cbn [mbind option_bind].
  destruct (parse_width_spec _ _ _ _ _ _ _ _ Hc1 Ha E1) as (Hwd & Hc2 & words1 & Ha1 & Ew). intros Hf. wp_step. eapply wp_of_option; [exact Ew|].
  destruct (format_precision fmt2 args1) as [[[precision fmt3] args2]|] eqn:E2; [|done]. cbn [mbind option_bind] in Hf.
  destruct (parse_precision_spec _ _ _ _ _ _ Hc2 Ha1 E2) as (Hp & Hc3 & words2 & Ha2 & Ep). wp_step. eapply wp_of_option; [exact Ep|].
  assert (string_chars (parse_qualifier fmt3).2) as Hc4 by (unfold parse_qualifier; destruct (_ || _); [by apply string_chars_tail|done]).
  revert Hf. cbv beta iota. destruct (parse_qualifier fmt3) as [q fmt4]. simpl in Hc4. destruct Hc4 as [|d fmt5 Hd Hc5].
  - destruct (format regular_one n [] args2) as [rest|] eqn:E4; [|done]. intros [= <-]. wp_use (put_spec _ _ w Hw). intros [] w1 H1.
    eapply wp_mono; [by eapply (IH []); [constructor|..]|]. cbv beta. intros _ w2. by rewrite <- app_assoc.
  - destruct (regular_one d fl width precision q args2) as [[t1 args3]|] eqn:E3; [|done]. cbn [mbind option_bind].
    destruct (format regular_one n fmt5 args3) as [rest|] eqn:E4; [|done]. intros [= <-].
    wp_use (convert_spec d fl width precision q args2 words2 t1 args3 out w); [lia|lia|done|done|done|]. intros words3 w1 [Ha3 H1].
    eapply wp_mono; [by eapply IH|]. cbv beta. intros _ w2. by rewrite <- app_assoc.
Qed.
End output.

(** * The results *)

Lemma put8_put8 a c d m : put8 a d (put8 a c m) = put8 a d m.
Proof. apply fn_insert_insert'. Qed.

Lemma vsnprintf_text fuel m buf size fmt args words t :
  0 < buf -> 0 < size -> buf + size <= 2 ^ 32 -> string_chars fmt -> Forall2 (passes m buf size fuel) args words ->
  described fmt args = Some t -> regular fmt args ->
  wp (rt_vsnprintf fuel buf size fmt words) (fun r m' =>
    m' = write_list buf (take (Z.to_nat (size - 1)) t ++ [0]) m /\
    (len t < size -> r = len t) /\ (size <= len t -> size <= r)) m.
Proof.
  intros Hb Hs Htop Hc Ha Hd [t' Hf]. assert (t' = t) as -> by (apply regular_format in Hf; unfold described in Hd; congruence).
  unfold rt_vsnprintf, wp. rewrite (u32_small (buf + size - 1)), (proj2 (Z.ltb_ge _ _)) by lia.
  pose proof (vsn_loop_spec m buf size Hs fuel (S (length fmt)) fmt args words t [] (mk_cursor m buf) Hc Ha) as Hw.
  assert (written m buf size [] (mk_cursor m buf)) as H0 by (split; [by rewrite take_nil|left; change (len []) with 0; simpl; lia]).
  specialize (Hw H0 Hf). unfold wp in Hw. destruct (vsn_loop _ _ _ _ _ _) as [[] w|]; [|done]. destruct Hw as [Hm Hstr]. simpl app in *.
  destruct (Z.leb_spec (str w) (buf + size - 1)) as [Hle|Hgt]; unfold len in *.
  - assert (str w = buf + Z.of_nat (length t)) as -> by lia. split_and!; [|lia..].
    rewrite Hm, !take_ge by lia. by rewrite write_list_snoc.
  - split_and!; [|lia..]. rewrite Hm. destruct (lookup_lt_is_Some_2 t (Z.to_nat (size - 1))) as [c Hlc]; [lia|].
    replace (Z.to_nat size) with (S (Z.to_nat (size - 1))) by lia. rewrite (take_S_r _ _ _ Hlc), !write_list_snoc.
    unfold len. rewrite length_take. rewrite Nat.min_l by lia. replace (buf + Z.of_nat (Z.to_nat (size - 1))) with (buf + size - 1) by lia. apply put8_put8.
Qed.

(** C31: For every format whose conversions are c, s, p, d, i, u, x and X with their flags,
    widths, precisions and qualifiers (%o, which prints hexadecimal digits, and a string with
    the precision 0, which is not cut, are excluded), rt_vsnprintf writes the text a reference
    formatter describes, cut to the buffer, with a zero behind it and nothing else; its result
    is the length of the text when it fits, and at least the size of the buffer when it does
    not. *)
Theorem rt_vsnprintf_spec fuel m buf size fmt args words t :
  0 < buf -> 0 < size -> buf + size <= 2 ^ 32 -> string_chars fmt -> Forall2 (passes m buf size fuel) args words ->
  described fmt args = Some t -> regular fmt args ->
  wp (rt_vsnprintf fuel buf size fmt words) (fun r m' =>
    m' = write_list buf (take (Z.to_nat (size - 1)) t ++ [0]) m /\
    (len t < size -> r = len t) /\ (size <= len t -> size <= r)) m.
Proof. apply vsnprintf_text. Qed.

(** Printing an int with %d gives its sign and decimal digits: their value is the number,
    for every int, the least one included. *)
Theorem rt_snprintf_decimal fuel m buf size v :
  0 < buf -> 12 <= size -> buf + size <= 2 ^ 32 -> - 2 ^ 31 <= v < 2 ^ 31 ->
  wp (rt_snprintf fuel buf size (text "%d") [u32 v]) (fun r m' => exists ds,
    Forall (fun d => 0 <= d < 10) ds /\ value 10 ds = Z.abs v /\
    (let t := (if v <? 0 then [ch "-"] else []) ++ (Z.add (ch "0") <$> ds) in
     r = len t /\ m' = write_list buf (t ++ [0]) m)) m.
Proof.
  intros Hb Hs Ht Hv. set (ds := numeral 10 10 (Z.abs v)).
  destruct (numeral_spec 10 10 (Z.abs v) ltac:(lia) ltac:(simpl; lia)) as [Hval Hds]. fold ds in Hval, Hds.
  assert (length ds <= 10)%nat as Hl by (unfold ds; rewrite numeral_more by (simpl; lia); apply numeral_length).
  set (t := (if v <? 0 then [ch "-"] else []) ++ (Z.add (ch "0") <$> ds)).
  assert (len t <= 11) as Hlt by (unfold t; rewrite len_app; unfold len; rewrite length_fmap; destruct (v <? 0); simpl; lia).
  assert (described (text "%d") [Word (u32 v)] = Some t) as Hf.
  { change (described (text "%d") [Word (u32 v)])
      with (Some (format_number 10 SIGN (-1) (-1) (s32 (u32 v)) ++ [])). f_equal. rewrite app_nil_r, s32_u32, s32_small by lia.
    unfold format_number. change (has_flag SIGN LARGE) with false. change (has_flag SIGN LEFT) with false. change (has_flag SIGN ZEROPAD) with false.
    assert (magnitude SIGN v = Z.abs v) as ->.
    { unfold magnitude. change (has_flag SIGN SIGN) with true. simpl. destruct (Z.ltb_spec v 0); [lia|]. rewrite u32_small; lia. }
    assert (sign_text SIGN v = if v <? 0 then [ch "-"] else []) as -> by done. fold ds.
    assert (digit_char false <$> ds = Z.add (ch "0") <$> ds) as ->.
    { apply list_fmap_ext. intros i d Hd%list_elem_of_lookup_2. rewrite Forall_forall in Hds. apply Hds in Hd. unfold digit_char.
      by rewrite (proj2 (Z.ltb_lt d 10)) by lia. }
    unfold number_text, zeros, spaces. cbv iota. rewrite !(Z2Nat.nonpos (-1 - _)), Z2Nat.nonpos by (rewrite ?len_app; unfold len; lia). done. }
  eapply wp_mono; [apply (vsnprintf_text fuel m buf size (text "%d") [Word (u32 v)] [u32 v] t); [lia|lia|lia| |by repeat constructor|exact Hf|by eexists]|].
  { repeat constructor; vm_compute; done. }
  cbv beta. intros r m' (-> & Hr & _). exists ds. split_and!; [done|done|]. cbv zeta. fold t.
  split; [apply Hr; lia|]. rewrite take_ge by (unfold len in Hlt; lia). done.
Qed.
