(* ===== verification/Device.v ===== *)
(** The device framework (src/device.c), errno and the console (src/kservice.c).

    The functions of a driver are a parameter: they work on the kernel, on memory and on
    the registers, [world], and leave the fields of struct rt_device to the framework.  A
    device is its number; the fields the framework keeps are [devices].  The name of a
    device is its address [name_addr] when it is printed; [log_buf] is the static buffer
    of rt_kprintf. *)

From Stdlib Require Import Ascii String.
From S2P Require Import Prelude RtList KState Ffs KInv Sched Object Timer Thread Mem Printf.

Open Scope Z_scope.

Definition RT_EBUSY : Z := 7.
Definition RT_ENOSYS : Z := 6.
Definition RT_DEVICE_FLAG_STANDALONE : Z := 0x008.
Definition RT_DEVICE_FLAG_ACTIVATED : Z := 0x010.
Definition RT_DEVICE_FLAG_STREAM : Z := 0x040.
Definition RT_DEVICE_OFLAG_CLOSE : Z := 0x000.
Definition RT_DEVICE_OFLAG_RDWR : Z := 0x003.
Definition RT_DEVICE_OFLAG_OPEN : Z := 0x008.
Definition RT_CONSOLEBUF_SIZE : Z := 128.

(** struct rt_device, without the functions of the driver *)
Record rt_device : Type := mk_device {
  dflag : Z;
  open_flag : Z;
  ref_count : Z;
  rx_indicate : option Z;
  tx_complete : option Z }.

Definition set_dflag (v : Z) (d : rt_device) : rt_device := mk_device v (open_flag d) (ref_count d) (rx_indicate d) (tx_complete d).
Definition set_open_flag (v : Z) (d : rt_device) : rt_device := mk_device (dflag d) v (ref_count d) (rx_indicate d) (tx_complete d).
Definition set_ref_count (v : Z) (d : rt_device) : rt_device := mk_device (dflag d) (open_flag d) v (rx_indicate d) (tx_complete d).
Definition set_rx_indicate (v : option Z) (d : rt_device) : rt_device := mk_device (dflag d) (open_flag d) (ref_count d) v (tx_complete d).
Definition set_tx_complete (v : option Z) (d : rt_device) : rt_device := mk_device (dflag d) (open_flag d) (ref_count d) (rx_indicate d) v.

Section device.
Context {world : Type}.

(** The functions of a driver; [None] is a null pointer. *)
Record driver : Type := mk_driver {
  d_init : option (M (kernel * (memory * world)) Z);
  d_open : option (Z -> M (kernel * (memory * world)) Z);
  d_close : option (M (kernel * (memory * world)) Z);
  d_read : option (Z -> Z -> Z -> M (kernel * (memory * world)) Z);
  d_write : option (Z -> Z -> Z -> M (kernel * (memory * world)) Z);
  d_control : option (Z -> Z -> M (kernel * (memory * world)) Z) }.

Record dev_state : Type := mk_ds {
  devices : nat -> rt_device;
  errno_ : Z;
  console_device : option nat;
  outside : memory * world }.

Notation D := (M (kernel * dev_state)) (only parsing).

Context (drivers : nat -> driver) (name_addr : nat -> Z) (log_buf : Z) (strings : nat).

(** A function of a driver *)
Definition call {A} (m : M (kernel * (memory * world)) A) : D A := fun s =>
  match m (s.1, outside s.2) with
  | Ret a (k, o) => Ret a (k, mk_ds (devices s.2) (errno_ s.2) (console_device s.2) o)
  | Fail e => Fail e
  end.

Definition get_device (d : nat) : D rt_device := fun s => Ret (devices s.2 d) s.
Definition upd_device (d : nat) (f : rt_device -> rt_device) : D unit :=
  on_snd (modify (fun s => mk_ds (<[d := f (devices s d)]> (devices s)) (errno_ s) (console_device s) (outside s))).
Definition set_console (c : option nat) : D unit :=
  on_snd (modify (fun s => mk_ds (devices s) (errno_ s) c (outside s))).

(** * errno *)

(** rt_set_errno *)
Definition set_global_errno (e : Z) : D unit :=
  on_snd (modify (fun s => mk_ds (devices s) e (console_device s) (outside s))).

Definition rt_set_errno (e : Z) : D unit :=
  let! s := get in
  if negb (rt_interrupt_nest s.1 =? 0) then set_global_errno e
  else
    match rt_thread_self s.1 with
    | None => set_global_errno e
    | Some t => on_fst (upd_thread t (set_error e))
    end.

(** rt_get_errno *)
Definition rt_get_errno : D Z :=
  let! s := get in
  if negb (rt_interrupt_nest s.1 =? 0) then ret (errno_ s.2)
  else
    match rt_thread_self s.1 with
    | None => ret (errno_ s.2)
    | Some t => ret (error (threads s.1 t))
    end.

(** * Reading and writing *)

Definition rt_device_read (d : nat) (pos buffer size : Z) : D Z :=
  let! dev := get_device d in
  if ref_count dev =? 0 then rt_set_errno (- RT_ERROR) ;! ret 0
  else
    match d_read (drivers d) with
    | Some f => call (f pos buffer size)
    | None => rt_set_errno (- RT_ENOSYS) ;! ret 0
    end.

Definition rt_device_write (d : nat) (pos buffer size : Z) : D Z :=
  let! dev := get_device d in
  if ref_count dev =? 0 then rt_set_errno (- RT_ERROR) ;! ret 0
  else
    match d_write (drivers d) with
    | Some f => call (f pos buffer size)
    | None => rt_set_errno (- RT_ENOSYS) ;! ret 0
    end.

Definition rt_device_control (d : nat) (cmd arg : Z) : D Z :=
  match d_control (drivers d) with
  | Some f => call (f cmd arg)
  | None => ret RT_EOK
  end.

Definition rt_device_set_rx_indicate (d : nat) (rx_ind : option Z) : D Z :=
  upd_device d (set_rx_indicate rx_ind) ;! ret RT_EOK.

Definition rt_device_set_tx_complete (d : nat) (tx_done : option Z) : D Z :=
  upd_device d (set_tx_complete tx_done) ;! ret RT_EOK.

(** * The console *)

(** rt_kprintf; rt_hw_console_output is the empty function. *)
Definition rt_kprintf (fmt args : list Z) : D unit :=
  let! length := call (on_snd (on_fst (rt_vsnprintf strings log_buf (RT_CONSOLEBUF_SIZE - 1) fmt args))) in
  let length := if length >? RT_CONSOLEBUF_SIZE - 1 then RT_CONSOLEBUF_SIZE - 1 else length in
  let! s := get in
  match console_device s.2 with
  | None => ret tt
  | Some c =>
      let! dev := get_device c in
      let old_flag := dflag dev in
      upd_device c (fun v => set_dflag (Z.lor (dflag v) RT_DEVICE_FLAG_STREAM) v) ;!
      let! _n := rt_device_write c 0 log_buf length in
      upd_device c (set_dflag old_flag)
  end.

(** * Opening and closing *)

Definition activate (d : nat) : D unit := upd_device d (fun v => set_dflag (Z.lor (dflag v) RT_DEVICE_FLAG_ACTIVATED) v).

Definition init_failed (d : nat) (result : Z) : D unit :=
  rt_kprintf (text "To initialize device:%s failed. The error code is %d" ++ [10]) [name_addr d; u32 result].

(** rt_device_init, which is also the body of the loop of rt_device_init_all *)
Definition rt_device_init (d : nat) : D Z :=
  match d_init (drivers d) with
  | None => ret RT_EOK
  | Some init =>
      let! dev := get_device d in
      if has_flag (dflag dev) RT_DEVICE_FLAG_ACTIVATED then ret RT_EOK
      else
        let! result := call init in
        (if negb (result =? RT_EOK) then init_failed d result else activate d) ;!
        ret result
  end.

(** The part of rt_device_open that starts the device: an error, or [None] *)
Definition open_init (d : nat) : D (option Z) :=
  let! dev := get_device d in
  if has_flag (dflag dev) RT_DEVICE_FLAG_ACTIVATED then ret None
  else
    match d_init (drivers d) with
    | None => activate d ;! ret None
    | Some init =>
        let! result := call init in
        if negb (result =? RT_EOK) then init_failed d result ;! ret (Some result)
        else activate d ;! ret None
    end.

(** rt_device_open *)
Definition rt_device_open (d : nat) (oflag : Z) : D Z :=
  let! r := open_init d in
  match r with
  | Some result => ret result
  | None =>
      let! dev := get_device d in
      if has_flag (dflag dev) RT_DEVICE_FLAG_STANDALONE && has_flag (open_flag dev) RT_DEVICE_OFLAG_OPEN then ret (- RT_EBUSY)
      else
        upd_device d (fun v => set_ref_count (u8 (ref_count v + 1)) v) ;!
        let! result := match d_open (drivers d) with Some f => call (f oflag) | None => ret RT_EOK end in
        (if (result =? RT_EOK) || (result =? - RT_ENOSYS)
         then upd_device d (set_open_flag (u16 (Z.lor oflag RT_DEVICE_OFLAG_OPEN))) else ret tt) ;!
        ret result
  end.

(** rt_device_close *)
Definition rt_device_close (d : nat) : D Z :=
  let! dev := get_device d in
  if ref_count dev =? 0 then ret (- RT_ERROR)
  else
    upd_device d (fun v => set_ref_count (u8 (ref_count v - 1)) v) ;!
    let! dev := get_device d in
    if negb (ref_count dev =? 0) then ret RT_EOK
    else
      let! result := match d_close (drivers d) with Some f => call f | None => ret RT_EOK end in
      (if (result =? RT_EOK) || (result =? - RT_ENOSYS)
       then upd_device d (set_open_flag RT_DEVICE_OFLAG_CLOSE) else ret tt) ;!
      ret result.

(** * The devices by name *)

Definition device_entry (o : objid) : option nat := match o with ODevice d => Some d | _ => None end.

(** rt_device_find *)
Definition rt_device_find (nm : list Z) : K (option nat) :=
  let! k := get in
  (match rt_thread_self k with Some _ => rt_enter_critical | None => ret tt end) ;!
  let! r := find_object nm RT_Object_Class_Device in
  let! k := get in
  (match rt_thread_self k with Some _ => rt_exit_critical | None => ret tt end) ;!
  match r with
  | None => ret None
  | Some o => let! d := of_option BadPointer (device_entry o) in ret (Some d)
  end.

(** rt_device_register *)
Definition rt_device_register (d : nat) (nm : list Z) (flags : Z) : D Z :=
  let! r := on_fst (rt_device_find nm) in
  match r with
  | Some _ => ret (- RT_ERROR)
  | None =>
      on_fst (rt_object_init (ODevice d) nm) ;!
      upd_device d (set_dflag (u16 flags)) ;!
      upd_device d (set_ref_count 0) ;!
      ret RT_EOK
  end.

(** rt_device_unregister *)
Definition rt_device_unregister (d : nat) : D Z := on_fst (rt_object_detach (ODevice d)) ;! ret RT_EOK.

(** rt_device_init_all: the loop from [node] on *)
Fixpoint init_all_loop (fuel : nat) (n : node) : D unit :=
  match fuel with
  | O => fail OutOfFuel
  | S fuel =>
      if bool_decide (n = ObjHead RT_Object_Class_Device) then ret tt
      else
        let! d := of_option BadPointer (o ← object_entry n; device_entry o) in
        let! _result := rt_device_init d in
        let! s := get in
        let! n := of_option NullDeref (get_next (lists s.1) n) in
        init_all_loop fuel n
  end.

Definition rt_device_init_all : D Z :=
  let! s := get in
  let! n := of_option NullDeref (get_next (lists s.1) (ObjHead RT_Object_Class_Device)) in
  init_all_loop (S (size (lists s.1))) n ;!
  ret RT_EOK.

(** rt_console_get_device and rt_console_set_device *)
Definition rt_console_get_device : D (option nat) := let! s := get in ret (console_device s.2).

Definition rt_console_set_device (nm : list Z) : D (option nat) :=
  let! old := rt_console_get_device in
  let! new := on_fst (rt_device_find nm) in
  match new with
  | None => ret old
  | Some c =>
      (match old with Some o => let! _r := rt_device_close o in ret tt | None => ret tt end) ;!
      set_console (Some c) ;!
      let! _r := rt_device_open c RT_DEVICE_OFLAG_RDWR in
      ret old
  end.
End device.
