(* ===== verification/DeviceSpec.v ===== *)
(** What the device framework promises: a count of opens per device, with the driver
    reached only while it is open; and devices found by their names. *)

From Stdlib Require Import Ascii String.
From S2P Require Import Prelude RtList KState Ffs KInv Sched Object Timer Thread Mem Printf PrintfSpec Device.

Open Scope Z_scope.

(** * Devices that are opened and closed *)

(** An abstract device: how often it is open, and whether it has been initialised *)
Record adevice : Type := mk_adev { opens : Z; active : bool }.

Inductive dev_op : Type :=
| OpInit (d : nat)
| OpOpen (d : nat) (oflag : Z)
| OpClose (d : nat)
| OpRead (d : nat) (pos buffer size : Z)
| OpWrite (d : nat) (pos buffer size : Z)
| OpControl (d : nat) (cmd arg : Z).

(** The result of an operation: known, or what the driver answers *)
Definition fits (expected : option Z) (r : Z) : Prop := match expected with Some v => r = v | None => True end.

Section abstract.
Context (alone : nat -> bool) (has_init has_read has_write has_control : nat -> bool).
Implicit Types (a : nat -> adevice).

Definition abstract_step (op : dev_op) a : option Z * (nat -> adevice) :=
  match op with
  | OpInit d => (Some RT_EOK, <[d := mk_adev (opens (a d)) (active (a d) || has_init d)]> a)
  | OpOpen d oflag =>
      if alone d && (0 <? opens (a d)) then (Some (- RT_EBUSY), a)
      else (Some RT_EOK, <[d := mk_adev (opens (a d) + 1) true]> a)
  | OpClose d =>
      if opens (a d) =? 0 then (Some (- RT_ERROR), a)
      else (Some RT_EOK, <[d := mk_adev (opens (a d) - 1) (active (a d))]> a)
  | OpRead d _ _ _ => (if (opens (a d) =? 0) || negb (has_read d) then Some 0 else None, a)
  | OpWrite d _ _ _ => (if (opens (a d) =? 0) || negb (has_write d) then Some 0 else None, a)
  | OpControl d _ _ => (if has_control d then None else Some RT_EOK, a)
  end.

Fixpoint abstract_run (ops : list dev_op) a : list (option Z) * (nat -> adevice) :=
  match ops with
  | [] => ([], a)
  | op :: ops => let r := abstract_step op a in let rs := abstract_run ops r.2 in (r.1 :: rs.1, rs.2)
  end.

(** No device is ever open more often than [n] times. *)
Fixpoint opens_at_most (n : Z) (ops : list dev_op) a : Prop :=
  match ops with
  | [] => True
  | op :: ops => (forall d, opens ((abstract_step op a).2 d) <= n) /\ opens_at_most n ops (abstract_step op a).2
  end.
End abstract.

Section devices.
Context {world : Type} (drivers : nat -> @driver world) (name_addr : nat -> Z) (log_buf : Z) (strings : nat).
Implicit Types (k : kernel) (s : @dev_state world) (a : nat -> adevice) (d : nat).

Definition run_op (op : dev_op) : M (kernel * dev_state) Z :=
  match op with
  | OpInit d => rt_device_init drivers name_addr log_buf strings d
  | OpOpen d oflag => rt_device_open drivers name_addr log_buf strings d oflag
  | OpClose d => rt_device_close drivers d
  | OpRead d pos buffer size => rt_device_read drivers d pos buffer size
  | OpWrite d pos buffer size => rt_device_write drivers d pos buffer size
  | OpControl d cmd arg => rt_device_control drivers d cmd arg
  end.

Fixpoint run_ops (ops : list dev_op) : M (kernel * dev_state) (list Z) :=
  match ops with
  | [] => ret []
  | op :: ops => let! r := run_op op in let! rs := run_ops ops in ret (r :: rs)
  end.

(** A function that returns [r] from every state *)
Definition returns (r : Z) (m : M (kernel * (memory * world)) Z) : Prop := forall st, exists st', m st = Ret r st'.
Definition answers (m : M (kernel * (memory * world)) Z) : Prop := forall st, exists r st', m st = Ret r st'.

(** The drivers start, open and close their devices without an error, and answer. *)
Record drivers_work : Prop := {
  dw_init : forall d f, d_init (drivers d) = Some f -> returns RT_EOK f;
  dw_open : forall d f oflag, d_open (drivers d) = Some f -> returns RT_EOK (f oflag);
  dw_close : forall d f, d_close (drivers d) = Some f -> returns RT_EOK f;
  dw_read : forall d f pos buffer size, d_read (drivers d) = Some f -> answers (f pos buffer size);
  dw_write : forall d f pos buffer size, d_write (drivers d) = Some f -> answers (f pos buffer size);
  dw_control : forall d f cmd arg, d_control (drivers d) = Some f -> answers (f cmd arg) }.

Definition given {A} (o : option A) : bool := match o with Some _ => true | None => false end.

(** The fields of a device say what the abstract device says. *)
Record represents (alone : bool) (v : rt_device) (x : adevice) : Prop := {
  rp_count : ref_count v = opens x;
  rp_range : 0 <= opens x < 256;
  rp_open : has_flag (open_flag v) RT_DEVICE_OFLAG_OPEN = (0 <? opens x);
  rp_active : has_flag (dflag v) RT_DEVICE_FLAG_ACTIVATED = active x;
  rp_alone : has_flag (dflag v) RT_DEVICE_FLAG_STANDALONE = alone;
  rp_single : alone = true -> opens x <= 1;
  rp_started : 0 < opens x -> active x = true }.

Definition all_represent (alone : nat -> bool) s a : Prop := forall d, represents (alone d) (devices s d) (a d).

Lemma wp_call_returns r m (Phi : Z -> kernel * dev_state -> Prop) k s : returns r m ->
  (forall k' o, Phi r (k', mk_ds (devices s) (errno_ s) (console_device s) o)) -> wp (call m) Phi (k, s).
Proof. intros H HPhi. destruct (H (k, outside s)) as [[k' o] E]. unfold wp, call. simpl. by rewrite E. Qed.

Lemma wp_call_answers m (Phi : Z -> kernel * dev_state -> Prop) k s : answers m ->
  (forall r k' o, Phi r (k', mk_ds (devices s) (errno_ s) (console_device s) o)) -> wp (call m) Phi (k, s).
Proof. intros H HPhi. destruct (H (k, outside s)) as (r & [k' o] & E). unfold wp, call. simpl. by rewrite E. Qed.

Lemma has_flag_lor_same v i : 0 <= i -> has_flag (Z.lor v (2 ^ i)) (2 ^ i) = true.
Proof. intros Hk. rewrite has_flag_bit, Z.lor_spec, Z.pow2_bits_true by lia. apply orb_true_r. Qed.

Lemma has_flag_lor_other v j i : 0 <= i -> 0 <= j -> j <> i -> has_flag (Z.lor v (2 ^ j)) (2 ^ i) = has_flag v (2 ^ i).
Proof. intros Hk Hj Hne. rewrite !has_flag_bit, Z.lor_spec, Z.pow2_bits_false by lia. apply orb_false_r. Qed.

Lemma has_flag_u16 v i : 0 <= i < 16 -> has_flag (u16 v) (2 ^ i) = has_flag v (2 ^ i).
Proof. intros Hk. rewrite !has_flag_bit by lia. unfold u16. by rewrite Z.mod_pow2_bits_low by lia. Qed.

(** The effect of the framework's own stores *)
Lemma represents_active al v x : represents al v x ->
  represents al (set_dflag (Z.lor (dflag v) RT_DEVICE_FLAG_ACTIVATED) v) (mk_adev (opens x) true).
Proof.
  intros [R1 R2 R3 R4 R5 R6 R7]. split; simpl; try done; [by apply (has_flag_lor_same _ 4)|].
  rewrite <- R5. by apply (has_flag_lor_other _ 4 3).
Qed.

Lemma all_represent_update alone s a d f x o c e :
  all_represent alone s a -> represents (alone d) (f (devices s d)) x ->
  all_represent alone (mk_ds (<[d := f (devices s d)]> (devices s)) e c o) (<[d := x]> a).
Proof.
  intros Ha Hd d'. simpl. destruct (decide (d' = d)) as [->|]; [by rewrite !fn_lookup_insert|by rewrite !fn_lookup_insert_ne].
Qed.

Lemma rt_set_errno_devices e k s : wp (rt_set_errno e) (fun _ st => devices st.2 = devices s /\ outside st.2 = outside s) (k, s).
Proof.
  unfold rt_set_errno. wp_step. apply wp_get. cbn [fst]. destruct (negb _); [by apply wp_on_snd, wp_modify|].
  destruct (rt_thread_self k); [by apply wp_on_fst, wp_modify|by apply wp_on_snd, wp_modify].
Qed.

Section refinement.
Context (alone : nat -> bool) (Hdw : drivers_work).
Notation step := (abstract_step alone (fun d => given (d_init (drivers d))) (fun d => given (d_read (drivers d)))
  (fun d => given (d_write (drivers d))) (fun d => given (d_control (drivers d)))).
Notation run := (abstract_run alone (fun d => given (d_init (drivers d))) (fun d => given (d_read (drivers d)))
  (fun d => given (d_write (drivers d))) (fun d => given (d_control (drivers d)))).

Definition refines_op (op : dev_op) : Prop := forall k s a r a', all_represent alone s a -> step op a = (r, a') ->
  (forall d, opens (a' d) <= 255) ->
  wp (run_op op) (fun v st => fits r v /\ all_represent alone st.2 a') (k, s).

Lemma init_refines d : refines_op (OpInit d).
Proof.
  intros k s a r a' Ha [= <- <-] _. simpl. unfold rt_device_init. destruct (d_init (drivers d)) as [f|] eqn:E; simpl.
  - wp_step. unfold get_device, wp at 1. cbn [snd]. rewrite (rp_active _ _ _ (Ha d)), orb_true_r. destruct (active (a d)) eqn:Ea.
    + apply wp_ret. split; [done|]. assert (<[d := mk_adev (opens (a d)) true]> a = a) as ->; [|done].
      rewrite <- Ea. destruct (a d) eqn:E'. simpl. rewrite <- E'. apply fn_insert_id'.
    + wp_step. eapply wp_call_returns; [by eapply dw_init|]. intros k' o. change (negb (RT_EOK =? RT_EOK)) with false. cbv iota.
      wp_step. unfold activate, upd_device. apply wp_on_snd, wp_modify. apply wp_ret. split; [done|]. cbn [snd devices].
      eapply all_represent_update; [done|]. by apply represents_active.
  - apply wp_ret. split; [done|]. assert (<[d := mk_adev (opens (a d)) (active (a d) || false)]> a = a) as ->; [|done].
    rewrite orb_false_r. destruct (a d) eqn:E'. simpl. rewrite <- E'. apply fn_insert_id'.
Qed.

Lemma open_init_spec d k s a : all_represent alone s a ->
  wp (open_init drivers name_addr log_buf strings d) (fun r st => r = None /\
    all_represent alone st.2 (<[d := mk_adev (opens (a d)) true]> a)) (k, s).
Proof.
  intros Ha. unfold open_init. wp_step. unfold get_device, wp at 1. cbn [snd]. rewrite (rp_active _ _ _ (Ha d)). destruct (active (a d)) eqn:Ea.
  - apply wp_ret. split; [done|]. assert (<[d := mk_adev (opens (a d)) true]> a = a) as ->; [|done].
    rewrite <- Ea. destruct (a d) eqn:E'. simpl. rewrite <- E'. apply fn_insert_id'.
  - destruct (d_init (drivers d)) as [f|] eqn:E.
    + wp_step. eapply wp_call_returns; [by eapply dw_init|]. intros k' o. change (negb (RT_EOK =? RT_EOK)) with false. cbv iota.
      wp_step. unfold activate, upd_device. apply wp_on_snd, wp_modify. apply wp_ret. split; [done|]. cbn [snd devices].
      eapply all_represent_update; [done|]. by apply represents_active.
    + wp_step. unfold activate, upd_device. apply wp_on_snd, wp_modify. apply wp_ret. split; [done|]. cbn [snd devices].
      eapply all_represent_update; [done|]. by apply represents_active.
Qed.

Lemma represents_opened al v x oflag : represents al v x -> al && (0 <? opens x) = false -> opens x < 255 -> active x = true ->
  represents al (set_open_flag (u16 (Z.lor oflag RT_DEVICE_OFLAG_OPEN)) (set_ref_count (u8 (ref_count v + 1)) v)) (mk_adev (opens x + 1) true).
Proof.
  intros [R1 R2 R3 R4 R5 R6 R7] Hal Hc Hact. split; simpl; try done; try lia.
  - rewrite R1. apply u8_small. lia.
  - rewrite (proj2 (Z.ltb_lt 0 _)) by lia. change RT_DEVICE_OFLAG_OPEN with (2 ^ 3). rewrite has_flag_u16 by lia. by apply has_flag_lor_same.
  - by rewrite R4.
  - intros ->. simpl in Hal. apply Z.ltb_ge in Hal. lia.
Qed.

Lemma open_refines d oflag : refines_op (OpOpen d oflag).
Proof.
  intros k s a r a' Ha. simpl. intros Hst Hmax. unfold rt_device_open. wp_use (open_init_spec d k s a Ha). intros ? [k1 s1] [-> H1]. cbn [snd] in H1.
  pose proof (H1 d) as Hd. rewrite fn_lookup_insert in Hd. pose proof Hd as [R1 R2 R3 R4 R5 R6 R7].
  wp_step. unfold get_device, wp at 1. cbn [snd]. rewrite R5, R3. cbn [opens] in *.
  destruct (alone d && (0 <? opens (a d))) eqn:Eb.
  - injection Hst as <- <-. apply wp_ret. split; [done|]. apply andb_true_iff in Eb as [_ Ho%Z.ltb_lt].
    assert (<[d := mk_adev (opens (a d)) true]> a = a) as E; [|by rewrite E in H1].
    rewrite <- (rp_started _ _ _ (Ha d) Ho). destruct (a d) eqn:E'. simpl. rewrite <- E'. apply fn_insert_id'.
  - injection Hst as <- <-. pose proof (Hmax d) as Hd255. rewrite fn_lookup_insert in Hd255. cbn [opens] in Hd255.
    wp_step. unfold upd_device at 1. apply wp_on_snd, wp_modify. wp_step.
    match goal with |- wp _ ?Phi (_, ?s2) => assert (forall k' o, Phi RT_EOK (k', mk_ds (devices s2) (errno_ s2) (console_device s2) o)) as HPhi end.
    { intros k' o. change ((RT_EOK =? RT_EOK) || (RT_EOK =? - RT_ENOSYS)) with true. cbv iota. wp_step. unfold upd_device. apply wp_on_snd, wp_modify.
      apply wp_ret. split; [done|]. cbn [snd devices]. rewrite fn_lookup_insert, fn_insert_insert'.
      intros d'. cbn [devices]. specialize (H1 d'). destruct (decide (d' = d)) as [->|]; [rewrite !fn_lookup_insert|by rewrite !fn_lookup_insert_ne in * by done].
      apply (represents_opened _ _ _ oflag Hd); [done|simpl; lia|done]. }
    destruct (d_open (drivers d)) as [f|] eqn:E; [|apply wp_ret; exact (HPhi k1 (outside s1))].
    eapply wp_call_returns; [by eapply dw_open|]. exact HPhi.
Qed.

Lemma represents_closed al v x n : represents al v x -> opens x <> 0 -> (n = open_flag v /\ opens x <> 1 \/ n = RT_DEVICE_OFLAG_CLOSE /\ opens x = 1) ->
  represents al (set_open_flag n (set_ref_count (u8 (ref_count v - 1)) v)) (mk_adev (opens x - 1) (active x)).
Proof.
  intros [R1 R2 R3 R4 R5 R6 R7] H0 Hn. split; simpl; try done; try lia.
  - rewrite R1. apply u8_small. lia.
  - destruct Hn as [[-> ?]|[-> ->]]; [|done]. rewrite R3. rewrite !(proj2 (Z.ltb_lt 0 _)) by lia. done.
  - intros H. specialize (R6 H). lia.
  - intros. apply R7. lia.
Qed.

Lemma close_refines d : refines_op (OpClose d).
Proof.
  intros k s a r a' Ha. simpl. intros Hst _. unfold rt_device_close. wp_step. unfold get_device at 1, wp at 1. cbn [snd].
  pose proof (Ha d) as Hd. pose proof Hd as [R1 R2 R3 R4 R5 R6 R7]. rewrite R1. destruct (Z.eqb_spec (opens (a d)) 0).
  { injection Hst as <- <-. by apply wp_ret. }
  injection Hst as <- <-. wp_step. unfold upd_device at 1. apply wp_on_snd, wp_modify. wp_step. unfold get_device, wp at 1. cbn [snd devices].
  rewrite fn_lookup_insert. cbn [ref_count set_ref_count]. rewrite R1, u8_small by lia. destruct (Z.eqb_spec (opens (a d) - 1) 0); cbn [negb].
  - wp_step.
    match goal with |- wp _ ?Phi (_, ?s2) => assert (forall k' o, Phi RT_EOK (k', mk_ds (devices s2) (errno_ s2) (console_device s2) o)) as HPhi end.
    { intros k' o. change ((RT_EOK =? RT_EOK) || (RT_EOK =? - RT_ENOSYS)) with true. cbv iota. wp_step. unfold upd_device. apply wp_on_snd, wp_modify.
      apply wp_ret. split; [done|]. cbn [snd devices]. rewrite fn_lookup_insert, fn_insert_insert'.
      intros d'. cbn [devices]. destruct (decide (d' = d)) as [->|]; [rewrite !fn_lookup_insert|by rewrite !fn_lookup_insert_ne by done].
      rewrite <- (u8_small (opens (a d) - 1)) at 1 by lia. rewrite <- R1 at 1. apply represents_closed; [done|done|right; split; [done|lia]]. }
    destruct (d_close (drivers d)) as [f|] eqn:E; [|apply wp_ret; exact (HPhi k (outside s))].
    eapply wp_call_returns; [by eapply dw_close|]. exact HPhi.
  - apply wp_ret. split; [done|]. cbn [snd]. intros d'. cbn [devices].
    destruct (decide (d' = d)) as [->|]; [rewrite !fn_lookup_insert|by rewrite !fn_lookup_insert_ne by done].
    pose proof (represents_closed (alone d) (devices s d) (a d) (open_flag (devices s d)) Hd ltac:(done) ltac:(left; split; [done|lia])) as H.
    unfold set_ref_count. rewrite R1 in H. rewrite u8_small in H by lia. exact H.
Qed.

(** A transfer: refused while the device is closed or has no such function *)
Lemma transfer_spec (f : option (Z -> Z -> Z -> M (kernel * (memory * world)) Z)) d pos buffer size k s a :
  all_represent alone s a -> (forall g, f = Some g -> answers (g pos buffer size)) ->
  wp (let! dev := get_device d in
      if ref_count dev =? 0 then rt_set_errno (- RT_ERROR) ;! ret 0
      else match f with Some g => call (g pos buffer size) | None => rt_set_errno (- RT_ENOSYS) ;! ret 0 end)
    (fun v st => fits (if (opens (a d) =? 0) || negb (given f) then Some 0 else None) v /\ all_represent alone st.2 a /\
      (opens (a d) = 0 -> outside st.2 = outside s)) (k, s).
Proof.
  intros Ha Hf. wp_step. unfold get_device, wp at 1. cbn [snd]. rewrite (rp_count _ _ _ (Ha d)).
  assert (forall e, wp (rt_set_errno e ;! ret 0) (fun v st => v = 0 /\ all_represent alone st.2 a /\ outside st.2 = outside s) (k, s)) as Hr.
  { intros e. wp_use (rt_set_errno_devices e k s). intros [] [k1 s1] [E1 E2]. apply wp_ret. cbn [snd] in *. split_and!; [done| |done].
    intros d'. rewrite E1. apply Ha. }
  destruct (Z.eqb_spec (opens (a d)) 0); cbn [orb].
  - eapply wp_mono; [apply Hr|]. cbv beta. intros v st (-> & ? & ?). done.
  - destruct f as [g|]; cbn [given negb]; [eapply wp_call_answers; [by apply Hf|]; done|].
    eapply wp_mono; [apply Hr|]. cbv beta. intros v st (-> & ? & ?). done.
Qed.

Lemma step_refines op : refines_op op.
Proof.
  destruct op as [d|d oflag|d|d pos buffer size|d pos buffer size|d cmd arg]; [apply init_refines|apply open_refines|apply close_refines|..];
    intros k s a r a' Ha [= <- <-] _.
  - eapply wp_mono; [apply transfer_spec; [done|intros g Hg; by eapply dw_read]|]. cbv beta. by intros v st (? & ? & _).
  - eapply wp_mono; [apply transfer_spec; [done|intros g Hg; by eapply dw_write]|]. cbv beta. by intros v st (? & ? & _).
  - simpl. unfold rt_device_control. destruct (d_control (drivers d)) as [f|] eqn:E; [|by apply wp_ret].
    eapply wp_call_answers; [by eapply dw_control|]. done.
Qed.

Definition untouched_while_closed (st : kernel * dev_state) d : Prop := forall pos buffer size,
  wp (rt_device_read drivers d pos buffer size) (fun v st' => v = 0 /\ outside st'.2 = outside st.2) st /\
  wp (rt_device_write drivers d pos buffer size) (fun v st' => v = 0 /\ outside st'.2 = outside st.2) st.

Lemma closed_untouched k s a d : all_represent alone s a -> opens (a d) = 0 -> untouched_while_closed (k, s) d.
Proof.
  intros Ha H0 pos buffer size. split.
  - eapply wp_mono; [apply (transfer_spec (d_read (drivers d)) d pos buffer size k s a Ha); intros g Hg; by eapply dw_read|].
    rewrite H0. cbv beta. intros v st (Hv & _ & Ho). split; [exact Hv|by apply Ho].
  - eapply wp_mono; [apply (transfer_spec (d_write (drivers d)) d pos buffer size k s a Ha); intros g Hg; by eapply dw_write|].
    rewrite H0. cbv beta. intros v st (Hv & _ & Ho). split; [exact Hv|by apply Ho].
Qed.

(** C32: With drivers that start, open and close their devices without an error, a sequence of
    calls of the device framework on any devices, in which no device is ever open more than
    255 times, does what abstract devices with a count of opens do: a stand-alone device is
    refused a second open, the last close closes, and a device that is not open is neither
    read nor written. *)
Theorem devices_refine ops k s a :
  all_represent alone s a ->
  opens_at_most alone (fun d => given (d_init (drivers d))) (fun d => given (d_read (drivers d)))
    (fun d => given (d_write (drivers d))) (fun d => given (d_control (drivers d))) 255 ops a ->
  wp (run_ops ops) (fun vs st => exists rs a', run ops a = (rs, a') /\ Forall2 fits rs vs /\ all_represent alone st.2 a' /\
    forall d, opens (a' d) = 0 -> untouched_while_closed st d) (k, s).
Proof.
  revert k s a. induction ops as [|op ops IH]; intros k s a Ha; cbn [abstract_run run_ops opens_at_most].
  { intros _. apply wp_ret. exists [], a. split_and!; [done|constructor|done|]. intros d H0. by eapply closed_untouched. }
  destruct (step op a) as [r a1] eqn:E1. cbn [fst snd]. intros [H255 Hrest].
  wp_use (step_refines op k s a r a1 Ha E1 H255). intros v [k1 s1] [Hv H1].
  wp_use (IH k1 s1 a1 H1 Hrest). intros vs st (rs & a' & E2 & Hvs & H2 & H3). apply wp_ret.
  exists (r :: rs), a'. rewrite E2. split_and!; [done|by constructor|done|done].
Qed.
End refinement.
End devices.

(** * Devices by name *)

Section names.
Implicit Types (k : kernel) (Q : gmap node (list node)) (d : nat) (nm : list Z) (nms : objid -> list Z) (ds : list nat).

Definition device_list Q ds : Prop := Q !! ObjHead RT_Object_Class_Device = Some (ObjNode <$> (ODevice <$> ds)).

(** Before the first thread runs the scheduler is not called. *)
Definition may_schedule k : Prop :=
  rt_current_thread k <> None -> (exists t, readyp (threads k t)) /\ 0 <= rt_scheduler_lock_nest k < 2 ^ 15 - 1.

Definition same_search k (k' : kernel) : Prop :=
  threads k' = threads k /\ objects k' = objects k /\ timers k' = timers k /\ rt_scheduler_lock_nest k' = rt_scheduler_lock_nest k /\
  (rt_current_thread k' = None <-> rt_current_thread k = None).

Lemma critical_search act k Q (Phi : unit -> kernel -> Prop) : KIx act k Q -> rt_current_thread k <> None -> may_schedule k ->
  (forall k', KIx act k' Q -> same_search k k' -> Phi tt k') ->
  wp rt_exit_critical Phi (set_rt_scheduler_lock_nest (s16 (rt_scheduler_lock_nest k + 1)) k).
Proof.
  intros Hk Hcur Hms HPhi. destruct (Hms Hcur) as [[t0 Hr] Hn]. unfold rt_exit_critical. wp_pure. simpl. unfold s16.
  assert ((rt_scheduler_lock_nest k + 1 + 2 ^ 15) mod 2 ^ 16 - 2 ^ 15 = rt_scheduler_lock_nest k + 1) as ->
    by (rewrite Z.mod_small by lia; lia).
  assert ((rt_scheduler_lock_nest k + 1 - 1 + 2 ^ 15) mod 2 ^ 16 - 2 ^ 15 = rt_scheduler_lock_nest k) as ->
    by (rewrite Z.mod_small by lia; lia).
  destruct (Z.leb_spec (rt_scheduler_lock_nest k) 0) as [Hle|Hgt]; [|wp_pure; apply HPhi; [exact Hk|by split_and!]].
  assert (rt_scheduler_lock_nest k = 0) as E0 by lia. wp_pure. wp_use (rt_schedule_spec act _ Q t0); [exact Hk|done|].
  intros [] k' Hs. apply HPhi; [refine (scheduled_KIx act _ Q k' _ Hs); exact Hk|].
  destruct Hs as (Hsw & _ & Eth & Ee & Et & _). injection Ee as _ _ _ _ _ En _ _. injection Et as Eo Etm _. simpl in *.
  split_and!; [done|done|done|by rewrite E0|]. destruct Hsw as (t & p & _ & Hc & _). rewrite Hc. by split.
Qed.

Lemma device_find_spec act k Q nms nm ds :
  KIx act k Q -> device_list Q ds -> stored_names k nms (ODevice <$> ds) -> no_nul nm -> may_schedule k ->
  wp (rt_device_find nm) (fun r k' => KIx act k' Q /\ same_search k k' /\ first_named nms nm (ODevice <$> ds) (ODevice <$> r)) k.
Proof.
  intros Hk Hl Hst Hnm Hms. destruct (find_name_first k nms nm (ODevice <$> ds) Hst Hnm) as (r & Hr & Hf).
  assert (forall k' (Phi : option objid -> kernel -> Prop), lists k' = lists k -> objects k' = objects k -> Phi r k' ->
    wp (find_object nm RT_Object_Class_Device) Phi k') as Hfind.
  { intros k' Phi El Eo HPhi. unfold find_object. wp_pure. eapply wp_of_option; [reflexivity|]. wp_step. rewrite El.
    eapply wp_of_option; [by eapply Rep_nodes; [apply Hk|]|]. eapply wp_of_option; [|done].
    rewrite <- Hr. clear -Eo. induction (ODevice <$> ds) as [|o xs IH]; [done|]. rewrite fmap_cons. cbn [find_name object_entry]. by rewrite Eo, IH. }
  assert (exists o, r = ODevice <$> o) as [o ->].
  { destruct r as [x|]; [|by exists None]. destruct Hf as (ys & zs & E & _). assert (x ∈ ODevice <$> ds) as (d & -> & _)%list_elem_of_fmap
      by (rewrite E; set_solver). by exists (Some d). }
  unfold rt_device_find, rt_thread_self. wp_step. apply wp_get. destruct (rt_current_thread k) as [t|] eqn:Ecur.
  - unfold rt_enter_critical. wp_step. apply wp_modify. wp_step. apply Hfind; [done|done|]. wp_step. apply wp_get. cbn [rt_current_thread set_rt_scheduler_lock_nest].
    rewrite Ecur. wp_step. eapply critical_search; [exact Hk|congruence|done|]. intros k' Hk' Hs. destruct o as [d|]; simpl; by apply wp_ret.
  - wp_step. apply wp_ret. wp_step. apply Hfind; [done|done|]. wp_step. apply wp_get. rewrite Ecur. wp_step. apply wp_ret.
    assert (same_search k k) as Hs by (split_and!; done). destruct o as [d|]; simpl; by apply wp_ret.
Qed.

(** A registered device is found by its name, and no second device can take it. *)
Theorem rt_device_register_find {world} act k Q nms nm ds d e flags flags' (s : @dev_state world) :
  KIx act k Q -> containers Q -> detached Q (ObjNode (ODevice d)) -> device_list Q ds -> stored_names k nms (ODevice <$> ds) ->
  no_nul nm -> (forall x, x ∈ ds -> ~ same_name (nms (ODevice x)) nm) -> may_schedule k ->
  wp (let! r := rt_device_register d nm flags in
      let! found := on_fst (rt_device_find nm) in
      let! again := rt_device_register e nm flags' in
      ret (r, found, again))
    (fun r st => r = (RT_EOK, Some d, - RT_ERROR) /\ dflag (devices st.2 d) = u16 flags /\ ref_count (devices st.2 d) = 0 /\
      exists Q', KIx act st.1 Q' /\ device_list Q' (d :: ds)) (k, s).
Proof.
  intros Hk Hc Hd Hl Hst Hnm Hnew Hms. unfold rt_device_register.
  wp_step. wp_step. apply wp_on_fst. eapply wp_mono; [by apply (device_find_spec act k Q nms nm ds)|]. cbv beta.
  intros [x|] k1 (Hk1 & (Eth1 & Eo1 & _ & En1 & Ec1) & Hf).
  { destruct Hf as (ys & zs & E & Hs & _). assert (ODevice x ∈ ODevice <$> ds) as (y & [= <-] & Hy)%list_elem_of_fmap by (rewrite E; set_solver).
    by apply Hnew in Hy. }
  wp_step. apply wp_on_fst. eapply wp_mono; [by apply (rt_object_init_spec act k1 Q (ODevice d) nm)|]. cbv beta.
  intros [] k2 (xs & h & Hxs & Hk2 & ->). change (object_class (ODevice d)) with RT_Object_Class_Device in *. unfold device_list in Hl. rewrite Hl in Hxs. injection Hxs as <-.
  set (Q2 := <[ObjHead RT_Object_Class_Device := _]> _) in Hk2. set (k2 := set_lists h _) in *.
  unfold upd_device. wp_step. apply wp_on_snd, wp_modify. wp_step. apply wp_on_snd, wp_modify. apply wp_ret. cbn [devices].
  rewrite fn_lookup_insert, fn_insert_insert'.
  assert (device_list Q2 (d :: ds)) as Hl2 by (unfold device_list, Q2; by rewrite lookup_insert_eq).
  assert (d ∉ ds) as Hnd.
  { intros Hin. destruct (Hd _ _ Hl) as [Hni _]. apply Hni. apply list_elem_of_fmap. exists (ODevice d). split; [done|]. apply list_elem_of_fmap. by exists d. }
  set (nms2 := <[ODevice d := nm]> nms).
  assert (stored_names k2 nms2 (ODevice <$> (d :: ds))) as Hst2.
  { intros o Ho. rewrite fmap_cons in Ho. apply elem_of_cons in Ho as [->|Ho].
    - unfold nms2, k2. simpl. rewrite !fn_lookup_insert. done.
    - assert (o <> ODevice d) as Hne by (intros ->; apply list_elem_of_fmap in Ho as (y & [= <-] & Hy); done).
      unfold nms2, k2. simpl. rewrite !fn_lookup_insert_ne by done. rewrite Eo1. by apply Hst. }
  assert (may_schedule k2) as Hms2.
  { intros Hcur. destruct (Hms (fun H => Hcur (proj2 Ec1 H))) as [[t Ht] Hn]. split; [exists t|]; unfold k2; simpl; rewrite ?Eth1, ?En1; done. }
  assert (forall k', KIx act k' Q2 -> stored_names k' nms2 (ODevice <$> (d :: ds)) -> may_schedule k' ->
    wp (rt_device_find nm) (fun r k3 => r = Some d /\ KIx act k3 Q2 /\ same_search k' k3) k') as Hfind.
  { intros k' Hk' Hs' Hm'. eapply wp_mono; [by apply (device_find_spec act k' Q2 nms2 nm (d :: ds))|]. cbv beta. intros r k3 (Hk3 & Hsame & Hfst).
    split_and!; [|done|done]. destruct r as [y|].
    - destruct Hfst as (ys & zs & E & Hy & Hys). destruct ys as [|z ys]; [by injection E as ->|]. injection E as <- _.
      exfalso. apply (Hys (ODevice d)); [set_solver|]. unfold nms2. by rewrite fn_lookup_insert.
    - exfalso. apply (Hfst (ODevice d)); [set_solver|]. unfold nms2. by rewrite fn_lookup_insert. }
  wp_step. apply wp_on_fst. eapply wp_mono; [by apply (Hfind k2)|]. cbv beta. intros ? k3 (-> & Hk3 & Es3 & Eo3 & _ & En3 & Ec3).
  wp_step. wp_step. apply wp_on_fst. eapply wp_mono; [apply (Hfind k3)|].
  - done.
  - intros o Ho. rewrite Eo3. by apply Hst2.
  - intros Hcur. destruct (Hms2 (fun H => Hcur (proj2 Ec3 H))) as [[t Ht] Hn]. split; [exists t|]; rewrite ?Es3, ?En3; done.
  - cbv beta. intros ? k4 (-> & Hk4 & _). apply wp_ret, wp_ret. cbn [fst snd devices]. rewrite fn_lookup_insert. split_and!; [done|done|done|eauto].
Qed.
End names.
