(* ===== verification/Heap.v ===== *)
(** The heap of src/mem.c: first fit over blocks that tile one region, each behind a
    header of 16 bytes with the offsets of its neighbours.

    The state is the memory of bytes with the globals of mem.c; the headers are read
    and written in that memory.  The functions take the semaphore of the heap for the
    time they work on the blocks: [heap_sem] is an object of the kernel model, and a
    call that has to wait returns [Blocked] and goes on in its [_locked] part.
    RT_ASSERT, the debug log and the hooks are compiled out or unset.

    Offsets and sizes are [rt_size_t]; every subtraction wraps at 32 bits. *)

From S2P Require Import Prelude RtList KState Ffs KInv Sched Object Timer Thread Ipc Sem Mem.

Open Scope Z_scope.

(** * State *)

Definition HEAP_MAGIC : Z := 0x1ea0.
Definition MIN_SIZE : Z := 12.
Definition MIN_SIZE_ALIGNED : Z := RT_ALIGN MIN_SIZE RT_ALIGN_SIZE.
Definition SIZEOF_STRUCT_MEM : Z := RT_ALIGN 12 RT_ALIGN_SIZE.

Record heap : Type := mk_heap {
  hmem : memory;
  heap_ptr : Z;
  heap_end : Z;
  lfree : Z;
  mem_size_aligned : Z;
  used_mem : Z;
  max_mem : Z }.

Definition set_hmem (x : memory) (h : heap) : heap :=
  mk_heap x (heap_ptr h) (heap_end h) (lfree h) (mem_size_aligned h) (used_mem h) (max_mem h).
Definition set_lfree (x : Z) (h : heap) : heap :=
  mk_heap (hmem h) (heap_ptr h) (heap_end h) x (mem_size_aligned h) (used_mem h) (max_mem h).
Definition set_used_mem (x : Z) (h : heap) : heap :=
  mk_heap (hmem h) (heap_ptr h) (heap_end h) (lfree h) (mem_size_aligned h) x (max_mem h).
Definition set_max_mem (x : Z) (h : heap) : heap :=
  mk_heap (hmem h) (heap_ptr h) (heap_end h) (lfree h) (mem_size_aligned h) (used_mem h) x.

(** ** struct heap_mem: the header at address [p] *)

Definition magic_of (m : memory) (p : Z) : Z := get16 m p.
Definition used_of (m : memory) (p : Z) : Z := get16 m (p + 2).
Definition next_of (m : memory) (p : Z) : Z := get32 m (p + 4).
Definition prev_of (m : memory) (p : Z) : Z := get32 m (p + 8).

Notation H := (M heap) (only parsing).

Definition set_magic (p v : Z) : H unit := modify (fun h => set_hmem (put16 p v (hmem h)) h).
Definition set_used (p v : Z) : H unit := modify (fun h => set_hmem (put16 (p + 2) v (hmem h)) h).
Definition set_next (p v : Z) : H unit := modify (fun h => set_hmem (put32 (p + 4) v (hmem h)) h).
Definition set_prev (p v : Z) : H unit := modify (fun h => set_hmem (put32 (p + 8) v (hmem h)) h).

(** * Operations on the blocks *)

(** plug_holes: a hole behind [mem] *)
Definition plug_forward (mem : Z) : H unit :=
  let! h := get in
  let nmem := heap_ptr h + next_of (hmem h) mem in
  if negb (mem =? nmem) && (used_of (hmem h) nmem =? 0) && negb (nmem =? heap_end h) then
    (if lfree h =? nmem then modify (set_lfree mem) else ret tt) ;!
    set_next mem (next_of (hmem h) nmem) ;!
    let! h := get in
    set_prev (heap_ptr h + next_of (hmem h) nmem) (mem - heap_ptr h)
  else ret tt.

(** plug_holes: a hole before [mem] *)
Definition plug_backward (mem : Z) : H unit :=
  let! h := get in
  let pmem := heap_ptr h + prev_of (hmem h) mem in
  if negb (pmem =? mem) && (used_of (hmem h) pmem =? 0) then
    (if lfree h =? mem then modify (set_lfree pmem) else ret tt) ;!
    set_next pmem (next_of (hmem h) mem) ;!
    let! h := get in
    set_prev (heap_ptr h + next_of (hmem h) mem) (pmem - heap_ptr h)
  else ret tt.

Definition plug_holes (mem : Z) : H unit := plug_forward mem ;! plug_backward mem.

(** used_mem += n, and max_mem *)
Definition count_used (n : Z) : H unit :=
  modify (fun h => set_used_mem (u32 (used_mem h + n)) h) ;!
  modify (fun h => if max_mem h <? used_mem h then set_max_mem (used_mem h) h else h).

(** rt_malloc: [while (lfree->used && lfree != heap_end)] *)
Fixpoint lfree_loop (fuel : nat) : H unit :=
  match fuel with
  | O => fail OutOfFuel
  | S fuel =>
      let! h := get in
      if negb (used_of (hmem h) (lfree h) =? 0) && negb (lfree h =? heap_end h) then
        modify (set_lfree (heap_ptr h + next_of (hmem h) (lfree h))) ;! lfree_loop fuel
      else ret tt
  end.

Definition block_fuel (h : heap) : nat := Z.to_nat (mem_size_aligned h + SIZEOF_STRUCT_MEM).

(** rt_malloc: the block at offset [ptr] is taken, split when the rest can be a block. *)
Definition take_block (ptr size : Z) : H Z :=
  let! h := get in
  let mem := heap_ptr h + ptr in
  (if u32 (size + SIZEOF_STRUCT_MEM + MIN_SIZE_ALIGNED) <=? u32 (next_of (hmem h) mem - (ptr + SIZEOF_STRUCT_MEM)) then
     let ptr2 := u32 (ptr + SIZEOF_STRUCT_MEM + size) in
     let mem2 := heap_ptr h + ptr2 in
     set_used mem2 0 ;!
     set_next mem2 (next_of (hmem h) mem) ;!
     set_prev mem2 ptr ;!
     set_next mem ptr2 ;!
     set_used mem 1 ;!
     let! h := get in
     (if negb (next_of (hmem h) mem2 =? u32 (mem_size_aligned h + SIZEOF_STRUCT_MEM)) then
        set_prev (heap_ptr h + next_of (hmem h) mem2) ptr2
      else ret tt) ;!
     count_used (size + SIZEOF_STRUCT_MEM)
   else
     set_used mem 1 ;!
     let! h := get in
     count_used (next_of (hmem h) mem - (mem - heap_ptr h))) ;!
  set_magic mem HEAP_MAGIC ;!
  let! h := get in
  (if mem =? lfree h then lfree_loop (block_fuel h) else ret tt) ;!
  ret (mem + SIZEOF_STRUCT_MEM).

(** rt_malloc: the loop over the blocks *)
Fixpoint malloc_loop (fuel : nat) (ptr size : Z) : H (option Z) :=
  match fuel with
  | O => fail OutOfFuel
  | S fuel =>
      let! h := get in
      if ptr <? u32 (mem_size_aligned h - size) then
        let mem := heap_ptr h + ptr in
        if (used_of (hmem h) mem =? 0) && (size <=? u32 (next_of (hmem h) mem - (ptr + SIZEOF_STRUCT_MEM))) then
          let! p := take_block ptr size in ret (Some p)
        else malloc_loop fuel (next_of (hmem h) mem) size
      else ret None
  end.

(** rt_malloc between rt_sem_take and rt_sem_release *)
Definition malloc_blocks (size : Z) : H (option Z) :=
  let! h := get in malloc_loop (block_fuel h) (lfree h - heap_ptr h) size.

(** The size rt_malloc looks for: None when there is no such block at all *)
Definition malloc_size (size : Z) (h : heap) : option Z :=
  if size =? 0 then None
  else
    let size := RT_ALIGN size RT_ALIGN_SIZE in
    if size >? mem_size_aligned h then None
    else Some (if size <? MIN_SIZE_ALIGNED then MIN_SIZE_ALIGNED else size).

(** rt_free between rt_sem_take and rt_sem_release; pointers are compared as unsigned. *)
Definition free_blocks (rmem : Z) : H unit :=
  let mem := rmem - SIZEOF_STRUCT_MEM in
  set_used mem 0 ;!
  set_magic mem 0 ;!
  let! h := get in
  (if mem <? lfree h then modify (set_lfree mem) else ret tt) ;!
  modify (fun h => set_used_mem (u32 (used_mem h - (next_of (hmem h) mem - (mem - heap_ptr h)))) h) ;!
  plug_holes mem.

(** rt_realloc between rt_sem_take and its rt_sem_release: [None] when the block has
    to move, with its size *)
Inductive realloc_result : Type := Stays | Moves (size : Z).

Definition realloc_blocks (rmem newsize : Z) : H realloc_result :=
  let! h := get in
  if (rmem <? heap_ptr h) || (heap_end h <=? rmem) then ret Stays
  else
    let mem := rmem - SIZEOF_STRUCT_MEM in
    let ptr := mem - heap_ptr h in
    let size := u32 (next_of (hmem h) mem - ptr - SIZEOF_STRUCT_MEM) in
    if size =? newsize then ret Stays
    else if u32 (newsize + SIZEOF_STRUCT_MEM + MIN_SIZE) <? size then
      modify (fun h => set_used_mem (u32 (used_mem h - (size - newsize))) h) ;!
      let ptr2 := u32 (ptr + SIZEOF_STRUCT_MEM + newsize) in
      let mem2 := heap_ptr h + ptr2 in
      set_magic mem2 HEAP_MAGIC ;!
      set_used mem2 0 ;!
      set_next mem2 (next_of (hmem h) mem) ;!
      set_prev mem2 ptr ;!
      set_next mem ptr2 ;!
      let! h := get in
      (if negb (next_of (hmem h) mem2 =? u32 (mem_size_aligned h + SIZEOF_STRUCT_MEM)) then
         set_prev (heap_ptr h + next_of (hmem h) mem2) ptr2
       else ret tt) ;!
      plug_holes mem2 ;!
      ret Stays
    else ret (Moves size).

(** * Operations of the kernel *)

Section locked.
Context (heap_sem : nat).

Notation S := (M (kernel * heap)) (only parsing).

(** rt_system_heap_init *)
Definition rt_system_heap_init (begin_addr end_addr : Z) : S unit :=
  let begin_align := RT_ALIGN begin_addr RT_ALIGN_SIZE in
  let end_align := RT_ALIGN_DOWN end_addr RT_ALIGN_SIZE in
  if (end_align >? 2 * SIZEOF_STRUCT_MEM) && (u32 (end_align - 2 * SIZEOF_STRUCT_MEM) >=? begin_align) then
    on_snd (
      let size := u32 (end_align - begin_align - 2 * SIZEOF_STRUCT_MEM) in
      modify (fun h => mk_heap (hmem h) begin_align (heap_end h) (lfree h) size (used_mem h) (max_mem h)) ;!
      let mem := begin_align in
      set_magic mem HEAP_MAGIC ;!
      set_next mem (size + SIZEOF_STRUCT_MEM) ;!
      set_prev mem 0 ;!
      set_used mem 0 ;!
      modify (fun h => mk_heap (hmem h) (heap_ptr h) (heap_ptr h + next_of (hmem h) mem) (lfree h)
                         (mem_size_aligned h) (used_mem h) (max_mem h)) ;!
      let! h := get in
      set_magic (heap_end h) HEAP_MAGIC ;!
      set_used (heap_end h) 1 ;!
      set_next (heap_end h) (size + SIZEOF_STRUCT_MEM) ;!
      set_prev (heap_end h) (size + SIZEOF_STRUCT_MEM)) ;!
    on_fst (rt_sem_init heap_sem [104; 101; 97; 112] 1 RT_IPC_FLAG_FIFO) ;!
    on_snd (modify (fun h => set_lfree (heap_ptr h) h))
  else ret tt.

(** A function that works on the blocks behind the semaphore; [Blocked] when the
    semaphore is not free, and then [locked body] is what remains. *)
Definition locked {A} (body : H A) : S A :=
  let! a := on_snd body in
  on_fst (rt_sem_release heap_sem) ;!
  ret a.

Definition with_heap_sem {A} (body : H A) : S (call_result A) :=
  let! r := on_fst (rt_sem_take heap_sem RT_WAITING_FOREVER) in
  match r with
  | Blocked => ret Blocked
  | Done _ => let! a := locked body in ret (Done a)
  end.

(** rt_malloc *)
Definition rt_malloc (size : Z) : S (call_result (option Z)) :=
  let! s := get in
  match malloc_size size s.2 with
  | None => ret (Done None)
  | Some size => with_heap_sem (malloc_blocks size)
  end.

(** rt_free; RT_NULL is [None] *)
Definition rt_free (rmem : option Z) : S (call_result unit) :=
  match rmem with
  | None => ret (Done tt)
  | Some rmem =>
      let! s := get in
      if (rmem <? heap_ptr s.2) || (heap_end s.2 <=? rmem) then ret (Done tt)
      else with_heap_sem (free_blocks rmem)
  end.

(** rt_calloc, when rt_malloc returns at once or after it has waited *)
Definition calloc_done (p : option Z) (count size : Z) : S (option Z) :=
  match p with
  | Some p => on_snd (fun h => match rt_memset p 0 (u32 (count * size)) (hmem h) with
                                | Ret _ m => Ret (Some p) (set_hmem m h)
                                | Fail e => Fail e
                                end)
  | None => ret None
  end.

Definition rt_calloc (count size : Z) : S (call_result (option Z)) :=
  let! r := rt_malloc (u32 (count * size)) in
  match r with
  | Blocked => ret Blocked
  | Done p => let! p := calloc_done p count size in ret (Done p)
  end.

(** rt_realloc where no call has to wait; RT_NULL is [None] *)
Definition rt_realloc (rmem : option Z) (newsize : Z) : S (call_result (option Z)) :=
  let newsize := RT_ALIGN newsize RT_ALIGN_SIZE in
  let! s := get in
  if newsize >? mem_size_aligned s.2 then ret (Done None)
  else
    match rmem with
    | None => rt_malloc newsize
    | Some rmem =>
        let! r := with_heap_sem (realloc_blocks rmem newsize) in
        match r with
        | Blocked => ret Blocked
        | Done Stays => ret (Done (Some rmem))
        | Done (Moves size) =>
            let! r := rt_malloc newsize in
            match r with
            | Blocked => ret Blocked
            | Done None => ret (Done None)
            | Done (Some nmem) =>
                on_snd (fun h => match rt_memcpy nmem rmem (if size <? newsize then size else newsize) (hmem h) with
                                  | Ret _ m => Ret tt (set_hmem m h)
                                  | Fail e => Fail e
                                  end) ;!
                let! r := rt_free (Some rmem) in
                match r with
                | Blocked => ret Blocked
                | Done _ => ret (Done (Some nmem))
                end
            end
        end
    end.

(** rt_memory_info *)
Definition rt_memory_info (s : kernel * heap) : Z * Z * Z := (mem_size_aligned s.2, used_mem s.2, max_mem s.2).
End locked.
