(* ===== verification/HeapBlocks.v ===== *)
(** The blocks of the heap: what the headers in memory say, and how a change of some
    adjacent blocks leaves the others and their data alone. *)

From S2P Require Import Prelude KState Mem Heap.

Open Scope Z_scope.

(** * Headers *)

Section headers.
Implicit Types (m : memory) (a b v : Z).

Lemma get16_put16_out m a b v : a + 2 <= b \/ b + 2 <= a -> get16 (put16 b v m) a = get16 m a.
Proof. intros. apply get16_ext; apply put16_out; lia. Qed.
Lemma get16_put32_out m a b v : a + 2 <= b \/ b + 4 <= a -> get16 (put32 b v m) a = get16 m a.
Proof. intros. apply get16_ext; apply put32_out; lia. Qed.
Lemma get32_put16_out m a b v : a + 4 <= b \/ b + 2 <= a -> get32 (put16 b v m) a = get32 m a.
Proof. intros. apply get32_ext. intros. apply put16_out. lia. Qed.
Lemma get32_put32_out m a b v : a + 4 <= b \/ b + 4 <= a -> get32 (put32 b v m) a = get32 m a.
Proof. intros. apply get32_ext. intros. apply put32_out. lia. Qed.
End headers.

(** Evaluate a field after stores to fields. *)
Ltac field :=
  unfold magic_of, used_of, next_of, prev_of in *;
  repeat first
    [ rewrite get16_put16 | rewrite get32_put32
    | rewrite get16_put16_out by lia | rewrite get16_put32_out by lia
    | rewrite get32_put16_out by lia | rewrite get32_put32_out by lia ].

(** A byte outside the fields that are stored *)
Ltac bytes_out := repeat first [rewrite put16_out by lia | rewrite put32_out by lia].

Lemma sizeof_mem : SIZEOF_STRUCT_MEM = 16.
Proof. reflexivity. Qed.
Lemma min_size : MIN_SIZE_ALIGNED = 16.
Proof. reflexivity. Qed.

(** * Blocks *)

(** [b_size] counts the header. *)
Record block : Type := mk_block { b_used : bool; b_size : Z }.

#[export] Instance block_eq_dec : EqDecision block.
Proof. solve_decision. Defined.

Definition free_block (n : Z) : block := mk_block false n.
Definition used_block (n : Z) : block := mk_block true n.

Definition total (bs : list block) : Z := foldr (fun b n => b_size b + n) 0 bs.
Definition total_used (bs : list block) : Z := foldr (fun b n => (if b_used b then b_size b else 0) + n) 0 bs.

Lemma total_app bs cs : total (bs ++ cs) = total bs + total cs.
Proof. induction bs as [|b bs IH]; simpl; lia. Qed.
Lemma total_used_app bs cs : total_used (bs ++ cs) = total_used bs + total_used cs.
Proof. induction bs as [|b bs IH]; simpl; lia. Qed.

(** The offset of the last block of [bs], which begins at [off]; of the block before when
    there is none *)
Fixpoint last_off (prev off : Z) (bs : list block) : Z :=
  match bs with
  | [] => prev
  | b :: bs => last_off off (off + b_size b) bs
  end.

Lemma last_off_snoc prev off bs b : last_off prev off (bs ++ [b]) = off + total bs.
Proof. revert prev off. induction bs as [|c bs IH]; intros; simpl; [lia|]. rewrite IH. lia. Qed.

Lemma last_off_cases prev bs : last_off prev 0 bs = match bs with [] => prev | _ => total (removelast bs) end.
Proof.
  destruct bs as [|b bs] using rev_ind; [done|]. rewrite last_off_snoc, removelast_snoc. by destruct bs.
Qed.

Definition block_ok (b : block) : Prop := 16 <= b_size b /\ (8 | b_size b).

(** The header at offset [off] describes [b]. *)
Record header m (base prev off : Z) (b : block) : Prop := {
  hd_used : used_of m (base + off) = if b_used b then 1 else 0;
  hd_next : next_of m (base + off) = off + b_size b;
  hd_prev : prev_of m (base + off) = prev;
  hd_magic : b_used b = true -> magic_of m (base + off) = HEAP_MAGIC;
  hd_ok : block_ok b }.

Fixpoint tiles m (base prev off : Z) (bs : list block) : Prop :=
  match bs with
  | [] => True
  | b :: bs => header m base prev off b /\ tiles m base off (off + b_size b) bs
  end.

Section tiling.
Implicit Types (m : memory) (base off prev : Z) (bs : list block).

Lemma tiles_app m base prev off bs cs :
  tiles m base prev off (bs ++ cs) <->
  tiles m base prev off bs /\ tiles m base (last_off prev off bs) (off + total bs) cs.
Proof.
  revert prev off. induction bs as [|b bs IH]; intros; simpl; [rewrite Z.add_0_r; tauto|].
  rewrite IH. replace (off + b_size b + total bs) with (off + (b_size b + total bs)) by lia. tauto.
Qed.

Lemma tiles_total m base prev off bs : tiles m base prev off bs -> 0 <= total bs /\ (8 | total bs).
Proof.
  revert prev off. induction bs as [|b bs IH]; intros prev off; simpl.
  - split; [lia|apply Z.divide_0_r].
  - intros [[_ _ _ _ [H1 H2]] [H3 H4]%IH]. split; [lia|by apply Z.divide_add_r].
Qed.

(** A header is 12 bytes. *)
Lemma header_frame m m' base prev off b :
  header m base prev off b -> (forall a, base + off <= a < base + off + 12 -> m' a = m a) -> header m' base prev off b.
Proof.
  intros [H1 H2 H3 H4 H5] H. split; [| | | |done]; unfold magic_of, used_of, next_of, prev_of in *.
  - rewrite (get16_ext m' m); [done|apply H; lia..].
  - rewrite (get32_ext m' m); [done|intros; apply H; lia].
  - rewrite (get32_ext m' m); [done|intros; apply H; lia].
  - rewrite (get16_ext m' m); [done|apply H; lia..].
Qed.

Lemma tiles_frame m m' base prev off bs :
  tiles m base prev off bs -> (forall a, base + off <= a < base + off + total bs -> m' a = m a) -> tiles m' base prev off bs.
Proof.
  revert prev off. induction bs as [|b bs IH]; intros prev off; simpl; [done|]. intros [Hb Hbs] H.
  pose proof (tiles_total _ _ _ _ _ Hbs) as [? _]. pose proof (hd_ok _ _ _ _ _ Hb) as [? _]. split.
  - apply (header_frame m); [done|]. intros a Ha. apply H. lia.
  - apply IH; [done|]. intros a Ha. apply H. lia.
Qed.

(** The bytes below [base + lo] and from [base + hi] on are kept, the field prev of the
    header at [hi] apart. *)
Record kept base lo hi m m' : Prop := {
  kept_below : forall a, a < base + lo -> m' a = m a;
  kept_above : forall a, base + hi <= a -> a < base + hi + 8 \/ base + hi + 12 <= a -> m' a = m a }.

Lemma kept_refl base lo hi m : kept base lo hi m m.
Proof. done. Qed.

Lemma kept_trans base lo lo' hi hi' m1 m2 m3 :
  lo' <= lo -> hi <= hi' -> hi = hi' \/ hi + 12 <= hi' -> kept base lo hi m1 m2 -> kept base lo' hi' m2 m3 -> kept base lo' hi' m1 m3.
Proof.
  intros Hlo Hhi Heq [B1 A1] [B2 A2]. split; intros a Ha; [rewrite B2 by lia; apply B1; lia|].
  intros Ha2. rewrite A2 by done. apply A1; lia.
Qed.

(** The blocks behind [hi] after the change: the first gets its new prev. *)
Lemma tiles_behind m m' base lo hi prev prev' bs :
  kept base lo hi m m' -> tiles m base prev hi bs -> (bs <> [] -> prev_of m' (base + hi) = prev') -> tiles m' base prev' hi bs.
Proof.
  intros [_ H] Ht Hp. destruct bs as [|b bs]; [done|]. destruct Ht as [[H1 H2 H3 H4 H5] Ht]. specialize (Hp ltac:(done)).
  pose proof H5 as [? _]. split.
  - split; [| |done| |done]; unfold magic_of, used_of, next_of in *.
    + rewrite (get16_ext m' m); [done|apply H; lia..].
    + rewrite (get32_ext m' m); [done|intros; apply H; lia].
    + rewrite (get16_ext m' m); [done|apply H; lia..].
  - apply (tiles_frame m); [done|]. intros a Ha. apply H; lia.
Qed.

(** Blocks in the middle are replaced by others of the same total size. *)
Lemma retile m m' base l1 mid mid' l2 :
  tiles m base 0 0 (l1 ++ mid ++ l2) -> total mid' = total mid ->
  kept base (total l1) (total (l1 ++ mid)) m m' ->
  tiles m' base (last_off 0 0 l1) (total l1) mid' ->
  (l2 <> [] -> prev_of m' (base + total (l1 ++ mid)) = last_off 0 0 (l1 ++ mid')) ->
  tiles m' base 0 0 (l1 ++ mid' ++ l2).
Proof.
  intros Ht Hm Hk Hmid Hp. apply tiles_app in Ht as [H1 Ht]. apply tiles_app in Ht as [_ H2]. apply tiles_app. split.
  - apply (tiles_frame m); [done|]. intros a Ha. apply Hk. lia.
  - apply tiles_app. split; [done|].
    assert (forall xs, last_off (last_off 0 0 l1) (total l1) xs = last_off 0 0 (l1 ++ xs)) as Hlast.
    { intros xs. destruct xs as [|x xs] using rev_ind; [by rewrite app_nil_r|].
      rewrite app_assoc, !last_off_snoc, total_app. lia. }
    rewrite !Z.add_0_l, Hlast, Hm in *. rewrite total_app in *. eapply tiles_behind; [done..|]. done.
Qed.
End tiling.

(** * The heap as a list of blocks *)

Record shape (m : memory) (base size : Z) (bs : list block) : Prop := {
  sh_bytes : bytes m;
  sh_base : 0 <= base /\ (8 | base);
  sh_size : 16 <= size /\ (8 | size);
  sh_top : base + size + 32 < 2 ^ 32;
  sh_tiles : tiles m base 0 0 bs;
  sh_total : total bs = size + 16;
  sh_end : used_of m (base + (size + 16)) = 1 }.

(** [shape] of a heap state *)
Definition heap_shape (h : heap) (bs : list block) : Prop :=
  shape (hmem h) (heap_ptr h) (mem_size_aligned h) bs /\ heap_end h = heap_ptr h + (mem_size_aligned h + 16).

Section shapes.
Implicit Types (m : memory) (base size : Z) (h : heap) (bs l mid : list block) (b c : block).

Lemma shape_edit m m' base size l1 mid mid' l2 :
  shape m base size (l1 ++ mid ++ l2) -> bytes m' -> total mid' = total mid ->
  kept base (total l1) (total (l1 ++ mid)) m m' ->
  tiles m' base (last_off 0 0 l1) (total l1) mid' ->
  (l2 <> [] -> prev_of m' (base + total (l1 ++ mid)) = last_off 0 0 (l1 ++ mid')) ->
  shape m' base size (l1 ++ mid' ++ l2).
Proof.
  intros [H1 H2 H3 H4 H5 H6 H7] Hb Hm Hk Ht Hp. split; [done..| | |].
  - by eapply retile.
  - rewrite !total_app in *. lia.
  - apply tiles_app in H5 as [_ H5]. apply tiles_app in H5 as [_ H5].
    assert (total l2 = 0 \/ 16 <= total l2) as Hl2.
    { destruct l2 as [|c l2]; simpl; [by left|right]. destruct H5 as [[_ _ _ _ [? _]] [? _]%tiles_total]. lia. }
    rewrite !total_app in *. destruct Hk as [_ Hk]. rewrite <- H7. unfold used_of. apply get16_ext; apply Hk; lia.
Qed.

(** The header of a block in the middle *)
Lemma shape_header m base size l1 b l2 : shape m base size (l1 ++ b :: l2) ->
  header m base (last_off 0 0 l1) (total l1) b.
Proof. intros [_ _ _ _ H _ _]. apply tiles_app in H as [_ [H _]]. done. Qed.

Lemma shape_range m base size l1 b l2 : shape m base size (l1 ++ b :: l2) ->
  0 <= total l1 /\ (8 | total l1) /\ 16 <= b_size b /\ (8 | b_size b) /\ total l1 + b_size b + total l2 = size + 16 /\
  (l2 = [] \/ 16 <= total l2) /\ base + size + 32 < 2 ^ 32 /\ 0 <= base /\ 0 <= total l2.
Proof.
  intros [_ H2 _ H4 H5 H6 _]. rewrite total_app in H6. simpl in H6. apply tiles_app in H5 as [[? ?]%tiles_total [Hb Ht]].
  destruct Hb as [_ _ _ _ [? ?]]. assert (l2 = [] \/ 16 <= total l2) as Hl2.
  { destruct l2 as [|c l2]; [by left|right]. destruct Ht as [[_ _ _ _ [? _]] [? _]%tiles_total]. simpl. lia. }
  pose proof (tiles_total _ _ _ _ _ Ht) as [? _]. split_and!; (done || lia).
Qed.

(** What is at the end of a block: the next one or the end of the heap *)
Lemma shape_next_used m base size l1 b l2 : shape m base size (l1 ++ b :: l2) ->
  used_of m (base + (total l1 + b_size b)) = match l2 with c :: _ => if b_used c then 1 else 0 | [] => 1 end.
Proof.
  intros Hs. pose proof (shape_range _ _ _ _ _ _ Hs) as (_ & _ & _ & _ & Ht & _). destruct l2 as [|c l2].
  - simpl in Ht. rewrite Z.add_0_r in Ht. rewrite Ht. apply Hs.
  - assert (shape m base size ((l1 ++ [b]) ++ c :: l2)) as Hs' by (by rewrite <- app_assoc).
    apply shape_header in Hs'. rewrite total_app in Hs'. simpl in Hs'. rewrite Z.add_0_r in Hs'. apply Hs'.
Qed.

Lemma last_off_prev l1 b : last_off 0 0 (l1 ++ [b]) = total l1.
Proof. rewrite last_off_snoc. lia. Qed.

(** ** plug_holes *)

(** The memory after two adjacent free blocks at [o1] and [o2] became one *)
Definition merged m base (o1 o2 : Z) : memory :=
  let next := next_of m (base + o2) in
  put32 (base + next + 8) o1 (put32 (base + o1 + 4) next m).

Lemma merged_shape m base size l1 b c l2 :
  shape m base size (l1 ++ b :: c :: l2) -> b_used b = false -> b_used c = false ->
  let m' := merged m base (total l1) (total l1 + b_size b) in
  shape m' base size (l1 ++ free_block (b_size b + b_size c) :: l2) /\
  kept base (total l1) (total (l1 ++ [b; c])) m m'.
Proof.
  intros Hs Hb Hc m'. pose proof (shape_range _ _ _ _ _ _ Hs) as (R1 & R2 & R3 & R4 & R5 & R6 & R7 & R8 & R9). simpl in R5, R9.
  assert (shape m base size ((l1 ++ [b]) ++ c :: l2)) as Hs2 by (by rewrite <- app_assoc).
  pose proof (shape_range _ _ _ _ _ _ Hs2) as (_ & _ & S3 & S4 & S5 & S6 & _ & _ & S9).
  pose proof (shape_header _ _ _ _ _ _ Hs) as [B1 B2 B3 _ B5]. pose proof (shape_header _ _ _ _ _ _ Hs2) as [C1 C2 _ _ C5].
  rewrite total_app in *. simpl in C1, C2, S5 |- *. rewrite !Z.add_0_r in *.
  assert (m' = put32 (base + (total l1 + b_size b + b_size c) + 8) (total l1)
                 (put32 (base + total l1 + 4) (total l1 + b_size b + b_size c) m)) as E.
  { unfold m', merged. by rewrite C2. }
  assert (kept base (total l1) (total l1 + (b_size b + b_size c)) m m') as Hk.
  { split; intros a Ha; [|intros Ha2]; rewrite E, !put32_out by lia; done. }
  split; [|done].
  apply (shape_edit m m' base size l1 [b; c] [free_block (b_size b + b_size c)] l2); [done| | | | |].
  - rewrite E. apply put32_bytes, put32_bytes, Hs.
  - simpl. lia.
  - rewrite total_app. simpl. rewrite Z.add_0_r. done.
  - simpl. split; [|done]. split; simpl; [| | |done|].
    + rewrite E. field. by rewrite Hb in B1.
    + rewrite E. field. rewrite u32_small by lia. lia.
    + rewrite E. field. done.
    + split; simpl; [lia|by apply Z.divide_add_r].
  - intros _. rewrite last_off_prev, total_app, E. simpl. rewrite Z.add_0_r. replace (total l1 + (b_size b + b_size c)) with
      (total l1 + b_size b + b_size c) by lia. field. apply u32_small. lia.
Qed.

(** What remains of [h] when the memory is [m] and lfree is [lf] *)
Definition with_mem m (lf : Z) h : heap := set_hmem m (set_lfree lf h).

Lemma plug_forward_merges h l1 b c l2 :
  heap_shape h (l1 ++ b :: c :: l2) -> b_used b = false -> b_used c = false ->
  let mem := heap_ptr h + total l1 in let nmem := mem + b_size b in
  wp (plug_forward mem) (fun _ h' =>
    h' = with_mem (merged (hmem h) (heap_ptr h) (total l1) (total l1 + b_size b))
           (if lfree h =? nmem then mem else lfree h) h) h.
Proof.
  intros [Hs He] Hb Hc mem nmem. pose proof (shape_range _ _ _ _ _ _ Hs) as (R1 & _ & R3 & _ & R5 & R6 & R7 & R8 & _).
  simpl in R5. pose proof (shape_header _ _ _ _ _ _ Hs) as [B1 B2 _ _ _].
  pose proof (shape_next_used _ _ _ _ _ _ Hs) as Hn. cbv iota in Hn. rewrite Hc in Hn.
  assert (shape (hmem h) (heap_ptr h) (mem_size_aligned h) ((l1 ++ [b]) ++ c :: l2)) as Hs2 by (by rewrite <- app_assoc).
  pose proof (shape_range _ _ _ _ _ _ Hs2) as (_ & _ & S3 & _ & _).
  pose proof (shape_header _ _ _ _ _ _ Hs2) as [_ C2 _ _ _].
  rewrite total_app in C2. simpl in C2. rewrite Z.add_0_r in C2.
  assert (heap_ptr h + (total l1 + b_size b) = nmem) as En by (unfold nmem, mem; lia).
  assert (tiles (hmem h) (heap_ptr h) 0 0 (l1 ++ b :: c :: l2)) as Ht by apply Hs.
  assert (0 <= total l2) as Hl2.
  { change (l1 ++ b :: c :: l2) with (l1 ++ [b; c] ++ l2) in Ht. apply tiles_app in Ht as [_ Ht]. apply tiles_app in Ht as [_ [? _]%tiles_total]. done. }
  unfold plug_forward. wp_step. apply wp_get. fold mem in B2. rewrite B2, En.
  rewrite En in Hn, C2. rewrite Hn, (proj2 (Z.eqb_neq mem nmem)) by (unfold nmem; lia).
  rewrite (proj2 (Z.eqb_neq nmem (heap_end h))) by (rewrite He; unfold nmem, mem; lia). change (0 =? 0) with true. cbn [negb andb].
  set (lf := if lfree h =? nmem then mem else lfree h).
  wp_step. apply wp_mono with (fun _ h1 => h1 = set_lfree lf h).
  { unfold lf. destruct (_ =? _); [apply wp_modify; reflexivity|apply wp_ret; by destruct h]. }
  intros _ ? ->. unfold set_next, set_prev. wp_pure. unfold with_mem, set_hmem, set_lfree. simpl. f_equal.
  unfold merged. rewrite En. replace (mem - heap_ptr h) with (total l1) by (unfold mem; lia). fold mem.
  do 3 f_equal. unfold next_of. apply get32_put32_out. unfold nmem. lia.
Qed.

Lemma plug_forward_stays h l1 b l2 :
  heap_shape h (l1 ++ b :: l2) -> match l2 with c :: _ => b_used c = true | [] => True end ->
  wp (plug_forward (heap_ptr h + total l1)) (fun _ h' => h' = h) h.
Proof.
  intros [Hs He] Hc. pose proof (shape_header _ _ _ _ _ _ Hs) as [_ B2 _ _ _].
  pose proof (shape_next_used _ _ _ _ _ _ Hs) as Hn. unfold plug_forward. wp_step. apply wp_get. rewrite B2, Hn.
  destruct l2 as [|c l2]; [|rewrite Hc]; cbn [negb Z.eqb]; rewrite andb_false_r; by apply wp_ret.
Qed.

Lemma plug_backward_merges h l1 b c l2 :
  heap_shape h (l1 ++ b :: c :: l2) -> b_used b = false -> b_used c = false ->
  let pmem := heap_ptr h + total l1 in let mem := pmem + b_size b in
  wp (plug_backward mem) (fun _ h' =>
    h' = with_mem (merged (hmem h) (heap_ptr h) (total l1) (total l1 + b_size b))
           (if lfree h =? mem then pmem else lfree h) h) h.
Proof.
  intros [Hs He] Hb Hc pmem mem. pose proof (shape_range _ _ _ _ _ _ Hs) as (R1 & _ & R3 & _ & R5 & R6 & R7 & R8 & _).
  pose proof (shape_header _ _ _ _ _ _ Hs) as [B1 _ _ _ _].
  assert (shape (hmem h) (heap_ptr h) (mem_size_aligned h) ((l1 ++ [b]) ++ c :: l2)) as Hs2 by (by rewrite <- app_assoc).
  pose proof (shape_header _ _ _ _ _ _ Hs2) as [_ C2 C3 _ _]. pose proof (shape_range _ _ _ _ _ _ Hs2) as (_ & _ & S3 & _ & _ & _ & _ & _ & S9).
  rewrite last_off_prev in C3. rewrite total_app in C2, C3. simpl in C2, C3. rewrite Z.add_0_r in C2, C3. rewrite Hb in B1.
  assert (heap_ptr h + (total l1 + b_size b) = mem) as En by (unfold pmem, mem; lia). rewrite En in C2, C3.
  unfold plug_backward. wp_step. apply wp_get. rewrite C3. fold pmem. fold pmem in B1. rewrite B1.
  rewrite (proj2 (Z.eqb_neq pmem mem)) by (unfold mem; lia). change (0 =? 0) with true. cbn [negb andb].
  set (lf := if lfree h =? mem then pmem else lfree h).
  wp_step. apply wp_mono with (fun _ h1 => h1 = set_lfree lf h).
  { unfold lf. destruct (_ =? _); [apply wp_modify; reflexivity|apply wp_ret; by destruct h]. }
  intros _ ? ->. unfold set_next, set_prev. wp_pure. unfold with_mem, set_hmem, set_lfree. simpl. f_equal.
  unfold merged. rewrite En. replace (pmem - heap_ptr h) with (total l1) by (unfold pmem; lia). fold pmem.
  do 3 f_equal. unfold next_of. apply get32_put32_out. unfold mem. lia.
Qed.

Lemma plug_backward_stays h l1 b l2 :
  heap_shape h (l1 ++ b :: l2) -> (forall l c, l1 = l ++ [c] -> b_used c = true) ->
  wp (plug_backward (heap_ptr h + total l1)) (fun _ h' => h' = h) h.
Proof.
  intros [Hs He] Hc. pose proof (shape_header _ _ _ _ _ _ Hs) as [_ _ B3 _ _]. unfold plug_backward. wp_step. apply wp_get.
  rewrite B3. destruct l1 as [|c l1 _] using rev_ind.
  - simpl. rewrite Z.eqb_refl. by apply wp_ret.
  - rewrite last_off_prev. rewrite <- app_assoc in Hs. apply shape_header in Hs as [B1 _ _ _ _]. rewrite B1, (Hc l1 c eq_refl).
    rewrite andb_false_r. by apply wp_ret.
Qed.
End shapes.
