(* ===== verification/HeapSpec.v ===== *)
(** What rt_malloc, rt_free and rt_realloc do to the blocks of the heap. *)

From S2P Require Import Prelude KState Mem Heap HeapBlocks.

Open Scope Z_scope.

(** * No two free blocks are adjacent *)

(** [p]: the block before is used, or there is none. *)
Fixpoint coalesced_from (p : bool) (bs : list block) : Prop :=
  match bs with
  | [] => True
  | b :: bs => (p = true \/ b_used b = true) /\ coalesced_from (b_used b) bs
  end.
Definition coalesced (bs : list block) : Prop := coalesced_from true bs.

Fixpoint last_used (p : bool) (bs : list block) : bool :=
  match bs with [] => p | b :: bs => last_used (b_used b) bs end.

Section coalescing.
Implicit Types (bs l : list block) (b c : block) (p q : bool).

Lemma coalesced_app p bs l : coalesced_from p (bs ++ l) <-> coalesced_from p bs /\ coalesced_from (last_used p bs) l.
Proof. revert p. induction bs as [|b bs IH]; intros p; simpl; [tauto|]. rewrite IH. tauto. Qed.

Lemma last_used_app p bs l : last_used p (bs ++ l) = last_used (last_used p bs) l.
Proof. revert p. induction bs as [|b bs IH]; intros p; simpl; [done|apply IH]. Qed.

Lemma last_used_snoc p bs b : last_used p (bs ++ [b]) = b_used b.
Proof. by rewrite last_used_app. Qed.

(** A used block in front makes no difference. *)
Lemma coalesced_weaken p bs : coalesced_from p bs -> coalesced_from true bs.
Proof. destruct bs as [|b bs]; [done|]. simpl. intros [_ ?]. split; [by left|done]. Qed.
End coalescing.

(** * The used blocks in front *)

Fixpoint used_prefix (bs : list block) : list block :=
  match bs with b :: bs => if b_used b then b :: used_prefix bs else [] | [] => [] end.
Fixpoint free_suffix (bs : list block) : list block :=
  match bs with b :: bs' => if b_used b then free_suffix bs' else bs | [] => [] end.

Definition starts_free (bs : list block) : Prop := match bs with b :: _ => b_used b = false | [] => True end.
Definition all_used (bs : list block) : Prop := Forall (fun b => b_used b = true) bs.

Lemma used_free_split bs : used_prefix bs ++ free_suffix bs = bs.
Proof. induction bs as [|b bs IH]; simpl; [done|]. destruct (b_used b); simpl; by rewrite ?IH. Qed.
Lemma used_prefix_used bs : all_used (used_prefix bs).
Proof. induction bs as [|b bs IH]; simpl; [by constructor|]. destruct (b_used b) eqn:E; constructor; done. Qed.
Lemma free_suffix_free bs : starts_free (free_suffix bs).
Proof. induction bs as [|b bs IH]; simpl; [done|]. destruct (b_used b) eqn:E; done. Qed.

(** * The invariant *)

(** The blocks before lfree and from lfree on *)
Record heap_inv (h : heap) (before from : list block) : Prop := {
  hi_shape : heap_shape h (before ++ from);
  hi_lfree : lfree h = heap_ptr h + total before;
  hi_free : starts_free from;
  hi_coalesced : coalesced (before ++ from);
  hi_used : used_mem h = total_used (before ++ from);
  hi_max : used_mem h <= max_mem h <= mem_size_aligned h + 16 }.

(** The first fit among the blocks from offset [off] on, below [limit] *)
Fixpoint find_fit (limit size off : Z) (bs : list block) : option (list block * block * list block) :=
  match bs with
  | [] => None
  | b :: bs =>
      if off <? limit then
        if negb (b_used b) && (size + 16 <=? b_size b) then Some ([], b, bs)
        else (fun r => (b :: r.1.1, r.1.2, r.2)) <$> find_fit limit size (off + b_size b) bs
      else None
  end.

(** What a block becomes when [size] bytes are taken from it *)
Definition taken (size : Z) (b : block) : list block :=
  if size + 48 <=? b_size b then [used_block (size + 16); free_block (b_size b - (size + 16))]
  else [used_block (b_size b)].

Lemma find_fit_spec limit size off bs pre b post : find_fit limit size off bs = Some (pre, b, post) ->
  bs = pre ++ b :: post /\ b_used b = false /\ size + 16 <= b_size b /\ off + total pre < limit.
Proof.
  revert off pre. induction bs as [|c bs IH]; intros off pre; [done|]. simpl.
  destruct (Z.ltb_spec off limit); [|done]. destruct (b_used c) eqn:Ec; cbn [negb andb].
  - destruct (find_fit _ _ _ bs) as [[[pre' b'] post']|] eqn:E; [|done]. simpl. intros [= <- <- <-].
    apply IH in E as (-> & H1 & H2 & H3). simpl. split_and!; [done..|lia].
  - destruct (Z.leb_spec (size + 16) (b_size c)).
    + intros [= <- <- <-]. simpl. split_and!; [done..|lia].
    + destruct (find_fit _ _ _ bs) as [[[pre' b'] post']|] eqn:E; [|done]. simpl. intros [= <- <- <-].
      apply IH in E as (-> & H1 & H2 & H3). simpl. split_and!; [done..|lia].
Qed.

Section proofs.
Implicit Types (m : memory) (h : heap) (bs l : list block) (b c : block).

Lemma tiles_length m base prev off bs : tiles m base prev off bs -> 16 * Z.of_nat (length bs) <= total bs.
Proof.
  revert prev off. induction bs as [|b bs IH]; intros prev off; simpl; [lia|]. intros [[_ _ _ _ [? _]] ?%IH]. lia.
Qed.

Lemma shape_fuel h bs l : heap_shape h (bs ++ l) -> (length l < block_fuel h)%nat.
Proof.
  intros [[_ _ ? _ Ht E _] _]. apply tiles_app in Ht as [[? _]%tiles_total Ht%tiles_length]. rewrite total_app in E.
  unfold block_fuel. rewrite sizeof_mem. lia.
Qed.

(** ** lfree *)

Lemma lfree_loop_spec fuel : forall h l1 l2,
  heap_shape h (l1 ++ l2) -> lfree h = heap_ptr h + total l1 -> (length l2 < fuel)%nat ->
  wp (lfree_loop fuel) (fun _ h' => h' = set_lfree (heap_ptr h + total (l1 ++ used_prefix l2)) h) h.
Proof.
  induction fuel as [|fuel IH]; intros h l1 l2 Hs Hl Hf; [lia|]. cbn [lfree_loop]. wp_step. apply wp_get.
  destruct l2 as [|b l2].
  - assert (lfree h = heap_end h) as E.
    { destruct Hs as [Hs He]. rewrite app_nil_r in Hs. rewrite He, Hl, (sh_total _ _ _ _ Hs). done. }
    rewrite E, Z.eqb_refl, andb_false_r. apply wp_ret. simpl. rewrite app_nil_r, <- Hl. by destruct h.
  - pose proof Hs as [Hsh He]. pose proof (shape_header _ _ _ _ _ _ Hsh) as [B1 B2 _ _ _].
    pose proof (shape_range _ _ _ _ _ _ Hsh) as (R1 & _ & R3 & _ & R5 & _ & _ & _ & R9). rewrite Hl, B1, B2. simpl.
    destruct (b_used b) eqn:Eb.
    + rewrite (proj2 (Z.eqb_neq (heap_ptr h + total l1) (heap_end h))).
      2: { rewrite He. lia. }
      change (1 =? 0) with false. cbn [negb andb]. wp_step. apply wp_modify.
      eapply wp_mono; [apply (IH _ (l1 ++ [b]) l2); [by rewrite <- app_assoc| |simpl in Hf; lia]|].
      * simpl. rewrite total_app. simpl. lia.
      * cbv beta. intros _ h' ->. simpl. rewrite <- app_assoc. done.
    + change (0 =? 0) with true. cbn [negb andb]. apply wp_ret. rewrite app_nil_r, <- Hl. by destruct h.
Qed.

(** ** Taking a block *)

(** The memory when the block at [o] is split at [o2], and when it is not *)
Definition carved m (base o o2 next : Z) (last : bool) : memory :=
  let m1 := put16 (base + o + 2) 1 (put32 (base + o + 4) o2
              (put32 (base + o2 + 8) o (put32 (base + o2 + 4) next (put16 (base + o2 + 2) 0 m)))) in
  put16 (base + o) HEAP_MAGIC (if last then m1 else put32 (base + next + 8) o2 m1).
Definition marked m (base o : Z) : memory := put16 (base + o) HEAP_MAGIC (put16 (base + o + 2) 1 m).

Definition is_nil {A} (l : list A) : bool := match l with [] => true | _ => false end.

Lemma carved_shape m base n l1 b l2 size :
  shape m base n (l1 ++ b :: l2) -> 16 <= size -> (8 | size) -> size + 48 <= b_size b ->
  let m' := carved m base (total l1) (total l1 + 16 + size) (total l1 + b_size b) (is_nil l2) in
  shape m' base n (l1 ++ [used_block (size + 16); free_block (b_size b - (size + 16))] ++ l2) /\
  kept base (total l1) (total (l1 ++ [b])) m m'.
Proof.
  intros Hs H16 H8 Hb m'. pose proof (shape_range _ _ _ _ _ _ Hs) as (R1 & R2 & R3 & R4 & R5 & R6 & R7 & R8 & R9).
  pose proof (shape_header _ _ _ _ _ _ Hs) as [B1 B2 B3 _ _].
  assert (kept base (total l1) (total (l1 ++ [b])) m m') as Hk.
  { rewrite total_app. simpl. rewrite Z.add_0_r. unfold m', carved. split; intros a Ha; [|intros Ha2];
      destruct (is_nil l2); bytes_out; done. }
  split; [|done]. apply (shape_edit m m' base n l1 [b]); [done| | |done| |].
  - unfold m', carved. destruct (is_nil l2); repeat first [apply put16_bytes|apply put32_bytes]; apply Hs.
  - simpl. lia.
  - assert (forall a, a < base + total l1 + b_size b -> m' a =
      put16 (base + total l1) HEAP_MAGIC (put16 (base + total l1 + 2) 1 (put32 (base + total l1 + 4) (total l1 + 16 + size)
        (put32 (base + (total l1 + 16 + size) + 8) (total l1)
          (put32 (base + (total l1 + 16 + size) + 4) (total l1 + b_size b)
            (put16 (base + (total l1 + 16 + size) + 2) 0 m))))) a) as Hm'.
    { intros a Ha. unfold m', carved. destruct (is_nil l2); [done|]. unfold put16 at 1 4. rewrite !put8_lookup.
      by rewrite put32_out by lia. }
    eapply tiles_frame; [|intros a Ha; simpl in Ha; apply Hm'; lia]. simpl. split_and!; [| |done].
    + split; simpl; [field; done|field; rewrite u32_small by lia; lia|field; done|intros _; field; done|].
      split; simpl; [lia|apply Z.divide_add_r; [done|by exists 2]].
    + replace (total l1 + (size + 16)) with (total l1 + 16 + size) by lia.
      split; simpl; [field; done|field; rewrite u32_small by lia; lia|field; apply u32_small; lia|done|].
      split; simpl; [lia|]. apply Z.divide_sub_r; [done|]. apply Z.divide_add_r; [done|by exists 2].
  - intros Hne. rewrite total_app. simpl. rewrite Z.add_0_r.
    change [used_block (size + 16); free_block (b_size b - (size + 16))] with ([used_block (size + 16)] ++ [free_block (b_size b - (size + 16))]).
    rewrite app_assoc, last_off_prev, total_app. simpl. unfold m', carved. destruct l2 as [|c l2]; [done|]. simpl.
    field. rewrite u32_small by lia. lia.
Qed.

Lemma marked_shape m base n l1 b l2 :
  shape m base n (l1 ++ b :: l2) ->
  let m' := marked m base (total l1) in
  shape m' base n (l1 ++ [used_block (b_size b)] ++ l2) /\ kept base (total l1) (total (l1 ++ [b])) m m'.
Proof.
  intros Hs m'. pose proof (shape_range _ _ _ _ _ _ Hs) as (R1 & R2 & R3 & R4 & R5 & R6 & R7 & R8 & R9).
  pose proof (shape_header _ _ _ _ _ _ Hs) as [B1 B2 B3 _ _].
  assert (kept base (total l1) (total (l1 ++ [b])) m m') as Hk.
  { rewrite total_app. simpl. unfold m', marked. split; intros a Ha; [|intros Ha2]; bytes_out; done. }
  split; [|done]. apply (shape_edit m m' base n l1 [b]); [done| |done|done| |].
  - unfold m', marked. apply put16_bytes, put16_bytes, Hs.
  - simpl. split; [|done]. unfold m', marked. split; simpl; [field; done|field; done|field; done|intros _; field; done|done].
  - intros Hne. destruct l2 as [|c l2]; [done|]. assert (shape m base n ((l1 ++ [b]) ++ c :: l2)) as Hs2 by (by rewrite <- app_assoc).
    apply shape_header in Hs2 as [_ _ C3 _ _]. rewrite last_off_prev in C3 |- *. rewrite total_app in *. simpl in *.
    unfold m', marked. field. done.
Qed.

(** ** take_block *)

(** The state after the bookkeeping *)
Definition counted m (n : Z) h : heap :=
  mk_heap m (heap_ptr h) (heap_end h) (lfree h) (mem_size_aligned h) (used_mem h + n) (Z.max (max_mem h) (used_mem h + n)).

Lemma count_used_spec n m h : 0 <= used_mem h + n < 2 ^ 32 ->
  wp (count_used n) (fun _ h' => h' = counted m n h) (set_hmem m h).
Proof.
  intros Hn. unfold count_used. wp_pure. simpl. rewrite u32_small by lia.
  unfold counted, set_max_mem. simpl. destruct (Z.ltb_spec (max_mem h) (used_mem h + n)).
  - by rewrite Z.max_r by lia.
  - unfold set_used_mem. simpl. by rewrite Z.max_l by lia.
Qed.

Lemma total_used_bound m base prev off bs : tiles m base prev off bs -> 0 <= total_used bs <= total bs.
Proof.
  revert prev off. induction bs as [|b bs IH]; intros prev off; simpl; [lia|]. intros [[_ _ _ _ [? _]] ?%IH].
  destruct (b_used b); lia.
Qed.

Lemma taken_total size b : total (taken size b) = b_size b.
Proof. unfold taken. destruct (_ <=? _); simpl; lia. Qed.
Lemma taken_used size b : total_used (taken size b) = if size + 48 <=? b_size b then size + 16 else b_size b.
Proof. unfold taken. destruct (_ <=? _); simpl; lia. Qed.

Lemma take_block_runs h l1 b l2 size : heap_shape h (l1 ++ b :: l2) -> 16 <= size -> (8 | size) -> size + 16 <= b_size b ->
  b_used b = false -> used_mem h = total_used (l1 ++ b :: l2) ->
  exists m', shape m' (heap_ptr h) (mem_size_aligned h) (l1 ++ taken size b ++ l2) /\
    kept (heap_ptr h) (total l1) (total (l1 ++ [b])) (hmem h) m' /\
    forall Phi, wp (if heap_ptr h + total l1 =? lfree h then lfree_loop (block_fuel h) else ret tt)
        (fun _ h' => Phi (heap_ptr h + total l1 + 16) h') (counted m' (total_used (taken size b)) h) ->
      wp (take_block (total l1) size) Phi h.
Proof.
  intros [Hs He] H16 H8 Hb Hf Hu. pose proof (shape_range _ _ _ _ _ _ Hs) as (R1 & R2 & R3 & R4 & R5 & R6 & R7 & R8 & R9).
  pose proof (shape_header _ _ _ _ _ _ Hs) as [B1 B2 B3 _ _].
  pose proof (sh_tiles _ _ _ _ Hs) as Ht. rewrite (total_used_app l1) in Hu. simpl in Hu. rewrite Hf in Hu.
  apply tiles_app in Ht as [T1%total_used_bound [_ T2%total_used_bound]].
  set (o := total l1) in *. set (mem := heap_ptr h + o) in *.
  assert (u32 (next_of (hmem h) mem - (o + SIZEOF_STRUCT_MEM)) = b_size b - 16) as Eroom.
  { rewrite B2, sizeof_mem, u32_small by lia. lia. }
  assert (u32 (o + SIZEOF_STRUCT_MEM + size) = o + 16 + size) as Eo2 by (rewrite sizeof_mem, u32_small by lia; lia).
  rewrite taken_used. unfold taken. destruct (Z.leb_spec (size + 48) (b_size b)).
  - destruct (carved_shape _ _ _ _ _ _ size Hs H16 H8 ltac:(lia)) as [Hsh Hk]. fold o in Hsh, Hk.
    eexists. split; [exact Hsh|]. split; [exact Hk|]. intros Phi HPhi. unfold take_block. wp_step. apply wp_get. fold mem.
    rewrite Eroom, min_size, sizeof_mem, (u32_small (size + 16 + 16)) by lia. rewrite (proj2 (Z.leb_le _ _)) by lia.
    rewrite sizeof_mem in Eo2. rewrite Eo2, B2. wp_step. unfold set_used, set_next, set_prev, set_magic. wp_pure.
    cbn [hmem heap_ptr mem_size_aligned set_hmem].
    match goal with |- wp _ _ (set_hmem ?m _) => set (m1 := m) end.
    assert (next_of m1 (heap_ptr h + (o + 16 + size)) = o + b_size b) as En.
    { unfold m1. field. rewrite u32_small by lia. done. }
    rewrite En, (u32_small (mem_size_aligned h + 16)) by lia.
    apply wp_mono with (fun _ h1 => h1 = set_hmem (if is_nil l2 then m1 else put32 (heap_ptr h + (o + b_size b) + 8) (o + 16 + size) m1) h).
    { destruct l2 as [|c l2]; cbn [is_nil].
      - simpl in R5. rewrite (proj2 (Z.eqb_eq _ _)) by lia. by apply wp_ret.
      - destruct R6 as [?|R6]; [done|]. rewrite (proj2 (Z.eqb_neq _ _)) by lia. by apply wp_modify. }
    intros _ ? ->. wp_use (count_used_spec (size + 16)); [lia|]. intros _ ? ->. wp_pure. exact HPhi.
  - destruct (marked_shape _ _ _ _ _ _ Hs) as [Hsh Hk]. fold o in Hsh, Hk.
    eexists. split; [exact Hsh|]. split; [exact Hk|]. intros Phi HPhi. unfold take_block. wp_step. apply wp_get. fold mem.
    rewrite Eroom, min_size, sizeof_mem, (u32_small (size + 16 + 16)) by lia. rewrite (proj2 (Z.leb_gt _ _)) by lia.
    wp_step. unfold set_used, set_magic. wp_pure. cbn [hmem heap_ptr set_hmem].
    replace (next_of (put16 (mem + 2) 1 (hmem h)) mem - (mem - heap_ptr h)) with (b_size b).
    2: { field. rewrite B2. unfold mem. lia. }
    wp_use (count_used_spec (b_size b)); [lia|]. intros _ ? ->. wp_pure. exact HPhi.
Qed.

Lemma taken_coalesced p size b post : b_used b = false ->
  coalesced_from p (b :: post) -> coalesced_from p (taken size b ++ post).
Proof.
  intros Hb [_ Hc]. rewrite Hb in Hc. unfold taken. destruct (_ <=? _); simpl; split_and!; auto. by eapply coalesced_weaken.
Qed.

(** The blocks after the allocation, before lfree and from lfree on *)
Definition allocated (size : Z) (before pre : list block) b (post : list block) : list block * list block :=
  match pre with
  | [] => (before ++ used_prefix (taken size b ++ post), free_suffix (taken size b ++ post))
  | _ => (before, pre ++ taken size b ++ post)
  end.

Lemma allocated_blocks size before pre b post :
  (allocated size before pre b post).1 ++ (allocated size before pre b post).2 = (before ++ pre) ++ taken size b ++ post.
Proof. destruct pre; cbn [allocated fst snd]; [|by rewrite <- app_assoc]. by rewrite <- app_assoc, used_free_split, app_nil_r. Qed.

Lemma allocated_lowest size before pre b post : all_used before -> all_used (allocated size before pre b post).1.
Proof. destruct pre; [|done]. intros. apply Forall_app. split; [done|apply used_prefix_used]. Qed.

Definition same_heap h h' : Prop :=
  heap_ptr h' = heap_ptr h /\ heap_end h' = heap_end h /\ mem_size_aligned h' = mem_size_aligned h.

(** What an allocation of [size] bytes from [b] does *)
Definition allocates h before pre b post size p h' : Prop :=
  let o := total (before ++ pre) in
  let r := allocated size before pre b post in
  p = heap_ptr h + o + 16 /\ heap_inv h' r.1 r.2 /\ same_heap h h' /\ kept (heap_ptr h) o (o + b_size b) (hmem h) (hmem h').

Lemma take_block_spec h before pre b post size :
  heap_inv h before (pre ++ b :: post) -> b_used b = false -> 16 <= size -> (8 | size) -> size + 16 <= b_size b ->
  wp (take_block (total (before ++ pre)) size) (allocates h before pre b post size) h.
Proof.
  intros [Hs Hl Hfree Hc Hu Hm] Hb H16 H8 Hsz. rewrite app_assoc in Hs, Hc, Hu.
  destruct (take_block_runs h (before ++ pre) b post size Hs H16 H8 Hsz Hb Hu) as (m' & Hsh & Hk & Hrun). apply Hrun. clear Hrun.
  set (bs' := (before ++ pre) ++ taken size b ++ post) in *. set (n := total_used (taken size b)) in *.
  destruct Hs as [Hs He].
  assert (coalesced bs') as Hc'.
  { apply coalesced_app in Hc as [Hc1 Hc2]. apply coalesced_app. split; [done|]. by apply taken_coalesced. }
  assert (used_mem h + n = total_used bs') as Hu'.
  { rewrite Hu. unfold bs', n. rewrite !total_used_app. simpl. rewrite Hb. lia. }
  assert (total_used bs' <= mem_size_aligned h + 16) as Hbound.
  { rewrite <- (sh_total _ _ _ _ Hsh). eapply total_used_bound, (sh_tiles _ _ _ _ Hsh). }
  assert (total (before ++ pre ++ [b]) = total (before ++ pre) + b_size b) as Et by (rewrite !total_app; simpl; lia).
  rewrite <- app_assoc, Et in Hk.
  assert (heap_shape (counted m' n h) bs') as Hs' by done.
  destruct pre as [|c pre].
  - assert (bs' = before ++ taken size b ++ post) as Eb by (unfold bs'; by rewrite app_nil_r). clearbody bs'. subst bs'.
    unfold allocates. rewrite !app_nil_r in *. rewrite (proj2 (Z.eqb_eq _ _)) by done.
    eapply wp_mono; [apply (lfree_loop_spec _ (counted m' n h) before (taken size b ++ post) Hs' Hl)|].
    { by apply (shape_fuel (counted m' n h) before). }
    cbv beta. intros _ h' ->. split_and!; [done| |done|done]. cbn [allocated fst snd].
    split; simpl; rewrite <- ?app_assoc, ?used_free_split; try done; [|lia]. apply free_suffix_free.
  - rewrite (proj2 (Z.eqb_neq _ _)).
    2: { rewrite Hl, total_app. pose proof (sh_tiles _ _ _ _ Hs) as Ht. apply tiles_app in Ht as [Ht _]. apply tiles_app in Ht as [_ [Hcp Ht]].
      destruct Hcp as [_ _ _ _ [? _]]. apply tiles_total in Ht as [? _]. simpl. lia. }
    apply wp_ret. split_and!; [done| |done|done]. cbn [allocated fst snd].
    split; rewrite ?(app_assoc before (c :: pre)); fold bs'; simpl; try done. lia.
Qed.

(** ** malloc_blocks *)

Lemma malloc_loop_spec fuel : forall h before skipped rest size,
  heap_inv h before (skipped ++ rest) -> 16 <= size <= mem_size_aligned h -> (8 | size) -> (length rest < fuel)%nat ->
  wp (malloc_loop fuel (total (before ++ skipped)) size) (fun r h' =>
    match find_fit (mem_size_aligned h - size) size (total (before ++ skipped)) rest with
    | None => r = None /\ h' = h
    | Some (pre, b, post) => exists p, r = Some p /\ allocates h before (skipped ++ pre) b post size p h'
    end) h.
Proof.
  induction fuel as [|fuel IH]; intros h before skipped rest size Hi Hsz H8 Hf; [lia|]. cbn [malloc_loop]. wp_step. apply wp_get.
  pose proof (hi_shape _ _ _ Hi) as [Hs He]. rewrite (u32_small (mem_size_aligned h - size)) by (destruct Hs; lia).
  destruct rest as [|b rest]; cbn [find_fit].
  - rewrite app_nil_r in Hs. rewrite (sh_total _ _ _ _ Hs), (proj2 (Z.ltb_ge _ _)) by lia. by apply wp_ret.
  - destruct (Z.ltb_spec (total (before ++ skipped)) (mem_size_aligned h - size)); [|by apply wp_ret].
    rewrite app_assoc in Hs. pose proof (shape_header _ _ _ _ _ _ Hs) as [B1 B2 _ _ _].
    pose proof (shape_range _ _ _ _ _ _ Hs) as (R1 & _ & R3 & _ & R5 & _ & R7 & R8 & R9).
    rewrite B1, B2, sizeof_mem, u32_small by lia.
    replace (total (before ++ skipped) + b_size b - (total (before ++ skipped) + 16)) with (b_size b - 16) by lia.
    replace (size <=? b_size b - 16) with (size + 16 <=? b_size b) by (destruct (Z.leb_spec (size + 16) (b_size b)), (Z.leb_spec size (b_size b - 16)); lia).
    destruct (negb (b_used b) && (size + 16 <=? b_size b)) eqn:E.
    + apply andb_true_iff in E as [E1%negb_true_iff E2%Z.leb_le]. rewrite E1. change (0 =? 0) with true. rewrite (proj2 (Z.leb_le _ _)) by lia.
      cbn [andb]. rewrite app_nil_r. wp_use (take_block_spec h before skipped b rest size); [done|done|lia|done|lia|].
      intros p h' Hp. apply wp_ret. by exists p.
    + replace ((if b_used b then 1 else 0) =? 0) with (negb (b_used b)) by (by destruct (b_used b)). rewrite E.
      replace (total (before ++ skipped) + b_size b) with (total (before ++ skipped ++ [b])) by (rewrite !total_app; simpl; lia).
      eapply wp_mono; [apply (IH h before (skipped ++ [b]) rest size); [by rewrite <- app_assoc|done|done|simpl in Hf; lia]|].
      cbv beta. intros r h'.
      destruct (find_fit _ _ _ rest) as [[[pre c] post]|]; simpl; [|done]. intros (p & -> & Hp). exists p. split; [done|].
      rewrite <- app_assoc in Hp. done.
Qed.

Lemma malloc_blocks_spec h before from size :
  heap_inv h before from -> 16 <= size <= mem_size_aligned h -> (8 | size) ->
  wp (malloc_blocks size) (fun r h' =>
    match find_fit (mem_size_aligned h - size) size (total before) from with
    | None => r = None /\ h' = h
    | Some (pre, b, post) => exists p, r = Some p /\ allocates h before pre b post size p h'
    end) h.
Proof.
  intros Hi Hsz H8. unfold malloc_blocks. wp_step. apply wp_get.
  pose proof (malloc_loop_spec (block_fuel h) h before [] from size Hi Hsz H8) as H. rewrite app_nil_r in H.
  replace (lfree h - heap_ptr h) with (total before) by (rewrite (hi_lfree _ _ _ Hi); lia).
  apply H. eapply shape_fuel, (hi_shape _ _ _ Hi).
Qed.
End proofs.
