(* ===== verification/HeapFree.v ===== *)
(** rt_free and rt_realloc on the blocks of the heap. *)

From S2P Require Import Prelude KState Mem Heap HeapBlocks HeapSpec.

Open Scope Z_scope.

(** * The free neighbours of a block *)

(** The blocks behind without a free first one, and its size *)
Definition next_rest (l : list block) : list block :=
  match l with c :: l' => if b_used c then l else l' | [] => [] end.
Definition next_size (l : list block) : Z :=
  match l with c :: _ => if b_used c then 0 else b_size c | [] => 0 end.

(** The blocks before without a free last one, and its size *)
Definition prev_rest (l : list block) : list block :=
  match rev l with c :: r => if b_used c then l else rev r | [] => [] end.
Definition prev_size (l : list block) : Z :=
  match rev l with c :: _ => if b_used c then 0 else b_size c | [] => 0 end.

(** The blocks when [b] is free *)
Definition freed (l1 : list block) (b : block) (l2 : list block) : list block :=
  prev_rest l1 ++ free_block (prev_size l1 + b_size b + next_size l2) :: next_rest l2.

Section neighbours.
Implicit Types (l : list block) (b c : block).

Lemma prev_rest_snoc l c : prev_rest (l ++ [c]) = if b_used c then l ++ [c] else l.
Proof. unfold prev_rest. rewrite rev_app_distr. simpl. by rewrite rev_involutive. Qed.
Lemma prev_size_snoc l c : prev_size (l ++ [c]) = if b_used c then 0 else b_size c.
Proof. unfold prev_size. rewrite rev_app_distr. done. Qed.

Lemma prev_total l : total (prev_rest l) + prev_size l = total l.
Proof.
  destruct l as [|c l _] using rev_ind; [done|]. rewrite prev_rest_snoc, prev_size_snoc. destruct (b_used c); rewrite total_app; simpl; lia.
Qed.
Lemma next_total l : next_size l + total (next_rest l) = total l.
Proof. destruct l as [|c l]; simpl; [done|]. destruct (b_used c); simpl; lia. Qed.
Lemma prev_total_used l : total_used (prev_rest l) = total_used l.
Proof.
  destruct l as [|c l _] using rev_ind; [done|]. rewrite prev_rest_snoc. destruct (b_used c) eqn:E; [done|].
  rewrite total_used_app. simpl. rewrite E. lia.
Qed.
Lemma next_total_used l : total_used (next_rest l) = total_used l.
Proof. destruct l as [|c l]; simpl; [done|]. destruct (b_used c) eqn:E; simpl; rewrite ?E; lia. Qed.

Lemma freed_total l1 b l2 : total (freed l1 b l2) = total (l1 ++ b :: l2).
Proof.
  unfold freed. rewrite !total_app. simpl. pose proof (prev_total l1). pose proof (next_total l2). lia.
Qed.
Lemma freed_total_used l1 b l2 : total_used (freed l1 b l2) = total_used l1 + total_used l2.
Proof. unfold freed. rewrite total_used_app. simpl. rewrite prev_total_used, next_total_used. lia. Qed.

Lemma freed_coalesced l1 b l2 : coalesced (l1 ++ b :: l2) -> coalesced (freed l1 b l2).
Proof.
  unfold coalesced, freed. intros [H1 [_ H2]]%coalesced_app. apply coalesced_app.
  assert (coalesced_from true (prev_rest l1) /\ last_used true (prev_rest l1) = true) as [Hp Hl].
  { destruct l1 as [|c l1 _] using rev_ind; [done|]. rewrite prev_rest_snoc. destruct (b_used c) eqn:E.
    - split; [done|]. by rewrite last_used_snoc.
    - apply coalesced_app in H1 as [H1 [[?|?] _]]; [done|congruence]. }
  split; [done|]. simpl. split; [by left|].
  destruct l2 as [|c l2]; [done|]. simpl. destruct (b_used c) eqn:E; simpl in *; [by split; [right|]; destruct H2|].
  destruct H2 as [_ H2]. by rewrite E in H2.
Qed.

Lemma prev_rest_used l : all_used l -> prev_rest l = l.
Proof.
  destruct l as [|c l _] using rev_ind; [done|]. rewrite prev_rest_snoc. intros [_ H]%Forall_app.
  apply Forall_cons in H as [H _]. by rewrite H.
Qed.
End neighbours.

Section proofs.
Implicit Types (m : memory) (h : heap) (bs l : list block) (b c : block).

(** ** plug_holes *)

Definition after_forward l1 b l2 : list block := l1 ++ free_block (b_size b + next_size l2) :: next_rest l2.

Lemma plug_forward_spec h l1 b l2 : heap_shape h (l1 ++ b :: l2) -> b_used b = false ->
  let mem := heap_ptr h + total l1 in
  wp (plug_forward mem) (fun _ h' => exists m',
    h' = with_mem m' (if negb (next_size l2 =? 0) && (lfree h =? mem + b_size b) then mem else lfree h) h /\
    shape m' (heap_ptr h) (mem_size_aligned h) (after_forward l1 b l2) /\
    kept (heap_ptr h) (total l1) (total l1 + b_size b + next_size l2) (hmem h) m') h.
Proof.
  intros Hs Hb mem. unfold after_forward. assert (b = free_block (b_size b)) as Eb by (destruct b; simpl in *; by subst).
  destruct l2 as [|c l2]; [|destruct (b_used c) eqn:Ec].
  3: { simpl. rewrite Ec. destruct Hs as [Hsh He]. pose proof (merged_shape _ _ _ _ _ _ _ Hsh Hb Ec) as [Hs' Hk].
    assert (shape (hmem h) (heap_ptr h) (mem_size_aligned h) ((l1 ++ [b]) ++ c :: l2)) as (_ & _ & ? & _)%shape_range
      by (by rewrite <- app_assoc).
    wp_use (plug_forward_merges h l1 b c l2); [done..|]. intros _ h' ->. eexists. split_and!; [|exact Hs'|].
    - rewrite (proj2 (Z.eqb_neq (b_size c) 0)) by lia. done.
    - rewrite total_app in Hk. simpl in Hk. replace (total l1 + b_size b + b_size c) with (total l1 + (b_size b + (b_size c + 0))) by lia. done. }
  - wp_use (plug_forward_stays h l1 b []); [done..|]. intros _ h' ->. exists (hmem h). simpl. rewrite Z.add_0_r, <- Eb.
    split_and!; [by destruct h|apply Hs|done].
  - simpl. rewrite Ec. wp_use (plug_forward_stays h l1 b (c :: l2)); [done..|]. intros _ h' ->. exists (hmem h). simpl. rewrite Z.add_0_r, <- Eb.
    split_and!; [by destruct h|apply Hs|done].
Qed.

Lemma plug_backward_spec h l1 b l2 : heap_shape h (l1 ++ b :: l2) -> b_used b = false ->
  let mem := heap_ptr h + total l1 in let pmem := heap_ptr h + total (prev_rest l1) in
  wp (plug_backward mem) (fun _ h' => exists m',
    h' = with_mem m' (if lfree h =? mem then pmem else lfree h) h /\
    shape m' (heap_ptr h) (mem_size_aligned h) (prev_rest l1 ++ free_block (prev_size l1 + b_size b) :: l2) /\
    kept (heap_ptr h) (total (prev_rest l1)) (total l1 + b_size b) (hmem h) m') h.
Proof.
  intros Hs Hb mem pmem. assert (b = free_block (b_size b)) as Eb by (destruct b; simpl in *; by subst).
  assert (forall m lf, (if lfree h =? mem then mem else lfree h) = lf -> m = hmem h -> h = with_mem m lf h) as Hsame.
  { intros m lf <- ->. destruct (Z.eqb_spec (lfree h) mem) as [<-|]; by destruct h. }
  destruct l1 as [|c l1 _] using rev_ind; [|destruct (b_used c) eqn:Ec].
  - wp_use (plug_backward_stays h [] b l2); [done|by intros [|??] ?|]. intros _ h' ->. exists (hmem h).
    change (prev_rest []) with (@nil block). change (prev_size []) with 0. rewrite Z.add_0_l, <- Eb.
    split_and!; [by apply Hsame|apply Hs|done].
  - unfold pmem. rewrite prev_rest_snoc, prev_size_snoc, Ec. wp_use (plug_backward_stays h (l1 ++ [c]) b l2); [done|by intros ?? [-> [= ->]]%app_inj_tail|].
    intros _ h' ->. exists (hmem h). rewrite Z.add_0_l, <- Eb. split_and!; [by apply Hsame|apply Hs|done].
  - unfold pmem, mem. rewrite prev_rest_snoc, prev_size_snoc, Ec, total_app. simpl. rewrite Z.add_0_r.
    unfold heap_shape in Hs. rewrite <- app_assoc in Hs. destruct Hs as [Hsh He].
    pose proof (merged_shape _ _ _ _ _ _ _ Hsh Ec Hb) as [Hs' Hk].
    rewrite Z.add_assoc. wp_use (plug_backward_merges h l1 c b l2); [done..|]. intros _ h' ->. eexists. split_and!; [done|exact Hs'|].
    rewrite total_app in Hk. simpl in Hk. replace (total l1 + b_size c + b_size b) with (total l1 + (b_size c + (b_size b + 0))) by lia. done.
Qed.

(** lfree after plug_holes *)
Definition plugged_lfree h l1 b l2 : Z :=
  let mem := heap_ptr h + total l1 in
  let lf := if negb (next_size l2 =? 0) && (lfree h =? mem + b_size b) then mem else lfree h in
  if lf =? mem then heap_ptr h + total (prev_rest l1) else lf.

Lemma plug_holes_spec h l1 b l2 : heap_shape h (l1 ++ b :: l2) -> b_used b = false ->
  wp (plug_holes (heap_ptr h + total l1)) (fun _ h' => exists m',
    h' = with_mem m' (plugged_lfree h l1 b l2) h /\
    shape m' (heap_ptr h) (mem_size_aligned h) (freed l1 b l2) /\
    kept (heap_ptr h) (total (prev_rest l1)) (total l1 + b_size b + next_size l2) (hmem h) m') h.
Proof.
  intros Hs Hb. unfold plug_holes. wp_use (plug_forward_spec h l1 b l2); [done..|]. intros _ h1 (m1 & -> & Hs1 & Hk1).
  set (lf := if _ && _ then _ else _).
  wp_use (plug_backward_spec (with_mem m1 lf h) l1 (free_block (b_size b + next_size l2)) (next_rest l2)); [|done|].
  { split; [done|apply Hs]. }
  simpl. intros _ h2 (m2 & -> & Hs2 & Hk2). exists m2. split_and!; [done| |].
  - unfold freed. by rewrite <- Z.add_assoc.
  - rewrite Z.add_assoc in Hk2. assert (0 <= prev_size l1).
    { pose proof (prev_total l1). destruct l1 as [|c l1 _] using rev_ind; [done|]. rewrite prev_size_snoc.
      destruct Hs as [Hs _]. rewrite <- app_assoc in Hs. apply shape_range in Hs. destruct (b_used c); lia. }
    eapply kept_trans; [| |left; reflexivity|exact Hk1|exact Hk2]; [|lia]. pose proof (prev_total l1). lia.
Qed.

(** ** free_blocks *)

Definition unmarked m (base o : Z) : memory := put16 (base + o) 0 (put16 (base + o + 2) 0 m).

Lemma unmarked_shape m base n l1 b l2 :
  shape m base n (l1 ++ b :: l2) ->
  let m' := unmarked m base (total l1) in
  shape m' base n (l1 ++ [free_block (b_size b)] ++ l2) /\ kept base (total l1) (total l1 + b_size b) m m'.
Proof.
  intros Hs m'. pose proof (shape_range _ _ _ _ _ _ Hs) as (R1 & R2 & R3 & R4 & R5 & R6 & R7 & R8 & R9).
  pose proof (shape_header _ _ _ _ _ _ Hs) as [B1 B2 B3 _ _].
  assert (kept base (total l1) (total l1 + b_size b) m m') as Hk.
  { unfold m', unmarked. split; intros a Ha; [|intros Ha2]; bytes_out; done. }
  split; [|done]. assert (total (l1 ++ [b]) = total l1 + b_size b) as Et by (rewrite total_app; simpl; lia).
  apply (shape_edit m m' base n l1 [b]); rewrite ?Et; [done| |done|done| |].
  - unfold m', unmarked. apply put16_bytes, put16_bytes, Hs.
  - simpl. split; [|done]. unfold m', unmarked. split; simpl; [field; done|field; done|field; done|done|done].
  - intros Hne. destruct l2 as [|c l2]; [done|]. assert (shape m base n ((l1 ++ [b]) ++ c :: l2)) as Hs2 by (by rewrite <- app_assoc).
    apply shape_header in Hs2 as [_ _ C3 _ _]. rewrite last_off_prev in C3 |- *. rewrite Et in C3.
    unfold m', unmarked. field. done.
Qed.

(** What the release of the block between [l1] and [l2] does *)
Definition releases h l1 b l2 h' : Prop :=
  same_heap h h' /\
  kept (heap_ptr h) (total (prev_rest l1)) (total l1 + b_size b + next_size l2) (hmem h) (hmem h').

Lemma free_blocks_runs h l1 b l2 : heap_shape h (l1 ++ b :: l2) -> b_used b = true -> used_mem h = total_used (l1 ++ b :: l2) ->
  let mem := heap_ptr h + total l1 in
  wp (free_blocks (mem + 16)) (fun _ h' => exists m',
    let h1 := set_lfree (if mem <? lfree h then mem else lfree h) h in
    h' = set_used_mem (total_used (l1 ++ l2)) (with_mem m' (plugged_lfree h1 l1 b l2) h) /\
    shape m' (heap_ptr h) (mem_size_aligned h) (freed l1 b l2) /\
    kept (heap_ptr h) (total (prev_rest l1)) (total l1 + b_size b + next_size l2) (hmem h) m') h.
Proof.
  intros [Hs He] Hb Hu mem. pose proof (shape_range _ _ _ _ _ _ Hs) as (R1 & _ & R3 & _ & R5 & R6 & R7 & R8 & R9).
  pose proof (shape_header _ _ _ _ _ _ Hs) as [_ B2 _ _ _]. destruct (unmarked_shape _ _ _ _ _ _ Hs) as [Hs0 Hk0].
  assert (0 <= total_used (l1 ++ l2) <= mem_size_aligned h + 16) as Hbound.
  { pose proof (sh_tiles _ _ _ _ Hs) as Ht. apply tiles_app in Ht as [T1%total_used_bound [_ T2%total_used_bound]].
    rewrite total_used_app. lia. }
  assert (used_mem h - b_size b = total_used (l1 ++ l2)) as Hu'.
  { rewrite Hu, !total_used_app. simpl. rewrite Hb. lia. }
  unfold free_blocks. rewrite sizeof_mem. replace (mem + 16 - 16) with mem by lia. unfold set_used, set_magic. wp_pure.
  cbn [lfree set_hmem hmem]. set (lf := if mem <? lfree h then mem else lfree h).
  change (put16 mem 0 (put16 (mem + 2) 0 (hmem h))) with (unmarked (hmem h) (heap_ptr h) (total l1)).
  set (m0 := unmarked (hmem h) (heap_ptr h) (total l1)) in *.
  apply wp_mono with (fun _ h1 => h1 = set_hmem m0 (set_lfree lf h)).
  { unfold lf. destruct (mem <? lfree h); [by apply wp_modify|apply wp_ret; by destruct h]. }
  intros _ ? ->. wp_step. apply wp_modify. simpl.
  replace (next_of m0 mem - (mem - heap_ptr h)) with (b_size b).
  2: { unfold m0, unmarked. fold mem in B2 |- *. field. rewrite B2. unfold mem. lia. }
  rewrite Hu', u32_small by lia. set (h2 := set_used_mem _ _).
  eapply wp_mono; [apply (plug_holes_spec h2 l1 (free_block (b_size b)) l2); [split; [exact Hs0|exact He]|done]|].
  cbv beta. simpl. intros _ h' (m' & -> & Hs' & Hk'). exists m'. split_and!; [done|done|].
  assert (0 <= prev_size l1).
  { destruct l1 as [|c l1 _] using rev_ind; [done|]. rewrite prev_size_snoc.
    rewrite <- app_assoc in Hs. apply shape_range in Hs. destruct (b_used c); lia. }
  assert (next_size l2 = 0 \/ 16 <= next_size l2).
  { destruct l2 as [|c l2]; [by left|]. simpl. assert (shape (hmem h) (heap_ptr h) (mem_size_aligned h) ((l1 ++ [b]) ++ c :: l2))
      as Hr%shape_range by (by rewrite <- app_assoc). destruct (b_used c); [by left|right; lia]. }
  pose proof (prev_total l1). eapply kept_trans; [| | |exact Hk0|exact Hk']; lia.
Qed.

(** Where lfree is afterwards, when the released block was before it and when it was
    behind it *)
Lemma lfree_before h l1 b l2 : heap_ptr h + total l1 < lfree h ->
  plugged_lfree (set_lfree (heap_ptr h + total l1) h) l1 b l2 = heap_ptr h + total (prev_rest l1).
Proof. intros _. unfold plugged_lfree. simpl. destruct (_ && _); by rewrite Z.eqb_refl. Qed.

Lemma lfree_behind h l1 b l2 : lfree h < heap_ptr h + total l1 -> 0 <= b_size b -> plugged_lfree (set_lfree (lfree h) h) l1 b l2 = lfree h.
Proof.
  intros Hl Hb. unfold plugged_lfree. simpl. rewrite (proj2 (Z.eqb_neq (lfree h) (heap_ptr h + total l1 + b_size b))) by lia.
  rewrite andb_false_r. by rewrite (proj2 (Z.eqb_neq _ _)) by lia.
Qed.

Lemma prev_rest_app l x : x <> [] -> prev_rest (l ++ x) = l ++ prev_rest x.
Proof.
  destruct x as [|c x _] using rev_ind; [done|]. intros _. rewrite app_assoc, !prev_rest_snoc. destruct (b_used c); [by rewrite app_assoc|done].
Qed.

Lemma prev_rest_free x y (n : Z) z : x <> [] -> starts_free (x ++ y) -> starts_free (prev_rest x ++ free_block n :: z).
Proof.
  intros Hx Hf. destruct x as [|c x]; [done|]. destruct x as [|d x _] using rev_ind.
  - simpl in Hf. change [c] with ([] ++ [c]). rewrite prev_rest_snoc, Hf. done.
  - change (c :: x ++ [d]) with ((c :: x) ++ [d]). rewrite prev_rest_snoc. by destruct (b_used d).
Qed.

Lemma total_pos h bs x y : heap_shape h (bs ++ x ++ y) -> x <> [] -> 0 < total x.
Proof.
  intros [Hs _] Hx. destruct x as [|c x]; [done|]. pose proof (sh_tiles _ _ _ _ Hs) as Ht. apply tiles_app in Ht as [_ [[_ _ _ _ [? _]] Ht]].
  apply tiles_app in Ht as [[? _]%tiles_total _]. simpl. lia.
Qed.

(** The released block joins its free neighbours; all other blocks and their data stay. *)
Lemma free_blocks_spec h before from l1 b l2 :
  heap_inv h before from -> before ++ from = l1 ++ b :: l2 -> b_used b = true ->
  wp (free_blocks (heap_ptr h + total l1 + 16)) (fun _ h' => exists before' from',
    heap_inv h' before' from' /\ before' ++ from' = freed l1 b l2 /\ (all_used before -> all_used before') /\
    releases h l1 b l2 h') h.
Proof.
  intros [Hs Hl Hf Hc Hu Hm] E Hb. rewrite E in Hs, Hc, Hu. wp_use (free_blocks_runs h l1 b l2); [done..|].
  intros _ h' (m' & -> & Hs' & Hk'). apply freed_coalesced in Hc. pose proof (freed_total_used l1 b l2) as Htu.
  assert (total_used (l1 ++ l2) <= used_mem h) as Hle.
  { rewrite Hu, !total_used_app. simpl. destruct Hs as [Hs _]. apply shape_range in Hs. destruct (b_used b); lia. }
  assert (forall before' from', before' ++ from' = freed l1 b l2 -> starts_free from' ->
    plugged_lfree (set_lfree (if heap_ptr h + total l1 <? lfree h then heap_ptr h + total l1 else lfree h) h) l1 b l2 =
      heap_ptr h + total before' ->
    heap_inv (set_used_mem (total_used (l1 ++ l2)) (with_mem m' (plugged_lfree (set_lfree (if heap_ptr h + total l1 <? lfree h
      then heap_ptr h + total l1 else lfree h) h) l1 b l2) h)) before' from') as Hinv.
  { intros before' from' E' Hfr Hlf. split; simpl; rewrite ?E'; try done; [by split; [|apply Hs]|by rewrite Htu, total_used_app|lia]. }
  apply app_eq_app in E as (x & [[-> E]|[-> E]]).
  - (* before lfree *) destruct x as [|c x].
    { simpl in E. subst from. simpl in Hf. congruence. }
    injection E as <- ->. exists (prev_rest l1), (free_block (prev_size l1 + b_size b + next_size (x ++ from)) :: next_rest (x ++ from)).
    assert (heap_ptr h + total l1 < lfree h) as Hlt.
    { rewrite Hl, total_app. assert (0 < total (b :: x)); [|lia]. eapply (total_pos h l1 (b :: x) from); [exact Hs|done]. }
    split_and!; [|done| |done].
    + apply Hinv; [done|done|]. rewrite (proj2 (Z.ltb_lt _ _)) by lia. by apply lfree_before.
    + intros Hall. apply Forall_app in Hall as [Hall _]. by rewrite prev_rest_used.
  - (* behind lfree *) assert (x <> []) as Hx. { intros ->. simpl in E. subst from. simpl in Hf. congruence. }
    exists before, (prev_rest x ++ free_block (prev_size (before ++ x) + b_size b + next_size l2) :: next_rest l2). subst from.
    assert (lfree h < heap_ptr h + total (before ++ x)) as Hlt.
    { rewrite Hl, total_app. assert (0 < total x); [|lia]. eapply (total_pos h before x (b :: l2)); [|done]. by rewrite app_assoc. }
    split_and!; [|unfold freed; by rewrite prev_rest_app, <- app_assoc|done|done].
    apply Hinv.
    + unfold freed. by rewrite prev_rest_app, <- app_assoc.
    + by eapply prev_rest_free.
    + rewrite (proj2 (Z.ltb_ge _ _)), lfree_behind by (lia || (destruct Hs as [Hs _]; apply shape_range in Hs; lia)). done.
Qed.

(** ** realloc_blocks *)

Definition shrunk m (base o o2 next : Z) (last : bool) : memory :=
  let m1 := put32 (base + o + 4) o2 (put32 (base + o2 + 8) o (put32 (base + o2 + 4) next
              (put16 (base + o2 + 2) 0 (put16 (base + o2) HEAP_MAGIC m)))) in
  if last then m1 else put32 (base + next + 8) o2 m1.

Lemma shrunk_shape m base n l1 b l2 size :
  shape m base n (l1 ++ b :: l2) -> b_used b = true -> 0 <= size -> (8 | size) -> size + 32 <= b_size b ->
  let m' := shrunk m base (total l1) (total l1 + 16 + size) (total l1 + b_size b) (is_nil l2) in
  shape m' base n (l1 ++ [used_block (size + 16); free_block (b_size b - (size + 16))] ++ l2) /\
  kept base (total l1) (total l1 + b_size b) m m' /\
  forall a, base + total l1 + 16 <= a < base + total l1 + 16 + size -> m' a = m a.
Proof.
  intros Hs Hu H0 H8 Hb m'. pose proof (shape_range _ _ _ _ _ _ Hs) as (R1 & R2 & R3 & R4 & R5 & R6 & R7 & R8 & R9).
  pose proof (shape_header _ _ _ _ _ _ Hs) as [B1 B2 B3 B4 _]. rewrite Hu in B1.
  assert (kept base (total l1) (total l1 + b_size b) m m') as Hk.
  { unfold m', shrunk. split; intros a Ha; [|intros Ha2]; destruct (is_nil l2); bytes_out; done. }
  assert (total (l1 ++ [b]) = total l1 + b_size b) as Et by (rewrite total_app; simpl; lia).
  split_and!; [|done|intros a Ha; unfold m', shrunk; destruct (is_nil l2); bytes_out; done].
  apply (shape_edit m m' base n l1 [b]); rewrite ?Et; [done| | |done| |].
  - unfold m', shrunk. destruct (is_nil l2); repeat first [apply put16_bytes|apply put32_bytes]; apply Hs.
  - simpl. lia.
  - assert (forall a, a < base + total l1 + b_size b -> m' a =
      put32 (base + total l1 + 4) (total l1 + 16 + size) (put32 (base + (total l1 + 16 + size) + 8) (total l1)
          (put32 (base + (total l1 + 16 + size) + 4) (total l1 + b_size b)
            (put16 (base + (total l1 + 16 + size) + 2) 0 (put16 (base + (total l1 + 16 + size)) HEAP_MAGIC m)))) a) as Hm'.
    { intros a Ha. unfold m', shrunk. destruct (is_nil l2); [done|]. by rewrite put32_out by lia. }
    eapply tiles_frame; [|intros a Ha; simpl in Ha; apply Hm'; lia]. simpl. split_and!; [| |done].
    + split; simpl; [field; done|field; rewrite u32_small by lia; lia|field; done|intros _; field; by apply B4|].
      split; simpl; [lia|apply Z.divide_add_r; [done|by exists 2]].
    + replace (total l1 + (size + 16)) with (total l1 + 16 + size) by lia.
      split; simpl; [field; done|field; rewrite u32_small by lia; lia|field; apply u32_small; lia|done|].
      split; simpl; [lia|]. apply Z.divide_sub_r; [done|]. apply Z.divide_add_r; [done|by exists 2].
  - intros Hne. change [used_block (size + 16); free_block (b_size b - (size + 16))] with ([used_block (size + 16)] ++ [free_block (b_size b - (size + 16))]).
    rewrite app_assoc, last_off_prev, total_app. simpl. unfold m', shrunk. destruct l2 as [|c l2]; [done|]. simpl.
    field. rewrite u32_small by lia. lia.
Qed.

(** The blocks when [b] is cut to [size] bytes *)
Definition cut l1 b l2 (size : Z) : list block :=
  freed (l1 ++ [used_block (size + 16)]) (free_block (b_size b - (size + 16))) l2.

Lemma cut_blocks l1 b l2 size :
  cut l1 b l2 size = l1 ++ used_block (size + 16) :: free_block (b_size b - (size + 16) + next_size l2) :: next_rest l2.
Proof. unfold cut, freed. rewrite prev_rest_snoc, prev_size_snoc. simpl. by rewrite <- app_assoc. Qed.

(** lfree moves only when it was at the block behind. *)
Definition cut_lfree h l1 b l2 (size : Z) : Z :=
  if negb (next_size l2 =? 0) && (lfree h =? heap_ptr h + total l1 + b_size b) then heap_ptr h + total l1 + 16 + size else lfree h.

Lemma realloc_shrinks h l1 b l2 size :
  heap_shape h (l1 ++ b :: l2) -> b_used b = true -> used_mem h = total_used (l1 ++ b :: l2) ->
  lfree h <= heap_ptr h + total l1 \/ heap_ptr h + total l1 + b_size b <= lfree h ->
  0 <= size -> (8 | size) -> size + 28 < b_size b - 16 ->
  wp (realloc_blocks (heap_ptr h + total l1 + 16) size) (fun r h' => r = Stays /\ exists m',
    h' = set_used_mem (total_used (cut l1 b l2 size)) (with_mem m' (cut_lfree h l1 b l2 size) h) /\
    shape m' (heap_ptr h) (mem_size_aligned h) (cut l1 b l2 size) /\
    forall a, a < heap_ptr h + total l1 \/ heap_ptr h + total l1 + 16 <= a < heap_ptr h + total l1 + 16 + size \/
      heap_ptr h + total l1 + b_size b + next_size l2 + 12 <= a -> m' a = hmem h a) h.
Proof.
  intros [Hs He] Hb Hu Hlf H0 H8 Hsz. pose proof (shape_range _ _ _ _ _ _ Hs) as (R1 & R2 & R3 & R4 & R5 & R6 & R7 & R8 & R9).
  pose proof (shape_header _ _ _ _ _ _ Hs) as [_ B2 _ _ _].
  destruct (shrunk_shape _ _ _ _ _ _ size Hs Hb H0 H8 ltac:(lia)) as (Hs0 & Hk0 & Hd0).
  pose proof (sh_tiles _ _ _ _ Hs) as Ht. apply tiles_app in Ht as [T1%total_used_bound [_ T2%total_used_bound]].
  assert (total_used (cut l1 b l2 size) = used_mem h - (b_size b - 16 - size)) as Hu'.
  { unfold cut. rewrite freed_total_used, Hu, !total_used_app. simpl. rewrite Hb. lia. }
  assert (used_mem h = total_used l1 + b_size b + total_used l2) as Hu2 by (rewrite Hu, total_used_app; simpl; rewrite Hb; lia).
  unfold realloc_blocks. wp_step. apply wp_get. rewrite sizeof_mem.
  set (o := total l1) in *. replace (heap_ptr h + o + 16 - 16) with (heap_ptr h + o) by lia. rewrite B2.
  rewrite (proj2 (Z.ltb_ge _ _)), (proj2 (Z.leb_gt _ _)) by lia. cbn [orb].
  replace (heap_ptr h + o - heap_ptr h) with o by lia. replace (o + b_size b - o - 16) with (b_size b - 16) by lia.
  rewrite (u32_small (b_size b - 16)) by lia. rewrite (proj2 (Z.eqb_neq _ _)) by lia.
  unfold MIN_SIZE. rewrite (u32_small (size + 16 + 12)) by lia. rewrite (proj2 (Z.ltb_lt _ _)) by lia.
  rewrite (u32_small (o + 16 + size)) by lia. wp_step. apply wp_modify.
  rewrite (u32_small (used_mem h - (b_size b - 16 - size))) by lia. unfold set_magic, set_used, set_next, set_prev. wp_pure.
  cbn [hmem set_hmem set_used_mem heap_ptr mem_size_aligned].
  match goal with |- wp _ _ (set_hmem ?m _) => set (m1 := m) end.
  assert (next_of m1 (heap_ptr h + (o + 16 + size)) = o + b_size b) as En.
  { unfold m1. field. rewrite u32_small by lia. done. }
  rewrite En, (u32_small (mem_size_aligned h + 16)) by lia.
  set (m2 := shrunk (hmem h) (heap_ptr h) o (o + 16 + size) (o + b_size b) (is_nil l2)) in *.
  apply wp_mono with (fun _ h1 => h1 = set_hmem m2 (set_used_mem (used_mem h - (b_size b - 16 - size)) h)).
  { unfold m2, shrunk. destruct l2 as [|c l2]; cbn [is_nil].
    - simpl in R5. rewrite (proj2 (Z.eqb_eq _ _)) by lia. by apply wp_ret.
    - destruct R6 as [?|R6]; [done|]. rewrite (proj2 (Z.eqb_neq _ _)) by lia. by apply wp_modify. }
  intros _ ? ->. set (h2 := set_hmem _ _).
  assert (heap_ptr h + (o + 16 + size) = heap_ptr h2 + total (l1 ++ [used_block (size + 16)])) as -> by (rewrite total_app; simpl; unfold o; lia).
  wp_use (plug_holes_spec h2 (l1 ++ [used_block (size + 16)]) (free_block (b_size b - (size + 16))) l2).
  { split; [|done]. rewrite <- app_assoc. exact Hs0. }
  { done. }
  intros _ h' (m' & -> & Hs' & Hk'). apply wp_ret. split; [done|]. exists m'.
  rewrite prev_rest_snoc, total_app in Hk'. cbn [b_used used_block] in Hk'. rewrite total_app in Hk'. simpl in Hk'. fold o in Hk'.
  split_and!; [|exact Hs'|].
  - rewrite Hu'. unfold with_mem, set_used_mem, set_hmem, set_lfree. simpl. f_equal. unfold plugged_lfree, cut_lfree.
    rewrite prev_rest_snoc, total_app. simpl. rewrite total_app. simpl. fold o.
    replace (heap_ptr h + (o + (size + 16 + 0)) + (b_size b - (size + 16))) with (heap_ptr h + o + b_size b) by lia.
    replace (heap_ptr h + (o + (size + 16 + 0))) with (heap_ptr h + o + 16 + size) by lia.
    destruct (negb (next_size l2 =? 0) && (lfree h =? heap_ptr h + o + b_size b)); [by rewrite Z.eqb_refl|].
    by rewrite (proj2 (Z.eqb_neq _ _)) by lia.
  - assert (next_size l2 = 0 \/ 16 <= next_size l2) as Hn.
    { destruct l2 as [|c l2]; [by left|]. simpl. assert (shape (hmem h) (heap_ptr h) (mem_size_aligned h) ((l1 ++ [b]) ++ c :: l2))
        as Hr%shape_range by (by rewrite <- app_assoc). destruct (b_used c); [by left|right; lia]. }
    intros a Ha. destruct Ha as [Ha|[Ha|Ha]].
    + rewrite (kept_below _ _ _ _ _ Hk') by lia. apply (kept_below _ _ _ _ _ Hk0). lia.
    + rewrite (kept_below _ _ _ _ _ Hk') by lia. apply Hd0. lia.
    + rewrite (kept_above _ _ _ _ _ Hk') by lia. apply (kept_above _ _ _ _ _ Hk0); lia.
Qed.

Lemma next_rest_app x l : x <> [] -> next_rest (x ++ l) = next_rest x ++ l.
Proof. destruct x as [|c x]; [done|]. intros _. simpl. by destruct (b_used c). Qed.
Lemma next_size_app x l : x <> [] -> next_size (x ++ l) = next_size x.
Proof. by destruct x. Qed.

(** lfree is not inside a used block. *)
Lemma lfree_outside h before from l1 b l2 :
  heap_inv h before from -> before ++ from = l1 ++ b :: l2 ->
  (exists x, x <> [] /\ l1 = before ++ x /\ from = x ++ b :: l2) /\ lfree h < heap_ptr h + total l1 \/
  (exists x, before = l1 ++ b :: x /\ l2 = x ++ from) /\ heap_ptr h + total l1 + b_size b <= lfree h \/
  b_used b = false.
Proof.
  intros [Hs Hl Hf _ _ _] E. pose proof E as E0. apply app_eq_app in E as (x & [[-> E]|[-> E]]).
  - destruct x as [|c x]; [simpl in E; subst from; by right; right|]. injection E as <- ->. right. left. split; [by exists x|].
    rewrite Hl, !total_app. simpl. rewrite E0 in Hs. destruct Hs as [Hs _]. pose proof (sh_tiles _ _ _ _ Hs) as Ht.
    apply tiles_app in Ht as [_ [_ Ht]]. apply tiles_app in Ht as [[? _]%tiles_total _]. lia.
  - destruct x as [|c x]; [simpl in E; subst from; by right; right|]. left. split; [by exists (c :: x)|]. subst from.
    rewrite Hl, total_app. assert (0 < total (c :: x)); [|lia]. by eapply (total_pos h before (c :: x) (b :: l2)).
Qed.

Lemma cut_inv h before from l1 b l2 size m' :
  heap_inv h before from -> before ++ from = l1 ++ b :: l2 -> b_used b = true -> 0 <= size -> size + 28 < b_size b - 16 ->
  shape m' (heap_ptr h) (mem_size_aligned h) (cut l1 b l2 size) ->
  exists before' from', before' ++ from' = cut l1 b l2 size /\
    heap_inv (set_used_mem (total_used (cut l1 b l2 size)) (with_mem m' (cut_lfree h l1 b l2 size) h)) before' from'.
Proof.
  intros Hi E Hb H0 Hsz Hs'. pose proof Hi as [Hs Hl Hf Hc Hu Hm]. rewrite E in Hs, Hc, Hu. pose proof Hs as [Hs0 _].
  assert (coalesced (cut l1 b l2 size)) as Hc'.
  { change (cut l1 b l2 size) with (freed (l1 ++ [used_block (size + 16)]) (used_block (b_size b - (size + 16))) l2).
    apply freed_coalesced. unfold coalesced in *. apply coalesced_app in Hc as [H1 [_ H2]]. rewrite Hb in H2.
    rewrite <- app_assoc. apply coalesced_app. split; [done|]. simpl. auto. }
  assert (total_used (cut l1 b l2 size) <= used_mem h) as Hle.
  { unfold cut. rewrite freed_total_used, Hu, !total_used_app. simpl. rewrite Hb. lia. }
  assert (forall before' from', before' ++ from' = cut l1 b l2 size -> starts_free from' ->
    cut_lfree h l1 b l2 size = heap_ptr h + total before' ->
    exists before' from', before' ++ from' = cut l1 b l2 size /\
      heap_inv (set_used_mem (total_used (cut l1 b l2 size)) (with_mem m' (cut_lfree h l1 b l2 size) h)) before' from') as Hinv.
  { intros before' from' E' Hfr Hlf. exists before', from'. split; [done|]. split; simpl; rewrite ?E'; try done; [by split; [|apply Hs]|lia]. }
  clear Hs' Hc' Hc Hm Hu Hle. unfold cut_lfree in *.
  destruct (lfree_outside h before from l1 b l2 Hi E) as [[(x & Hx & -> & ->) Hlt]|[[(x & -> & ->) Hge]|?]]; [| |congruence].
  - apply (Hinv before (x ++ used_block (size + 16) :: free_block (b_size b - (size + 16) + next_size l2) :: next_rest l2)).
    + by rewrite cut_blocks, <- app_assoc.
    + destruct x; [done|exact Hf].
    + rewrite (proj2 (Z.eqb_neq (lfree h) _)) by lia. by rewrite andb_false_r.
  - destruct x as [|c x]; [destruct from as [|c from]|].
    + apply (Hinv (l1 ++ [used_block (size + 16); free_block (b_size b - (size + 16))]) []); [|done|].
      * rewrite cut_blocks, app_nil_r. simpl. by rewrite Z.add_0_r.
      * simpl. rewrite Hl, !total_app. simpl. lia.
    + simpl in Hf. apply (Hinv (l1 ++ [used_block (size + 16)]) (free_block (b_size b - (size + 16) + next_size (c :: from)) :: next_rest (c :: from))).
      * rewrite cut_blocks, <- app_assoc. done.
      * done.
      * simpl. rewrite Hf. assert (shape (hmem h) (heap_ptr h) (mem_size_aligned h) ((l1 ++ [b]) ++ c :: from)) as Hr%shape_range
          by (by rewrite <- app_assoc in *).
        rewrite (proj2 (Z.eqb_neq (b_size c) 0)) by lia. rewrite Hl, !total_app. simpl.
        rewrite (proj2 (Z.eqb_eq _ (heap_ptr h + total l1 + b_size b))) by lia. simpl. lia.
    + apply (Hinv (l1 ++ used_block (size + 16) :: free_block (b_size b - (size + 16) + next_size (c :: x)) :: next_rest (c :: x)) from).
      * rewrite cut_blocks, next_size_app, next_rest_app, <- app_assoc by done. done.
      * done.
      * rewrite next_size_app by done.
        assert (shape (hmem h) (heap_ptr h) (mem_size_aligned h) ((l1 ++ [b]) ++ c :: x ++ from)) as Hr%shape_range
          by (by rewrite <- app_assoc in *).
        pose proof (next_total (c :: x)) as Hn.
        assert (0 <= total x). { pose proof (sh_tiles _ _ _ _ Hs0) as Ht. apply tiles_app in Ht as [_ [_ [_ Ht]]].
          apply tiles_app in Ht as [[? _]%tiles_total _]. done. }
        rewrite Hl, total_app. cbn [total foldr b_size]. fold (total x). fold (total (c :: x)).
        rewrite (proj2 (Z.eqb_neq _ (heap_ptr h + total l1 + b_size b))) by (simpl; lia). rewrite andb_false_r, total_app. cbn [total foldr b_size used_block free_block] in *.
        fold (total x) in *. fold (total (next_rest (c :: x))) in *. lia.
Qed.

(** A block that shrinks stays where it is, with its first bytes; one that has to grow
    is left to rt_malloc. *)
Lemma realloc_blocks_spec h before from l1 b l2 size :
  heap_inv h before from -> before ++ from = l1 ++ b :: l2 -> b_used b = true ->
  16 < b_size b \/ l2 <> [] -> 0 <= size <= mem_size_aligned h -> (8 | size) ->
  wp (realloc_blocks (heap_ptr h + total l1 + 16) size) (fun r h' =>
    if size + 28 <? b_size b - 16 then
      r = Stays /\ same_heap h h' /\ (exists before' from', before' ++ from' = cut l1 b l2 size /\ heap_inv h' before' from') /\
      forall a, a < heap_ptr h + total l1 \/ heap_ptr h + total l1 + 16 <= a < heap_ptr h + total l1 + 16 + size \/
        heap_ptr h + total l1 + b_size b + next_size l2 + 12 <= a -> hmem h' a = hmem h a
    else r = (if size =? b_size b - 16 then Stays else Moves (b_size b - 16)) /\ h' = h) h.
Proof.
  intros Hi E Hb Hin Hsz H8. pose proof (hi_shape _ _ _ Hi) as Hs. rewrite E in Hs. pose proof Hs as [Hs0 He].
  pose proof (shape_range _ _ _ _ _ _ Hs0) as (R1 & _ & R3 & _ & R5 & R6 & R7 & R8 & R9).
  assert (total l1 < mem_size_aligned h) as Hlt by (destruct Hin; [lia|]; destruct R6; [done|lia]).
  destruct (Z.ltb_spec (size + 28) (b_size b - 16)).
  - wp_use (realloc_shrinks h l1 b l2 size); [done|done| | |lia|done|done|].
    + rewrite (hi_used _ _ _ Hi). by rewrite E.
    + destruct (lfree_outside h before from l1 b l2 Hi E) as [[_ ?]|[[_ ?]|?]]; [lia|lia|congruence].
    + intros r h' (-> & m' & -> & Hs' & Hd). split_and!; [done|done| |done]. eapply cut_inv; [done|done|done|lia|lia|done].
  - pose proof (shape_header _ _ _ _ _ _ Hs0) as [_ B2 _ _ _]. unfold realloc_blocks. wp_step. apply wp_get. rewrite sizeof_mem.
    replace (heap_ptr h + total l1 + 16 - 16) with (heap_ptr h + total l1) by lia. rewrite B2.
    rewrite (proj2 (Z.ltb_ge _ _)), (proj2 (Z.leb_gt _ _)) by lia. cbn [orb].
    replace (total l1 + b_size b - (heap_ptr h + total l1 - heap_ptr h) - 16) with (b_size b - 16) by lia.
    rewrite (u32_small (b_size b - 16)) by lia. rewrite (Z.eqb_sym size).
    destruct (Z.eqb_spec (b_size b - 16) size); [by apply wp_ret|].
    unfold MIN_SIZE. rewrite (u32_small (size + 16 + 12)) by lia. rewrite (proj2 (Z.ltb_ge _ _)) by lia. by apply wp_ret.
Qed.
End proofs.
