(* ===== verification/HeapLive.v ===== *)
(** The heap seen by its users: the blocks they hold do not overlap, keep their
    contents, and the functions that serve them always return. *)

From S2P Require Import Prelude RtList KState Ffs KInv Sched Object Timer Thread ThreadLife Ipc Sem Mem Heap HeapBlocks HeapSpec HeapFree.

Open Scope Z_scope.

(** * Blocks by offset *)

Definition block_at (bs : list block) (o : Z) (b : block) : Prop := exists l1 l2, bs = l1 ++ b :: l2 /\ o = total l1.

Section blocks.
Implicit Types (bs l : list block) (b c : block) (o : Z).

Lemma block_at_nil o c : ~ block_at [] o c.
Proof. intros ([|] & ? & ? & _); done. Qed.

Lemma block_at_cons b bs o c : block_at (b :: bs) o c <-> o = 0 /\ c = b \/ block_at bs (o - b_size b) c.
Proof.
  split.
  - intros ([|d l1] & l2 & E & ->); injection E as -> ->; [by left|right]. exists l1, l2. split; [done|]. simpl. lia.
  - intros [[-> ->]|(l1 & l2 & -> & E)]; [by exists [], bs|]. exists (b :: l1), l2. split; [done|]. simpl. lia.
Qed.

Lemma block_at_app bs l o c : block_at (bs ++ l) o c <-> block_at bs o c \/ block_at l (o - total bs) c.
Proof.
  revert o. induction bs as [|b bs IH]; intros o; simpl.
  - rewrite Z.sub_0_r. split; [by right|]. intros [H|H]; [by apply block_at_nil in H|done].
  - rewrite !block_at_cons, IH. replace (o - b_size b - total bs) with (o - (b_size b + total bs)) by lia. tauto.
Qed.

Lemma total_nonneg bs : Forall block_ok bs -> 0 <= total bs.
Proof. induction 1 as [|b bs [? _] _ IH]; simpl; lia. Qed.

Lemma block_at_range bs o c : Forall block_ok bs -> block_at bs o c -> 0 <= o /\ o + b_size c <= total bs /\ block_ok c.
Proof.
  intros Hbs. revert o. induction Hbs as [|b bs Hb Hbs IH]; intros o; [by intros ?%block_at_nil|].
  pose proof (total_nonneg bs Hbs).
  pose proof Hb as [? _]. simpl. rewrite block_at_cons. intros [[-> ->]|(? & ? & ?)%IH]; (split; [lia|]; split; [lia|done]).
Qed.

Lemma block_at_apart bs o o' c c' : Forall block_ok bs -> block_at bs o c -> block_at bs o' c' ->
  o = o' /\ c = c' \/ o + b_size c <= o' \/ o' + b_size c' <= o.
Proof.
  intros Hbs. revert o o'. induction Hbs as [|b bs Hb Hbs IH]; intros o o'; [by intros ?%block_at_nil|].
  rewrite !block_at_cons. intros [[-> ->]|H1] [[-> ->]|H2].
  - by left.
  - apply block_at_range in H2; [|done]. lia.
  - apply block_at_range in H1; [|done]. lia.
  - destruct (IH _ _ H1 H2) as [[? ->]|[?|?]]; [left; split; [lia|done]|lia|lia].
Qed.

Lemma tiles_ok m base prev off bs : tiles m base prev off bs -> Forall block_ok bs.
Proof. revert prev off. induction bs as [|b bs IH]; intros prev off; [by constructor|]. intros [Hb ?%IH]. constructor; [apply Hb|done]. Qed.

(** ** The used blocks after an allocation and after a release *)

Lemma block_at_taken size b o c : b_used c = true ->
  block_at (taken size b) o c <-> o = 0 /\ c = used_block (if size + 48 <=? b_size b then size + 16 else b_size b).
Proof.
  intros Hc. unfold taken. destruct (_ <=? _); rewrite ?block_at_cons; split.
  - intros [?|[[_ ->]|?%block_at_nil]]; done.
  - by left.
  - by intros [?|?%block_at_nil].
  - by left.
Qed.

Lemma block_at_allocated l1 size b l2 o c : b_used b = false -> b_used c = true ->
  block_at (l1 ++ taken size b ++ l2) o c <->
  block_at (l1 ++ b :: l2) o c \/ o = total l1 /\ c = used_block (if size + 48 <=? b_size b then size + 16 else b_size b).
Proof.
  intros Hb Hc. rewrite !block_at_app, block_at_cons, block_at_taken, taken_total by done.
  assert (c <> b) by congruence. split; [intros [?|[[? ?]|?]]|intros [[?|[[_ ?]|?]]|[? ?]]]; auto; try done.
  - right. split; [lia|done].
  - right. left. split; [lia|done].
Qed.

Lemma block_at_prev_rest l o c : b_used c = true -> block_at (prev_rest l) o c <-> block_at l o c.
Proof.
  intros Hc. destruct l as [|d l _] using rev_ind; [done|]. rewrite prev_rest_snoc. destruct (b_used d) eqn:E; [done|].
  rewrite block_at_app, block_at_cons. split; [by left|]. intros [?|[[_ ->]|?%block_at_nil]]; [done|congruence|done].
Qed.
Lemma block_at_next_rest l o c : b_used c = true -> block_at (next_rest l) (o - next_size l) c <-> block_at l o c.
Proof.
  intros Hc. destruct l as [|d l]; simpl; [by rewrite Z.sub_0_r|]. destruct (b_used d) eqn:E; [by rewrite Z.sub_0_r|].
  rewrite block_at_cons. split; [by right|]. intros [[_ ->]|?]; [congruence|done].
Qed.

Lemma block_at_freed l1 b l2 o c : Forall block_ok (l1 ++ b :: l2) -> b_used c = true ->
  block_at (freed l1 b l2) o c <-> block_at (l1 ++ b :: l2) o c /\ o <> total l1.
Proof.
  intros Hok Hc. unfold freed. rewrite !block_at_app, !block_at_cons, block_at_prev_rest by done. simpl.
  replace (o - total (prev_rest l1) - (prev_size l1 + b_size b + next_size l2)) with (o - total l1 - b_size b - next_size l2)
    by (pose proof (prev_total l1); lia).
  rewrite block_at_next_rest by done. apply Forall_app in Hok as [H1 H2]. apply Forall_cons in H2 as [[Hb _] H2]. split.
  - intros [H|[[_ ->]|H]]; [|done|].
    + split; [by left|]. apply block_at_range in H as (? & ? & [? _]); [lia|done].
    + split; [by right; right|]. apply block_at_range in H; [lia|done].
  - intros [[H|[[? _]|H]] Hne]; [by left|lia|by right; right].
Qed.

(** The used blocks other than [b] lie outside [b] and its free neighbours. *)
Lemma other_blocks l1 b l2 o c : Forall block_ok (l1 ++ b :: l2) -> block_at (l1 ++ b :: l2) o c -> b_used c = true -> o <> total l1 ->
  o + b_size c <= total (prev_rest l1) \/ total l1 + b_size b + next_size l2 <= o.
Proof.
  intros Hok Hc Hu Hne. rewrite block_at_app, block_at_cons in Hc. pose proof (prev_total l1).
  apply Forall_app in Hok as [Hok1 Hok2]. apply Forall_cons in Hok2 as [_ Hok2]. destruct Hc as [Hc|[[? _]|Hc]]; [|lia|].
  - left. rewrite <- block_at_prev_rest in Hc by done. apply block_at_range in Hc as (_ & ? & _); [lia|].
    destruct l1 as [|d l1 _] using rev_ind; [by constructor|]. rewrite prev_rest_snoc. apply Forall_app in Hok1 as [? ?].
    destruct (b_used d); [by apply Forall_app|done].
  - right. rewrite <- block_at_next_rest in Hc by done. apply block_at_range in Hc as (? & _ & _); [lia|].
    destruct l2 as [|d l2]; [done|]. simpl. destruct (b_used d); [done|]. by apply Forall_cons in Hok2 as [_ ?].
Qed.
End blocks.

(** * The users *)

(** What the users hold: the blocks by address, with the size they asked for *)
Definition live_ok (h : heap) (bs : list block) (live : gmap Z Z) : Prop :=
  (forall p n, live !! p = Some n -> exists b, block_at bs (p - heap_ptr h - 16) b /\ b_used b = true /\ 0 <= n <= b_size b - 16 /\ p < heap_end h) /\
  (forall o b, block_at bs o b -> b_used b = true -> is_Some (live !! (heap_ptr h + o + 16))).

Record heap_good (h : heap) (live : gmap Z Z) : Prop := {
  hg_inv : exists before from, heap_inv h before from /\ live_ok h (before ++ from) live }.

Section users.
Implicit Types (h : heap) (live : gmap Z Z) (n p : Z).

(** The size rt_malloc looks for is a multiple of 8, at least what was asked for. *)
Lemma malloc_size_spec n h size : 0 <= n <= 2 ^ 32 - 8 -> 16 <= mem_size_aligned h -> malloc_size n h = Some size ->
  0 < n <= size /\ 16 <= size <= mem_size_aligned h /\ (8 | size).
Proof.
  intros Hn Hm. unfold malloc_size. destruct (Z.eqb_spec n 0); [done|]. change RT_ALIGN_SIZE with 8. rewrite min_size.
  destruct (RT_ALIGN_spec n Hn) as [H1 H2]. destruct (Z.gtb_spec (RT_ALIGN n 8) (mem_size_aligned h)); [done|].
  intros [= <-]. destruct (Z.ltb_spec (RT_ALIGN n 8) 16); (split_and!; [lia..|]); [by exists 2|done].
Qed.

Lemma heap_inv_ok h before from : heap_inv h before from -> Forall block_ok (before ++ from).
Proof. intros [[Hs _] _ _ _ _ _]. eapply tiles_ok, Hs. Qed.

(** ** rt_malloc keeps what the users have *)
Lemma malloc_good h live n size : heap_good h live -> 0 <= n <= 2 ^ 32 - 8 -> malloc_size n h = Some size ->
  wp (malloc_blocks size) (fun r h' => same_heap h h' /\
    (forall p k a, live !! p = Some k -> p <= a < p + k -> hmem h' a = hmem h a) /\
    match r with
    | Some p => live !! p = None /\ heap_good h' (<[p := n]> live)
    | None => h' = h
    end) h.
Proof.
  intros [(before & from & Hi & Hl1 & Hl2)] Hn Hsz.
  assert (16 <= mem_size_aligned h) as Hm by apply Hi.
  destruct (malloc_size_spec n h size Hn Hm Hsz) as (Hns & Hsm & H8).
  wp_use (malloc_blocks_spec h before from size); [done..|]. intros r h' Hr.
  destruct (find_fit _ _ _ from) as [[[pre b] post]|] eqn:E; [|destruct Hr as [-> ->]; by split_and!].
  destruct Hr as (p & -> & -> & Hi' & Hsame & Hk). apply find_fit_spec in E as (-> & Hb & Hfit & _).
  pose proof (heap_inv_ok _ _ _ Hi) as Hok. rewrite app_assoc in Hok, Hl1, Hl2.
  set (bs := (before ++ pre) ++ b :: post) in *. set (o := total (before ++ pre)) in *.
  assert (block_at bs o b) as Hat by (by exists (before ++ pre), post).
  assert (live !! (heap_ptr h + o + 16) = None) as Hnew.
  { destruct (live !! (heap_ptr h + o + 16)) as [k|] eqn:E; [|done]. apply Hl1 in E as (c & Hc & Hcu & _).
    replace (heap_ptr h + o + 16 - heap_ptr h - 16) with o in Hc by lia.
    destruct (block_at_apart bs o o b c Hok Hat Hc) as [[_ ->]|Hr]; [congruence|].
    apply block_at_range in Hc as (_ & _ & [? _]), Hat as (_ & _ & [? _]); [lia|done..]. }
  split_and!; [done| |done|].
  - intros p k a Hp Ha. apply Hl1 in Hp as (c & Hc & Hcu & Hk1 & _).
    destruct (block_at_apart bs o _ b c Hok Hat Hc) as [[_ ->]|Hr]; [congruence|].
    destruct Hr; [apply (kept_above _ _ _ _ _ Hk)|apply (kept_below _ _ _ _ _ Hk)]; lia.
  - split. exists (allocated size before pre b post).1, (allocated size before pre b post).2.
    split; [done|]. rewrite allocated_blocks. destruct Hsame as (Ep & Ee & _). split; rewrite Ep, ?Ee.
    + intros p k. rewrite lookup_insert_Some. intros [[<- <-]|[Hne Hp]].
      * exists (used_block (if size + 48 <=? b_size b then size + 16 else b_size b)). replace (heap_ptr h + o + 16 - heap_ptr h - 16) with o by lia.
        split; [apply block_at_allocated; [done|done|by right]|]. split; [done|].
        pose proof (hi_shape _ _ _ Hi) as [Hs0 He]. unfold bs in Hl1. rewrite app_assoc in Hs0. apply shape_range in Hs0 as (_ & _ & _ & _ & ? & _ & _ & _ & ?).
        fold o in H. simpl. destruct (_ <=? _); lia.
      * apply Hl1 in Hp as (c & Hc & Hcu & Hk1). exists c. split; [|by split]. apply block_at_allocated; [done..|by left].
    + intros o' c Hc Hcu. apply block_at_allocated in Hc as [Hc|[-> _]]; [| |done|done].
      * destruct (decide (o' = o)) as [->|Hne]; [rewrite lookup_insert_eq; eauto|]. rewrite lookup_insert_ne by lia. by eapply Hl2.
      * rewrite lookup_insert_eq. eauto.
Qed.

(** ** rt_free *)
Lemma free_good h live p n : heap_good h live -> live !! p = Some n ->
  wp (free_blocks p) (fun _ h' => same_heap h h' /\
    (forall q k a, live !! q = Some k -> q <> p -> q <= a < q + k -> hmem h' a = hmem h a) /\
    heap_good h' (delete p live)) h.
Proof.
  intros [(before & from & Hi & Hl1 & Hl2)] Hp. destruct (Hl1 p n Hp) as (b & (l1 & l2 & E & Eo) & Hb & Hn & Hsz).
  pose proof (heap_inv_ok _ _ _ Hi) as Hok. rewrite E in Hok, Hl1, Hl2.
  assert (p = heap_ptr h + total l1 + 16) as -> by lia.
  wp_use (free_blocks_spec h before from l1 b l2); [done..|].
  intros _ h' (before' & from' & Hi' & E' & Hlow' & (Ep & Ee & Es) & Hk). split_and!; [done| |].
  - intros q k a Hq Hne Ha. apply Hl1 in Hq as (c & Hc & Hcu & Hk1 & Hk2).
    destruct (other_blocks _ _ _ _ _ Hok Hc Hcu ltac:(lia)); [apply (kept_below _ _ _ _ _ Hk)|apply (kept_above _ _ _ _ _ Hk)]; lia.
  - split. exists before', from'. split; [done|]. rewrite E'. split; rewrite Ep, ?Ee.
    + intros q k. rewrite lookup_delete_Some. intros [Hne Hq]. apply Hl1 in Hq as (c & Hc & Hcu & Hk1). exists c. split; [|by split].
      apply block_at_freed; [done..|]. split; [done|lia].
    + intros o c Hc Hcu. apply block_at_freed in Hc as [Hc Hne]; [|done..]. rewrite lookup_delete_ne by lia. by eapply Hl2.
Qed.

(** ** A write into a block *)

Lemma change_good h live p n m' : heap_good h live -> live !! p = Some n -> bytes m' ->
  (forall a, ~ (p <= a < p + n) -> m' a = hmem h a) -> heap_good (set_hmem m' h) live.
Proof.
  intros [(before & from & Hi & Hl1 & Hl2)] Hp Hm' Hout. destruct (Hl1 p n Hp) as (b & (l1 & l2 & E & Eo) & Hb & Hn & Hsz).
  split. exists before, from. split; [|done]. destruct Hi as [[Hs He] Hl Hf Hc Hu Hm]. split; try done. split; [|done]. simpl.
  rewrite E in Hs |- *. pose proof (shape_range _ _ _ _ _ _ Hs) as (R1 & _ & R3 & _ & R5 & R6 & R7 & R8 & R9).
  apply (shape_edit (hmem h) _ _ _ l1 [b] [b] l2); [done|done|done| | |].
  - rewrite total_app. simpl. split; intros a' Ha'; [|intros _]; apply Hout; lia.
  - simpl. split; [|done]. apply (header_frame (hmem h)); [by eapply shape_header|]. intros a' Ha'. apply Hout. lia.
  - intros Hne. destruct l2 as [|c l2]; [done|].
    assert (shape (hmem h) (heap_ptr h) (mem_size_aligned h) ((l1 ++ [b]) ++ c :: l2)) as Hs2 by (by rewrite <- app_assoc).
    apply shape_header in Hs2 as [_ _ C3 _ _]. rewrite <- C3. unfold prev_of. apply get32_ext. intros a' Ha'. apply Hout.
    rewrite total_app in Ha'. simpl in Ha'. lia.
Qed.

Lemma good_bytes h live : heap_good h live -> bytes (hmem h).
Proof. intros [(before & from & Hi & _)]. apply Hi. Qed.

Lemma write_good h live p n a v : heap_good h live -> live !! p = Some n -> p <= a < p + n ->
  heap_good (set_hmem (put8 a v (hmem h)) h) live.
Proof.
  intros Hg Hp Ha. eapply change_good; [done|done|by eapply put8_bytes, good_bytes|]. intros a' Ha'.
  rewrite put8_lookup. rewrite decide_False; [done|]. intros ->. done.
Qed.

(** Two blocks of the users, and where they are *)
Lemma good_disjoint h live p n q k : heap_good h live -> live !! p = Some n -> live !! q = Some k -> p <> q ->
  p + n <= q \/ q + k <= p.
Proof.
  intros [(before & from & Hi & Hl1 & _)] Hp Hq Hne. apply heap_inv_ok in Hi.
  apply Hl1 in Hp as (b & Hb & _ & Hn & _), Hq as (c & Hc & _ & Hk & _).
  destruct (block_at_apart _ _ _ _ _ Hi Hb Hc) as [[? _]|?]; lia.
Qed.

Lemma good_inside h live p n : heap_good h live -> live !! p = Some n ->
  (8 | p) /\ heap_ptr h + 16 <= p /\ p + n <= heap_end h.
Proof.
  intros [(before & from & Hi & Hl1 & _)] Hp. apply Hl1 in Hp as (b & (l1 & l2 & E & Eo) & _ & Hn & _).
  pose proof (hi_shape _ _ _ Hi) as [Hs He]. rewrite E in Hs. pose proof (shape_range _ _ _ _ _ _ Hs) as (R1 & R2 & R3 & R4 & R5 & _ & _ & _ & R9).
  replace p with (heap_ptr h + total l1 + 16) by lia. split; [|split; lia].
  apply Z.divide_add_r; [apply Z.divide_add_r; [apply Hs|done]|by exists 2].
Qed.
End users.
