(* ===== verification/HeapOps.v ===== *)
(** rt_system_heap_init, rt_malloc, rt_free, rt_calloc and rt_realloc as the rest of the
    kernel calls them: with the semaphore of the heap. *)

From S2P Require Import Prelude RtList KState Ffs KInv Sched Object Timer Thread ThreadLife Ipc Sem Mailbox.
From S2P Require Import Mem Heap HeapBlocks HeapSpec HeapFree HeapLive.

Open Scope Z_scope.

Section ops.
Context (heap_sem : nat).
Implicit Types (k : kernel) (h : heap) (live : gmap Z Z) (Q : gmap node (list node)).

(** The semaphore is free and nobody waits for it. *)
Definition heap_idle k : Prop :=
  sem_value k heap_sem = 1 /\ list_isempty (SuspHead (OSemaphore heap_sem)) k = true.

Lemma set_sem_value_id k : set_sem_value (sem_value k) k = k.
Proof. by destruct k. Qed.

(** Uncontended, the semaphore is taken and given back, and the kernel is as before. *)
Lemma with_heap_sem_spec {A} (body : M heap A) Phi k h :
  heap_idle k -> wp body Phi h ->
  wp (with_heap_sem heap_sem body) (fun r s => exists a, r = Done a /\ s.1 = k /\ Phi a s.2) (k, h).
Proof.
  intros [Hv He] Hb. unfold with_heap_sem. wp_step. apply wp_on_fst. unfold rt_sem_take. wp_step. apply wp_get.
  rewrite Hv. change (1 >? 0) with true. cbv iota. unfold upd_sem. wp_pure.
  unfold locked. wp_step. wp_step. apply wp_on_snd. eapply wp_mono; [exact Hb|]. cbv beta. intros a h' Ha.
  wp_step. apply wp_on_fst. unfold rt_sem_release. wp_step. apply wp_get. set (k1 := set_sem_value _ k).
  change (list_isempty (SuspHead (OSemaphore heap_sem)) k1) with (list_isempty (SuspHead (OSemaphore heap_sem)) k).
  rewrite He. cbn [negb]. unfold upd_sem. wp_pure. exists a. split_and!; [done| |done]. simpl.
  rewrite fn_lookup_insert, fn_insert_insert'. change (u16 (u16 (1 - 1) + 1)) with 1. rewrite <- Hv at 1.
  rewrite fn_insert_id'. exact (set_sem_value_id k).
Qed.

(** ** rt_system_heap_init *)

Definition sem_lists s Q : gmap node (list node) := <[SuspHead (OSemaphore s) := []]> (register (OSemaphore s) Q).

Lemma rt_sem_init_spec k Q s nm v fl :
  KI k Q -> containers Q -> detached Q (ObjNode (OSemaphore s)) -> detached Q (SuspHead (OSemaphore s)) ->
  0 <= v < 65536 -> fl = RT_IPC_FLAG_FIFO \/ fl = RT_IPC_FLAG_PRIO ->
  wp (rt_sem_init s nm v fl) (fun r k' => r = RT_EOK /\ KI k' (sem_lists s Q) /\
    sem_rep k' (sem_lists s Q) s (mk_sem v []) /\ threads k' = threads k /\
    list_isempty (SuspHead (OSemaphore s)) k' = true) k.
Proof.
  intros Hk Hc Hd1 Hd2 Hv Hfl. unfold rt_sem_init.
  wp_use (rt_object_init_spec (activated k) k Q (OSemaphore s) nm); [done|done|done|].
  intros [] k1 (xs & h1 & Hxs & Hk1 & ->). rewrite (register_default _ _ _ Hxs) in Hk1.
  unfold upd_object, rt_ipc_object_init, list_init, upd_sem. wp_pure. simpl.
  assert (detached (register (OSemaphore s) Q) (SuspHead (OSemaphore s))) as Hd2' by (by apply detached_register).
  apply (kinv_init_head _ _ _ _ _ _ (SuspHead (OSemaphore s))) in Hk1; [|done|done].
  assert (waiters (sem_lists s Q) (SuspHead (OSemaphore s)) []) as Hw by (unfold waiters, sem_lists; by rewrite lookup_insert_eq).
  split_and!; try done.
  - split; simpl; [by rewrite fn_lookup_insert, u16_small|done|by rewrite fn_lookup_insert|].
    split_and!; simpl; [lia|lia|constructor|by right].
  - unfold list_isempty. simpl. exact (Rep_isempty _ _ _ _ (ki_rep _ _ _ _ _ _ Hk1) Hw).
Qed.

(** The memory after the initialisation: one free block and the end mark *)
Definition formatted (m : memory) (base size : Z) : memory :=
  let e := base + (size + 16) in
  put32 (e + 8) (size + 16) (put32 (e + 4) (size + 16) (put16 (e + 2) 1 (put16 e HEAP_MAGIC
    (put16 (base + 2) 0 (put32 (base + 8) 0 (put32 (base + 4) (size + 16) (put16 base HEAP_MAGIC m))))))).

Lemma formatted_shape m base size : bytes m -> 0 <= base -> (8 | base) -> 16 <= size -> (8 | size) -> base + size + 32 < 2 ^ 32 ->
  shape (formatted m base size) base size [free_block (size + 16)].
Proof.
  intros Hm H1 H2 H3 H4 H5. unfold formatted. split; try done.
  - repeat first [apply put16_bytes|apply put32_bytes]. done.
  - simpl. split; [|done]. split; simpl; rewrite ?Z.add_0_r; [field; done|field; rewrite u32_small by lia; lia|field; done|done|].
    split; simpl; [lia|apply Z.divide_add_r; [done|by exists 2]].
  - simpl. lia.
  - field. done.
Qed.

Definition heap_start (m : memory) (base size : Z) : heap :=
  mk_heap (formatted m base size) base (base + (size + 16)) base size 0 0.

Lemma heap_start_good m base size : bytes m -> 0 <= base -> (8 | base) -> 16 <= size -> (8 | size) -> base + size + 32 < 2 ^ 32 ->
  heap_good (heap_start m base size) ∅.
Proof.
  intros. split. exists [], [free_block (size + 16)]. split.
  - split; simpl; [split; [by apply formatted_shape|done]|lia|done|split; [by left|done]|lia|lia].
  - split; [done|]. intros o b Hb Hu. simpl in Hb. apply block_at_cons in Hb as [[_ ->]|Hb%block_at_nil]; done.
Qed.

Lemma heap_init_runs h begin_addr end_addr :
  let base := RT_ALIGN begin_addr 8 in let top := RT_ALIGN_DOWN end_addr 8 in
  0 <= base -> base + 48 <= top -> top < 2 ^ 32 -> used_mem h = 0 -> max_mem h = 0 ->
  forall k Phi,
    wp (rt_sem_init heap_sem [104; 101; 97; 112] 1 RT_IPC_FLAG_FIFO)
      (fun _ k' => Phi tt (k', heap_start (hmem h) base (top - base - 32))) k ->
    wp (rt_system_heap_init heap_sem begin_addr end_addr) Phi (k, h).
Proof.
  intros base top Hb Hsz Ht Hu Hm k Phi Hs. unfold rt_system_heap_init. change RT_ALIGN_SIZE with 8. fold base top. rewrite sizeof_mem.
  rewrite Z.gtb_ltb, (proj2 (Z.ltb_lt _ _)) by lia. rewrite Z.geb_leb, (u32_small (top - 2 * 16)), (proj2 (Z.leb_le _ _)) by lia. cbn [andb].
  rewrite (u32_small (top - base - 2 * 16)) by lia. wp_step. apply wp_on_snd.
  unfold set_magic, set_used, set_next, set_prev. wp_pure. cbn [hmem heap_ptr heap_end set_hmem].
  set (size := top - base - 2 * 16).
  match goal with |- context [next_of ?m base] => assert (next_of m base = size + 16) as -> end.
  { field. apply u32_small. unfold size. lia. }
  wp_step. apply wp_on_fst. eapply wp_mono; [exact Hs|]. cbv beta. intros _ k' HPhi. apply wp_on_snd. apply wp_modify.
  unfold heap_start in HPhi. rewrite <- Hu in HPhi at 1. rewrite <- Hm in HPhi. exact HPhi.
Qed.

(** ** rt_malloc and rt_free *)

(** C9: rt_malloc takes the first free block from lfree on that is large enough, splits it
    when the rest can be a block, and returns the address behind its header; RT_NULL,
    with nothing changed, when there is none below the bound of the search. *)
Theorem rt_malloc_spec k h before from n :
  heap_idle k -> heap_inv h before from -> 0 <= n <= 2 ^ 32 - 8 ->
  wp (rt_malloc heap_sem n) (fun r s => s.1 = k /\
    match size ← malloc_size n h; r ← find_fit (mem_size_aligned h - size) size (total before) from; Some (size, r) with
    | None => r = Done None /\ s.2 = h
    | Some (size, (pre, b, post)) => n <= size /\ exists p, r = Done (Some p) /\ allocates h before pre b post size p s.2 /\
        (all_used before -> all_used (allocated size before pre b post).1)
    end) (k, h).
Proof.
  intros Hidle Hi Hn. unfold rt_malloc. wp_step. apply wp_get. cbn [snd].
  destruct (malloc_size n h) as [size|] eqn:E; simpl; [|by apply wp_ret].
  destruct (malloc_size_spec n h size Hn ltac:(apply Hi) E) as (H1 & H2 & H3).
  eapply wp_mono; [apply (with_heap_sem_spec _ _ k h Hidle (malloc_blocks_spec h before from size Hi H2 H3))|].
  cbv beta. intros r [k' h'] (a & -> & Ek & Ha). simpl in *. split; [done|].
  destruct (find_fit _ _ _ from) as [[[pre b] post]|]; simpl; [|by destruct Ha as [-> ->]].
  destruct Ha as (p & -> & Ha). split; [lia|]. exists p. split_and!; [done|done|by apply allocated_lowest].
Qed.

Lemma rt_free_runs k h before from l1 b l2 :
  heap_idle k -> heap_inv h before from -> before ++ from = l1 ++ b :: l2 -> b_used b = true ->
  heap_ptr h + total l1 + 16 < heap_end h ->
  wp (rt_free heap_sem (Some (heap_ptr h + total l1 + 16))) (fun r s => r = Done tt /\ s.1 = k /\ exists before' from',
    heap_inv s.2 before' from' /\ before' ++ from' = freed l1 b l2 /\ (all_used before -> all_used before') /\
    releases h l1 b l2 s.2) (k, h).
Proof.
  intros Hidle Hi E Hb Hin. unfold rt_free. wp_step. apply wp_get. cbn [snd].
  assert (0 <= total l1). { pose proof (hi_shape _ _ _ Hi) as [Hs _]. rewrite E in Hs. apply shape_range in Hs. lia. }
  rewrite (proj2 (Z.ltb_ge _ _)), (proj2 (Z.leb_gt _ _)) by lia. cbn [orb].
  eapply wp_mono; [apply (with_heap_sem_spec _ _ k h Hidle (free_blocks_spec h before from l1 b l2 Hi E Hb))|].
  cbv beta. intros r [k' h'] ([] & -> & Ek & Ha). done.
Qed.

Lemma lowest_unique bs1 bs2 cs1 cs2 : bs1 ++ bs2 = cs1 ++ cs2 -> all_used bs1 -> all_used cs1 -> starts_free bs2 -> starts_free cs2 ->
  bs1 = cs1 /\ bs2 = cs2.
Proof.
  revert cs1. induction bs1 as [|b bs1 IH]; intros [|c cs1]; simpl; try done.
  - intros -> _ [H _]%Forall_cons H2 _. simpl in *. congruence.
  - intros <- [H _]%Forall_cons _ _ H2. simpl in *. congruence.
  - intros [= -> E] [_ H1]%Forall_cons [_ H2]%Forall_cons H3 H4. destruct (IH cs1 E H1 H2 H3 H4) as [-> ->]. done.
Qed.

Lemma no_free_before l1 b l2 : coalesced (l1 ++ b :: l2) -> b_used b = false -> prev_rest l1 = l1 /\ prev_size l1 = 0.
Proof.
  intros [_ [H _]]%coalesced_app Hb. destruct H as [H|H]; [|congruence]. destruct l1 as [|c l1 _] using rev_ind; [done|].
  rewrite last_used_snoc in H. by rewrite prev_rest_snoc, prev_size_snoc, H.
Qed.

(** Taking a block and releasing it gives the old blocks *)
Lemma taken_freed size l1 b l2 : b_used b = false -> coalesced (l1 ++ b :: l2) ->
  exists c l, b_used c = true /\ taken size b ++ l2 = c :: l /\ freed l1 c l = l1 ++ b :: l2.
Proof.
  intros Hb Hc. destruct (no_free_before _ _ _ Hc Hb) as [E1 E2]. unfold taken, freed. rewrite E1, E2.
  apply coalesced_app in Hc as [_ [_ Hc]]. rewrite Hb in Hc.
  assert (b = free_block (b_size b)) as Eb by (destruct b; simpl in *; by subst). destruct (_ <=? _).
  - eexists _, _. split_and!; [|done|]; [done|]. simpl. do 2 f_equal. rewrite Eb. simpl. f_equal. lia.
  - eexists _, _. split_and!; [|done|]; [done|]. simpl.
    assert (next_size l2 = 0 /\ next_rest l2 = l2) as [-> ->].
    { destruct l2 as [|d l2]; [done|]. destruct Hc as [[?|Hd] _]; [done|]. simpl. by rewrite Hd. }
    do 2 f_equal. rewrite Eb. simpl. f_equal. lia.
Qed.

(** C10: A block that is allocated and given back leaves the heap as it was: the same blocks,
    the same lowest free block, the same amount in use. *)
Theorem malloc_free_roundtrip k h before from n :
  heap_idle k -> heap_inv h before from -> all_used before -> 0 <= n <= 2 ^ 32 - 8 ->
  wp (let! r := rt_malloc heap_sem n in
      match r with Done p => rt_free heap_sem p | Blocked => ret Blocked end)
    (fun r s => r = Done tt /\ s.1 = k /\ heap_inv s.2 before from /\ lfree s.2 = lfree h /\ used_mem s.2 = used_mem h) (k, h).
Proof.
  intros Hidle Hi Hlow Hn. unfold rt_malloc. wp_step. wp_step. apply wp_get. cbn [snd].
  destruct (malloc_size n h) as [size|] eqn:E; [|by apply wp_ret].
  destruct (malloc_size_spec n h size Hn ltac:(apply Hi) E) as (H1 & H2 & H3).
  eapply wp_mono; [apply (with_heap_sem_spec _ _ k h Hidle (malloc_blocks_spec h before from size Hi H2 H3))|].
  cbv beta. intros r [k' h1] (a & -> & Ek & Ha). simpl in Ek, Ha. subst k'.
  destruct (find_fit _ _ _ from) as [[[pre b] post]|] eqn:Ef; [|destruct Ha as [-> ->]; by apply wp_ret].
  destruct Ha as (p & -> & -> & Hi1 & (Ep & Ee & Es) & _). apply find_fit_spec in Ef as (-> & Hb & Hfit & Hlim).
  pose proof Hi as [Hs Hl Hf Hc Hu _]. rewrite app_assoc in Hc.
  destruct (taken_freed size (before ++ pre) b post Hb Hc) as (c & l & Hcu & Ec & Efr).
  rewrite <- Ep. eapply wp_mono; [eapply (rt_free_runs k h1 _ _ (before ++ pre) c l); [done|exact Hi1| |done|]|].
  - rewrite allocated_blocks, Ec. done.
  - rewrite Ee, (proj2 Hs), Ep. rewrite total_app. lia.
  - cbv beta. intros r [k2 h2] (-> & -> & before' & from' & Hi2 & E' & Hlow' & (Ep2 & _) & _). simpl in *.
    rewrite Efr, <- app_assoc in E'. destruct (lowest_unique _ _ _ _ E') as [-> ->];
      [by apply Hlow', allocated_lowest|done|apply Hi2|apply Hi|].
    split_and!; [done|done|done| |].
    + rewrite (hi_lfree _ _ _ Hi2), Hl. congruence.
    + rewrite (hi_used _ _ _ Hi2), Hu. done.
Qed.

(** ** rt_realloc *)

(** The block of a user by its neighbours *)
Lemma good_block h live p n : heap_good h live -> live !! p = Some n ->
  exists before from l1 b l2, heap_inv h before from /\ live_ok h (before ++ from) live /\ before ++ from = l1 ++ b :: l2 /\
    b_used b = true /\ p = heap_ptr h + total l1 + 16 /\ p < heap_end h /\ 0 <= n <= b_size b - 16 /\
    (16 < b_size b \/ l2 <> []).
Proof.
  intros [(before & from & Hi & Hl)] Hp. pose proof Hl as [Hl1 _]. destruct (Hl1 p n Hp) as (b & (l1 & l2 & E & Eo) & Hb & Hn & Hin).
  exists before, from, l1, b, l2. split_and!; [done..|lia|done|lia|lia|].
  pose proof (hi_shape _ _ _ Hi) as [Hs He]. rewrite E in Hs. apply shape_range in Hs as (? & _ & ? & _ & ? & ? & _).
  destruct l2; [|by right]. left. simpl in *. lia.
Qed.

(** A user may count on another size of its block. *)
Lemma good_resize h live p n n' before from l1 b l2 : live !! p = Some n ->
  heap_inv h before from -> live_ok h (before ++ from) live -> before ++ from = l1 ++ b :: l2 -> b_used b = true ->
  p = heap_ptr h + total l1 + 16 -> p < heap_end h -> 0 <= n' <= b_size b - 16 -> heap_good h (<[p := n']> live).
Proof.
  intros Hp Hi [Hl1 Hl2] E Hb -> Hin Hn'. split. exists before, from. split; [done|]. split.
  - intros q m. rewrite lookup_insert_Some. intros [[<- <-]|[_ Hq]]; [|by apply Hl1]. exists b.
    replace (heap_ptr h + total l1 + 16 - heap_ptr h - 16) with (total l1) by lia. split; [by exists l1, l2|]. split_and!; [done|lia|lia|done].
  - intros o c Hc Hu. destruct (Hl2 o c Hc Hu) as [m Hm].
    destruct (decide (heap_ptr h + total l1 + 16 = heap_ptr h + o + 16)) as [->|Hne]; [rewrite lookup_insert_eq; eauto|].
    rewrite lookup_insert_ne by done. eauto.
Qed.

Lemma good_weaken h live p n n' : heap_good h live -> live !! p = Some n -> 0 <= n' <= n -> heap_good h (<[p := n']> live).
Proof.
  intros Hg Hp Hn. destruct (good_block h live p n Hg Hp) as (before & from & l1 & b & l2 & Hi & Hl & E & Hb & Ep & Hin & Hsz & _).
  eapply good_resize; [done..|lia].
Qed.

(** Other users after a block has been cut *)
Lemma cut_good h live p n size before from l1 b l2 h' : live !! p = Some n ->
  heap_inv h before from -> live_ok h (before ++ from) live -> before ++ from = l1 ++ b :: l2 -> b_used b = true ->
  p = heap_ptr h + total l1 + 16 -> 0 <= size -> (8 | size) -> size + 28 < b_size b - 16 -> same_heap h h' ->
  (exists before' from', before' ++ from' = cut l1 b l2 size /\ heap_inv h' before' from') ->
  heap_good h' (<[p := size]> live).
Proof.
  intros Hp Hi [Hl1 Hl2] E Hb -> H0 H8 Hsz (Ep & Ee & _) (before' & from' & E' & Hi').
  pose proof (heap_inv_ok _ _ _ Hi) as Hok. rewrite E in Hok, Hl1, Hl2.
  assert (Forall block_ok ((l1 ++ [used_block (size + 16)]) ++ free_block (b_size b - (size + 16)) :: l2)) as Hok'.
  { apply Forall_app in Hok as [Ho1 Ho2]. apply Forall_cons in Ho2 as [[Hb1 Hb2] Ho2]. rewrite <- app_assoc. apply Forall_app. split; [done|].
    assert (8 | size + 16) by (apply Z.divide_add_r; [done|by exists 2]).
    constructor; [by split; simpl; [lia|]|]. constructor; [|done]. split; simpl; [lia|by apply Z.divide_sub_r]. }
  assert (forall o c, b_used c = true -> block_at (cut l1 b l2 size) o c <->
    o = total l1 /\ c = used_block (size + 16) \/ block_at (l1 ++ b :: l2) o c /\ o <> total l1) as Hcut.
  { intros o c Hc. unfold cut. rewrite block_at_freed by done. rewrite <- app_assoc. cbn [app].
    rewrite !block_at_app, !total_app, !block_at_cons. simpl.
    apply Forall_app in Hok as [Ho1 Ho2]. apply Forall_cons in Ho2 as [[Hb1 _] Ho2].
    replace (o - total l1 - (size + 16) - (b_size b - (size + 16))) with (o - total l1 - b_size b) by lia. split.
    - intros [[Hat|[[? ->]|[[_ ->]|Hat]]] Hne]; [| |done|].
      + right. split; [by left|]. apply block_at_range in Hat as (? & ? & [? _]); [lia|done].
      + left. split; [lia|done].
      + right. split; [by right; right|]. apply block_at_range in Hat; [lia|done].
    - intros [[-> ->]|[[Hat|[[? _]|Hat]] Hne]]; [| |lia|].
      + split; [right; left; split; [lia|done]|lia].
      + split; [by left|]. apply block_at_range in Hat as (? & ? & [? _]); [lia|done].
      + split; [by right; right; right|]. apply block_at_range in Hat; [lia|done]. }
  split. exists before', from'. split; [done|]. rewrite E'. split; rewrite Ep, ?Ee.
  - intros q m. rewrite lookup_insert_Some. intros [[<- <-]|[Hne Hq]].
    + exists (used_block (size + 16)). replace (heap_ptr h + total l1 + 16 - heap_ptr h - 16) with (total l1) by lia.
      split; [by apply Hcut; [|left]|]. destruct (Hl1 _ _ Hp) as (? & _ & _ & _ & ?). simpl. split_and!; [done|lia|lia|done].
    + destruct (Hl1 _ _ Hq) as (c & Hc & Hcu & Hm). exists c. split; [|done]. apply Hcut; [done|right]. split; [done|lia].
  - intros o c Hc Hcu. apply Hcut in Hc as [[-> _]|[Hc Hne]]; [rewrite lookup_insert_eq; eauto| |done].
    rewrite lookup_insert_ne by lia. by eapply Hl2.
Qed.

(** Sizes above 2^32 - 8 wrap around in RT_ALIGN: such a request is served with a block of the
    minimal size, and a block that is given such a size is cut to nothing. *)
Definition served (n : Z) : Z := if n <=? 2 ^ 32 - 8 then n else 16.
Definition resized (n : Z) : Z := if n <=? 2 ^ 32 - 8 then n else 0.

Lemma RT_ALIGN_wraps n : 2 ^ 32 - 8 < n < 2 ^ 32 -> RT_ALIGN n 8 = 0.
Proof.
  intros Hn. assert (n ∈ (fun i => 2 ^ 32 - i) <$> [1; 2; 3; 4; 5; 6; 7]) as Hin.
  { apply list_elem_of_fmap. exists (2 ^ 32 - n). split; [lia|]. rewrite !elem_of_cons. lia. }
  apply list_elem_of_fmap in Hin as (i & -> & Hi). rewrite !elem_of_cons in Hi.
  destruct_or! Hi; subst; [vm_compute; reflexivity..|by apply not_elem_of_nil in Hi].
Qed.

Lemma malloc_size_served n h : 0 <= n < 2 ^ 32 -> 16 <= mem_size_aligned h -> malloc_size (served n) h = malloc_size n h.
Proof.
  intros Hn Hm. unfold served. destruct (Z.leb_spec n (2 ^ 32 - 8)); [done|]. unfold malloc_size. change RT_ALIGN_SIZE with 8.
  change (RT_ALIGN 16 8) with 16. rewrite (RT_ALIGN_wraps n), min_size by lia. rewrite (proj2 (Z.eqb_neq n 0)) by lia.
  destruct (Z.gtb_spec 16 (mem_size_aligned h)), (Z.gtb_spec 0 (mem_size_aligned h)); lia || done.
Qed.

Lemma served_range n : 0 <= n < 2 ^ 32 -> 0 <= served n <= 2 ^ 32 - 8.
Proof. intros. unfold served. destruct (Z.leb_spec n (2 ^ 32 - 8)); lia. Qed.

Lemma resized_range n : 0 <= n < 2 ^ 32 -> 0 <= resized n <= 2 ^ 32 - 8.
Proof. intros. unfold resized. destruct (Z.leb_spec n (2 ^ 32 - 8)); lia. Qed.

Lemma good_min_size h live : heap_good h live -> 16 <= mem_size_aligned h.
Proof. intros [(before & from & Hi & _)]. apply Hi. Qed.

Lemma rt_malloc_good k h live n : heap_idle k -> heap_good h live -> 0 <= n < 2 ^ 32 ->
  wp (rt_malloc heap_sem n) (fun r s => s.1 = k /\ same_heap h s.2 /\
    (forall p m a, live !! p = Some m -> p <= a < p + m -> hmem s.2 a = hmem h a) /\
    match r with
    | Done None => s.2 = h
    | Done (Some p) => live !! p = None /\ heap_good s.2 (<[p := served n]> live)
    | Blocked => False
    end) (k, h).
Proof.
  intros Hidle Hg Hn. unfold rt_malloc. wp_step. apply wp_get. cbn [snd].
  rewrite <- (malloc_size_served n h Hn (good_min_size h live Hg)). destruct (malloc_size (served n) h) as [size|] eqn:E; [|by apply wp_ret].
  eapply wp_mono; [apply (with_heap_sem_spec _ _ k h Hidle (malloc_good h live _ size Hg (served_range n Hn) E))|].
  cbv beta. intros r [k' h'] (a & -> & Ek & Hs & Hd & Ha). simpl in *. split_and!; [done..|]. destruct a as [p|]; [|done].
  by destruct Ha.
Qed.

Lemma rt_free_good k h live p n : heap_idle k -> heap_good h live -> live !! p = Some n ->
  wp (rt_free heap_sem (Some p)) (fun r s => r = Done tt /\ s.1 = k /\ same_heap h s.2 /\
    (forall q m a, live !! q = Some m -> q <> p -> q <= a < q + m -> hmem s.2 a = hmem h a) /\
    heap_good s.2 (delete p live)) (k, h).
Proof.
  intros Hidle Hg Hp. unfold rt_free. wp_step. apply wp_get. cbn [snd].
  destruct (good_inside h live p n Hg Hp) as (_ & Hlo & _). destruct (good_block h live p n Hg Hp) as (? & ? & ? & ? & ? & _ & _ & _ & _ & _ & Hin & _).
  rewrite (proj2 (Z.ltb_ge _ _)), (proj2 (Z.leb_gt _ _)) by lia. cbn [orb].
  eapply wp_mono; [apply (with_heap_sem_spec _ _ k h Hidle (free_good h live p n Hg Hp))|].
  cbv beta. intros r [k' h'] ([] & -> & Ek & Hs & Hd & Ha). done.
Qed.

(** The contents move to the new block. *)
Lemma copy_good h live p u q N len : heap_good h live -> live !! p = Some u -> live !! q = Some N -> p <> q ->
  0 <= len <= u -> len <= N ->
  wp (rt_memcpy q p len) (fun _ m' => heap_good (set_hmem m' h) live /\
    (forall i, 0 <= i < len -> m' (q + i) = hmem h (p + i)) /\ (forall a, ~ (q <= a < q + N) -> m' a = hmem h a)) (hmem h).
Proof.
  intros Hg Hp Hq Hne Hu HN. destruct (good_disjoint h live p u q N Hg Hp Hq Hne).
  all: wp_use (rt_memcpy_copied q p len (hmem h)); [by eapply good_bytes|lia|unfold forward; lia|].
  all: intros _ m' [_ ->]; split_and!; [eapply change_good; [done|exact Hq|by eapply copied_bytes, good_bytes|]|..].
  all: try (intros i Hi; unfold copied; rewrite decide_True by lia; f_equal; lia).
  all: intros a Ha; unfold copied; by rewrite decide_False by lia.
Qed.

Lemma served_small n : n <= 2 ^ 32 - 8 -> served n = n.
Proof. intros. unfold served. by rewrite (proj2 (Z.leb_le _ _)). Qed.

Lemma rt_realloc_small k h live p n newsize :
  heap_idle k -> heap_good h live -> live !! p = Some n -> 0 <= newsize <= 2 ^ 32 - 8 ->
  wp (rt_realloc heap_sem (Some p) newsize) (fun r s => s.1 = k /\ same_heap h s.2 /\
    match r with
    | Done None => s.2 = h
    | Done (Some q) => heap_good s.2 (<[q := newsize]> (delete p live)) /\
        (forall i, 0 <= i < Z.min n newsize -> hmem s.2 (q + i) = hmem h (p + i)) /\
        (forall p' n' a, live !! p' = Some n' -> p' <> p -> p' <= a < p' + n' -> hmem s.2 a = hmem h a)
    | Blocked => False
    end) (k, h).
Proof.
  intros Hidle Hg Hp Hnew. unfold rt_realloc. change RT_ALIGN_SIZE with 8.
  destruct (RT_ALIGN_spec newsize Hnew) as [HN H8]. set (N := RT_ALIGN newsize 8) in *. wp_step. apply wp_get. cbn [snd].
  destruct (Z.gtb_spec N (mem_size_aligned h)) as [|HNm]; [by apply wp_ret|].
  destruct (good_block h live p n Hg Hp) as (before & from & l1 & b & l2 & Hi & Hl & E & Hb & Ep & Hin & Hsz & Hlast).
  pose proof (hi_shape _ _ _ Hi) as [Hs _]. pose proof (sh_top _ _ _ _ Hs) as Htop. pose proof (sh_base _ _ _ _ Hs) as [Hbase _].
  rewrite E in Hs. pose proof (shape_range _ _ _ _ _ _ Hs) as (_ & _ & R3 & _).
  pose proof (realloc_blocks_spec h before from l1 b l2 N Hi E Hb Hlast ltac:(lia) H8) as Hr. rewrite <- Ep in Hr.
  wp_use (with_heap_sem_spec _ _ k h Hidle Hr). intros r [k' h'] (a & -> & Ek & Ha). simpl in Ek, Ha. subst k'.
  destruct (Z.ltb_spec (N + 28) (b_size b - 16)) as [Hcut|Hcut].
  - destruct Ha as (-> & Hsame & Hinv & Hd). apply wp_ret. simpl. rewrite insert_delete_eq. split; [done|]. split; [done|]. split_and!.
    + rewrite <- (insert_insert_eq live p newsize N). eapply good_weaken; [|by rewrite lookup_insert_eq|lia].
      eapply (cut_good h live p n N before from l1 b l2); try done. lia.
    + intros i Hi'. apply Hd. lia.
    + intros p' n' a Hp' Hne Ha. destruct Hl as [Hl1 _]. rewrite E in Hl1. apply Hl1 in Hp' as (c & Hc & Hcu & Hc2 & _).
      pose proof (heap_inv_ok _ _ _ Hi) as Hok. rewrite E in Hok. pose proof (prev_total l1).
      assert (0 <= prev_size l1).
      { destruct l1 as [|d l1' _] using rev_ind; [done|]. rewrite prev_size_snoc. apply Forall_app in Hok as [Hok _].
        apply Forall_app in Hok as [_ Hok]. apply Forall_cons in Hok as [[? _] _]. destruct (b_used d); lia. }
      destruct (other_blocks _ _ _ _ _ Hok Hc Hcu ltac:(lia)); apply Hd; lia.
  - destruct Ha as [-> ->]. destruct (Z.eqb_spec N (b_size b - 16)) as [EN|HNe].
    { apply wp_ret. simpl. rewrite insert_delete_eq. split; [done|]. split; [done|]. split_and!; [|done|done]. eapply good_resize; [done..|lia]. }
    set (u := b_size b - 16) in *.
    assert (heap_good h (<[p := u]> live)) as Hg1 by (eapply good_resize; [done..|unfold u; lia]).
    wp_use (rt_malloc_good k h (<[p := u]> live) N Hidle Hg1); [lia|]. intros r [k' h1] (Ek & Hsame & Hd1 & Hr1). simpl in Ek, Hsame, Hd1, Hr1. subst k'. rewrite served_small in Hr1 by lia.
    destruct r as [[q|]|]; [|by subst h1; apply wp_ret|done]. destruct Hr1 as (Hq & Hg2).
    assert (p <> q) as Hne by (intros ->; by rewrite lookup_insert_eq in Hq). rewrite lookup_insert_ne in Hq by done.
    set (len := if u <? N then u else N). assert (len = Z.min u N) as Hlen by (unfold len; destruct (Z.ltb_spec u N); lia).
    assert ((<[q := N]> (<[p := u]> live)) !! p = Some u) as Lp by (by rewrite lookup_insert_ne, lookup_insert_eq by done).
    assert ((<[q := N]> (<[p := u]> live)) !! q = Some N) as Lq by (by rewrite lookup_insert_eq).
    pose proof (copy_good h1 (<[q := N]> (<[p := u]> live)) p u q N len Hg2 Lp Lq Hne ltac:(lia) ltac:(lia)) as (? & m' & Em & Hg3 & Hc1 & Hc2)%wp_Ret.
    wp_step. apply wp_on_snd. eapply wp_intro; [by rewrite Em|].
    wp_use (rt_free_good k (set_hmem m' h1) (<[q := N]> (<[p := u]> live)) p u Hidle Hg3 Lp).
    intros r [k' h3] (-> & Ek & Hsame3 & Hd3 & Hg4). simpl in Ek, Hd3, Hg4. subst k'. apply wp_ret. simpl. split; [done|].
    split; [destruct Hsame as (? & ? & ?), Hsame3 as (? & ? & ?); simpl in *; split_and!; congruence|]. split_and!.
    + rewrite delete_insert_ne, delete_insert_eq in Hg4 by done. rewrite <- (insert_insert_eq (delete p live) q newsize N).
      eapply good_weaken; [exact Hg4|by rewrite lookup_insert_eq|lia].
    + intros i Hi'. rewrite (Hd3 q N) by (done || lia). rewrite Hc1 by lia. apply (Hd1 p u); [by rewrite lookup_insert_eq|lia].
    + intros p' n' a Hp' Hne' Ha. assert (p' <> q) by congruence.
      assert ((<[q := N]> (<[p := u]> live)) !! p' = Some n') as Lp' by (by rewrite !lookup_insert_ne by done).
      rewrite (Hd3 p' n' a) by done. rewrite Hc2.
      * apply (Hd1 p' n'); [by rewrite lookup_insert_ne by done|done].
      * destruct (good_disjoint h1 _ p' n' q N Hg2 Lp' Lq ltac:(done)); lia.
Qed.
Lemma rt_realloc_good k h live p n newsize :
  heap_idle k -> heap_good h live -> live !! p = Some n -> 0 <= newsize < 2 ^ 32 ->
  wp (rt_realloc heap_sem (Some p) newsize) (fun r s => s.1 = k /\ same_heap h s.2 /\
    match r with
    | Done None => s.2 = h
    | Done (Some q) => heap_good s.2 (<[q := resized newsize]> (delete p live)) /\
        (forall i, 0 <= i < Z.min n (resized newsize) -> hmem s.2 (q + i) = hmem h (p + i)) /\
        (forall p' n' a, live !! p' = Some n' -> p' <> p -> p' <= a < p' + n' -> hmem s.2 a = hmem h a)
    | Blocked => False
    end) (k, h).
Proof.
  intros Hidle Hg Hp Hn.
  assert (rt_realloc heap_sem (Some p) newsize = rt_realloc heap_sem (Some p) (resized newsize)) as ->.
  { unfold resized. destruct (Z.leb_spec newsize (2 ^ 32 - 8)); [done|]. unfold rt_realloc. change RT_ALIGN_SIZE with 8.
    by rewrite RT_ALIGN_wraps by lia. }
  apply rt_realloc_small; [done..|by apply resized_range].
Qed.

(** C11: rt_realloc of a block in use, while the semaphore of the heap is free, shrinks the
    block in place, leaves it, or moves it: the bytes that fit in both sizes are the old ones,
    the blocks of the other users are untouched and the heap is sound; when it returns RT_NULL
    the heap is as before. A new size above 2^32 - 8 wraps around and counts as 0: the block
    keeps none of its bytes. *)
Theorem rt_realloc_keeps_data k h live p n newsize :
  heap_idle k -> heap_good h live -> live !! p = Some n -> 0 <= newsize < 2 ^ 32 ->
  wp (rt_realloc heap_sem (Some p) newsize) (fun r s => s.1 = k /\
    match r with
    | Done None => s.2 = h
    | Done (Some q) => heap_good s.2 (<[q := resized newsize]> (delete p live)) /\
        (forall i, 0 <= i < Z.min n (resized newsize) -> hmem s.2 (q + i) = hmem h (p + i)) /\
        (forall p' n' a, live !! p' = Some n' -> p' <> p -> p' <= a < p' + n' -> hmem s.2 a = hmem h a)
    | Blocked => False
    end) (k, h).
Proof.
  intros Hidle Hg Hp Hn. eapply wp_mono; [by eapply rt_realloc_good|]. cbv beta. intros r s (? & _ & ?). done.
Qed.

(** ** Safety of all users

    The calls of the users, one after the other: each is made while the semaphore of the heap
    is free, and between two calls the rest of the kernel may change in any way that leaves
    the semaphore free. *)
Inductive heap_step : (kernel * heap) * gmap Z Z -> (kernel * heap) * gmap Z Z -> Prop :=
| step_malloc s live n p s' :
    0 <= n < 2 ^ 32 -> rt_malloc heap_sem n s = Ret (Done (Some p)) s' -> heap_step (s, live) (s', <[p := served n]> live)
| step_malloc_null s live n s' :
    0 <= n < 2 ^ 32 -> rt_malloc heap_sem n s = Ret (Done None) s' -> heap_step (s, live) (s', live)
| step_realloc s live p n newsize q s' :
    live !! p = Some n -> 0 <= newsize < 2 ^ 32 -> rt_realloc heap_sem (Some p) newsize s = Ret (Done (Some q)) s' ->
    heap_step (s, live) (s', <[q := resized newsize]> (delete p live))
| step_realloc_null s live p n newsize s' :
    live !! p = Some n -> 0 <= newsize < 2 ^ 32 -> rt_realloc heap_sem (Some p) newsize s = Ret (Done None) s' ->
    heap_step (s, live) (s', live)
| step_free s live p n s' :
    live !! p = Some n -> rt_free heap_sem (Some p) s = Ret (Done tt) s' -> heap_step (s, live) (s', delete p live)
| step_write k h live p n a v :
    live !! p = Some n -> p <= a < p + n -> heap_step ((k, h), live) ((k, set_hmem (put8 a v (hmem h)) h), live)
| step_kernel k k' h live : heap_idle k' -> heap_step ((k, h), live) ((k', h), live).

Inductive heap_run : (kernel * heap) * gmap Z Z -> (kernel * heap) * gmap Z Z -> Prop :=
| heap_run_nil s : heap_run s s
| heap_run_step s1 s2 s3 : heap_step s1 s2 -> heap_run s2 s3 -> heap_run s1 s3.

(** The semaphore is free and the blocks are those of the users. *)
Definition users_good (s : (kernel * heap) * gmap Z Z) : Prop := heap_idle s.1.1 /\ heap_good s.1.2 s.2.

(** One step: soundness is kept, and a byte of a block that stays changes only by a write. *)
Lemma heap_step_good s s' : heap_step s s' -> users_good s -> users_good s' /\ same_heap s.1.2 s'.1.2 /\
  (forall p n n' a, s.2 !! p = Some n -> s'.2 !! p = Some n' -> p <= a < p + Z.min n n' ->
     hmem s'.1.2 a <> hmem s.1.2 a -> exists v, s' = ((s.1.1, set_hmem (put8 a v (hmem s.1.2)) s.1.2), s.2)).
Proof.
  unfold users_good. destruct 1 as [[k h] live n q [k' h'] Hn E|[k h] live n [k' h'] Hn E|[k h] live q n m q' [k' h'] Hq Hm E|
    [k h] live q n m [k' h'] Hq Hm E|[k h] live q n [k' h'] Hq E|k h live q n a v Hq Ha|k k' h live Hk]; simpl; intros [Hi Hg].
  - pose proof (rt_malloc_good k h live n Hi Hg Hn) as Hw. unfold wp in Hw. rewrite E in Hw. simpl in Hw.
    destruct Hw as (-> & Hs & Hd & Hno & Hg'). split_and!; [done..|].
    intros p n1 n2 a Hp Hp' Ha []. eapply Hd; [exact Hp|lia].
  - pose proof (rt_malloc_good k h live n Hi Hg Hn) as Hw. unfold wp in Hw. rewrite E in Hw. simpl in Hw.
    destruct Hw as (-> & Hs & Hd & ->). split_and!; try done.
  - pose proof (rt_realloc_good k h live q n m Hi Hg Hq Hm) as Hw. unfold wp in Hw. rewrite E in Hw. simpl in Hw.
    destruct Hw as (-> & Hs & Hg' & Hd1 & Hd2). split_and!; [done..|]. intros p n1 n2 a Hp Hp' Ha [].
    destruct (decide (p = q)) as [->|Hne]; [|eapply Hd2; [exact Hp|done|lia]].
    apply lookup_insert_Some in Hp' as [[<- <-]|[_ Hp']]; [|by rewrite lookup_delete_eq in Hp'].
    assert (n1 = n) as -> by congruence. pose proof (Hd1 (a - q') ltac:(lia)) as Hd. by rewrite Zplus_minus in Hd.
  - pose proof (rt_realloc_good k h live q n m Hi Hg Hq Hm) as Hw. unfold wp in Hw. rewrite E in Hw. simpl in Hw.
    destruct Hw as (-> & Hs & ->). split_and!; try done.
  - pose proof (rt_free_good k h live q n Hi Hg Hq) as Hw. unfold wp in Hw. rewrite E in Hw. simpl in Hw.
    destruct Hw as (_ & -> & Hs & Hd & Hg'). split_and!; [done..|]. intros p n1 n2 a Hp Hp' Ha [].
    eapply Hd; [exact Hp| |lia]. intros ->. by rewrite lookup_delete_eq in Hp'.
  - split_and!; [done|by eapply write_good|done..|]. intros p n1 n2 a' _ _ _ Hne.
    destruct (decide (a = a')) as [->|]; [by exists v|]. exfalso. apply Hne. simpl. rewrite put8_lookup. by rewrite decide_False.
  - split_and!; try done.
Qed.

Lemma heap_run_good s s' : heap_run s s' -> users_good s -> users_good s' /\ same_heap s.1.2 s'.1.2.
Proof.
  induction 1 as [s|s1 s2 s3 Hs _ IH]; intros Hg; [done|]. destruct (heap_step_good _ _ Hs Hg) as (Hg2 & (E1 & E2 & E3) & _).
  destruct (IH Hg2) as [? (F1 & F2 & F3)]. split; [done|]. split_and!; congruence.
Qed.

Definition users_safe (lo hi : Z) (s : kernel * heap) live : Prop :=
  (forall p n, live !! p = Some n -> (8 | p) /\ lo <= p /\ p + n <= hi) /\
  (forall p n q n2, live !! p = Some n -> live !! q = Some n2 -> p <> q -> p + n <= q \/ q + n2 <= p) /\
  (forall n, 0 <= n < 2 ^ 32 -> exists r s', rt_malloc heap_sem n s = Ret (Done r) s') /\
  (forall p n m, live !! p = Some n -> 0 <= m < 2 ^ 32 -> exists r s', rt_realloc heap_sem (Some p) m s = Ret (Done r) s') /\
  (forall p n, live !! p = Some n -> exists s', rt_free heap_sem (Some p) s = Ret (Done tt) s') /\
  (forall s' live' p n n' a, heap_step (s, live) (s', live') -> live !! p = Some n -> live' !! p = Some n' ->
     p <= a < p + Z.min n n' -> hmem s'.2 a <> hmem s.2 a -> exists v, s' = (s.1, set_hmem (put8 a v (hmem s.2)) s.2)).

Lemma good_users_safe k h live : users_good ((k, h), live) -> users_safe (heap_ptr h + 16) (heap_end h) (k, h) live.
Proof.
  intros Hu. pose proof Hu as [Hi Hg]. simpl in Hi, Hg. split_and!.
  - intros. by eapply good_inside.
  - intros. by eapply good_disjoint.
  - intros n Hn. pose proof (rt_malloc_good k h live n Hi Hg Hn) as ([r|] & s' & E & _ & _ & _ & Hr)%wp_Ret; [eauto|done].
  - intros p n m Hp Hm. pose proof (rt_realloc_good k h live p n m Hi Hg Hp Hm) as ([r|] & s' & E & _ & _ & Hr)%wp_Ret; [eauto|done].
  - intros p n Hp. pose proof (rt_free_good k h live p n Hi Hg Hp) as (r & s' & E & -> & _)%wp_Ret. eauto.
  - intros s' live' p n n' a Hs Hp Hp' Ha Hne. destruct (heap_step_good _ _ Hs Hu) as (_ & _ & H).
    destruct (H p n n' a Hp Hp' Ha Hne) as [v [= -> _]]. by exists v.
Qed.

(** C7: From rt_system_heap_init on, whatever sequence of rt_malloc, rt_realloc and rt_free
    the users of the heap call and whatever they write into their own blocks, one call after
    the other (the semaphore of the heap is free when a call begins) and with anything the
    rest of the kernel does in between: the blocks they hold are aligned, inside the heap and
    apart from each other, every further rt_malloc, rt_realloc and rt_free returns without
    waiting, and a byte of a block changes only when its user writes it. What a user holds is
    the size it asked for, but for sizes above 2^32 - 8, which wrap around: rt_malloc then
    serves 16 bytes and rt_realloc 0. *)
Theorem heap_users_safe k Q h0 begin_addr end_addr :
  KI k Q -> containers Q -> detached Q (ObjNode (OSemaphore heap_sem)) -> detached Q (SuspHead (OSemaphore heap_sem)) ->
  bytes (hmem h0) -> used_mem h0 = 0 -> max_mem h0 = 0 ->
  0 <= begin_addr <= 2 ^ 32 - 8 -> 0 <= end_addr < 2 ^ 32 -> RT_ALIGN begin_addr 8 + 48 <= RT_ALIGN_DOWN end_addr 8 ->
  wp (rt_system_heap_init heap_sem begin_addr end_addr) (fun _ s =>
    forall s' live, heap_run (s, ∅) (s', live) -> users_safe (begin_addr + 16) end_addr s' live) (k, h0).
Proof.
  intros Hk Hc Hd1 Hd2 Hm Hu Hx Hb He Hsz. destruct (RT_ALIGN_spec begin_addr Hb) as [B1 B2].
  destruct (RT_ALIGN_DOWN_spec end_addr He) as (E1 & E2 & E3).
  apply heap_init_runs; [lia|done|lia|done|done|].
  eapply wp_mono; [apply (rt_sem_init_spec k Q heap_sem); [done..|lia|by left]|].
  cbv beta. intros _ k' (_ & Hk' & [Hv _ _ _] & _ & Hemp).
  set (base := RT_ALIGN begin_addr 8) in *. set (top := RT_ALIGN_DOWN end_addr 8) in *. intros [k1 h] live Hrun.
  assert (users_good ((k', heap_start (hmem h0) base (top - base - 32)), ∅)) as Hg.
  { split; [by split|]. apply heap_start_good; [done|lia|done|lia| |lia]. repeat apply Z.divide_sub_r; [done..|by exists 4]. }
  destruct (heap_run_good _ _ Hrun Hg) as [Hg' (P1 & P2 & _)]. simpl in P1, P2.
  destruct (good_users_safe k1 h live Hg') as (S1 & S2 & S3 & S4 & S5 & S6). split_and!; [|done..].
  intros p n Hp. destruct (S1 p n Hp) as (? & ? & ?). split_and!; [done|lia|lia].
Qed.
End ops.
