(* ===== verification/HeapAlign.v ===== *)
(** rt_malloc_align, rt_free_align and rt_strdup (src/kservice.c), on the heap. *)

From S2P Require Import Prelude RtList KState Ffs KInv Sched Object Timer Thread ThreadLife Ipc Sem Mailbox.
From S2P Require Import Mem Heap HeapBlocks HeapSpec HeapFree HeapLive HeapOps.

Open Scope Z_scope.

(** * Operations *)

Section align.
Context (heap_sem : nat).

Definition round4 (x : Z) : Z := Z.land (u32 (x + 3)) (u32 (Z.lnot 3)).

(** rt_malloc_align *)
Definition rt_malloc_align (size align : Z) : M (kernel * heap) (call_result (option Z)) :=
  let align := round4 align in
  let align_size := u32 (round4 size + align) in
  let! r := rt_malloc heap_sem align_size in
  match r with
  | Blocked => ret Blocked
  | Done None => ret (Done None)
  | Done (Some ptr) =>
      let align_ptr :=
        if Z.land ptr (u32 (align - 1)) =? 0 then u32 (ptr + align)
        else Z.land (u32 (ptr + u32 (align - 1))) (u32 (Z.lnot (align - 1))) in
      on_snd (modify (fun h => set_hmem (put32 (align_ptr - 4) ptr (hmem h)) h)) ;!
      ret (Done (Some align_ptr))
  end.

(** rt_free_align *)
Definition rt_free_align (ptr : Z) : M (kernel * heap) (call_result unit) :=
  let! s := get in
  let real_ptr := get32 (hmem s.2) (ptr - 4) in
  rt_free heap_sem (if real_ptr =? 0 then None else Some real_ptr).

(** rt_strdup; [fuel] bounds the length of the string. *)
Definition rt_strdup (fuel : nat) (s : Z) : M (kernel * heap) (call_result (option Z)) :=
  let! len := on_snd (fun h => match rt_strlen fuel s (hmem h) with Ret n _ => Ret (u32 (n + 1)) h | Fail e => Fail e end) in
  let! r := rt_malloc heap_sem len in
  match r with
  | Blocked => ret Blocked
  | Done None => ret (Done None)
  | Done (Some tmp) =>
      on_snd (fun h => match rt_memcpy tmp s len (hmem h) with Ret _ m => Ret tt (set_hmem m h) | Fail e => Fail e end) ;!
      ret (Done (Some tmp))
  end.

(** * Specifications *)

Implicit Types (k : kernel) (h : heap) (live : gmap Z Z).

Lemma mask_down x j : 0 <= x < 2 ^ 32 -> 0 <= j <= 32 -> Z.land x (u32 (Z.lnot (2 ^ j - 1))) = 2 ^ j * (x / 2 ^ j).
Proof.
  intros Hx Hj. replace (2 ^ j - 1) with (Z.ones j) by (rewrite Z.ones_equiv; lia).
  assert (Z.land x (u32 (Z.lnot (Z.ones j))) = Z.ldiff x (Z.ones j)) as ->.
  { apply Z.bits_inj'. intros n Hn. rewrite Z.land_spec, Z.ldiff_spec. destruct (Z.lt_ge_cases n 32).
    - unfold u32. rewrite Z.mod_pow2_bits_low, Z.lnot_spec by lia. done.
    - by rewrite (testbit_high x 32) by lia. }
  rewrite Z.ldiff_ones_r, Z.shiftr_div_pow2, Z.shiftl_mul_pow2 by lia. lia.
Qed.

Lemma mask_low x j : 0 <= j -> Z.land x (2 ^ j - 1) = x mod 2 ^ j.
Proof. intros Hj. replace (2 ^ j - 1) with (Z.ones j) by (rewrite Z.ones_equiv; lia). by apply Z.land_ones. Qed.

Lemma round4_spec x : 0 <= x < 2 ^ 32 - 3 -> round4 x = 4 * ((x + 3) / 4).
Proof. intros Hx. unfold round4. rewrite (u32_small (x + 3)) by lia. apply (mask_down (x + 3) 2); lia. Qed.

(** Where the user's memory begins *)
Lemma align_ptr_spec ptr j : 0 < ptr -> (8 | ptr) -> 2 <= j <= 20 -> ptr + 2 ^ j < 2 ^ 32 ->
  let q := if Z.land ptr (u32 (2 ^ j - 1)) =? 0 then u32 (ptr + 2 ^ j)
           else Z.land (u32 (ptr + u32 (2 ^ j - 1))) (u32 (Z.lnot (2 ^ j - 1))) in
  (2 ^ j | q) /\ ptr + 4 <= q <= ptr + 2 ^ j.
Proof.
  intros Hp [c Hc] Hj Ht. assert (4 <= 2 ^ j <= 2 ^ 20) as Hj2 by (split; [apply (Z.pow_le_mono_r 2 2 j)|apply Z.pow_le_mono_r]; lia).
  rewrite (u32_small (2 ^ j - 1)) by lia. rewrite mask_low by lia. rewrite (u32_small (ptr + 2 ^ j)), (u32_small (ptr + (2 ^ j - 1))) by lia.
  rewrite mask_down by lia. cbv zeta. pose proof (Z.div_mod ptr (2 ^ j)) as Hdm. pose proof (Z.mod_pos_bound ptr (2 ^ j)) as Hmb.
  destruct (Z.eqb_spec (ptr mod 2 ^ j) 0) as [E|E].
  - split; [|lia]. exists (ptr / 2 ^ j + 1). lia.
  - assert ((ptr + (2 ^ j - 1)) / 2 ^ j = ptr / 2 ^ j + 1) as ->.
    { symmetry. apply Z.div_unique with (ptr mod 2 ^ j - 1); lia. }
    split; [exists (ptr / 2 ^ j + 1); lia|]. split; [|lia].
    destruct (decide (j = 2)) as [->|]. { exfalso. apply E. subst ptr. change (2 ^ 2) with 4. Z.to_euclidean_division_equations; lia. }
    assert (exists d, 2 ^ j = 8 * d) as [d Ed] by (exists (2 ^ (j - 3)); change 8 with (2 ^ 3); rewrite <- Z.pow_add_r by lia; f_equal; lia).
    rewrite Ed in *. nia.
Qed.

Lemma good_top h live : heap_good h live -> 0 <= heap_ptr h /\ heap_end h < 2 ^ 32.
Proof. intros [(before & from & Hi & _)]. destruct (hi_shape _ _ _ Hi) as [[H1 H2 H3 H4 H5 H6 H7] He]. lia. Qed.

(** rt_malloc_align returns memory that begins at a multiple of the alignment and lies,
    with the word before it, in a block of its own; rt_free_align gives that block back. *)
Theorem rt_malloc_align_spec k h live size j :
  heap_idle heap_sem k -> heap_good h live -> 2 <= j <= 20 -> 0 <= size <= 2 ^ 31 ->
  wp (rt_malloc_align size (2 ^ j)) (fun r s => s.1 = k /\
    match r with
    | Done None => s.2 = h
    | Done (Some q) => exists p n, live !! p = None /\ (2 ^ j | q) /\ p + 4 <= q /\ q + size <= p + n /\
        heap_good s.2 (<[p := n]> live) /\
        (forall p' m a, live !! p' = Some m -> p' <= a < p' + m -> hmem s.2 a = hmem h a) /\
        wp (rt_free_align q) (fun r2 s2 => r2 = Done tt /\ s2.1 = k /\ heap_good s2.2 live) s
    | Blocked => False
    end) (k, h).
Proof.
  intros Hidle Hg Hj Hs. assert (4 <= 2 ^ j <= 2 ^ 20) as Hj2 by (split; [apply (Z.pow_le_mono_r 2 2 j)|apply Z.pow_le_mono_r]; lia).
  assert (round4 (2 ^ j) = 2 ^ j) as Ea.
  { rewrite round4_spec by lia. assert (exists d, 2 ^ j = 4 * d) as [d ->]
      by (exists (2 ^ (j - 2)); change 4 with (2 ^ 2); rewrite <- Z.pow_add_r by lia; f_equal; lia). Z.to_euclidean_division_equations; lia. }
  assert (size <= round4 size < size + 4) as Hr by (rewrite round4_spec by lia; Z.to_euclidean_division_equations; lia).
  unfold rt_malloc_align. rewrite Ea. rewrite (u32_small (round4 size + 2 ^ j)) by lia. set (n := round4 size + 2 ^ j).
  wp_use (rt_malloc_good heap_sem k h live n Hidle Hg); [lia|]. intros r [k1 h1] (Ek & Hsame & Hd & Hp). simpl in Ek, Hsame, Hd, Hp. subst k1. rewrite served_small in Hp by lia.
  destruct r as [[p|]|]; [|by apply wp_ret|done]. destruct Hp as (Hnone & Hg1).
  destruct (good_inside h1 _ p n Hg1 ltac:(by rewrite lookup_insert_eq)) as (H8 & Hlo & Hhi). destruct (good_top _ _ Hg1) as [Hb Ht].
  pose proof (align_ptr_spec p j ltac:(lia) H8 Hj ltac:(lia)) as Hq. cbv zeta in Hq. set (q := if Z.land p _ =? 0 then _ else _) in *. destruct Hq as [Hdiv Hq].
  wp_step. apply wp_on_snd, wp_modify. apply wp_ret. cbn [fst snd hmem set_hmem]. split; [done|]. exists p, n.
  set (h2 := set_hmem _ h1).
  assert (heap_good h2 (<[p := n]> live)) as Hg2.
  { apply (change_good h1 _ p n); [done|by rewrite lookup_insert_eq|by eapply put32_bytes, good_bytes|]. intros a Ha. apply put32_out. lia. }
  split_and!; [done|done|lia|lia|done| |].
  - intros p' m a Hp' Ha. rewrite put32_out; [by eapply Hd|].
    destruct (good_disjoint h1 _ p n p' m Hg1) as [?|?]; [by rewrite lookup_insert_eq|rewrite lookup_insert_ne by congruence; done|congruence|lia|lia].
  - unfold rt_free_align. wp_step. apply wp_get. cbn [snd h2 hmem set_hmem]. rewrite get32_put32, u32_small by lia.
    rewrite (proj2 (Z.eqb_neq p 0)) by lia.
    eapply wp_mono; [apply (rt_free_good heap_sem k h2 _ p n Hidle Hg2); by rewrite lookup_insert_eq|]. cbv beta.
    intros r [k3 h3] (-> & Ek3 & _ & _ & Hg3). split_and!; [done|done|]. by rewrite delete_insert_id in Hg3.
Qed.

Lemma copied_region q s len m m0 n : (forall a, s <= a < s + len -> m a = m0 a) -> Z.of_nat n <= len ->
  region (copied q s len m) q n = region m0 s n.
Proof.
  intros Hm Hn. unfold region. apply list_fmap_ext. intros i x Hi%list_elem_of_lookup_2%elem_of_seq. unfold copied.
  rewrite decide_True by lia. rewrite <- Hm by lia. f_equal. lia.
Qed.

(** rt_strdup copies a string of a user into a block of its own, or returns RT_NULL. *)
Theorem rt_strdup_spec k h live fuel s n p m :
  heap_idle heap_sem k -> heap_good h live -> string_at (hmem h) s n -> (n < fuel)%nat -> Z.of_nat n < 2 ^ 31 ->
  live !! p = Some m -> p <= s -> s + Z.of_nat n < p + m ->
  wp (rt_strdup fuel s) (fun r st => st.1 = k /\
    match r with
    | Done None => st.2 = h
    | Done (Some q) => live !! q = None /\ heap_good st.2 (<[q := Z.of_nat n + 1]> live) /\
        string_at (hmem st.2) q n /\ region (hmem st.2) q n = region (hmem h) s n
    | Blocked => False
    end) (k, h).
Proof.
  intros Hidle Hg Hstr Hf Hn Hp Hlo Hhi. unfold rt_strdup. wp_step. apply wp_on_snd.
  pose proof (rt_strlen_spec fuel (hmem h) s n Hstr Hf) as (? & ? & E & -> & ->)%wp_Ret. unfold wp at 1. rewrite E. clear E.
  rewrite u32_small by lia. set (len := Z.of_nat n + 1).
  wp_use (rt_malloc_good heap_sem k h live len Hidle Hg); [lia|]. intros r [k1 h1] (Ek & _ & Hd & Hq). simpl in Ek, Hd, Hq. subst k1. rewrite served_small in Hq by lia.
  destruct r as [[q|]|]; [|by apply wp_ret|done]. destruct Hq as (Hnone & Hg1).
  assert (forall a, s <= a < s + len -> hmem h1 a = hmem h a) as Hs1 by (intros a Ha; apply (Hd p m); [done|lia]).
  assert (forward q s len) as Hfw.
  { destruct (good_disjoint h1 _ q len p m Hg1) as [?|?]; [by rewrite lookup_insert_eq|rewrite lookup_insert_ne by congruence; done|congruence|..];
      unfold forward; lia. }
  wp_step. apply wp_on_snd.
  pose proof (rt_memcpy_copied q s len (hmem h1) ltac:(by eapply good_bytes) ltac:(lia) Hfw) as (? & ? & E & -> & ->)%wp_Ret.
  unfold wp at 1. rewrite E. clear E. apply wp_ret. cbn [fst snd hmem set_hmem]. split_and!; [done|done| | |].
  - apply (change_good h1 _ q len); [done|by rewrite lookup_insert_eq| |].
    + intros a. unfold copied. pose proof (good_bytes _ _ Hg1) as Hb. case_decide; apply Hb.
    + intros a Ha. unfold copied. by rewrite decide_False.
  - destruct Hstr as [H1 H2]. assert (region (copied q s len (hmem h1)) q n = region (hmem h) s n) as Er.
    { apply copied_region; [done|lia]. }
    split; [by rewrite Er|]. unfold copied. rewrite decide_True by lia. rewrite <- H2, <- Hs1 by lia. f_equal. lia.
  - apply copied_region; [done|lia].
Qed.
End align.
