(* ===== verification/Mempool.v ===== *)
(** Memory pools (src/mempool.c): blocks of one size, the free ones linked through
    their first word.

    The control blocks are [pools], the memory of the blocks is [pmem]; [pool_addr] is
    the address of a control block, which an allocated block has in its first word, and
    [pool_at] finds the control block at an address.  The waiting threads are in the
    kernel model.  A call that has to wait returns [Blocked] and goes on in its
    [_wakeup] part. *)

From S2P Require Import Prelude RtList KState Ffs KInv Sched Object Timer Thread ThreadLife Ipc Mailbox Mem Idle Dynamic.

Open Scope Z_scope.

(** * State *)

(** struct rt_mempool *)
Record rt_mempool : Type := mk_mempool {
  start_address : Z;
  mp_size : Z;
  block_size : Z;
  block_list : Z;
  block_total_count : Z;
  block_free_count : Z;
  suspend_thread_count : Z }.

Record pool_state : Type := mk_ps { pmem : memory; pools : nat -> rt_mempool }.

Notation P := (M (kernel * pool_state)) (only parsing).

Definition get_pool (p : nat) : P rt_mempool := on_snd (fun s => Ret (pools s p) s).
Definition set_pool (p : nat) (mp : rt_mempool) : P unit :=
  on_snd (modify (fun s => mk_ps (pmem s) (<[p := mp]> (pools s)))).
Definition load_ptr (a : Z) : P Z := on_snd (fun s => Ret (get32 (pmem s) a) s).
Definition store_ptr (a v : Z) : P unit := on_snd (modify (fun s => mk_ps (put32 a v (pmem s)) (pools s))).

Definition set_block_list (v : Z) (mp : rt_mempool) : rt_mempool :=
  mk_mempool (start_address mp) (mp_size mp) (block_size mp) v (block_total_count mp) (block_free_count mp) (suspend_thread_count mp).
Definition set_block_free_count (v : Z) (mp : rt_mempool) : rt_mempool :=
  mk_mempool (start_address mp) (mp_size mp) (block_size mp) (block_list mp) (block_total_count mp) v (suspend_thread_count mp).
Definition set_suspend_thread_count (v : Z) (mp : rt_mempool) : rt_mempool :=
  mk_mempool (start_address mp) (mp_size mp) (block_size mp) (block_list mp) (block_total_count mp) (block_free_count mp) v.

Section pools.
Context (pool_addr : nat -> Z) (pool_at : Z -> option nat).

(** * Operations *)

(** The loop that links the blocks, and the end of the list *)
Fixpoint link_blocks (n : nat) (offset block_ptr stride : Z) : P unit :=
  match n with
  | O => ret tt
  | S n => store_ptr (block_ptr + offset * stride) (block_ptr + (offset + 1) * stride) ;! link_blocks n (offset + 1) block_ptr stride
  end.

Definition format_pool (p : nat) (start total_ size_ block_size_ : Z) : P unit :=
  on_fst (list_init (SuspHead (OMemPool p))) ;!
  link_blocks (Z.to_nat total_) 0 start (block_size_ + 4) ;!
  store_ptr (start + (total_ - 1) * (block_size_ + 4)) 0 ;!
  set_pool p (mk_mempool start size_ block_size_ start total_ total_ 0).

(** rt_mp_init *)
Definition rt_mp_init (p : nat) (nm : list Z) (start size_ block_size_ : Z) : P Z :=
  on_fst (rt_object_init (OMemPool p) nm) ;!
  let size_ := RT_ALIGN_DOWN size_ RT_ALIGN_SIZE in
  let block_size_ := RT_ALIGN block_size_ RT_ALIGN_SIZE in
  let total_ := size_ / (u32 (block_size_ + 4)) in
  format_pool p start total_ size_ block_size_ ;!
  ret RT_EOK.

(** rt_mp_detach: the loop *)
Fixpoint mp_wake_loop (fuel : nat) (p : nat) : P unit :=
  match fuel with
  | O => fail OutOfFuel
  | S fuel =>
      let! s := get in
      if list_isempty (SuspHead (OMemPool p)) s.1 then ret tt
      else
        let! t := on_fst (list_first_thread (SuspHead (OMemPool p))) in
        on_fst (upd_thread t (set_error (- RT_ERROR))) ;!
        on_fst (rt_thread_resume t) ;!
        let! mp := get_pool p in
        set_pool p (set_suspend_thread_count (u32 (suspend_thread_count mp - 1)) mp) ;!
        mp_wake_loop fuel p
  end.

Definition mp_wake_all (p : nat) : P unit :=
  let! s := get in mp_wake_loop (S (size (lists s.1))) p.

Definition rt_mp_detach (p : nat) : P Z :=
  mp_wake_all p ;!
  on_fst (rt_object_detach (OMemPool p)) ;!
  ret RT_EOK.

(** rt_mp_create; what the heap answers is an argument, as in Dynamic.v. *)
Definition rt_mp_create (pool : option nat) (memory_ : option Z) (nm : list Z) (block_count block_size_ : Z) : P (option nat) :=
  let! o := on_fst (rt_object_allocate (OMemPool <$> pool) nm) in
  match pool with
  | None => ret None
  | Some p =>
      let block_size_ := RT_ALIGN block_size_ RT_ALIGN_SIZE in
      let size_ := u32 (u32 (block_size_ + 4) * block_count) in
      match memory_ with
      | None => on_fst (rt_object_delete (OMemPool p)) ;! ret None
      | Some start => format_pool p start block_count size_ block_size_ ;! ret (Some p)
      end
  end.

(** rt_mp_delete; the memory goes back to the heap. *)
Definition rt_mp_delete (p : nat) : P Z :=
  mp_wake_all p ;!
  on_fst (rt_object_delete (OMemPool p)) ;!
  ret RT_EOK.

(** rt_mp_alloc: the first block of the list *)
Definition mp_take (p : nat) : P Z :=
  let! mp := get_pool p in
  set_pool p (set_block_free_count (u32 (block_free_count mp - 1)) mp) ;!
  let block_ptr := block_list mp in
  let! next := (if block_ptr =? 0 then fail NullDeref else load_ptr block_ptr) in
  let! mp := get_pool p in
  set_pool p (set_block_list next mp) ;!
  store_ptr block_ptr (pool_addr p) ;!
  ret (block_ptr + 4).

Definition rt_mp_alloc (p : nat) (time : Z) : P (call_result (option Z)) :=
  let! mp := get_pool p in
  if negb (block_free_count mp =? 0) then let! b := mp_take p in ret (Done (Some b))
  else if time =? 0 then ret (Done None)
  else
    let! s := get in
    let! t := of_option NullDeref (rt_thread_self s.1) in
    on_fst (rt_thread_suspend t) ;!
    on_fst (list_insert_after (SuspHead (OMemPool p)) (TList t)) ;!
    set_pool p (set_suspend_thread_count (u32 (suspend_thread_count mp + 1)) mp) ;!
    on_fst (ipc_wait t time) ;!
    ret Blocked.

(** The rest of rt_mp_alloc, when the thread runs again *)
Definition rt_mp_alloc_wakeup (t p : nat) : P (option Z) :=
  let! s := get in
  if negb (error (threads s.1 t) =? RT_EOK) then ret None else let! b := mp_take p in ret (Some b).

(** rt_mp_free: a waiting thread gets its turn *)
Definition mp_serve (p : nat) : P unit :=
  let! mp := get_pool p in
  if suspend_thread_count mp >? 0 then
    let! t := on_fst (list_first_thread (SuspHead (OMemPool p))) in
    on_fst (upd_thread t (set_error RT_EOK)) ;!
    on_fst (rt_thread_resume t) ;!
    let! mp := get_pool p in
    set_pool p (set_suspend_thread_count (u32 (suspend_thread_count mp - 1)) mp) ;!
    on_fst rt_schedule
  else ret tt.

Definition rt_mp_free (block : Z) : P unit :=
  let block_ptr := block - 4 in
  let! a := load_ptr block_ptr in
  let! p := of_option BadPointer (pool_at a) in
  let! mp := get_pool p in
  set_pool p (set_block_free_count (u32 (block_free_count mp + 1)) mp) ;!
  store_ptr block_ptr (block_list mp) ;!
  let! mp := get_pool p in
  set_pool p (set_block_list block_ptr mp) ;!
  mp_serve p.
End pools.
