(* ===== verification/MempoolSpec.v ===== *)
(** What the operations of a memory pool do: the free blocks as a list in memory, the
    blocks in use, and the threads that wait. *)

From S2P Require Import Prelude RtList KState Ffs KInv Sched Object Timer Thread ThreadLife Ipc Mailbox Mem HeapBlocks Idle Dynamic Mempool.

Open Scope Z_scope.

(** The blocks of a pool *)
Definition blocks (start stride : Z) (n : nat) : list Z := (fun i => start + Z.of_nat i * stride) <$> seq 0 n.

Fixpoint chain (m : memory) (a : Z) (bs : list Z) : Prop :=
  match bs with
  | [] => a = 0
  | b :: bs => a = b /\ b <> 0 /\ chain m (get32 m b) bs
  end.

Section lists.
Implicit Types (m : memory) (bs : list Z).

Lemma chain_frame m m' a bs : chain m a bs -> (forall b, b ∈ bs -> get32 m' b = get32 m b) -> chain m' a bs.
Proof.
  revert a. induction bs as [|b bs IH]; intros a; [done|]. intros (-> & Hb & Hc) H. cbn [chain]. split_and!; [done|done|].
  rewrite H by set_solver. apply IH; [done|]. intros c Hc'. apply H. set_solver.
Qed.

Lemma blocks_elem start stride n b : b ∈ blocks start stride n -> exists i, (i < n)%nat /\ b = start + Z.of_nat i * stride.
Proof. unfold blocks. intros (i & -> & Hi)%list_elem_of_fmap. exists i. split; [|done]. apply elem_of_seq in Hi. lia. Qed.

Lemma blocks_apart start stride n b c : 4 < stride -> b ∈ blocks start stride n -> c ∈ blocks start stride n -> b <> c ->
  b + stride <= c \/ c + stride <= b.
Proof. intros Hs (i & Hi & ->)%blocks_elem (j & Hj & ->)%blocks_elem Hne. assert (i <> j) by congruence. nia. Qed.

Lemma blocks_NoDup start stride n : 0 < stride -> NoDup (blocks start stride n).
Proof. intros Hs. unfold blocks. apply NoDup_fmap_2; [|apply NoDup_seq]. intros i j H. nia. Qed.

Lemma blocks_S start stride n : blocks start stride (S n) = blocks start stride n ++ [start + Z.of_nat n * stride].
Proof. unfold blocks. by rewrite seq_S, fmap_app. Qed.
End lists.

Section specs.
(** One pool, at its address *)
Context (pool_addr : nat -> Z) (p : nat).

Implicit Types (k : kernel) (Q : gmap node (list node)) (s : pool_state) (free used : list Z).

(** The pool has the blocks [free], in the order of the list, and [used]. *)
Record pool_ok s free used : Prop := {
  po_bytes : bytes (pmem s);
  po_stride : 4 < block_size (pools s p) + 4;
  po_start : 0 < start_address (pools s p);
  po_top : start_address (pools s p) + block_total_count (pools s p) * (block_size (pools s p) + 4) <= 2 ^ 32;
  po_blocks : free ++ used ≡ₚ blocks (start_address (pools s p)) (block_size (pools s p) + 4) (Z.to_nat (block_total_count (pools s p)));
  po_chain : chain (pmem s) (block_list (pools s p)) free;
  po_count : block_free_count (pools s p) = Z.of_nat (length free);
  po_used : forall b, b ∈ used -> get32 (pmem s) b = pool_addr p }.

(** What does not change in a pool *)
Definition same_pool (mp mp' : rt_mempool) : Prop :=
  start_address mp' = start_address mp /\ block_size mp' = block_size mp /\ block_total_count mp' = block_total_count mp.

Lemma pool_apart s free used b c : pool_ok s free used -> b ∈ free ++ used -> c ∈ free ++ used -> b <> c ->
  b + (block_size (pools s p) + 4) <= c \/ c + (block_size (pools s p) + 4) <= b.
Proof.
  intros [_ Hs _ _ Hb _ _ _] H1 H2. rewrite Hb in H1, H2. by eapply blocks_apart.
Qed.

Lemma pool_NoDup s free used : pool_ok s free used -> NoDup (free ++ used).
Proof. intros [_ Hs _ _ Hb _ _ _]. rewrite Hb. apply blocks_NoDup. lia. Qed.

Lemma pool_range s free used b : pool_ok s free used -> b ∈ free ++ used -> 0 < b < 2 ^ 32.
Proof. intros [_ Hs Hst Ht Hb _ _ _] H. rewrite Hb in H. apply blocks_elem in H as (i & Hi & ->). nia. Qed.

Lemma pool_count s free used : pool_ok s free used -> (length free <= Z.to_nat (block_total_count (pools s p)))%nat.
Proof.
  intros [_ _ _ _ Hb _ _ _]. apply Permutation_length in Hb. rewrite length_app in Hb. unfold blocks in Hb.
  rewrite length_fmap, length_seq in Hb. lia.
Qed.

(** The first word of one block is stored, and the block changes sides. *)
Lemma pool_store s free used free' used' b v bl count :
  pool_ok s free used -> b ∈ free ++ used -> free' ++ used' ≡ₚ free ++ used ->
  (forall m', (forall c, c ∈ free ++ used -> c <> b -> get32 m' c = get32 (pmem s) c) -> get32 m' b = u32 v ->
    chain m' bl free' /\ forall c, c ∈ used' -> get32 m' c = pool_addr p) ->
  count = Z.of_nat (length free') ->
  forall n, let s' := mk_ps (put32 b v (pmem s)) (<[p := mk_mempool (start_address (pools s p)) (mp_size (pools s p)) (block_size (pools s p))
                         bl (block_total_count (pools s p)) count n]> (pools s)) in
  pool_ok s' free' used'.
Proof.
  intros Hp Hb Hperm Hm Hc n s'. pose proof Hp as [P1 P2 P3 P4 P5 P6 P7 P8].
  destruct (Hm (put32 b v (pmem s))) as [M1 M2].
  { intros c Hcin Hne. destruct (pool_apart s free used b c Hp Hb Hcin ltac:(done)); apply get32_put32_out; lia. }
  { apply get32_put32. }
  split; simpl; rewrite ?fn_lookup_insert; simpl; try done; [by apply put32_bytes|by rewrite Hperm].
Qed.

(** The threads that wait for a block, as the kernel and the pool know them *)
Definition pool_waiters Q s (ts : list nat) : Prop :=
  waiters Q (SuspHead (OMemPool p)) ts /\ suspend_thread_count (pools s p) = Z.of_nat (length ts).

(** ** rt_mp_init *)

Lemma link_blocks_spec n i a stride k s : 4 <= stride -> bytes (pmem s) ->
  wp (link_blocks n (Z.of_nat i) a stride) (fun _ st => st.1 = k /\ pools st.2 = pools s /\ bytes (pmem st.2) /\
    (forall j, (i <= j < i + n)%nat -> get32 (pmem st.2) (a + Z.of_nat j * stride) = u32 (a + (Z.of_nat j + 1) * stride)) /\
    (forall x, x < a + Z.of_nat i * stride \/ a + Z.of_nat (i + n) * stride <= x -> pmem st.2 x = pmem s x)) (k, s).
Proof.
  intros Hs. revert i s. induction n as [|n IH]; intros i s Hm; cbn [link_blocks].
  - apply wp_ret. split_and!; try done. intros j Hj; lia.
  - unfold store_ptr. wp_step. apply wp_on_snd, wp_modify. replace (Z.of_nat i + 1) with (Z.of_nat (S i)) by lia.
    eapply wp_mono; [apply IH; simpl; by apply put32_bytes|]. cbv beta. intros [] [k' s'] (E1 & E2 & B & L & O). simpl in *.
    split_and!; [done|done|done| |].
    + intros j Hj. destruct (decide (j = i)) as [->|]; [|apply L; lia].
      rewrite (get32_ext _ (put32 (a + Z.of_nat i * stride) (a + Z.of_nat (S i) * stride) (pmem s))).
      * rewrite get32_put32. f_equal. lia.
      * intros x Hx. apply O. left. nia.
    + intros x Hx. rewrite O by nia. apply put32_out. nia.
Qed.

Lemma chain_seq m a stride i n : 0 < a -> 0 < stride ->
  (forall j, (i <= j < i + n)%nat -> get32 m (a + Z.of_nat j * stride) = a + (Z.of_nat j + 1) * stride) ->
  get32 m (a + Z.of_nat (i + n) * stride) = 0 ->
  chain m (a + Z.of_nat i * stride) ((fun j => a + Z.of_nat j * stride) <$> seq i (S n)).
Proof.
  intros Ha Hs. revert i. induction n as [|n IH]; intros i Hl He; cbn [seq fmap list_fmap chain].
  - rewrite Nat.add_0_r in He. split; [done|]. split; [nia|done].
  - change (seq i (S (S n))) with (i :: seq (S i) (S n)). split; [done|]. split; [nia|]. rewrite Hl by lia. replace (Z.of_nat i + 1) with (Z.of_nat (S i)) by lia.
    apply (IH (S i)); [intros; apply Hl; lia|]. by rewrite Nat.add_succ_comm.
Qed.

(** The lists and the memory of a pool whose blocks are all free *)
Lemma format_pool_spec k Q s start total_ size_ bs act :
  KIx act k Q -> detached Q (SuspHead (OMemPool p)) -> bytes (pmem s) -> 0 < start -> 0 < bs -> 0 < total_ ->
  start + total_ * (bs + 4) <= 2 ^ 32 -> total_ * (bs + 4) < 2 ^ 32 ->
  wp (format_pool p start total_ size_ bs) (fun _ st =>
    KIx act st.1 (<[SuspHead (OMemPool p) := []]> Q) /\ threads st.1 = threads k /\ activated st.1 = activated k /\
    pool_ok st.2 (blocks start (bs + 4) (Z.to_nat total_)) [] /\
    pools st.2 = <[p := mk_mempool start size_ bs start total_ total_ 0]> (pools s) /\
    (forall x, x < start \/ start + total_ * (bs + 4) <= x -> pmem st.2 x = pmem s x)) (k, s).
Proof.
  intros Hk Hd Hm Hst Hbs Ht Htop Hsz. unfold format_pool, list_init.
  apply (kinv_init_head _ _ _ _ _ _ (SuspHead (OMemPool p))) in Hk; [|done|done].
  wp_step. apply wp_on_fst, wp_modify. wp_step. change 0 with (Z.of_nat 0) at 1.
  eapply wp_mono; [apply link_blocks_spec; [lia|done]|]. cbv beta. intros [] [k' s'] (E1 & E2 & B & L & O). simpl in E1, E2. subst k'.
  unfold store_ptr, set_pool. wp_step. apply wp_on_snd, wp_modify. apply wp_on_snd, wp_modify. cbn [fst snd pools pmem].
  destruct (Z.to_nat total_) as [|n] eqn:En; [lia|].
  replace (start + (total_ - 1) * (bs + 4)) with (start + Z.of_nat n * (bs + 4)) by nia.
  split_and!; [done|done|done| |by rewrite E2|].
  - split; simpl; rewrite ?fn_lookup_insert; simpl; [by apply put32_bytes|lia|lia|lia|by rewrite app_nil_r, En| | |by intros b ?%elem_of_nil].
    + enough (chain (put32 (start + Z.of_nat n * (bs + 4)) 0 (pmem s')) (start + Z.of_nat 0 * (bs + 4)) (blocks start (bs + 4) (S n))) as H
        by (by replace (start + Z.of_nat 0 * (bs + 4)) with start in H by lia).
      apply chain_seq; [lia|lia| |].
      * intros j Hj. rewrite get32_put32_out by nia. simpl in L. rewrite L by lia. apply u32_small. nia.
      * simpl. by rewrite get32_put32.
    + unfold blocks. rewrite length_fmap, length_seq. lia.
  - intros x Hx. rewrite put32_out by nia. apply O. nia.
Qed.

Definition pool_lists Q : gmap node (list node) := <[SuspHead (OMemPool p) := []]> (register (OMemPool p) Q).

(** rt_mp_init divides the memory it is given into as many blocks as fit, links them in
    the order of their addresses and registers the pool; nothing outside that memory is
    written and no thread waits. *)
Theorem rt_mp_init_spec k Q s nm start size_ bs :
  KI k Q -> containers Q -> detached Q (ObjNode (OMemPool p)) -> detached Q (SuspHead (OMemPool p)) ->
  bytes (pmem s) -> 0 < start -> 0 < bs -> bs + 12 <= RT_ALIGN_DOWN size_ 8 -> 0 <= size_ < 2 ^ 32 -> start + size_ <= 2 ^ 32 ->
  wp (rt_mp_init p nm start size_ bs) (fun r st => r = RT_EOK /\ KI st.1 (pool_lists Q) /\ pool_waiters (pool_lists Q) st.2 [] /\
    threads st.1 = threads k /\
    (let stride := RT_ALIGN bs 8 + 4 in let total_ := RT_ALIGN_DOWN size_ 8 / stride in
     0 < total_ /\ pool_ok st.2 (blocks start stride (Z.to_nat total_)) []) /\
    (forall q, q <> p -> pools st.2 q = pools s q) /\
    (forall x, x < start \/ start + size_ <= x -> pmem st.2 x = pmem s x)) (k, s).
Proof.
  intros Hk Hc Hd1 Hd2 Hm Hst Hbs Hfit Hsz Htop. unfold rt_mp_init. change RT_ALIGN_SIZE with 8.
  destruct (RT_ALIGN_DOWN_spec size_ Hsz) as (S1 & S2 & _). destruct (RT_ALIGN_spec bs ltac:(lia)) as [B1 _].
  rewrite (u32_small (_ + 4)) by lia. set (sz := RT_ALIGN_DOWN size_ 8) in *. set (ab := RT_ALIGN bs 8) in *.
  assert (0 < sz / (ab + 4)) as Ht by (apply Z.div_str_pos; lia). pose proof (Z.mul_div_le sz (ab + 4) ltac:(lia)) as Hle.
  wp_step. apply wp_on_fst. eapply wp_mono; [by apply (rt_object_init_spec (activated k) k Q (OMemPool p) nm)|].
  cbv beta. intros [] k1 (xs & h1 & Hxs & Hk1 & ->). rewrite (register_default _ _ _ Hxs) in Hk1.
  wp_step. eapply wp_mono; [apply (format_pool_spec _ _ s start (sz / (ab + 4)) sz ab (activated k) Hk1); [by apply detached_register|done|lia..]|].
  cbv beta. intros [] [k2 s2] (Hk2 & Eth & Ea & Hp & Ep & Hout). apply wp_ret. cbn [fst snd] in *.
  split_and!; [done| | |by rewrite Eth|done|done| |].
  - unfold KI. by rewrite Ea.
  - split; [by unfold waiters, pool_lists; rewrite lookup_insert_eq|]. by rewrite Ep, fn_lookup_insert.
  - intros q Hq. by rewrite Ep, fn_lookup_insert_ne.
  - intros x Hx. apply Hout. lia.
Qed.
(** The address of the pool is not RT_NULL. *)
Hypothesis addr_range : 0 < pool_addr p < 2 ^ 32.

(** ** rt_mp_alloc *)

Lemma mp_take_spec k s b free used : pool_ok s (b :: free) used ->
  wp (mp_take pool_addr p) (fun r st => r = b + 4 /\ st.1 = k /\ pool_ok st.2 free (b :: used) /\
    same_pool (pools s p) (pools st.2 p) /\ suspend_thread_count (pools st.2 p) = suspend_thread_count (pools s p) /\
    (forall q, q <> p -> pools st.2 q = pools s q) /\
    (forall a, a < b \/ b + 4 <= a -> pmem st.2 a = pmem s a)) (k, s).
Proof.
  intros Hp. pose proof Hp as [P1 P2 P3 P4 P5 (E1 & Hb0 & P6) P7 P8]. pose proof (pool_NoDup _ _ _ Hp) as Hnd.
  pose proof (pool_count _ _ _ Hp) as Hcount.
  unfold mp_take, get_pool, set_pool, load_ptr, store_ptr.
  wp_step. apply wp_on_snd. unfold wp at 1. wp_step. apply wp_on_snd, wp_modify.
  rewrite E1, (proj2 (Z.eqb_neq _ _)) by done. wp_step. apply wp_on_snd. unfold wp at 1. wp_step. apply wp_on_snd. unfold wp at 1.
  cbn [pools pmem]. rewrite !fn_lookup_insert.
  wp_step. apply wp_on_snd, wp_modify. wp_step. apply wp_on_snd, wp_modify. apply wp_ret. cbn [fst snd pools pmem].
  rewrite fn_insert_insert'. unfold set_block_list, set_block_free_count. cbn [start_address mp_size block_size block_list block_total_count block_free_count suspend_thread_count].
  split_and!; [done|done| |by rewrite fn_lookup_insert|by rewrite fn_lookup_insert| |].
  - apply (pool_store s (b :: free) used); [done|set_solver|symmetry; apply Permutation_middle| |].
    + intros m' Hold Hnew. apply NoDup_app in Hnd as (Hnd1 & Hdis & _). apply NoDup_cons in Hnd1 as [Hnb _]. split.
      * apply (chain_frame (pmem s)); [done|]. intros c Hc. apply Hold; [set_solver|]. intros ->. done.
      * intros c [->|Hc]%elem_of_cons; [rewrite Hnew; apply u32_small; lia|].
        rewrite Hold; [by apply P8|set_solver|]. intros ->. apply (Hdis b); [set_solver|done].
    + rewrite P7. simpl. rewrite u32_small; [lia|]. simpl in Hcount. nia.
  - intros q Hq. simpl. by rewrite fn_lookup_insert_ne.
  - intros a Ha. by apply put32_out.
Qed.

(** A pool whose counter of waiting threads changes *)
Lemma pool_ok_count s free used n : pool_ok s free used ->
  pool_ok (mk_ps (pmem s) (<[p := set_suspend_thread_count n (pools s p)]> (pools s))) free used.
Proof. intros [P1 P2 P3 P4 P5 P6 P7 P8]. split; simpl; rewrite ?fn_lookup_insert; done. Qed.

(** The caller goes to the front of the waiting threads. *)
Lemma pool_suspend k Q l ts t t0 time :
  KI k Q -> readyp (threads k t) -> wait_head l = true -> waiters Q l ts -> t0 <> t -> readyp (threads k t0) ->
  wp (rt_thread_suspend t ;! list_insert_after l (TList t)) (fun _ k1 =>
    wp (ipc_wait t time) (fun _ k' => exists Q', KI k' Q' /\ waiters Q' l (t :: ts) /\
      threads k' = <[t := set_stat RT_THREAD_SUSPEND (threads k t)]> (threads k) /\ env k' = env k /\ same_objects k k') k1) k.
Proof.
  intros Hk Hr Hw Hl Hne Hr0. destruct (ki_ready_timer _ _ _ _ _ _ _ Hk Hr) as [Hrow Hoff].
  pose proof (ready_not_waiter _ _ _ _ _ _ Hk Hw Hl Hr) as Hni.
  wp_use (rt_thread_suspend_spec _ k Q t); [exact Hk|done|]. intros r k1 (_ & _ & Hk1 & Eth1 & Ee1 & Ec1 & Et1).
  assert (l <> TList t) as Hne' by (by intros ->).
  assert (unlink (TList t) Q !! l = Some (TList <$> ts)) as Hl1 by (apply (unlink_other (lists k)); [apply Hk|done..]).
  assert (suspendedp (threads k1 t)) as Hs1 by (by rewrite Eth1, fn_lookup_insert).
  assert (detached (unlink (TList t) Q) (TList t)) as Hd.
  { eapply ki_detached; [exact Hk1|apply not_node_ok_TList|apply unlink_TList_Some]. }
  destruct (Rep_insert_after (lists k1) _ l _ (TList t) (ki_rep _ _ _ _ _ _ Hk1) Hl1 Hd ltac:(done)) as (h & Hh & Hrep).
  eapply wp_list_op; [done|]. set (k2 := set_lists h k1). set (Q2 := <[l := TList t :: (TList <$> ts)]> (delete (TList t) (unlink (TList t) Q))) in *.
  assert (activated k1 = activated k) as Ea1 by (injection Et1 as Eo _; unfold activated; by rewrite Eo).
  assert (KI k2 Q2) as Hk2.
  { unfold KI. change (activated k2) with (activated k1). rewrite Ea1.
    exact (kinv_join_wait _ _ _ _ _ _ _ l [] (TList <$> ts) t Hk1 Hw Hs1 (unlink_TList_Some _ _) Hl1 Hrep). }
  eapply wp_mono; [apply (ipc_wait_spec k2 Q2 t t0 time)|].
  - exact Hk2.
  - exact Hs1.
  - change (activated k2) with (activated k1). by rewrite Ea1.
  - unfold Q2. rewrite lookup_insert_ne, lookup_delete_ne by (done || by intros ->). by apply unlink_is_Some.
  - change (threads k2) with (threads k1). by rewrite Eth1, fn_lookup_insert_ne.
  - cbv beta. intros _ k3 (Q3 & Hk3 & Hws & _ & _ & Eth3 & Ee3 & Eo3 & _). exists Q3.
    split_and!; [done| |by rewrite Eth3, <- Eth1|by rewrite Ee3, <- Ee1|].
    + apply Hws; [done|]. unfold waiters, Q2. by rewrite lookup_insert_eq.
    + intros o Ho. rewrite Eo3 by done. injection Et1 as Eo _. simpl. by rewrite Eo.
Qed.

(** C28: rt_mp_alloc takes the first free block and marks it with the address of the pool;
    without a free block it returns RT_NULL at once when no wait is allowed, and
    otherwise the caller becomes the first of the waiting threads. *)
Theorem rt_mp_alloc_spec k Q s free used ts t t0 time :
  KI k Q -> pool_ok s free used -> pool_waiters Q s ts -> Z.of_nat (length ts) < 2 ^ 32 - 1 ->
  rt_current_thread k = Some t -> readyp (threads k t) -> t0 <> t -> readyp (threads k t0) ->
  wp (rt_mp_alloc pool_addr p time) (fun r st =>
    match free with
    | b :: free' => r = Done (Some (b + 4)) /\ st.1 = k /\ pool_ok st.2 free' (b :: used) /\ pool_waiters Q st.2 ts /\
        (forall a, a < b \/ b + 4 <= a -> pmem st.2 a = pmem s a)
    | [] =>
        if time =? 0 then r = Done None /\ st = (k, s)
        else r = Blocked /\ pmem st.2 = pmem s /\ pool_ok st.2 [] used /\ exists Q', KI st.1 Q' /\ pool_waiters Q' st.2 (t :: ts) /\
          threads st.1 = <[t := set_stat RT_THREAD_SUSPEND (threads k t)]> (threads k)
    end) (k, s).
Proof.
  intros Hk Hp [Hw Hn] Hlt Hcur Hr Hne Hr0. unfold rt_mp_alloc. unfold get_pool at 1. wp_step. apply wp_on_snd. unfold wp at 1.
  rewrite (po_count _ _ _ Hp). destruct free as [|b free].
  - change (Z.of_nat (length (@nil Z)) =? 0) with true. cbn [negb]. destruct (Z.eqb_spec time 0); [by apply wp_ret|].
    wp_step. apply wp_get. cbn [fst]. wp_step. eapply wp_of_option; [exact Hcur|].
    pose proof (pool_suspend k Q (SuspHead (OMemPool p)) ts t t0 time Hk Hr eq_refl Hw Hne Hr0) as H%wp_bind_inv.
    wp_step. apply wp_on_fst. eapply wp_mono; [exact H|]. cbv beta. clear H. intros _ k1 H.
    wp_step. apply wp_on_fst. eapply wp_mono; [exact H|]. cbv beta. clear H. intros _ k2 H.
    unfold set_pool. wp_step. apply wp_on_snd, wp_modify. wp_step. apply wp_on_fst. eapply wp_mono; [exact H|]. cbv beta.
    intros _ k3 (Q3 & Hk3 & Hw3 & Eth & _). apply wp_ret. cbn [fst snd]. split_and!; [done|done|by apply pool_ok_count|].
    exists Q3. split_and!; [done| |done]. split; [done|]. simpl. rewrite fn_lookup_insert. simpl. rewrite Hn, u32_small by lia. lia.
  - rewrite (proj2 (Z.eqb_neq _ _)) by (simpl; lia). cbn [negb].
    wp_use (mp_take_spec k s b free used Hp). intros r [k' s'] (-> & Ek & Hp' & _ & Hc & _ & Hm). simpl in Ek. subst k'. apply wp_ret. simpl in *.
    split_and!; [done|done|done| |done]. split; [done|]. by rewrite Hc.
Qed.

(** ** rt_mp_free *)

(** The address of the pool leads to it. *)
Context (pool_at : Z -> option nat).
Hypothesis addr_known : pool_at (pool_addr p) = Some p.

Lemma wp_eq {S A} (m m' : M S A) Phi st st' : m st = m' st' -> wp m' Phi st' -> wp m Phi st.
Proof. unfold wp. by intros ->. Qed.

(** The block becomes the first free one. *)
Lemma mp_free_block k s free used1 b used2 : pool_ok s free (used1 ++ b :: used2) ->
  exists s1, rt_mp_free pool_at (b + 4) (k, s) = mp_serve p (k, s1) /\ pool_ok s1 (b :: free) (used1 ++ used2) /\
    suspend_thread_count (pools s1 p) = suspend_thread_count (pools s p) /\
    (forall a, a < b \/ b + 4 <= a -> pmem s1 a = pmem s a).
Proof.
  intros Hp. pose proof Hp as [P1 P2 P3 P4 P5 P6 P7 P8]. pose proof (pool_NoDup _ _ _ Hp) as Hnd.
  assert (b ∈ free ++ used1 ++ b :: used2) as Hb by set_solver. pose proof (pool_range _ _ _ _ Hp Hb) as Hrange.
  assert (Z.of_nat (length free) + 1 < 2 ^ 32) as Hcount.
  { pose proof (Permutation_length P5) as Hl. rewrite !length_app in Hl. unfold blocks in Hl. rewrite length_fmap, length_seq in Hl. simpl in Hl. nia. }
  eexists. split.
  { unfold rt_mp_free, get_pool, set_pool, load_ptr, store_ptr, bind, on_snd, modify. replace (b + 4 - 4) with b by lia.
    cbn [fst snd]. rewrite P8 by set_solver. rewrite addr_known. cbn [of_option fst snd pools pmem ret].
    rewrite !fn_lookup_insert, fn_insert_insert'. reflexivity. }
  unfold set_block_list, set_block_free_count. cbn [start_address mp_size block_size block_list block_total_count block_free_count suspend_thread_count pools pmem].
  split_and!; [|by rewrite fn_lookup_insert|intros a Ha; by apply put32_out].
  apply (pool_store s free (used1 ++ b :: used2)); [done|done|by rewrite <- Permutation_middle, <- Permutation_middle| |].
  - intros m' Hold Hnew. apply NoDup_app in Hnd as (_ & Hdis & Hnd2). apply NoDup_delete_middle in Hnd2 as [_ Hnb]. split.
    + split_and!; [done|lia|]. rewrite Hnew.
      assert (u32 (block_list (pools s p)) = block_list (pools s p)) as ->.
      { destruct free as [|c free']; [by rewrite P6|]. destruct P6 as (-> & _ & _). apply u32_small.
        assert (0 < c < 2 ^ 32) by (apply (pool_range s (c :: free') (used1 ++ b :: used2)); [done|set_solver]). lia. }
      apply (chain_frame (pmem s)); [done|]. intros c Hc. apply Hold; [set_solver|]. intros ->. apply (Hdis b); [done|set_solver].
    + intros c Hc. rewrite Hold; [apply P8; set_solver|set_solver|]. intros ->. done.
  - rewrite P7, u32_small by lia. simpl. lia.
Qed.

(** C29: The block is the first free one; the first of the waiting threads, if any, becomes
    ready. *)
Theorem rt_mp_free_spec k Q s free used1 b used2 ts :
  KI k Q -> pool_ok s free (used1 ++ b :: used2) -> pool_waiters Q s ts -> Z.of_nat (length ts) < 2 ^ 32 ->
  wp (rt_mp_free pool_at (b + 4)) (fun _ st => pool_ok st.2 (b :: free) (used1 ++ used2) /\
    (forall a, a < b \/ b + 4 <= a -> pmem st.2 a = pmem s a) /\
    match ts with
    | [] => st.1 = k
    | t :: ts' => exists Q', KI st.1 Q' /\ pool_waiters Q' st.2 ts' /\
        threads st.1 = <[t := set_stat RT_THREAD_READY (set_error RT_EOK (threads k t))]> (threads k)
    end) (k, s).
Proof.
  intros Hk Hp [Hw Hn] Hlt. destruct (mp_free_block k s free used1 b used2 Hp) as (s1 & E & Hp1 & Hc & Hm).
  apply (wp_eq _ _ _ _ _ E). clear E. unfold mp_serve, get_pool, set_pool. wp_step. apply wp_on_snd. unfold wp at 1.
  rewrite Hc, Hn. destruct ts as [|t ts].
  - by apply wp_ret.
  - rewrite Z.gtb_ltb, (proj2 (Z.ltb_lt _ _)) by (simpl; lia).
    wp_step. apply wp_on_fst. eapply wp_first_thread; [apply Hk|exact Hw|]. wp_step. apply wp_on_fst. unfold upd_thread. apply wp_modify.
    assert (suspendedp (threads k t)) as Hs by (eapply waiter_suspended; [exact Hk|..|exact Hw|set_solver]; done).
    set (k1 := set_threads (<[t := set_error RT_EOK (threads k t)]> (threads k)) k).
    assert (KI k1 Q) as Hk1 by (by apply (KIx_upd_thread (activated k) k Q t)).
    wp_step. apply wp_on_fst. wp_use (rt_thread_resume_KI k1 Q t); [done|by unfold k1; simpl; rewrite fn_lookup_insert|].
    intros r k2 (_ & Hk2 & _ & Eth2 & _). set (p0 := current_priority (threads k1 t)) in *.
    assert (waiters (woken t p0 Q) (SuspHead (OMemPool p)) ts) as Hw2.
    { pose proof (waiters_woken Q (SuspHead (OMemPool p)) (t :: ts) t p0 eq_refl Hw) as Hx.
      by rewrite filter_ne_head in Hx by (by apply (waiters_NoDup _ _ _ _ _ Hk Hw)). }
    wp_step. apply wp_on_snd. unfold wp at 1. wp_step. apply wp_on_snd, wp_modify. apply wp_on_fst.
    wp_use (rt_schedule_spec _ k2 _ t); [exact Hk2|by rewrite Eth2, fn_lookup_insert|].
    intros [] k3 Hsch. destruct (scheduled_frame _ _ _ Hsch) as (E1 & _). cbn [fst snd]. split_and!.
    + by apply (pool_ok_count s1).
    + done.
    + exists (woken t p0 Q). split_and!; [by eapply scheduled_KI| |].
      * split; [done|]. simpl. rewrite fn_lookup_insert. simpl. rewrite Hc, Hn. simpl length in *. rewrite u32_small; lia.
      * rewrite E1, Eth2. unfold k1. simpl. rewrite fn_lookup_insert, fn_insert_insert'. done.
Qed.

(** C30: When the wait of a thread times out, the pool still counts it: the next rt_mp_free
    takes the head of the empty list of waiting threads for a thread. *)
Theorem rt_mp_free_after_timeout k Q s free used1 b used2 t :
  KI k Q -> pool_ok s free (used1 ++ b :: used2) -> pool_waiters Q s [t] ->
  activated k (ThreadTimer t) = false -> is_Some (Q !! TimerRow (ThreadTimer t)) ->
  wp (on_fst (rt_thread_timeout t)) (fun _ st => rt_mp_free pool_at (b + 4) st = Fail BadPointer) (k, s).
Proof.
  intros Hk Hp [Hw Hn] Hoff Hrow. apply wp_on_fst.
  assert (suspendedp (threads k t)) as Hs by (eapply waiter_suspended; [exact Hk|..|exact Hw|set_solver]; done).
  eapply wp_mono; [by apply (rt_thread_timeout_spec (activated k) k Q t)|]. cbv beta.
  intros [] k' (k1 & Hk1 & _ & _ & _ & _ & Hsch). destruct (mp_free_block k' s free used1 b used2 Hp) as (s1 & -> & _ & Hc & _).
  unfold mp_serve, get_pool, bind at 1, on_snd at 1. cbn [fst snd]. rewrite Hc, Hn.
  assert (waiters (made_ready t (current_priority (threads k t)) Q) (SuspHead (OMemPool p)) []) as Hw1.
  { pose proof (waiters_unlink_thread Q (SuspHead (OMemPool p)) [t] t eq_refl Hw) as Hx. rewrite filter_ne_head in Hx by apply NoDup_singleton.
    unfold made_ready, waiters. by rewrite lookup_insert_ne, lookup_delete_ne. }
  change (Z.of_nat (length [t]) >? 0) with true. cbv iota. unfold bind at 1, on_fst at 1, list_first_thread, bind, get. cbn [fst].
  by rewrite (proj1 (proj2 Hsch)), (Rep_next _ _ _ _ (ki_rep _ _ _ _ _ _ Hk1) Hw1).
Qed.

End specs.
