(* ===== verification/HeapScenarios.v ===== *)
(** The theorems on memory, the heap and the memory pools at concrete states. *)

From S2P Require Import Prelude RtList KState Ffs KInv Sched Object Timer Thread ThreadLife Ipc.
From S2P Require Import Sem Mailbox Clock KCheck Idle Startup Scenarios.
From S2P Require Import Mem Heap HeapBlocks HeapSpec HeapFree HeapLive HeapOps HeapAlign Mempool MempoolSpec.

Open Scope Z_scope.

(** * Memory and strings *)

Definition no_bytes : memory := fun _ => 0.

Lemma no_bytes_ok : bytes no_bytes.
Proof. intros a. unfold no_bytes. lia. Qed.

(** "abcb" at 100 and "cb" at 200 *)
Definition texts : memory := put32 100 1650680417 (put16 200 25187 no_bytes).

Lemma texts_ok : bytes texts.
Proof. repeat first [apply put32_bytes|apply put16_bytes]. apply no_bytes_ok. Qed.

Lemma memory_functions_witness :
  wp (rt_memset 300 65 7) (fun r m' => r = 300 /\ m' = filled 300 (u8 65) 7 texts) texts /\
  wp (rt_memcpy 99 100 4) (fun r m' => r = 99 /\ m' = copied 99 100 4 texts) texts /\
  wp (rt_memmove 101 100 4) (fun r m' => r = 101 /\ m' = copied 101 100 4 texts) texts.
Proof.
  split_and!.
  - exact (proj1 (memory_functions texts 300 0 65 7 texts_ok ltac:(lia))).
  - exact (proj1 (proj2 (memory_functions texts 99 100 0 4 texts_ok ltac:(lia))) ltac:(unfold forward; lia)).
  - exact (proj2 (proj2 (memory_functions texts 101 100 0 4 texts_ok ltac:(lia)))).
Defined.

Definition string_atb (m : memory) (a : Z) (n : nat) : bool :=
  forallb (fun c => negb (c =? 0)) (region m a n) && (m (a + Z.of_nat n) =? 0).

Lemma string_atb_ok m a n : string_atb m a n = true -> string_at m a n.
Proof.
  unfold string_atb. rewrite andb_true_iff, forallb_forall. intros [H1 H2%Z.eqb_eq]. split; [|done].
  apply Forall_forall. intros c Hc. apply Z.eqb_neq, negb_true_iff, H1. by apply list_elem_of_In.
Qed.

Lemma text_at_100 : string_at texts 100 4.
Proof. apply string_atb_ok. vm_compute. reflexivity. Qed.

Lemma text_at_200 : string_at texts 200 2.
Proof. apply string_atb_ok. vm_compute. reflexivity. Qed.

Lemma strstr_witness : exists r m', rt_strstr 10 100 200 texts = Ret r m' /\ m' = texts.
Proof.
  destruct (wp_returns _ _ _ (rt_strstr_spec 10 texts 100 200 4 2 text_at_100 text_at_200 ltac:(lia) ltac:(lia)))
    as (r & m' & E & Hm & _).
  exists r, m'. split; [exact E|exact Hm].
Defined.

(** * The heap *)

(** A heap from 1000 to 2000, with semaphore 7 *)
Definition heap_kernel : kernel := then_do (rt_sem_init 7 [104] 1 RT_IPC_FLAG_FIFO) demo.

Lemma heap_kernel_idle : heap_idle 7 heap_kernel.
Proof. split; vm_compute; reflexivity. Qed.

Lemma demo_sem_node : detached (lists_of demo) (ObjNode (OSemaphore 7)).
Proof. apply detachedb_ok. vm_compute. reflexivity. Qed.

Lemma demo_sem_head : detached (lists_of demo) (SuspHead (OSemaphore 7)).
Proof. apply detachedb_ok. vm_compute. reflexivity. Qed.

Definition no_heap : heap := mk_heap no_bytes 0 0 0 0 0 0.

Definition result {S A} (r : outcome S A) : option A := match r with Ret a _ => Some a | Fail _ => None end.

Lemma then_returns {S A B} (m : M S A) (f : A -> M S B) s a s0 b :
  m s = Ret a s0 -> result (bind m f s) = Some b -> exists s1, f a s0 = Ret b s1.
Proof. unfold bind, result. intros ->. destruct (f a s0) as [c s1|]; intros [= ->]. by exists s1. Qed.

Lemma first_malloc s0 : rt_system_heap_init 7 1000 2000 (demo, no_heap) = Ret tt s0 ->
  exists s1, rt_malloc 7 100 s0 = Ret (Done (Some 1016)) s1.
Proof. intros E. eapply (then_returns _ (fun _ => rt_malloc 7 100)); [exact E|]. vm_compute. reflexivity. Qed.

Lemma heap_users_witness : exists s0 s1, rt_system_heap_init 7 1000 2000 (demo, no_heap) = Ret tt s0 /\
  rt_malloc 7 100 s0 = Ret (Done (Some 1016)) s1 /\ users_safe 7 (1000 + 16) 2000 s1 (<[1016 := 100]> ∅).
Proof.
  destruct (wp_returns _ _ _ (heap_users_safe 7 demo (lists_of demo) no_heap 1000 2000 demo_KI demo_containers
    demo_sem_node demo_sem_head no_bytes_ok eq_refl eq_refl ltac:(lia) ltac:(lia)
    ltac:(vm_compute; discriminate))) as ([] & s0 & E & H).
  destruct (first_malloc s0 E) as [s1 E1]. exists s0, s1. split; [exact E|]. split; [exact E1|]. apply H.
  eapply heap_run_step; [eapply (step_malloc 7 s0 ∅ 100); [lia|exact E1]|apply heap_run_nil].
Defined.

(** The same heap after its initialisation *)
Definition small_heap : heap := heap_start no_bytes 1000 968.

Lemma small_heap_inv : heap_inv small_heap [] [free_block 984].
Proof.
  split; simpl; [split; [|done]|done|done|split; [by left|done]|done|lia].
  apply (formatted_shape no_bytes 1000 968); [apply no_bytes_ok|lia|by exists 125|lia|by exists 121|lia].
Qed.

Lemma malloc_witness : exists r s, rt_malloc 7 100 (heap_kernel, small_heap) = Ret r s /\ s.1 = heap_kernel.
Proof.
  destruct (wp_returns _ _ _ (rt_malloc_spec 7 heap_kernel small_heap [] [free_block 984] 100 heap_kernel_idle small_heap_inv ltac:(lia)))
    as (r & s & E & H & _).
  exists r, s. split; [exact E|exact H].
Defined.

Lemma malloc_free_witness : exists s, bind (rt_malloc 7 100) (fun r =>
    match r with Done p => rt_free 7 p | Blocked => ret Blocked end) (heap_kernel, small_heap) = Ret (Done tt) s /\
  lfree s.2 = lfree small_heap.
Proof.
  destruct (wp_returns _ _ _ (malloc_free_roundtrip 7 heap_kernel small_heap [] [free_block 984] 100 heap_kernel_idle small_heap_inv
    ltac:(constructor) ltac:(lia))) as (r & s & E & -> & _ & _ & H & _).
  exists s. split; [exact E|exact H].
Defined.

(** The heap after a request for 100 bytes: the user holds 1016. *)
Definition used_heap : heap :=
  match malloc_blocks 104 small_heap with Ret _ h => h | Fail _ => small_heap end.

Lemma used_heap_good : heap_good used_heap (<[1016 := 100]> ∅).
Proof.
  assert (heap_good small_heap ∅) as Hg by (apply heap_start_good; [apply no_bytes_ok|lia|by exists 125|lia|by exists 121|lia]).
  destruct (wp_returns _ _ _ (malloc_good small_heap ∅ 100 104 Hg ltac:(lia) ltac:(vm_compute; reflexivity))) as (r & h & E & _ & _ & H).
  assert (used_heap = h) as -> by (unfold used_heap; by rewrite E).
  assert (r = Some 1016) as -> by (assert (match malloc_blocks 104 small_heap with Ret r _ => r | Fail _ => None end = Some 1016) as H'
    by (vm_compute; reflexivity); by rewrite E in H').
  exact (proj2 H).
Qed.

Lemma realloc_witness : exists r s, rt_realloc 7 (Some 1016) 200 (heap_kernel, used_heap) = Ret r s /\ s.1 = heap_kernel.
Proof.
  destruct (wp_returns _ _ _ (rt_realloc_keeps_data 7 heap_kernel used_heap (<[1016 := 100]> ∅) 1016 100 200 heap_kernel_idle
    used_heap_good ltac:(vm_compute; reflexivity) ltac:(lia))) as (r & s & E & H & _).
  exists r, s. split; [exact E|exact H].
Defined.

(** Sizes that wrap around: a request for 2^32 - 4 bytes gets a block of 16, so that the next block
    begins 32 bytes behind it; and a block that is given this size loses its data, for the header
    of the free block behind it overwrites them. *)
Lemma malloc_size_wraps :
  match bind (rt_malloc 7 (2 ^ 32 - 4)) (fun p => let! q := rt_malloc 7 8 in ret (p, q)) (heap_kernel, small_heap) with
  | Ret r _ => Some r | Fail _ => None end = Some (Done (Some 1016), Done (Some 1048)).
Proof. vm_compute. reflexivity. Qed.

Lemma realloc_size_wraps :
  match bind (on_snd (fun h => Ret tt (set_hmem (put8 1016 5 (hmem h)) h))) (fun _ => rt_realloc 7 (Some 1016) (2 ^ 32 - 4))
    (heap_kernel, used_heap) with
  | Ret r s => Some (r, hmem s.2 1016) | Fail _ => None end = Some (Done (Some 1016), 160).
Proof. vm_compute. reflexivity. Qed.

Lemma malloc_align_witness : exists r s, rt_malloc_align 7 100 (2 ^ 5) (heap_kernel, used_heap) = Ret r s /\ s.1 = heap_kernel.
Proof.
  destruct (wp_returns _ _ _ (rt_malloc_align_spec 7 heap_kernel used_heap (<[1016 := 100]> ∅) 100 5 heap_kernel_idle
    used_heap_good ltac:(lia) ltac:(lia))) as (r & s & E & H & _).
  exists r, s. split; [exact E|exact H].
Defined.

(** The user has an empty string at the beginning of its block. *)
Lemma used_heap_string : string_at (hmem used_heap) 1016 0.
Proof. apply string_atb_ok. vm_compute. reflexivity. Qed.

Lemma strdup_witness : exists r s, rt_strdup 7 5 1016 (heap_kernel, used_heap) = Ret r s /\ s.1 = heap_kernel.
Proof.
  destruct (wp_returns _ _ _ (rt_strdup_spec 7 heap_kernel used_heap (<[1016 := 100]> ∅) 5 1016 0 1016 100 heap_kernel_idle
    used_heap_good used_heap_string ltac:(lia) ltac:(lia) ltac:(vm_compute; reflexivity) ltac:(lia) ltac:(lia))) as (r & s & E & H & _).
  exists r, s. split; [exact E|exact H].
Defined.

(** * Memory pools *)

(** The control block of pool 0 is at 4096. *)
Definition addr_of (p : nat) : Z := 4096 + 64 * Z.of_nat p.
Definition find_pool (a : Z) : option nat := if a =? 4096 then Some 0%nat else None.

Lemma addr_0 : 0 < addr_of 0 < 2 ^ 32.
Proof. vm_compute. done. Qed.

Lemma pool_head_free : detached (lists_of demo) (SuspHead (OMemPool 0)).
Proof. apply detachedb_ok. vm_compute. reflexivity. Qed.

Lemma pool_node_free : detached (lists_of demo) (ObjNode (OMemPool 0)).
Proof. apply detachedb_ok. vm_compute. reflexivity. Qed.

Definition no_pools : pool_state := mk_ps no_bytes (fun _ => mk_mempool 0 0 0 0 0 0 0).

Lemma mp_init_witness : exists st, rt_mp_init 0 [112] 1000 36 8 (demo, no_pools) = Ret RT_EOK st /\
  pool_waiters 0 (pool_lists 0 (lists_of demo)) st.2 [].
Proof.
  destruct (wp_returns _ _ _ (rt_mp_init_spec addr_of 0 demo (lists_of demo) no_pools [112] 1000 36 8 demo_KI demo_containers
    pool_node_free pool_head_free no_bytes_ok ltac:(lia) ltac:(lia) ltac:(vm_compute; discriminate) ltac:(lia) ltac:(lia)))
    as (r & st & E & -> & _ & H & _).
  exists st. split; [exact E|exact H].
Defined.

(** A pool of two blocks of 8 bytes, both in use, and the kernel with its list *)
Definition pool_kernel : kernel := then_do (rt_object_init (OMemPool 0) [112] ;! list_init (SuspHead (OMemPool 0))) demo.

Definition full_pool (waiting : Z) : pool_state :=
  mk_ps (put32 1000 4096 (put32 1012 4096 no_bytes)) (fun _ => mk_mempool 1000 24 8 0 2 0 waiting).

Lemma full_pool_ok n : pool_ok addr_of 0 (full_pool n) [] [1000; 1012].
Proof.
  split; simpl; [do 2 apply put32_bytes; apply no_bytes_ok|lia|lia|lia|done|done|done|].
  intros b [->|[->|[]%elem_of_nil]%elem_of_cons]%elem_of_cons; vm_compute; reflexivity.
Qed.

Lemma pool_kernel_KI : KI pool_kernel (lists_of pool_kernel).
Proof. apply trim_KI. vm_compute. reflexivity. Qed.

Lemma pool_kernel_waiters : pool_waiters 0 (lists_of pool_kernel) (full_pool 0) [].
Proof. split; vm_compute; reflexivity. Qed.

Lemma mp_alloc_witness : exists st, rt_mp_alloc addr_of 0 10 (pool_kernel, full_pool 0) = Ret Blocked st /\
  exists Q, pool_waiters 0 Q st.2 [3%nat].
Proof.
  destruct (wp_returns _ _ _ (rt_mp_alloc_spec addr_of 0 addr_0 pool_kernel (lists_of pool_kernel) (full_pool 0) [] [1000; 1012] [] 3 1 10
    pool_kernel_KI (full_pool_ok 0) pool_kernel_waiters ltac:(simpl; lia) ltac:(evaluate) ltac:(evaluate) ltac:(discriminate) ltac:(evaluate)))
    as (r & st & E & -> & _ & _ & Q & _ & H & _).
  exists st. split; [exact E|]. exists Q. exact H.
Defined.

(** Thread 3 waits for a block. *)
Definition pool_waiting : kernel :=
  then_do (rt_thread_suspend 3 ;! list_insert_after (SuspHead (OMemPool 0)) (TList 3) ;! ipc_wait 3 (-1)) pool_kernel.

Lemma pool_waiting_KI : KI pool_waiting (lists_of pool_waiting).
Proof. apply trim_KI. vm_compute. reflexivity. Qed.

Lemma pool_waiting_waiters : pool_waiters 0 (lists_of pool_waiting) (full_pool 1) [3%nat].
Proof. split; vm_compute; reflexivity. Qed.

Lemma mp_free_witness : exists st, rt_mp_free find_pool (1000 + 4) (pool_waiting, full_pool 1) = Ret tt st /\
  exists Q, pool_waiters 0 Q st.2 [].
Proof.
  destruct (wp_returns _ _ _ (rt_mp_free_spec addr_of 0 addr_0 find_pool eq_refl pool_waiting (lists_of pool_waiting) (full_pool 1) [] [] 1000 [1012] [3%nat]
    pool_waiting_KI (full_pool_ok 1) pool_waiting_waiters ltac:(simpl; lia))) as ([] & st & E & _ & _ & Q & _ & H & _).
  exists st. split; [exact E|]. exists Q. exact H.
Defined.

Lemma mp_timeout_witness : exists st, on_fst (rt_thread_timeout 3) (pool_waiting, full_pool 1) = Ret tt st /\
  rt_mp_free find_pool (1000 + 4) st = Fail BadPointer.
Proof.
  destruct (wp_returns _ _ _ (rt_mp_free_after_timeout addr_of 0 addr_0 find_pool eq_refl pool_waiting (lists_of pool_waiting) (full_pool 1) [] [] 1000 [1012] 3
    pool_waiting_KI (full_pool_ok 1) pool_waiting_waiters ltac:(evaluate) ltac:(eexists; evaluate))) as ([] & st & E & H).
  exists st. split; [exact E|exact H].
Defined.
