(* ===== verification/ServiceScenarios.v ===== *)
(** The theorems on formatted output and on devices at concrete states. *)

From Stdlib Require Import Ascii String.
From S2P Require Import Prelude RtList KState Ffs KInv Sched Object Timer Thread ThreadLife Ipc.
From S2P Require Import KCheck Idle Startup Scenarios.
From S2P Require Import Mem Printf PrintfSpec Device DeviceSpec HeapScenarios.

Open Scope Z_scope.

(** * Formatted output *)

(** "%s=%-5d%c|%x" with the string "cb" at 200 *)
Definition demo_format : list Z := text "%s=%-5d%c|%x".
Definition demo_args : list argument := [Text [99; 98]; Word (2 ^ 32 - 42); Word 65; Word 255].

Lemma demo_args_passed : Forall2 (passes texts 1000 30 10) demo_args [200; 2 ^ 32 - 42; 65; 255].
Proof.
  constructor; [|repeat constructor]. apply passes_text; [lia|apply text_at_200|vm_compute; reflexivity|simpl; lia|unfold len; simpl; lia].
Qed.

Lemma demo_format_chars : string_chars demo_format.
Proof. repeat (constructor; [vm_compute; done|]). constructor. Qed.

Lemma demo_regular : regular demo_format demo_args.
Proof. exists (text "cb=-42  A|ff"). vm_compute. reflexivity. Qed.

Lemma vsnprintf_witness : exists m', rt_vsnprintf 10 1000 30 demo_format [200; 2 ^ 32 - 42; 65; 255] texts = Ret 12 m' /\
  m' = write_list 1000 (text "cb=-42  A|ff" ++ [0]) texts.
Proof.
  destruct (wp_returns _ _ _ (rt_vsnprintf_spec 10 texts 1000 30 demo_format demo_args [200; 2 ^ 32 - 42; 65; 255]
    (text "cb=-42  A|ff") ltac:(lia) ltac:(lia) ltac:(lia) demo_format_chars demo_args_passed ltac:(vm_compute; reflexivity) demo_regular))
    as (r & m' & E & H & Hr & _).
  rewrite (Hr ltac:(vm_compute; reflexivity)) in E. exists m'. split; [exact E|exact H].
Defined.

(** The two conversions that are not done as described: 8 in octal is printed as 8, and a string with
    the precision 0 in full. *)
Definition printed (fmt words : list Z) : option Z :=
  match rt_vsnprintf 10 1000 30 fmt words texts with Ret r _ => Some r | Fail _ => None end.
Lemma octal_hexadecimal : described (text "%o") [Word 8] = Some (text "10") /\ printed (text "%o") [8] = Some 1.
Proof. split; vm_compute; reflexivity. Qed.
Lemma precision_zero : described (text "%.0s") [Text [99; 98]] = Some [] /\ printed (text "%.0s") [200] = Some 2.
Proof. split; vm_compute; reflexivity. Qed.

Lemma decimal_witness : exists r m' ds, rt_snprintf 10 1000 12 (text "%d") [u32 (- 2 ^ 31)] texts = Ret r m' /\ value 10 ds = Z.abs (- 2 ^ 31).
Proof.
  destruct (wp_returns _ _ _ (rt_snprintf_decimal 10 texts 1000 12 (- 2 ^ 31) ltac:(lia) ltac:(lia) ltac:(lia) ltac:(lia)))
    as (r & m' & E & ds & _ & H & _).
  exists r, m', ds. split; [exact E|exact H].
Defined.

(** * Devices *)

(** Device 0 is a stand-alone device with all functions, the others have none; the
    registers are one number that counts the calls of the driver. *)
Definition counting (r : Z) : M (kernel * (memory * Z)) Z := fun s => Ret r (s.1, (s.2.1, s.2.2 + 1)).

Definition demo_drivers (d : nat) : @driver Z :=
  match d with
  | O => mk_driver (Some (counting 0)) (Some (fun _ => counting 0)) (Some (counting 0))
      (Some (fun _ _ size => counting size)) (Some (fun _ _ size => counting size)) (Some (fun _ _ => counting 0))
  | _ => mk_driver None None None None None None
  end.

Lemma demo_drivers_work : drivers_work demo_drivers.
Proof.
  split; intros [|d] f; simpl; intros; simplify_eq; intros st; repeat eexists.
Qed.

Definition demo_alone (d : nat) : bool := match d with O => true | _ => false end.
Definition demo_devices : @dev_state Z :=
  mk_ds (fun d => mk_device (if demo_alone d then RT_DEVICE_FLAG_STANDALONE else 0) 0 0 None None) 0 None (no_bytes, 0).

Lemma demo_represents : all_represent demo_alone demo_devices (fun _ => mk_adev 0 false).
Proof. intros [|d]; split; done. Qed.

Definition demo_ops : list dev_op := [OpRead 0 0 500 4; OpOpen 0 3; OpOpen 0 3; OpRead 0 0 500 4; OpClose 0; OpClose 0].

Lemma devices_witness : exists vs st, run_ops demo_drivers (fun _ => 900) 600 10 demo_ops (demo, demo_devices) = Ret vs st /\
  Forall2 fits [Some 0; Some 0; Some (- RT_EBUSY); None; Some 0; Some (- RT_ERROR)] vs.
Proof.
  destruct (wp_returns _ _ _ (devices_refine demo_drivers (fun _ => 900) 600 10 demo_alone demo_drivers_work demo_ops demo demo_devices
    (fun _ => mk_adev 0 false) demo_represents ltac:(repeat split; intros [|[|d]]; vm_compute; discriminate)))
    as (vs & st & E & rs & a' & Er & H & _).
  exists vs, st. split; [exact E|]. simpl in Er. injection Er as <- _. exact H.
Defined.

(** The 256th open of a device that is not stand-alone makes its count 0 again: it is open, and
    yet a read and a close are refused. *)
Definition shared_devices : @dev_state Z := mk_ds (fun _ => mk_device 0 0 0 None None) 0 None (no_bytes, 0).
Definition often_opened : option (list Z) :=
  match run_ops demo_drivers (fun _ => 900) 600 10
          (replicate 255 (OpOpen 0 3) ++ [OpRead 0 0 500 4; OpOpen 0 3; OpRead 0 0 500 4; OpClose 0]) (demo, shared_devices) with
  | Ret vs _ => Some (drop 255 vs)
  | Fail _ => None
  end.
Lemma opens_wrap : often_opened = Some [4; RT_EOK; 0; - RT_ERROR].
Proof. vm_compute. reflexivity. Qed.

Lemma device_node_free : detached (lists_of demo) (ObjNode (ODevice 0)).
Proof. apply detachedb_ok. vm_compute. reflexivity. Qed.

Lemma demo_may_schedule : may_schedule demo.
Proof. intros _. split; [exists 3%nat; vm_compute; reflexivity|vm_compute; split; [discriminate|reflexivity]]. Qed.

Lemma register_witness : exists st, bind (rt_device_register 0 [117] 3) (fun r =>
    bind (on_fst (rt_device_find [117])) (fun found =>
    bind (rt_device_register 1 [117] 3) (fun again => ret (r, found, again)))) (demo, demo_devices) =
  Ret (RT_EOK, Some 0%nat, - RT_ERROR) st.
Proof.
  destruct (wp_returns _ _ _ (rt_device_register_find (activated demo) demo (lists_of demo) (fun _ => []) [117] [] 0 1 3 3 demo_devices
    demo_KI demo_containers device_node_free ltac:(vm_compute; reflexivity) ltac:(intros o []%elem_of_nil)
    ltac:(constructor; [lia|constructor]) ltac:(intros x []%elem_of_nil) demo_may_schedule)) as (r & st & E & -> & _).
  exists st. exact E.
Defined.
