(* ===== verification/CanData.v ===== *)
(** The CAN database of the robot (bsp/stm32f40x/drivers/can_database.c, can.c).

    Every CAN identifier the robot sends or receives has an entry in the table
    Can_Database: its direction, the array its data is in, the length, the
    function to call when a frame has arrived, and the channel.  HASH_TABLE maps an
    identifier to the index of its entry.

    The global arrays of the application are a map from their names to the lists of
    their elements; reading or writing past an end is [BadPointer].  The CAN
    controller is outside: [can_busy log canx] says whether CAN_Transmit on the
    controller [canx] finds no free mailbox after the events [log]. *)

From stdpp Require Export strings.
From S2P Require Import Prelude.

Open Scope Z_scope.

(** * Identifiers (can_database.h) *)

Definition M_G_CMD_ID : Z := 0x00.
Definition W_STEPPER_ID : Z := 0x01.
Definition W_GPS_X_ID : Z := 0x08.
Definition W_GPS_Y_ID : Z := 0x09.
Definition W_GPS_ANG_ID : Z := 0x0a.
Definition W_GYRO_C1_ID : Z := 0x10.
Definition W_GYRO_C2_ID : Z := 0x11.
Definition W_ENC1_C1_ID : Z := 0x18.
Definition W_ENC1_C2_ID : Z := 0x19.
Definition W_ENC1_RAD_ID : Z := 0x1a.
Definition W_ENC1_ANG_ID : Z := 0x1b.
Definition W_ENC2_C1_ID : Z := 0x20.
Definition W_ENC2_C2_ID : Z := 0x21.
Definition W_ENC2_RAD_ID : Z := 0x22.
Definition W_ENC2_ANG_ID : Z := 0x23.
Definition G_M_CMD_ID : Z := 0x40.
Definition S_GPS_X_ID : Z := 0x48.
Definition S_GPS_Y_ID : Z := 0x49.
Definition S_GPS_ANG_ID : Z := 0x4a.
Definition S_GYRO_C1_ID : Z := 0x50.
Definition S_GYRO_C2_ID : Z := 0x51.
Definition S_GYRO_RAD_ID : Z := 0x52.
Definition S_ENC1_C1_ID : Z := 0x58.
Definition S_ENC1_C2_ID : Z := 0x59.
Definition S_ENC1_RAD_ID : Z := 0x5a.
Definition S_ENC1_ANG_ID : Z := 0x5b.
Definition S_ENC1_DIS_ID : Z := 0x5c.
Definition S_ENC2_C1_ID : Z := 0x60.
Definition S_ENC2_C2_ID : Z := 0x61.
Definition S_ENC2_RAD_ID : Z := 0x62.
Definition S_ENC2_ANG_ID : Z := 0x63.
Definition S_ENC2_DIS_ID : Z := 0x64.
Definition W_MOTOR1_SPEED_ID : Z := 0x80.
Definition W_MOTOR1_ANGLE_ID : Z := 0x81.
Definition W_MOTOR2_SPEED_ID : Z := 0x82.
Definition W_MOTOR2_ANGLE_ID : Z := 0x83.
Definition W_MOTOR3_SPEED_ID : Z := 0x84.
Definition W_MOTOR3_ANGLE_ID : Z := 0x85.
Definition W_MOTOR4_SPEED_ID : Z := 0x86.
Definition W_MOTOR4_ANGLE_ID : Z := 0x87.
Definition W_MOTOR5_SPEED_ID : Z := 0x88.
Definition W_MOTOR5_ANGLE_ID : Z := 0x89.
Definition W_MOTOR6_SPEED_ID : Z := 0x8a.
Definition W_MOTOR6_ANGLE_ID : Z := 0x8b.
Definition W_MOTOR7_SPEED_ID : Z := 0x8c.
Definition W_MOTOR7_ANGLE_ID : Z := 0x8d.
Definition W_MOTOR8_SPEED_ID : Z := 0x8e.
Definition W_MOTOR8_ANGLE_ID : Z := 0x8f.
Definition W_MOTOR9_SPEED_ID : Z := 0x90.
Definition W_MOTOR9_ANGLE_ID : Z := 0x91.
Definition W_MOTOR1_OLD_ID : Z := 0xa0.
Definition S_MOTOR1_ENC_ID : Z := 0xa8.
Definition W_MOTOR2_OLD_ID : Z := 0xa1.
Definition S_MOTOR2_ENC_ID : Z := 0xa9.
Definition W_MOTOR3_OLD_ID : Z := 0xa2.
Definition S_MOTOR3_ENC_ID : Z := 0xaa.
Definition W_MOTOR4_OLD_ID : Z := 0xa3.
Definition S_MOTOR4_ENC_ID : Z := 0xab.
Definition W_MOTOR5_OLD_ID : Z := 0xa4.
Definition S_MOTOR5_ENC_ID : Z := 0xac.
Definition W_MOTOR6_OLD_ID : Z := 0xa5.
Definition S_MOTOR6_ENC_ID : Z := 0xad.
Definition W_MOTOR7_OLD_ID : Z := 0xa6.
Definition S_MOTOR7_ENC_ID : Z := 0xae.
Definition W_MOTOR8_OLD_ID : Z := 0xa7.
Definition S_MOTOR8_ENC_ID : Z := 0xaf.
Definition W_PWM_ID : Z := 0xc4.
Definition S_SWITCH_ID : Z := 0xc0.
Definition W_FLAG_SET_ID : Z := 0xc5.
Definition R_FLAG_SET_ID : Z := 0xc6.
Definition S_CAMERA1_ID : Z := 0xc8.
Definition S_CAMERA2_ID : Z := 0xc9.
Definition S_CAMERA3_ID : Z := 0xca.
Definition S_CAMERA4_ID : Z := 0xcb.
Definition S_CAMERA5_ID : Z := 0xcc.
Definition W_CAMERA1_ID : Z := 0xd8.
Definition W_CAMERA2_ID : Z := 0xd9.
Definition W_CAMERA3_ID : Z := 0xda.
Definition W_CAMERA4_ID : Z := 0xdb.
Definition W_CAMERA5_ID : Z := 0xdc.
Definition W_RELAY64_ID : Z := 0xd0.
Definition W_RELAY1_ID : Z := 0xd1.
Definition W_RELAY2_ID : Z := 0xd2.
Definition W_SONIC1_ID : Z := 0xe0.
Definition S_SONIC1_ID : Z := 0xe1.
Definition W_SONIC2_ID : Z := 0xe2.
Definition S_SONIC2_ID : Z := 0xe3.
Definition S_CAM1_TRANS : Z := 0xe8.
Definition S_CAM2_TRANS : Z := 0xe9.
Definition S_CAM3_TRANS : Z := 0xea.
Definition S_CAM4_TRANS : Z := 0xeb.
Definition S_CAM5_TRANS : Z := 0xec.

Definition READ_ONLY : Z := 0.
Definition WRITE_ONLY : Z := 1.
Definition CAN_Filter_FIFO0 : Z := 0.
Definition CAN_Filter_FIFO1 : Z := 1.

(** * The table *)

(** The functions of Command.c the entries point to. *)
Inductive menu_func : Type :=
| G_M_CMD_fn | S_GPS_X_fn | S_GPS_Y_fn | S_GPS_ANG_fn | S_GYRO_C1_fn | S_GYRO_C2_fn
| S_GYRO_RAD_fn | S_ENC1_C1_fn | S_ENC1_C2_fn | S_ENC1_RAD_fn | S_ENC1_ANG_fn | S_ENC1_DIS_fn
| S_ENC2_C1_fn | S_ENC2_C2_fn | S_ENC2_RAD_fn | S_ENC2_ANG_fn | S_ENC2_DIS_fn | R_FLAG_SET_fn
| S_SWITCH_fn | S_SONIC1_fn | S_SONIC2_fn | S_MOTOR1_ENC_fn | S_MOTOR2_ENC_fn | S_MOTOR3_ENC_fn
| S_MOTOR4_ENC_fn | S_MOTOR5_ENC_fn | S_MOTOR6_ENC_fn | S_MOTOR7_ENC_fn | S_MOTOR8_ENC_fn
| S_CAMERA1_fn | S_CAMERA2_fn | S_CAMERA3_fn | S_CAMERA4_fn | S_CAMERA5_fn | S_CAM1_TRANS_fn
| S_CAM2_TRANS_fn | S_CAM3_TRANS_fn | S_CAM4_TRANS_fn | S_CAM5_TRANS_fn.

#[export] Instance menu_func_eq_dec : EqDecision menu_func.
Proof. solve_decision. Defined.

Record Can_Data : Type := mk_can {
  Data_type : Z;
  Data_ID : Z;
  Data_ptr : string;
  Data_length : Z;
  MenuFunc : option menu_func;
  Channel : Z;
  Fifo_num : Z }.

Definition CAMERA_LENGTH : Z := 8.

Definition Can_Database : list Can_Data := [
  mk_can WRITE_ONLY M_G_CMD_ID "MOSI_CMD" 1 None 1 CAN_Filter_FIFO0;
  mk_can WRITE_ONLY W_GPS_X_ID "MOSI_GPS_X" 8 None 1 CAN_Filter_FIFO1;
  mk_can WRITE_ONLY W_GPS_Y_ID "MOSI_GPS_Y" 8 None 1 CAN_Filter_FIFO0;
  mk_can WRITE_ONLY W_GPS_ANG_ID "MOSI_GPS_ANG" 8 None 1 CAN_Filter_FIFO1;
  mk_can WRITE_ONLY W_GYRO_C1_ID "MOSI_GYRO_C1" 8 None 1 CAN_Filter_FIFO0;
  mk_can WRITE_ONLY W_GYRO_C2_ID "MOSI_GYRO_C2" 8 None 1 CAN_Filter_FIFO1;
  mk_can WRITE_ONLY W_ENC1_C1_ID "MOSI_ENC1_C1" 8 None 1 CAN_Filter_FIFO0;
  mk_can WRITE_ONLY W_ENC1_C2_ID "MOSI_ENC1_C2" 8 None 1 CAN_Filter_FIFO1;
  mk_can WRITE_ONLY W_ENC1_RAD_ID "MOSI_ENC1_RAD" 8 None 1 CAN_Filter_FIFO0;
  mk_can WRITE_ONLY W_ENC1_ANG_ID "MOSI_ENC1_ANG" 8 None 1 CAN_Filter_FIFO1;
  mk_can WRITE_ONLY W_ENC2_C1_ID "MOSI_ENC2_C1" 8 None 1 CAN_Filter_FIFO0;
  mk_can WRITE_ONLY W_ENC2_C2_ID "MOSI_ENC2_C2" 8 None 1 CAN_Filter_FIFO1;
  mk_can WRITE_ONLY W_ENC2_RAD_ID "MOSI_ENC2_RAD" 8 None 1 CAN_Filter_FIFO0;
  mk_can WRITE_ONLY W_ENC2_ANG_ID "MOSI_ENC2_ANG" 8 None 1 CAN_Filter_FIFO1;
  mk_can READ_ONLY G_M_CMD_ID "MISO_CMD" 1 (Some G_M_CMD_fn) 1 CAN_Filter_FIFO0;
  mk_can READ_ONLY S_GPS_X_ID "MISO_GPS_X" 8 (Some S_GPS_X_fn) 1 CAN_Filter_FIFO1;
  mk_can READ_ONLY S_GPS_Y_ID "MISO_GPS_Y" 8 (Some S_GPS_Y_fn) 1 CAN_Filter_FIFO0;
  mk_can READ_ONLY S_GPS_ANG_ID "MISO_GPS_ANG" 8 (Some S_GPS_ANG_fn) 1 CAN_Filter_FIFO1;
  mk_can READ_ONLY S_GYRO_C1_ID "MISO_GYRO_C1" 8 (Some S_GYRO_C1_fn) 1 CAN_Filter_FIFO0;
  mk_can READ_ONLY S_GYRO_C2_ID "MISO_GYRO_C2" 8 (Some S_GYRO_C2_fn) 1 CAN_Filter_FIFO1;
  mk_can READ_ONLY S_GYRO_RAD_ID "MISO_GYRO_RAD" 8 (Some S_GYRO_RAD_fn) 1 CAN_Filter_FIFO0;
  mk_can READ_ONLY S_ENC1_C1_ID "MISO_ENC1_C1" 8 (Some S_ENC1_C1_fn) 1 CAN_Filter_FIFO1;
  mk_can READ_ONLY S_ENC1_C2_ID "MISO_ENC1_C2" 8 (Some S_ENC1_C2_fn) 1 CAN_Filter_FIFO0;
  mk_can READ_ONLY S_ENC1_RAD_ID "MISO_ENC1_RAD" 8 (Some S_ENC1_RAD_fn) 1 CAN_Filter_FIFO1;
  mk_can READ_ONLY S_ENC1_ANG_ID "MISO_ENC1_ANG" 8 (Some S_ENC1_ANG_fn) 1 CAN_Filter_FIFO0;
  mk_can READ_ONLY S_ENC1_DIS_ID "MISO_ENC1_DIS" 8 (Some S_ENC1_DIS_fn) 1 CAN_Filter_FIFO1;
  mk_can READ_ONLY S_ENC2_C1_ID "MISO_ENC2_C1" 8 (Some S_ENC2_C1_fn) 1 CAN_Filter_FIFO0;
  mk_can READ_ONLY S_ENC2_C2_ID "MISO_ENC2_C2" 8 (Some S_ENC2_C2_fn) 1 CAN_Filter_FIFO1;
  mk_can READ_ONLY S_ENC2_RAD_ID "MISO_ENC2_RAD" 8 (Some S_ENC2_RAD_fn) 1 CAN_Filter_FIFO0;
  mk_can READ_ONLY S_ENC2_ANG_ID "MISO_ENC2_ANG" 8 (Some S_ENC2_ANG_fn) 1 CAN_Filter_FIFO1;
  mk_can READ_ONLY S_ENC2_DIS_ID "MISO_ENC2_DIS" 8 (Some S_ENC2_DIS_fn) 1 CAN_Filter_FIFO0;
  mk_can WRITE_ONLY W_PWM_ID "MOSI_PWM" 8 None 1 CAN_Filter_FIFO0;
  mk_can WRITE_ONLY W_STEPPER_ID "MOSI_stepper" 8 None 1 CAN_Filter_FIFO1;
  mk_can WRITE_ONLY W_FLAG_SET_ID "FLAG_SET" 2 None 2 CAN_Filter_FIFO0;
  mk_can READ_ONLY R_FLAG_SET_ID "FLAG_SET1" 2 (Some R_FLAG_SET_fn) 2 CAN_Filter_FIFO0;
  mk_can READ_ONLY S_SWITCH_ID "MISO_SWITCH" 2 (Some S_SWITCH_fn) 2 CAN_Filter_FIFO1;
  mk_can READ_ONLY W_RELAY1_ID "MOSI_RELAY1_DATA" 1 None 2 CAN_Filter_FIFO0;
  mk_can READ_ONLY W_RELAY2_ID "MOSI_RELAY2_DATA" 1 None 2 CAN_Filter_FIFO1;
  mk_can WRITE_ONLY W_SONIC1_ID "MOSI_SONIC1_CMD" 1 None 2 CAN_Filter_FIFO0;
  mk_can READ_ONLY S_SONIC1_ID "MISO_SONIC1_DAT" 3 (Some S_SONIC1_fn) 2 CAN_Filter_FIFO1;
  mk_can WRITE_ONLY W_SONIC2_ID "MOSI_SONIC2_CMD" 1 None 2 CAN_Filter_FIFO1;
  mk_can READ_ONLY S_SONIC2_ID "MISO_SONIC2_DAT" 3 (Some S_SONIC2_fn) 2 CAN_Filter_FIFO0;
  mk_can WRITE_ONLY W_MOTOR1_SPEED_ID "MOSI_MOTOR1_SPEED" 4 None 2 CAN_Filter_FIFO1;
  mk_can WRITE_ONLY W_MOTOR1_ANGLE_ID "MOSI_MOTOR1_ANGLE" 4 None 2 CAN_Filter_FIFO0;
  mk_can WRITE_ONLY W_MOTOR2_SPEED_ID "MOSI_MOTOR2_SPEED" 4 None 2 CAN_Filter_FIFO1;
  mk_can WRITE_ONLY W_MOTOR2_ANGLE_ID "MOSI_MOTOR2_ANGLE" 4 None 2 CAN_Filter_FIFO0;
  mk_can WRITE_ONLY W_MOTOR3_SPEED_ID "MOSI_MOTOR3_SPEED" 4 None 2 CAN_Filter_FIFO1;
  mk_can WRITE_ONLY W_MOTOR3_ANGLE_ID "MOSI_MOTOR3_ANGLE" 4 None 2 CAN_Filter_FIFO0;
  mk_can WRITE_ONLY W_MOTOR4_SPEED_ID "MOSI_MOTOR4_SPEED" 4 None 2 CAN_Filter_FIFO1;
  mk_can WRITE_ONLY W_MOTOR4_ANGLE_ID "MOSI_MOTOR4_ANGLE" 4 None 2 CAN_Filter_FIFO0;
  mk_can WRITE_ONLY W_MOTOR5_SPEED_ID "MOSI_MOTOR5_SPEED" 4 None 2 CAN_Filter_FIFO1;
  mk_can WRITE_ONLY W_MOTOR5_ANGLE_ID "MOSI_MOTOR5_ANGLE" 4 None 2 CAN_Filter_FIFO0;
  mk_can WRITE_ONLY W_MOTOR6_SPEED_ID "MOSI_MOTOR6_SPEED" 4 None 2 CAN_Filter_FIFO1;
  mk_can WRITE_ONLY W_MOTOR6_ANGLE_ID "MOSI_MOTOR6_ANGLE" 4 None 2 CAN_Filter_FIFO0;
  mk_can WRITE_ONLY W_MOTOR7_SPEED_ID "MOSI_MOTOR7_SPEED" 4 None 2 CAN_Filter_FIFO1;
  mk_can WRITE_ONLY W_MOTOR7_ANGLE_ID "MOSI_MOTOR7_ANGLE" 4 None 2 CAN_Filter_FIFO0;
  mk_can WRITE_ONLY W_MOTOR8_SPEED_ID "MOSI_MOTOR8_SPEED" 4 None 2 CAN_Filter_FIFO1;
  mk_can WRITE_ONLY W_MOTOR8_ANGLE_ID "MOSI_MOTOR8_ANGLE" 4 None 2 CAN_Filter_FIFO0;
  mk_can WRITE_ONLY W_MOTOR9_SPEED_ID "MOSI_MOTOR9_SPEED" 4 None 2 CAN_Filter_FIFO1;
  mk_can WRITE_ONLY W_MOTOR9_ANGLE_ID "MOSI_MOTOR9_ANGLE" 4 None 2 CAN_Filter_FIFO0;
  mk_can WRITE_ONLY W_MOTOR1_OLD_ID "MOSI_MOTOR1_OLD" 8 None 2 CAN_Filter_FIFO1;
  mk_can WRITE_ONLY W_MOTOR2_OLD_ID "MOSI_MOTOR2_OLD" 8 None 2 CAN_Filter_FIFO0;
  mk_can WRITE_ONLY W_MOTOR3_OLD_ID "MOSI_MOTOR3_OLD" 8 None 2 CAN_Filter_FIFO1;
  mk_can WRITE_ONLY W_MOTOR4_OLD_ID "MOSI_MOTOR4_OLD" 8 None 2 CAN_Filter_FIFO0;
  mk_can WRITE_ONLY W_MOTOR5_OLD_ID "MOSI_MOTOR5_OLD" 8 None 2 CAN_Filter_FIFO1;
  mk_can WRITE_ONLY W_MOTOR6_OLD_ID "MOSI_MOTOR6_OLD" 8 None 2 CAN_Filter_FIFO0;
  mk_can WRITE_ONLY W_MOTOR7_OLD_ID "MOSI_MOTOR7_OLD" 8 None 2 CAN_Filter_FIFO1;
  mk_can WRITE_ONLY W_MOTOR8_OLD_ID "MOSI_MOTOR8_OLD" 8 None 2 CAN_Filter_FIFO0;
  mk_can READ_ONLY S_MOTOR1_ENC_ID "MISO_M1_ENC" 7 (Some S_MOTOR1_ENC_fn) 2 CAN_Filter_FIFO1;
  mk_can READ_ONLY S_MOTOR2_ENC_ID "MISO_M2_ENC" 7 (Some S_MOTOR2_ENC_fn) 2 CAN_Filter_FIFO0;
  mk_can READ_ONLY S_MOTOR3_ENC_ID "MISO_M3_ENC" 7 (Some S_MOTOR3_ENC_fn) 1 CAN_Filter_FIFO1;
  mk_can READ_ONLY S_MOTOR4_ENC_ID "MISO_M4_ENC" 7 (Some S_MOTOR4_ENC_fn) 2 CAN_Filter_FIFO0;
  mk_can READ_ONLY S_MOTOR5_ENC_ID "MISO_M5_ENC" 7 (Some S_MOTOR5_ENC_fn) 2 CAN_Filter_FIFO1;
  mk_can READ_ONLY S_MOTOR6_ENC_ID "MISO_M6_ENC" 7 (Some S_MOTOR6_ENC_fn) 2 CAN_Filter_FIFO0;
  mk_can READ_ONLY S_MOTOR7_ENC_ID "MISO_M7_ENC" 7 (Some S_MOTOR7_ENC_fn) 2 CAN_Filter_FIFO1;
  mk_can READ_ONLY S_MOTOR8_ENC_ID "MISO_M8_ENC" 7 (Some S_MOTOR8_ENC_fn) 2 CAN_Filter_FIFO0;
  mk_can READ_ONLY S_CAMERA1_ID "camera_data1" CAMERA_LENGTH (Some S_CAMERA1_fn) 1 CAN_Filter_FIFO1;
  mk_can READ_ONLY S_CAMERA2_ID "camera_data2" CAMERA_LENGTH (Some S_CAMERA2_fn) 1 CAN_Filter_FIFO0;
  mk_can READ_ONLY S_CAMERA3_ID "camera_data3" CAMERA_LENGTH (Some S_CAMERA3_fn) 1 CAN_Filter_FIFO1;
  mk_can READ_ONLY S_CAMERA4_ID "camera_data4" CAMERA_LENGTH (Some S_CAMERA4_fn) 2 CAN_Filter_FIFO0;
  mk_can READ_ONLY S_CAMERA5_ID "camera_data5" 8 (Some S_CAMERA5_fn) 2 CAN_Filter_FIFO1;
  mk_can WRITE_ONLY W_CAMERA1_ID "MOSI_CAMERA1" 8 None 1 CAN_Filter_FIFO0;
  mk_can WRITE_ONLY W_CAMERA2_ID "MOSI_CAMERA2" 8 None 1 CAN_Filter_FIFO1;
  mk_can WRITE_ONLY W_CAMERA3_ID "MOSI_CAMERA3" 8 None 1 CAN_Filter_FIFO0;
  mk_can WRITE_ONLY W_CAMERA4_ID "MOSI_CAMERA4" 8 None 2 CAN_Filter_FIFO1;
  mk_can WRITE_ONLY W_CAMERA5_ID "MOSI_CAMERA5" 8 None 2 CAN_Filter_FIFO0;
  mk_can READ_ONLY S_CAM1_TRANS "MISO_CAM1_TRANS" 8 (Some S_CAM1_TRANS_fn) 1 CAN_Filter_FIFO0;
  mk_can READ_ONLY S_CAM2_TRANS "MISO_CAM2_TRANS" 8 (Some S_CAM2_TRANS_fn) 1 CAN_Filter_FIFO1;
  mk_can READ_ONLY S_CAM3_TRANS "MISO_CAM3_TRANS" 8 (Some S_CAM3_TRANS_fn) 1 CAN_Filter_FIFO0;
  mk_can READ_ONLY S_CAM4_TRANS "MISO_CAM4_TRANS" 8 (Some S_CAM4_TRANS_fn) 2 CAN_Filter_FIFO1;
  mk_can READ_ONLY S_CAM5_TRANS "MISO_CAM5_TRANS" 8 (Some S_CAM5_TRANS_fn) 2 CAN_Filter_FIFO0].
(** * State *)

Record CanTxMsg : Type := mk_tx { StdId : Z; DLC : Z; Data : list Z }.

(** What the application asks of the hardware and of the kernel, newest first. *)
Inductive io_event : Type :=
| Transmit (canx : Z) (msg : CanTxMsg)
| Delay (ms : Z)
| SendTimeout (msg : CanTxMsg).

Record io : Type := mk_io {
  globals : gmap string (list Z);
  log : list io_event }.

Definition set_globals (g : gmap string (list Z)) (s : io) : io := mk_io g (log s).
Definition emit (e : io_event) : M io unit := modify (fun s => mk_io (globals s) (e :: log s)).

Definition load (x : string) (i : Z) : M io Z :=
  let! s := get in
  let! a := of_option BadPointer (globals s !! x) in
  if 0 <=? i then of_option BadPointer (a !! Z.to_nat i) else fail BadPointer.

Definition store (x : string) (i v : Z) : M io unit :=
  let! _ := load x i in
  modify (fun s => set_globals (alter (fun a => <[Z.to_nat i := v]> a) x (globals s)) s).

(** The arrays of can_database.c with their lengths, and the camera buffers. *)
Definition can_variables : list (string * Z) := [
  ("MOSI_CMD", 1); ("MISO_CMD", 1); ("MOSI_GPS_X", 8); ("MOSI_GPS_Y", 8); ("MOSI_GPS_ANG", 8);
  ("MOSI_GYRO_C1", 8); ("MOSI_GYRO_C2", 8); ("MOSI_ENC1_C1", 8); ("MOSI_ENC1_C2", 8);
  ("MOSI_ENC1_RAD", 8); ("MOSI_ENC1_ANG", 8); ("MOSI_ENC2_C1", 8); ("MOSI_ENC2_C2", 8);
  ("MOSI_ENC2_RAD", 8); ("MOSI_ENC2_ANG", 8); ("MISO_GPS_X", 8); ("MISO_GPS_Y", 8); ("MISO_GPS_ANG", 8); ("MISO_GYRO_C1", 8); ("MISO_GYRO_C2", 8); ("MISO_GYRO_RAD", 8); ("MISO_ENC1_C1", 8);
  ("MISO_ENC1_C2", 8); ("MISO_ENC1_RAD", 8); ("MISO_ENC1_ANG", 8); ("MISO_ENC1_DIS", 8);
  ("MISO_ENC2_C1", 8); ("MISO_ENC2_C2", 8); ("MISO_ENC2_RAD", 8); ("MISO_ENC2_ANG", 8);
  ("MISO_ENC2_DIS", 8); ("MOSI_MOTOR1_SPEED", 4); ("MOSI_MOTOR1_ANGLE", 4); ("MOSI_MOTOR2_SPEED", 4); ("MOSI_MOTOR2_ANGLE", 4); ("MOSI_MOTOR3_SPEED", 4); ("MOSI_MOTOR3_ANGLE", 4);
  ("MOSI_MOTOR4_SPEED", 4); ("MOSI_MOTOR4_ANGLE", 4); ("MOSI_MOTOR5_SPEED", 4);
  ("MOSI_MOTOR5_ANGLE", 4); ("MOSI_MOTOR6_SPEED", 4); ("MOSI_MOTOR6_ANGLE", 4);
  ("MOSI_MOTOR7_SPEED", 4); ("MOSI_MOTOR7_ANGLE", 4); ("MOSI_MOTOR8_SPEED", 4);
  ("MOSI_MOTOR8_ANGLE", 4); ("MOSI_MOTOR9_SPEED", 4); ("MOSI_MOTOR9_ANGLE", 4); ("MOSI_stepper", 8);
  ("MOSI_MOTOR1_OLD", 8); ("MOSI_MOTOR2_OLD", 8); ("MOSI_MOTOR3_OLD", 8); ("MOSI_MOTOR4_OLD", 8);
  ("MOSI_MOTOR5_OLD", 8); ("MOSI_MOTOR6_OLD", 8); ("MOSI_MOTOR7_OLD", 8); ("MOSI_MOTOR8_OLD", 8);
  ("MISO_M1_ENC", 7); ("MISO_M2_ENC", 7); ("MISO_M3_ENC", 7); ("MISO_M4_ENC", 7); ("MISO_M5_ENC", 7); ("MISO_M6_ENC", 7); ("MISO_M7_ENC", 7); ("MISO_M8_ENC", 7); ("MISO_SWITCH", 2); ("FLAG_SET", 2); ("FLAG_SET1", 2); ("MOSI_PWM", 8); ("MOSI_CAMERA1", 8); ("MOSI_CAMERA2", 8); ("MOSI_CAMERA3", 8); ("MOSI_CAMERA4", 8); ("MOSI_CAMERA5", 8); ("MISO_CAM1_TRANS", 8); ("MISO_CAM2_TRANS", 8);
  ("MISO_CAM3_TRANS", 8); ("MISO_CAM4_TRANS", 8); ("MISO_CAM5_TRANS", 8); ("MOSI_RELAY1_DATA", 1);
  ("MOSI_RELAY2_DATA", 1); ("MOSI_SONIC1_CMD", 1); ("MISO_SONIC1_DAT", 3); ("MOSI_SONIC2_CMD", 1);
  ("MISO_SONIC2_DAT", 3);
  ("camera_data1", 12); ("camera_data2", 12); ("camera_data3", 12); ("camera_data4", 12);
  ("camera_data5", 12)].


(** * Operations *)

(** Can_Database[i] *)
Definition db_entry (i : Z) : M io Can_Data :=
  if 0 <=? i then of_option BadPointer (Can_Database !! Z.to_nat i) else fail BadPointer.

(** Hash_Table_init *)
Definition Hash_Table_init : M io unit :=
  store "Can_Data_Num" 0 (u8 (Z.of_nat (length Can_Database))) ;!
  for_range 256 0 (fun i => store "HASH_TABLE" i 255) ;!
  let! num := load "Can_Data_Num" 0 in
  for_range (Z.to_nat num) 0 (fun i =>
    let! e := db_entry i in
    store "HASH_TABLE" (Data_ID e) (u8 i)).

(** [n] elements of the array [x] from the index [i] on *)
Fixpoint load_range (x : string) (n : nat) (i : Z) : M io (list Z) :=
  match n with
  | O => ret []
  | S n => let! v := load x i in let! vs := load_range x n (i + 1) in ret (v :: vs)
  end.

Fixpoint store_range (x : string) (i : Z) (vs : list Z) : M io unit :=
  match vs with
  | [] => ret tt
  | v :: vs => store x i v ;! store_range x (i + 1) vs
  end.

Section bus.
Context (can_busy : list io_event -> Z -> bool).

(** The loop of _can_senddata; [tries] is 6 - wait_time. *)
Fixpoint can_retry (tries : nat) (canx : Z) (tx : CanTxMsg) : M io Z :=
  let! s := get in
  if can_busy (log s) canx then
    match tries with
    | O => ret 6
    | S tries => emit (Delay 5) ;! can_retry tries canx tx
    end
  else emit (Transmit canx tx) ;! ret (6 - Z.of_nat tries).

(** _can_senddata *)
Definition _can_senddata (canx : Z) (tx : CanTxMsg) : M io unit :=
  let! wait_time := can_retry 6 canx tx in
  if wait_time >=? 6 then emit (SendTimeout tx) else ret tt.

(** Can_SendData *)
Definition Can_SendData (TxM : CanTxMsg) (Can_Channel : Z) : M io unit :=
  (if Can_Channel =? 1 then _can_senddata 1 TxM else ret tt) ;!
  (if Can_Channel =? 2 then _can_senddata 2 TxM else ret tt).

(** Write_Database *)
Definition Write_Database (ID_NUM : Z) : M io unit :=
  let! h := load "HASH_TABLE" ID_NUM in
  let! num := load "Can_Data_Num" 0 in
  let! refused := (if h >=? num then
                     let! e := db_entry h in ret (negb (Data_type e =? WRITE_ONLY))
                   else ret false) in
  if refused : bool then ret tt
  else
    let! e := db_entry h in
    let! data := load_range (Data_ptr e) (Z.to_nat (Data_length e)) 0 in
    Can_SendData (mk_tx (Data_ID e) (Data_length e) data) (Channel e).

End bus.

(** * Arrays *)

Section arrays.
Implicit Types (s : io) (x : string) (a : list Z).

Definition has s x a : Prop := globals s !! x = Some a.

Definition put_array x a s : io := set_globals (<[x := a]> (globals s)) s.

Lemma load_eq s x a i v : has s x a -> 0 <= i -> a !! Z.to_nat i = Some v -> load x i s = Ret v s.
Proof.
  intros Ha Hi Hv. unfold load, bind, get, of_option. unfold has in Ha. rewrite Ha.
  by rewrite (proj2 (Z.leb_le 0 i) Hi), Hv.
Qed.

Lemma wp_load s x a i v (Phi : Z -> io -> Prop) :
  has s x a -> 0 <= i -> a !! Z.to_nat i = Some v -> Phi v s -> wp (load x i) Phi s.
Proof.
  intros Ha Hi Hv HP. eapply wp_intro; [by eapply load_eq|done].
Qed.

Lemma wp_store s x a i v (Phi : unit -> io -> Prop) :
  has s x a -> 0 <= i < Z.of_nat (length a) -> Phi tt (put_array x (<[Z.to_nat i := v]> a) s) ->
  wp (store x i v) Phi s.
Proof.
  intros Ha Hi HP. unfold store. wp_step.
  destruct (lookup_lt_is_Some_2 a (Z.to_nat i)) as [w Hw]; [lia|].
  eapply wp_load; [done|lia|exact Hw|]. wp_pure. unfold put_array in HP.
  replace (alter _ x (globals s)) with (<[x := <[Z.to_nat i := v]> a]> (globals s)); [done|].
  apply map_eq. intros y. destruct (decide (x = y)) as [->|Hne].
  - rewrite lookup_insert_eq, lookup_alter_eq. unfold has in Ha. by rewrite Ha.
  - by rewrite lookup_insert_ne, lookup_alter_ne by done.
Qed.

Lemma has_put s x a y b : has (put_array x a s) y b <-> (x = y /\ a = b \/ x <> y /\ has s y b).
Proof.
  unfold has, put_array. simpl. destruct (decide (x = y)) as [->|Hne].
  - rewrite lookup_insert_eq. naive_solver.
  - rewrite lookup_insert_ne by done. naive_solver.
Qed.

Lemma put_put s x a b : put_array x b (put_array x a s) = put_array x b s.
Proof. unfold put_array, set_globals. simpl. by rewrite insert_insert_eq. Qed.

Lemma load_range_spec s x a n : forall i, has s x a -> 0 <= i -> (Z.to_nat i + n <= length a)%nat ->
  wp (load_range x n i) (fun vs s' => s' = s /\ vs = take n (drop (Z.to_nat i) a)) s.
Proof.
  induction n as [|n IH]; intros i Ha Hi Hn; simpl.
  - by wp_pure.
  - destruct (lookup_lt_is_Some_2 a (Z.to_nat i)) as [v Hv]; [lia|]. wp_step.
    eapply wp_load; [done|done|exact Hv|]. wp_use (IH (i + 1)); [done|lia|lia|].
    intros vs s' [-> ->]. wp_pure. split; [done|].
    rewrite (drop_S a v (Z.to_nat i)) by done. by replace (Z.to_nat (i + 1)) with (S (Z.to_nat i)) by lia.
Qed.
End arrays.

(** * The hash table *)

(** HASH_TABLE after [n] rounds of the second loop of Hash_Table_init *)
Fixpoint hash_upto (n : nat) : list Z :=
  match n with
  | O => replicate 256 255
  | S n => match Can_Database !! n with
           | Some e => <[Z.to_nat (Data_ID e) := Z.of_nat n]> (hash_upto n)
           | None => hash_upto n
           end
  end.

Definition hash_table : list Z := hash_upto (length Can_Database).

(** The index of the entry of an identifier, 255 when there is none. *)
Definition index_of (id : Z) : Z :=
  match list_find (fun e => Data_ID e = id) Can_Database with
  | Some (i, _) => Z.of_nat i
  | None => 255
  end.

Lemma hash_table_index id : 0 <= id < 256 -> hash_table !! Z.to_nat id = Some (index_of id).
Proof.
  intros Hid.
  assert (forallb (fun i => bool_decide (hash_table !! i = Some (index_of (Z.of_nat i)))) (seq 0 256) = true)
    as H by (vm_compute; reflexivity).
  rewrite forallb_forall in H. specialize (H (Z.to_nat id)). rewrite in_seq, bool_decide_eq_true, Z2Nat.id in H by lia.
  apply H. lia.
Qed.

Lemma hash_upto_length n : length (hash_upto n) = 256%nat.
Proof. induction n as [|n IH]; [done|]. simpl. destruct (_ !! n); [|done]. by rewrite length_insert. Qed.

Lemma db_ids e : e ∈ Can_Database -> 0 <= Data_ID e < 256.
Proof.
  intros He. assert (forallb (fun e => (0 <=? Data_ID e) && (Data_ID e <? 256)) Can_Database = true) as H
    by (vm_compute; reflexivity).
  rewrite forallb_forall in H. specialize (H e). rewrite <- list_elem_of_In in H. specialize (H He). lia.
Qed.

Lemma wp_db_entry (i : Z) e (Phi : Can_Data -> io -> Prop) s :
  0 <= i -> Can_Database !! Z.to_nat i = Some e -> Phi e s -> wp (db_entry i) Phi s.
Proof. intros Hi He HP. unfold db_entry. rewrite (proj2 (Z.leb_le 0 i) Hi). by eapply wp_of_option. Qed.

Definition hash_ready (s : io) : Prop :=
  has s "HASH_TABLE" hash_table /\ has s "Can_Data_Num" [Z.of_nat (length Can_Database)].

Definition db_num : Z := Z.of_nat (length Can_Database).

(** A loop that sets every element of an array *)
Lemma fill_spec s x v a n : has s x a -> length a = n ->
  wp (for_range n 0 (fun i => store x i v)) (fun _ s' => s' = put_array x (replicate n v) s) s.
Proof.
  intros Ha Hl.
  set (I := fun (i : Z) (s' : io) => has s' x (replicate (Z.to_nat i) v ++ drop (Z.to_nat i) a) /\
    s' = put_array x (replicate (Z.to_nat i) v ++ drop (Z.to_nat i) a) s).
  eapply wp_mono; [apply (wp_for_range I)|].
  - split; [done|]. unfold put_array. simpl. rewrite drop_0, insert_id by done. by destruct s.
  - intros j s' Hj [Hh ->]. eapply wp_store; [exact Hh| |].
    + rewrite length_app, length_replicate, length_drop. lia.
    + rewrite put_put. replace (<[_ := _]> _) with (replicate (Z.to_nat (j + 1)) v ++ drop (Z.to_nat (j + 1)) a).
      * split; [apply has_put; by left|done].
      * destruct (lookup_lt_is_Some_2 a (Z.to_nat j)) as [w Hw]; [lia|].
        rewrite (drop_S a w (Z.to_nat j)) by done. rewrite insert_app_r_alt by (rewrite length_replicate; lia).
        rewrite length_replicate, Nat.sub_diag. simpl.
        replace (Z.to_nat (j + 1)) with (S (Z.to_nat j)) by lia.
        rewrite replicate_S_end, <- app_assoc. done.
  - intros _ s' [_ ->]. rewrite Z.add_0_l, Nat2Z.id, (drop_ge a n), app_nil_r by (by rewrite Hl). done.
Qed.

Lemma Hash_Table_init_spec s a n :
  has s "HASH_TABLE" a -> length a = 256%nat -> has s "Can_Data_Num" [n] ->
  wp Hash_Table_init (fun _ s' =>
    s' = put_array "HASH_TABLE" hash_table (put_array "Can_Data_Num" [db_num] s)) s.
Proof.
  intros Ha Hl Hn. unfold Hash_Table_init. wp_step. eapply wp_store; [exact Hn|simpl; lia|].
  simpl. set (s1 := put_array "Can_Data_Num" _ s).
  assert (s1 = put_array "Can_Data_Num" [db_num] s) as -> by done.
  wp_step. eapply wp_mono; [eapply (fill_spec _ "HASH_TABLE" 255 a 256); [|exact Hl]; apply has_put; by right|]. cbv beta.
  intros _ s' ->. set (s2 := put_array "Can_Data_Num" [db_num] s). wp_step.
  eapply wp_load; [apply has_put; right; split; [done|]; apply has_put; by left|lia|done|].
  set (I := fun (i : Z) (s' : io) => s' = put_array "HASH_TABLE" (hash_upto (Z.to_nat i)) s2).
  eapply wp_mono; [apply (wp_for_range I)|]; [done| |intros _ s' ->; done].
  intros j s' Hj ->. destruct (lookup_lt_is_Some_2 Can_Database (Z.to_nat j)) as [e He].
  { unfold db_num in Hj. lia. }
  wp_step. eapply wp_db_entry; [lia|exact He|].
  pose proof (db_ids e (list_elem_of_lookup_2 _ _ _ He)) as Hid.
  eapply wp_store; [apply has_put; by left|rewrite hash_upto_length; lia|]. unfold I. rewrite put_put.
  replace (Z.to_nat (j + 1)) with (S (Z.to_nat j)) by lia. simpl. rewrite He.
  rewrite u8_small, Z2Nat.id by (unfold db_num in Hj; simpl in Hj; lia). done.
Qed.

Lemma db_index i e : Can_Database !! i = Some e -> hash_table !! Z.to_nat (Data_ID e) = Some (Z.of_nat i).
Proof.
  intros He. pose proof (db_ids e (list_elem_of_lookup_2 _ _ _ He)) as Hid.
  rewrite hash_table_index by done.
  assert (forallb (fun i => match Can_Database !! i with Some e => index_of (Data_ID e) =? Z.of_nat i | None => true end)
            (seq 0 (length Can_Database)) = true) as H by (vm_compute; reflexivity).
  rewrite forallb_forall in H. specialize (H i). rewrite He, in_seq in H. f_equal. apply Z.eqb_eq, H.
  apply lookup_lt_Some in He. lia.
Qed.

(** ** What the table promises *)

(** The index of an entry is found at its identifier, because no two entries share
    one; every other identifier maps to 255, which is no index. *)
Theorem Hash_Table_init_index s a n :
  has s "HASH_TABLE" a -> length a = 256%nat -> has s "Can_Data_Num" [n] ->
  wp Hash_Table_init (fun _ s' => exists h, has s' "HASH_TABLE" h /\ hash_ready s' /\
    (forall i e, Can_Database !! i = Some e -> h !! Z.to_nat (Data_ID e) = Some (Z.of_nat i)) /\
    (forall id, 0 <= id < 256 -> (forall e, e ∈ Can_Database -> Data_ID e <> id) ->
       h !! Z.to_nat id = Some 255) /\
    (forall x, x <> "HASH_TABLE"%string -> x <> "Can_Data_Num"%string -> globals s' !! x = globals s !! x)) s.
Proof.
  intros Ha Hl Hn. eapply wp_mono; [by apply (Hash_Table_init_spec s a n)|]. cbv beta. intros _ s' ->.
  exists hash_table. split_and!.
  - apply has_put. by left.
  - split; apply has_put; [by left|right; split; [done|]; apply has_put; by left].
  - apply db_index.
  - intros id Hid Hnone. rewrite hash_table_index by done. unfold index_of.
    destruct (list_find _ _) as [[i e]|] eqn:E; [|done].
    apply list_find_Some in E as (He & Hd & _). by apply list_elem_of_lookup_2, Hnone in He.
  - intros x H1 H2. unfold put_array. simpl. by rewrite !lookup_insert_ne by done.
Qed.

(** * Sending *)

Section sending.
Context (can_busy : list io_event -> Z -> bool).

(** The log after [k] waits of 5 ms *)
Definition waited (k : nat) (l : list io_event) : list io_event := replicate k (Delay 5) ++ l.

(** [tx] is handed to the controller at the first of seven attempts at which it
    has a free mailbox, and lost when there is none; a timeout is reported when the
    first six attempts have failed. *)
Definition sent_frame (canx : Z) (tx : CanTxMsg) (l l' : list io_event) : Prop :=
  exists k, (k <= 6)%nat /\ (forall j, (j < k)%nat -> can_busy (waited j l) canx = true) /\
    let reports := if decide (k = 6%nat) then [SendTimeout tx] else [] in
    (can_busy (waited k l) canx = false /\ l' = reports ++ Transmit canx tx :: waited k l \/
     k = 6%nat /\ can_busy (waited k l) canx = true /\ l' = reports ++ waited k l).

Lemma can_retry_spec canx tx n : forall m s l, (m + n = 6)%nat -> log s = waited m l ->
  (forall j, (j < m)%nat -> can_busy (waited j l) canx = true) ->
  wp (can_retry can_busy n canx tx) (fun w s' => globals s' = globals s /\ exists k, (k <= 6)%nat /\
    w = Z.of_nat k /\ (forall j, (j < k)%nat -> can_busy (waited j l) canx = true) /\
    (can_busy (waited k l) canx = false /\ log s' = Transmit canx tx :: waited k l \/
     k = 6%nat /\ can_busy (waited k l) canx = true /\ log s' = waited k l)) s.
Proof.
  induction n as [|n IH]; intros m s l Hm Hl Hb; simpl; wp_pure; rewrite Hl;
    destruct (can_busy (waited m l) canx) eqn:E; unfold emit; wp_pure.
  - split; [done|]. exists m. split_and!; [lia|lia|done|]. right. split_and!; [lia|done|done].
  - split; [done|]. exists m. split_and!; [lia|lia|done|]. left. split; [done|]. by rewrite Hl.
  - wp_use (IH (S m) _ l); [lia|by rewrite Hl| |done].
    intros j Hj. destruct (decide (j = m)) as [->|]; [done|]. apply Hb. lia.
  - split; [done|]. exists m. split_and!; [lia|lia|done|]. left. split; [done|]. by rewrite Hl.
Qed.

Lemma _can_senddata_spec canx tx s :
  wp (_can_senddata can_busy canx tx) (fun _ s' => globals s' = globals s /\ sent_frame canx tx (log s) (log s')) s.
Proof.
  unfold _can_senddata. wp_use (can_retry_spec canx tx 6 0 s (log s)); [done|done|intros j Hj; lia|].
  intros w s' (Hg & k & Hk & -> & Hb & Hend). unfold emit.
  destruct (decide (k = 6%nat)) as [->|Hne]; [|assert (Z.of_nat k >=? 6 = false) as -> by lia]; wp_pure.
  - split; [done|]. exists 6%nat. simpl. split_and!; [done|done|].
    destruct Hend as [[? E]|(? & ? & E)]; rewrite E; [by left|by right].
  - split; [done|]. exists k. rewrite decide_False by done. destruct Hend as [[? E]|(-> & ? & E)]; [|done].
    split_and!; [done|done|]. by left.
Qed.

(** The frame of an entry whose array holds [a] *)
Definition frame_of (e : Can_Data) (a : list Z) : CanTxMsg :=
  mk_tx (Data_ID e) (Data_length e) (take (Z.to_nat (Data_length e)) a).

Lemma db_channel e : e ∈ Can_Database -> Channel e = 1 \/ Channel e = 2.
Proof.
  intros He. assert (forallb (fun e => (Channel e =? 1) || (Channel e =? 2)) Can_Database = true) as H
    by (vm_compute; reflexivity).
  rewrite forallb_forall in H. specialize (H e). rewrite <- list_elem_of_In in H. specialize (H He). lia.
Qed.

Lemma Write_Database_frame s i e a :
  hash_ready s -> Can_Database !! i = Some e -> has s (Data_ptr e) a -> Data_length e <= Z.of_nat (length a) ->
  wp (Write_Database can_busy (Data_ID e)) (fun _ s' => globals s' = globals s /\
    sent_frame (Channel e) (frame_of e a) (log s) (log s')) s.
Proof.
  intros [Hh Hn] He Ha Hlen. pose proof (lookup_lt_Some _ _ _ He) as Hi.
  pose proof (list_elem_of_lookup_2 _ _ _ He) as Hin. pose proof (db_ids e Hin) as Hid.
  unfold Write_Database. wp_step. eapply wp_load; [exact Hh|lia|by apply db_index|]. wp_step.
  eapply wp_load; [exact Hn|lia|done|]. assert (Z.of_nat i >=? Z.of_nat (length Can_Database) = false) as -> by lia.
  wp_pure. wp_step. eapply wp_db_entry; [lia|by rewrite Nat2Z.id|].
  wp_use (load_range_spec s (Data_ptr e) a); [done|done|simpl; lia|]. intros vs s' [-> ->].
  unfold Can_SendData. change (drop (Z.to_nat 0) a) with a. change (mk_tx _ _ _) with (frame_of e a).
  destruct (db_channel e Hin) as [E|E]; rewrite E; simpl.
  - wp_use _can_senddata_spec. intros _ s' H. by wp_pure.
  - wp_pure. apply _can_senddata_spec.
Qed.

(** Write_Database sends the data of the entry with the given identifier on its
    channel, for the entries marked READ_ONLY as well, and changes nothing else. *)
Theorem Write_Database_spec s i e a :
  hash_ready s -> Can_Database !! i = Some e -> has s (Data_ptr e) a -> Data_length e <= Z.of_nat (length a) ->
  wp (Write_Database can_busy (Data_ID e)) (fun _ s' => globals s' = globals s /\
    sent_frame (Channel e) (frame_of e a) (log s) (log s')) s.
Proof. apply Write_Database_frame. Qed.

(** The check of the parameters joins its two conditions by && instead of ||: an
    identifier without an entry is not refused, its entry 255 is read. *)
Theorem Write_Database_unknown s id :
  hash_ready s -> 0 <= id < 256 -> (forall e, e ∈ Can_Database -> Data_ID e <> id) ->
  Write_Database can_busy id s = Fail BadPointer.
Proof.
  intros [Hh Hn] Hid Hnone.
  assert (index_of id = 255) as Hi.
  { unfold index_of. destruct (list_find _ _) as [[i e]|] eqn:E; [|done].
    apply list_find_Some in E as (He & Hd & _). by apply list_elem_of_lookup_2, Hnone in He. }
  assert (hash_table !! Z.to_nat id = Some 255) as Hv by (by rewrite hash_table_index, Hi).
  unfold Write_Database, bind. rewrite (load_eq s _ _ _ _ Hh (proj1 Hid) Hv).
  by rewrite (load_eq s _ _ 0 db_num Hn).
Qed.
End sending.
