(* ===== verification/CanFilter.v ===== *)
(** The acceptance filters of the CAN controllers (bsp/stm32f40x/drivers/can.c,
    Can_FILTER_Config): banks of four 16-bit identifiers, one list for each channel
    and receive FIFO.  The counters are int8_t; the four arrays of identifiers have
    56 elements each. *)

From S2P Require Import Prelude CanData.

Open Scope Z_scope.

(** * Configuration *)

(** One call of CAN_FilterInit *)
Record filter : Type := mk_filter {
  FilterNumber : Z;
  FilterIds : list Z;                (* IdHigh, IdLow, MaskIdHigh, MaskIdLow *)
  FilterFIFO : Z }.

Record filter_state : Type := mk_fs {
  temp1 : list Z; temp2 : list Z; temp3 : list Z; temp4 : list Z;
  can1_fifo0_num : Z; can1_fifo1_num : Z; can2_fifo0_num : Z; can2_fifo1_num : Z;
  can1_filter_bank : Z; can2_filter_bank : Z;
  filters : list filter }.           (* CAN_FilterInit calls, newest first *)

Definition put_at (a : list Z) (i v : Z) : M filter_state (list Z) :=
  if (0 <=? i) && (i <? Z.of_nat (length a)) then ret (<[Z.to_nat i := v]> a) else fail BadPointer.
Definition get_at (a : list Z) (i : Z) : M filter_state Z :=
  if 0 <=? i then of_option BadPointer (a !! Z.to_nat i) else fail BadPointer.

(** One array with its counter *)
Definition lane : Type := (filter_state -> list Z * Z) * (list Z -> Z -> filter_state -> filter_state).

Definition lane1 : lane := (fun f => (temp1 f, can1_fifo0_num f), fun t n f =>
  mk_fs t (temp2 f) (temp3 f) (temp4 f) n (can1_fifo1_num f) (can2_fifo0_num f) (can2_fifo1_num f)
    (can1_filter_bank f) (can2_filter_bank f) (filters f)).
Definition lane2 : lane := (fun f => (temp2 f, can1_fifo1_num f), fun t n f =>
  mk_fs (temp1 f) t (temp3 f) (temp4 f) (can1_fifo0_num f) n (can2_fifo0_num f) (can2_fifo1_num f)
    (can1_filter_bank f) (can2_filter_bank f) (filters f)).
Definition lane3 : lane := (fun f => (temp3 f, can2_fifo0_num f), fun t n f =>
  mk_fs (temp1 f) (temp2 f) t (temp4 f) (can1_fifo0_num f) (can1_fifo1_num f) n (can2_fifo1_num f)
    (can1_filter_bank f) (can2_filter_bank f) (filters f)).
Definition lane4 : lane := (fun f => (temp4 f, can2_fifo1_num f), fun t n f =>
  mk_fs (temp1 f) (temp2 f) (temp3 f) t (can1_fifo0_num f) (can1_fifo1_num f) (can2_fifo0_num f) n
    (can1_filter_bank f) (can2_filter_bank f) (filters f)).

(** [temp[num] = Data_ID << 5; num++] *)
Definition collect (l : lane) (id : Z) : M filter_state unit :=
  let! f := get in
  let '(t, n) := l.1 f in
  let! t' := put_at t n (u16 (Z.shiftl (u16 id) 5)) in
  modify (l.2 t' (s8 (n + 1))).

(** The first loop: the READ_ONLY entries, each to the array of its channel and FIFO. *)
Definition collect_entry (e : Can_Data) : M filter_state unit :=
  if Data_type e =? READ_ONLY then
    if Channel e =? 1 then
      if Fifo_num e =? CAN_Filter_FIFO0 then collect lane1 (Data_ID e) else collect lane2 (Data_ID e)
    else if Channel e =? 2 then
      if Fifo_num e =? CAN_Filter_FIFO0 then collect lane3 (Data_ID e) else collect lane4 (Data_ID e)
    else ret tt
  else ret tt.

(** The last identifier is repeated until the last bank is full. *)
Definition pad (l : lane) : M filter_state unit :=
  let! f := get in
  for_range (Z.to_nat (3 - Z.rem (snd (l.1 f) - 1) 4)) 0 (fun i =>
    let! f := get in
    let '(t, n) := l.1 f in
    let! v := get_at t (n - 1) in
    let! t' := put_at t (n + i) v in
    modify (l.2 t' n)).

(** One bank from the elements [4 i .. 4 i + 3]; [bank] is the channel's counter. *)
Definition init_bank (l : lane) (bank : filter_state -> Z) (set_bank : Z -> filter_state -> filter_state)
    (fifo i : Z) : M filter_state unit :=
  let! f := get in
  let number := bank f in
  modify (set_bank (s8 (number + 1))) ;!
  let t := fst (l.1 f) in
  let! a := get_at t (4 * i + 0) in
  let! b := get_at t (4 * i + 1) in
  let! c := get_at t (4 * i + 2) in
  let! d := get_at t (4 * i + 3) in
  modify (fun f => mk_fs (temp1 f) (temp2 f) (temp3 f) (temp4 f) (can1_fifo0_num f) (can1_fifo1_num f)
    (can2_fifo0_num f) (can2_fifo1_num f) (can1_filter_bank f) (can2_filter_bank f)
    (mk_filter number [a; b; c; d] fifo :: filters f)).

Definition set_can1_bank (v : Z) (f : filter_state) : filter_state :=
  mk_fs (temp1 f) (temp2 f) (temp3 f) (temp4 f) (can1_fifo0_num f) (can1_fifo1_num f)
    (can2_fifo0_num f) (can2_fifo1_num f) v (can2_filter_bank f) (filters f).
Definition set_can2_bank (v : Z) (f : filter_state) : filter_state :=
  mk_fs (temp1 f) (temp2 f) (temp3 f) (temp4 f) (can1_fifo0_num f) (can1_fifo1_num f)
    (can2_fifo0_num f) (can2_fifo1_num f) (can1_filter_bank f) v (filters f).

Definition init_banks (l : lane) bank set_bank (fifo : Z) : M filter_state unit :=
  let! f := get in
  let n := snd (l.1 f) in
  if n >? 0 then
    for_range (Z.to_nat (Z.quot (n - 1) 4 + 1)) 0 (init_bank l bank set_bank fifo)
  else ret tt.

(** Can_FILTER_Config *)
Definition Can_FILTER_Config (num : Z) : M filter_state unit :=
  for_range (Z.to_nat num) 0 (fun i =>
    let! e := (if 0 <=? i then of_option BadPointer (Can_Database !! Z.to_nat i) else fail BadPointer) in
    collect_entry e) ;!
  pad lane1 ;! pad lane2 ;! pad lane3 ;! pad lane4 ;!
  init_banks lane1 can1_filter_bank set_can1_bank CAN_Filter_FIFO0 ;!
  init_banks lane2 can1_filter_bank set_can1_bank CAN_Filter_FIFO1 ;!
  init_banks lane3 can2_filter_bank set_can2_bank CAN_Filter_FIFO0 ;!
  init_banks lane4 can2_filter_bank set_can2_bank CAN_Filter_FIFO1.

(** The locals at the start: the banks of CAN2 begin at 15. *)
Definition filter_locals : filter_state :=
  mk_fs (replicate 56 0) (replicate 56 0) (replicate 56 0) (replicate 56 0) 0 0 0 0 0 15 [].

Definition configured_state : filter_state :=
  match Can_FILTER_Config db_num filter_locals with Ret _ f => f | Fail _ => filter_locals end.
Notation configured := (filters configured_state).

Lemma configured_runs : Can_FILTER_Config db_num filter_locals = Ret tt configured_state.
Proof. vm_compute. reflexivity. Qed.

(** * The filters accept what the table says *)

(** The controller of channel [ch] has the banks below 15 for channel 1 and from 15
    to 27 for channel 2; a bank accepts a standard identifier it lists. *)
Definition bank_of (ch : Z) (b : filter) : bool :=
  if ch =? 1 then FilterNumber b <? 15 else (15 <=? FilterNumber b) && (FilterNumber b <? 28).

Definition accepts_frame (ch id : Z) (b : filter) : bool :=
  bank_of ch b && bool_decide (Z.shiftl id 5 ∈ FilterIds b).

(** An entry of the table for frames of [id] from the channel [ch] into the FIFO [fifo] *)
Definition expected (ch fifo id : Z) (e : Can_Data) : bool :=
  (Data_type e =? READ_ONLY) && (Channel e =? ch) && (Fifo_num e =? fifo) && (Data_ID e =? id).

Definition agree (ch fifo id : Z) : bool :=
  Bool.eqb (existsb (fun b => (FilterFIFO b =? fifo) && accepts_frame ch id b) configured)
           (existsb (expected ch fifo id) Can_Database).

Lemma filters_agree : forallb (fun ch => forallb (fun fifo => forallb (agree ch fifo)
  (seqZ 0 2048)) [0; 1]) [1; 2] = true.
Proof. vm_compute. reflexivity. Qed.

Lemma filters_distinct : NoDup (FilterNumber <$> configured).
Proof. refine (bool_decide_unpack _ _). vm_compute. exact I. Qed.

Lemma filters_in_banks : forallb (fun b => bank_of 1 b || bank_of 2 b) configured = true.
Proof. vm_compute. reflexivity. Qed.

Lemma filters_accept ch fifo id : ch = 1 \/ ch = 2 -> fifo = 0 \/ fifo = 1 -> 0 <= id < 2048 ->
  agree ch fifo id = true.
Proof.
  intros Hch Hfifo Hid. pose proof filters_agree as H.
  rewrite forallb_forall in H. specialize (H ch ltac:(destruct Hch as [-> | ->]; [by left|by right; left])).
  rewrite forallb_forall in H. specialize (H fifo ltac:(destruct Hfifo as [-> | ->]; [by left|by right; left])).
  rewrite forallb_forall in H. apply H. apply list_elem_of_In, elem_of_seqZ. lia.
Qed.

#[local] Opaque Can_FILTER_Config configured_state.

(** C40: Can_FILTER_Config stays within its arrays and uses each bank of the controllers
    once; a frame is accepted, into the FIFO of its entry, iff the table has a
    READ_ONLY entry for its identifier on that channel. *)
Theorem Can_FILTER_Config_accepts :
  wp (Can_FILTER_Config db_num) (fun _ f =>
    NoDup (FilterNumber <$> filters f) /\
    (forall b, b ∈ filters f -> bank_of 1 b = true \/ bank_of 2 b = true) /\
    forall ch fifo id, ch = 1 \/ ch = 2 -> fifo = 0 \/ fifo = 1 -> 0 <= id < 2048 ->
      existsb (fun b => (FilterFIFO b =? fifo) && accepts_frame ch id b) (filters f) =
      existsb (expected ch fifo id) Can_Database) filter_locals.
Proof.
  eapply wp_intro; [exact configured_runs|]. split_and!.
  - exact filters_distinct.
  - intros b Hb. pose proof filters_in_banks as H. rewrite forallb_forall in H. specialize (H b).
    rewrite <- list_elem_of_In in H. apply orb_true_iff. by apply H.
  - intros ch fifo id Hch Hfifo Hid. pose proof (filters_accept ch fifo id Hch Hfifo Hid) as Ha.
    unfold agree in Ha. exact (Bool.eqb_prop _ _ Ha).
Qed.
