(* ===== verification/CanCmd.v ===== *)
(** The CAN commands of the robot: what is sent to the motors, the relays, the
    stepper and the sonar (Command.c, motor.c, relay.c, sonic.c), what a received
    frame does (the CAN interrupts of stm32f4xx_it.c and the functions of Command.c
    the table points to), and the image a camera sends (sd_save.c, img_save_isr).

    A float or a double is its bytes.  Cam_Angle and Cam_Dist are doubles computed
    from an integer number of tenths: the model keeps the tenths. *)

From S2P Require Import Prelude CanData.

Open Scope Z_scope.

(** * Bytes of an integer, little endian *)

Definition byte (v : Z) (i : Z) : Z := Z.land (Z.shiftr v (8 * i)) 255.
Definition le32 (v : Z) : list Z := [byte v 0; byte v 1; byte v 2; byte v 3].
Definition le16 (v : Z) : list Z := [byte v 0; byte v 1].
Definition of_bytes (bs : list Z) : Z := foldr (fun b v => b + 256 * v) 0 bs.

(** * Commands *)

(** Motor.h *)
Definition G1M : Z := 0.
Definition CURRENT_ROBOT : Z := G1M.
Definition CMD_STOP : Z := 0.
Definition CMD_DEFAULT : Z := 1.
Definition CMD_SET_PN : Z := 2.
Definition CMD_SET_SG : Z := 4.
Definition CMD_SET_PSG : Z := 5.
(** can_database.h, COM_TYPE *)
Definition NO_COMMAND : Z := 0.
Definition CHECK_FLOAT : Z := 2.

Section commands.
Context (can_busy : list io_event -> Z -> bool).

(** [*(Can_Database[HASH_TABLE[id]].Data_ptr + i) = v] *)
Definition set_data (id i v : Z) : M io unit :=
  let! h := load "HASH_TABLE" id in
  let! e := db_entry h in
  store (Data_ptr e) i v.

Fixpoint set_data_range (id i : Z) (vs : list Z) : M io unit :=
  match vs with
  | [] => ret tt
  | v :: vs => set_data id i v ;! set_data_range id (i + 1) vs
  end.

(** CheckFloat *)
Definition CheckFloat : M io unit :=
  store "MISO_CMD" 0 NO_COMMAND ;!
  store "MOSI_CMD" 0 CHECK_FLOAT ;!
  Write_Database can_busy M_G_CMD_ID.

(** W_MOTOR_SPEED_ANGLE_FUNC; the argument is the union as a 32-bit word *)
Definition W_MOTOR_SPEED_ANGLE_FUNC (ID_NUM SPEED_ANGLE : Z) : M io unit :=
  set_data_range ID_NUM 0 (le32 SPEED_ANGLE) ;!
  Write_Database can_busy ID_NUM.

(** W_MOTOR_OLD_FUNC; [rot] is the bits of a float *)
Definition W_MOTOR_OLD_FUNC (ID_NUM rot speed cmd : Z) : M io unit :=
  if (ID_NUM >? W_MOTOR8_OLD_ID) || (ID_NUM <? W_MOTOR1_OLD_ID) then ret tt
  else
    set_data_range ID_NUM 0 (le32 rot) ;!
    set_data_range ID_NUM 4 (le16 speed) ;!
    set_data ID_NUM 6 CURRENT_ROBOT ;!
    set_data ID_NUM 7 (u8 cmd) ;!
    Write_Database can_busy ID_NUM.

(** motor.c; the bits of 0.0f are 0 *)
Definition Moto_Stop (ID_NUM : Z) : M io unit := W_MOTOR_OLD_FUNC ID_NUM 0 0 CMD_STOP.
Definition Moto_Set_NPos (ID_NUM rot : Z) : M io unit := W_MOTOR_OLD_FUNC ID_NUM rot 0 CMD_SET_PN.
Definition Moto_Clear_NPos (ID_NUM : Z) : M io unit := W_MOTOR_OLD_FUNC ID_NUM 0 0 CMD_DEFAULT.
Definition Moto_Set_GPos (ID_NUM rot : Z) : M io unit := W_MOTOR_OLD_FUNC ID_NUM rot 10000 CMD_SET_PSG.
Definition Moto_Set_GSpeed (ID_NUM speed : Z) : M io unit := W_MOTOR_OLD_FUNC ID_NUM 0 speed CMD_SET_SG.

(** W_STEPPER_FUNC *)
Definition W_STEPPER_FUNC (dir free step : Z) : M io unit :=
  store "MOSI_stepper" 0 dir ;!
  store "MOSI_stepper" 1 free ;!
  store_range "MOSI_stepper" 2 (le32 step) ;!
  Write_Database can_busy W_STEPPER_ID.

(** W_FLAG_FUNC *)
Definition W_FLAG_FUNC : M io unit :=
  store "FLAG_SET" 0 1 ;! Write_Database can_busy W_FLAG_SET_ID.

(** Relay.h: [(uint32_t)(0x1 << (port - 1))] *)
Definition RELAY_NUM (port : Z) : Z := u32 (Z.shiftl 1 (port - 1)).

(** Relay_Set *)
Definition Relay_Set (port : Z) : M io unit :=
  (if (port >? 0) && (port <? 17) then
     store "MOSI_RELAY1_DATA" 0 (u8 (Z.lor (port - 1) 0x80)) ;! Write_Database can_busy W_RELAY1_ID
   else if (port >? 16) && (port <? 33) then
     store "MOSI_RELAY2_DATA" 0 (u8 (Z.lor (port - 17) 0x80)) ;! Write_Database can_busy W_RELAY2_ID
   else ret tt) ;!
  let! v := load "RELAY_VALUE" 0 in
  store "RELAY_VALUE" 0 (Z.lor v (RELAY_NUM port)).

(** Relay_Clear; its counter [i] is never read *)
Definition Relay_Clear (port : Z) : M io unit :=
  (if (port >? 0) && (port <? 17) then
     store "MOSI_RELAY1_DATA" 0 (u8 (port - 1)) ;! Write_Database can_busy W_RELAY1_ID
   else if (port >? 16) && (port <? 33) then
     store "MOSI_RELAY2_DATA" 0 (u8 (port - 17)) ;! Write_Database can_busy W_RELAY2_ID
   else ret tt) ;!
  let! v := load "RELAY_VALUE" 0 in
  store "RELAY_VALUE" 0 (Z.land v (u32 (Z.lnot (RELAY_NUM port)))).

(** relay_attain *)
Definition relay_attain (port : Z) : M io Z :=
  let! v := load "RELAY_VALUE" 0 in
  ret (Z.land (Z.shiftr v (port - 1)) 1).

(** SONICx_ENABLE and SONICx_DISABLE *)
Definition SONICx_ENABLE (SONICx : Z) : M io unit :=
  if negb (Z.land SONICx 0x0f =? 0) then
    let! c := load "MOSI_SONIC1_CMD" 0 in
    store "MOSI_SONIC1_CMD" 0 (u8 (Z.lor c SONICx)) ;! Write_Database can_busy W_SONIC1_ID
  else
    let! c := load "MOSI_SONIC2_CMD" 0 in
    store "MOSI_SONIC2_CMD" 0 (u8 (Z.lor c (Z.shiftr SONICx 4))) ;! Write_Database can_busy W_SONIC2_ID.

Definition SONICx_DISABLE (SONICx : Z) : M io unit :=
  if negb (Z.land SONICx 0x0f =? 0) then
    let! c := load "MOSI_SONIC1_CMD" 0 in
    store "MOSI_SONIC1_CMD" 0 (u8 (Z.land c (Z.lnot SONICx))) ;! Write_Database can_busy W_SONIC1_ID
  else
    let! c := load "MOSI_SONIC2_CMD" 0 in
    store "MOSI_SONIC2_CMD" 0 (u8 (Z.land c (Z.lnot (Z.shiftr SONICx 4)))) ;! Write_Database can_busy W_SONIC2_ID.

(** * Image transfer (sd_save.c) *)

Definition camSta_NoReady : Z := 0.
Definition camSta_Ready : Z := 1.
Definition camSta_Transmit : Z := 2.
Definition camSta_Finish : Z := 3.
Definition camErr_it : Z := 0x04.
Definition camErr_bufof : Z := 0x08.
Definition camErr_frame : Z := 0x10.
Definition IMG_SIZE : Z := 320 * 240 * 2.
Definition cam_trsimg_fh : list Z := [0x55; 0xaa; 0x55; 0xaa; 0x55; 0xaa; 0x55; 0xaa].
(** sizeof(Img_Cbuf.buf) *)
Definition IMG_CBUF : Z := 8 * 128 * 6.

(** camBuf_hash *)
Definition camBuf_hash (camx : Z) : M io string :=
  match camx with
  | 1 => ret "MISO_CAM1_TRANS" | 2 => ret "MISO_CAM2_TRANS" | 3 => ret "MISO_CAM3_TRANS"
  | 4 => ret "MISO_CAM4_TRANS" | 5 => ret "MISO_CAM5_TRANS" | _ => fail BadPointer
  end.

(** [!strncmp(buf, cam_trsimg_fh, 8)]; no byte of the frame head is 0, so the
    comparison goes on until a difference or the eighth byte *)
Definition is_frame_head (buf : string) : M io bool :=
  let! d := load_range buf 8 0 in ret (bool_decide (d = cam_trsimg_fh)).

(** [Img_Cbuf.buf[Img_Cbuf.w_index ++] = buf[i]] for the eight bytes of a frame *)
Definition img_store (buf : string) : M io unit :=
  for_range 8 0 (fun i =>
    let! v := load buf i in
    let! w := load "Img_Cbuf.w_index" 0 in
    store "Img_Cbuf.w_index" 0 (u32 (w + 1)) ;!
    store "Img_Cbuf.buf" w v).

(** img_save_isr *)
Definition img_save_isr (camx : Z) : M io unit :=
  let! buf := camBuf_hash camx in
  let! sta := load "Cam_Sta" (camx - 1) in
  if sta =? camSta_NoReady then
    let! ok := is_frame_head buf in
    if ok : bool then store "Cam_Sta" (camx - 1) camSta_Ready
    else store "Cam_ErrFlg" (camx - 1) (Z.lor camErr_it camErr_frame)
  else
    let! img_fcnt := load "img_fcnt" 0 in
    (if img_fcnt =? 0 then store "Cam_Sta" (camx - 1) camSta_Transmit else ret tt) ;!
    let! sta := load "Cam_Sta" (camx - 1) in
    if negb (sta =? camSta_Finish) then
      store "Time_Stamp" 0 0 ;!
      if img_fcnt <? Z.quot IMG_SIZE 8 then
        img_store buf ;!
        let! w := load "Img_Cbuf.w_index" 0 in
        (if w =? IMG_CBUF then store "Img_Cbuf.w_index" 0 0 else ret tt) ;!
        let! w := load "Img_Cbuf.w_index" 0 in
        let! r := load "Img_Cbuf.r_index" 0 in
        (if w =? r then store "Cam_ErrFlg" (camx - 1) (Z.lor camErr_bufof camErr_it) else ret tt) ;!
        store "img_fcnt" 0 (img_fcnt + 1)
      else
        let! ok := is_frame_head buf in
        if ok : bool then store "Cam_Sta" (camx - 1) camSta_Finish ;! store "img_fcnt" 0 0
        else store "Cam_ErrFlg" (camx - 1) (Z.lor camErr_it camErr_frame) ;! store "img_fcnt" 0 0
    else ret tt.

(** * Functions called on reception (Command.c) *)

(** G_M_CMD_FUNC indexes the table by the identifier itself; both branches are empty *)
Definition G_M_CMD_FUNC : M io unit :=
  let! e := db_entry G_M_CMD_ID in
  let! _ := load (Data_ptr e) 0 in
  ret tt.

Definition copy_double (src dst : string) : M io unit :=
  let! d := load_range src 8 0 in store_range dst 0 d.

Definition S_GPS_X_FUNC : M io unit := copy_double "MISO_GPS_X" "GPS.position.x".
Definition S_GPS_Y_FUNC : M io unit := copy_double "MISO_GPS_Y" "GPS.position.y".
Definition S_GPS_ANG_FUNC : M io unit := copy_double "MISO_GPS_ANG" "GPS.radian".
Definition S_GYRO_C1_FUNC : M io unit := copy_double "MISO_GYRO_C1" "Gyro.convert1".
Definition S_GYRO_C2_FUNC : M io unit := copy_double "MISO_GYRO_C2" "Gyro.convert2".
Definition S_GYRO_RAD_FUNC : M io unit := copy_double "MISO_GYRO_RAD" "Gyro.angle".
Definition S_ENC1_C1_FUNC : M io unit := copy_double "MISO_ENC1_C1" "Encoder[0].convert1".
Definition S_ENC1_C2_FUNC : M io unit := copy_double "MISO_ENC1_C2" "Encoder[0].convert2".
Definition S_ENC1_RAD_FUNC : M io unit := copy_double "MISO_ENC1_RAD" "Encoder[0].r".
Definition S_ENC1_ANG_FUNC : M io unit := copy_double "MISO_ENC1_ANG" "Encoder[0].radian".
Definition S_ENC1_DIS_FUNC : M io unit := copy_double "MISO_ENC1_DIS" "Encoder[0].dis".
Definition S_ENC2_C1_FUNC : M io unit := copy_double "MISO_ENC2_C1" "Encoder[1].convert1".
Definition S_ENC2_C2_FUNC : M io unit := copy_double "MISO_ENC2_C2" "Encoder[1].convert2".
Definition S_ENC2_RAD_FUNC : M io unit := copy_double "MISO_ENC2_RAD" "Encoder[1].r".
Definition S_ENC2_ANG_FUNC : M io unit := copy_double "MISO_ENC2_ANG" "Encoder[1].radian".
Definition S_ENC2_DIS_FUNC : M io unit := copy_double "MISO_ENC2_DIS" "Encoder[1].dis".

(** S_MOTORn_ENC_FUNC *)
Definition motor_enc (n : Z) (buf : string) : M io unit :=
  let! io := load buf 0 in
  store "IO_State" n io ;!
  let! pos := load_range buf 4 1 in
  let! hi := load buf 6 in
  let! lo := load buf 5 in
  store "Motor_RealAim" n (s16 (hi * 256 + lo)) ;!
  store "Motor_Pos" n (of_bytes pos).

Definition S_MOTOR1_ENC_FUNC : M io unit := motor_enc 0 "MISO_M1_ENC".
Definition S_MOTOR2_ENC_FUNC : M io unit :=
  motor_enc 1 "MISO_M2_ENC" ;!
  store "Motor2_Time_Flag" 0 0.
Definition S_MOTOR3_ENC_FUNC : M io unit := motor_enc 2 "MISO_M3_ENC".
Definition S_MOTOR4_ENC_FUNC : M io unit := motor_enc 3 "MISO_M4_ENC".
Definition S_MOTOR5_ENC_FUNC : M io unit := motor_enc 4 "MISO_M5_ENC".
Definition S_MOTOR6_ENC_FUNC : M io unit := motor_enc 5 "MISO_M6_ENC".
Definition S_MOTOR7_ENC_FUNC : M io unit := motor_enc 6 "MISO_M7_ENC".
Definition S_MOTOR8_ENC_FUNC : M io unit := motor_enc 7 "MISO_M8_ENC".

(** S_SWITCH_FUNC *)
Definition S_SWITCH_FUNC : M io unit := ret tt.

(** R_FLAG_SET_FUNC ends in while(1) when the flag is set *)
Definition R_FLAG_SET_FUNC : M io unit :=
  let! f := load "FLAG_SET1" 0 in
  if f =? 1 then Moto_Set_GSpeed W_MOTOR1_OLD_ID 500 ;! fail Diverges else ret tt.

(** A signed 16-bit field of camera_t *)
Definition load_s16 (x : string) (i : Z) : M io Z :=
  let! lo := load x i in let! hi := load x (i + 1) in ret (s16 (lo + 256 * hi)).

(** [time_flag = 0], the last four bytes of camera_t *)
Definition clear_time_flag (x : string) : M io unit := store_range x 8 [0; 0; 0; 0].

(** S_CAMERA1_FUNC *)
Definition S_CAMERA1_FUNC : M io unit :=
  let! x := load_s16 "camera_data1" 0 in
  let! y := load_s16 "camera_data1" 2 in
  let! f0 := load "FilterFlag" 0 in
  (if negb (f0 =? 0) then
     let! t0 := load "S_CAMERA1_FUNC.tmp" 0 in
     (if Z.abs (t0 - x) <? 100 then store "Cam_Angle" 0 (10 * Z.quot x 10) else ret tt) ;!
     let! t1 := load "S_CAMERA1_FUNC.tmp" 1 in
     (if Z.abs (t1 - y) <? 200 then store "Cam_Dist" 0 (10 * Z.quot y 10) else ret tt) ;!
     store "S_CAMERA1_FUNC.tmp" 0 x ;!
     store "S_CAMERA1_FUNC.tmp" 1 y
   else ret tt) ;!
  let! f1 := load "FilterFlag" 1 in
  (if negb (f1 =? 0) then
     (if Z.quot x 10 =? 0 then store "Cam_Dist" 0 y else ret tt) ;!
     (if Z.quot x 10 =? 90 then store "Stop_Flag" 0 1 else store "Stop_Flag" 0 0)
   else store "Cam_Dist" 0 y) ;!
  store "Cam_Angle" 0 x ;!
  (if negb (Z.quot x 10 =? 45) then clear_time_flag "camera_data1" else ret tt).

(** S_CAMERA2_FUNC *)
Definition S_CAMERA2_FUNC : M io unit :=
  let! x := load_s16 "camera_data2" 0 in
  let! y := load_s16 "camera_data2" 2 in
  let! f := load "FilterFlag" 2 in
  (if negb (f =? 0) then
     (if Z.quot x 10 =? 0 then store "Cam_Dist" 1 y else ret tt) ;!
     (if Z.quot x 10 =? 90 then store "Stop_Flag" 1 1 else store "Stop_Flag" 1 0)
   else store "Cam_Dist" 1 y) ;!
  store "Cam_Angle" 1 x ;!
  (if negb (Z.quot x 10 =? 45) then clear_time_flag "camera_data2" else ret tt).

(** S_CAMERA3_FUNC *)
Definition S_CAMERA3_FUNC : M io unit :=
  let! x := load_s16 "camera_data3" 0 in
  let! y := load_s16 "camera_data3" 2 in
  let! f := load "FilterFlag" 3 in
  (if negb (f =? 0) then
     (if Z.quot x 10 =? 0 then store "Cam_Dist" 2 y else ret tt) ;!
     (if Z.quot x 10 =? 90 then store "Stop_Flag" 2 1 else store "Stop_Flag" 2 0)
   else store "Cam_Dist" 2 y) ;!
  store "Cam_Angle" 2 x ;!
  (if negb (Z.quot x 10 =? 45) then clear_time_flag "camera_data3" else ret tt).

(** S_CAMERA4_FUNC *)
Definition S_CAMERA4_FUNC : M io unit :=
  let! x := load_s16 "camera_data4" 0 in
  let! y := load_s16 "camera_data4" 2 in
  let! f := load "FilterFlag" 4 in
  (if negb (f =? 0) then
     let! t0 := load "S_CAMERA4_FUNC.tmp" 0 in
     (if Z.abs (t0 - x) <? 200 then store "Cam_Pole_X" 0 (Z.quot x 10) else ret tt) ;!
     let! t1 := load "S_CAMERA4_FUNC.tmp" 1 in
     (if Z.abs (t1 - y) <? 200 then store "Cam_Pole_Y" 0 (Z.quot y 10) else ret tt) ;!
     store "S_CAMERA4_FUNC.tmp" 0 x ;!
     store "S_CAMERA4_FUNC.tmp" 1 y
   else
     store "Cam_Pole_X" 0 (Z.quot x 10) ;!
     store "Cam_Pole_Y" 0 (Z.quot y 10)) ;!
  clear_time_flag "camera_data4".

(** One coordinate of S_CAMERA5_FUNC under its filter *)
Definition camera5_filter (i limit v : Z) (dst : string) : M io unit :=
  let! t := load "S_CAMERA5_FUNC.tmp" i in
  if Z.abs (t - v) <? limit then store dst 0 v else ret tt.

(** S_CAMERA5_FUNC *)
Definition S_CAMERA5_FUNC : M io unit :=
  let! x := load_s16 "camera_data5" 0 in
  let! y := load_s16 "camera_data5" 2 in
  let! z := load_s16 "camera_data5" 4 in
  let! turn := load_s16 "camera_data5" 6 in
  let! f := load "FilterFlag" 5 in
  (if negb (f =? 0) then
     camera5_filter 0 500 x "Cam_X" ;!
     camera5_filter 1 500 y "Cam_Y" ;!
     camera5_filter 2 1000 z "Cam_Z" ;!
     camera5_filter 3 10 turn "Cam_A" ;!
     store_range "S_CAMERA5_FUNC.tmp" 0 [x; y; z; turn]
   else
     store "Cam_X" 0 x ;! store "Cam_Y" 0 y ;! store "Cam_Z" 0 z ;! store "Cam_A" 0 turn) ;!
  clear_time_flag "camera_data5".

Definition S_CAM1_TRANS_FUNC : M io unit := img_save_isr 1.
Definition S_CAM2_TRANS_FUNC : M io unit := img_save_isr 2.
Definition S_CAM3_TRANS_FUNC : M io unit := img_save_isr 3.
Definition S_CAM4_TRANS_FUNC : M io unit := img_save_isr 4.
Definition S_CAM5_TRANS_FUNC : M io unit := img_save_isr 5.

(** S_SONIC1_FUNC and S_SONIC2_FUNC *)
Definition S_SONIC1_FUNC : M io unit :=
  let! num := load "MISO_SONIC1_DAT" 2 in
  if num <? 4 then
    let! d := load_range "MISO_SONIC1_DAT" 2 0 in
    store "sonic_data.data" num (of_bytes d) ;!
    let! c := load "sonic_data.count" num in
    store "sonic_data.count" num (u8 (c + 1))
  else ret tt.

Definition S_SONIC2_FUNC : M io unit :=
  let! num := load "MISO_SONIC2_DAT" 2 in
  if num <? 2 then
    let! d := load_range "MISO_SONIC2_DAT" 2 0 in
    store "sonic_data.data" (num + 4) (of_bytes d) ;!
    let! c := load "sonic_data.count" (num + 4) in
    store "sonic_data.count" (num + 4) (u8 (c + 1))
  else ret tt.

(** The call through MenuFunc *)
Definition call_menu (f : menu_func) : M io unit :=
  match f with
  | G_M_CMD_fn => G_M_CMD_FUNC
  | S_GPS_X_fn => S_GPS_X_FUNC
  | S_GPS_Y_fn => S_GPS_Y_FUNC
  | S_GPS_ANG_fn => S_GPS_ANG_FUNC
  | S_GYRO_C1_fn => S_GYRO_C1_FUNC
  | S_GYRO_C2_fn => S_GYRO_C2_FUNC
  | S_GYRO_RAD_fn => S_GYRO_RAD_FUNC
  | S_ENC1_C1_fn => S_ENC1_C1_FUNC
  | S_ENC1_C2_fn => S_ENC1_C2_FUNC
  | S_ENC1_RAD_fn => S_ENC1_RAD_FUNC
  | S_ENC1_ANG_fn => S_ENC1_ANG_FUNC
  | S_ENC1_DIS_fn => S_ENC1_DIS_FUNC
  | S_ENC2_C1_fn => S_ENC2_C1_FUNC
  | S_ENC2_C2_fn => S_ENC2_C2_FUNC
  | S_ENC2_RAD_fn => S_ENC2_RAD_FUNC
  | S_ENC2_ANG_fn => S_ENC2_ANG_FUNC
  | S_ENC2_DIS_fn => S_ENC2_DIS_FUNC
  | R_FLAG_SET_fn => R_FLAG_SET_FUNC
  | S_SWITCH_fn => S_SWITCH_FUNC
  | S_SONIC1_fn => S_SONIC1_FUNC
  | S_SONIC2_fn => S_SONIC2_FUNC
  | S_MOTOR1_ENC_fn => S_MOTOR1_ENC_FUNC
  | S_MOTOR2_ENC_fn => S_MOTOR2_ENC_FUNC
  | S_MOTOR3_ENC_fn => S_MOTOR3_ENC_FUNC
  | S_MOTOR4_ENC_fn => S_MOTOR4_ENC_FUNC
  | S_MOTOR5_ENC_fn => S_MOTOR5_ENC_FUNC
  | S_MOTOR6_ENC_fn => S_MOTOR6_ENC_FUNC
  | S_MOTOR7_ENC_fn => S_MOTOR7_ENC_FUNC
  | S_MOTOR8_ENC_fn => S_MOTOR8_ENC_FUNC
  | S_CAMERA1_fn => S_CAMERA1_FUNC
  | S_CAMERA2_fn => S_CAMERA2_FUNC
  | S_CAMERA3_fn => S_CAMERA3_FUNC
  | S_CAMERA4_fn => S_CAMERA4_FUNC
  | S_CAMERA5_fn => S_CAMERA5_FUNC
  | S_CAM1_TRANS_fn => S_CAM1_TRANS_FUNC
  | S_CAM2_TRANS_fn => S_CAM2_TRANS_FUNC
  | S_CAM3_TRANS_fn => S_CAM3_TRANS_FUNC
  | S_CAM4_TRANS_fn => S_CAM4_TRANS_FUNC
  | S_CAM5_TRANS_fn => S_CAM5_TRANS_FUNC
  end.

(** * Reception (stm32f4xx_it.c)

    The four handlers CANx_RXy_IRQHandler are the same but for the controller and
    the FIFO the frame comes from. *)
Definition CAN_RX_IRQHandler (StdId_ : Z) (data : list Z) : M io unit :=
  set_data_range StdId_ 0 data ;!
  let! h := load "HASH_TABLE" StdId_ in
  let! e := db_entry h in
  let! f := of_option NullDeref (MenuFunc e) in
  call_menu f.

End commands.

(** * Variables *)

Definition variables : list (string * Z) := can_variables ++ [
  ("HASH_TABLE", 256); ("Can_Data_Num", 1);
  ("GPS.position.x", 8); ("GPS.position.y", 8); ("GPS.radian", 8); ("Gyro.convert1", 8);
  ("Gyro.convert2", 8); ("Gyro.angle", 8); ("Encoder[0].convert1", 8); ("Encoder[0].convert2",
  8); ("Encoder[0].r", 8); ("Encoder[0].radian", 8); ("Encoder[0].dis", 8);
  ("Encoder[1].convert1", 8); ("Encoder[1].convert2", 8); ("Encoder[1].r", 8);
  ("Encoder[1].radian", 8); ("Encoder[1].dis", 8);
  ("IO_State", 8); ("Motor_Pos", 8); ("Motor_RealAim", 8); ("Motor2_Time_Flag", 1);
  ("RELAY_VALUE", 1); ("sonic_data.count", 6); ("sonic_data.data", 6);
  ("FilterFlag", 6); ("Stop_Flag", 3); ("Cam_Angle", 3); ("Cam_Dist", 3);
  ("Cam_Pole_X", 1); ("Cam_Pole_Y", 1); ("Cam_X", 1); ("Cam_Y", 1); ("Cam_Z", 1); ("Cam_A", 1);
  ("S_CAMERA1_FUNC.tmp", 2); ("S_CAMERA4_FUNC.tmp", 2); ("S_CAMERA5_FUNC.tmp", 4);
  ("Cam_Sta", 7); ("Cam_ErrFlg", 7); ("Time_Stamp", 1); ("img_fcnt", 1);
  ("Img_Cbuf.w_index", 1); ("Img_Cbuf.r_index", 1); ("Img_Cbuf.buf", IMG_CBUF);
  ("LCD_Table", 160); ("LCD_Index", 1); ("DataConvBuff", 25); ("CurrentMenu", 2); ("armtest_flag", 1);
  ("WalkGround", 1); ("Retry", 1); ("Speed_X", 8); ("Speed_Y", 8); ("Speed_Rotation", 8)].

(** The globals at reset *)
Definition zero_io : io :=
  mk_io (list_to_map ((fun p => (p.1, replicate (Z.to_nat p.2) 0)) <$> variables)) [].
