(* ===== verification/CanSafe.v ===== *)
(** Reception of CAN frames is safe: no callback leaves its arrays, for the frames the
    filters let through; and what the frames of motors and relays mean. *)

From S2P Require Import Prelude CanData CanCmd.

Open Scope Z_scope.

(** * The shape of the globals *)

Fixpoint assoc (x : string) (l : list (string * Z)) : option Z :=
  match l with
  | [] => None
  | (y, n) :: l => if String.eqb x y then Some n else assoc x l
  end.

(** The declared length of a variable *)
Definition var_len (x : string) : option Z := assoc x variables.

(** What the elements of some variables satisfy: the data of the sonars are bytes,
    the write index of the image buffer is at the start of a frame. *)
Definition fits (x : string) (v : Z) : bool :=
  if decide (x = "Img_Cbuf.w_index") then (0 <=? v) && (v <? IMG_CBUF) && (v mod 8 =? 0)
  else if decide (x ∈ ["MISO_SONIC1_DAT"; "MISO_SONIC2_DAT"]) then 0 <=? v
  else true.

(** Every variable has its length and its elements fit. *)
Definition io_ok (s : io) : Prop :=
  hash_ready s /\
  forall x n, var_len x = Some n -> exists a, has s x a /\ Z.of_nat (length a) = n /\ Forall (fits x) a.

Definition fixed (x : string) : bool := bool_decide (x ∈ ["HASH_TABLE"; "Can_Data_Num"]).

Lemma has_inj s x a b : has s x a -> has s x b -> a = b.
Proof. unfold has. congruence. Qed.

Section rules.
Implicit Types (s : io) (x : string).

Lemma ok_load s x n i (Phi : Z -> io -> Prop) :
  io_ok s -> var_len x = Some n -> 0 <= i < n -> (forall v, fits x v -> Phi v s) -> wp (load x i) Phi s.
Proof.
  intros [_ Hs] Hx Hi HP. destruct (Hs x n Hx) as (a & Ha & Hl & Hf).
  destruct (lookup_lt_is_Some_2 a (Z.to_nat i)) as [v Hv]; [lia|].
  eapply wp_load; [exact Ha|lia|exact Hv|]. apply HP. exact (Forall_lookup_1 _ _ _ _ Hf Hv).
Qed.

Lemma ok_put s x n a :
  io_ok s -> var_len x = Some n -> fixed x = false -> Z.of_nat (length a) = n -> Forall (fits x) a ->
  io_ok (put_array x a s).
Proof.
  intros [[Hh Hn] Hs] Hx Hfix Hl Hf. apply bool_decide_eq_false in Hfix.
  assert (x <> "HASH_TABLE" /\ x <> "Can_Data_Num") as [H1 H2] by set_solver.
  split; [split; apply has_put; by right|].
  intros y m Hy. destruct (decide (x = y)) as [->|Hne].
  - exists a. rewrite Hx in Hy. injection Hy as <-. split_and!; [|done|done]. apply has_put. by left.
  - destruct (Hs y m Hy) as (b & Hb & Hbl & Hbf). exists b. split_and!; [|done|done]. apply has_put. by right.
Qed.

Lemma ok_store s x n i v (Phi : unit -> io -> Prop) :
  io_ok s -> var_len x = Some n -> fixed x = false -> 0 <= i < n -> fits x v ->
  (forall s', io_ok s' -> Phi tt s') -> wp (store x i v) Phi s.
Proof.
  intros Hok Hx Hfix Hi Hv HP. destruct (proj2 Hok x n Hx) as (a & Ha & Hl & Hf).
  eapply wp_store; [exact Ha|lia|]. apply HP. eapply ok_put; [done|exact Hx|done|by rewrite length_insert|].
  by apply Forall_insert.
Qed.

Lemma ok_load_range s x n k i (Phi : list Z -> io -> Prop) :
  io_ok s -> var_len x = Some n -> 0 <= i -> i + Z.of_nat k <= n ->
  (forall vs, length vs = k -> Phi vs s) -> wp (load_range x k i) Phi s.
Proof.
  intros Hok Hx Hi Hk HP. destruct (proj2 Hok x n Hx) as (a & Ha & Hl & Hf).
  eapply wp_mono; [eapply load_range_spec; [exact Ha|done|lia]|]. cbv beta. intros vs s' [-> ->].
  apply HP. rewrite length_take, length_drop. lia.
Qed.

Lemma ok_store_range x n vs : forall s i (Phi : unit -> io -> Prop),
  io_ok s -> var_len x = Some n -> fixed x = false -> 0 <= i -> i + Z.of_nat (length vs) <= n ->
  Forall (fits x) vs -> (forall s', io_ok s' -> Phi tt s') -> wp (store_range x i vs) Phi s.
Proof.
  induction vs as [|v vs IH]; intros s i Phi Hok Hx Hfix Hi Hn Hf HP; simpl.
  - apply wp_ret. by apply HP.
  - apply Forall_cons in Hf as [Hv Hf]. simpl in Hn. wp_step.
    eapply ok_store; [done|exact Hx|done|lia|done|]. intros s' Hok'. apply IH; try done; lia.
Qed.

(** ** Entries of the table *)

Definition entry_ok (e : Can_Data) : bool :=
  match var_len (Data_ptr e) with
  | Some n => (0 <=? Data_length e) && (Data_length e <=? n) && negb (fixed (Data_ptr e))
              && bool_decide (Data_ptr e <> "Img_Cbuf.w_index")
  | None => false
  end.

Lemma entries_ok : forallb entry_ok Can_Database = true.
Proof. vm_compute. reflexivity. Qed.

Lemma entry_var e : e ∈ Can_Database -> exists n, var_len (Data_ptr e) = Some n /\
  0 <= Data_length e <= n /\ fixed (Data_ptr e) = false /\ Data_ptr e <> "Img_Cbuf.w_index".
Proof.
  intros He. pose proof entries_ok as H. rewrite forallb_forall in H. specialize (H e).
  rewrite <- list_elem_of_In in H. specialize (H He). unfold entry_ok in H.
  destruct (var_len (Data_ptr e)) as [n|]; [|done]. exists n.
  rewrite !andb_true_iff, negb_true_iff, bool_decide_eq_true in H. split_and!; [done|lia|lia|naive_solver..].
Qed.

Lemma ok_Write_Database can_busy s i e (Phi : unit -> io -> Prop) :
  io_ok s -> Can_Database !! i = Some e -> (forall s', io_ok s' -> globals s' = globals s -> Phi tt s') ->
  wp (Write_Database can_busy (Data_ID e)) Phi s.
Proof.
  intros Hok He HP. destruct (entry_var e) as (n & Hn & Hl & _ & _); [by eapply list_elem_of_lookup_2|].
  destruct (proj2 Hok _ _ Hn) as (a & Ha & Hal & _).
  eapply wp_mono; [eapply Write_Database_frame; [apply Hok|exact He|exact Ha|lia]|].
  cbv beta. intros [] s' [Hg _]. apply HP; [|done]. unfold io_ok, hash_ready, has. rewrite Hg. exact Hok.
Qed.

Lemma ok_set_data s i e j v (Phi : unit -> io -> Prop) n :
  io_ok s -> Can_Database !! i = Some e -> var_len (Data_ptr e) = Some n -> 0 <= j < n -> 0 <= v ->
  (forall s', io_ok s' -> Phi tt s') -> wp (set_data (Data_ID e) j v) Phi s.
Proof.
  intros Hok He Hn Hj Hv HP. pose proof (list_elem_of_lookup_2 _ _ _ He) as Hin.
  destruct (entry_var e Hin) as (m & Hm & _ & Hfix & Hw). pose proof (db_ids e Hin) as Hid.
  unfold set_data. wp_step. eapply wp_load; [apply (proj1 Hok)|lia|by apply db_index|].
  wp_step. eapply wp_db_entry; [lia|by rewrite Nat2Z.id|].
  eapply ok_store; [done|exact Hn|done|done| |exact HP].
  unfold fits. rewrite decide_False by done. case_decide; [|done]. apply Is_true_true, Z.leb_le, Hv.
Qed.

Lemma ok_set_data_range i e n vs : forall s j (Phi : unit -> io -> Prop),
  io_ok s -> Can_Database !! i = Some e -> var_len (Data_ptr e) = Some n ->
  0 <= j -> j + Z.of_nat (length vs) <= n -> Forall (fun v => 0 <= v) vs ->
  (forall s', io_ok s' -> Phi tt s') -> wp (set_data_range (Data_ID e) j vs) Phi s.
Proof.
  induction vs as [|v vs IH]; intros s j Phi Hok He Hn Hj Hl Hf HP; simpl.
  - apply wp_ret. by apply HP.
  - apply Forall_cons in Hf as [Hv Hf]. simpl in Hl. wp_step.
    eapply ok_set_data; [done|exact He|exact Hn|lia|done|]. intros s' Hok'. apply IH; try done; lia.
Qed.
End rules.

(** * The callbacks *)

(** One step through straight-line code on the globals; [lia] bounds the indices. *)
Ltac io_step :=
  lazymatch goal with
  | |- wp (bind _ _) _ _ => apply wp_bind
  | |- wp (ret _) _ _ => apply wp_ret
  | |- wp (load _ _) _ _ =>
      eapply ok_load; [eassumption|first [eassumption|reflexivity]|lia|let v := fresh "v" in intros v ?]
  | |- wp (store _ _ _) _ _ =>
      eapply ok_store; [eassumption|reflexivity|reflexivity|lia|exact I|intros ? ?]
  | |- wp (load_range _ _ _) _ _ =>
      eapply ok_load_range; [eassumption|first [eassumption|reflexivity]|lia|lia|intros ? ?]
  | |- wp (store_range _ _ _) _ _ =>
      eapply ok_store_range; [eassumption|reflexivity|reflexivity|lia|simpl; lia|apply Forall_true; intros; exact I|intros ? ?]
  | |- wp (if ?b then _ else _) _ _ => destruct b eqn:?
  end; cbv beta.
Ltac io_run := repeat io_step; try done.

Lemma fits_sonic1 v : fits "MISO_SONIC1_DAT" v -> 0 <= v.
Proof. intros H. apply Z.leb_le, Is_true_true. exact H. Qed.
Lemma fits_sonic2 v : fits "MISO_SONIC2_DAT" v -> 0 <= v.
Proof. intros H. apply Z.leb_le, Is_true_true. exact H. Qed.

(** As [io_ok], in the middle of a frame: the write index is [w]. *)
Definition io_ok_at (w : Z) (s : io) : Prop :=
  hash_ready s /\ has s "Img_Cbuf.w_index" [w] /\
  forall x n, x <> "Img_Cbuf.w_index" -> var_len x = Some n ->
    exists a, has s x a /\ Z.of_nat (length a) = n /\ Forall (fits x) a.

Lemma fits_index w : fits "Img_Cbuf.w_index" w <-> 0 <= w < IMG_CBUF /\ w mod 8 = 0.
Proof. unfold fits. rewrite decide_True by done. rewrite Is_true_true, !andb_true_iff. lia. Qed.

Lemma io_ok_open s : io_ok s -> exists w, fits "Img_Cbuf.w_index" w /\ io_ok_at w s.
Proof.
  intros [Hh Hs]. destruct (Hs "Img_Cbuf.w_index" 1 eq_refl) as (a & Ha & Hl & Hf).
  destruct a as [|w [|]]; [done| |simpl in Hl; lia]. exists w. split; [by apply Forall_cons in Hf as [? _]|].
  split_and!; [done|done|]. intros x n _. apply Hs.
Qed.

Lemma io_ok_close w s : io_ok_at w s -> fits "Img_Cbuf.w_index" w -> io_ok s.
Proof.
  intros (Hh & Hw & Hs) Hf. split; [done|]. intros x n Hx.
  destruct (decide (x = "Img_Cbuf.w_index")) as [->|Hne]; [|by apply Hs].
  exists [w]. split_and!; [done| |by repeat constructor]. by injection Hx as <-.
Qed.

Lemma at_put w s x n a :
  io_ok_at w s -> x <> "Img_Cbuf.w_index" -> var_len x = Some n -> fixed x = false ->
  Z.of_nat (length a) = n -> Forall (fits x) a -> io_ok_at w (put_array x a s).
Proof.
  intros ([Hh Hn] & Hw & Hs) Hne Hx Hfix Hl Hf. apply bool_decide_eq_false in Hfix.
  assert (x <> "HASH_TABLE" /\ x <> "Can_Data_Num") as [H1 H2] by set_solver.
  split_and!; [split; apply has_put; by right|apply has_put; by right|].
  intros y m Hyw Hy. destruct (decide (x = y)) as [->|Hxy].
  - exists a. rewrite Hx in Hy. injection Hy as <-. split_and!; [|done|done]. apply has_put. by left.
  - destruct (Hs y m Hyw Hy) as (b & Hb & Hbl & Hbf). exists b. split_and!; [|done|done]. apply has_put. by right.
Qed.

Lemma at_index w w' s : io_ok_at w s -> io_ok_at w' (put_array "Img_Cbuf.w_index" [w'] s).
Proof.
  intros ([Hh Hn] & Hw & Hs). split_and!; [split; apply has_put; by right|apply has_put; by left|].
  intros y m Hyw Hy. destruct (Hs y m Hyw Hy) as (b & Hb & Hbl & Hbf). exists b.
  split_and!; [|done|done]. apply has_put. right. by split.
Qed.

(** Eight bytes are written and the index moves past them. *)
Lemma img_store_ok w s buf :
  io_ok_at w s -> 0 <= w -> w + 8 <= IMG_CBUF -> var_len buf = Some 8 -> buf <> "Img_Cbuf.w_index" ->
  wp (img_store buf) (fun _ s' => io_ok_at (w + 8) s') s.
Proof.
  intros Hok Hw Hb Hbuf Hne. unfold img_store.
  set (I := fun (i : Z) (s' : io) => io_ok_at (w + i) s').
  eapply wp_mono; [apply (wp_for_range I)|intros [] s' H; exact H]; unfold I; [by rewrite Z.add_0_r|].
  clear I. intros j s' Hj Hok'. destruct (proj2 (proj2 Hok') buf 8 Hne Hbuf) as (a & Ha & Hl & _).
  destruct (lookup_lt_is_Some_2 a (Z.to_nat j)) as [v Hv]; [lia|].
  wp_step. eapply wp_load; [exact Ha|lia|exact Hv|]. wp_step.
  eapply wp_load; [apply Hok'|lia|done|]. wp_step. eapply wp_store; [apply Hok'|simpl; lia|]. simpl.
  rewrite u32_small by (unfold IMG_CBUF in *; lia). apply (at_index _ (w + j + 1)) in Hok'.
  destruct (proj2 (proj2 Hok') "Img_Cbuf.buf" IMG_CBUF ltac:(done) ltac:(done)) as (b & Hb' & Hbl & Hbf).
  eapply wp_store; [exact Hb'|lia|]. replace (w + (j + 1)) with (w + j + 1) by lia.
  eapply at_put; [exact Hok'|done|reflexivity|done|by rewrite length_insert|]. by apply Forall_insert.
Qed.

Lemma img_frame_ok s buf (rest : M io unit) (Phi : unit -> io -> Prop) :
  io_ok s -> var_len buf = Some 8 -> buf <> "Img_Cbuf.w_index" ->
  (forall s', io_ok s' -> wp rest Phi s') ->
  wp (img_store buf ;!
      let! w := load "Img_Cbuf.w_index" 0 in
      (if w =? IMG_CBUF then store "Img_Cbuf.w_index" 0 0 else ret tt) ;! rest) Phi s.
Proof.
  intros Hok Hl Hne HP. apply io_ok_open in Hok as (w & Hw & Hok). apply fits_index in Hw as [Hw Hw8].
  assert (w + 8 <= IMG_CBUF).
  { unfold IMG_CBUF in *. pose proof (Z.div_mod w 8). pose proof (Z.div_lt_upper_bound w 8 768). lia. }
  assert ((w + 8) mod 8 = 0) as Hw8' by (rewrite <- Zplus_mod_idemp_r, Z.add_0_r; done).
  wp_use (img_store_ok w s buf); [done|lia|done|done|done|]. intros _ s1 Hok1.
  wp_step. eapply wp_load; [apply Hok1|lia|done|]. wp_step.
  destruct (Z.eqb_spec (w + 8) IMG_CBUF) as [E|E].
  - eapply wp_store; [apply Hok1|simpl; lia|]. simpl.
    assert (io_ok (put_array "Img_Cbuf.w_index" [0] s1)) as Hok2.
    { eapply io_ok_close; [by eapply at_index|]. by apply fits_index. }
    by apply HP.
  - apply wp_ret. assert (io_ok s1) as Hok2.
    { eapply io_ok_close; [done|]. apply fits_index. lia. }
    by apply HP.
Qed.

Lemma camBuf_hash_ok camx : 1 <= camx <= 5 ->
  exists buf, camBuf_hash camx = ret buf /\ var_len buf = Some 8 /\ buf <> "Img_Cbuf.w_index".
Proof.
  intros Hc. assert (camx = 1 \/ camx = 2 \/ camx = 3 \/ camx = 4 \/ camx = 5) as H by lia.
  destruct H as [-> | [-> | [-> | [-> | ->]]]]; eexists; (split; [reflexivity|split; [reflexivity|done]]).
Qed.

Lemma img_save_isr_ok s camx : io_ok s -> 1 <= camx <= 5 -> wp (img_save_isr camx) (fun _ s' => io_ok s') s.
Proof.
  intros Hok Hc. unfold img_save_isr, is_frame_head.
  destruct (camBuf_hash_ok camx Hc) as (buf & -> & Hl & Hne).
  io_run; apply wp_bind_inv, img_frame_ok; try done; intros; io_run.
Qed.

Lemma copy_double_ok s src dst :
  io_ok s -> var_len src = Some 8 -> var_len dst = Some 8 -> fixed dst = false ->
  (forall v, fits dst v) ->
  wp (copy_double src dst) (fun _ s' => io_ok s') s.
Proof.
  intros Hok Hs Hd Hf Hv. unfold copy_double. io_step. io_step.
  eapply ok_store_range; [done|exact Hd|done|lia|lia|by apply Forall_true|done].
Qed.

Lemma motor_enc_ok s n buf : io_ok s -> 0 <= n < 8 -> var_len buf = Some 7 ->
  wp (motor_enc n buf) (fun _ s' => io_ok s') s.
Proof. intros Hok Hn Hb. unfold motor_enc. io_run. Qed.

(** No callback but R_FLAG_SET_FUNC, which may loop, leaves its arrays. *)
Lemma call_menu_ok can_busy s f : io_ok s -> f <> R_FLAG_SET_fn ->
  wp (call_menu can_busy f) (fun _ s' => io_ok s') s.
Proof.
  intros Hok Hf. destruct f; try done;
    try (apply copy_double_ok; [done|reflexivity|reflexivity|reflexivity|intros; exact I]);
    try (apply img_save_isr_ok; [done|lia]);
    try (apply motor_enc_ok; [done|lia|reflexivity]).
  all: cbn [call_menu]; unfold S_CAMERA1_FUNC, S_CAMERA2_FUNC, S_CAMERA3_FUNC, S_CAMERA4_FUNC, S_CAMERA5_FUNC,
    camera5_filter, load_s16, clear_time_flag, S_SONIC1_FUNC, S_SONIC2_FUNC, S_MOTOR2_ENC_FUNC.
  - unfold G_M_CMD_FUNC. io_step. eapply wp_db_entry; [done|reflexivity|]. io_run.
  - io_step. io_step. pose proof (fits_sonic1 v ltac:(done)). io_run.
  - io_step. io_step. pose proof (fits_sonic2 v ltac:(done)). io_run.
  - wp_use motor_enc_ok; [done|lia|reflexivity|]. intros _ s' Hok'. io_run.
  - io_run.
  - io_run.
  - io_run.
  - io_run.
  - io_run.
Qed.

(** * Reception *)

(** C37: Every frame of an entry that has a function, but for the flag that stops the robot, is stored and handled within the arrays of the program,
    provided it is no longer than its entry says. *)
Theorem CAN_RX_safe can_busy s i e f data :
  io_ok s -> Can_Database !! i = Some e ->
  MenuFunc e = Some f -> f <> R_FLAG_SET_fn ->
  Z.of_nat (length data) <= Data_length e -> Forall (fun b => 0 <= b < 256) data ->
  wp (CAN_RX_IRQHandler can_busy (Data_ID e) data) (fun _ s' => io_ok s') s.
Proof.
  intros Hok He Hf Hne Hl Hb. pose proof (list_elem_of_lookup_2 _ _ _ He) as Hin.
  pose proof (db_ids e Hin) as Hid.
  destruct (entry_var e Hin) as (n & Hn & Hdl & Hfix & Hw). unfold CAN_RX_IRQHandler. wp_step.
  eapply ok_set_data_range; [done|exact He|exact Hn|lia|lia|eapply Forall_impl; [exact Hb|simpl; lia]|].
  intros s' Hok'. wp_step. eapply wp_load; [apply (proj1 Hok')|lia|by apply db_index|].
  wp_step. eapply wp_db_entry; [lia|by rewrite Nat2Z.id|]. wp_step. eapply wp_of_option; [exact Hf|].
  by apply call_menu_ok.
Qed.

(** The entries of the relays are marked READ_ONLY, so the filters accept their
    identifiers, and they have no function: such a frame makes the interrupt handler
    call a null pointer. *)
Theorem CAN_RX_relay can_busy s b :
  io_ok s -> 0 <= b < 256 -> CAN_RX_IRQHandler can_busy W_RELAY1_ID [b] s = Fail NullDeref.
Proof.
  intros Hok Hb. set (e := mk_can READ_ONLY W_RELAY1_ID "MOSI_RELAY1_DATA" 1 None 2 CAN_Filter_FIFO0).
  assert (exists i, Can_Database !! i = Some e) as [i He].
  { exists (Z.to_nat (index_of W_RELAY1_ID)). vm_compute. reflexivity. }
  assert (wp (set_data_range (Data_ID e) 0 [b]) (fun _ s' => io_ok s') s) as H.
  { eapply ok_set_data_range; [done|exact He|reflexivity|lia|simpl; lia|constructor; [lia|constructor]|done]. }
  apply wp_Ret in H as ([] & s' & E & Hok'). unfold CAN_RX_IRQHandler, bind.
  change W_RELAY1_ID with (Data_ID e). rewrite E.
  rewrite (load_eq s' _ _ (Data_ID e) (Z.of_nat i) (proj1 (proj1 Hok')) ltac:(done) (db_index i e He)).
  unfold db_entry. rewrite (proj2 (Z.leb_le 0 (Z.of_nat i))), Nat2Z.id by lia. by rewrite He.
Qed.

(** * What the frames mean *)

Section frames.
Implicit Types (s : io).

Lemma set_data_eq s i e a j v :
  hash_ready s -> Can_Database !! i = Some e -> has s (Data_ptr e) a -> 0 <= j < Z.of_nat (length a) ->
  set_data (Data_ID e) j v s = Ret tt (put_array (Data_ptr e) (<[Z.to_nat j := v]> a) s).
Proof.
  intros [Hh _] He Ha Hj. pose proof (db_ids e (list_elem_of_lookup_2 _ _ _ He)) as Hid.
  assert (wp (set_data (Data_ID e) j v) (fun _ s' => s' = put_array (Data_ptr e) (<[Z.to_nat j := v]> a) s) s) as H.
  { unfold set_data. wp_step. eapply wp_load; [exact Hh|lia|by apply db_index|].
    wp_step. eapply wp_db_entry; [lia|by rewrite Nat2Z.id|]. by eapply wp_store. }
  apply wp_Ret in H as ([] & s' & -> & ->). done.
Qed.

Lemma hash_ready_put s x a : hash_ready s -> fixed x = false -> hash_ready (put_array x a s).
Proof.
  intros [Hh Hn] Hfix. apply bool_decide_eq_false in Hfix.
  assert (x <> "HASH_TABLE" /\ x <> "Can_Data_Num") as [H1 H2] by set_solver.
  split; apply has_put; by right.
Qed.

Lemma set_data_range_eq i e vs : forall s a j,
  hash_ready s -> Can_Database !! i = Some e -> fixed (Data_ptr e) = false -> has s (Data_ptr e) a ->
  0 <= j -> j + Z.of_nat (length vs) <= Z.of_nat (length a) -> vs <> [] ->
  set_data_range (Data_ID e) j vs s = Ret tt (put_array (Data_ptr e) (list_inserts (Z.to_nat j) vs a) s).
Proof.
  induction vs as [|v vs IH]; intros s a j Hh He Hfix Ha Hj Hl Hne; [done|]. cbn [set_data_range]. unfold bind.
  simpl in Hl. rewrite (set_data_eq s i e a) by (done || lia). destruct vs as [|w vs]; [done|].
  rewrite (IH _ (<[Z.to_nat j := v]> a)); try done.
  - rewrite put_put. replace (Z.to_nat (j + 1)) with (S (Z.to_nat j)) by lia.
    change (list_inserts (Z.to_nat j) (v :: w :: vs) a)
      with (<[Z.to_nat j := v]> (list_inserts (S (Z.to_nat j)) (w :: vs) a)).
    by rewrite list_insert_inserts_lt by lia.
  - by apply hash_ready_put.
  - apply has_put. by left.
  - lia.
  - rewrite length_insert. simpl in *. lia.
Qed.
End frames.

(** ** Motors *)

Definition motor_entry (e : Can_Data) : bool :=
  if (W_MOTOR1_OLD_ID <=? Data_ID e) && (Data_ID e <=? W_MOTOR8_OLD_ID) then
    (Data_length e =? 8) && bool_decide (var_len (Data_ptr e) = Some 8)
  else true.

Lemma motor_entries : forallb motor_entry Can_Database = true.
Proof. vm_compute. reflexivity. Qed.

Lemma byte_eq v i : 0 <= i -> byte v i = (v / 256 ^ i) mod 256.
Proof.
  intros Hi. unfold byte. change 255 with (Z.ones 8). rewrite Z.land_ones by lia.
  rewrite Z.shiftr_div_pow2 by lia. change (2 ^ 8) with 256. by rewrite <- (Z.pow_mul_r 2 8).
Qed.

Lemma of_bytes_le32 v : 0 <= v < 2 ^ 32 -> of_bytes (le32 v) = v.
Proof. intros Hv. unfold le32, of_bytes. rewrite !byte_eq by lia. simpl. Z.to_euclidean_division_equations. lia. Qed.

Lemma of_bytes_le16 v : - 2 ^ 15 <= v < 2 ^ 15 -> s16 (of_bytes (le16 v)) = v.
Proof.
  intros Hv. unfold le16, of_bytes. rewrite !byte_eq by lia. simpl. unfold s16.
  Z.to_euclidean_division_equations. lia.
Qed.

Lemma fits_byte x v : x <> "Img_Cbuf.w_index" -> 0 <= v -> fits x v.
Proof.
  intros Hx Hv. unfold fits. rewrite decide_False by done. case_decide; [|done]. apply Is_true_true, Z.leb_le, Hv.
Qed.

Lemma W_MOTOR_OLD_sends can_busy s i e rot speed cmd :
  io_ok s -> Can_Database !! i = Some e ->
  0 <= rot < 2 ^ 32 -> - 2 ^ 15 <= speed < 2 ^ 15 -> 0 <= cmd < 128 ->
  wp (W_MOTOR_OLD_FUNC can_busy (Data_ID e) rot speed cmd) (fun _ s' =>
    if decide (W_MOTOR1_OLD_ID <= Data_ID e <= W_MOTOR8_OLD_ID) then io_ok s' /\ exists data,
      sent_frame can_busy (Channel e) (mk_tx (Data_ID e) 8 data) (log s) (log s') /\ length data = 8%nat /\
      of_bytes (take 4 data) = rot /\ s16 (of_bytes (take 2 (drop 4 data))) = speed /\
      data !! 7%nat = Some cmd /\
      (forall x, x <> Data_ptr e -> globals s' !! x = globals s !! x)
    else s' = s) s.
Proof.
  intros Hok He Hrot Hspeed Hcmd. unfold W_MOTOR_OLD_FUNC.
  destruct (decide (W_MOTOR1_OLD_ID <= Data_ID e <= W_MOTOR8_OLD_ID)) as [Hr|Hr].
  2: { replace (_ || _) with true; [by apply wp_ret|]. symmetry. apply orb_true_iff. lia. }
  replace (_ || _) with false; [|symmetry; apply orb_false_iff; lia].
  pose proof (list_elem_of_lookup_2 _ _ _ He) as Hin. destruct (entry_var e Hin) as (n & Hn & Hl & Hfix & Hw).
  pose proof motor_entries as H. rewrite forallb_forall in H. specialize (H e). rewrite <- list_elem_of_In in H.
  specialize (H Hin). unfold motor_entry in H.
  rewrite (proj2 (Z.leb_le _ _) (proj1 Hr)), (proj2 (Z.leb_le _ _) (proj2 Hr)) in H. simpl in H.
  rewrite andb_true_iff, Z.eqb_eq, bool_decide_eq_true in H. destruct H as [Hlen Hn8].
  destruct (proj2 Hok _ _ Hn8) as (a & Ha & Hal & _).
  do 8 (destruct a as [|? a]; [simpl in Hal; lia|]). destruct a; [|simpl in Hal; lia]. clear Hal.
  pose proof (proj1 Hok) as Hh.
  set (put := fun b => put_array (Data_ptr e) b s).
  assert (forall b, hash_ready (put b)) as Hhp by (intros b; by apply hash_ready_put).
  assert (forall b, has (put b) (Data_ptr e) b) as Hp by (intros b; apply has_put; by left).
  wp_step. eapply wp_intro; [eapply set_data_range_eq; [done|exact He|done|exact Ha|lia|simpl; lia|done]|].
  wp_step. eapply wp_intro; [eapply set_data_range_eq; [apply Hhp|exact He|done|apply Hp|lia|simpl; lia|done]|].
  wp_step. unfold put. rewrite put_put.
  eapply wp_intro; [eapply set_data_eq; [apply Hhp|exact He|apply Hp|simpl; lia]|].
  wp_step. unfold put. rewrite put_put.
  eapply wp_intro; [eapply set_data_eq; [apply Hhp|exact He|apply Hp|simpl; lia]|].
  unfold put. rewrite put_put. rewrite u8_small by lia.
  wp_use (Write_Database_frame can_busy _ i e); [apply Hhp|done|apply Hp|simpl; lia|].
  intros _ s' [Hg Hsent]. unfold frame_of in Hsent. rewrite Hlen in Hsent.
  split.
  { match type of Hg with _ = globals ?p => assert (io_ok p) as Hok';
      [|unfold io_ok, hash_ready, has; rewrite Hg; exact Hok'] end.
    eapply ok_put; [done|exact Hn8|done|done|]. apply Forall_forall. intros v Hv. apply fits_byte; [done|].
    revert v Hv. apply Forall_forall. unfold le32, le16, byte, CURRENT_ROBOT, G1M. simpl.
    repeat (constructor; [first [lia|by apply Z.land_nonneg; right; lia]|]). constructor. }
  eexists. split; [exact Hsent|]. simpl. split_and!; try done.
  - by apply of_bytes_le32.
  - by apply of_bytes_le16.
  - intros x Hx. rewrite Hg. unfold put, put_array. simpl. by rewrite lookup_insert_ne.
Qed.

(** W_MOTOR_OLD_FUNC, and with it Moto_Stop and the other commands of motor.c, sends
    one frame of eight bytes from which the motor controller reads back the position,
    the speed and the command; an identifier of another device sends nothing. *)
Theorem W_MOTOR_OLD_roundtrip can_busy s i e rot speed cmd :
  io_ok s -> Can_Database !! i = Some e ->
  0 <= rot < 2 ^ 32 -> - 2 ^ 15 <= speed < 2 ^ 15 -> 0 <= cmd < 128 ->
  wp (W_MOTOR_OLD_FUNC can_busy (Data_ID e) rot speed cmd) (fun _ s' =>
    if decide (W_MOTOR1_OLD_ID <= Data_ID e <= W_MOTOR8_OLD_ID) then exists data,
      sent_frame can_busy (Channel e) (mk_tx (Data_ID e) 8 data) (log s) (log s') /\ length data = 8%nat /\
      of_bytes (take 4 data) = rot /\ s16 (of_bytes (take 2 (drop 4 data))) = speed /\
      data !! 7%nat = Some cmd /\
      (forall x, x <> Data_ptr e -> globals s' !! x = globals s !! x)
    else s' = s) s.
Proof.
  intros Hok He H1 H2 H3. eapply wp_mono; [by apply (W_MOTOR_OLD_sends can_busy s i e)|]. cbv beta.
  intros _ s'. by destruct (decide _) as [_|_]; [intros [_ H]|].
Qed.

(** ** Relays *)

Definition relay_op can_busy (on : bool) (port : Z) : M io unit :=
  if on then Relay_Set can_busy port else Relay_Clear can_busy port.

(** The board and the number of a relay on it *)
Definition relay_entry (port : Z) : Can_Data :=
  if port <? 17 then mk_can READ_ONLY W_RELAY1_ID "MOSI_RELAY1_DATA" 1 None 2 CAN_Filter_FIFO0
  else mk_can READ_ONLY W_RELAY2_ID "MOSI_RELAY2_DATA" 1 None 2 CAN_Filter_FIFO1.

Definition relay_byte (on : bool) (port : Z) : Z :=
  (if port <? 17 then port - 1 else port - 17) + (if on then 128 else 0).

Lemma relay_entry_index port : exists i, Can_Database !! i = Some (relay_entry port).
Proof.
  unfold relay_entry. destruct (port <? 17);
    [exists (Z.to_nat (index_of W_RELAY1_ID))|exists (Z.to_nat (index_of W_RELAY2_ID))]; vm_compute; reflexivity.
Qed.

Lemma lor_128 x : 0 <= x < 16 -> u8 (Z.lor x 0x80) = x + 128.
Proof.
  intros Hx. assert (x ∈ seqZ 0 16) as Hin by (apply elem_of_seqZ; lia).
  assert (forallb (fun x => u8 (Z.lor x 0x80) =? x + 128) (seqZ 0 16) = true) as H by reflexivity.
  rewrite forallb_forall in H. apply Z.eqb_eq, H. by apply list_elem_of_In.
Qed.

(** The command to the relay board: what both functions do first *)
Lemma relay_send can_busy on port s (rest : M io unit) (Phi : unit -> io -> Prop) :
  io_ok s -> 1 <= port <= 32 ->
  (forall s', io_ok s' ->
     (forall x, x <> Data_ptr (relay_entry port) -> globals s' !! x = globals s !! x) ->
     sent_frame can_busy 2 (mk_tx (Data_ID (relay_entry port)) 1 [relay_byte on port]) (log s) (log s') ->
     wp rest Phi s') ->
  wp ((if (port >? 0) && (port <? 17) then
         store "MOSI_RELAY1_DATA" 0 (u8 (if on then Z.lor (port - 1) 0x80 else port - 1)) ;!
         Write_Database can_busy W_RELAY1_ID
       else if (port >? 16) && (port <? 33) then
         store "MOSI_RELAY2_DATA" 0 (u8 (if on then Z.lor (port - 17) 0x80 else port - 17)) ;!
         Write_Database can_busy W_RELAY2_ID
       else ret tt) ;! rest) Phi s.
Proof.
  intros Hok Hport HP.
  assert (wp (store (Data_ptr (relay_entry port)) 0 (relay_byte on port) ;!
              Write_Database can_busy (Data_ID (relay_entry port))) (fun _ s' => wp rest Phi s') s) as H.
  { destruct (relay_entry_index port) as [i Hi].
    assert (var_len (Data_ptr (relay_entry port)) = Some 1) as Hn by (unfold relay_entry; by destruct (port <? 17)).
    assert (fixed (Data_ptr (relay_entry port)) = false) as Hfix by (unfold relay_entry; by destruct (port <? 17)).
    assert (Data_length (relay_entry port) = 1) as Hl by (unfold relay_entry; by destruct (port <? 17)).
    assert (Channel (relay_entry port) = 2) as Hch by (unfold relay_entry; by destruct (port <? 17)).
    destruct (proj2 Hok _ _ Hn) as (a & Ha & Hal & _). destruct a as [|b [|]]; [done| |simpl in Hal; lia].
    wp_step. eapply wp_store; [exact Ha|simpl; lia|]. simpl.
    set (s1 := put_array _ _ s).
    assert (io_ok s1) as Hok1.
    { eapply ok_put; [done|exact Hn|done|done|]. constructor; [|constructor].
      unfold relay_entry. destruct (port <? 17); exact I. }
    wp_use (Write_Database_frame can_busy s1 i _ [relay_byte on port]);
      [apply Hok1|exact Hi|apply has_put; by left|simpl; lia|].
    intros _ s' [Hg Hsent]. unfold frame_of in Hsent. rewrite Hl, Hch in Hsent. apply HP; [| |exact Hsent].
    - unfold io_ok, hash_ready, has. rewrite Hg. exact Hok1.
    - intros x Hx. rewrite Hg. unfold s1, put_array. simpl. by rewrite lookup_insert_ne. }
  apply wp_bind. revert H. unfold relay_entry, relay_byte. destruct (Z.ltb_spec port 17) as [H17|H17]; simpl.
  - rewrite (proj2 (Z.gtb_lt port 0)) by lia. simpl.
    destruct on; [by rewrite lor_128 by lia|by rewrite u8_small, Z.add_0_r by lia].
  - rewrite andb_false_r, (proj2 (Z.gtb_lt port 16)), (proj2 (Z.ltb_lt port 33)) by lia. simpl.
    destruct on; [by rewrite lor_128 by lia|by rewrite u8_small, Z.add_0_r by lia].
Qed.

Definition relay_bit (v port : Z) : Z := Z.land (Z.shiftr v (port - 1)) 1.

Lemma relay_bit_testbit v q : 1 <= q -> relay_bit v q = Z.b2z (Z.testbit v (q - 1)).
Proof.
  intros Hq. unfold relay_bit. change 1 with (Z.ones 1) at 2.
  rewrite Z.land_ones, Z.shiftr_div_pow2, Z.testbit_spec' by lia. done.
Qed.

Definition relay_value (on : bool) (port v : Z) : Z :=
  if on then Z.lor v (RELAY_NUM port) else Z.land v (u32 (Z.lnot (RELAY_NUM port))).

Lemma relay_value_bit on port v q : 1 <= port <= 32 -> 1 <= q <= 32 ->
  relay_bit (relay_value on port v) q = if decide (q = port) then Z.b2z on else relay_bit v q.
Proof.
  intros Hp Hq. rewrite !relay_bit_testbit by lia.
  assert (RELAY_NUM port = 2 ^ (port - 1)) as E.
  { unfold RELAY_NUM. rewrite Z.shiftl_1_l. apply Z.mod_small. split; [lia|]. apply Z.pow_lt_mono_r; lia. }
  assert (Z.testbit (RELAY_NUM port) (q - 1) = bool_decide (q = port)) as Eb.
  { rewrite E, Z.pow2_bits_eqb by lia. case_bool_decide; [subst; apply Z.eqb_refl|apply Z.eqb_neq; lia]. }
  unfold relay_value. destruct on.
  - rewrite Z.lor_spec, Eb. case_decide; [rewrite bool_decide_true by done; by rewrite orb_true_r|].
    by rewrite bool_decide_false, orb_false_r.
  - rewrite Z.land_spec. unfold u32. rewrite Z.mod_pow2_bits_low, Z.lnot_spec, Eb by lia.
    case_decide; [rewrite bool_decide_true by done; by rewrite andb_false_r|].
    by rewrite bool_decide_false, andb_true_r.
Qed.

(** Relay_Set and Relay_Clear send one byte to the board of the relay, its number
    with the top bit for on, and RELAY_VALUE then reads that state for this relay
    and the old one for every other. *)
Theorem relay_op_spec can_busy on port s v :
  io_ok s -> 1 <= port <= 32 -> has s "RELAY_VALUE" [v] ->
  wp (relay_op can_busy on port) (fun _ s' => io_ok s' /\
    sent_frame can_busy 2 (mk_tx (Data_ID (relay_entry port)) 1 [relay_byte on port]) (log s) (log s') /\
    forall q, 1 <= q <= 32 ->
      wp (relay_attain q) (fun r s'' => s'' = s' /\
        r = if decide (q = port) then Z.b2z on else relay_bit v q) s') s.
Proof.
  intros Hok Hport Hv.
  assert (wp (relay_op can_busy on port) (fun _ s' => io_ok s' /\
    sent_frame can_busy 2 (mk_tx (Data_ID (relay_entry port)) 1 [relay_byte on port]) (log s) (log s') /\
    has s' "RELAY_VALUE" [relay_value on port v]) s) as H.
  { assert (forall s', io_ok s' ->
     (forall x, x <> Data_ptr (relay_entry port) -> globals s' !! x = globals s !! x) ->
     sent_frame can_busy 2 (mk_tx (Data_ID (relay_entry port)) 1 [relay_byte on port]) (log s) (log s') ->
     wp (let! v := load "RELAY_VALUE" 0 in store "RELAY_VALUE" 0 (relay_value on port v))
       (fun _ s'' => io_ok s'' /\ sent_frame can_busy 2 (mk_tx (Data_ID (relay_entry port)) 1 [relay_byte on port])
         (log s) (log s'') /\ has s'' "RELAY_VALUE" [relay_value on port v]) s') as Hrest.
    { intros s' Hok' Hg Hsent. assert (has s' "RELAY_VALUE" [v]) as Hv'.
      { unfold has. rewrite Hg; [done|]. unfold relay_entry. by destruct (port <? 17). }
      wp_step. eapply wp_load; [exact Hv'|lia|done|]. eapply wp_store; [exact Hv'|simpl; lia|]. simpl.
      split_and!; [|done|apply has_put; by left].
      eapply ok_put; [done|reflexivity|done|done|]. by repeat constructor. }
    destruct on; [exact (relay_send can_busy true port s _ _ Hok Hport Hrest)|
      exact (relay_send can_busy false port s _ _ Hok Hport Hrest)]. }
  eapply wp_mono; [exact H|]. cbv beta. intros _ s' (Hok' & Hsent & Hv'). split_and!; [done|done|].
  intros q Hq. unfold relay_attain. wp_step. eapply wp_load; [exact Hv'|lia|done|]. apply wp_ret. split; [done|].
  by apply relay_value_bit.
Qed.
