(* ===== verification/Lcd.v ===== *)
(** Text on the display and numbers from the keyboard (UserDevices/lcd_keyboard.c,
    GeneralFunctions/mystring.c, Thread/t_lcd_refresh.h).

    LCD_Table is the 8 rows of 20 columns the refresh thread sends to the display,
    LCD_Index, a byte, the place of the next character.  A char is its code. *)

From Stdlib Require Import Ascii String.
From S2P Require Import Prelude CanData.

Open Scope Z_scope.

(** * Operations *)

Definition LCD_LEN : Z := 160.

Definition chars (s : string) : list Z := (fun c => Z.of_nat (nat_of_ascii c)) <$> list_ascii_of_string s.

(** LCD_SetXY *)
Definition LCD_SetXY (x_index y_index : Z) : M io unit := store "LCD_Index" 0 (u8 (y_index * 20 + x_index)).

(** LCD_Clear *)
Definition LCD_Clear : M io unit := for_range (Z.to_nat LCD_LEN) 0 (fun i => store "LCD_Table" i 32).

(** LCD_WriteChar *)
Definition LCD_WriteChar (ch : Z) : M io unit :=
  let! i := load "LCD_Index" 0 in
  store "LCD_Table" i ch ;!
  store "LCD_Index" 0 (u8 (i + 1)).

(** LCD_WriteString; the characters before the terminating zero *)
Fixpoint LCD_WriteString (str : list Z) : M io unit :=
  match str with
  | [] => ret tt
  | ch :: str => LCD_WriteChar ch ;! LCD_WriteString str
  end.

(** The loop of Int2Str from the divisor [i]; it returns [ptr] as an index into
    DataConvBuff. *)
Fixpoint int2str_loop (fuel : nat) (i : Z) (flag : bool) (ptr IntData : Z) : M io Z :=
  match fuel with
  | O => fail OutOfFuel
  | S fuel =>
      if i >? 0 then
        let d := Z.quot IntData i in
        if negb (d =? 0) || flag then
          store "DataConvBuff" ptr (u8 (d + 0x30)) ;!
          int2str_loop fuel (Z.quot i 10) true (ptr + 1) (s32 (IntData - d * i))
        else int2str_loop fuel (Z.quot i 10) flag ptr IntData
      else ret ptr
  end.

(** Int2Str; the string is in DataConvBuff. *)
Definition Int2Str (IntData : Z) : M io unit :=
  if IntData =? 0 then
    store "DataConvBuff" 0 0x30 ;!
    store "DataConvBuff" 1 0
  else
    let negative := IntData <? 0 in
    (if negative then store "DataConvBuff" 0 45 else ret tt) ;!
    let! ptr := int2str_loop 11 1000000000 false (if negative then 1 else 0)
                  (if negative then s32 (IntData * -1) else IntData) in
    store "DataConvBuff" ptr 0.

(** The C string in an array: the elements before the first zero. *)
Fixpoint until_zero (a : list Z) : option (list Z) :=
  match a with
  | [] => None
  | c :: a => if c =? 0 then Some [] else (cons c) <$> until_zero a
  end.

(** LCD_WriteInt *)
Definition LCD_WriteInt (val : Z) : M io unit :=
  Int2Str val ;!
  let! s := get in
  let! a := of_option BadPointer (globals s !! "DataConvBuff"%string) in
  let! str := of_option BadPointer (until_zero a) in
  LCD_WriteString str.

(** The digit a key enters, in Input_IntValue *)
Definition key_digit (key : Z) : option Z :=
  match key with
  | 1 => Some 1 | 2 => Some 2 | 3 => Some 3 | 4 => Some 4
  | 7 => Some 5 | 8 => Some 6 | 9 => Some 7 | 10 => Some 8
  | 13 => Some 9 | 14 => Some 0
  | _ => None
  end.

(** [temp] after the loop over the digits *)
Definition digits_value (digits : list Z) : Z :=
  fold_left (fun temp c => s32 (s32 (temp * 10 + c) - 48)) digits 0.

(** One key in Input_IntValue: the sign and the digits typed so far, or the end. *)
Inductive input_entry : Type :=
| Typing (sign : Z) (digits : list Z)
| Entered (v : Z)
| Cancelled.

Definition input_key (sign : Z) (digits : list Z) (key : Z) : input_entry :=
  match key_digit key with
  | Some d => Typing sign (if (length digits <? 13)%nat then digits ++ [48 + d] else digits)
  | None =>
      if key =? 16 then Typing (if sign =? 32 then 45 else 32) digits
      else if key =? 17 then Typing sign (take (length digits - 1) digits)
      else if key =? 18 then
        let temp := digits_value digits in
        Entered (if sign =? 45 then s32 (- temp) else temp)
      else if key =? 5 then Cancelled
      else Typing sign digits
  end.

(** What one round of the loop draws *)
Definition input_screen (name : list Z) (old : Z) (sign : Z) (digits : list Z) : M io unit :=
  LCD_Clear ;!
  LCD_SetXY 0 0 ;! LCD_WriteString name ;!
  LCD_SetXY 0 1 ;! LCD_WriteString (chars "old:") ;! LCD_WriteInt old ;!
  LCD_SetXY 0 2 ;! LCD_WriteString (chars "new:") ;! LCD_WriteString (sign :: digits) ;!
  (if (length digits =? 0)%nat then LCD_SetXY 5 2 ;! LCD_WriteString (chars "Value=0!!!") else ret tt) ;!
  emit (Delay 5).

(** Input_IntValue on the variable [address]; [keys] is what rt_mb_recv answers in
    each round, [None] for no key.  The result is whether the function returned
    before the keys were used up. *)
Fixpoint input_loop (address : string) (name : list Z) (keys : list (option Z)) (sign : Z) (digits : list Z)
    : M io bool :=
  match keys with
  | [] => ret false
  | k :: keys =>
      let! old := load address 0 in
      input_screen name old sign digits ;!
      match k with
      | None => input_loop address name keys sign digits
      | Some key =>
          match input_key sign digits key with
          | Typing sign digits => input_loop address name keys sign digits
          | Entered v => store address 0 v ;! ret true
          | Cancelled => ret true
          end
      end
  end.

Definition Input_IntValue (address : string) (name : list Z) (keys : list (option Z)) : M io bool :=
  input_loop address name keys 32 [].

(** * The display *)

Section display.
Implicit Types (s : io) (t str : list Z).

(** [s] with the text [t] and the index [i] *)
Definition lcd t (i : Z) s : io := put_array "LCD_Index" [i] (put_array "LCD_Table" t s).

Lemma put_comm s x y a b : x <> y -> put_array x a (put_array y b s) = put_array y b (put_array x a s).
Proof. intros Hne. unfold put_array, set_globals. simpl. by rewrite insert_insert_ne. Qed.

Lemma put_same s x a : has s x a -> put_array x a s = s.
Proof. intros H. unfold put_array. rewrite insert_id by done. by destruct s. Qed.

Lemma lcd_same s t i : has s "LCD_Table" t -> has s "LCD_Index" [i] -> lcd t i s = s.
Proof. intros Ht Hi. unfold lcd. rewrite (put_same s "LCD_Table" t Ht). by apply put_same. Qed.

Lemma lcd_index t i j s : put_array "LCD_Index" [j] (lcd t i s) = lcd t j s.
Proof. apply put_put. Qed.

Lemma lcd_table t t' i s : put_array "LCD_Table" t' (lcd t i s) = lcd t' i s.
Proof. unfold lcd. rewrite (put_comm _ "LCD_Table" "LCD_Index") by done. by rewrite put_put. Qed.

Lemma has_lcd_table t i s : has (lcd t i s) "LCD_Table" t.
Proof. unfold lcd. apply has_put. right. split; [done|]. apply has_put. by left. Qed.

Lemma has_lcd_index t i s : has (lcd t i s) "LCD_Index" [i].
Proof. apply has_put. by left. Qed.

Lemma has_lcd_other t i s x a : x <> "LCD_Table"%string -> x <> "LCD_Index"%string ->
  has (lcd t i s) x a <-> has s x a.
Proof. intros H1 H2. unfold lcd. rewrite !has_put. naive_solver. Qed.

Lemma LCD_SetXY_spec x y t i s (Phi : unit -> io -> Prop) :
  0 <= y * 20 + x < 256 -> Phi tt (lcd t (y * 20 + x) s) -> wp (LCD_SetXY x y) Phi (lcd t i s).
Proof.
  intros Hr HP. unfold LCD_SetXY. eapply wp_store; [apply has_lcd_index|simpl; lia|].
  simpl. by rewrite u8_small, lcd_index by lia.
Qed.

Lemma LCD_WriteChar_spec c t i s (Phi : unit -> io -> Prop) :
  0 <= i < Z.of_nat (length t) -> i < 255 -> Phi tt (lcd (<[Z.to_nat i := c]> t) (i + 1) s) ->
  wp (LCD_WriteChar c) Phi (lcd t i s).
Proof.
  intros Hi Hb HP. unfold LCD_WriteChar. wp_step. eapply wp_load; [apply has_lcd_index|lia|done|].
  wp_step. eapply wp_store; [apply has_lcd_table|lia|]. rewrite lcd_table.
  eapply wp_store; [apply has_lcd_index|simpl; lia|]. simpl. by rewrite u8_small, lcd_index by lia.
Qed.

Lemma LCD_WriteString_spec str : forall t i s (Phi : unit -> io -> Prop),
  0 <= i -> i + Z.of_nat (length str) <= Z.of_nat (length t) -> Z.of_nat (length t) <= 255 ->
  Phi tt (lcd (list_inserts (Z.to_nat i) str t) (i + Z.of_nat (length str)) s) ->
  wp (LCD_WriteString str) Phi (lcd t i s).
Proof.
  induction str as [|c str IH]; intros t i s Phi Hi Hl Hb HP; simpl in *.
  - apply wp_ret. by rewrite Z.add_0_r in HP.
  - wp_step. apply LCD_WriteChar_spec; [lia|lia|]. apply IH; [lia|rewrite length_insert; lia|by rewrite length_insert|].
    replace (Z.to_nat (i + 1)) with (S (Z.to_nat i)) by lia. rewrite <- list_insert_inserts_lt by lia.
    by replace (i + 1 + Z.of_nat (length str)) with (i + Z.of_nat (S (length str))) by lia.
Qed.

Lemma LCD_Clear_spec t i s (Phi : unit -> io -> Prop) :
  length t = 160%nat -> Phi tt (lcd (replicate 160 32) i s) -> wp LCD_Clear Phi (lcd t i s).
Proof.
  intros Hl HP. unfold LCD_Clear. wp_use (fill_spec (lcd t i s) "LCD_Table" 32 t); [apply has_lcd_table|done|].
  intros [] s' ->. by rewrite lcd_table.
Qed.
End display.

(** * Numbers as text *)

Section decimal.
Implicit Types (s : io) (ds : list Z).

Definition is_digit (c : Z) : Prop := 48 <= c <= 57.

(** The number a text of digits stands for *)
Definition value ds : Z := fold_left (fun n c => n * 10 + (c - 48)) ds 0.

Lemma value_from ds : forall n,
  fold_left (fun n c => n * 10 + (c - 48)) ds n = n * 10 ^ Z.of_nat (length ds) + value ds.
Proof.
  unfold value. induction ds as [|c ds IH]; intros n; cbn [fold_left length]; [simpl; lia|].
  rewrite IH, (IH (0 * 10 + (c - 48))). rewrite Nat2Z.inj_succ, Z.pow_succ_r by lia. lia.
Qed.

Lemma value_cons c ds : value (c :: ds) = (c - 48) * 10 ^ Z.of_nat (length ds) + value ds.
Proof. unfold value at 1. cbn [fold_left]. rewrite value_from. lia. Qed.

Lemma value_nonneg ds : Forall is_digit ds -> 0 <= value ds.
Proof.
  induction 1 as [|c ds Hc _ IH]; [done|]. rewrite value_cons. unfold is_digit in Hc.
  assert (0 <= (c - 48) * 10 ^ Z.of_nat (length ds)) by (apply Z.mul_nonneg_nonneg; lia). lia.
Qed.

Lemma value_lt ds : Forall is_digit ds -> value ds < 10 ^ Z.of_nat (length ds).
Proof.
  induction 1 as [|c ds Hc _ IH]; [done|]. rewrite value_cons. cbn [length].
  rewrite Nat2Z.inj_succ, Z.pow_succ_r by lia. unfold is_digit in Hc. nia.
Qed.

(** The divisor when [n] digits are left *)
Definition divisor (n : nat) : Z := match n with O => 0 | S n => 10 ^ Z.of_nat n end.

Lemma divisor_quot n : Z.quot (10 ^ Z.of_nat n) 10 = divisor n.
Proof.
  destruct n as [|n]; [done|]. simpl divisor. rewrite Nat2Z.inj_succ, Z.pow_succ_r by lia.
  rewrite Z.mul_comm. by apply Z.quot_mul.
Qed.

(** The first digit of [v] and the rest *)
Lemma first_digit n v : 0 <= v < 10 ^ Z.of_nat (S n) ->
  let d := Z.quot v (10 ^ Z.of_nat n) in
  0 <= d <= 9 /\ 0 <= v - d * 10 ^ Z.of_nat n < 10 ^ Z.of_nat n.
Proof.
  intros Hv. assert (0 < 10 ^ Z.of_nat n) as Hp by lia. rewrite Nat2Z.inj_succ, Z.pow_succ_r in Hv by lia.
  rewrite Z.quot_div_nonneg by lia. pose proof (Z.mod_pos_bound v _ Hp). pose proof (Z.div_mod v (10 ^ Z.of_nat n)).
  pose proof (Z.div_pos v (10 ^ Z.of_nat n)). pose proof (Z.div_lt_upper_bound v (10 ^ Z.of_nat n) 10). simpl. lia.
Qed.

Lemma int2str_digits n : forall fuel ptr v a s, (n < fuel)%nat -> 0 <= v < 10 ^ Z.of_nat n -> v < 2 ^ 31 ->
  0 <= ptr -> ptr + Z.of_nat n <= Z.of_nat (length a) -> has s "DataConvBuff" a ->
  wp (int2str_loop fuel (divisor n) true ptr v) (fun r s' => exists ds, length ds = n /\
    Forall is_digit ds /\ value ds = v /\ r = ptr + Z.of_nat n /\
    s' = put_array "DataConvBuff" (list_inserts (Z.to_nat ptr) ds a) s) s.
Proof.
  induction n as [|n IH]; intros fuel ptr v a s Hf Hv Hw Hptr Hl Ha; (destruct fuel as [|fuel]; [lia|]); cbn [int2str_loop].
  - simpl. apply wp_ret. exists []. simpl in Hv. split_and!; [done|constructor|unfold value; simpl; lia|lia|].
    simpl. unfold put_array. rewrite insert_id by done. by destruct s.
  - cbn [divisor]. rewrite (proj2 (Z.gtb_lt _ 0)), orb_true_r by lia.
    destruct (first_digit n v Hv) as [Hd Hr]. set (d := Z.quot v _) in *. rewrite divisor_quot.
    rewrite u8_small, s32_small by lia. wp_step. eapply wp_store; [exact Ha|lia|].
    eapply wp_mono; [apply (IH _ _ _ (<[Z.to_nat ptr := d + 48]> a)); try lia|].
    + rewrite length_insert. lia.
    + apply has_put. by left.
    + cbv beta. intros r s' (ds & Hlen & Hds & Hval & -> & ->). exists (d + 48 :: ds). split_and!.
      * simpl. lia.
      * constructor; [unfold is_digit; lia|done].
      * rewrite value_cons, Hlen, Hval. lia.
      * lia.
      * rewrite put_put. replace (Z.to_nat (ptr + 1)) with (S (Z.to_nat ptr)) by lia. simpl.
        by rewrite list_insert_inserts_lt by lia.
Qed.

(** Leading zeros are skipped. *)
Lemma int2str_leading n : forall fuel ptr v a s, (n < fuel)%nat -> 0 < v < 10 ^ Z.of_nat n -> v < 2 ^ 31 ->
  0 <= ptr -> ptr + Z.of_nat n <= Z.of_nat (length a) -> has s "DataConvBuff" a ->
  wp (int2str_loop fuel (divisor n) false ptr v) (fun r s' => exists ds, (0 < length ds <= n)%nat /\
    Forall is_digit ds /\ value ds = v /\ hd_error ds <> Some 48 /\ r = ptr + Z.of_nat (length ds) /\
    s' = put_array "DataConvBuff" (list_inserts (Z.to_nat ptr) ds a) s) s.
Proof.
  induction n as [|n IH]; intros fuel ptr v a s Hf Hv Hw Hptr Hl Ha; [simpl in Hv; lia|].
  destruct (first_digit n v ltac:(lia)) as [Hd Hr].
  destruct (decide (Z.quot v (10 ^ Z.of_nat n) = 0)) as [E|E].
  - destruct fuel as [|fuel]; [lia|]. cbn [int2str_loop divisor]. rewrite (proj2 (Z.gtb_lt _ 0)), E, divisor_quot by lia.
    simpl. rewrite E in Hr. eapply wp_mono; [apply (IH fuel ptr v a s); (done || lia)|]. cbv beta.
    intros r s' (ds & Hlen & H). exists ds. split; [lia|done].
  - assert (int2str_loop fuel (divisor (S n)) false ptr v = int2str_loop fuel (divisor (S n)) true ptr v) as ->.
    { destruct fuel as [|fuel]; [done|]. cbn [int2str_loop divisor]. by rewrite (proj2 (Z.eqb_neq _ _) E), orb_true_r. }
    eapply wp_mono; [apply (int2str_digits (S n) fuel ptr v a s); (done || lia)|]. cbv beta.
    intros r s' (ds & Hlen & Hds & Hval & -> & ->). exists ds. rewrite Hlen. split_and!; try done; try lia.
    destruct ds as [|c ds]; [done|]. intros [= ->]. rewrite value_cons in Hval. simpl in Hlen.
    injection Hlen as Hlen. rewrite Z.sub_diag, Z.mul_0_l, Z.add_0_l in Hval.
    apply E. apply Z.quot_small. split; [lia|]. rewrite <- Hval.
    apply Forall_cons in Hds as [_ Hds]. rewrite <- Hlen. by apply value_lt.
Qed.

Lemma until_zero_string str a : Forall (fun c => c <> 0) str -> (length str < length a)%nat ->
  until_zero (list_inserts 0 (str ++ [0]) a) = Some str.
Proof.
  intros Hs Hl. assert (length (str ++ [0]) = length (take (S (length str)) a)) as Hlen.
  { rewrite length_app, length_take. cbn [length]. lia. }
  rewrite <- (take_drop (S (length str)) a), list_inserts_0_r by done. clear Hlen Hl.
  generalize (drop (S (length str)) a) as rest. intros rest. induction Hs as [|c str Hc _ IH]; [done|]. cbn [app until_zero]. rewrite (proj2 (Z.eqb_neq _ _) Hc).
  rewrite <- app_assoc in *. cbn [app length] in *. by rewrite IH.
Qed.

(** The text for [v] *)
Definition shows (v : Z) (str : list Z) : Prop :=
  exists ds, str = (if v <? 0 then 45 :: ds else ds) /\ Forall is_digit ds /\ value ds = Z.abs v /\
    (0 < length ds <= 10)%nat /\ (ds = [48] \/ hd_error ds <> Some 48).

Lemma shows_string v str : shows v str -> Forall (fun c => c <> 0) str /\ (length str <= 11)%nat.
Proof.
  intros (ds & -> & Hds & _ & Hl & _). assert (Forall (fun c => c <> 0) ds).
  { eapply Forall_impl; [exact Hds|]. unfold is_digit. lia. }
  destruct (v <? 0); simpl; (split; [|lia]); [by constructor|done].
Qed.

Lemma terminated str a s :
  put_array "DataConvBuff" (<[length str := 0]> (list_inserts 0 str a)) s =
  put_array "DataConvBuff" (list_inserts 0 (str ++ [0]) a) s.
Proof. by rewrite list_inserts_app_l, Nat.add_0_r. Qed.

Lemma Int2Str_text v a s :
  - 2 ^ 31 < v < 2 ^ 31 -> has s "DataConvBuff" a -> length a = 25%nat ->
  wp (Int2Str v) (fun _ s' => exists str, shows v str /\
    s' = put_array "DataConvBuff" (list_inserts 0 (str ++ [0]) a) s) s.
Proof.
  intros Hv Ha Hl. unfold Int2Str. destruct (Z.eqb_spec v 0) as [->|Hne].
  - wp_step. eapply wp_store; [exact Ha|lia|]. eapply wp_store; [apply has_put; by left|rewrite length_insert; lia|].
    exists [48]. split.
    + exists [48]. split_and!; first [done|by left|simpl; lia|constructor; [unfold is_digit; lia|constructor]].
    + rewrite put_put. by rewrite <- terminated.
  - change 1000000000 with (divisor 10). wp_step. destruct (Z.ltb_spec v 0) as [Hneg|Hpos].
    + rewrite s32_small by lia. eapply wp_store; [exact Ha|lia|]. wp_step.
      eapply wp_mono; [apply (int2str_leading 10 11 1 (v * -1) (<[0%nat := 45]> a)); try (simpl; lia);
        [rewrite length_insert; lia|apply has_put; by left]|].
      cbv beta. intros r s' (ds & Hlen & Hds & Hval & Hhd & -> & ->).
      eapply wp_store; [apply has_put; by left|rewrite length_inserts, length_insert; lia|].
      exists (45 :: ds). split.
      * exists ds. rewrite (proj2 (Z.ltb_lt v 0)) by done. split_and!; try done; try lia. by right.
      * rewrite !put_put, <- terminated. cbn [length list_inserts]. 
        assert (<[0%nat := 45]> (list_inserts 1 ds a) = list_inserts 1 ds (<[0%nat := 45]> a)) as ->
          by (apply list_insert_inserts_lt; lia).
        by replace (Z.to_nat (1 + Z.of_nat (length ds))) with (S (length ds)) by lia.
    + apply wp_ret. wp_step. eapply wp_mono; [apply (int2str_leading 10 11 0 v a); try (simpl; lia); done|].
      cbv beta. intros r s' (ds & Hlen & Hds & Hval & Hhd & -> & ->).
      eapply wp_store; [apply has_put; by left|rewrite length_inserts; lia|].
      exists ds. split.
      * exists ds. rewrite (proj2 (Z.ltb_ge v 0)) by done. split_and!; try done; try lia. by right.
      * rewrite !put_put, <- terminated. by rewrite Z.add_0_l, Nat2Z.id.
Qed.
End decimal.

(** * Entering a number *)

Section input.
Implicit Types (s : io) (ds str : list Z) (keys : list (option Z)).

Lemma s32_shift x : exists q, s32 x = x + q * 2 ^ 32.
Proof. exists (- ((x + 2 ^ 31) / 2 ^ 32)). unfold s32. pose proof (Z.div_mod (x + 2 ^ 31) (2 ^ 32)). lia. Qed.

Lemma s32_period x q : s32 (x + q * 2 ^ 32) = s32 x.
Proof. unfold s32. rewrite <- Z.add_assoc, (Z.add_comm (q * 2 ^ 32)), Z.add_assoc. by rewrite Z.mod_add by lia. Qed.

(** 32-bit arithmetic on the digits agrees with exact arithmetic at the end. *)
Lemma digits_value_s32 ds : digits_value ds = s32 (value ds).
Proof.
  unfold digits_value, value. change 0 with (s32 0) at 1. generalize 0 as n.
  induction ds as [|c ds IH]; intros n; cbn [fold_left]; [done|]. rewrite <- IH. f_equal.
  destruct (s32_shift n) as [q1 ->]. destruct (s32_shift ((n + q1 * 2 ^ 32) * 10 + c)) as [q2 ->].
  rewrite <- (s32_period (n * 10 + (c - 48)) (q1 * 10 + q2)). f_equal. lia.
Qed.

(** ** The screen *)

Context (address : string).
Hypothesis address_other : address <> "LCD_Table"%string /\ address <> "LCD_Index"%string /\
  address <> "DataConvBuff"%string.

Record input_state (old : Z) s : Prop := {
  is_lcd : exists t i, has s "LCD_Table" t /\ length t = 160%nat /\ has s "LCD_Index" [i];
  is_buf : exists b, has s "DataConvBuff" b /\ length b = 25%nat;
  is_var : has s address [old] }.

(** [s] with the display and the conversion buffer replaced *)
Definition drawn old s0 s : Prop := exists t i b, length t = 160%nat /\ length b = 25%nat /\
  s = lcd t i (put_array "DataConvBuff" b s0) /\ has s0 address [old].

Lemma drawn_state old s0 s : drawn old s0 s -> input_state old s.
Proof.
  intros (t & i & b & Ht & Hb & -> & Ha). destruct address_other as (H1 & H2 & H3). split.
  - exists t, i. split_and!; [apply has_lcd_table|done|apply has_lcd_index].
  - exists b. split; [|done]. apply has_lcd_other; [done|done|]. apply has_put. by left.
  - apply has_lcd_other; [done|done|]. apply has_put. by right.
Qed.

Lemma input_state_drawn old s : input_state old s -> exists t i b, length t = 160%nat /\ length b = 25%nat /\
  s = lcd t i (put_array "DataConvBuff" b s).
Proof.
  intros [(t & i & Ht & Hl & Hi) (b & Hb & Hbl) _]. exists t, i, b. split_and!; [done|done|].
  rewrite (put_same s "DataConvBuff" b Hb). by rewrite lcd_same.
Qed.

Lemma LCD_WriteInt_spec v t i b s (Phi : unit -> io -> Prop) :
  - 2 ^ 31 < v < 2 ^ 31 -> length t = 160%nat -> length b = 25%nat -> 0 <= i <= 149 ->
  (forall t' i' b', length t' = 160%nat -> length b' = 25%nat ->
     Phi tt (lcd t' i' (put_array "DataConvBuff" b' s))) ->
  wp (LCD_WriteInt v) Phi (lcd t i (put_array "DataConvBuff" b s)).
Proof.
  intros Hv Ht Hb Hi HP. unfold LCD_WriteInt.
  assert (forall b', put_array "DataConvBuff" b' (lcd t i (put_array "DataConvBuff" b s)) =
    lcd t i (put_array "DataConvBuff" b' s)) as Hput.
  { intros b'. unfold lcd. rewrite (put_comm _ "DataConvBuff" "LCD_Index"), (put_comm _ "DataConvBuff" "LCD_Table") by done.
    by rewrite put_put. }
  assert (forall b', has (lcd t i (put_array "DataConvBuff" b' s)) "DataConvBuff" b') as Hhas.
  { intros b'. apply has_lcd_other; [done|done|]. apply has_put. by left. }
  wp_use (Int2Str_text v b); [done|apply Hhas|done|]. intros [] s' (str & Hstr & ->). rewrite Hput.
  destruct (shows_string v str Hstr) as [Hz Hl]. wp_step. apply wp_get.
  wp_step. eapply wp_of_option; [apply Hhas|]. wp_step.
  eapply wp_of_option; [apply until_zero_string; [done|lia]|].
  apply LCD_WriteString_spec; [lia|lia|lia|]. apply HP; by rewrite length_inserts.
Qed.

Lemma input_screen_ok old name sign ds s :
  input_state old s -> - 2 ^ 31 < old < 2 ^ 31 -> (length name <= 160)%nat -> (length ds <= 13)%nat ->
  wp (input_screen name old sign ds) (fun _ s' => input_state old s') s.
Proof.
  intros Hs Hold Hname Hds. destruct (input_state_drawn old s Hs) as (t & i & b & Ht & Hb & E). rewrite E.
  assert (has s address [old]) as Ha by apply Hs.
  unfold input_screen. wp_step. apply LCD_Clear_spec; [done|]. wp_step. apply LCD_SetXY_spec; [lia|].
  wp_step. apply LCD_WriteString_spec; [lia|rewrite length_replicate; lia|rewrite length_replicate; lia|].
  wp_step. apply LCD_SetXY_spec; [lia|].
  set (t1 := list_inserts _ name _). assert (length t1 = 160%nat) as Ht1 by (unfold t1; by rewrite length_inserts).
  wp_step. apply LCD_WriteString_spec; [lia|rewrite Ht1; simpl; lia|lia|].
  wp_step. apply LCD_WriteInt_spec; [done|by rewrite length_inserts|done|simpl; lia|]. intros t2 i2 b2 Ht2 Hb2.
  wp_step. apply LCD_SetXY_spec; [lia|].
  wp_step. apply LCD_WriteString_spec; [lia|rewrite Ht2; simpl; lia|lia|].
  wp_step. apply LCD_WriteString_spec; [lia|rewrite length_inserts, Ht2; simpl; lia|rewrite length_inserts; lia|].
  set (t3 := list_inserts _ (sign :: ds) _).
  assert (length t3 = 160%nat) as Ht3 by (unfold t3; by rewrite !length_inserts).
  assert (forall t i, length t = 160%nat -> wp (emit (Delay 5)) (fun _ s' => input_state old s')
    (lcd t i (put_array "DataConvBuff" b2 s))) as Hend.
  { intros t' i' Ht'. unfold emit. apply wp_modify.
    assert (input_state old (lcd t' i' (put_array "DataConvBuff" b2 s))) as [H1 H2 H3]
      by (eapply (drawn_state old s); exists t', i', b2; done). by split. }
  wp_step. destruct (length ds =? 0)%nat; [|by apply wp_ret, Hend].
  wp_step. apply LCD_SetXY_spec; [lia|]. apply LCD_WriteString_spec; [lia|rewrite Ht3; simpl; lia|lia|].
  apply Hend. by rewrite length_inserts.
Qed.

(** ** The keys *)

(** What a sequence of keys makes of the text, the display apart *)
Fixpoint edit keys (sign : Z) ds : input_entry :=
  match keys with
  | [] => Typing sign ds
  | None :: keys => edit keys sign ds
  | Some key :: keys =>
      match input_key sign ds key with
      | Typing sign ds => edit keys sign ds
      | e => e
      end
  end.

Definition entry_result (old : Z) (e : input_entry) (r : bool) (new : Z) : Prop :=
  match e with
  | Typing _ _ => r = false /\ new = old
  | Entered v => r = true /\ new = v
  | Cancelled => r = true /\ new = old
  end.

Lemma input_key_length sign ds key sign' ds' :
  input_key sign ds key = Typing sign' ds' -> (length ds <= 13)%nat -> (length ds' <= 13)%nat.
Proof.
  unfold input_key. intros H Hl. destruct (key_digit key) as [d|].
  - injection H as <- <-. destruct (Nat.ltb_spec (length ds) 13); [|done]. rewrite length_app. simpl. lia.
  - repeat case_match; simplify_eq; try done. rewrite length_take. lia.
Qed.

Lemma input_loop_spec old name keys : forall sign ds s,
  input_state old s -> - 2 ^ 31 < old < 2 ^ 31 -> (length name <= 160)%nat -> (length ds <= 13)%nat ->
  wp (input_loop address name keys sign ds) (fun r s' => exists new, has s' address [new] /\
    entry_result old (edit keys sign ds) r new) s.
Proof.
  induction keys as [|[key|] keys IH]; intros sign ds s Hs Hold Hname Hds; cbn [input_loop edit].
  - apply wp_ret. exists old. split; [apply Hs|done].
  - wp_step. eapply wp_load; [apply Hs|lia|done|]. wp_use (input_screen_ok old name sign ds); [done..|].
    intros [] s1 Hs1. destruct (input_key sign ds key) as [sign' ds'|v|] eqn:E.
    + apply IH; try done. by eapply input_key_length.
    + wp_step. eapply wp_store; [apply Hs1|simpl; lia|]. apply wp_ret. exists v. split; [|done].
      apply has_put. by left.
    + apply wp_ret. exists old. split; [apply Hs1|done].
  - wp_step. eapply wp_load; [apply Hs|lia|done|]. wp_use (input_screen_ok old name sign ds); [done..|].
    intros [] s1 Hs1. by apply IH.
Qed.

(** The keys to press for a text *)
Definition char_key (c : Z) : Z :=
  if c =? 45 then 16 else
  match c - 48 with
  | 1 => 1 | 2 => 2 | 3 => 3 | 4 => 4 | 5 => 7 | 6 => 8 | 7 => 9 | 8 => 10 | 9 => 13 | _ => 14
  end.

Definition typed str : list Z := (char_key <$> str) ++ [18].

Lemma char_key_digit c : is_digit c -> key_digit (char_key c) = Some (c - 48).
Proof.
  unfold is_digit. intros Hc. assert (c ∈ seqZ 48 10) as Hin by (apply elem_of_seqZ; lia).
  assert (forallb (fun c => bool_decide (key_digit (char_key c) = Some (c - 48))) (seqZ 48 10) = true) as H by reflexivity.
  rewrite forallb_forall in H. eapply bool_decide_eq_true_1, H. by apply list_elem_of_In.
Qed.

Lemma edit_skip keys : forall sign ds, edit keys sign ds = edit (Some <$> omap id keys) sign ds.
Proof.
  induction keys as [|[key|] keys IH]; intros sign ds; simpl; [done| |apply IH].
  destruct (input_key sign ds key); [apply IH|done..].
Qed.

Lemma edit_digits more ds : forall sign ds0, Forall is_digit ds -> (length ds0 + length ds <= 13)%nat ->
  edit (Some <$> ((char_key <$> ds) ++ more)) sign ds0 = edit (Some <$> more) sign (ds0 ++ ds).
Proof.
  induction ds as [|c ds IH]; intros sign ds0 Hd Hl; [by rewrite app_nil_r|].
  apply Forall_cons in Hd as [Hc Hd]. cbn [length] in Hl. cbn [fmap list_fmap app edit].
  unfold input_key. rewrite char_key_digit by done. rewrite (proj2 (Nat.ltb_lt _ _)) by lia.
  replace (48 + (c - 48)) with c by lia. fold (fmap (M := list) (A := Z) (B := option Z)).
  rewrite (IH sign (ds0 ++ [c])); [|done|rewrite length_app; simpl; lia]. by rewrite <- app_assoc.
Qed.

Lemma edit_typed v str : shows v str -> - 2 ^ 31 < v < 2 ^ 31 -> edit (Some <$> typed str) 32 [] = Entered v.
Proof.
  intros (ds & -> & Hds & Hval & Hl & _) Hv. unfold typed. pose proof (digits_value_s32 ds) as Hdv.
  rewrite Hval, s32_small in Hdv by lia. destruct (Z.ltb_spec v 0).
  - change (char_key <$> 45 :: ds) with (16 :: (char_key <$> ds)).
    change (edit (Some <$> (16 :: (char_key <$> ds)) ++ [18]) 32 [])
      with (edit (Some <$> ((char_key <$> ds) ++ [18])) 45 []).
    rewrite edit_digits by (done || (simpl; lia)). simpl. unfold input_key. simpl. rewrite Hdv.
    rewrite s32_small by lia. f_equal. lia.
  - rewrite edit_digits by (done || (simpl; lia)). simpl. unfold input_key. simpl. rewrite Hdv. f_equal. lia.
Qed.

(** C39: Typing the text Int2Str makes of a number and then OK, whatever rounds without a
    key come between, enters that number; the least integer is excluded, for which
    Int2Str makes no number. *)
Theorem Input_IntValue_roundtrip old v name s :
  input_state old s -> - 2 ^ 31 < old < 2 ^ 31 -> - 2 ^ 31 < v < 2 ^ 31 -> (length name <= 160)%nat ->
  wp (Int2Str v) (fun _ s1 => exists b str, has s1 "DataConvBuff" b /\ until_zero b = Some str /\
    forall keys, omap id keys = typed str ->
      wp (Input_IntValue address name keys) (fun r s2 => r = true /\ has s2 address [v]) s1) s.
Proof.
  intros Hs Hold Hv Hname. pose proof Hs as [(t & i & Ht & Htl & Hi) (b & Hb & Hbl) Ha].
  wp_use (Int2Str_text v b s); [done..|]. intros [] s' (str & Hstr & ->).
  destruct (shows_string v str Hstr) as [Hz Hsl]. exists (list_inserts 0 (str ++ [0]) b), str.
  split_and!; [apply has_put; by left|apply until_zero_string; [done|lia]|]. intros keys Hkeys.
  assert (input_state old (put_array "DataConvBuff" (list_inserts 0 (str ++ [0]) b) s)) as Hs'.
  { destruct address_other as (H1 & H2 & H3). split.
    - exists t, i. split_and!; [|done|]; apply has_put; by right.
    - eexists. split; [apply has_put; by left|]. by rewrite length_inserts.
    - apply has_put. by right. }
  unfold Input_IntValue. wp_use (input_loop_spec old name keys 32 []); [done|done|done|simpl; lia|].
  intros r s2 (new & Hnew & Hr). rewrite edit_skip, Hkeys, (edit_typed v str Hstr Hv) in Hr.
  destruct Hr as [-> ->]. done.
Qed.
End input.
