(* ===== verification/Menu.v ===== *)
(** The menus of the robot (menuSys/m_func.c, m_list.c, M_TypeDef.h).

    A menu is an array of M_NUM items.  A pointer to an item is the number of its
    array and an index: CurrentMenu is a variable of two elements.  What a user
    function of a menu does is the parameter [call], by its name. *)

From S2P Require Import Prelude CanData Lcd.

Open Scope string_scope.
Open Scope Z_scope.

(** * The menus *)

Definition M_NUM : Z := 8.

Inductive M_AttribType : Type := M_Empty | M_UFunc | M_SMenu.

(** [Mnode_prev] and [Mnode_next] point to the first item of a menu. *)
Record M_Type : Type := mk_item {
  Name : option string;
  M_Attrib : M_AttribType;
  MenuFunc_ : option string;
  Mnode_prev : option Z;
  Mnode_next : option Z }.

Definition MainMenu : Z := 0.
Definition My_Pro : Z := 1.
Definition M_System : Z := 2.
Definition M_Test : Z := 3.
Definition M_Route : Z := 4.
Definition M_SD : Z := 5.
Definition M_Fxh : Z := 6.
Definition M_Laser : Z := 7.
Definition M_liwenlin : Z := 8.

Definition MainMenu_items : list M_Type := [
  mk_item (Some "1.System") M_SMenu None (Some MainMenu) (Some M_System);
  mk_item (Some "2.Test") M_SMenu None (Some MainMenu) (Some M_Test);
  mk_item (Some "3.Route") M_SMenu None (Some MainMenu) (Some M_Route);
  mk_item (Some "4.SD") M_SMenu None (Some MainMenu) (Some M_SD);
  mk_item (Some "5.MY_PRO") M_SMenu None (Some MainMenu) (Some My_Pro);
  mk_item (Some "6.liwenlin") M_SMenu None (Some MainMenu) (Some M_liwenlin);
  mk_item (Some " ") M_Empty None (Some MainMenu) None;
  mk_item (Some " ") M_Empty None (Some MainMenu) None].
Definition My_Pro_items : list M_Type := [
  mk_item (Some "1.Catching") M_UFunc (Some "Text_Catch") (Some MainMenu) None;
  mk_item (Some "2.RecKin_Print") M_UFunc (Some "RecKin_Print") (Some MainMenu) None;
  mk_item (Some "3.Syn_Timer ") M_UFunc (Some "sys_Timer") (Some MainMenu) None;
  mk_item (Some "4.Find_Handle_Key") M_UFunc (Some "Find_Handle_Key") (Some MainMenu) None;
  mk_item (Some "6.GoRoute") M_UFunc (Some "GoRoute") (Some MainMenu) None;
  mk_item (Some "7.LookIt") M_UFunc (Some "LookIt") (Some MainMenu) None;
  mk_item (Some "8.RPID") M_UFunc (Some "RotatePID") (Some MainMenu) None;
  mk_item None M_Empty None None None].
Definition M_System_items : list M_Type := [
  mk_item (Some "1.Gyro") M_UFunc (Some "sys_Gyro") (Some MainMenu) None;
  mk_item (Some "2.Encoder") M_UFunc (Some "sys_Encoder") (Some MainMenu) None;
  mk_item (Some "3.GPS") M_UFunc (Some "sys_GPS") (Some MainMenu) None;
  mk_item (Some "4.Swedish") M_UFunc (Some "sys_Swedish") (Some MainMenu) None;
  mk_item (Some "5.SA-ST") M_UFunc (Some "sys_SA_ST") (Some MainMenu) None;
  mk_item (Some "6.CAN") M_UFunc (Some "sys_CAN") (Some MainMenu) None;
  mk_item (Some "7.Handle") M_UFunc (Some "sys_Handle") (Some MainMenu) None;
  mk_item (Some "8.fan") M_UFunc (Some "sys_Fan") (Some MainMenu) None].
Definition M_Test_items : list M_Type := [
  mk_item (Some "1.DataBack") M_UFunc (Some "DataBackTest") (Some MainMenu) None;
  mk_item (Some "2.Camera ") M_UFunc (Some "CameraTest") (Some MainMenu) None;
  mk_item (Some "3.Laser") M_UFunc (Some "LaserTest") (Some MainMenu) None;
  mk_item (Some "4.Hall") M_UFunc (Some "HallTest") (Some MainMenu) None;
  mk_item (Some "5.LB") M_UFunc (Some "LBTest") (Some MainMenu) None;
  mk_item (Some "6.Sonic") M_UFunc (Some "SonicTest") (Some MainMenu) None;
  mk_item (Some "7.Radar") M_UFunc (Some "RadarTest") (Some MainMenu) None;
  mk_item (Some "8.owen") M_UFunc (Some "owenTest") (Some MainMenu) None].
Definition M_Route_items : list M_Type := [
  mk_item (Some "1.GoLine") M_UFunc (Some "GoLineTest") (Some MainMenu) None;
  mk_item (Some "2.Keep") M_UFunc (Some "KeepTest") (Some MainMenu) None;
  mk_item (Some "3.GoCircle") M_UFunc (Some "GoCircleTest") (Some MainMenu) None;
  mk_item (Some "4.RouteTest") M_UFunc (Some "RouteTest") (Some MainMenu) None;
  mk_item (Some "5.ArmTest") M_UFunc (Some "ArmTest") (Some MainMenu) None;
  mk_item (Some "6.MotorPos ") M_UFunc (Some "MotorPos") (Some MainMenu) None;
  mk_item (Some " ") M_Empty None (Some MainMenu) None;
  mk_item (Some " ") M_Empty None (Some MainMenu) None].
Definition M_SD_items : list M_Type := [
  mk_item (Some "1.Img") M_UFunc (Some "sys_ImgSave") (Some MainMenu) None;
  mk_item (Some "2.ReInit") M_UFunc (Some "SD_ReInit") (Some MainMenu) None;
  mk_item (Some "3.WalkGRD") M_UFunc (Some "SD_Walkground") (Some MainMenu) None;
  mk_item (Some " ") M_Empty None (Some MainMenu) None;
  mk_item (Some " ") M_Empty None (Some MainMenu) None;
  mk_item (Some " ") M_Empty None (Some MainMenu) None;
  mk_item (Some " ") M_Empty None (Some MainMenu) None;
  mk_item (Some " ") M_Empty None (Some MainMenu) None].
Definition M_Fxh_items : list M_Type := [
  mk_item (Some "1.laser") M_SMenu None (Some MainMenu) (Some M_Laser);
  mk_item (Some "2.keep") M_UFunc (Some "sys_keep") (Some MainMenu) None;
  mk_item (Some "3.debug") M_UFunc (Some "sys_debug") (Some MainMenu) None;
  mk_item (Some "4.sonic") M_UFunc (Some "sys_sonic") (Some MainMenu) None;
  mk_item (Some "5.misc") M_UFunc (Some "sys_misc") (Some MainMenu) None;
  mk_item (Some "6.lb") M_UFunc (Some "sys_lb") (Some MainMenu) None;
  mk_item (Some " ") M_Empty None (Some MainMenu) None;
  mk_item (Some " ") M_Empty None (Some MainMenu) None].
Definition M_Laser_items : list M_Type := [
  mk_item (Some "1.lssp") M_UFunc (Some "sys_lssp") (Some M_Fxh) None;
  mk_item (Some "2.lswg") M_UFunc (Some "sys_lswg") (Some M_Fxh) None;
  mk_item (Some " ") M_Empty None (Some M_Fxh) None;
  mk_item (Some " ") M_Empty None (Some M_Fxh) None;
  mk_item (Some " ") M_Empty None (Some M_Fxh) None;
  mk_item (Some " ") M_Empty None (Some M_Fxh) None;
  mk_item (Some " ") M_Empty None (Some M_Fxh) None;
  mk_item (Some " ") M_Empty None (Some M_Fxh) None].
Definition M_liwenlin_items : list M_Type := [
  mk_item (Some "1.upmotors") M_UFunc (Some "Up_motor") (Some MainMenu) None;
  mk_item (Some "2.cylinder") M_UFunc (Some "Cylinder") (Some MainMenu) None;
  mk_item (Some "3.sa-st ") M_UFunc (Some "Sa_St") (Some MainMenu) None;
  mk_item (Some "4.stepper ") M_UFunc None (Some MainMenu) None;
  mk_item (Some "5.st ") M_Empty None (Some MainMenu) None;
  mk_item (Some "6.key") M_UFunc (Some "key") (Some MainMenu) None;
  mk_item (Some " ") M_Empty None (Some MainMenu) None;
  mk_item (Some " ") M_Empty None (Some MainMenu) None].

Definition menu_items (a : Z) : option (list M_Type) :=
  [MainMenu_items; My_Pro_items; M_System_items; M_Test_items; M_Route_items; M_SD_items; M_Fxh_items;
   M_Laser_items; M_liwenlin_items] !! Z.to_nat a.

(** * Operations *)

(** The item an offset from CurrentMenu points to *)
Definition menu_at (k : Z) : M io M_Type :=
  let! a := load "CurrentMenu" 0 in
  let! i := load "CurrentMenu" 1 in
  if a <? 0 then fail NullDeref
  else if i + k <? 0 then fail BadPointer
  else
    let! items := of_option BadPointer (menu_items a) in
    of_option BadPointer (items !! Z.to_nat (i + k)).

(** [CurrentMenu = p] *)
Definition set_menu (p : option Z) : M io unit :=
  store "CurrentMenu" 0 (default (-1) p) ;!
  store "CurrentMenu" 1 0.

(** ShowMenuList *)
Definition ShowMenuList : M io unit :=
  LCD_Clear ;!
  for_range 2 0 (fun i =>
    for_range (Z.to_nat (M_NUM / 2)) 0 (fun j =>
      let! item := menu_at (i * (M_NUM / 2) + j) in
      let! str := of_option NullDeref (Name item) in
      LCD_SetXY (i * 10) j ;!
      LCD_WriteString (chars str))).

Section user.
Context (call : string -> M io unit).

(** GoKeyNum *)
Definition GoKeyNum (KeyNum : Z) : M io unit :=
  let! item := menu_at (KeyNum - 1) in
  match M_Attrib item with
  | M_SMenu => set_menu (Mnode_next item)
  | M_UFunc => let! f := of_option NullDeref (MenuFunc_ item) in call f
  | M_Empty => ret tt
  end.

(** KeyNumOperate; the codes of the keys are those of M_KeyNumTpye (MyTypeDef.h). *)
Definition KeyNumOperate (KeyValue : Z) : M io unit :=
  match KeyValue with
  | 1 => GoKeyNum 1
  | 2 => GoKeyNum 2
  | 3 => GoKeyNum 3
  | 4 => GoKeyNum 4
  | 5 =>
      let! a := load "CurrentMenu" 0 in
      let! i := load "CurrentMenu" 1 in
      if negb ((a =? MainMenu) && (i =? 0)) then let! item := menu_at 0 in set_menu (Mnode_prev item)
      else ret tt
  | 7 => GoKeyNum 5
  | 8 => GoKeyNum 6
  | 9 => GoKeyNum 7
  | 10 => GoKeyNum 8
  | 13 => GoKeyNum 9
  | _ => ret tt
  end ;!
  ShowMenuList.

End user.

(** * What the display shows *)

Section show.
Implicit Types (s : io) (t : list Z).

Definition item (a : Z) (n : nat) : option M_Type := items ← menu_items a; items !! n.
Definition item_name (a : Z) (n : nat) : option string := it ← item a n; Name it.

(** Two columns of four rows *)
Definition place (n : nat) : Z := 20 * (Z.of_nat n mod 4) + 10 * (Z.of_nat n / 4).

Definition draw_name (a : Z) t (n : nat) : list Z :=
  list_inserts (Z.to_nat (place n)) (chars (default "" (item_name a n))) t.
Definition menu_screen (a : Z) : list Z := fold_left (draw_name a) (seq 0 8) (replicate 160 32).

Definition name_fits (a : Z) (n : nat) : bool :=
  match item_name a n with
  | Some nm => place n + Z.of_nat (length (chars nm)) <=? 160
  | None => false
  end.

(** All eight names are there and fit. *)
Definition complete (a : Z) : bool := (0 <=? a) && forallb (name_fits a) (seq 0 8).

Lemma wp_menu_at a k it s (Phi : M_Type -> io -> Prop) :
  has s "CurrentMenu" [a; 0] -> 0 <= a -> 0 <= k -> item a (Z.to_nat k) = Some it -> Phi it s ->
  wp (menu_at k) Phi s.
Proof.
  intros Hm Ha Hk Hit HP. unfold item in Hit. apply bind_Some in Hit as (items & Hitems & Hit).
  unfold menu_at. wp_step. eapply wp_load; [exact Hm|lia|done|]. wp_step. eapply wp_load; [exact Hm|lia|done|].
  rewrite (proj2 (Z.ltb_ge a 0)), (proj2 (Z.ltb_ge (0 + k) 0)) by lia.
  wp_step. eapply wp_of_option; [exact Hitems|]. eapply wp_of_option; [by rewrite Z.add_0_l|done].
Qed.

Lemma show_item a n t i0 s (Phi : unit -> io -> Prop) i j :
  has s "CurrentMenu" [a; 0] -> 0 <= a -> name_fits a n -> length t = 160%nat ->
  i * 4 + j = Z.of_nat n -> 0 <= j < 4 -> 0 <= i < 2 ->
  Phi tt (lcd (draw_name a t n) (place n + Z.of_nat (length (chars (default "" (item_name a n))))) s) ->
  wp (let! item := menu_at (i * (M_NUM / 2) + j) in
      let! str := of_option NullDeref (Name item) in
      LCD_SetXY (i * 10) j ;! LCD_WriteString (chars str)) Phi (lcd t i0 s).
Proof.
  intros Hm Ha Hn Ht Hij Hj Hi HP. unfold name_fits in Hn. unfold draw_name in HP.
  destruct (item_name a n) as [nm|] eqn:E; [|done]. apply Is_true_true, Z.leb_le in Hn.
  unfold item_name in E. apply bind_Some in E as (it & Hit & Hnm). simpl in HP.
  assert (place n = j * 20 + i * 10) as Hp.
  { unfold place. rewrite <- Hij. rewrite (Z.add_comm (i * 4)), Z.mod_add, Z.div_add by lia.
    rewrite Z.mod_small, Z.div_small by lia. lia. }
  change (M_NUM / 2) with 4. wp_step.
  eapply (wp_menu_at a); [apply has_lcd_other; done|done|lia|by rewrite Hij, Nat2Z.id|].
  wp_step. eapply wp_of_option; [exact Hnm|]. wp_step. rewrite Hp in HP, Hn. apply LCD_SetXY_spec; [lia|].
  apply LCD_WriteString_spec; [lia|lia|lia|]. exact HP.
Qed.

Lemma draw_name_length a t n : length (draw_name a t n) = length t.
Proof. apply length_inserts. Qed.

Ltac show_next a n Hn :=
  eapply (show_item a n); [done|lia|apply Hn; lia|by rewrite ?draw_name_length|done|lia|lia|].

Lemma ShowMenuList_spec a t i s :
  has s "CurrentMenu" [a; 0] -> complete a -> length t = 160%nat ->
  wp ShowMenuList (fun _ s' => exists i', s' = lcd (menu_screen a) i' s) (lcd t i s).
Proof.
  intros Hm Hc Ht. unfold complete in Hc. apply Is_true_true, andb_true_iff in Hc as [Ha Hc].
  rewrite forallb_forall in Hc.
  assert (forall n, (n < 8)%nat -> name_fits a n) as Hn.
  { intros n Hn. apply Is_true_true, Hc, in_seq. lia. }
  unfold ShowMenuList. wp_step. apply LCD_Clear_spec; [done|]. change (Z.to_nat (M_NUM / 2)) with 4%nat.
  cbn [for_range]. change (0 + 1) with 1. change (1 + 1) with 2. change (2 + 1) with 3.
  do 2 wp_step.
  show_next a 0%nat Hn. wp_step. show_next a 1%nat Hn. wp_step. show_next a 2%nat Hn. wp_step.
  show_next a 3%nat Hn. apply wp_ret. do 2 wp_step.
  show_next a 4%nat Hn. wp_step. show_next a 5%nat Hn. wp_step. show_next a 6%nat Hn. wp_step.
  show_next a 7%nat Hn.
  wp_pure. eexists. reflexivity.
Qed.
End show.

(** * Moving through the menus *)

(** A computation that stops with a fault *)
Definition fails {S A} (m : M S A) (s : S) : Prop := exists e, m s = Fail e.

Lemma fails_bind {S A B} (m : M S A) (f : A -> M S B) s : wp m (fun a s' => fails (f a) s') s -> fails (bind m f) s.
Proof. unfold wp, fails, bind. destruct (m s); [done|]. intros []. Qed.

Lemma fails_here {S A B} (m : M S A) (f : A -> M S B) s : fails m s -> fails (bind m f) s.
Proof. unfold fails, bind. intros [e ->]. by exists e. Qed.

Section keys.
Implicit Types (s : io) (a key : Z).

(** The item a key selects, counted from 0; 8 is past the end. *)
Definition key_item key : option nat :=
  match key with
  | 1 => Some 0%nat | 2 => Some 1%nat | 3 => Some 2%nat | 4 => Some 3%nat
  | 7 => Some 4%nat | 8 => Some 5%nat | 9 => Some 6%nat | 10 => Some 7%nat
  | 13 => Some 8%nat
  | _ => None
  end.

(** The menu after a key *)
Definition next_menu a key : Z :=
  match key_item key with
  | Some n =>
      match item a n with
      | Some it => match M_Attrib it with M_SMenu => default (-1) (Mnode_next it) | _ => a end
      | None => a
      end
  | None =>
      if key =? 5 then
        if a =? MainMenu then a else default (-1) (it ← item a 0; Mnode_prev it)
      else a
  end.

(** The menu above a menu *)
Definition above a : Z := if a =? M_Laser then M_Fxh else MainMenu.

(** The menus that can be shown: all but My_Pro, whose last item has no name *)
Definition menus : list Z := [MainMenu; M_System; M_Test; M_Route; M_SD; M_Fxh; M_Laser; M_liwenlin].

(** The function a key calls *)
Definition called a key : option string :=
  n ← key_item key; it ← item a n; match M_Attrib it with M_UFunc => MenuFunc_ it | _ => None end.

(** The keys that leave the tables: key 9 selects the item behind the last one of a menu, "5.MY_PRO"
    the menu with the nameless item, and "4.stepper" is a function that is not there. *)
Definition leaves_tables a key : bool :=
  (key =? 13) || (a =? MainMenu) && (key =? 7) || (a =? M_liwenlin) && (key =? 4).

Definition on_menu a s : Prop := has s "CurrentMenu" [a; 0] /\
  exists t i, has s "LCD_Table" t /\ length t = 160%nat /\ has s "LCD_Index" [i].

Definition shows_menu a s : Prop := on_menu a s /\ has s "LCD_Table" (menu_screen a).

(** Selecting item [n] does not call a null pointer. *)
Definition callable a (n : nat) : bool :=
  match item a n with
  | Some it => match M_Attrib it, MenuFunc_ it with M_UFunc, None => false | _, _ => true end
  | None => false
  end.

(** The keys that do not lead out of [menus], checked menu by menu *)
Definition item_okb a (n : nat) : bool :=
  callable a n &&
  match item a n with
  | Some it => match M_Attrib it, Mnode_next it with
               | M_SMenu, Some a' => bool_decide (a' ∈ menus)
               | M_SMenu, None => false
               | _, _ => true
               end
  | None => false
  end.

Definition excluded a (n : nat) : bool := (a =? MainMenu) && (n =? 4)%nat || (a =? M_liwenlin) && (n =? 3)%nat.

Lemma menus_closed :
  forallb (fun a => complete a && bool_decide (Mnode_prev <$> item a 0 = Some (Some (above a))) &&
    forallb (fun n => excluded a n || item_okb a n) (seq 0 8)) menus = true.
Proof. vm_compute. reflexivity. Qed.

Lemma menu_facts a : a ∈ menus -> 0 <= a /\ complete a /\ Mnode_prev <$> item a 0 = Some (Some (above a)) /\
  forall n, (n < 8)%nat -> excluded a n = false -> item_okb a n = true.
Proof.
  intros Ha. pose proof menus_closed as H. rewrite forallb_forall in H.
  specialize (H a (proj1 (list_elem_of_In _ _) Ha)). rewrite !andb_true_iff, bool_decide_eq_true in H.
  destruct H as [[Hc Hp] Hn]. rewrite forallb_forall in Hn. split_and!; [|by apply Is_true_true|done|].
  - unfold complete in Hc. lia.
  - intros n Hl Hx. specialize (Hn n ltac:(apply in_seq; lia)). by rewrite Hx in Hn.
Qed.

Context (call : string -> M io unit).

Lemma on_menu_set a a' s : on_menu a s -> wp (set_menu (Some a')) (fun _ s' => on_menu a' s') s.
Proof.
  intros [Hm (t & i & Ht & Hl & Hi)]. unfold set_menu. wp_step. eapply wp_store; [exact Hm|simpl; lia|].
  eapply wp_store; [apply has_put; by left|simpl; lia|]. simpl. rewrite put_put.
  split; [apply has_put; by left|]. exists t, i. split_and!; [|done|]; apply has_put; by right.
Qed.

Lemma GoKeyNum_spec a n key s : on_menu a s -> 0 <= a -> item_okb a n = true -> key_item key = Some n ->
  (forall f, called a key = Some f -> wp (call f) (fun _ s' => on_menu a s') s) ->
  wp (GoKeyNum call (Z.of_nat n + 1)) (fun _ s' => on_menu (next_menu a key) s') s.
Proof.
  intros Hs Ha Hok Hkey Hcall. unfold called in Hcall. unfold next_menu. rewrite Hkey in *. unfold item_okb, callable in Hok.
  simpl in Hcall. destruct (item a n) as [it|] eqn:E; [|done]. simpl in Hcall. unfold GoKeyNum. wp_step.
  eapply (wp_menu_at a); [apply Hs|done|lia|by replace (Z.to_nat _) with n by lia|].
  destruct (M_Attrib it).
  - by apply wp_ret.
  - destruct (MenuFunc_ it) as [f|]; [|done]. wp_step. eapply wp_of_option; [done|]. by apply Hcall.
  - destruct (Mnode_next it) as [a'|]; [by eapply on_menu_set|].
    by rewrite andb_false_r in Hok.
Qed.

Lemma show_current a s : on_menu a s -> complete a -> wp ShowMenuList (fun _ s' => shows_menu a s') s.
Proof.
  intros [Hm (t & i & Ht & Hl & Hi)] Hc. rewrite <- (lcd_same s t i Ht Hi).
  wp_use (ShowMenuList_spec a t i s); [done..|]. intros [] s' [i' ->].
  assert (length (menu_screen a) = 160%nat) as Hlen.
  { unfold menu_screen. simpl. by rewrite !draw_name_length. }
  split; [|apply has_lcd_table]. split; [by apply has_lcd_other|].
  exists (menu_screen a), i'. split_and!; [apply has_lcd_table|done|apply has_lcd_index].
Qed.

(** KeyNumOperate by the item the key selects *)
Lemma KeyNumOperate_item key : KeyNumOperate call key =
  (match key_item key with
   | Some n => GoKeyNum call (Z.of_nat n + 1)
   | None =>
       if key =? 5 then
         let! a := load "CurrentMenu" 0 in
         let! i := load "CurrentMenu" 1 in
         if negb ((a =? MainMenu) && (i =? 0)) then let! item := menu_at 0 in set_menu (Mnode_prev item)
         else ret tt
       else ret tt
   end ;! ShowMenuList).
Proof. destruct key as [|p|p]; [done| |done]. do 4 (try destruct p as [p|p|]); reflexivity. Qed.

Lemma back_spec a s : a ∈ menus -> on_menu a s ->
  wp (let! a := load "CurrentMenu" 0 in
      let! i := load "CurrentMenu" 1 in
      if negb ((a =? MainMenu) && (i =? 0)) then let! item := menu_at 0 in set_menu (Mnode_prev item)
      else ret tt) (fun _ s' => on_menu (if a =? MainMenu then MainMenu else above a) s') s.
Proof.
  intros Ha Hs. destruct (menu_facts a Ha) as (H0 & _ & Hp & _).
  wp_step. eapply wp_load; [apply Hs|lia|done|]. wp_step. eapply wp_load; [apply Hs|lia|done|].
  rewrite andb_true_r. destruct (Z.eqb_spec a MainMenu) as [->|Hne]; simpl; [by apply wp_ret|].
  apply fmap_Some in Hp as (it & Hit & Hp). wp_step. eapply (wp_menu_at a); [apply Hs|done|lia|exact Hit|].
  rewrite <- Hp. by eapply on_menu_set.
Qed.

(** A key that stays within the tables *)
Lemma KeyNumOperate_moves a key s :
  a ∈ menus -> on_menu a s -> leaves_tables a key = false ->
  (forall f, called a key = Some f -> wp (call f) (fun _ s' => on_menu a s') s) ->
  wp (KeyNumOperate call key) (fun _ s' => next_menu a key ∈ menus /\ shows_menu (next_menu a key) s') s.
Proof.
  intros Ha Hs Hleave Hcall. destruct (menu_facts a Ha) as (H0 & Hc & Hp & Hitems). rewrite KeyNumOperate_item. wp_step.
  eapply wp_mono with (fun _ s' => next_menu a key ∈ menus /\ on_menu (next_menu a key) s').
  - destruct (key_item key) as [n|] eqn:E.
    + assert ((n < 8)%nat /\ excluded a n = false) as [Hn Hx].
      { unfold key_item in E. unfold excluded. unfold leaves_tables in Hleave.
        destruct (Z.eqb_spec a MainMenu) as [E1|_], (Z.eqb_spec a M_liwenlin) as [E2|_];
          repeat case_match; simplify_eq; (split; [lia|done]). }
      specialize (Hitems n Hn Hx). wp_use (GoKeyNum_spec a n key s); [done..|]. intros [] s' Hs'. split; [|done].
      unfold next_menu. rewrite E. unfold item_okb in Hitems. destruct (item a n) as [it|]; [|done].
      apply andb_true_iff in Hitems as [_ Hit]. destruct (M_Attrib it); [done|done|].
      destruct (Mnode_next it) as [a'|]; [|done]. by apply bool_decide_eq_true in Hit.
    + unfold next_menu. rewrite E. destruct (Z.eqb_spec key 5) as [->|H5]; [|by apply wp_ret].
      eapply wp_mono; [by apply (back_spec a s)|]. cbv beta. intros [] s' Hs'.
      assert ((if a =? MainMenu then a else default (-1) (it ← item a 0; Mnode_prev it)) = if a =? MainMenu then MainMenu else above a) as ->.
      { destruct (Z.eqb_spec a MainMenu) as [->|]; [done|]. apply fmap_Some in Hp as (it & -> & Hp). simpl. by rewrite <- Hp. }
      split; [|done]. unfold above, menus. destruct (a =? MainMenu), (a =? M_Laser); set_solver.
  - cbv beta. intros [] s' (Hin & Hs'). wp_use (show_current (next_menu a key) s'); [done|by apply menu_facts|]. done.
Qed.

(** ** The keys that leave the tables *)

Ltac show_fails n :=
  apply fails_bind; eapply (show_item My_Pro n); [done|vm_compute; discriminate|done|by rewrite ?draw_name_length|done|lia|lia|].

(** The list of My_Pro cannot be shown. *)
Lemma show_My_Pro s : on_menu My_Pro s -> fails ShowMenuList s.
Proof.
  intros [Hm (t & i & Ht & Hl & Hi)]. rewrite <- (lcd_same s t i Ht Hi). unfold ShowMenuList.
  apply fails_bind, LCD_Clear_spec; [done|]. change (Z.to_nat (M_NUM / 2)) with 4%nat.
  cbn [for_range]. change (0 + 1) with 1. change (1 + 1) with 2. change (2 + 1) with 3.
  apply fails_bind. wp_step. eapply (show_item My_Pro 0); [done|vm_compute; discriminate|done|done|done|lia|lia|].
  wp_step. eapply (show_item My_Pro 1); [done|vm_compute; discriminate|done|by rewrite ?draw_name_length|done|lia|lia|].
  wp_step. eapply (show_item My_Pro 2); [done|vm_compute; discriminate|done|by rewrite ?draw_name_length|done|lia|lia|].
  wp_step. eapply (show_item My_Pro 3); [done|vm_compute; discriminate|done|by rewrite ?draw_name_length|done|lia|lia|].
  apply wp_ret, fails_here. show_fails 4%nat. show_fails 5%nat. show_fails 6%nat. apply fails_here, fails_bind.
  eapply (wp_menu_at My_Pro); [by apply has_lcd_other|vm_compute; discriminate|vm_compute; discriminate|reflexivity|].
  by eexists.
Qed.

Lemma KeyNumOperate_fails a key s :
  a ∈ menus -> on_menu a s -> leaves_tables a key = true -> fails (KeyNumOperate call key) s.
Proof.
  intros Ha Hs Hl. unfold leaves_tables in Hl. rewrite !orb_true_iff, !andb_true_iff, !Z.eqb_eq in Hl.
  rewrite KeyNumOperate_item. pose proof Hs as [Hm _]. destruct Hl as [[->|[-> ->]]|[-> ->]].
  - apply fails_here, fails_here. exists BadPointer. unfold menu_at, bind. simpl.
    rewrite (load_eq s _ _ 0 a Hm), (load_eq s _ _ 1 0 Hm) by done. unfold menus in Ha.
    repeat (apply elem_of_cons in Ha as [->|Ha]; [reflexivity|]). by apply not_elem_of_nil in Ha.
  - apply fails_bind. simpl. unfold GoKeyNum. wp_step. eapply (wp_menu_at MainMenu); [exact Hm|done|lia|reflexivity|]. simpl.
    eapply wp_mono; [by eapply (on_menu_set MainMenu My_Pro)|]. cbv beta. intros [] s' Hs'. by apply show_My_Pro.
  - apply fails_here. simpl. unfold GoKeyNum. apply fails_bind.
    eapply (wp_menu_at M_liwenlin); [exact Hm|done|lia|reflexivity|]. simpl. by eexists.
Qed.

(** C38: Let any menu but My_Pro be shown and any key be pressed, and suppose that the
    function the key calls, if it calls one (a UFunc item), returns with the same menu
    selected. Then the key shows the menu it selects on the whole LCD (the sub-menu of the
    item, or the same menu), it is again one of these menus, and the back key leads one level
    up: from M_Laser to M_Fxh, from every other menu to the main menu. The exceptions are
    three selections, which stop with a fault: key 9 (code 13) on every menu, which reads the
    item behind the last one, 5.MY_PRO of the main menu, whose last item has no name to show,
    and 4.stepper of M_liwenlin, which calls a null pointer. *)
Theorem KeyNumOperate_spec a key s :
  a ∈ menus -> on_menu a s ->
  (forall f, called a key = Some f -> wp (call f) (fun _ s' => on_menu a s') s) ->
  if leaves_tables a key then fails (KeyNumOperate call key) s
  else wp (KeyNumOperate call key) (fun _ s' => next_menu a key ∈ menus /\ shows_menu (next_menu a key) s' /\
         (key = 5 -> a <> MainMenu -> next_menu a key = above a)) s.
Proof.
  intros Ha Hs Hcall. destruct (leaves_tables a key) eqn:El; [by apply (KeyNumOperate_fails a)|].
  eapply wp_mono; [by apply KeyNumOperate_moves|]. cbv beta. intros [] s' [H1 H2]. split_and!; [done|done|].
  intros -> Hne. unfold next_menu. simpl. rewrite (proj2 (Z.eqb_neq _ _) Hne).
  destruct (menu_facts a Ha) as (_ & _ & Hp & _). apply fmap_Some in Hp as (it & -> & Hp). simpl. by rewrite <- Hp.
Qed.
End keys.
