(* ===== verification/App.v ===== *)
(** The robot's application: its threads, mailboxes and message queue
    (applications/application.c, mb.c, mq.c, Thread/, Auto/, Y_handle.c, fxh_bool/t_test.c),
    and the start of the whole system.

    The structs of the threads and mailboxes are static: each has a number.  The
    addresses of the stacks and of the entry functions are the linker's:
    [stack_of] and [entry_of].  What the heap answers to rt_thread_create for the
    thread "init" is an argument. *)

From S2P Require Import Prelude RtList KState Ffs KInv Sched Object Timer Thread ThreadLife Ipc.
From S2P Require Import Mailbox MsgQueue KCheck Idle Restart Startup Dynamic CanData Lcd.

Open Scope Z_scope.

(** * Threads *)

Definition thread_keyboard : nat := 0.
Definition thread_lcd_refresh : nat := 1.
Definition thread_emergency : nat := 2.
Definition thread_handle : nat := 3.
Definition thread_handle_Y : nat := 4.
Definition thread_auto : nat := 5.
Definition thread_arm : nat := 6.
Definition thread_FATfs : nat := 7.
Definition thread_test : nat := 8.
Definition thread_tim : nat := 9.
Definition thread_realspe : nat := 10.
(** idle.c *)
Definition idle : nat := 11.

(** * Mailboxes and the message queue *)

Definition Mb_Key : nat := 0.
Definition Mb_Emergency : nat := 1.
Definition Mb_Auto : nat := 2.
Definition Mb_Arm : nat := 3.
Definition Mb_SensorStart : nat := 4.
Definition Mb_SensorEnd : nat := 5.
Definition mq_sd : nat := 0.

(** The elements of the static array of a mailbox: those of its pool, and zeros as
    long as the struct is not initialised. *)
Definition mb_pool (b : nat) (k : kernel) : list Z :=
  match msg_pool (mailboxes k b) with [] => replicate 32 0 | pool => pool end.

Definition mb_static_init (b : nat) (nm : string) : K Z :=
  let! k := get in
  let! result := rt_mb_init b (chars nm) (mb_pool b k) (128 / 4) RT_IPC_FLAG_FIFO in
  if negb (result =? RT_EOK) then ret 0 else ret 1.

Definition Mb_Key_Init : K Z := mb_static_init Mb_Key "Mb_Key".
Definition Mb_Emergency_Init : K Z := mb_static_init Mb_Emergency "Mb_Emergency".
Definition Mb_Auto_Init : K Z := mb_static_init Mb_Auto "Mb_Auto".
Definition Mb_Arm_Init : K Z := mb_static_init Mb_Arm "Mb_Arm".
Definition Mb_SensorStart_Init : K Z := mb_static_init Mb_SensorStart "Mb_SensorStart".
Definition Mb_SensorEnd_Init : K Z := mb_static_init Mb_SensorEnd "Mb_SensorEnd".

(** Mq_Sd_Init; the local [result] is never assigned: its value is an argument. *)
Definition Mq_Sd_Init (result : Z) : K Z :=
  let! k := get in
  rt_mq_init mq_sd (chars "mq_sd") (mq_pool (mqs k mq_sd)) 128 (128 * 64) RT_IPC_FLAG_FIFO ;!
  if negb (result =? RT_EOK) then ret 0 else ret 1.

Section robot.
Context (entry_of stack_of : nat -> Z).

Definition robot_thread (t : nat) (nm : string) (size_ priority : Z) : static_thread :=
  mk_static t (chars nm) (entry_of t) (stack_of t) size_ priority 5.

Definition d_keyboard : static_thread := robot_thread thread_keyboard "keyboard" (1024 * 3) 6.
Definition d_lcd_refresh : static_thread := robot_thread thread_lcd_refresh "thread_lcd_refresh" 1024 15.
Definition d_emergency : static_thread := robot_thread thread_emergency "thread_emergency" 1024 4.
Definition d_handle : static_thread := robot_thread thread_handle "thread_handle" 1024 7.
Definition d_handle_Y : static_thread := robot_thread thread_handle_Y "thread_handle_Y" 1024 8.
Definition d_auto : static_thread := robot_thread thread_auto "thread_auto" 1024 9.
Definition d_arm : static_thread := robot_thread thread_arm "thread_arm" 2048 8.
Definition d_FATfs : static_thread := robot_thread thread_FATfs "FatFs" 4096 (RT_THREAD_PRIORITY_MAX - 5).
Definition d_test : static_thread := robot_thread thread_test "thread_test" 1024 26.
Definition d_tim : static_thread := robot_thread thread_tim "thread_tim" 1024 7.
Definition d_realspe : static_thread := robot_thread thread_realspe "thread_realspe" 1024 5.

(** rt_keyboard_init does not look at the result of rt_thread_init. *)
Definition rt_keyboard_init : K unit :=
  let d := d_keyboard in
  rt_thread_init (st_id d) (st_name d) (st_entry d) 0 (st_stack d) (st_size d) (st_priority d) (st_tick d) ;!
  rt_thread_startup (st_id d) ;!
  ret tt.

Definition rt_thread_lcd_refresh_init : K Z := static_thread_init d_lcd_refresh.
Definition rt_thread_emergency_init : K Z := static_thread_init d_emergency.
Definition rt_thread_handle_init : K Z := static_thread_init d_handle.
Definition rt_thread_handle_Y_init : K Z := static_thread_init d_handle_Y.
Definition rt_thread_auto_init : K Z := static_thread_init d_auto.
Definition rt_thread_arm_init : K Z := static_thread_init d_arm.
Definition rt_thread_FATfs_init : K Z := static_thread_init d_FATfs.
Definition rt_thread_test_init : K Z := static_thread_init d_test.
Definition rt_thread_tim_init : K Z := static_thread_init d_tim.
Definition rt_thread_realspe_init : K Z := static_thread_init d_realspe.

(** rt_application_init; [init_thread] and [init_stack] are the heap's answers,
    [result] is the local of Mq_Sd_Init.  The scheduler hook is not modelled. *)
Definition rt_application_init (init_thread : option nat) (init_stack : option Z) (init_entry result : Z) : K Z :=
  let! init_thread := rt_thread_create init_thread init_stack (chars "init") init_entry 0 2048 8 20 in
  (match init_thread with Some t => rt_thread_startup t ;! ret tt | None => ret tt end) ;!
  rt_keyboard_init ;!
  rt_thread_lcd_refresh_init ;!
  rt_thread_emergency_init ;!
  rt_thread_handle_init ;!
  rt_thread_handle_Y_init ;!
  rt_thread_auto_init ;!
  rt_thread_arm_init ;!
  rt_thread_FATfs_init ;!
  rt_thread_test_init ;!
  rt_thread_tim_init ;!
  rt_thread_realspe_init ;!
  Mb_Key_Init ;!
  Mb_Emergency_Init ;!
  Mb_Auto_Init ;!
  Mb_Arm_Init ;!
  Mq_Sd_Init result ;!
  ret 0.

(** The system from reset to its first thread *)
Definition robot_startup (init_thread : option nat) (init_stack : option Z) (init_entry result : Z) : K unit :=
  rtthread_startup (rt_application_init init_thread init_stack init_entry result)
    idle (entry_of idle) (stack_of idle).
End robot.
