(* ===== verification/Boot.v ===== *)
(** The start of the robot: from the program image to the first thread, every thread
    is at its entry function and ready, every mailbox and the message queue are
    empty, and the emergency thread runs first. *)

From S2P Require Import Prelude RtList KState Ffs KInv Sched Object Timer Thread ThreadLife Ipc.
From S2P Require Import Mailbox MsgQueue KCheck Idle Restart Startup Dynamic CanData Lcd App.

Open Scope Z_scope.

(** * What starting a thread leaves alone *)

Section frames.
Implicit Types (k : kernel) (Q : gmap node (list node)) (t b : nat) (d : static_thread).

(** The nodes of mailboxes and message queues *)
Definition ipc_node (n : node) : bool :=
  match n with
  | SuspHead _ | SenderHead _ | ObjNode (OMailBox _) | ObjNode (OMessageQueue _) => true
  | _ => false
  end.

(** Only the lists of threads have changed, and only thread [t] has been entered. *)
Record list_frame t Q Q' : Prop := {
  lf_cont : containers Q -> containers Q';
  lf_ipc : forall n, ipc_node n = true -> detached Q n -> detached Q' n;
  lf_wait : forall l, wait_head l = true -> waiters Q l [] -> waiters Q' l [];
  lf_unused : forall s, s <> t -> unused Q s -> unused Q' s }.

Lemma waiters_register Q l o : wait_head l = true -> waiters Q l [] -> waiters (register o Q) l [].
Proof.
  unfold waiters, register. intros Hw Hl.
  rewrite lookup_insert_ne, lookup_delete_ne by (intros ?; by subst). done.
Qed.

Lemma static_frame d Q : list_frame (st_id d) Q (static_lists d Q).
Proof.
  split.
  - apply containers_static.
  - intros n Hn Hd. unfold static_lists. apply detached_woken; [apply detached_init_lists; [done|..]|..];
      try (intros ->; done). intros c ->. done.
  - intros l Hw Hl. unfold static_lists, woken, init_lists, waiters.
    rewrite lookup_insert_ne, lookup_delete_ne by (intros ?; by subst).
    rewrite !lookup_unlink, !decide_False by (intros ?; by subst).
    rewrite lookup_insert_ne by (intros ?; by subst).
    assert (waiters (register (OTimer (ThreadTimer (st_id d))) (<[TList (st_id d):=[]]> (register (OThread (st_id d)) Q))) l [])
      as E; [|unfold waiters in E; by rewrite E].
    apply waiters_register; [done|]. unfold waiters. rewrite lookup_insert_ne by (intros ?; by subst).
    by apply waiters_register.
  - intros s Hs. by apply unused_static.
Qed.

Lemma released_frame t Q : list_frame t Q (released t Q).
Proof.
  unfold released. split.
  - intros Hc. by apply containers_unlink, containers_register.
  - intros n Hn Hd. apply detached_unlink, detached_register; [done|..]; by intros ->.
  - intros l Hw Hl. unfold waiters. rewrite lookup_unlink, decide_False by (intros ?; by subst).
    pose proof (waiters_register Q l (OThread t) Hw Hl) as E. unfold waiters in E. by rewrite E.
  - intros s Hs (H1 & H2 & H3 & H4). split_and!; (apply detached_unlink, detached_register; [done|congruence|done]).
Qed.

Lemma released_unused t Q : unused Q t -> unused (released t Q) t.
Proof.
  intros (H1 & H2 & H3 & H4). unfold released.
  split_and!; [apply detached_unlink, detached_register; done|apply detached_unlink, detached_register; done|
    apply detached_unlink_self|apply detached_unlink, detached_register; done].
Qed.
End frames.

(** * The invariant of the start *)

Section boot.
Implicit Types (k : kernel) (Q : gmap node (list node)) (t b : nat) (d : static_thread)
  (ds : list static_thread) (bs : list nat) (mq : bool).

Definition mb_unused Q b : Prop :=
  detached Q (ObjNode (OMailBox b)) /\ detached Q (SuspHead (OMailBox b)) /\ detached Q (SenderHead b).
Definition mq_unused Q : Prop :=
  detached Q (ObjNode (OMessageQueue mq_sd)) /\ detached Q (SuspHead (OMessageQueue mq_sd)).

(** The threads [ds] are started, the mailboxes [bs] initialised, and the message
    queue when [mq]; no thread runs yet. *)
Record boot ds bs mq k Q : Prop := {
  bt_KI : KI k Q;
  bt_cont : containers Q;
  bt_cur : rt_current_thread k = None;
  bt_started : forall d, d ∈ ds -> threads k (st_id d) = at_entry d zero_thread;
  bt_other : forall t, t ∉ st_id <$> ds -> threads k t = zero_thread /\ unused Q t;
  bt_new : forall b, b ∉ bs -> mb_unused Q b /\ msg_pool (mailboxes k b) = [];
  bt_mb : forall b, b ∈ bs -> mb_rep k Q b [] [] /\ contents (mailboxes k b) = [];
  bt_mq : if mq then exists fs, mq_rep k Q mq_sd [] fs [] else mq_unused Q }.

(** Steps that concern the thread [t] alone *)
Lemma boot_frame ds ds' bs mq k Q k' Q' t :
  boot ds bs mq k Q -> list_frame t Q Q' -> KI k' Q' -> env k' = env k -> rt_current_thread k' = None ->
  objects_but t k k' ->
  (forall d, d ∈ ds' -> threads k' (st_id d) = at_entry d zero_thread) ->
  (forall s, s ∉ st_id <$> ds' -> threads k' s = zero_thread /\ unused Q' s) ->
  boot ds' bs mq k' Q'.
Proof.
  intros [Hk Hc Hcur Hst Hoth Hnew Hmb Hmq] [L1 L2 L3 L4] Hk' Ee Hcur' Ho Hst' Hoth'.
  assert (mailboxes k' = mailboxes k /\ mqs k' = mqs k) as [Em Eq].
  { unfold env, ipc_part in Ee. injection Ee as ?. done. }
  split; try done; [by apply L1|..].
  - intros b Hb. destruct (Hnew b Hb) as [(H1 & H2 & H3) H4]. rewrite Em. split; [|done].
    split_and!; by apply L2.
  - intros b Hb. destruct (Hmb b Hb) as [[H1 H2 H3 H4] H5]. rewrite Em. split; [|done].
    split; [by apply L3|by apply L3|by rewrite Ho|by rewrite Em].
  - destruct mq.
    + destruct Hmq as [fs [H1 H2 H3 H4]]. exists fs. split; [by apply L3|by rewrite Ho|by rewrite Eq|by rewrite Eq].
    + destruct Hmq as [H1 H2]. split; by apply L2.
Qed.

Lemma boot_start_frame ds bs mq k Q k' d :
  boot ds bs mq k Q -> st_id d ∉ st_id <$> ds ->
  KI k' (static_lists d Q) -> env k' = env k -> rt_current_thread k' = None -> objects_but (st_id d) k k' ->
  threads k' = <[st_id d := at_entry d zero_thread]> (threads k) ->
  boot (d :: ds) bs mq k' (static_lists d Q).
Proof.
  intros Hb Hd Hk' Ee Hcur Ho Eth. eapply (boot_frame ds); [done|apply static_frame|done|done|done|done|..].
  - intros e [->|He]%elem_of_cons; rewrite Eth; [apply fn_lookup_insert|].
    rewrite fn_lookup_insert_ne; [by apply Hb|]. intros E. apply Hd. rewrite E. by apply list_elem_of_fmap_2.
  - intros s Hs. cbn [fmap list_fmap] in Hs. apply not_elem_of_cons in Hs as [Hne Hs].
    destruct (bt_other _ _ _ _ _ Hb s Hs) as [E Hu]. rewrite Eth, fn_lookup_insert_ne by done.
    split; [done|]. by apply unused_static.
Qed.

Lemma zero_not_live : ~ live zero_thread.
Proof. intros [H|H]; discriminate H. Qed.

Lemma boot_static ds bs mq k Q d :
  boot ds bs mq k Q -> static_ok d -> st_id d ∉ st_id <$> ds ->
  wp (static_thread_init d) (fun _ k' => boot (d :: ds) bs mq k' (static_lists d Q)) k.
Proof.
  intros Hb Hok Hd. destruct (bt_other _ _ _ _ _ Hb _ Hd) as [Ez Hu].
  wp_use (static_thread_init_spec k Q d); [apply Hb|apply Hb|done|rewrite Ez; apply zero_not_live|done|].
  intros r k' (_ & k1 & Hk1 & Ee & Ec & Ho & Eth & [[_ ->]|[Hn _]]); [|by rewrite (bt_cur _ _ _ _ _ Hb) in Hn].
  rewrite Ez in Eth. eapply boot_start_frame; try done.
  assert (rt_current_thread k1 = rt_current_thread k) as -> by (by injection Ec). apply Hb.
Qed.

(** A thread that was initialised by other means is started. *)
Lemma boot_startup ds bs mq k Q k1 d :
  boot ds bs mq k Q -> static_ok d -> st_id d ∉ st_id <$> ds ->
  KI k1 (init_lists (st_id d) Q) -> env k1 = env k -> cpu_part k1 = cpu_part k -> objects_but (st_id d) k k1 ->
  timer_fn k1 (ThreadTimer (st_id d)) = FN_rt_thread_timeout (st_id d) ->
  activated k1 (ThreadTimer (st_id d)) = false ->
  threads k1 = <[st_id d := initialised (st_entry d) 0 (st_stack d) (st_size d) (st_priority d) (st_tick d)
    zero_thread]> (threads k) ->
  wp (rt_thread_startup (st_id d)) (fun _ k' => boot (d :: ds) bs mq k' (static_lists d Q)) k1.
Proof.
  intros Hb Hok Hd Hk1 Ee Ec Ho Hfn Ha Eth.
  assert (rt_current_thread k1 = None) as Hcur.
  { assert (rt_current_thread k1 = rt_current_thread k) as -> by (by injection Ec). apply Hb. }
  wp_use (startup_initialised k1 Q d zero_thread); [done|done|by rewrite Eth, fn_lookup_insert|done|done|].
  intros r k2 (k3 & Hk3 & Ee3 & Ec3 & Eo3 & Eth3 & [[_ ->]|[Hn _]]); [|done].
  eapply boot_start_frame; [exact Hb|done|exact Hk3|by rewrite Ee3| | |].
  - assert (rt_current_thread k3 = rt_current_thread k1) as -> by (by injection Ec3). done.
  - intros o H1 H2. rewrite Eo3 by done. by apply Ho.
  - rewrite Eth3, Eth, fn_lookup_insert. apply fn_insert_insert'.
Qed.

Lemma boot_keyboard ds bs mq k Q d :
  boot ds bs mq k Q -> static_ok d -> st_id d ∉ st_id <$> ds ->
  wp (rt_thread_init (st_id d) (st_name d) (st_entry d) 0 (st_stack d) (st_size d) (st_priority d) (st_tick d) ;!
      rt_thread_startup (st_id d) ;! ret tt) (fun _ k' => boot (d :: ds) bs mq k' (static_lists d Q)) k.
Proof.
  intros Hb Hok Hd. destruct (bt_other _ _ _ _ _ Hb _ Hd) as [Ez Hu].
  wp_use (rt_thread_init_spec k Q (st_id d)); [apply Hb|apply Hb|rewrite Ez; apply zero_not_live|done|].
  intros r k1 (-> & Hk1 & Ee1 & Ec1 & Eth1 & Etm1 & Efn1 & Ea1 & Hnames). rewrite Ez in Eth1.
  wp_use (boot_startup ds bs mq k Q k1 d); try done.
  - intros o H1 H2. by apply Hnames.
  - rewrite Ea1. apply fn_lookup_insert.
Qed.

Lemma waiters_insert_nil Q l m : waiters Q l [] -> waiters (<[m := []]> Q) l [].
Proof. unfold waiters. intros Hl. rewrite lookup_insert. by case_decide. Qed.

Lemma containers_insert_nil Q l : containers Q -> wait_head l = true -> containers (<[l := []]> Q).
Proof. intros Hc Hw c Hcc. rewrite lookup_insert_ne by (by intros ->). by apply Hc. Qed.

Lemma boot_mb_init ds bs mq k Q b nm :
  boot ds bs mq k Q -> b ∉ bs ->
  wp (mb_static_init b nm) (fun _ k' => boot ds (b :: bs) mq k' (mb_lists b Q)) k.
Proof.
  intros [Hk Hc Hcur Hst Hoth Hnew Hmb Hmq] Hb. destruct (Hnew b Hb) as [(D1 & D2 & D3) Hp].
  unfold mb_static_init. wp_step. apply wp_get. unfold mb_pool. rewrite Hp.
  wp_use (rt_mb_init_spec k Q b (chars nm) (replicate 32 0) (128 / 4) RT_IPC_FLAG_FIFO);
    [done|done|done|done|done|done|done|by left|].
  intros r k' (-> & Hk' & Hrep & Hcont & Eth & Ec & En & Etm & Em & Eq & Eo). simpl.
  assert (forall b', b' <> b -> mailboxes k' b' = mailboxes k b') as Em'.
  { intros b' Hne. by rewrite Em, fn_lookup_insert_ne. }
  apply wp_ret. split; [done| | |by rewrite Eth| | | |].
  - apply containers_insert_nil; [|done]. apply containers_insert_nil; [|done]. by apply containers_register.
  - assert (rt_current_thread k' = rt_current_thread k) as -> by (by injection Ec). done.
  - intros t Ht. rewrite Eth. destruct (Hoth t Ht) as [? (U1 & U2 & U3 & U4)]. split; [done|]. unfold mb_lists.
    split_and!; (apply detached_insert_nil; [|done]; apply detached_insert_nil; [|done]; by apply detached_register).
  - intros b' [Hne Hb']%not_elem_of_cons. destruct (Hnew b' Hb') as [(N1 & N2 & N3) N4].
    rewrite Em' by done. split; [|done]. unfold mb_lists.
    split_and!; (apply detached_insert_nil; [apply detached_insert_nil; [apply detached_register|]|]); done || congruence.
  - intros b' [->|Hb']%elem_of_cons; [done|].
    destruct (decide (b' = b)) as [->|Hne]; [done|]. destruct (Hmb b' Hb') as [[R1 R2 R3 R4] R5].
    rewrite Em' by done. split; [|done]. split; [| |rewrite Eo by congruence; done|by rewrite Em'];
      do 2 apply waiters_insert_nil; by apply waiters_register.
  - destruct mq.
    + destruct Hmq as [fs [R1 R2 R3 R4]]. exists fs. split; [|by rewrite Eo|by rewrite Eq|by rewrite Eq].
      do 2 apply waiters_insert_nil. by apply waiters_register.
    + destruct Hmq as [M1 M2]. unfold mb_lists.
      split; (apply detached_insert_nil; [|done]; apply detached_insert_nil; [|done]; by apply detached_register).
Qed.

Lemma boot_mq_init ds bs k Q result :
  boot ds bs false k Q -> wp (Mq_Sd_Init result) (fun _ k' => boot ds bs true k' (mq_lists mq_sd Q)) k.
Proof.
  intros [Hk Hc Hcur Hst Hoth Hnew Hmb [D1 D2]]. unfold Mq_Sd_Init. wp_step. apply wp_get.
  wp_use (rt_mq_init_spec k Q mq_sd (chars "mq_sd") (mq_pool (mqs k mq_sd)) 128 (128 * 64) RT_IPC_FLAG_FIFO);
    [done|done|done|done|by left|].
  intros r k' (-> & Hk' & Hrep & Eth & Ec & En & Etm & Em & Eq & Eo).
  assert (boot ds bs true k' (mq_lists mq_sd Q)) as Hb.
  { split; [done| | |by rewrite Eth| | | |done].
    - apply containers_insert_nil; [|done]. by apply containers_register.
    - assert (rt_current_thread k' = rt_current_thread k) as -> by (by injection Ec). done.
    - intros t Ht. rewrite Eth. destruct (Hoth t Ht) as [? (U1 & U2 & U3 & U4)]. split; [done|]. unfold mq_lists.
      split_and!; (apply detached_insert_nil; [|done]; by apply detached_register).
    - intros b Hb. destruct (Hnew b Hb) as [(N1 & N2 & N3) N4]. rewrite Em. split; [|done]. unfold mq_lists.
      split_and!; (apply detached_insert_nil; [|done]; by apply detached_register).
    - intros b Hb. destruct (Hmb b Hb) as [[R1 R2 R3 R4] R5]. rewrite Em. split; [|done].
      split; [| |by rewrite Eo|by rewrite Em]; apply waiters_insert_nil; by apply waiters_register. }
  destruct (negb _); by apply wp_ret.
Qed.

Lemma cpu_part_current k k' : cpu_part k' = cpu_part k -> rt_current_thread k' = rt_current_thread k.
Proof. by intros [= -> _]. Qed.

Lemma boot_detached n :
  n <> ObjNode (OSemaphore heap_sem) -> n <> ObjHead RT_Object_Class_Semaphore -> detached boot_lists n.
Proof.
  intros H1 H2 l xs. unfold boot_lists. rewrite !lookup_insert_Some.
  intros [[<- <-]|[_ [[<- <-]|[_ H]]]]; [split; [apply not_elem_of_nil|done]|split; [set_solver|congruence]|].
  unfold empty_lists in H. apply elem_of_list_to_map_2, list_elem_of_fmap in H as (m & [= _ ->] & _).
  split; [apply not_elem_of_nil|done].
Qed.

Lemma boot_start : boot [] [] false booted boot_lists.
Proof.
  split; try done; [exact booted_KI|exact boot_containers|..].
  - by intros d ?%not_elem_of_nil.
  - intros t _. split; [reflexivity|]. split_and!; by apply boot_detached.
  - intros b _. split; [split_and!; by apply boot_detached|reflexivity].
  - by intros b ?%not_elem_of_nil.
  - split; by apply boot_detached.
Qed.

(** ** The thread "init" *)

Section start.
Context (entry_of stack_of : nat -> Z).
Context (init_thread : option nat) (init_stack : option Z) (init_entry result : Z).

(** The stacks are where the address space has room for them; the heap gives the
    thread "init" a struct of its own. *)
Hypothesis stacks_ok : forall t, (t <= idle)%nat -> 0 <= stack_of t /\ stack_of t + 4096 < 2 ^ 32.
Hypothesis init_ok : forall t, init_thread = Some t -> (idle < t)%nat.
Hypothesis init_stack_ok : forall a, init_stack = Some a -> 0 <= a /\ a + 2048 < 2 ^ 32.

Definition init_threads : list static_thread :=
  match init_thread, init_stack with
  | Some t, Some a => [mk_static t (chars "init") init_entry a 2048 8 20]
  | _, _ => []
  end.

Lemma init_ids t : (t <= idle)%nat -> t ∉ st_id <$> init_threads.
Proof.
  intros Ht. unfold init_threads. destruct init_thread as [s|], init_stack as [a|]; try apply not_elem_of_nil.
  specialize (init_ok s eq_refl). simpl. intros [->|[]%not_elem_of_nil]%elem_of_cons. simpl in *. lia.
Qed.

Lemma boot_init :
  wp (let! t := rt_thread_create init_thread init_stack (chars "init") init_entry 0 2048 8 20 in
      match t with Some t => rt_thread_startup t ;! ret tt | None => ret tt end)
    (fun _ k' => exists Q', boot init_threads [] false k' Q') booted.
Proof.
  pose proof boot_start as Hb.
  assert (forall t, threads booted t = zero_thread /\ unused boot_lists t) as Hz.
  { intros t. apply (bt_other _ _ _ _ _ Hb). apply not_elem_of_nil. }
  wp_use (rt_thread_create_spec booted boot_lists init_thread init_stack);
    [apply Hb|apply Hb|intros t _; destruct (Hz t) as [-> ?]; split; [apply zero_not_live|done]|].
  intros r k1 H1. unfold init_threads. destruct init_thread as [t|].
  - destruct init_stack as [a|].
    + destruct H1 as (-> & Hk1 & Ee & Ec & _ & Ho & Hfn & Ha & Eth). rewrite (proj1 (Hz t)) in Eth.
      destruct (init_stack_ok a eq_refl). set (d := mk_static t (chars "init") init_entry a 2048 8 20).
      wp_use (boot_startup [] [] false booted boot_lists k1 d); try done.
      * apply not_elem_of_nil.
      * intros _ k2 Hb2. wp_pure. eauto.
    + destruct H1 as (-> & Eth & Ee & Ec & Ho & Hk1 & _). wp_pure. exists (released t boot_lists).
      eapply (boot_frame []); [exact Hb|apply released_frame|done|done| |done|by intros d ?%not_elem_of_nil|].
      * rewrite (cpu_part_current booted k1 Ec). apply Hb.
      * intros s _. rewrite Eth. destruct (Hz s) as [E Hu]. split; [done|].
        destruct (decide (s = t)) as [->|Hne]; [by apply released_unused|by apply (released_frame t)].
  - destruct H1 as [-> ->]. wp_pure. eauto.
Qed.

(** ** The application *)

Lemma robot_ok t nm size_ p : (t <= idle)%nat -> 76 <= size_ <= 4096 -> 0 <= p < 32 ->
  static_ok (robot_thread entry_of stack_of t nm size_ p).
Proof.
  intros Ht Hs Hp. destruct (stacks_ok t Ht). unfold static_ok. simpl. unfold RT_THREAD_PRIORITY_MAX. lia.
Qed.

Definition d_idle : static_thread :=
  mk_static idle tidle (entry_of idle) (stack_of idle) IDLE_THREAD_STACK_SIZE (RT_THREAD_PRIORITY_MAX - 1) 32.

(** The threads of the system, the last one started first *)
Definition app_threads : list static_thread :=
  [d_realspe entry_of stack_of; d_tim entry_of stack_of; d_test entry_of stack_of; d_FATfs entry_of stack_of;
   d_arm entry_of stack_of; d_auto entry_of stack_of; d_handle_Y entry_of stack_of; d_handle entry_of stack_of;
   d_emergency entry_of stack_of; d_lcd_refresh entry_of stack_of; d_keyboard entry_of stack_of] ++ init_threads.

Definition app_mailboxes : list nat := [Mb_Arm; Mb_Auto; Mb_Emergency; Mb_Key].

Lemma fresh_id t (ds : list static_thread) :
  (t <= idle)%nat -> forallb (fun d => negb (st_id d =? t)%nat) ds = true ->
  t ∉ st_id <$> (ds ++ init_threads).
Proof.
  intros Ht Hds. rewrite fmap_app. intros [Hin|Hin]%elem_of_app; [|by apply init_ids in Hin].
  apply list_elem_of_fmap in Hin as (d & -> & Hd). rewrite forallb_forall in Hds.
  specialize (Hds d (proj1 (list_elem_of_In _ _) Hd)). by rewrite Nat.eqb_refl in Hds.
Qed.

(** The next thread is started after [ds]. *)
Ltac boot_next ds :=
  wp_step; eapply wp_mono;
    [eapply boot_static;
      [eassumption|apply robot_ok; [vm_compute; lia|lia|unfold RT_THREAD_PRIORITY_MAX; lia]
      |apply (fresh_id _ ds); [vm_compute; lia|reflexivity]]
    |cbv beta; intros _ ? ?].
Ltac boot_next_mb :=
  wp_step; eapply wp_mono;
    [eapply boot_mb_init; [eassumption|vm_compute; set_solver]|cbv beta; intros _ ? ?].

Lemma boot_app :
  wp (rt_application_init entry_of stack_of init_thread init_stack init_entry result)
    (fun _ k' => exists Q', boot app_threads app_mailboxes true k' Q') booted.
Proof.
  unfold rt_application_init. apply wp_assoc. wp_step.
  eapply wp_mono; [exact boot_init|]. cbv beta. intros [] k1 [Q1 Hb1].
  wp_step. eapply wp_mono.
  { eapply (boot_keyboard _ _ _ _ _ (d_keyboard entry_of stack_of)); [exact Hb1|
      apply robot_ok; [vm_compute; lia|lia|lia]|apply init_ids; vm_compute; lia]. }
  cbv beta. intros [] k2 Hb2. set (e := entry_of) in *. set (s := stack_of) in *.
  boot_next [d_keyboard e s].
  boot_next [d_lcd_refresh e s; d_keyboard e s].
  boot_next [d_emergency e s; d_lcd_refresh e s; d_keyboard e s].
  boot_next [d_handle e s; d_emergency e s; d_lcd_refresh e s; d_keyboard e s].
  boot_next [d_handle_Y e s; d_handle e s; d_emergency e s; d_lcd_refresh e s; d_keyboard e s].
  boot_next [d_auto e s; d_handle_Y e s; d_handle e s; d_emergency e s; d_lcd_refresh e s; d_keyboard e s].
  boot_next [d_arm e s; d_auto e s; d_handle_Y e s; d_handle e s; d_emergency e s; d_lcd_refresh e s; d_keyboard e s].
  boot_next [d_FATfs e s; d_arm e s; d_auto e s; d_handle_Y e s; d_handle e s; d_emergency e s; d_lcd_refresh e s;
    d_keyboard e s].
  boot_next [d_test e s; d_FATfs e s; d_arm e s; d_auto e s; d_handle_Y e s; d_handle e s; d_emergency e s;
    d_lcd_refresh e s; d_keyboard e s].
  boot_next [d_tim e s; d_test e s; d_FATfs e s; d_arm e s; d_auto e s; d_handle_Y e s; d_handle e s;
    d_emergency e s; d_lcd_refresh e s; d_keyboard e s].
  do 4 boot_next_mb.
  wp_step. eapply wp_mono; [eapply boot_mq_init; eassumption|]. cbv beta. intros _ k3 Hb3.
  apply wp_ret. eexists. exact Hb3.
Qed.

(** ** The first thread *)

Lemma scheduler_start_spec k Q t0 :
  KI k Q -> readyp (threads k t0) ->
  wp rt_system_scheduler_start (fun _ k' => exists t,
    k' = set_switches (SwitchTo t :: switches k) (set_rt_current_thread (Some t) k) /\ readyp (threads k t) /\
    forall s, readyp (threads k s) -> current_priority (threads k t) <= current_priority (threads k s)) k.
Proof.
  intros Hk Hr. destruct (highest_ready_next (activated k) k Q t0 Hk Hr) as (t & (xs & Hq & Hmin) & Hrt & Hp & _).
  unfold rt_system_scheduler_start. wp_step. apply wp_get. wp_step.
  eapply wp_first_thread; [apply Hk|exact Hq|]. wp_pure. exists t. split_and!; [done|done|].
  intros s Hs. destruct (highest_ready_next (activated k) k Q s Hk Hs) as (_ & _ & _ & _ & Hle). lia.
Qed.

(** C2: From reset to the first thread: the structures of the kernel are consistent,
    every thread of the robot is ready at its entry function with a fresh stack,
    the mailboxes and the message queue are empty, and the emergency thread runs;
    also when the heap has no memory for the thread "init". *)
Theorem robot_startup_spec :
  wp (robot_startup entry_of stack_of init_thread init_stack init_entry result) (fun _ k' => exists Q,
    KI k' Q /\ rt_current_thread k' = Some thread_emergency /\
    (forall d, d ∈ d_idle :: app_threads -> threads k' (st_id d) = at_entry d zero_thread) /\
    (forall b, b ∈ app_mailboxes -> mb_rep k' Q b [] [] /\ contents (mailboxes k' b) = []) /\
    (exists fs, mq_rep k' Q mq_sd [] fs [])) kernel_image.
Proof.
  unfold robot_startup, rtthread_startup. wp_step. eapply wp_intro; [exact rt_system_init_runs|].
  wp_step. eapply wp_mono; [exact boot_app|]. cbv beta. intros _ k1 [Q1 Hb1].
  wp_step. eapply wp_mono.
  { eapply (boot_keyboard _ _ _ _ _ d_idle); [exact Hb1| |].
    - destruct (stacks_ok idle ltac:(done)). unfold static_ok. simpl.
      unfold RT_THREAD_PRIORITY_MAX, IDLE_THREAD_STACK_SIZE. lia.
    - apply (fresh_id _ (take 11 app_threads)); [vm_compute; lia|reflexivity]. }
  cbv beta. intros [] k2 [Hk Hc Hcur Hst Hoth Hnew Hmb Hmq]. set (Q2 := static_lists d_idle Q1) in *.
  assert (threads k2 thread_emergency = at_entry (d_emergency entry_of stack_of) zero_thread) as Hem.
  { apply (Hst (d_emergency entry_of stack_of)). unfold app_threads. simpl. set_solver. }
  eapply wp_mono; [eapply (scheduler_start_spec k2 Q2 thread_emergency); [done|by rewrite Hem]|].
  cbv beta. intros [] k3 (t & -> & Hr & Hmin). exists Q2.
  assert (t = thread_emergency) as ->.
  2: { split_and!; [exact Hk|done|exact Hst| |].
    - intros b Hb. destruct (Hmb b Hb) as [[R1 R2 R3 R4] R5]. by split.
    - destruct Hmq as [fs [R1 R2 R3 R4]]. exists fs. by split. }
  specialize (Hmin thread_emergency ltac:(by rewrite Hem)). rewrite Hem in Hmin. simpl in Hmin.
  destruct (decide (t ∈ st_id <$> d_idle :: app_threads)) as [Hin|Hnin].
  - apply list_elem_of_fmap in Hin as (d & -> & Hd). rewrite (Hst d Hd) in Hmin. simpl in Hmin.
    assert (forallb (fun d => (4 <? st_priority d) || (st_id d =? thread_emergency)%nat) (d_idle :: app_threads) = true) as H.
    { unfold app_threads, init_threads. by destruct init_thread, init_stack. }
    rewrite forallb_forall in H. specialize (H d (proj1 (list_elem_of_In _ _) Hd)).
    apply orb_true_iff in H as [H|H]; [lia|by apply Nat.eqb_eq in H].
  - destruct (Hoth t Hnin) as [E _]. exfalso. apply zero_not_live. left. by rewrite <- E.
Qed.
End start.
End boot.
