(* ===== verification/Emergency.v ===== *)
(** The emergency stop (Thread/t_emergency.c, the keyboard interrupt of
    drivers/stm32f4xx_it.c): the mailboxes of the automatic run are emptied, its threads
    go back to their entry functions, the motors get a stop frame and the display the
    main menu.

    The handler works on the kernel and on the globals of the application: [robot].
    It runs with interrupts disabled, so no other thread or handler interleaves. *)

From S2P Require Import Prelude RtList KState Ffs KInv Sched Object Timer Thread ThreadLife Ipc.
From S2P Require Import Mailbox MsgQueue KCheck Idle Restart Startup Dynamic CanData CanCmd CanSafe Lcd Menu App Boot.

Open Scope list_scope.
Open Scope Z_scope.

(** * Operations *)




Section handler.
Context (entry_of stack_of : nat -> Z) (can_busy : list io_event -> Z -> bool).


End handler.

(** USART2_IRQHandler, the interrupt of the keyboard: [KeyValue] is the byte received. *)
Definition USART2_IRQHandler (KeyValue : Z) : K unit :=
  rt_interrupt_enter ;!
  (if KeyValue =? 6 then rt_mb_send Mb_Emergency KeyValue ;! ret tt
   else rt_mb_send Mb_Key KeyValue ;! ret tt) ;!
  rt_interrupt_leave.

(** * The kernel side *)

Section kernel_side.
Implicit Types (k : kernel) (Q : gmap node (list node)) (t b : nat) (d : static_thread) (ts : list nat).






(** ** The mailboxes *)









(** ** The threads *)







End kernel_side.

(** * The globals *)

Section globals_side.
Implicit Types (s : io) (x : string).
Context (can_busy : list io_event -> Z -> bool).














End globals_side.

(** * The whole handler *)

Section whole.
Implicit Types (k : kernel) (Q : gmap node (list node)) (d : static_thread).
Context (entry_of stack_of : nat -> Z) (can_busy : list io_event -> Z -> bool).
Hypothesis stacks_ok : forall t, (t <= idle)%nat -> 0 <= stack_of t /\ stack_of t + 4096 < 2 ^ 32.














(** ** Assembly *)





End whole.

(** * The key *)

Section key.
Implicit Types (k : kernel) (Q : gmap node (list node)).

(** The emergency thread waits for its mailbox, and is more urgent than all others. *)
Record waits_for_key k Q : Prop := {
  wk_KI : KI k Q;
  wk_mb : mb_rep k Q Mb_Emergency [thread_emergency] [];
  wk_empty : contents (mailboxes k Mb_Emergency) = [];
  wk_prio : current_priority (threads k thread_emergency) = 4;
  wk_low : forall s, s <> thread_emergency -> live (threads k s) -> 4 < current_priority (threads k s) }.

(** The emergency thread is ready and more urgent than all others. *)
Lemma emergency_most_urgent k t :
  current_priority (threads k thread_emergency) = 4 ->
  (forall s, s <> thread_emergency -> live (threads k s) -> 4 < current_priority (threads k s)) ->
  readyp (threads k t) -> current_priority (threads k t) <= 4 -> t = thread_emergency.
Proof.
  intros Hp Hlow Hr Hle. destruct (decide (t = thread_emergency)) as [|Hne]; [done|].
  specialize (Hlow t Hne (or_introl Hr)). lia.
Qed.

(** The rt_exit_critical that unlocks the scheduler lets it run. *)
Lemma emergency_unlocked k Q :
  KI k Q -> readyp (threads k thread_emergency) -> current_priority (threads k thread_emergency) = 4 ->
  (forall s, s <> thread_emergency -> live (threads k s) -> 4 < current_priority (threads k s)) ->
  rt_scheduler_lock_nest k = 1 ->
  wp rt_exit_critical (fun _ k' => rt_current_thread k' = Some thread_emergency /\ threads k' = threads k /\
    mailboxes k' = mailboxes k) k.
Proof.
  intros Hk Hr Hp Hlow Hn. unfold rt_exit_critical. wp_pure. cbn [rt_scheduler_lock_nest set_rt_scheduler_lock_nest].
  rewrite Hn. change (s16 (1 - 1)) with 0. change (0 <=? 0) with true. cbv iota. wp_pure. set (k1 := set_rt_scheduler_lock_nest 0 _).
  assert (KI k1 Q) as Hk1 by exact Hk.
  wp_use (rt_schedule_spec _ k1 Q thread_emergency); [exact Hk1|exact Hr|]. intros [] k2 Hs.
  destruct (scheduled_frame _ _ _ Hs) as (Eth & Ee & _). destruct (scheduled_most_urgent _ k1 Q k2 Hk1 Hs eq_refl) as (t & xs & H1 & H2 & _ & H3 & _).
  split_and!; [|exact Eth|].
  - rewrite H1. f_equal. rewrite Eth in H2, H3. specialize (H3 _ Hr). change (threads k1) with (threads k) in *.
    rewrite Hp in H3. by apply (emergency_most_urgent k).
  - unfold env, ipc_part in Ee. by injection Ee.
Qed.

(** C4: The emergency key, pressed while the emergency thread waits at its empty mailbox and
    all other threads are less urgent, whichever of them runs: the key is in the mailbox, the
    emergency thread is ready and no other thread has changed. With the scheduler unlocked the
    emergency thread runs before the interrupted thread continues; while the scheduler is
    locked (as for the writes to the SD card) the interrupted thread continues, and the
    rt_exit_critical that unlocks the scheduler lets the emergency thread run. *)
Theorem emergency_key_preempts k Q :
  waits_for_key k Q ->
  wp (USART2_IRQHandler 6) (fun _ k' =>
    (exists Q', KI k' Q' /\ mb_rep k' Q' Mb_Emergency [] []) /\ contents (mailboxes k' Mb_Emergency) = [6] /\
    readyp (threads k' thread_emergency) /\ (forall t, t <> thread_emergency -> threads k' t = threads k t) /\
    if decide (rt_scheduler_lock_nest k = 0) then rt_current_thread k' = Some thread_emergency
    else rt_current_thread k' = rt_current_thread k /\
      (rt_scheduler_lock_nest k = 1 -> wp rt_exit_critical (fun _ k2 =>
         rt_current_thread k2 = Some thread_emergency /\ contents (mailboxes k2 Mb_Emergency) = [6]) k')) k.
Proof.
  intros [Hk Hmb Hem Hp Hlow]. unfold USART2_IRQHandler, rt_interrupt_enter. wp_step. apply wp_modify.
  set (k1 := set_rt_interrupt_nest _ k). assert (mb_rep k1 Q Mb_Emergency [thread_emergency] []) as Hmb1 by (by destruct Hmb).
  change (6 =? 6) with true. cbv iota. wp_step. wp_step.
  eapply wp_mono; [apply (rt_mb_send_spec k1 Q Mb_Emergency [thread_emergency] [] 6); [exact Hk|exact Hmb1]|].
  cbv beta. intros r k2 (Q2 & rs2 & Hk2 & Hmb2 & _ & Honly & H).
  assert (is_full (mailboxes k1 Mb_Emergency) = false) as Hfull.
  { pose proof (mbr_ok _ _ _ _ _ Hmb) as Hok. pose proof (contents_length _ Hok) as Hlen. rewrite Hem in Hlen.
    unfold is_full. change (mailboxes k1) with (mailboxes k). rewrite <- Hlen. destruct Hok. apply Z.eqb_neq. simpl. lia. }
  rewrite Hfull in H. destruct H as (-> & Hc & Eth & -> & Hpre & Hlocked).
  change (mailboxes k1) with (mailboxes k) in Hc. rewrite Hem in Hc.
  change (threads k1) with (threads k) in Eth. simpl in Eth.
  assert (readyp (threads k2 thread_emergency) /\ current_priority (threads k2 thread_emergency) = 4) as [Hr2 Hp2].
  { rewrite Eth, fn_lookup_insert. done. }
  assert (forall s, s <> thread_emergency -> live (threads k2 s) -> 4 < current_priority (threads k2 s)) as Hlow2.
  { intros s Hne. rewrite Eth, fn_lookup_insert_ne by done. by apply Hlow. }
  assert (rt_scheduler_lock_nest k2 = rt_scheduler_lock_nest k) as En.
  { destruct Honly as (_ & _ & _ & _ & _ & En & _). unfold nest_part in En. by injection En. }
  apply wp_ret. unfold rt_interrupt_leave. apply wp_modify. split_and!.
  - exists Q2. split; [exact Hk2|]. by destruct Hmb2.
  - exact Hc.
  - exact Hr2.
  - intros t Hne. simpl. by rewrite Eth, fn_lookup_insert_ne.
  - case_decide as Hl; simpl.
    + destruct (Hpre ltac:(done) Hl) as (t & Hcur & Hrt & Hmin). rewrite Hcur. f_equal. specialize (Hmin _ Hr2). rewrite Hp2 in Hmin.
      by apply (emergency_most_urgent k2).
    + split; [by apply Hlocked|]. intros Hl1. set (k3 := set_rt_interrupt_nest _ k2).
      eapply wp_mono; [apply (emergency_unlocked k3 Q2); [exact Hk2|exact Hr2|exact Hp2|exact Hlow2|by simpl; rewrite En]|].
      cbv beta. intros _ k4 (H1 & _ & H2). split; [done|]. by rewrite H2.
Qed.
End key.
