(* ===== verification/RobotScenarios.v ===== *)
(** Concrete runs of the robot's own code: the CAN database is set up from globals
    that are all zero, and the theorems on it are applied there. *)

From S2P Require Import Prelude RtList KState KInv Sched Object Timer Thread ThreadLife Ipc Mailbox MsgQueue.
From S2P Require Import KCheck Idle Restart Startup Dynamic Scenarios CanData CanCmd CanSafe Lcd Menu App Boot Emergency.

Open Scope Z_scope.

(** The globals after Hash_Table_init *)
Definition ready_io : io :=
  put_array "HASH_TABLE" hash_table (put_array "Can_Data_Num" [db_num] zero_io).

Definition never_busy (l : list io_event) (canx : Z) : bool := false.

(** Busy for two attempts *)
Definition twice_busy (l : list io_event) (canx : Z) : bool := (length l <? 2)%nat.

(** [io_ok] checked over the declared variables *)
Definition shape_okb (s : io) : bool :=
  forallb (fun p => match globals s !! p.1 with
                    | Some a => (Z.of_nat (length a) =? p.2) && forallb (fits p.1) a
                    | None => false
                    end) variables.

Lemma assoc_elem x l n : assoc x l = Some n -> (x, n) ∈ l.
Proof.
  induction l as [|[y m] l IH]; simpl; [done|]. destruct (String.eqb_spec x y) as [->|].
  - intros [= ->]. apply elem_of_cons. by left.
  - intros H. apply elem_of_cons. right. by apply IH.
Qed.

Lemma shape_okb_ok s : hash_ready s -> shape_okb s = true -> io_ok s.
Proof.
  intros Hh H. split; [done|]. intros x n Hx. apply assoc_elem in Hx. unfold shape_okb in H.
  rewrite forallb_forall in H. specialize (H (x, n)). rewrite <- list_elem_of_In in H. specialize (H Hx).
  simpl in H. destruct (globals s !! x) as [a|] eqn:E; [|done]. exists a.
  apply andb_true_iff in H as [Hl Hf]. split_and!; [done|lia|].
  apply Forall_forall. intros v Hv. rewrite forallb_forall in Hf. apply Is_true_true, Hf. by apply list_elem_of_In.
Qed.

Lemma ready_hash : hash_ready ready_io.
Proof. split; vm_compute; reflexivity. Qed.

Lemma ready_ok : io_ok ready_io.
Proof. apply shape_okb_ok; [exact ready_hash|]. vm_compute. reflexivity. Qed.

(** * Witnesses *)

Definition motor1 : Can_Data := default (mk_can 0 0 "" 0 None 0 0)
  (Can_Database !! Z.to_nat (index_of W_MOTOR1_OLD_ID)).

Lemma Hash_Table_init_witness : wp Hash_Table_init (fun _ s' => exists h, has s' "HASH_TABLE" h /\
    h !! Z.to_nat (Data_ID motor1) = Some (index_of W_MOTOR1_OLD_ID)) zero_io.
Proof.
  eapply wp_mono.
  - apply (Hash_Table_init_index zero_io (replicate 256 0) 0); vm_compute; reflexivity.
  - cbv beta. intros _ s' (h & Hh & _ & H & _). exists h. split; [exact Hh|].
    refine (H (Z.to_nat (index_of W_MOTOR1_OLD_ID)) motor1 _). vm_compute. reflexivity.
Defined.

Lemma Write_Database_witness :
  wp (Write_Database twice_busy (Data_ID motor1)) (fun _ s' => globals s' = globals ready_io /\
    sent_frame twice_busy (Channel motor1) (frame_of motor1 (replicate 8 0)) (log ready_io) (log s')) ready_io.
Proof.
  apply (Write_Database_spec twice_busy ready_io (Z.to_nat (index_of W_MOTOR1_OLD_ID)) motor1 (replicate 8 0));
    [exact ready_hash| | |]; vm_compute; [reflexivity|reflexivity|discriminate].
Defined.

(** 0xff is the identifier of no entry. *)
Lemma Write_Database_unknown_witness : Write_Database never_busy 0xff ready_io = Fail BadPointer.
Proof.
  apply (Write_Database_unknown never_busy ready_io 0xff); [exact ready_hash|lia|].
  intros e He E. assert (forallb (fun e => negb (Data_ID e =? 0xff)) Can_Database = true) as H
    by (vm_compute; reflexivity).
  rewrite forallb_forall in H. specialize (H e). rewrite <- list_elem_of_In in H. specialize (H He).
  rewrite E in H. discriminate H.
Defined.

Definition camera1 : Can_Data := default (mk_can 0 0 "" 0 None 0 0)
  (Can_Database !! Z.to_nat (index_of S_CAMERA1_ID)).

Lemma CAN_RX_safe_witness :
  wp (CAN_RX_IRQHandler never_busy (Data_ID camera1) [1; 2; 3; 4; 5; 6; 7; 8]) (fun _ s' => io_ok s') ready_io.
Proof.
  apply (CAN_RX_safe never_busy ready_io (Z.to_nat (index_of S_CAMERA1_ID)) camera1 S_CAMERA1_fn);
    [exact ready_ok|vm_compute; reflexivity|vm_compute; reflexivity|discriminate|vm_compute; discriminate|].
  repeat constructor; lia.
Defined.

Lemma CAN_RX_relay_witness : CAN_RX_IRQHandler never_busy W_RELAY1_ID [3] ready_io = Fail NullDeref.
Proof. apply (CAN_RX_relay never_busy ready_io 3); [exact ready_ok|lia]. Defined.

Lemma W_MOTOR_OLD_witness :
  wp (W_MOTOR_OLD_FUNC never_busy (Data_ID motor1) 70000 (-300) 4) (fun _ s' => exists data,
    sent_frame never_busy (Channel motor1) (mk_tx (Data_ID motor1) 8 data) (log ready_io) (log s') /\
    of_bytes (take 4 data) = 70000 /\ s16 (of_bytes (take 2 (drop 4 data))) = -300 /\
    data !! 7%nat = Some 4) ready_io.
Proof.
  eapply wp_mono.
  - apply (W_MOTOR_OLD_roundtrip never_busy ready_io (Z.to_nat (index_of W_MOTOR1_OLD_ID)) motor1 70000 (-300) 4);
      [exact ready_ok|vm_compute; reflexivity|lia|lia|lia].
  - cbv beta. intros _ s'. destruct (decide _) as [_|Hn].
    + intros (data & H1 & _ & H2 & H3 & H4 & _). exists data. split_and!; assumption.
    + exfalso. apply Hn. vm_compute. split; discriminate.
Defined.

Lemma relay_op_witness :
  wp (relay_op never_busy true 20) (fun _ s' => io_ok s' /\
    sent_frame never_busy 2 (mk_tx W_RELAY2_ID 1 [131]) (log ready_io) (log s') /\
    wp (relay_attain 20) (fun r s'' => s'' = s' /\ r = 1) s') ready_io.
Proof.
  eapply wp_mono.
  - apply (relay_op_spec never_busy true 20 ready_io 0); [exact ready_ok|lia|vm_compute; reflexivity].
  - cbv beta. intros _ s' (Hok & Hsent & H). split_and!; [exact Hok|exact Hsent|exact (H 20 ltac:(lia))].
Defined.

(** * The robot *)

Definition robot_entry (t : nat) : Z := 134217728 + 256 * Z.of_nat t.
Definition robot_stack (t : nat) : Z := 536870912 + 4096 * Z.of_nat t.

Lemma robot_stacks : forall t, (t <= idle)%nat -> 0 <= robot_stack t /\ robot_stack t + 4096 < 2 ^ 32.
Proof. intros t Ht. unfold robot_stack, idle in *. lia. Qed.

Definition robot_reset : K unit := robot_startup robot_entry robot_stack (Some 12%nat) (Some 537001984) 134221824 7.

(** The threads run until they wait: the emergency, keyboard, arm and auto threads
    for their mailboxes, others for a while; "init" ends and the display is refreshed. *)
Definition robot_script : K unit :=
  robot_reset ;!
  rt_mb_recv Mb_Emergency RT_WAITING_FOREVER ;!
  rt_thread_sleep 2 ;!
  rt_mb_recv Mb_Key RT_WAITING_FOREVER ;!
  rt_thread_sleep 3 ;!
  rt_thread_sleep 4 ;!
  rt_thread_exit ;!
  rt_thread_sleep 5 ;!
  rt_mb_recv Mb_Arm RT_WAITING_FOREVER ;!
  rt_mb_recv Mb_Auto RT_WAITING_FOREVER ;!
  ret tt.

Definition running : kernel := trim 13 (after robot_script kernel_image).

Lemma running_lcd : rt_current_thread running = Some thread_lcd_refresh.
Proof. vm_compute. reflexivity. Qed.

Lemma running_KI : KI running (lists_of running).
Proof. apply trim_KI. vm_compute. reflexivity. Qed.

(** Every thread but [t] is less urgent than [p]. *)
Definition boundedb (n : nat) (t : nat) (p : Z) (k : kernel) : bool :=
  forallb (fun s => (s =? t)%nat || negb (liveb (threads k s)) || (p <? current_priority (threads k s))) (seq 0 n).

Lemma trim_bounded n t p k : boundedb n t p (trim n k) = true ->
  forall s, s <> t -> live (threads (trim n k) s) -> p < current_priority (threads (trim n k) s).
Proof.
  unfold boundedb. rewrite forallb_forall. intros H s Hne Hl. destruct (decide (s < n)%nat) as [Hs|Hs].
  - specialize (H s ltac:(apply in_seq; lia)). rewrite (proj2 (Nat.eqb_neq _ _) Hne) in H.
    assert (liveb (threads (trim n k) s) = true) as E.
    { unfold liveb. destruct Hl as [E|E]; unfold readyp, suspendedp in E; rewrite E; reflexivity. }
    rewrite E in H. apply Z.ltb_lt. exact H.
  - exfalso. assert (threads (trim n k) s = zero_thread) as E.
    { unfold trim. cbn [threads set_threads]. by rewrite (proj2 (Nat.ltb_ge s n)) by lia. }
    rewrite E in Hl. by apply zero_not_live in Hl.
Qed.

Lemma robot_startup_witness : exists k', robot_reset kernel_image = Ret tt k' /\
  rt_current_thread k' = Some thread_emergency.
Proof.
  destruct (wp_returns _ _ _ (robot_startup_spec robot_entry robot_stack (Some 12%nat) (Some 537001984) 134221824 7
    robot_stacks ltac:(intros t [= <-]; unfold idle; lia) ltac:(intros a [= <-]; lia)))
    as ([] & k' & E & Q & _ & H & _).
  exists k'. split; [exact E|exact H].
Defined.

Lemma running_key : waits_for_key running (lists_of running).
Proof.
  split.
  - exact running_KI.
  - split; [unfold waiters; vm_compute; reflexivity|unfold waiters; vm_compute; reflexivity|left; vm_compute; reflexivity|].
    split; vm_compute; try split; congruence.
  - vm_compute. reflexivity.
  - vm_compute. reflexivity.
  - apply trim_bounded. vm_compute. reflexivity.
Qed.

(** The same in the middle of a write to the SD card *)
Definition writing : kernel := set_rt_scheduler_lock_nest 1 running.

Lemma writing_locked : rt_scheduler_lock_nest writing = 1.
Proof. reflexivity. Qed.
Lemma writing_lcd : rt_current_thread writing = Some thread_lcd_refresh.
Proof. vm_compute. reflexivity. Qed.
Lemma running_unlocked : rt_scheduler_lock_nest running = 0.
Proof. vm_compute. reflexivity. Qed.

Lemma waits_for_key_locked n k Q : waits_for_key k Q -> waits_for_key (set_rt_scheduler_lock_nest n k) Q.
Proof. intros [H1 [M1 M2 M3 M4] H3 H4 H5]. split; [exact H1|by split|exact H3|exact H4|exact H5]. Qed.

Lemma writing_key : waits_for_key writing (lists_of running).
Proof. apply waits_for_key_locked, running_key. Qed.

Lemma key_witness : (exists k', USART2_IRQHandler 6 running = Ret tt k' /\
    rt_current_thread k' = Some thread_emergency /\ contents (mailboxes k' Mb_Emergency) = [6]) /\
  exists k1 k2, USART2_IRQHandler 6 writing = Ret tt k1 /\ rt_current_thread k1 = Some thread_lcd_refresh /\
    rt_exit_critical k1 = Ret tt k2 /\ rt_current_thread k2 = Some thread_emergency.
Proof.
  split.
  - destruct (wp_returns _ _ _ (emergency_key_preempts running (lists_of running) running_key))
      as ([] & k' & E & _ & H1 & _ & _ & H2).
    exists k'. split; [exact E|]. rewrite decide_True in H2 by exact running_unlocked. split; [exact H2|exact H1].
  - destruct (wp_returns _ _ _ (emergency_key_preempts writing (lists_of running) writing_key))
      as ([] & k1 & E & _ & _ & _ & _ & H2).
    rewrite decide_False in H2 by (rewrite writing_locked; discriminate). destruct H2 as [H2 H3].
    destruct (wp_returns _ _ _ (H3 writing_locked)) as ([] & k2 & E2 & H4 & _). exists k1, k2.
    split; [exact E|]. split; [exact (eq_trans H2 writing_lcd)|]. split; [exact E2|exact H4].
Defined.









(** No list has the node [n]. *)
Lemma thread_create_witness : exists k', rt_thread_create (Some 13%nat) (Some 537010176) [110] 134225920 0 1024 20 5 running
  = Ret (Some 13%nat) k' /\ dynamic k' 13.
Proof.
  destruct (wp_returns _ _ _ (rt_thread_create_spec running (lists_of running) (Some 13%nat) (Some 537010176) [110]
    134225920 0 1024 20 5 running_KI (containersb_ok (lists_of running) ltac:(vm_compute; reflexivity))
    ltac:(intros t [= <-]; split; [exact zero_not_live|split_and!; apply detachedb_ok; vm_compute; reflexivity])))
    as (r & k' & E & -> & _ & _ & _ & H & _).
  exists k'. split; [exact E|exact H].
Defined.

(** * Display, keyboard and menus *)

Lemma ready_lcd : exists t i, has ready_io "LCD_Table" t /\ length t = 160%nat /\ has ready_io "LCD_Index" [i].
Proof. exists (replicate 160 0), 0. split_and!; vm_compute; reflexivity. Qed.

(** -375 is typed as "-", "3", "7", "5", OK, with pauses between. *)
Lemma Input_IntValue_witness : wp (Int2Str (-375)) (fun _ s1 => exists b str,
  has s1 "DataConvBuff" b /\ until_zero b = Some str /\
  forall keys, omap id keys = typed str ->
    wp (Input_IntValue "armtest_flag" (chars "flag") keys) (fun r s2 => r = true /\ has s2 "armtest_flag" [-375]) s1) ready_io.
Proof.
  apply (Input_IntValue_roundtrip "armtest_flag" ltac:(split_and!; discriminate) 0 (-375) (chars "flag") ready_io).
  - split; [exact ready_lcd|exists (replicate 25 0); split; vm_compute; reflexivity|vm_compute; reflexivity].
  - lia.
  - lia.
  - vm_compute. lia.
Defined.

Definition no_function (f : string) : M io unit := ret tt.

Lemma KeyNumOperate_witness :
  wp (KeyNumOperate no_function 1) (fun _ s' => shows_menu (next_menu MainMenu 1) s') ready_io /\
  fails (KeyNumOperate no_function 7) ready_io.
Proof.
  assert (on_menu MainMenu ready_io) as Hs by (split; [vm_compute; reflexivity|exact ready_lcd]).
  assert (MainMenu ∈ menus) as Hm by by left.
  split.
  - eapply wp_mono; [exact (KeyNumOperate_spec no_function MainMenu 1 ready_io Hm Hs ltac:(discriminate))|].
    cbv beta. intros _ s' (_ & H & _). exact H.
  - exact (KeyNumOperate_spec no_function MainMenu 7 ready_io Hm Hs ltac:(discriminate)).
Defined.
