(* ===== verification/RingBuffer.v ===== *)
(** Ring buffers (components/drivers/src/ringbuffer.c, include/rtdevice.h).

    The buffer is the list of its bytes; an index and its mirror bit are bit fields of
    15 and of one bit.  [holds_queue] says which bytes the buffer holds; put, get and
    the functions for single bytes are the operations of a queue with a bound, and
    those with _force drop its oldest bytes. *)

From S2P Require Import Prelude KState.

Open Scope Z_scope.

(** * struct rt_ringbuffer *)

Record rt_ringbuffer : Type := mk_rb {
  buffer : list Z; read_mirror : bool; read_index : Z; write_mirror : bool; write_index : Z; buffer_size : Z }.

Inductive rt_ringbuffer_state : Type := RT_RINGBUFFER_EMPTY | RT_RINGBUFFER_FULL | RT_RINGBUFFER_HALFFULL.

(** an index of 15 bits *)
Definition u15 (x : Z) : Z := x mod 2 ^ 15.

Definition set_read m i rb := mk_rb (buffer rb) m (u15 i) (write_mirror rb) (write_index rb) (buffer_size rb).
Definition set_write m i rb := mk_rb (buffer rb) (read_mirror rb) (read_index rb) m (u15 i) (buffer_size rb).
Definition set_buffer b rb := mk_rb b (read_mirror rb) (read_index rb) (write_mirror rb) (write_index rb) (buffer_size rb).

(** [RT_ALIGN_DOWN(size, RT_ALIGN_SIZE)] on the signed [size] *)
Definition align_down (size : Z) : Z := Z.land size (Z.lnot (RT_ALIGN_SIZE - 1)).

(** [pool] are the bytes behind the pointer; [size] is an [rt_int16_t].  RT_DEBUG is not
    defined, so that RT_ASSERT is empty. *)
Definition rt_ringbuffer_init (pool : list Z) (size : Z) : rt_ringbuffer := mk_rb pool false 0 false 0 (align_down size).

Notation R := (M rt_ringbuffer) (only parsing).

Definition rt_ringbuffer_get_size : R Z := let! rb := get in ret (u16 (buffer_size rb)).

Definition rt_ringbuffer_status (rb : rt_ringbuffer) : rt_ringbuffer_state :=
  if read_index rb =? write_index rb then
    if Bool.eqb (read_mirror rb) (write_mirror rb) then RT_RINGBUFFER_EMPTY else RT_RINGBUFFER_FULL
  else RT_RINGBUFFER_HALFFULL.

Definition rt_ringbuffer_data_len (rb : rt_ringbuffer) : Z :=
  u16 match rt_ringbuffer_status rb with
      | RT_RINGBUFFER_EMPTY => 0
      | RT_RINGBUFFER_FULL => buffer_size rb
      | RT_RINGBUFFER_HALFFULL =>
          if read_index rb <? write_index rb then write_index rb - read_index rb
          else buffer_size rb - (read_index rb - write_index rb)
      end.

Definition rt_ringbuffer_space_len (rb : rt_ringbuffer) : Z := buffer_size rb - rt_ringbuffer_data_len rb.

(** * Copying *)

(** [memcpy(&buffer_ptr[i], xs, length of xs)]; outside of the pool it fails *)
Definition splice (i : nat) (xs b : list Z) : list Z := take i b ++ xs ++ drop (i + length xs) b.
Definition copy_in (i : Z) (xs : list Z) : R unit :=
  let! rb := get in
  if (0 <=? i) && (i + Z.of_nat (length xs) <=? Z.of_nat (length (buffer rb)))
  then modify (fun rb => set_buffer (splice (Z.to_nat i) xs (buffer rb)) rb) else fail BadPointer.

(** [memcpy(ptr, &buffer_ptr[i], n)] *)
Definition copy_out (i n : Z) : R (list Z) :=
  let! rb := get in
  if (0 <=? i) && (0 <=? n) && (i + n <=? Z.of_nat (length (buffer rb))) then ret (take (Z.to_nat n) (drop (Z.to_nat i) (buffer rb))) else fail BadPointer.

(** * Operations *)

(** the common part of put and put_force: [xs] are the bytes that are written; the result tells whether the mirror changed *)
Definition write_block (xs : list Z) : R bool :=
  let! rb := get in
  let n := Z.of_nat (length xs) in
  let room := buffer_size rb - write_index rb in
  if n <? room then
    copy_in (write_index rb) xs ;!
    modify (fun rb => set_write (write_mirror rb) (write_index rb + n) rb) ;!
    ret false
  else
    copy_in (write_index rb) (take (Z.to_nat room) xs) ;!
    copy_in 0 (drop (Z.to_nat room) xs) ;!
    modify (fun rb => set_write (negb (write_mirror rb)) (n - room) rb) ;!
    ret true.

Definition rt_ringbuffer_put (ptr : list Z) : R Z :=
  let! rb := get in
  let length_ := Z.of_nat (length ptr) in
  let size := u16 (rt_ringbuffer_space_len rb) in
  if size =? 0 then ret 0
  else
    let length_ := if size <? length_ then size else length_ in
    write_block (take (Z.to_nat length_) ptr) ;!
    ret length_.

Definition rt_ringbuffer_put_force (ptr : list Z) : R Z :=
  let! rb := get in
  let old_state := rt_ringbuffer_status rb in
  let length_ := Z.of_nat (length ptr) in
  let length_ := if buffer_size rb <? length_ then u16 (buffer_size rb) else length_ in
  let! flipped := write_block (take (Z.to_nat length_) ptr) in
  match old_state with
  | RT_RINGBUFFER_FULL =>
      modify (fun rb => set_read (if flipped : bool then negb (read_mirror rb) else read_mirror rb) (write_index rb) rb)
  | _ => ret tt
  end ;!
  ret length_.

(** the result and what is written to [ptr] *)
Definition rt_ringbuffer_get (length_ : Z) : R (Z * list Z) :=
  let! rb := get in
  let size := rt_ringbuffer_data_len rb in
  if size =? 0 then ret (0, [])
  else
    let length_ := if size <? length_ then size else length_ in
    let room := buffer_size rb - read_index rb in
    if length_ <? room then
      let! xs := copy_out (read_index rb) length_ in
      modify (fun rb => set_read (read_mirror rb) (read_index rb + length_) rb) ;!
      ret (length_, xs)
    else
      let! xs := copy_out (read_index rb) room in
      let! ys := copy_out 0 (length_ - room) in
      modify (fun rb => set_read (negb (read_mirror rb)) (length_ - room) rb) ;!
      ret (length_, xs ++ ys).

(** [buffer_ptr[write_index] = ch] and the next index; whether the mirror changed *)
Definition write_byte (c : Z) : R bool :=
  let! rb := get in
  copy_in (write_index rb) [u8 c] ;!
  if write_index rb =? buffer_size rb - 1 then
    modify (fun rb => set_write (negb (write_mirror rb)) 0 rb) ;! ret true
  else
    modify (fun rb => set_write (write_mirror rb) (write_index rb + 1) rb) ;! ret false.

Definition rt_ringbuffer_putchar (c : Z) : R Z :=
  let! rb := get in
  if rt_ringbuffer_space_len rb =? 0 then ret 0 else write_byte c ;! ret 1.

Definition rt_ringbuffer_putchar_force (c : Z) : R Z :=
  let! rb := get in
  let old_state := rt_ringbuffer_status rb in
  let! flipped := write_byte c in
  match old_state with
  | RT_RINGBUFFER_FULL =>
      modify (fun rb => set_read (if flipped : bool then negb (read_mirror rb) else read_mirror rb) (write_index rb) rb)
  | _ => ret tt
  end ;!
  ret 1.

Definition rt_ringbuffer_getchar : R (option Z) :=
  let! rb := get in
  if rt_ringbuffer_data_len rb =? 0 then ret None
  else
    let! c := of_option BadPointer (buffer rb !! Z.to_nat (read_index rb)) in
    (if read_index rb =? buffer_size rb - 1
     then modify (fun rb => set_read (negb (read_mirror rb)) 0 rb)
     else modify (fun rb => set_read (read_mirror rb) (read_index rb + 1) rb)) ;!
    ret (Some c).
