(* ===== verification/RingBufferSpec.v ===== *)
(** Ring buffers are queues with a bound. *)

From S2P Require Import Prelude RingBuffer.

Open Scope Z_scope.

(** * The bytes in the buffer *)

(** a position behind the end of the buffer is one at its beginning *)
Definition wrap (size x : Z) : Z := if x <? size then x else x - size.

Definition cell (rb : rt_ringbuffer) (x : Z) : option Z := buffer rb !! Z.to_nat (wrap (buffer_size rb) x).

Record indices_ok (rb : rt_ringbuffer) : Prop := {
  size_ok : 0 < buffer_size rb < 2 ^ 15;
  pool_ok : buffer_size rb <= Z.of_nat (length (buffer rb));
  read_ok : 0 <= read_index rb < buffer_size rb;
  write_ok : 0 <= write_index rb < buffer_size rb }.

(** the positions count on through the mirror *)
Definition write_position (rb : rt_ringbuffer) : Z := write_index rb + (if Bool.eqb (read_mirror rb) (write_mirror rb) then 0 else buffer_size rb).

Record holds_queue (rb : rt_ringbuffer) (q : list Z) : Prop := {
  queue_indices : indices_ok rb;
  queue_length : write_position rb = read_index rb + Z.of_nat (length q);
  queue_bound : Z.of_nat (length q) <= buffer_size rb;
  queue_bytes : forall i, (i < length q)%nat -> cell rb (read_index rb + Z.of_nat i) = q !! i }.

Lemma wrap_range size x : 0 <= x < 2 * size -> 0 <= wrap size x < size.
Proof. unfold wrap. destruct (Z.ltb_spec x size); lia. Qed.

Lemma data_len_spec rb q : holds_queue rb q -> rt_ringbuffer_data_len rb = Z.of_nat (length q).
Proof.
  intros [[Hs Hp Hr Hw] Hl Hb _]. unfold rt_ringbuffer_data_len, rt_ringbuffer_status, write_position in *.
  destruct (Z.eqb_spec (read_index rb) (write_index rb)), (Bool.eqb _ _); try destruct (Z.ltb_spec (read_index rb) (write_index rb)); rewrite u16_small by lia; lia.
Qed.

Lemma space_len_spec rb q : holds_queue rb q -> rt_ringbuffer_space_len rb = buffer_size rb - Z.of_nat (length q).
Proof. intros H. unfold rt_ringbuffer_space_len. by rewrite (data_len_spec rb q). Qed.

Lemma status_full rb q : holds_queue rb q -> rt_ringbuffer_status rb = RT_RINGBUFFER_FULL <-> Z.of_nat (length q) = buffer_size rb.
Proof.
  intros [[Hs Hp Hr Hw] Hl Hb _]. unfold rt_ringbuffer_status, write_position in *.
  destruct (Z.eqb_spec (read_index rb) (write_index rb)), (Bool.eqb _ _); split; intros; try done; lia.
Qed.

(** * Writing *)

Lemma splice_lookup i xs b p : (i + length xs <= length b)%nat ->
  splice i xs b !! p = if decide (i <= p < i + length xs)%nat then xs !! (p - i)%nat else b !! p.
Proof.
  intros Hl. unfold splice. destruct (decide _) as [Hp|Hp].
  - rewrite lookup_app_r by (rewrite length_take; lia). rewrite length_take, lookup_app_l by lia. f_equal. lia.
  - destruct (decide (p < i)%nat); [by rewrite lookup_app_l, lookup_take_lt by (rewrite ?length_take; lia)|].
    rewrite lookup_app_r by (rewrite length_take; lia). rewrite length_take, lookup_app_r by lia. rewrite lookup_drop. f_equal. lia.
Qed.

Lemma length_splice i xs b : (i + length xs <= length b)%nat -> length (splice i xs b) = length b.
Proof. intros Hl. unfold splice. rewrite !length_app, length_take, length_drop. lia. Qed.

Lemma copy_in_Ret i xs rb : 0 <= i -> i + Z.of_nat (length xs) <= Z.of_nat (length (buffer rb)) ->
  copy_in i xs rb = Ret tt (set_buffer (splice (Z.to_nat i) xs (buffer rb)) rb).
Proof. intros. unfold copy_in, bind, get. by rewrite (proj2 (Z.leb_le 0 i)), (proj2 (Z.leb_le _ _)) by lia. Qed.

(** the buffer with [xs] written from the write index on, and the index after them *)
Record written (rb : rt_ringbuffer) (xs : list Z) (flipped : bool) (rb' : rt_ringbuffer) : Prop := {
  written_size : buffer_size rb' = buffer_size rb;
  written_length : length (buffer rb') = length (buffer rb);
  written_read : read_index rb' = read_index rb /\ read_mirror rb' = read_mirror rb;
  written_mirror : write_mirror rb' = xorb (write_mirror rb) flipped;
  written_index : write_index rb' + (if flipped then buffer_size rb else 0) = write_index rb + Z.of_nat (length xs);
  written_range : 0 <= write_index rb' < buffer_size rb;
  written_cells : forall k, 0 <= k < buffer_size rb ->
    cell rb' (write_index rb + k) = if decide (k < Z.of_nat (length xs)) then xs !! Z.to_nat k else cell rb (write_index rb + k) }.

Lemma u15_small x : 0 <= x < 2 ^ 15 -> u15 x = x.
Proof. apply Z.mod_small. Qed.

Lemma write_block_spec xs rb : indices_ok rb -> Z.of_nat (length xs) <= buffer_size rb ->
  exists b rb', write_block xs rb = Ret b rb' /\ written rb xs b rb'.
Proof.
  intros [Hs Hp Hr Hw] Hn. set (w := write_index rb) in *. set (size := buffer_size rb) in *. unfold write_block, bind at 1, get. fold w size.
  destruct (Z.ltb_spec (Z.of_nat (length xs)) (size - w)) as [Hlt|Hge].
  - eexists false, _. split.
    { unfold bind at 1. rewrite copy_in_Ret by lia. done. }
    assert (write_index rb + Z.of_nat (length xs) < 2 ^ 15) by (fold w; lia).
    split; cbn; [done|by apply length_splice; lia|done|by destruct (write_mirror rb)|rewrite u15_small by (fold w; lia); lia|rewrite u15_small by (fold w; lia); fold w; lia|].
    intros k Hk. unfold cell. cbn. fold w size. rewrite splice_lookup by lia. unfold wrap.
    destruct (Z.ltb_spec (w + k) size), (decide (k < _)); destruct (decide _); try lia; try done. f_equal. lia.
  - set (room := size - w) in *. set (xs1 := take (Z.to_nat room) xs). set (xs2 := drop (Z.to_nat room) xs).
    assert (length xs1 = Z.to_nat room) as L1 by (unfold xs1; rewrite length_take; lia).
    assert (length xs2 = length xs - Z.to_nat room)%nat as L2 by (unfold xs2; apply length_drop).
    assert (length (splice (Z.to_nat w) xs1 (buffer rb)) = length (buffer rb)) as L3 by (apply length_splice; lia).
    eexists true, _. split.
    { unfold bind at 1. rewrite copy_in_Ret by lia. unfold bind at 1. rewrite copy_in_Ret by (cbn; rewrite ?L3; lia). done. }
    split; cbn; try done.
    + by rewrite length_splice by (rewrite L3, L2; simpl; lia).
    + rewrite u15_small by lia. fold size w. lia.
    + rewrite u15_small by lia. lia.
    + intros k Hk. unfold cell. cbn. fold w size. change (Z.to_nat 0) with O. rewrite splice_lookup by (rewrite L3, L2; simpl; lia). rewrite splice_lookup by lia.
      rewrite L1, L2. unfold wrap. destruct (Z.ltb_spec (w + k) size) as [Hin|Hout].
      * rewrite decide_False by lia. destruct (decide (k < _)); [|lia]. rewrite decide_True by lia. unfold xs1. rewrite lookup_take_lt by lia. f_equal. lia.
      * destruct (decide (k < Z.of_nat (length xs))).
        -- rewrite decide_True by lia. unfold xs2. rewrite lookup_drop. f_equal. lia.
        -- rewrite decide_False by lia. rewrite decide_False by lia. done.
Qed.

Lemma written_indices rb xs b rb' : indices_ok rb -> written rb xs b rb' -> indices_ok rb'.
Proof. intros [Hs Hp Hr Hw] [W1 W2 [W3 _] _ _ W6 _]. split; rewrite ?W1, ?W2, ?W3; done. Qed.

(** bytes behind the queue *)
Lemma written_append rb q xs b rb' : holds_queue rb q -> Z.of_nat (length xs) <= buffer_size rb - Z.of_nat (length q) -> written rb xs b rb' ->
  holds_queue rb' (q ++ xs).
Proof.
  intros [Hi Hl Hb Hq] Hn Hw. pose proof (written_indices _ _ _ _ Hi Hw) as Hi'. destruct Hi as [Hs Hp Hr Hwr]. destruct Hw as [W1 W2 [W3 W3'] W4 W5 W6 W7].
  unfold write_position in *. split; [done| | |].
  - unfold write_position. rewrite W1, W3, W3', W4, length_app. destruct (read_mirror rb), (write_mirror rb), b; simpl in *; lia.
  - rewrite W1, length_app. lia.
  - intros i Hlt. rewrite length_app in Hlt. rewrite W3. set (size := buffer_size rb) in *.
    assert (exists k, 0 <= k < size /\ wrap size (read_index rb + Z.of_nat i) = wrap size (write_index rb + k) /\
      k = if decide (i < length q)%nat then size - Z.of_nat (length q) + Z.of_nat i else Z.of_nat i - Z.of_nat (length q)) as (k & Hk & Ek & Dk).
    { eexists. split; [|split; [|done]]; [destruct (decide _); lia|]. unfold wrap. destruct (decide (i < length q)%nat), (Bool.eqb _ _);
        repeat match goal with |- context [?x <? ?y] => destruct (Z.ltb_spec x y) end; lia. }
    assert (cell rb' (read_index rb + Z.of_nat i) = cell rb' (write_index rb + k)) as -> by (unfold cell; rewrite W1; by rewrite Ek).
    rewrite W7 by done. destruct (decide (i < length q)%nat).
    + rewrite decide_False by lia. rewrite lookup_app_l by done. rewrite <-(Hq i) by done. unfold cell. fold size. by rewrite Ek.
    + rewrite decide_True by lia. rewrite lookup_app_r by lia. f_equal. lia.
Qed.

(** bytes into a full buffer: the read index follows *)
Lemma written_force rb q xs b rb' : holds_queue rb q -> Z.of_nat (length q) = buffer_size rb -> Z.of_nat (length xs) <= buffer_size rb -> written rb xs b rb' ->
  holds_queue (set_read (if b then negb (read_mirror rb') else read_mirror rb') (write_index rb') rb') (drop (length xs) q ++ xs).
Proof.
  intros [Hi Hl Hb Hq] Hfull Hn Hw. pose proof (written_indices _ _ _ _ Hi Hw) as Hi'. destruct Hi as [Hs Hp Hr Hwr]. destruct Hw as [W1 W2 [W3 W3'] W4 W5 W6 W7].
  unfold write_position in *. assert (u15 (write_index rb') = write_index rb') as Eu by (apply u15_small; lia).
  assert (write_index rb = read_index rb /\ Bool.eqb (read_mirror rb) (write_mirror rb) = false) as [Ew Em] by (destruct (Bool.eqb _ _); lia).
  split.
  - destruct Hi' as [A1 A2 A3 A4]. split; cbn; rewrite ?Eu; done.
  - unfold write_position. cbn. rewrite W1, W3', W4, Eu, length_app, length_drop. destruct (read_mirror rb), (write_mirror rb), b; simpl in *; lia.
  - cbn. rewrite W1, length_app, length_drop. lia.
  - intros i Hlt. rewrite length_app, length_drop in Hlt. cbn [read_index set_read]. rewrite Eu. set (size := buffer_size rb) in *.
    assert (exists k, 0 <= k < size /\ wrap size (write_index rb' + Z.of_nat i) = wrap size (write_index rb + k) /\
      k = if decide (i < length q - length xs)%nat then Z.of_nat (length xs) + Z.of_nat i else Z.of_nat i + Z.of_nat (length xs) - size) as (k & Hk & Ek & Dk).
    { eexists. split; [|split; [|done]]; [destruct (decide _); lia|]. unfold wrap. destruct (decide (i < length q - length xs)%nat), b;
        repeat match goal with |- context [?x <? ?y] => destruct (Z.ltb_spec x y) end; lia. }
    assert (cell (set_read (if b then negb (read_mirror rb') else read_mirror rb') (write_index rb') rb') (write_index rb' + Z.of_nat i) = cell rb' (write_index rb + k)) as ->
      by (unfold cell; cbn; rewrite W1; by rewrite Ek).
    rewrite W7 by done. destruct (decide (i < length q - length xs)%nat).
    + rewrite decide_False by lia. rewrite lookup_app_l by (rewrite length_drop; lia). rewrite lookup_drop, <-(Hq (length xs + i)%nat) by lia.
      unfold cell. fold size. do 3 f_equal. lia.
    + rewrite decide_True by lia. rewrite lookup_app_r by (rewrite length_drop; lia). rewrite length_drop. f_equal. lia.
Qed.

(** * Reading *)

(** the first [n] bytes gone *)
Lemma read_advance rb q n : holds_queue rb q -> 0 <= n <= Z.of_nat (length q) ->
  holds_queue (if n <? buffer_size rb - read_index rb then set_read (read_mirror rb) (read_index rb + n) rb
               else set_read (negb (read_mirror rb)) (n - (buffer_size rb - read_index rb)) rb) (drop (Z.to_nat n) q).
Proof.
  intros [[Hs Hp Hr Hwr] Hl Hb Hq] Hn. unfold write_position in *. destruct (Z.ltb_spec n (buffer_size rb - read_index rb)).
  - assert (u15 (read_index rb + n) = read_index rb + n) as Eu by (apply u15_small; lia). split.
    + split; cbn; rewrite ?Eu; done || lia.
    + unfold write_position. cbn. rewrite Eu, length_drop. lia.
    + cbn. rewrite length_drop. lia.
    + intros i Hi. rewrite length_drop in Hi. cbn [read_index set_read]. rewrite Eu, lookup_drop, <-(Hq (Z.to_nat n + i)%nat) by lia. unfold cell. cbn. do 3 f_equal. lia.
  - assert (u15 (n - (buffer_size rb - read_index rb)) = n - (buffer_size rb - read_index rb)) as Eu by (apply u15_small; lia). split.
    + split; cbn; rewrite ?Eu; done || lia.
    + unfold write_position. cbn. rewrite Eu, length_drop. destruct (read_mirror rb), (write_mirror rb); simpl in *; lia.
    + cbn. rewrite length_drop. lia.
    + intros i Hi. rewrite length_drop in Hi. cbn [read_index set_read]. rewrite Eu, lookup_drop, <-(Hq (Z.to_nat n + i)%nat) by lia. unfold cell. cbn.
      f_equal. f_equal. unfold wrap. repeat match goal with |- context [?x <? ?y] => destruct (Z.ltb_spec x y) end; lia.
Qed.

Lemma copy_out_Ret i n rb : 0 <= i -> 0 <= n -> i + n <= Z.of_nat (length (buffer rb)) ->
  copy_out i n rb = Ret (take (Z.to_nat n) (drop (Z.to_nat i) (buffer rb))) rb.
Proof. intros. unfold copy_out, bind, get. by rewrite (proj2 (Z.leb_le 0 i)), (proj2 (Z.leb_le 0 n)), (proj2 (Z.leb_le _ _)) by lia. Qed.

(** the bytes that are copied out, in two parts or in one *)
Lemma read_bytes rb q n : holds_queue rb q -> 0 <= n <= Z.of_nat (length q) ->
  (if n <? buffer_size rb - read_index rb then take (Z.to_nat n) (drop (Z.to_nat (read_index rb)) (buffer rb))
   else take (Z.to_nat (buffer_size rb - read_index rb)) (drop (Z.to_nat (read_index rb)) (buffer rb)) ++ take (Z.to_nat (n - (buffer_size rb - read_index rb))) (buffer rb)) =
  take (Z.to_nat n) q.
Proof.
  intros [[Hs Hp Hr Hwr] Hl Hb Hq] Hn. apply list_eq_same_length with (n := Z.to_nat n).
  - rewrite length_take. lia.
  - destruct (Z.ltb_spec n (buffer_size rb - read_index rb)); rewrite ?length_app, !length_take, length_drop; lia.
  - intros i x y Hi Hx Hy. rewrite lookup_take_lt in Hy by lia. rewrite <-(Hq i) in Hy by lia. unfold cell, wrap in Hy.
    destruct (Z.ltb_spec n (buffer_size rb - read_index rb)).
    + rewrite lookup_take_lt, lookup_drop in Hx by lia. rewrite (proj2 (Z.ltb_lt _ _)) in Hy by lia. replace (Z.to_nat (read_index rb + Z.of_nat i)) with (Z.to_nat (read_index rb) + i)%nat in Hy by lia. congruence.
    + destruct (Z.ltb_spec (read_index rb + Z.of_nat i) (buffer_size rb)).
      * rewrite lookup_app_l in Hx by (rewrite length_take, length_drop; lia). rewrite lookup_take_lt, lookup_drop in Hx by lia.
        replace (Z.to_nat (read_index rb + Z.of_nat i)) with (Z.to_nat (read_index rb) + i)%nat in Hy by lia. congruence.
      * rewrite lookup_app_r in Hx by (rewrite length_take, length_drop; lia). rewrite length_take, length_drop in Hx. rewrite lookup_take_lt in Hx by lia.
        replace (Z.to_nat (read_index rb + Z.of_nat i - buffer_size rb)) with (i - (Z.to_nat (buffer_size rb - read_index rb) `min` (length (buffer rb) - Z.to_nat (read_index rb))))%nat in Hy by lia. congruence.
Qed.

(** * Refinement of a queue *)

(** what the users of a ring buffer do *)
Inductive rb_call : Type :=
| Put (ptr : list Z)
| PutForce (ptr : list Z)
| Get (length_ : Z)
| PutChar (c : Z)
| PutCharForce (c : Z)
| GetChar.

(** the result and the bytes that are delivered *)
Definition rb_run (c : rb_call) : M rt_ringbuffer (Z * list Z) :=
  match c with
  | Put ptr => let! n := rt_ringbuffer_put ptr in ret (n, [])
  | PutForce ptr => let! n := rt_ringbuffer_put_force ptr in ret (n, [])
  | Get n => rt_ringbuffer_get n
  | PutChar c => let! n := rt_ringbuffer_putchar c in ret (n, [])
  | PutCharForce c => let! n := rt_ringbuffer_putchar_force c in ret (n, [])
  | GetChar => let! c := rt_ringbuffer_getchar in ret (match c with Some c => (1, [c]) | None => (0, []) end)
  end.

(** the same on a queue of at most [size] bytes *)
Definition queue_run (size : nat) (c : rb_call) (q : list Z) : (Z * list Z) * list Z :=
  match c with
  | Put ptr => let n := Nat.min (length ptr) (size - length q) in ((Z.of_nat n, []), q ++ take n ptr)
  | PutForce ptr => let n := Nat.min (length ptr) size in ((Z.of_nat n, []), drop (length q + n - size) q ++ take n ptr)
  | Get n => let k := Nat.min (Z.to_nat n) (length q) in ((Z.of_nat k, take k q), drop k q)
  | PutChar c => if (length q <? size)%nat then ((1, []), q ++ [u8 c]) else ((0, []), q)
  | PutCharForce c => ((1, []), drop (length q + 1 - size) q ++ [u8 c])
  | GetChar => match q with [] => ((0, []), []) | c :: q => ((1, [c]), q) end
  end.

(** calls that are in the domain of the functions; put_force only keeps its promise when the buffer is full or has room *)
Definition rb_call_ok (size : nat) (c : rb_call) (q : list Z) : Prop :=
  match c with
  | Put ptr => Z.of_nat (length ptr) < 2 ^ 16
  | PutForce ptr => Z.of_nat (length ptr) < 2 ^ 16 /\ (length q = size \/ (length q + length ptr `min` size <= size)%nat)
  | Get n => 0 <= n < 2 ^ 16
  | _ => True
  end.

Definition does (rb : rt_ringbuffer) (c : rb_call) (q : list Z) : Prop :=
  exists rb', rb_run c rb = Ret (queue_run (Z.to_nat (buffer_size rb)) c q).1 rb' /\
    holds_queue rb' (queue_run (Z.to_nat (buffer_size rb)) c q).2 /\ buffer_size rb' = buffer_size rb.

Lemma put_does rb q ptr : holds_queue rb q -> Z.of_nat (length ptr) < 2 ^ 16 -> does rb (Put ptr) q.
Proof.
  intros Hq Hp. pose proof Hq as [[Hs _ _ _] _ Hb _]. unfold does, rb_run, queue_run, rt_ringbuffer_put. cbv zeta. cbn [fst snd].
  unfold bind at 1. unfold bind at 1, get. rewrite (space_len_spec rb q Hq), u16_small by lia.
  destruct (Z.eqb_spec (buffer_size rb - Z.of_nat (length q)) 0) as [E|E].
  { exists rb. replace (length ptr `min` (Z.to_nat (buffer_size rb) - length q))%nat with O by lia. rewrite take_0, app_nil_r. done. }
  set (n := (length ptr `min` (Z.to_nat (buffer_size rb) - length q))%nat).
  assert ((if buffer_size rb - Z.of_nat (length q) <? Z.of_nat (length ptr) then buffer_size rb - Z.of_nat (length q) else Z.of_nat (length ptr)) = Z.of_nat n) as ->
    by (destruct (Z.ltb_spec (buffer_size rb - Z.of_nat (length q)) (Z.of_nat (length ptr))); lia).
  rewrite Nat2Z.id. assert (length (take n ptr) = n) as Ln by (rewrite length_take; lia).
  destruct (write_block_spec (take n ptr) rb (queue_indices _ _ Hq) ltac:(lia)) as (b & rb' & E1 & Hw). unfold bind. rewrite E1.
  exists rb'. split; [done|]. split; [|apply Hw]. eapply written_append; [done| |exact Hw]. lia.
Qed.

(** write a block and, when the buffer was full, let the read index follow *)
Lemma force_does rb q xs b rb' : holds_queue rb q -> Z.of_nat (length xs) <= buffer_size rb ->
  Z.of_nat (length q) = buffer_size rb \/ Z.of_nat (length q) + Z.of_nat (length xs) <= buffer_size rb ->
  written rb xs b rb' ->
  exists rb2, (match rt_ringbuffer_status rb with
    | RT_RINGBUFFER_FULL => modify (fun rb => set_read (if b : bool then negb (read_mirror rb) else read_mirror rb) (write_index rb) rb)
    | _ => ret tt end) rb' = Ret tt rb2 /\
    holds_queue rb2 (drop (length q + length xs - Z.to_nat (buffer_size rb)) q ++ xs) /\ buffer_size rb2 = buffer_size rb.
Proof.
  intros Hq Hn Hc Hw. pose proof (status_full rb q Hq) as Hst. pose proof (written_size _ _ _ _ Hw) as Hsz.
  destruct (decide (Z.of_nat (length q) = buffer_size rb)) as [E|E].
  - rewrite (proj2 Hst E). eexists. split; [done|]. split; [|done].
    replace (length q + length xs - Z.to_nat (buffer_size rb))%nat with (length xs) by lia. by eapply written_force.
  - assert (rt_ringbuffer_status rb <> RT_RINGBUFFER_FULL) as Hne by (intros F; by apply E, Hst).
    exists rb'. split; [by destruct (rt_ringbuffer_status rb)|]. split; [|done].
    replace (length q + length xs - Z.to_nat (buffer_size rb))%nat with O by lia. rewrite drop_0. eapply written_append; [done|lia|exact Hw].
Qed.

Lemma put_force_does rb q ptr : holds_queue rb q -> rb_call_ok (Z.to_nat (buffer_size rb)) (PutForce ptr) q -> does rb (PutForce ptr) q.
Proof.
  intros Hq [Hp Hc]. pose proof Hq as [[Hs _ _ _] _ Hb _]. unfold does, rb_run, queue_run, rt_ringbuffer_put_force. cbv zeta. cbn [fst snd].
  unfold bind at 1. unfold bind at 1, get. set (n := (length ptr `min` Z.to_nat (buffer_size rb))%nat).
  assert ((if buffer_size rb <? Z.of_nat (length ptr) then u16 (buffer_size rb) else Z.of_nat (length ptr)) = Z.of_nat n) as ->
    by (rewrite u16_small by lia; destruct (Z.ltb_spec (buffer_size rb) (Z.of_nat (length ptr))); lia).
  rewrite Nat2Z.id. assert (length (take n ptr) = n) as Ln by (rewrite length_take; lia).
  destruct (write_block_spec (take n ptr) rb (queue_indices _ _ Hq) ltac:(lia)) as (b & rb' & E1 & Hw).
  destruct (force_does rb q (take n ptr) b rb' Hq ltac:(lia) ltac:(lia) Hw) as (rb2 & E2 & Hq2 & Hs2).
  unfold bind. rewrite E1, E2. exists rb2. rewrite Ln in Hq2. done.
Qed.

(** a byte is a block of one *)
Lemma splice_nil b : splice 0 [] b = b.
Proof. unfold splice. by rewrite drop_0. Qed.

Lemma write_byte_block c rb : indices_ok rb -> write_byte c rb = write_block [u8 c] rb.
Proof.
  intros [Hs Hp Hr Hw]. unfold write_byte, write_block, bind, get. cbn [length]. rewrite copy_in_Ret by (simpl; lia).
  destruct (Z.eqb_spec (write_index rb) (buffer_size rb - 1)) as [E|E].
  - rewrite (proj2 (Z.ltb_ge _ _)) by lia. replace (Z.to_nat (buffer_size rb - write_index rb)) with 1%nat by lia. cbn [take drop].
    rewrite copy_in_Ret by (simpl; lia). rewrite copy_in_Ret by (cbn; lia).
    change (Z.to_nat 0) with O. rewrite splice_nil. replace (Z.of_nat 1 - (buffer_size rb - write_index rb)) with 0 by lia. done.
  - rewrite (proj2 (Z.ltb_lt _ _)) by lia. by rewrite copy_in_Ret by (simpl; lia).
Qed.

Lemma putchar_does rb q c : holds_queue rb q -> does rb (PutChar c) q.
Proof.
  intros Hq. pose proof Hq as [[Hs _ _ _] _ Hb _]. unfold does, rb_run, queue_run, rt_ringbuffer_putchar. unfold bind at 1. unfold bind at 1, get. rewrite (space_len_spec rb q Hq).
  destruct (Nat.ltb_spec (length q) (Z.to_nat (buffer_size rb))) as [Hlt|Hge].
  - rewrite (proj2 (Z.eqb_neq _ 0)) by lia. destruct (write_block_spec [u8 c] rb (queue_indices _ _ Hq) ltac:(simpl; lia)) as (b & rb' & E1 & Hw).
    unfold bind. rewrite write_byte_block, E1 by apply Hq. exists rb'. split; [done|]. split; [|apply Hw]. eapply written_append; [done| |exact Hw]. simpl. lia.
  - rewrite (proj2 (Z.eqb_eq _ 0)) by lia. exists rb. done.
Qed.

Lemma putchar_force_does rb q c : holds_queue rb q -> does rb (PutCharForce c) q.
Proof.
  intros Hq. pose proof Hq as [[Hs _ _ _] _ Hb _]. unfold does, rb_run, queue_run, rt_ringbuffer_putchar_force. cbn [fst snd]. unfold bind at 1. unfold bind at 1, get.
  destruct (write_block_spec [u8 c] rb (queue_indices _ _ Hq) ltac:(simpl; lia)) as (b & rb' & E1 & Hw).
  destruct (force_does rb q [u8 c] b rb' Hq ltac:(simpl; lia) ltac:(simpl; lia) Hw) as (rb2 & E2 & Hq2 & Hs2).
  unfold bind. rewrite write_byte_block, E1, E2 by apply Hq. exists rb2. done.
Qed.

Lemma get_does rb q n : holds_queue rb q -> 0 <= n < 2 ^ 16 -> does rb (Get n) q.
Proof.
  intros Hq Hn. pose proof Hq as [[Hs Hp Hr _] _ Hb _]. unfold does, rb_run, queue_run, rt_ringbuffer_get. cbv zeta. cbn [fst snd].
  unfold bind at 1, get. rewrite (data_len_spec rb q Hq). destruct (Z.eqb_spec (Z.of_nat (length q)) 0) as [E|E].
  { exists rb. replace (Z.to_nat n `min` length q)%nat with O by lia. rewrite take_0, drop_0. done. }
  set (k := (Z.to_nat n `min` length q)%nat).
  assert ((if Z.of_nat (length q) <? n then Z.of_nat (length q) else n) = Z.of_nat k) as -> by (destruct (Z.ltb_spec (Z.of_nat (length q)) n); lia).
  pose proof (read_advance rb q (Z.of_nat k) Hq ltac:(lia)) as Ha. pose proof (read_bytes rb q (Z.of_nat k) Hq ltac:(lia)) as Hby. rewrite Nat2Z.id in Ha, Hby.
  destruct (Z.ltb_spec (Z.of_nat k) (buffer_size rb - read_index rb)).
  - unfold bind at 1. rewrite copy_out_Ret by lia. rewrite Nat2Z.id, Hby. eexists. split; [done|]. done.
  - unfold bind at 1. rewrite copy_out_Ret by lia. unfold bind at 1. rewrite copy_out_Ret by lia. rewrite drop_0, Hby. eexists. split; [done|]. done.
Qed.

Lemma getchar_does rb q : holds_queue rb q -> does rb GetChar q.
Proof.
  intros Hq. pose proof Hq as [[Hs Hp Hr _] _ Hb _]. unfold does, rb_run, queue_run, rt_ringbuffer_getchar. unfold bind at 1. unfold bind at 1, get. rewrite (data_len_spec rb q Hq).
  destruct q as [|c q]; [by exists rb|]. cbn [length]. rewrite (proj2 (Z.eqb_neq _ 0)) by lia.
  pose proof (queue_bytes _ _ Hq 0%nat ltac:(simpl; lia)) as Hc. unfold cell, wrap in Hc. rewrite (proj2 (Z.ltb_lt _ _)) in Hc by lia. rewrite Z.add_0_r in Hc.
  rewrite Hc. cbn [of_option lookup list_lookup]. unfold bind, ret.
  pose proof (read_advance rb (c :: q) 1 Hq ltac:(simpl; lia)) as Ha. change (drop (Z.to_nat 1) (c :: q)) with (drop 0 q) in Ha. rewrite drop_0 in Ha.
  destruct (Z.eqb_spec (read_index rb) (buffer_size rb - 1)) as [E|E].
  - rewrite (proj2 (Z.ltb_ge _ _)) in Ha by lia. replace (1 - (buffer_size rb - read_index rb)) with 0 in Ha by lia. eexists. done.
  - rewrite (proj2 (Z.ltb_lt _ _)) in Ha by lia. eexists. done.
Qed.

Lemma call_does rb q c : holds_queue rb q -> rb_call_ok (Z.to_nat (buffer_size rb)) c q -> does rb c q.
Proof. destruct c; simpl; auto using put_does, put_force_does, get_does, putchar_does, putchar_force_does, getchar_does. Qed.

(** ** Sequences of calls *)

Fixpoint rb_runs (cs : list rb_call) : M rt_ringbuffer (list (Z * list Z)) :=
  match cs with [] => ret [] | c :: cs => let! r := rb_run c in let! rs := rb_runs cs in ret (r :: rs) end.

Fixpoint queue_runs (size : nat) (cs : list rb_call) (q : list Z) : list (Z * list Z) * list Z :=
  match cs with
  | [] => ([], q)
  | c :: cs => let r := queue_run size c q in let rs := queue_runs size cs r.2 in (r.1 :: rs.1, rs.2)
  end.

Fixpoint rb_calls_ok (size : nat) (cs : list rb_call) (q : list Z) : Prop :=
  match cs with [] => True | c :: cs => rb_call_ok size c q /\ rb_calls_ok size cs (queue_run size c q).2 end.

Lemma calls_do cs : forall rb q, holds_queue rb q -> rb_calls_ok (Z.to_nat (buffer_size rb)) cs q ->
  exists rb', rb_runs cs rb = Ret (queue_runs (Z.to_nat (buffer_size rb)) cs q).1 rb' /\ holds_queue rb' (queue_runs (Z.to_nat (buffer_size rb)) cs q).2.
Proof.
  induction cs as [|c cs IH]; intros rb q Hq Hok; [by exists rb|]. destruct Hok as [Hc Hok]. cbn [rb_runs queue_runs].
  destruct (call_does rb q c Hq Hc) as (rb1 & E1 & Hq1 & Hs1). rewrite <-Hs1 in Hok, Hq1. destruct (IH rb1 _ Hq1 Hok) as (rb2 & E2 & Hq2). rewrite Hs1 in E2, Hq2.
  exists rb2. unfold bind. rewrite E1, E2. done.
Qed.

Lemma align_down_spec size : align_down size = 8 * (size / 8).
Proof.
  unfold align_down, KState.RT_ALIGN_SIZE. rewrite <-Z.ldiff_land. change (8 - 1) with (Z.ones 3). rewrite Z.ldiff_ones_r by lia.
  rewrite Z.shiftr_div_pow2, Z.shiftl_mul_pow2 by lia. change (2 ^ 3) with 8. lia.
Qed.

(** C14: From rt_ringbuffer_init with a size of 8 to 32767 bytes on, any sequence of calls of
    the ring buffer returns what a queue bounded by the size rounded down to a multiple of 8
    (RT_ALIGN_SIZE) returns, and the buffer holds the bytes of that queue; the calls of
    rt_ringbuffer_put_force that overrun the oldest byte of a buffer that is not full are
    excluded. *)
Theorem ringbuffer_refines pool size cs : 8 <= size < 2 ^ 15 -> size <= Z.of_nat (length pool) ->
  rb_calls_ok (Z.to_nat (8 * (size / 8))) cs [] ->
  exists rb', rb_runs cs (rt_ringbuffer_init pool size) = Ret (queue_runs (Z.to_nat (8 * (size / 8))) cs []).1 rb' /\
    holds_queue rb' (queue_runs (Z.to_nat (8 * (size / 8))) cs []).2 /\
    rt_ringbuffer_data_len rb' = Z.of_nat (length (queue_runs (Z.to_nat (8 * (size / 8))) cs []).2).
Proof.
  intros Hs Hp Hok. rewrite <-align_down_spec in *.
  assert (0 < align_down size <= size) as Ha by (rewrite align_down_spec; Z.to_euclidean_division_equations; lia).
  set (rb := rt_ringbuffer_init pool size).
  assert (holds_queue rb []) as Hq.
  { split; [split; simpl; lia|done|simpl; lia|]. intros i Hi. simpl in Hi. lia. }
  destruct (calls_do cs rb [] Hq Hok) as (rb' & E & Hq'). exists rb'.
  split_and!; [done|done|by apply data_len_spec].
Qed.

Definition results (cs : list rb_call) (rb : rt_ringbuffer) : option (list (Z * list Z)) :=
  match rb_runs cs rb with Ret rs _ => Some rs | Fail _ => None end.

(** put_force into a buffer that is neither full nor has room: the bytes that are overwritten still count as the oldest, and the length is wrong *)
Lemma put_force_overruns :
  results [Put [1; 2; 3; 4; 5; 6]; PutForce [7; 8; 9; 10]; Get 8] (rt_ringbuffer_init (replicate 8 0) 8) =
  Some [(6, []); (4, []); (2, [9; 10])].
Proof. vm_compute. reflexivity. Qed.

(** a buffer of 7 bytes has the size 0, and putchar_force writes past its end *)
Lemma small_buffer_overruns :
  results [Put [1]] (rt_ringbuffer_init (replicate 7 0) 7) = Some [(0, [])] /\
  results (replicate 7 (PutCharForce 1)) (rt_ringbuffer_init (replicate 7 0) 7) = Some (replicate 7 (1, [])) /\
  results (replicate 8 (PutCharForce 1)) (rt_ringbuffer_init (replicate 7 0) 7) = None.
Proof. vm_compute. done. Qed.

(** ten bytes through a buffer of eight *)
Lemma ringbuffer_witness : exists rb',
    rb_runs [Put [1; 2; 3; 4; 5; 6]; Get 4; Put [7; 8; 9; 10; 11; 12; 13]; PutCharForce 14; GetChar] (rt_ringbuffer_init (replicate 12 0) 12) =
      Ret (queue_runs 8 [Put [1; 2; 3; 4; 5; 6]; Get 4; Put [7; 8; 9; 10; 11; 12; 13]; PutCharForce 14; GetChar] []).1 rb' /\
    holds_queue rb' (queue_runs 8 [Put [1; 2; 3; 4; 5; 6]; Get 4; Put [7; 8; 9; 10; 11; 12; 13]; PutCharForce 14; GetChar] []).2 /\
    rt_ringbuffer_data_len rb' = Z.of_nat (length (queue_runs 8 [Put [1; 2; 3; 4; 5; 6]; Get 4; Put [7; 8; 9; 10; 11; 12; 13]; PutCharForce 14; GetChar] []).2).
Proof.
  apply (ringbuffer_refines (replicate 12 0) 12 [Put [1; 2; 3; 4; 5; 6]; Get 4; Put [7; 8; 9; 10; 11; 12; 13]; PutCharForce 14; GetChar]); [lia|done|].
  repeat split; done.
Defined.
