(* ===== verification/Finsh.v ===== *)
(** The shell's data, and the tables it keeps (components/finsh: finsh.h, finsh_node.h,
    finsh_node.c, finsh_var.c, finsh_error.c, the tables of finsh_vm.c).

    The shell parses a line of C-like statements into a tree of nodes, gives the nodes
    their types, compiles them to byte code and runs it.  Its variables are a table of
    names and types; the values of the variables, the shell's own string heap and the
    system variables lie in the memory, where the byte code reads and writes them.
    A C string is the list of its bytes before the terminating zero. *)

From Stdlib Require Import Ascii String.
From S2P Require Import Prelude Mem Printf.

Open Scope Z_scope.

(** * Constants *)

Definition FINSH_NAME_MAX : nat := 16.
Definition FINSH_NODE_MAX : nat := 16.
Definition FINSH_HEAP_MAX : Z := 128.
Definition FINSH_STRING_MAX : nat := 128.
Definition FINSH_VARIABLE_MAX : nat := 8.
Definition FINSH_STACK_MAX : nat := 64.
Definition FINSH_TEXT_MAX : nat := 128.

Definition FINSH_ERROR_OK : Z := 0.
Definition FINSH_ERROR_INVALID_TOKEN : Z := 1.
Definition FINSH_ERROR_EXPECT_TYPE : Z := 2.
Definition FINSH_ERROR_UNKNOWN_TYPE : Z := 3.
Definition FINSH_ERROR_VARIABLE_EXIST : Z := 4.
Definition FINSH_ERROR_EXPECT_OPERATOR : Z := 5.
Definition FINSH_ERROR_MEMORY_FULL : Z := 6.
Definition FINSH_ERROR_UNKNOWN_OP : Z := 7.
Definition FINSH_ERROR_UNKNOWN_NODE : Z := 8.
Definition FINSH_ERROR_EXPECT_CHAR : Z := 9.
Definition FINSH_ERROR_UNEXPECT_END : Z := 10.
Definition FINSH_ERROR_UNKNOWN_TOKEN : Z := 11.
Definition FINSH_ERROR_NO_FLOAT : Z := 12.
Definition FINSH_ERROR_UNKNOWN_SYMBOL : Z := 13.
Definition FINSH_ERROR_NULL_NODE : Z := 14.

Definition FINSH_IDTYPE_VAR : Z := 0x01.
Definition FINSH_IDTYPE_SYSVAR : Z := 0x02.
Definition FINSH_IDTYPE_SYSCALL : Z := 0x04.
Definition FINSH_IDTYPE_ADDRESS : Z := 0x08.

Definition FINSH_NODE_UNKNOWN : Z := 0.
Definition FINSH_NODE_ID : Z := 1.
Definition FINSH_NODE_VALUE_CHAR : Z := 2.
Definition FINSH_NODE_VALUE_INT : Z := 3.
Definition FINSH_NODE_VALUE_LONG : Z := 4.
Definition FINSH_NODE_VALUE_STRING : Z := 5.
Definition FINSH_NODE_VALUE_NULL : Z := 6.
Definition FINSH_NODE_SYS_ADD : Z := 7.
Definition FINSH_NODE_SYS_SUB : Z := 8.
Definition FINSH_NODE_SYS_MUL : Z := 9.
Definition FINSH_NODE_SYS_DIV : Z := 10.
Definition FINSH_NODE_SYS_MOD : Z := 11.
Definition FINSH_NODE_SYS_AND : Z := 12.
Definition FINSH_NODE_SYS_OR : Z := 13.
Definition FINSH_NODE_SYS_XOR : Z := 14.
Definition FINSH_NODE_SYS_BITWISE : Z := 15.
Definition FINSH_NODE_SYS_SHL : Z := 16.
Definition FINSH_NODE_SYS_SHR : Z := 17.
Definition FINSH_NODE_SYS_FUNC : Z := 18.
Definition FINSH_NODE_SYS_ASSIGN : Z := 19.
Definition FINSH_NODE_SYS_CAST : Z := 20.
Definition FINSH_NODE_SYS_PREINC : Z := 21.
Definition FINSH_NODE_SYS_PREDEC : Z := 22.
Definition FINSH_NODE_SYS_INC : Z := 23.
Definition FINSH_NODE_SYS_DEC : Z := 24.
Definition FINSH_NODE_SYS_GETVALUE : Z := 25.
Definition FINSH_NODE_SYS_GETADDR : Z := 26.
Definition FINSH_NODE_SYS_NULL : Z := 27.

Definition FINSH_DATA_TYPE_VOID : Z := 0x00.
Definition FINSH_DATA_TYPE_BYTE : Z := 0x01.
Definition FINSH_DATA_TYPE_WORD : Z := 0x02.
Definition FINSH_DATA_TYPE_DWORD : Z := 0x03.

Definition FINSH_NODE_VALUE : Z := 0.

Definition finsh_type_unknown : Z := 0.
Definition finsh_type_void : Z := 1.
Definition finsh_type_voidp : Z := 2.
Definition finsh_type_char : Z := 3.
Definition finsh_type_uchar : Z := 4.
Definition finsh_type_charp : Z := 5.
Definition finsh_type_short : Z := 6.
Definition finsh_type_ushort : Z := 7.
Definition finsh_type_shortp : Z := 8.
Definition finsh_type_int : Z := 9.
Definition finsh_type_uint : Z := 10.
Definition finsh_type_intp : Z := 11.
Definition finsh_type_long : Z := 12.
Definition finsh_type_ulong : Z := 13.
Definition finsh_type_longp : Z := 14.

(** * Data *)

(** struct finsh_syscall, struct finsh_sysvar; [sysvar_at] is where the struct lies *)
Record finsh_syscall : Type := mk_syscall { syscall_name : list Z; func : Z }.
Record finsh_sysvar : Type := mk_sysvar { sysvar_name : list Z; sysvar_type : Z; var : Z; sysvar_at : Z }.

(** struct finsh_var, less its value, which lies in the memory *)
Record finsh_var : Type := mk_var { var_name : list Z; var_type : Z }.

(** [node->id]: a pointer to one of the three kinds of identifier, or NULL *)
Inductive finsh_id : Type :=
| id_null
| id_var (i : nat)
| id_sysvar (v : finsh_sysvar)
| id_syscall (f : finsh_syscall).

(** struct finsh_node; [value] is the word of the union, nodes are indices of the table *)
Record finsh_node : Type := mk_node {
  node_type : Z; data_type : Z; idtype : Z; value : Z; id : finsh_id;
  sibling : option nat; child : option nat }.

Definition empty_node : finsh_node := mk_node FINSH_NODE_UNKNOWN 0 0 0 id_null None None.
Definition empty_var : finsh_var := mk_var [] finsh_type_unknown.

(** The globals of the shell. *)
Record finsh : Type := mk_finsh {
  global_variable : list finsh_var;
  global_node_table : list finsh_node;
  global_errno : Z;
  global_syscall_list : list finsh_syscall;
  global_sysvar_list : list finsh_sysvar;
  text_segment : list Z; finsh_compile_pc : Z;
  finsh_vm_stack : list Z; finsh_sp : Z; finsh_pc : Z;
  free_list : Z; allocate_list : Z;
  fmem : memory }.

Notation F := (M finsh) (only parsing).

(** What the linker and the rest of the system give: where the table of variables and
    the string heap lie, the exported symbols, and the functions they name. *)
Class finsh_image : Type := {
  variables_at : Z;
  heap_at : Z;
  syscall_table : list finsh_syscall;
  sysvar_table : list finsh_sysvar;
  call_function : Z -> list Z -> M memory Z }.

Definition set_variables v s := mk_finsh v (global_node_table s) (global_errno s) (global_syscall_list s) (global_sysvar_list s)
  (text_segment s) (finsh_compile_pc s) (finsh_vm_stack s) (finsh_sp s) (finsh_pc s) (free_list s) (allocate_list s) (fmem s).
Definition set_nodes t s := mk_finsh (global_variable s) t (global_errno s) (global_syscall_list s) (global_sysvar_list s)
  (text_segment s) (finsh_compile_pc s) (finsh_vm_stack s) (finsh_sp s) (finsh_pc s) (free_list s) (allocate_list s) (fmem s).
Definition set_errno e s := mk_finsh (global_variable s) (global_node_table s) e (global_syscall_list s) (global_sysvar_list s)
  (text_segment s) (finsh_compile_pc s) (finsh_vm_stack s) (finsh_sp s) (finsh_pc s) (free_list s) (allocate_list s) (fmem s).
Definition set_symbols c v s := mk_finsh (global_variable s) (global_node_table s) (global_errno s) c v
  (text_segment s) (finsh_compile_pc s) (finsh_vm_stack s) (finsh_sp s) (finsh_pc s) (free_list s) (allocate_list s) (fmem s).
Definition set_text t p s := mk_finsh (global_variable s) (global_node_table s) (global_errno s) (global_syscall_list s) (global_sysvar_list s)
  t p (finsh_vm_stack s) (finsh_sp s) (finsh_pc s) (free_list s) (allocate_list s) (fmem s).
Definition set_stack k p s := mk_finsh (global_variable s) (global_node_table s) (global_errno s) (global_syscall_list s) (global_sysvar_list s)
  (text_segment s) (finsh_compile_pc s) k p (finsh_pc s) (free_list s) (allocate_list s) (fmem s).
Definition set_pc p s := mk_finsh (global_variable s) (global_node_table s) (global_errno s) (global_syscall_list s) (global_sysvar_list s)
  (text_segment s) (finsh_compile_pc s) (finsh_vm_stack s) (finsh_sp s) p (free_list s) (allocate_list s) (fmem s).
Definition set_heap f a s := mk_finsh (global_variable s) (global_node_table s) (global_errno s) (global_syscall_list s) (global_sysvar_list s)
  (text_segment s) (finsh_compile_pc s) (finsh_vm_stack s) (finsh_sp s) (finsh_pc s) f a (fmem s).
Definition set_fmem m s := mk_finsh (global_variable s) (global_node_table s) (global_errno s) (global_syscall_list s) (global_sysvar_list s)
  (text_segment s) (finsh_compile_pc s) (finsh_vm_stack s) (finsh_sp s) (finsh_pc s) (free_list s) (allocate_list s) m.

(** * finsh_error.c *)

Definition finsh_error_init : F Z := modify (set_errno FINSH_ERROR_OK) ;! ret 0.
Definition finsh_error_set (type : Z) : F Z := modify (set_errno type) ;! ret 0.
Definition finsh_errno : F Z := let! s := get in ret (global_errno s).

Definition finsh_error_string_table : list (list Z) :=
  [text "No error"; text "Invalid token"; text "Expect a type"; text "Unknown type"; text "Variable exist";
   text "Expect a operater"; text "Memory full"; text "Unknown operator"; text "Unknown node"; text "Expect a character";
   text "Unexpect end"; text "Unknown token"; text "Float not supported"; text "Unknown symbol"; text "Null node"].

Definition finsh_error_string (type : Z) : F (list Z) :=
  of_option BadPointer (finsh_error_string_table !! Z.to_nat type).

(** * The string functions the shell uses *)

Fixpoint strncmp (n : nat) (s1 s2 : list Z) : Z :=
  match n with
  | O => 0
  | S n =>
      match s1, s2 with
      | [], [] => 0
      | [], c :: _ => - c
      | c :: _, [] => c
      | c1 :: s1, c2 :: s2 => if c1 =? c2 then strncmp n s1 s2 else c1 - c2
      end
  end.

Definition strcmp (s1 s2 : list Z) : Z := strncmp (S (Nat.max (length s1) (length s2))) s1 s2.

(** * finsh_var.c *)

Section variables.
Context `{finsh_image}.

(** [&(var->value)]: the union is at offset 20 of the struct, which has 24 bytes; the
    compiler takes this address also of an identifier of another kind *)
Definition value_at (v : finsh_id) : Z :=
  match v with
  | id_null => 20
  | id_var i => variables_at + 24 * Z.of_nat i + 20
  | id_sysvar v => sysvar_at v + 20
  | id_syscall _ => 20
  end.

(** [memset(&global_variable[i], 0, sizeof(struct finsh_var))] *)
Definition clear_variable (i : nat) : F unit :=
  modify (fun s => set_fmem (put32 (value_at (id_var i)) 0 (fmem s)) (set_variables (<[i := empty_var]> (global_variable s)) s)).

Definition finsh_var_init : F Z :=
  for_range FINSH_VARIABLE_MAX 0 (fun i => clear_variable (Z.to_nat i)) ;! ret 0.

(** the loop of finsh_var_insert over [vs], from index [i]; [None] is [return -1] *)
Fixpoint insert_scan (name : list Z) (vs : list finsh_var) (i : nat) (empty : option nat) : option (option nat) :=
  match vs with
  | [] => Some empty
  | v :: vs =>
      if strncmp FINSH_NAME_MAX (var_name v) name =? 0 then None
      else insert_scan name vs (S i)
             (match empty with None => if var_type v =? finsh_type_unknown then Some i else None | Some e => Some e end)
  end.

Definition finsh_var_insert (name : list Z) (type : Z) : F Z :=
  let! s := get in
  match insert_scan name (global_variable s) 0 None with
  | None => ret (-1)
  | Some None => ret (-1)
  | Some (Some empty) =>
      modify (set_variables (<[empty := mk_var (take FINSH_NAME_MAX name) (u8 type)]> (global_variable s))) ;!
      ret (Z.of_nat empty)
  end.

(** the search of finsh_var_delete and finsh_var_lookup *)
Fixpoint find_variable (name : list Z) (vs : list finsh_var) (i : nat) : option nat :=
  match vs with
  | [] => None
  | v :: vs => if strncmp FINSH_NAME_MAX (var_name v) name =? 0 then Some i else find_variable name vs (S i)
  end.

Definition finsh_var_delete (name : list Z) : F Z :=
  let! s := get in
  match find_variable name (global_variable s) 0 with
  | None => ret (-1)
  | Some i => clear_variable i ;! ret 0
  end.

Definition finsh_var_lookup (name : list Z) : F (option nat) :=
  let! s := get in
  ret (find_variable name (global_variable s) 0).

(** ** System variables and system calls

    [item] and [copy] are what rt_malloc and rt_strdup return; a NULL name, which the
    next lookup dereferences, counts as the fault it leads to. *)

Definition finsh_sysvar_append (item copy : option Z) (name : list Z) (type var_addr : Z) : F unit :=
  match item with
  | None => ret tt
  | Some at_ =>
      match copy with
      | None => fail NullDeref
      | Some _ => modify (fun s => set_symbols (global_syscall_list s) (mk_sysvar name (u8 type) var_addr (at_ + 4) :: global_sysvar_list s) s)
      end
  end.

Definition finsh_syscall_append (item copy : option Z) (name : list Z) (f : Z) : F unit :=
  match item with
  | None => ret tt
  | Some _ =>
      match copy with
      | None => fail NullDeref
      | Some _ => modify (fun s => set_symbols (mk_syscall name f :: global_syscall_list s) (global_sysvar_list s) s)
      end
  end.

(** the tables compare whole names, the lists only as many bytes as [name] has *)
Definition find_symbol {T} (name_of : T -> list Z) (table items : list T) (name : list Z) : option T :=
  match list_find (fun x => strcmp (name_of x) name = 0) table with
  | Some (_, x) => Some x
  | None => snd <$> list_find (fun x => strncmp (length name) (name_of x) name = 0) items
  end.

Definition finsh_sysvar_lookup (name : list Z) : F (option finsh_sysvar) :=
  let! s := get in ret (find_symbol sysvar_name sysvar_table (global_sysvar_list s) name).

Definition finsh_syscall_lookup (name : list Z) : F (option finsh_syscall) :=
  let! s := get in ret (find_symbol syscall_name syscall_table (global_syscall_list s) name).

(** * finsh_node.c *)

Definition finsh_node_init : F Z := modify (set_nodes (replicate FINSH_NODE_MAX empty_node)) ;! ret 0.

Definition node_at (p : nat) : F finsh_node := let! s := get in of_option BadPointer (global_node_table s !! p).
Definition store_node (p : nat) (n : finsh_node) : F unit := modify (fun s => set_nodes (<[p := n]> (global_node_table s)) s).

Definition set_node_type t n := mk_node t (data_type n) (idtype n) (value n) (id n) (sibling n) (child n).
Definition set_data_type t n := mk_node (node_type n) t (idtype n) (value n) (id n) (sibling n) (child n).
Definition set_idtype t n := mk_node (node_type n) (data_type n) t (value n) (id n) (sibling n) (child n).
Definition set_value v n := mk_node (node_type n) (data_type n) (idtype n) v (id n) (sibling n) (child n).
Definition set_id v n := mk_node (node_type n) (data_type n) (idtype n) (value n) v (sibling n) (child n).
Definition set_sibling p n := mk_node (node_type n) (data_type n) (idtype n) (value n) (id n) p (child n).
Definition set_child p n := mk_node (node_type n) (data_type n) (idtype n) (value n) (id n) (sibling n) p.

Definition update_node (p : nat) (f : finsh_node -> finsh_node) : F unit :=
  let! n := node_at p in store_node p (f n).

Definition finsh_node_allocate (type : Z) : F (option nat) :=
  let! s := get in
  match list_find (fun n => node_type n = FINSH_NODE_UNKNOWN) (global_node_table s) with
  | None => ret None
  | Some (i, _) => update_node i (set_node_type (u8 type)) ;! ret (Some i)
  end.

(** allocate a node and fill it, or set FINSH_ERROR_MEMORY_FULL *)
Definition new_node (type : Z) (fill : nat -> F unit) : F (option nat) :=
  let! node := finsh_node_allocate type in
  match node with
  | None => finsh_error_set FINSH_ERROR_MEMORY_FULL ;! ret None
  | Some p => fill p ;! ret (Some p)
  end.

Definition finsh_node_new_id (name : list Z) : F (option nat) :=
  let! v := finsh_var_lookup name in
  let! sv := finsh_sysvar_lookup name in
  let! sc := finsh_syscall_lookup name in
  let symbol :=
    match v, sv, sc with
    | Some i, _, _ => Some (id_var i, FINSH_IDTYPE_VAR)
    | None, Some x, _ => Some (id_sysvar x, FINSH_IDTYPE_SYSVAR)
    | None, None, Some f => Some (id_syscall f, FINSH_IDTYPE_SYSCALL)
    | None, None, None => None
    end in
  match symbol with
  | Some (x, type) => new_node FINSH_NODE_ID (fun p => update_node p (fun n => set_idtype type (set_id x n)))
  | None => finsh_error_set FINSH_ERROR_UNKNOWN_SYMBOL ;! ret None
  end.

Definition finsh_node_new_char (c : Z) : F (option nat) :=
  new_node FINSH_NODE_VALUE_CHAR (fun p => update_node p (fun n => set_value (value n - u8 (value n) + u8 c) n)).

Definition finsh_node_new_int (i : Z) : F (option nat) :=
  new_node FINSH_NODE_VALUE_INT (fun p => update_node p (set_value (u32 i))).

Definition finsh_node_new_long (l : Z) : F (option nat) :=
  new_node FINSH_NODE_VALUE_LONG (fun p => update_node p (set_value (u32 l))).

Definition finsh_node_new_ptr (ptr : Z) : F (option nat) :=
  new_node FINSH_NODE_VALUE_NULL (fun p => update_node p (set_value (u32 ptr))).

End variables.
