(* ===== verification/FinshHeap.v ===== *)
(** The shell's string heap (components/finsh/finsh_heap.c) and the nodes of string
    constants.

    The heap is FINSH_HEAP_MAX bytes at [heap_at]; a block is a header of two words,
    the length of its data and the next block of its list, followed by the data.  The
    free and the allocated blocks are two lists, each sorted by address; NULL is 0. *)

From S2P Require Import Prelude Mem Finsh.

Open Scope Z_scope.

Section heap.
Context `{finsh_image}.

Definition header_size : Z := 8.

Definition blk_length (m : memory) (h : Z) : Z := get32 m h.
Definition blk_next (m : memory) (h : Z) : Z := get32 m (h + 4).
Definition set_length (h v : Z) : F unit := modify (fun s => set_fmem (put32 h v (fmem s)) s).
Definition set_next (h v : Z) : F unit := modify (fun s => set_fmem (put32 (h + 4) v (fmem s)) s).

Definition finsh_block_get_header (data : Z) : Z := data - header_size.
Definition finsh_block_get_data (header : Z) : Z := header + header_size.
Definition HEAP_ALIGN_SIZE (size : Z) : Z := RT_ALIGN size 4.

(** the two lists *)
Inductive heap_list : Type := free | allocated.
Definition get_list (l : heap_list) (s : finsh) : Z := match l with free => free_list s | allocated => allocate_list s end.
Definition put_list (l : heap_list) (h : Z) : F unit :=
  modify (fun s => match l with free => set_heap h (allocate_list s) s | allocated => set_heap (free_list s) h s end).

(** the fuel of the walks: no list has more blocks than fit into the heap *)
Definition walk : nat := S (Z.to_nat (FINSH_HEAP_MAX / header_size)).

Definition finsh_heap_init : F Z :=
  modify (fun s => set_fmem (filled heap_at 0 FINSH_HEAP_MAX (fmem s)) s) ;!
  put_list free heap_at ;!
  set_length heap_at (FINSH_HEAP_MAX - header_size) ;!
  set_next heap_at 0 ;!
  put_list allocated 0 ;!
  ret 0.

(** [for (node = *list; node; node = node->next) { if (node->next > header) break; if (node->next == NULL) break; }] *)
Fixpoint insert_point (fuel : nat) (m : memory) (node header : Z) : option Z :=
  match fuel with
  | O => None
  | S fuel =>
      if header <? blk_next m node then Some node
      else if blk_next m node =? 0 then Some node
      else insert_point fuel m (blk_next m node) header
  end.

Definition finsh_block_insert (l : heap_list) (header : Z) : F unit :=
  let! s := get in
  let node := get_list l s in
  if node =? 0 then put_list l header
  else if header <? node then set_next header node ;! put_list l header
  else
    let! node := of_option OutOfFuel (insert_point walk (fmem s) node header) in
    (if negb (blk_next (fmem s) node =? 0) then set_next header (blk_next (fmem s) node) else ret tt) ;!
    set_next node header.

(** [for (node = *list; node != NULL; node = node->next) if (node->next == header) break]; [Some 0] is the end *)
Fixpoint find_prev (fuel : nat) (m : memory) (node header : Z) : option Z :=
  match fuel with
  | O => None
  | S fuel =>
      if node =? 0 then Some 0
      else if blk_next m node =? header then Some node
      else find_prev fuel m (blk_next m node) header
  end.

Definition finsh_block_remove (l : heap_list) (header : Z) : F unit :=
  let! s := get in
  let node := get_list l s in
  if node =? header then put_list l (blk_next (fmem s) header) ;! set_next header 0
  else
    let! node := of_option OutOfFuel (find_prev walk (fmem s) node header) in
    if node =? 0 then ret tt else set_next node (blk_next (fmem s) header).

Definition finsh_block_split (header size : Z) : F unit :=
  let! s := get in
  let next := u32 (header + header_size + size) in
  set_length next (blk_length (fmem s) header - header_size - size) ;!
  set_length header size ;!
  let! s := get in
  set_next next (blk_next (fmem s) header) ;!
  set_next header next.

(** [(u_char* )node + node->length + sizeof(struct finsh_block_header)] *)
Definition block_end (m : memory) (node : Z) : Z := u32 (node + blk_length m node + header_size).

Definition finsh_block_merge (l : heap_list) (header : Z) : F unit :=
  let! s := get in
  let m := fmem s in
  let next_node := blk_next m header in
  let! prev_node := (if get_list l s =? header then ret 0
                     else of_option OutOfFuel (find_prev walk m (get_list l s) header)) in
  let close := negb (next_node =? 0) && (block_end m header =? next_node) in
  if negb (prev_node =? 0) && (block_end m prev_node =? header) then
    if close then
      set_length prev_node (blk_length m prev_node + blk_length m header + blk_length m next_node + 2 * header_size) ;!
      set_next prev_node (blk_next m next_node)
    else
      set_length prev_node (blk_length m prev_node + blk_length m header + header_size) ;!
      set_next prev_node (blk_next m header)
  else if close then
    set_length header (blk_length m header + blk_length m next_node + header_size) ;!
    set_next header (blk_next m next_node)
  else ret tt.

Definition finsh_heap_free (ptr : Z) : F unit :=
  let header := finsh_block_get_header ptr in
  finsh_block_remove allocated header ;!
  finsh_block_insert free header ;!
  finsh_block_merge free header.

(** some variable of a type holds the address of the data *)
Definition referenced (s : finsh) (data : Z) : bool :=
  existsb (fun iv => negb (var_type iv.2 =? finsh_type_unknown) && (get32 (fmem s) (value_at (id_var iv.1)) =? data))
    (imap pair (global_variable s)).

Fixpoint gc_loop (fuel : nat) (header : Z) : F unit :=
  match fuel with
  | O => fail OutOfFuel
  | S fuel =>
      if header =? 0 then ret tt
      else
        let! s := get in
        let temp := header in
        let header := blk_next (fmem s) header in
        (if referenced s (finsh_block_get_data temp) then ret tt else finsh_heap_free (finsh_block_get_data temp)) ;!
        gc_loop fuel header
  end.

Definition finsh_heap_gc : F unit := let! s := get in gc_loop walk (allocate_list s).

(** the first block of the free list for which [too_small] of its length is false; [Some 0] is none *)
Fixpoint first_fit (fuel : nat) (too_small : Z -> bool) (m : memory) (header : Z) : option Z :=
  match fuel with
  | O => None
  | S fuel =>
      if header =? 0 then Some 0
      else if too_small (blk_length m header) then first_fit fuel too_small m (blk_next m header)
      else Some header
  end.

Definition finsh_heap_allocate (size : Z) : F Z :=
  let size := HEAP_ALIGN_SIZE size in
  let! s := get in
  let! header := of_option OutOfFuel (first_fit walk (fun len => len <=? u32 (size + header_size)) (fmem s) (free_list s)) in
  let! header := (if header =? 0 then
                    finsh_heap_gc ;!
                    let! s := get in
                    of_option OutOfFuel (first_fit walk (fun len => len <? u32 (size + header_size)) (fmem s) (free_list s))
                  else ret header) in
  if header =? 0 then ret 0
  else
    finsh_block_split header size ;!
    finsh_block_remove free header ;!
    set_next header 0 ;!
    finsh_block_insert allocated header ;!
    modify (fun s => set_fmem (filled (finsh_block_get_data header) 0 size (fmem s)) s) ;!
    ret (finsh_block_get_data header).

(** [strncpy(ptr, s, strlen(s)); ptr[strlen(s)] = 0] *)
Fixpoint copy_text (cs : list Z) (ptr : Z) (m : memory) : memory :=
  match cs with [] => put8 ptr 0 m | c :: cs => copy_text cs (ptr + 1) (put8 ptr c m) end.

(** finsh_node.c: the answer of the heap is not compared with NULL *)
Definition finsh_node_new_string (cs : list Z) : F (option nat) :=
  new_node FINSH_NODE_VALUE_STRING (fun p =>
    let! ptr := finsh_heap_allocate (Z.of_nat (length cs) + 1) in
    update_node p (set_value (u32 ptr)) ;!
    (if ptr =? 0 then fail NullDeref else modify (fun s => set_fmem (copy_text cs ptr (fmem s)) s))).

End heap.
