(* ===== verification/FinshCompiler.v ===== *)
(** The shell's compiler (components/finsh/finsh_compiler.c): the type check that gives
    every node its data type and marks the nodes whose address is wanted, and the
    generation of byte code (the operation codes are those of finsh_ops.h).

    The walks follow the child and sibling pointers of the node table; their fuel is the
    size of the table, more than the depth of any tree in it. *)

From S2P Require Import Prelude Mem Printf Finsh.

Open Scope Z_scope.

(** * finsh_ops.h *)

Definition FINSH_OP_NOOP : Z := 0x00.
Definition FINSH_OP_ADD_BYTE : Z := 0x01.
Definition FINSH_OP_ADD_WORD : Z := 0x02.
Definition FINSH_OP_ADD_DWORD : Z := 0x03.
Definition FINSH_OP_SUB_BYTE : Z := 0x04.
Definition FINSH_OP_SUB_WORD : Z := 0x05.
Definition FINSH_OP_SUB_DWORD : Z := 0x06.
Definition FINSH_OP_DIV_BYTE : Z := 0x07.
Definition FINSH_OP_DIV_WORD : Z := 0x08.
Definition FINSH_OP_DIV_DWORD : Z := 0x09.
Definition FINSH_OP_MOD_BYTE : Z := 0x0A.
Definition FINSH_OP_MOD_WORD : Z := 0x0B.
Definition FINSH_OP_MOD_DWORD : Z := 0x0C.
Definition FINSH_OP_MUL_BYTE : Z := 0x0D.
Definition FINSH_OP_MUL_WORD : Z := 0x0E.
Definition FINSH_OP_MUL_DWORD : Z := 0x0F.
Definition FINSH_OP_AND_BYTE : Z := 0x10.
Definition FINSH_OP_AND_WORD : Z := 0x11.
Definition FINSH_OP_AND_DWORD : Z := 0x12.
Definition FINSH_OP_OR_BYTE : Z := 0x13.
Definition FINSH_OP_OR_WORD : Z := 0x14.
Definition FINSH_OP_OR_DWORD : Z := 0x15.
Definition FINSH_OP_XOR_BYTE : Z := 0x16.
Definition FINSH_OP_XOR_WORD : Z := 0x17.
Definition FINSH_OP_XOR_DWORD : Z := 0x18.
Definition FINSH_OP_BITWISE_BYTE : Z := 0x19.
Definition FINSH_OP_BITWISE_WORD : Z := 0x1A.
Definition FINSH_OP_BITWISE_DWORD : Z := 0x1B.
Definition FINSH_OP_SHL_BYTE : Z := 0x1C.
Definition FINSH_OP_SHL_WORD : Z := 0x1D.
Definition FINSH_OP_SHL_DWORD : Z := 0x1E.
Definition FINSH_OP_SHR_BYTE : Z := 0x1F.
Definition FINSH_OP_SHR_WORD : Z := 0x20.
Definition FINSH_OP_SHR_DWORD : Z := 0x21.
Definition FINSH_OP_LD_BYTE : Z := 0x22.
Definition FINSH_OP_LD_WORD : Z := 0x23.
Definition FINSH_OP_LD_DWORD : Z := 0x24.
Definition FINSH_OP_LD_VALUE_BYTE : Z := 0x25.
Definition FINSH_OP_LD_VALUE_WORD : Z := 0x26.
Definition FINSH_OP_LD_VALUE_DWORD : Z := 0x27.
Definition FINSH_OP_ST_BYTE : Z := 0x28.
Definition FINSH_OP_ST_WORD : Z := 0x29.
Definition FINSH_OP_ST_DWORD : Z := 0x2A.
Definition FINSH_OP_POP : Z := 0x2B.
Definition FINSH_OP_SYSCALL : Z := 0x2C.
Definition FINSH_OP_LD_VALUE_BYTE_STACK : Z := 0x2D.
Definition FINSH_OP_LD_VALUE_WORD_STACK : Z := 0x2E.
Definition FINSH_OP_LD_VALUE_DWORD_STACK : Z := 0x2F.

(** * Emitting code *)

(** FINSH_SET16 and FINSH_SET32: the bytes of a value in the text *)
Definition word (x : Z) : list Z := [Z.land x 0xff; u8 (Z.shiftr x 8)].
Definition dword (x : Z) : list Z :=
  [Z.land (u32 x) 0xff; Z.land (Z.shiftr (u32 x) 8) 0xff; Z.land (Z.shiftr (u32 x) 16) 0xff; u8 (Z.shiftr (u32 x) 24)].

(** [*finsh_compile_pc = x; finsh_compile_pc++]: nothing keeps the pointer inside the text
    segment, so a store past its end is a fault *)
Definition finsh_code_byte (x : Z) : F unit :=
  let! s := get in
  let pc := finsh_compile_pc s in
  if pc <? Z.of_nat FINSH_TEXT_MAX then modify (set_text (<[Z.to_nat pc := u8 x]> (text_segment s)) (pc + 1))
  else fail BadPointer.

Fixpoint finsh_code (xs : list Z) : F unit :=
  match xs with [] => ret tt | x :: xs => finsh_code_byte x ;! finsh_code xs end.

(** What the code of one node is: its bytes in order, an error, or an access that has no meaning. *)
Inductive emitted : Type :=
| Code (bs : list Z)
| Error (e : Z)
| Stuck (f : fault).

Section compiler.
Context `{finsh_image}.

(** the groups of types the compiler distinguishes *)
Definition is_byte (type : Z) : bool := (type =? finsh_type_char) || (type =? finsh_type_uchar).
Definition is_word (type : Z) : bool := (type =? finsh_type_short) || (type =? finsh_type_ushort).
Definition is_dword (type : Z) : bool :=
  (type =? finsh_type_int) || (type =? finsh_type_uint) || (type =? finsh_type_long) || (type =? finsh_type_ulong) ||
  (type =? finsh_type_charp) || (type =? finsh_type_shortp) || (type =? finsh_type_intp) || (type =? finsh_type_longp).

(** an identifier of a type at an address: its address or its value *)
Definition code_load (type idtype addr : Z) : list Z :=
  let ld := fun op => (if has_flag idtype FINSH_IDTYPE_ADDRESS then FINSH_OP_LD_DWORD else op) :: dword addr in
  if is_byte type then ld FINSH_OP_LD_VALUE_BYTE
  else if is_word type then ld FINSH_OP_LD_VALUE_WORD
  else if is_dword type then ld FINSH_OP_LD_VALUE_DWORD
  else [].

(** case FINSH_NODE_ID *)
Definition code_id (vars : list finsh_var) (n : finsh_node) : emitted :=
  if has_flag (idtype n) FINSH_IDTYPE_SYSCALL then
    match id n with
    | id_syscall f => Code (FINSH_OP_LD_DWORD :: dword (func f))
    | id_null => Stuck NullDeref
    | _ => Stuck BadPointer
    end
  else if has_flag (idtype n) FINSH_IDTYPE_SYSVAR then
    match id n with
    | id_sysvar v => Code (code_load (sysvar_type v) (idtype n) (var v))
    | id_null => Code []
    | _ => Stuck BadPointer
    end
  else
    match id n with
    | id_var i =>
        match vars !! i with
        | Some v => Code (code_load (var_type v) (idtype n) (value_at (id_var i)))
        | None => Stuck BadPointer
        end
    | id_null => Code []
    | _ => Stuck BadPointer
    end.

(** [if (data_type == BYTE) ... else if (data_type == WORD) ... else if (data_type == DWORD) ...] *)
Definition by_type {T} (dt : Z) (b w d none : T) : T :=
  if dt =? FINSH_DATA_TYPE_BYTE then b
  else if dt =? FINSH_DATA_TYPE_WORD then w
  else if dt =? FINSH_DATA_TYPE_DWORD then d
  else none.

(** one operation code by the type of the node; none for any other type *)
Definition code_op (dt b w d : Z) : emitted := Code (by_type dt [b] [w] [d] []).

(** the store of an assignment, and the load of the stored value *)
Definition code_assign (dt : Z) : emitted :=
  by_type dt
    (Code [FINSH_OP_ST_BYTE; FINSH_OP_LD_VALUE_BYTE_STACK])
    (Code [FINSH_OP_ST_WORD; FINSH_OP_LD_VALUE_WORD_STACK])
    (Code [FINSH_OP_ST_DWORD; FINSH_OP_LD_VALUE_DWORD_STACK])
    (Error FINSH_ERROR_UNKNOWN_TYPE).

(** cases PREINC and PREDEC: [ops] are the three widths of the addition or subtraction *)
Definition code_pre (dt : Z) (ops : Z * Z * Z) (x : finsh_id) : list Z :=
  by_type dt
    ([FINSH_OP_LD_VALUE_BYTE] ++ dword (value_at x) ++ [FINSH_OP_LD_BYTE; 1; ops.1.1; FINSH_OP_ST_BYTE; FINSH_OP_LD_VALUE_DWORD_STACK])
    ([FINSH_OP_LD_VALUE_WORD] ++ dword (value_at x) ++ [FINSH_OP_LD_WORD] ++ word 1 ++ [ops.1.2; FINSH_OP_ST_WORD; FINSH_OP_LD_VALUE_DWORD_STACK])
    ([FINSH_OP_LD_VALUE_DWORD] ++ dword (value_at x) ++ [FINSH_OP_LD_DWORD] ++ dword 1 ++ [ops.2; FINSH_OP_ST_DWORD; FINSH_OP_LD_VALUE_DWORD_STACK])
    [].

(** cases INC and DEC *)
Definition code_post (dt : Z) (ops : Z * Z * Z) (x : finsh_id) : list Z :=
  let addr := FINSH_OP_LD_DWORD :: dword (value_at x) in
  by_type dt
    (addr ++ [FINSH_OP_LD_VALUE_BYTE] ++ dword (value_at x) ++ [FINSH_OP_LD_BYTE; 1; ops.1.1; FINSH_OP_ST_BYTE; FINSH_OP_POP])
    (addr ++ [FINSH_OP_LD_VALUE_WORD] ++ dword (value_at x) ++ [FINSH_OP_LD_WORD] ++ word 1 ++ [ops.1.2; FINSH_OP_ST_WORD; FINSH_OP_POP])
    (addr ++ [FINSH_OP_LD_VALUE_DWORD] ++ dword (value_at x) ++ [FINSH_OP_LD_DWORD] ++ dword 1 ++ [ops.2; FINSH_OP_ST_DWORD; FINSH_OP_POP])
    [].

Definition adds : Z * Z * Z := (FINSH_OP_ADD_BYTE, FINSH_OP_ADD_WORD, FINSH_OP_ADD_DWORD).
Definition subs : Z * Z * Z := (FINSH_OP_SUB_BYTE, FINSH_OP_SUB_WORD, FINSH_OP_SUB_DWORD).

(** [if (child && child->node_type == FINSH_NODE_ID)] *)
Definition of_id_child (c : option finsh_node) (f : finsh_id -> list Z) : emitted :=
  match c with
  | Some cn => Code (if node_type cn =? FINSH_NODE_ID then f (id cn) else [])
  | None => Code []
  end.

(** The switch of finsh_compile on a node [n] with first child [c], [parameters] siblings after it. *)
Definition node_code (vars : list finsh_var) (n : finsh_node) (c : option finsh_node) (parameters : Z) : emitted :=
  let t := node_type n in
  let dt := data_type n in
  if t =? FINSH_NODE_ID then code_id vars n
  else if t =? FINSH_NODE_VALUE_CHAR then Code [FINSH_OP_LD_BYTE; u8 (value n)]
  else if (t =? FINSH_NODE_VALUE_INT) || (t =? FINSH_NODE_VALUE_LONG) then Code (FINSH_OP_LD_DWORD :: dword (value n))
  else if (t =? FINSH_NODE_VALUE_NULL) || (t =? FINSH_NODE_VALUE_STRING) then Code (FINSH_OP_LD_DWORD :: dword (value n))
  else if t =? FINSH_NODE_SYS_ADD then code_op dt FINSH_OP_ADD_BYTE FINSH_OP_ADD_WORD FINSH_OP_ADD_DWORD
  else if t =? FINSH_NODE_SYS_SUB then code_op dt FINSH_OP_SUB_BYTE FINSH_OP_SUB_WORD FINSH_OP_SUB_DWORD
  else if t =? FINSH_NODE_SYS_MUL then code_op dt FINSH_OP_MUL_BYTE FINSH_OP_MUL_WORD FINSH_OP_MUL_DWORD
  else if t =? FINSH_NODE_SYS_DIV then code_op dt FINSH_OP_DIV_BYTE FINSH_OP_DIV_WORD FINSH_OP_DIV_DWORD
  else if t =? FINSH_NODE_SYS_MOD then code_op dt FINSH_OP_MOD_BYTE FINSH_OP_MOD_WORD FINSH_OP_MOD_DWORD
  else if t =? FINSH_NODE_SYS_AND then code_op dt FINSH_OP_AND_BYTE FINSH_OP_AND_WORD FINSH_OP_AND_DWORD
  else if t =? FINSH_NODE_SYS_OR then code_op dt FINSH_OP_OR_BYTE FINSH_OP_OR_WORD FINSH_OP_OR_DWORD
  else if t =? FINSH_NODE_SYS_XOR then code_op dt FINSH_OP_XOR_BYTE FINSH_OP_XOR_WORD FINSH_OP_XOR_DWORD
  else if t =? FINSH_NODE_SYS_BITWISE then code_op dt FINSH_OP_BITWISE_BYTE FINSH_OP_BITWISE_WORD FINSH_OP_BITWISE_DWORD
  else if t =? FINSH_NODE_SYS_SHL then code_op dt FINSH_OP_SHL_BYTE FINSH_OP_SHL_WORD FINSH_OP_SHL_DWORD
  else if t =? FINSH_NODE_SYS_SHR then code_op dt FINSH_OP_SHR_BYTE FINSH_OP_SHR_WORD FINSH_OP_SHR_DWORD
  else if t =? FINSH_NODE_SYS_FUNC then
    match c with Some _ => Code [FINSH_OP_SYSCALL; u8 parameters] | None => Code [] end
  else if t =? FINSH_NODE_SYS_ASSIGN then
    match c with
    | None => Stuck NullDeref
    | Some cn =>
        if node_type cn =? FINSH_NODE_ID then code_assign (data_type cn)
        else if node_type cn =? FINSH_NODE_SYS_GETVALUE then code_assign (Z.land (data_type cn) 0x0F)
        else Code []
    end
  else if t =? FINSH_NODE_SYS_PREINC then of_id_child c (code_pre dt adds)
  else if t =? FINSH_NODE_SYS_PREDEC then of_id_child c (code_pre dt subs)
  else if t =? FINSH_NODE_SYS_INC then of_id_child c (code_post dt adds)
  else if t =? FINSH_NODE_SYS_DEC then of_id_child c (code_post dt subs)
  else if t =? FINSH_NODE_SYS_NULL then Code (dword 0)
  else if t =? FINSH_NODE_SYS_GETVALUE then
    if has_flag (idtype n) FINSH_IDTYPE_ADDRESS then Code []
    else code_op dt FINSH_OP_LD_VALUE_BYTE_STACK FINSH_OP_LD_VALUE_WORD_STACK FINSH_OP_LD_VALUE_DWORD_STACK
  else if t =? FINSH_NODE_SYS_GETADDR then Code []
  else Error FINSH_ERROR_UNKNOWN_NODE.

Definition run_emitted (e : emitted) : F unit :=
  match e with
  | Code bs => finsh_code bs
  | Error e => finsh_error_set e ;! ret tt
  | Stuck f => fail f
  end.

(** the siblings of the first child: [parameters++; sibling = sibling->sibling] *)
Fixpoint count_siblings (fuel : nat) (p : option nat) : F Z :=
  match fuel with
  | O => fail OutOfFuel
  | S fuel =>
      match p with
      | None => ret 0
      | Some p => let! n := node_at p in let! k := count_siblings fuel (sibling n) in ret (k + 1)
      end
  end.

Definition node_fuel : nat := S FINSH_NODE_MAX.

Definition child_node (n : finsh_node) : F (option finsh_node) :=
  match child n with None => ret None | Some c => let! cn := node_at c in ret (Some cn) end.

Definition child_parameters (n : finsh_node) (c : option finsh_node) : F Z :=
  match c with
  | Some cn => if node_type n =? FINSH_NODE_SYS_FUNC then count_siblings node_fuel (sibling cn) else ret 0
  | None => ret 0
  end.

Fixpoint finsh_compile (fuel : nat) (node : option nat) : F Z :=
  match fuel with
  | O => fail OutOfFuel
  | S fuel =>
      match node with
      | None => ret 0
      | Some p =>
          let! n := node_at p in
          (match child n with Some _ => finsh_compile fuel (child n) ;! ret tt | None => ret tt end) ;!
          let! c := child_node n in
          let! parameters := child_parameters n c in
          let! s := get in
          run_emitted (node_code (global_variable s) n c parameters) ;!
          match sibling n with Some _ => finsh_compile fuel (sibling n) ;! ret 0 | None => ret 0 end
      end
  end.

(** * The type check *)

(** the data type of an identifier of a type; [None] sets FINSH_ERROR_UNKNOWN_TYPE *)
Definition type_data (type : Z) : option Z :=
  if type =? finsh_type_void then Some FINSH_DATA_TYPE_VOID
  else if is_byte type then Some FINSH_DATA_TYPE_BYTE
  else if is_word type then Some FINSH_DATA_TYPE_WORD
  else if is_dword type || (type =? finsh_type_voidp) then Some FINSH_DATA_TYPE_DWORD
  else None.

(** what the end of finsh_type_check stores in [data_type] of a leaf *)
Inductive leaf_type : Type := Keep | Put (dt : Z) | Unknown | Wild (f : fault).

Definition type_leaf (type : Z) : leaf_type := match type_data type with Some dt => Put dt | None => Unknown end.

Definition leaf_data (vars : list finsh_var) (n : finsh_node) : leaf_type :=
  if node_type n =? FINSH_NODE_ID then
    if has_flag (idtype n) FINSH_IDTYPE_VAR then
      match id n with
      | id_var i => match vars !! i with Some v => type_leaf (var_type v) | None => Wild BadPointer end
      | id_null => Keep
      | _ => Wild BadPointer
      end
    else if has_flag (idtype n) FINSH_IDTYPE_SYSVAR then
      match id n with
      | id_sysvar v => type_leaf (sysvar_type v)
      | id_null => Keep
      | _ => Wild BadPointer
      end
    else Keep
  else if node_type n =? FINSH_NODE_VALUE_CHAR then Put FINSH_DATA_TYPE_BYTE
  else if (node_type n =? FINSH_NODE_VALUE_INT) || (node_type n =? FINSH_NODE_VALUE_LONG) ||
          (node_type n =? FINSH_NODE_VALUE_STRING) || (node_type n =? FINSH_NODE_VALUE_NULL) then Put FINSH_DATA_TYPE_DWORD
  else Keep.

(** what the child is asked for: its address or its value *)
Definition child_addr (n : finsh_node) (is_addr : Z) : Z :=
  let t := node_type n in
  if (t =? FINSH_NODE_SYS_ASSIGN) || (t =? FINSH_NODE_SYS_PREINC) || (t =? FINSH_NODE_SYS_PREDEC) || (t =? FINSH_NODE_SYS_GETADDR)
  then FINSH_IDTYPE_ADDRESS
  else if (t =? FINSH_NODE_SYS_GETVALUE) && negb (is_addr =? 0) then 0
  else is_addr.

Definition mark_address (is_addr : Z) (n : finsh_node) : finsh_node :=
  if negb (idtype n =? FINSH_IDTYPE_SYSCALL) then set_idtype (Z.lor (idtype n) is_addr) n else n.

Fixpoint finsh_type_check (fuel : nat) (node : option nat) (is_addr : Z) : F Z :=
  match fuel with
  | O => fail OutOfFuel
  | S fuel =>
      match node with
      | None => ret 0
      | Some p =>
          let! n := node_at p in
          finsh_type_check fuel (child n) (child_addr n is_addr) ;!
          finsh_type_check fuel (sibling n) FINSH_NODE_VALUE ;!
          update_node p (mark_address is_addr) ;!
          let! n := node_at p in
          match child n with
          | Some c => let! cn := node_at c in update_node p (set_data_type (data_type cn)) ;! ret 0
          | None =>
              let! s := get in
              match leaf_data (global_variable s) n with
              | Keep => ret 0
              | Put dt => update_node p (set_data_type dt) ;! ret 0
              | Unknown => finsh_error_set FINSH_ERROR_UNKNOWN_TYPE ;! ret 0
              | Wild f => fail f
              end
          end
      end
  end.

(** * finsh_compiler_run *)

(** the loop over the statements: each is cut off its sibling, compiled, and its value popped if another follows *)
Fixpoint compile_statements (fuel : nat) (sib : option nat) : F unit :=
  match fuel with
  | O => fail OutOfFuel
  | S fuel =>
      match sib with
      | None => ret tt
      | Some current =>
          let! n := node_at current in
          let sib := sibling n in
          update_node current (set_sibling None) ;!
          finsh_compile node_fuel (Some current) ;!
          (match sib with Some _ => finsh_code_byte FINSH_OP_POP | None => ret tt end) ;!
          compile_statements fuel sib
      end
  end.

(** the memset of the stack clears its first element only *)
Definition finsh_compiler_run (node : option nat) : F Z :=
  finsh_type_check node_fuel node FINSH_NODE_VALUE ;!
  modify (fun s => set_text (replicate FINSH_TEXT_MAX 0) 0 s) ;!
  modify (fun s => set_stack (<[0%nat := 0]> (finsh_vm_stack s)) (finsh_sp s) s) ;!
  compile_statements node_fuel node ;!
  ret 0.

End compiler.
