(* ===== verification/FinshVm.v ===== *)
(** The shell's virtual machine (components/finsh/finsh_ops.c, finsh_vm.c).

    The stack is an array of FINSH_STACK_MAX unions of four bytes, here the 32-bit word
    each of them holds; a char or short member is its low part, and writing such a
    member leaves the upper part as it was.  [char] is unsigned, [short] and [long] are
    signed, as for the Cortex-M4.  An element outside of the stack, a byte outside of
    the text and a code outside of the operation table are faults; so are the
    divisions and shifts to which the language gives no value. *)

From S2P Require Import Prelude Mem Finsh FinshCompiler.

Open Scope Z_scope.

(** * The union *)

Inductive width : Type := Byte | Word | Dword.

#[export] Instance width_eq_dec : EqDecision width.
Proof. solve_decision. Defined.

(** the member of a word: char_value, short_value or long_value *)
Definition member (w : width) (x : Z) : Z :=
  match w with Byte => u8 x | Word => s16 x | Dword => s32 x end.

(** the word after an assignment of [v] to the member *)
Definition assign_member (w : width) (x v : Z) : Z :=
  match w with
  | Byte => x - u8 x + u8 v
  | Word => x - u16 x + u16 v
  | Dword => u32 v
  end.

(** the memory at an address as an object of the width, and a store of it *)
Definition fetch (w : width) (m : memory) (a : Z) : Z :=
  match w with Byte => m a | Word => s16 (get16 m a) | Dword => s32 (get32 m a) end.
Definition store (w : width) (a v : Z) (m : memory) : memory :=
  match w with Byte => put8 a v m | Word => put16 a v m | Dword => put32 a v m end.

(** * Arithmetic: the operators of C on two ints *)

Inductive binop : Type := Add | Sub | Mul | Div | Mod | And | Or | Xor | Shl | Shr.

Definition c_binop (o : binop) (a b : Z) : option Z :=
  match o with
  | Add => Some (s32 (a + b))
  | Sub => Some (s32 (a - b))
  | Mul => Some (s32 (a * b))
  | Div => if b =? 0 then None else Some (s32 (Z.quot a b))
  | Mod => if b =? 0 then None else Some (Z.rem a b)
  | And => Some (Z.land a b)
  | Or => Some (Z.lor a b)
  | Xor => Some (Z.lxor a b)
  | Shl => if (0 <=? b) && (b <? 32) then Some (s32 (Z.shiftl a b)) else None
  | Shr => if (0 <=? b) && (b <? 32) then Some (Z.shiftr a b) else None
  end.

Section machine.
Context `{finsh_image}.

(** * The stack and the text *)

Definition slot (i : Z) : F Z :=
  let! s := get in
  if (0 <=? i) && (i <? Z.of_nat FINSH_STACK_MAX) then of_option BadPointer (finsh_vm_stack s !! Z.to_nat i) else fail BadPointer.
Definition set_slot (i v : Z) : F unit :=
  let! s := get in
  if (0 <=? i) && (i <? Z.of_nat FINSH_STACK_MAX) then modify (set_stack (<[Z.to_nat i := v]> (finsh_vm_stack s)) (finsh_sp s))
  else fail BadPointer.
Definition move_sp (d : Z) : F unit := modify (fun s => set_stack (finsh_vm_stack s) (finsh_sp s + d) s).
Definition move_pc (d : Z) : F unit := modify (fun s => set_pc (finsh_pc s + d) s).

Definition get_member (w : width) (i : Z) : F Z := let! x := slot i in ret (member w x).
Definition put_member (w : width) (i v : Z) : F unit := let! x := slot i in set_slot i (assign_member w x v).

(** [finsh_pc[k]] *)
Definition text_byte (k : Z) : F Z :=
  let! s := get in
  let i := finsh_pc s + k in
  if (0 <=? i) && (i <? Z.of_nat FINSH_TEXT_MAX) then of_option BadPointer (text_segment s !! Z.to_nat i) else fail BadPointer.

(** FINSH_GET16, FINSH_GET32 *)
Definition FINSH_GET16 : F Z :=
  let! a := text_byte 0 in let! b := text_byte 1 in ret (Z.lor a (Z.shiftl b 8)).
Definition FINSH_GET32 : F Z :=
  let! a := text_byte 0 in let! b := text_byte 1 in let! c := text_byte 2 in let! d := text_byte 3 in
  ret (Z.lor (Z.lor (Z.lor a (Z.shiftl b 8)) (Z.shiftl c 16)) (Z.shiftl d 24)).

(** * The operations *)

Definition OP_no_op : F unit := ret tt.

(** OP_BIN_BYTE, OP_BIN_WORD, OP_BIN_DWORD *)
Definition OP_BIN (w : width) (o : binop) : F unit :=
  let! s := get in
  let! a := get_member w (finsh_sp s - 2) in
  let! b := get_member w (finsh_sp s - 1) in
  let! r := of_option BadPointer (c_binop o a b) in
  put_member w (finsh_sp s - 2) r ;!
  move_sp (-1).

(** OP_bw_byte, OP_bw_word, OP_bw_dword *)
Definition OP_bw (w : width) : F unit :=
  let! s := get in
  let! a := get_member w (finsh_sp s - 1) in
  put_member w (finsh_sp s - 1) (Z.lnot a).

(** OP_ld_byte, OP_ld_word, OP_ld_dword *)
Definition OP_ld (w : width) : F unit :=
  let! s := get in
  let! v := (match w with Byte => text_byte 0 | Word => FINSH_GET16 | Dword => FINSH_GET32 end) in
  put_member w (finsh_sp s) v ;!
  move_sp 1 ;!
  move_pc (match w with Byte => 1 | Word => 2 | Dword => 4 end).

(** OP_ld_value_byte, OP_ld_value_word, OP_ld_value_dword *)
Definition OP_ld_value (w : width) : F unit :=
  let! s := get in
  let! c := FINSH_GET32 in
  put_member w (finsh_sp s) (fetch w (fmem s) c) ;!
  move_sp 1 ;!
  move_pc 4.

(** OP_ld_value_byte_stack, OP_ld_value_word_stack, OP_ld_value_dword_stack *)
Definition OP_ld_value_stack (w : width) : F unit :=
  let! s := get in
  let! c := get_member Dword (finsh_sp s - 1) in
  put_member w (finsh_sp s - 1) (fetch w (fmem s) (u32 c)).

(** OP_st_byte, OP_st_word, OP_st_dword *)
Definition OP_st (w : width) : F unit :=
  let! s := get in
  let! a := get_member Dword (finsh_sp s - 2) in
  let! v := get_member w (finsh_sp s - 1) in
  modify (fun s => set_fmem (store w (u32 a) v (fmem s)) s) ;!
  move_sp (-1).

Definition OP_pop : F unit := move_sp (-1).

(** the loop of OP_call: [parameterv[parameters - 1 - i] = finsh_sp->long_value; finsh_sp--] into an array of 16 *)
Fixpoint pop_parameters (n : nat) (parameterv : list Z) : F (list Z) :=
  match n with
  | O => ret parameterv
  | S n =>
      if (n <? 16)%nat then
        let! s := get in
        let! v := get_member Dword (finsh_sp s) in
        move_sp (-1) ;!
        pop_parameters n (u32 v :: parameterv)
      else fail BadPointer
  end.

(** with no parameter the function is called with 0; the array overflows before the default case is reached *)
Definition OP_call : F unit :=
  let! parameters := text_byte 0 in
  move_pc 1 ;!
  move_sp (-1) ;!
  let! parameterv := pop_parameters (Z.to_nat parameters) [] in
  let! s := get in
  let! f := get_member Dword (finsh_sp s) in
  let args := match parameterv with [] => [0] | _ => parameterv end in
  match call_function (u32 f) args (fmem s) with
  | Fail e => fail e
  | Ret r m =>
      modify (set_fmem m) ;!
      put_member Dword (finsh_sp s) r ;!
      move_sp 1
  end.

Definition op_table : list (F unit) :=
  [OP_no_op;
   OP_BIN Byte Add; OP_BIN Word Add; OP_BIN Dword Add;
   OP_BIN Byte Sub; OP_BIN Word Sub; OP_BIN Dword Sub;
   OP_BIN Byte Div; OP_BIN Word Div; OP_BIN Dword Div;
   OP_BIN Byte Mod; OP_BIN Word Mod; OP_BIN Dword Mod;
   OP_BIN Byte Mul; OP_BIN Word Mul; OP_BIN Dword Mul;
   OP_BIN Byte And; OP_BIN Word And; OP_BIN Dword And;
   OP_BIN Byte Or; OP_BIN Word Or; OP_BIN Dword Or;
   OP_BIN Byte Xor; OP_BIN Word Xor; OP_BIN Dword Xor;
   OP_bw Byte; OP_bw Word; OP_bw Dword;
   OP_BIN Byte Shl; OP_BIN Word Shl; OP_BIN Dword Shl;
   OP_BIN Byte Shr; OP_BIN Word Shr; OP_BIN Dword Shr;
   OP_ld Byte; OP_ld Word; OP_ld Dword;
   OP_ld_value Byte; OP_ld_value Word; OP_ld_value Dword;
   OP_st Byte; OP_st Word; OP_st Dword;
   OP_pop;
   OP_call;
   OP_ld_value_stack Byte; OP_ld_value_stack Word; OP_ld_value_stack Dword;
   fail NullDeref].

(** * finsh_vm_run *)

(** [op = *finsh_pc++; op_table[op]()] *)
Definition vm_step : F unit :=
  let! op := text_byte 0 in
  move_pc 1 ;!
  let! f := of_option BadPointer (op_table !! Z.to_nat op) in
  f.

Definition in_text (s : finsh) : bool := (0 <=? finsh_pc s) && (finsh_pc s <? Z.of_nat FINSH_TEXT_MAX).

Fixpoint vm_loop (fuel : nat) : F unit :=
  match fuel with
  | O => let! s := get in if in_text s then fail OutOfFuel else ret tt
  | S fuel => let! s := get in if in_text s then vm_step ;! vm_loop fuel else ret tt
  end.

Definition finsh_vm_run : F unit :=
  modify (fun s => set_pc 0 (set_stack (finsh_vm_stack s) 0 s)) ;!
  vm_loop FINSH_TEXT_MAX.

(** finsh_init.c *)
Definition finsh_stack_bottom : F Z := get_member Dword 0.

End machine.
