(* ===== verification/FinshVmSpec.v ===== *)
(** Facts on the virtual machine: every step moves on in the text, so the machine stops
    after at most FINSH_TEXT_MAX steps whatever the text holds; and what one
    instruction does when its operands are there. *)

From S2P Require Import Prelude Mem Finsh FinshCompiler FinshVm.

Open Scope Z_scope.

Section vm.
Context `{finsh_image}.
Implicit Types s : finsh.

(** * The machine stops *)

(** [m] never moves the program counter back. *)
Definition forwards {A} (m : F A) : Prop := forall s a s', m s = Ret a s' -> finsh_pc s <= finsh_pc s'.

Lemma forwards_bind {A B} (m : F A) (f : A -> F B) : forwards m -> (forall a, forwards (f a)) -> forwards (bind m f).
Proof.
  intros Hm Hf s b s'. unfold bind. destruct (m s) as [a s1|] eqn:E; [|done]. intros E2.
  specialize (Hm _ _ _ E). specialize (Hf _ _ _ _ E2). lia.
Qed.
Lemma forwards_ret {A} (a : A) : forwards (ret a).
Proof. intros s b s' [= -> ->]. lia. Qed.
Lemma forwards_get : forwards get.
Proof. intros s b s' [= <- <-]. lia. Qed.
Lemma forwards_fail {A} f : forwards (fail (A := A) f).
Proof. by intros s b s'. Qed.
Lemma forwards_of_option {A} f (o : option A) : forwards (of_option f o).
Proof. intros s b s'. destruct o; [|done]. intros [= -> ->]. lia. Qed.
Lemma forwards_modify f : (forall s, finsh_pc s <= finsh_pc (f s)) -> forwards (modify f).
Proof. intros Hf s b s' [= _ <-]. apply Hf. Qed.

Create HintDb forwards.
Hint Resolve forwards_ret forwards_get forwards_fail forwards_of_option : forwards.
Ltac forwards :=
  repeat first
    [ progress auto with forwards
    | apply forwards_bind; intros
    | apply forwards_modify; intros; simpl; lia
    | case_match ].

Lemma slot_forwards i : forwards (slot i).
Proof. unfold slot. forwards. Qed.
Lemma set_slot_forwards i v : forwards (set_slot i v).
Proof. unfold set_slot. forwards. Qed.
Lemma move_sp_forwards d : forwards (move_sp d).
Proof. unfold move_sp. forwards. Qed.
Lemma text_byte_forwards k : forwards (text_byte k).
Proof. unfold text_byte. forwards. Qed.
Hint Resolve slot_forwards set_slot_forwards move_sp_forwards text_byte_forwards : forwards.
Lemma get_member_forwards w i : forwards (get_member w i).
Proof. unfold get_member. forwards. Qed.
Lemma put_member_forwards w i v : forwards (put_member w i v).
Proof. unfold put_member. forwards. Qed.
Lemma get16_forwards : forwards FINSH_GET16.
Proof. unfold FINSH_GET16. forwards. Qed.
Lemma get32_forwards : forwards FINSH_GET32.
Proof. unfold FINSH_GET32. forwards. Qed.
Lemma move_pc_forwards d : 0 <= d -> forwards (move_pc d).
Proof. intros. unfold move_pc. forwards. Qed.
Hint Resolve get_member_forwards put_member_forwards get16_forwards get32_forwards : forwards.
Hint Extern 1 (forwards (move_pc _)) => apply move_pc_forwards; repeat case_match; lia : forwards.

Lemma pop_parameters_forwards n : forall vs, forwards (pop_parameters n vs).
Proof. induction n as [|n IH]; intros vs; simpl; forwards. Qed.
Hint Resolve pop_parameters_forwards : forwards.

Lemma op_table_forwards : Forall forwards op_table.
Proof.
  unfold op_table. repeat (apply List.Forall_cons); try apply List.Forall_nil;
    unfold OP_no_op, OP_BIN, OP_bw, OP_ld, OP_ld_value, OP_ld_value_stack, OP_st, OP_pop, OP_call; forwards.
Qed.

Lemma vm_step_forwards s s' : vm_step s = Ret tt s' -> finsh_pc s < finsh_pc s'.
Proof.
  unfold vm_step, bind at 1. destruct (text_byte 0 s) as [op s1|] eqn:E; [|done].
  assert (s1 = s) as ->.
  { unfold text_byte, bind, get in E. repeat case_match; try discriminate; unfold of_option in *; case_match; congruence. }
  simpl. unfold bind, of_option. destruct (op_table !! Z.to_nat op) as [f|] eqn:Ef; [|done].
  intros E2. pose proof (proj1 (Forall_lookup _ _) op_table_forwards _ _ Ef _ _ _ E2) as Hf. simpl in Hf. lia.
Qed.

(** The bytes of text that are left. *)
Definition room s : nat := Z.to_nat (Z.of_nat FINSH_TEXT_MAX - finsh_pc s).

Lemma in_text_room s : in_text s = true -> (0 < room s)%nat.
Proof. unfold in_text, room. lia. Qed.

Lemma vm_step_room s s' : in_text s = true -> vm_step s = Ret tt s' -> (room s' < room s)%nat.
Proof. intros Hs Hstep. apply vm_step_forwards in Hstep. unfold in_text in Hs. unfold room. lia. Qed.

Lemma vm_loop_enough n : forall fuel s, (room s <= n)%nat -> (n <= fuel)%nat -> vm_loop fuel s = vm_loop n s.
Proof.
  induction n as [|n IH]; intros [|fuel] s Hn Hf; try lia; try done; simpl; unfold bind, get; destruct (in_text s) eqn:E; try done.
  - apply in_text_room in E. lia.
  - destruct (vm_step s) as [[] s'|] eqn:Es; [|done]. pose proof (vm_step_room _ _ E Es). apply IH; lia.
Qed.

(** What the machine does from a state on. *)
Definition run s : outcome finsh unit := vm_loop (room s) s.

Lemma run_step s : in_text s = true -> run s = match vm_step s with Ret _ s' => run s' | Fail f => Fail f end.
Proof.
  intros E. unfold run. pose proof (in_text_room _ E). destruct (room s) as [|n] eqn:En; [lia|]. simpl.
  unfold bind, get. rewrite E. destruct (vm_step s) as [[] s'|] eqn:Es; [|done].
  pose proof (vm_step_room _ _ E Es). apply vm_loop_enough; lia.
Qed.

Lemma run_end s : in_text s = false -> run s = Ret tt s.
Proof. intros E. unfold run. destruct (room s); simpl; unfold bind, get; by rewrite E. Qed.

Lemma finsh_vm_run_run s : finsh_vm_run s = run (set_pc 0 (set_stack (finsh_vm_stack s) 0 s)).
Proof. unfold finsh_vm_run, bind, modify, run. by apply vm_loop_enough. Qed.

(** ** No operation runs out of fuel *)

Definition fueled {A} (m : F A) : Prop := forall s, m s <> Fail OutOfFuel.

Lemma fueled_bind {A B} (m : F A) (f : A -> F B) : fueled m -> (forall a, fueled (f a)) -> fueled (bind m f).
Proof. intros Hm Hf s. unfold bind. destruct (m s) eqn:E; [apply Hf|]. intros [= ->]. by eapply Hm. Qed.
Lemma fueled_ret {A} (a : A) : fueled (ret a).
Proof. by intros s. Qed.
Lemma fueled_get : fueled get.
Proof. by intros s. Qed.
Lemma fueled_modify f : fueled (modify f).
Proof. by intros s. Qed.
Lemma fueled_fail {A} f : f <> OutOfFuel -> fueled (fail (A := A) f).
Proof. intros Hf s [= ->]. done. Qed.
Lemma fueled_of_option {A} f (o : option A) : f <> OutOfFuel -> fueled (of_option f o).
Proof. intros Hf s. destruct o; [done|]. intros [= ->]. done. Qed.

Create HintDb fueled.
Hint Resolve fueled_ret fueled_get fueled_modify : fueled.
Ltac fueled :=
  repeat first
    [ progress auto with fueled
    | apply fueled_bind; intros
    | apply fueled_fail; discriminate
    | apply fueled_of_option; discriminate
    | case_match ].

Lemma slot_fueled i : fueled (slot i).
Proof. unfold slot. fueled. Qed.
Lemma set_slot_fueled i v : fueled (set_slot i v).
Proof. unfold set_slot. fueled. Qed.
Lemma text_byte_fueled k : fueled (text_byte k).
Proof. unfold text_byte. fueled. Qed.
Hint Resolve slot_fueled set_slot_fueled text_byte_fueled : fueled.
Lemma get_member_fueled w i : fueled (get_member w i).
Proof. unfold get_member. fueled. Qed.
Lemma put_member_fueled w i v : fueled (put_member w i v).
Proof. unfold put_member. fueled. Qed.
Lemma get16_fueled : fueled FINSH_GET16.
Proof. unfold FINSH_GET16. fueled. Qed.
Lemma get32_fueled : fueled FINSH_GET32.
Proof. unfold FINSH_GET32. fueled. Qed.
Hint Resolve get_member_fueled put_member_fueled get16_fueled get32_fueled : fueled.
Lemma move_sp_fueled d : fueled (move_sp d).
Proof. unfold move_sp. fueled. Qed.
Lemma move_pc_fueled d : fueled (move_pc d).
Proof. unfold move_pc. fueled. Qed.
Hint Resolve move_sp_fueled move_pc_fueled : fueled.
Lemma pop_parameters_fueled n : forall vs, fueled (pop_parameters n vs).
Proof. induction n as [|n IH]; intros vs; simpl; fueled. Qed.
Hint Resolve pop_parameters_fueled : fueled.

Section calls.
Context (Hcalls : forall f args m, call_function f args m <> Fail OutOfFuel).

Lemma OP_call_fueled : fueled OP_call.
Proof.
  unfold OP_call. fueled;
    match goal with E : call_function _ _ _ = Fail ?f |- _ => apply fueled_fail; intros ->; by eapply Hcalls end.
Qed.

Lemma op_table_fueled : Forall fueled op_table.
Proof.
  unfold op_table. repeat (apply List.Forall_cons); try apply List.Forall_nil;
    unfold OP_no_op, OP_BIN, OP_bw, OP_ld, OP_ld_value, OP_ld_value_stack, OP_st, OP_pop; try apply OP_call_fueled; fueled.
Qed.

Lemma vm_step_fueled : fueled vm_step.
Proof.
  unfold vm_step. apply fueled_bind; [fueled|intros op]. apply fueled_bind; [fueled|intros _].
  intros s. unfold bind, of_option. destruct (op_table !! Z.to_nat op) as [f|] eqn:Ef; [|done].
  by apply (proj1 (Forall_lookup _ _) op_table_fueled _ _ Ef).
Qed.

Lemma vm_loop_fueled n : forall s, (room s <= n)%nat -> vm_loop n s <> Fail OutOfFuel.
Proof.
  induction n as [|n IH]; intros s Hn; simpl; unfold bind, get; destruct (in_text s) eqn:E; try done.
  - apply in_text_room in E. lia.
  - destruct (vm_step s) as [[] s'|f] eqn:Es.
    + apply IH. pose proof (vm_step_room _ _ E Es). lia.
    + intros [= ->]. by eapply vm_step_fueled.
Qed.

(** C25: The machine stops on whatever is in its text segment, provided the functions it calls
    return: it takes at most one step per byte of the text, and more fuel makes no difference.
    *)
Theorem finsh_vm_run_stops s : finsh_vm_run s <> Fail OutOfFuel /\
  forall fuel, (FINSH_TEXT_MAX <= fuel)%nat ->
    bind (modify (fun s => set_pc 0 (set_stack (finsh_vm_stack s) 0 s))) (fun _ => vm_loop fuel) s = finsh_vm_run s.
Proof.
  split.
  - rewrite finsh_vm_run_run. by apply vm_loop_fueled.
  - intros fuel Hf. unfold finsh_vm_run, bind, modify. by apply vm_loop_enough.
Qed.

End calls.

(** * Words in the text *)

(** linear arithmetic with division by constants *)
Ltac nums := change (2 ^ 8) with 256 in *; change (2 ^ 16) with 65536 in *; change (2 ^ 24) with 16777216 in *;
  Z.to_euclidean_division_equations; lia.

Lemma lor_shift a b k : 0 <= k -> 0 <= a < 2 ^ k -> Z.lor a (Z.shiftl b k) = a + 2 ^ k * b.
Proof.
  intros Hk Ha. assert (Z.land a (Z.shiftl b k) = 0) as E.
  { apply Z.bits_inj'. intros n Hn. rewrite Z.land_spec, Z.shiftl_spec, Z.bits_0 by done.
    destruct (Z_lt_le_dec n k); [by rewrite (Z.testbit_neg_r b) by lia; rewrite andb_false_r|].
    by rewrite (testbit_high a k n) by lia. }
  pose proof (Z.add_lor_land a (Z.shiftl b k)) as E2. rewrite E in E2. rewrite <-(Z.mul_comm b), <-Z.shiftl_mul_pow2 by done. lia.
Qed.

Lemma word_bytes x : word x = [u8 x; u8 (Z.shiftr x 8)].
Proof. unfold word. change 255 with (Z.ones 8). by rewrite Z.land_ones by lia. Qed.

Lemma dword_bytes x : dword x = [u8 (u32 x); u8 (Z.shiftr (u32 x) 8); u8 (Z.shiftr (u32 x) 16); u8 (Z.shiftr (u32 x) 24)].
Proof. unfold dword. change 255 with (Z.ones 8). by rewrite !Z.land_ones by lia. Qed.

Lemma dword_value x : let b k := u8 (Z.shiftr (u32 x) k) in
  Z.lor (Z.lor (Z.lor (u8 (u32 x)) (Z.shiftl (b 8) 8)) (Z.shiftl (b 16) 16)) (Z.shiftl (b 24) 24) = u32 x.
Proof.
  cbv beta zeta. rewrite !byte_of by lia. unfold u8. pose proof (u32_range x) as Hx. generalize dependent (u32 x). intros y Hy.
  change (2 ^ 8) with 256; change (2 ^ 16) with 65536; change (2 ^ 24) with 16777216.
  rewrite (lor_shift (y mod 256)) by nums.
  rewrite (lor_shift (y mod 256 + _)) by nums.
  rewrite lor_shift by nums. nums.
Qed.

Lemma word_value x : 0 <= x < 2 ^ 16 -> Z.lor (u8 x) (Z.shiftl (u8 (Z.shiftr x 8)) 8) = x.
Proof. intros Hx. rewrite byte_of by lia. unfold u8. rewrite lor_shift by nums. nums. Qed.

(** * One instruction

    The machine at work on a text: what changes is its counter, its stack and the memory. *)

Definition vm (s : finsh) (pc : Z) (stk : list Z) (sp : nat) (m : memory) : finsh :=
  set_pc pc (set_stack stk (Z.of_nat sp) (set_fmem m s)).

(** [bs] lies in the text at [pc]. *)
Definition code_at (t : list Z) (pc : Z) (bs : list Z) : Prop :=
  exists l r, t = l ++ bs ++ r /\ pc = Z.of_nat (length l) /\ length t = FINSH_TEXT_MAX.

Lemma code_at_app t pc a b : code_at t pc (a ++ b) <-> code_at t pc a /\ code_at t (pc + Z.of_nat (length a)) b.
Proof.
  split.
  - intros (l & r & -> & -> & Hl). split.
    + exists l, (b ++ r). by rewrite <-(assoc_L (++)) in Hl |- *.
    + exists (l ++ a), r. rewrite length_app. split_and!; [by rewrite <-!(assoc_L (++))|lia|done].
  - intros [(l & r & -> & -> & Hl) (l' & r' & Heq & Hpc & _)]. exists l, r'.
    assert (l' = l ++ a) as ->.
    { rewrite (assoc_L (++) l) in Heq. apply (f_equal (take (length (l ++ a)))) in Heq. rewrite take_app_length in Heq.
      rewrite take_app_le in Heq by (rewrite length_app; lia). rewrite Heq. rewrite firstn_all2 by (rewrite length_app; lia). done. }
    rewrite <-(assoc_L (++)) in Heq. rewrite <-(assoc_L (++)). by rewrite Heq in Hl |- *.
Qed.

Lemma code_at_cons t pc b bs : code_at t pc (b :: bs) <-> code_at t pc [b] /\ code_at t (pc + 1) bs.
Proof. apply (code_at_app t pc [b] bs). Qed.

Lemma code_at_range t pc b bs : code_at t pc (b :: bs) -> 0 <= pc < Z.of_nat FINSH_TEXT_MAX.
Proof. intros (l & r & -> & -> & Hl). rewrite length_app in Hl. simpl in Hl. lia. Qed.

Lemma move_sp_at s pc stk m d sp sp' : Z.of_nat sp + d = Z.of_nat sp' -> move_sp d (vm s pc stk sp m) = Ret tt (vm s pc stk sp' m).
Proof. intros E. unfold move_sp, modify, vm. cbn. by rewrite E. Qed.

Lemma move_pc_at s pc stk m d sp : move_pc d (vm s pc stk sp m) = Ret tt (vm s (pc + d) stk sp m).
Proof. done. Qed.

Section instructions.
Context (s0 : finsh) (m : memory) (pc : Z) (stk : list Z).
Context (Hstk : length stk = FINSH_STACK_MAX).

Notation at_ pc stk sp m := (vm s0 pc stk sp m).

Lemma text_byte_at i k b bs sp : i = Z.of_nat k -> code_at (text_segment s0) pc bs -> bs !! k = Some b ->
  text_byte i (at_ pc stk sp m) = Ret b (at_ pc stk sp m).
Proof.
  intros -> (l & r & Ht & Hpc & Hl) Hk. unfold text_byte, bind, get. simpl.
  assert (length (l ++ bs ++ r) = FINSH_TEXT_MAX) as Hlen by congruence.
  rewrite !length_app in Hlen. apply lookup_lt_Some in Hk as Hlt.
  replace ((0 <=? pc + Z.of_nat k) && (pc + Z.of_nat k <? Z.of_nat FINSH_TEXT_MAX)) with true by lia.
  rewrite Ht. replace (Z.to_nat (pc + Z.of_nat k)) with (length l + k)%nat by lia.
  rewrite lookup_app_r, Nat.add_sub_swap, Nat.sub_diag by lia. simpl. by rewrite lookup_app_l, Hk.
Qed.

Lemma run_fetch op bs (f : F unit) sp : code_at (text_segment s0) pc (op :: bs) -> op_table !! Z.to_nat op = Some f ->
  run (at_ pc stk sp m) = match f (at_ (pc + 1) stk sp m) with Ret _ s' => run s' | Fail e => Fail e end.
Proof.
  intros Hc Hf. pose proof (code_at_range _ _ _ _ Hc). rewrite run_step by (unfold in_text; simpl; lia).
  unfold vm_step, bind at 1. rewrite (text_byte_at 0 0 op (op :: bs)) by done. unfold bind, of_option, move_pc, modify. by rewrite Hf.
Qed.

Lemma slot_at k x sp i : i = Z.of_nat k -> stk !! k = Some x -> slot i (at_ pc stk sp m) = Ret x (at_ pc stk sp m).
Proof.
  intros -> Hx. apply lookup_lt_Some in Hx as Hlt. unfold slot, bind, get. simpl.
  replace ((0 <=? Z.of_nat k) && (Z.of_nat k <? Z.of_nat FINSH_STACK_MAX)) with true by lia. by rewrite Nat2Z.id, Hx.
Qed.

Lemma get_member_at w k x sp i : i = Z.of_nat k -> stk !! k = Some x ->
  get_member w i (at_ pc stk sp m) = Ret (member w x) (at_ pc stk sp m).
Proof. intros. unfold get_member, bind. by rewrite (slot_at k x). Qed.

Lemma put_member_at w k x sp i v : i = Z.of_nat k -> stk !! k = Some x ->
  put_member w i v (at_ pc stk sp m) = Ret tt (at_ pc (<[k := assign_member w x v]> stk) sp m).
Proof.
  intros -> Hx. unfold put_member, bind. rewrite (slot_at k x) by done. unfold set_slot, bind, get. apply lookup_lt_Some in Hx as Hlt.
  replace ((0 <=? Z.of_nat k) && (Z.of_nat k <? Z.of_nat FINSH_STACK_MAX)) with true by lia. by rewrite Nat2Z.id.
Qed.

Lemma OP_BIN_at w o sp x y : stk !! sp = Some x -> stk !! S sp = Some y ->
  OP_BIN w o (at_ pc stk (S (S sp)) m) =
  match c_binop o (member w x) (member w y) with
  | Some r => Ret tt (at_ pc (<[sp := assign_member w x r]> stk) (S sp) m)
  | None => Fail BadPointer
  end.
Proof.
  intros Hx Hy. unfold OP_BIN. unfold bind at 1, get. cbn beta iota.
  unfold bind at 1. rewrite (get_member_at w sp x) by (done || simpl; lia).
  unfold bind at 1. rewrite (get_member_at w (S sp) y) by (done || simpl; lia).
  unfold bind at 1, of_option. destruct (c_binop o (member w x) (member w y)) as [r|]; [|done].
  unfold bind. rewrite (put_member_at w sp x) by (done || simpl; lia). apply move_sp_at. lia.
Qed.

Lemma OP_bw_at w sp x : stk !! sp = Some x ->
  OP_bw w (at_ pc stk (S sp) m) = Ret tt (at_ pc (<[sp := assign_member w x (Z.lnot (member w x))]> stk) (S sp) m).
Proof.
  intros Hx. unfold OP_bw. unfold bind at 1, get. cbn beta iota. unfold bind.
  rewrite (get_member_at w sp x) by (done || simpl; lia). by rewrite (put_member_at w sp x) by (done || simpl; lia).
Qed.

Lemma OP_ld_value_stack_at w sp x : stk !! sp = Some x ->
  OP_ld_value_stack w (at_ pc stk (S sp) m) =
  Ret tt (at_ pc (<[sp := assign_member w x (fetch w m (u32 (s32 x)))]> stk) (S sp) m).
Proof.
  intros Hx. unfold OP_ld_value_stack. unfold bind at 1, get. cbn beta iota. unfold bind.
  rewrite (get_member_at Dword sp x) by (done || simpl; lia). by rewrite (put_member_at w sp x) by (done || simpl; lia).
Qed.

Lemma OP_st_at w sp x y : stk !! sp = Some x -> stk !! S sp = Some y ->
  OP_st w (at_ pc stk (S (S sp)) m) = Ret tt (at_ pc stk (S sp) (store w (u32 (s32 x)) (member w y) m)).
Proof.
  intros Hx Hy. unfold OP_st. unfold bind at 1, get. cbn beta iota.
  unfold bind at 1. rewrite (get_member_at Dword sp x) by (done || simpl; lia).
  unfold bind at 1. rewrite (get_member_at w (S sp) y) by (done || simpl; lia).
  unfold bind, modify. apply (move_sp_at _ _ _ (store _ _ _ _)). lia.
Qed.

Lemma FINSH_GET32_at v bs sp : code_at (text_segment s0) pc (dword v ++ bs) ->
  FINSH_GET32 (at_ pc stk sp m) = Ret (u32 v) (at_ pc stk sp m).
Proof.
  intros Hc. rewrite dword_bytes in Hc. unfold FINSH_GET32, bind.
  by rewrite (text_byte_at 0 0 _ _ sp eq_refl Hc eq_refl), (text_byte_at 1 1 _ _ sp eq_refl Hc eq_refl),
    (text_byte_at 2 2 _ _ sp eq_refl Hc eq_refl), (text_byte_at 3 3 _ _ sp eq_refl Hc eq_refl), dword_value.
Qed.

Lemma FINSH_GET16_at v bs sp : 0 <= v < 2 ^ 16 -> code_at (text_segment s0) pc (word v ++ bs) ->
  FINSH_GET16 (at_ pc stk sp m) = Ret v (at_ pc stk sp m).
Proof.
  intros Hv Hc. rewrite word_bytes in Hc. unfold FINSH_GET16, bind.
  by rewrite (text_byte_at 0 0 _ _ sp eq_refl Hc eq_refl), (text_byte_at 1 1 _ _ sp eq_refl Hc eq_refl), word_value.
Qed.

(** the operand of a load of the width, for a value the width can carry *)
Definition operand (w : width) (v : Z) : list Z := match w with Byte => [u8 v] | Word => word v | Dword => dword v end.
Definition carried (w : width) (v : Z) : Z := match w with Byte => u8 v | Word => v | Dword => u32 v end.

Lemma OP_ld_at w v bs sp x : (w = Word -> 0 <= v < 2 ^ 16) -> code_at (text_segment s0) pc (operand w v ++ bs) -> stk !! sp = Some x ->
  OP_ld w (at_ pc stk sp m) =
  Ret tt (at_ (pc + Z.of_nat (length (operand w v))) (<[sp := assign_member w x (carried w v)]> stk) (S sp) m).
Proof.
  intros Hv Hc Hx. unfold OP_ld. unfold bind at 1, get. cbn beta iota. unfold bind.
  assert (match w with Byte => text_byte 0 | Word => FINSH_GET16 | Dword => FINSH_GET32 end (at_ pc stk sp m) =
    Ret (carried w v) (at_ pc stk sp m)) as ->.
  { destruct w; [by apply (text_byte_at 0 0 _ _ sp eq_refl Hc)|by eapply FINSH_GET16_at; [apply Hv|]|by eapply FINSH_GET32_at]. }
  rewrite (put_member_at w sp x) by done. rewrite (move_sp_at _ _ _ _ _ _ (S sp)) by lia. rewrite move_pc_at. by destruct w.
Qed.

Lemma OP_ld_value_at w v bs sp x : code_at (text_segment s0) pc (dword v ++ bs) -> stk !! sp = Some x ->
  OP_ld_value w (at_ pc stk sp m) =
  Ret tt (at_ (pc + 4) (<[sp := assign_member w x (fetch w m (u32 v))]> stk) (S sp) m).
Proof.
  intros Hc Hx. unfold OP_ld_value. unfold bind at 1, get. cbn beta iota. unfold bind.
  rewrite (FINSH_GET32_at _ _ _ Hc), (put_member_at w sp x) by done.
  by rewrite (move_sp_at _ _ _ _ _ _ (S sp)) by lia.
Qed.

Lemma OP_pop_at sp : OP_pop (at_ pc stk (S sp) m) = Ret tt (at_ pc stk sp m).
Proof. apply move_sp_at. lia. Qed.

End instructions.

(** ** Calls *)

Section calls_at.
Context (s0 : finsh) (m : memory) (stk : list Z).
Context (Hstk : length stk = FINSH_STACK_MAX).

Notation at_ pc stk sp m := (vm s0 pc stk sp m).

Lemma pop_parameters_at pc n : forall xs acc sp, length xs = n -> (n <= 16)%nat ->
  (forall i x, xs !! i = Some x -> stk !! (S sp + i)%nat = Some x) ->
  pop_parameters n acc (at_ pc stk (sp + n) m) = Ret ((u32 <$> xs) ++ acc) (at_ pc stk sp m).
Proof.
  induction n as [|n IH]; intros xs acc sp Hl Hn Hx.
  - destruct xs; [|done]. by rewrite Nat.add_0_r.
  - destruct xs as [|y ys _] using rev_ind; [done|]. rewrite length_app in Hl. simpl in Hl.
    simpl. replace (n <? 16)%nat with true by (symmetry; apply Nat.ltb_lt; lia).
    unfold bind at 1, get. cbn beta iota.
    assert (stk !! (sp + S n)%nat = Some y) as Hy.
    { replace (sp + S n)%nat with (S sp + n)%nat by lia. apply Hx. rewrite lookup_app_r by lia. by replace (n - length ys)%nat with O by lia. }
    unfold bind at 1. rewrite (get_member_at _ _ _ _ Hstk Dword (sp + S n)%nat y) by done.
    unfold bind at 1. rewrite (move_sp_at _ _ _ _ _ _ (sp + n)%nat) by lia.
    rewrite (IH ys) by (lia || (intros i x Hi; apply Hx; by apply lookup_app_l_Some)).
    simpl. by rewrite u32_s32, fmap_app, <-(assoc_L (++)).
Qed.

(** the argument list of a call *)
Definition call_args (xs : list Z) : list Z := match xs with [] => [0] | _ => xs end.

Lemma OP_call_at pc n fx xs sp : code_at (text_segment s0) pc [Z.of_nat n] -> length xs = n -> (n <= 16)%nat ->
  stk !! sp = Some fx -> (forall i x, xs !! i = Some x -> stk !! (S sp + i)%nat = Some x) ->
  OP_call (at_ pc stk (S sp + n) m) =
  match call_function (u32 fx) (call_args (u32 <$> xs)) m with
  | Ret r m' => Ret tt (at_ (pc + 1) (<[sp := assign_member Dword fx r]> stk) (S sp) m')
  | Fail e => Fail e
  end.
Proof.
  intros Hc Hl Hn Hf Hx. unfold OP_call. unfold bind at 1. rewrite (text_byte_at _ _ _ _ Hstk 0 0 _ _ _ eq_refl Hc eq_refl).
  unfold bind at 1. rewrite move_pc_at. unfold bind at 1. rewrite (move_sp_at _ _ _ _ _ _ (sp + n)%nat) by lia.
  unfold bind at 1. rewrite Nat2Z.id, (pop_parameters_at _ n xs) by done. unfold bind at 1, get. cbn beta iota.
  unfold bind at 1. rewrite (get_member_at _ _ _ _ Hstk Dword sp fx) by done. rewrite app_nil_r. simpl member. rewrite u32_s32.
  unfold call_args. change (fmem (at_ _ _ _ m)) with m.
  destruct (call_function _ _ m) as [r m'|]; [|done].
  unfold bind at 1, modify. cbn beta iota. unfold bind. change (set_fmem m' (at_ (pc + 1) stk sp m)) with (at_ (pc + 1) stk sp m').
  rewrite (put_member_at _ _ _ _ Hstk Dword sp fx) by done. by rewrite (move_sp_at _ _ _ _ _ _ (S sp)) by lia.
Qed.

End calls_at.

End vm.
