(* ===== verification/FinshExpr.v ===== *)
(** The expressions of the shell as the language they are meant to be: syntax, types,
    values, and the code that computes them.

    The type of an expression has two parts: the data type the type check gives its
    node, which selects the width of the operations on it, and the width to which the
    expression fills its element of the stack.  An operation reads an element at the
    width of its left operand, so the right operand has to be filled at least that far;
    the parameters of a call are read whole.  For an expression with a type the machine
    computes its value whatever the stack held before ([expr_run]). *)

From S2P Require Import Prelude Mem Finsh FinshCompiler FinshVm FinshVmSpec.

Open Scope Z_scope.

(** * Syntax *)

(** what an identifier names: a variable of the shell or a system variable *)
Inductive place : Type :=
| PVar (i : nat)
| PSys (v : finsh_sysvar).

Inductive expr : Type :=
| Char (c : Z)
| Const (v : Z)
| Load (x : place)
| Addr (x : place)
| Bin (o : binop) (a b : expr)
| Not (a : expr)
| Assign (x : place) (a : expr)
| Deref (a : expr)
| AssignAt (a b : expr)
| Pre (up : bool) (i : nat)
| Post (up : bool) (i : nat)
| Call (f : finsh_syscall) (args : exprs)
with exprs : Type :=
| Nil
| Cons (a : expr) (args : exprs).

Scheme expr_mut := Induction for expr Sort Prop with exprs_mut := Induction for exprs Sort Prop.
Combined Scheme expr_exprs_ind from expr_mut, exprs_mut.

Fixpoint count (es : exprs) : nat := match es with Nil => O | Cons _ es => S (count es) end.

(** * Widths *)

Definition width_code (w : width) : Z :=
  match w with Byte => FINSH_DATA_TYPE_BYTE | Word => FINSH_DATA_TYPE_WORD | Dword => FINSH_DATA_TYPE_DWORD end.

Definition code_width (dt : Z) : option width := by_type dt (Some Byte) (Some Word) (Some Dword) None.

Definition width_le (a b : width) : bool := width_code a <=? width_code b.

Section language.
Context `{finsh_image}.

(** The variables that are declared. *)
Context (vars : list finsh_var).

Definition place_type (x : place) : option Z :=
  match x with PVar i => var_type <$> vars !! i | PSys v => Some (sysvar_type v) end.
Definition place_id (x : place) : finsh_id := match x with PVar i => id_var i | PSys v => id_sysvar v end.
Definition place_addr (x : place) : Z := match x with PVar i => value_at (id_var i) | PSys v => var v end.

(** the width of the objects of a type; of void and of void * there are none *)
Definition type_width (type : Z) : option width :=
  if is_byte type then Some Byte else if is_word type then Some Word else if is_dword type then Some Dword else None.
Definition place_width (x : place) : option width := t ← place_type x; type_width t.

(** * Types *)

Fixpoint expr_type (e : expr) : option (Z * width) :=
  match e with
  | Char _ => Some (FINSH_DATA_TYPE_BYTE, Byte)
  | Const _ => Some (FINSH_DATA_TYPE_DWORD, Dword)
  | Load x => w ← place_width x; Some (width_code w, w)
  | Addr x => w ← place_width x; Some (width_code w, Dword)
  | Bin _ a b =>
      ta ← expr_type a; tb ← expr_type b;
      if bool_decide (code_width ta.1 = Some ta.2) && width_le ta.2 tb.2 then Some ta else None
  | Not a => ta ← expr_type a; if bool_decide (code_width ta.1 = Some ta.2) then Some ta else None
  | Assign x a =>
      w ← place_width x; ta ← expr_type a;
      if width_le w ta.2 then Some (width_code w, w) else None
  | Deref a => ta ← expr_type a; w ← code_width ta.1; if bool_decide (ta.2 = Dword) then Some (ta.1, w) else None
  | AssignAt a b =>
      ta ← expr_type a; tb ← expr_type b; w ← code_width ta.1;
      if bool_decide (ta.2 = Dword) && width_le w tb.2 then Some (ta.1, w) else None
  | Pre _ i => w ← place_width (PVar i); Some (width_code w, Dword)
  | Post _ i => w ← place_width (PVar i); Some (width_code w, w)
  | Call _ args => if args_typed args && (count args <=? 16)%nat then Some (FINSH_DATA_TYPE_VOID, Dword) else None
  end
with args_typed (es : exprs) : bool :=
  match es with
  | Nil => true
  | Cons a es => match expr_type a with Some (_, Dword) => args_typed es | _ => false end
  end.

Definition expr_width (e : expr) : width := match expr_type e with Some (_, w) => w | None => Dword end.
Definition expr_data (e : expr) : Z := match expr_type e with Some (d, _) => d | None => 0 end.

(** * Values *)

Definition load (w : width) (a : Z) : M memory Z := let! m := get in ret (member w (fetch w m (u32 a))).
Definition step_op (up : bool) : binop := if up then Add else Sub.

(** [x = x + 1] at a width *)
Definition increment (w : width) (up : bool) (a : Z) : M memory unit :=
  let! v := load w a in
  let! r := of_option BadPointer (c_binop (step_op up) v 1) in
  modify (store w (u32 a) (member w r)).

Fixpoint eval (e : expr) : M memory Z :=
  match e with
  | Char c => ret (u8 c)
  | Const v => ret (s32 v)
  | Load x => load (expr_width e) (place_addr x)
  | Addr x => ret (s32 (place_addr x))
  | Bin o a b =>
      let w := expr_width a in
      let! x := eval a in
      let! y := eval b in
      let! r := of_option BadPointer (c_binop o x (member w y)) in
      ret (member w r)
  | Not a => let! x := eval a in ret (member (expr_width a) (Z.lnot x))
  | Assign x a =>
      let w := expr_width e in
      let! v := eval a in
      modify (store w (u32 (place_addr x)) (member w v)) ;!
      load w (place_addr x)
  | Deref a => let! p := eval a in load (expr_width e) p
  | AssignAt a b =>
      let w := expr_width e in
      let! p := eval a in
      let! v := eval b in
      modify (store w (u32 p) (member w v)) ;!
      load w p
  | Pre up i =>
      let a := place_addr (PVar i) in
      increment (expr_width (Load (PVar i))) up a ;!
      load Dword a
  | Post up i =>
      let a := place_addr (PVar i) in
      let! v := load (expr_width e) a in
      increment (expr_width e) up a ;!
      ret v
  | Call f args =>
      let! vs := eval_args args in
      let! r := call_function (u32 (func f)) (call_args (u32 <$> vs)) in
      ret (s32 r)
  end
with eval_args (es : exprs) : M memory (list Z) :=
  match es with
  | Nil => ret []
  | Cons a es => let! v := eval a in let! vs := eval_args es in ret (v :: vs)
  end.

(** * Code *)

(** the operation codes of a width *)
Definition op_code (o : binop) (w : width) : Z :=
  match o with
  | Add => 0x01 | Sub => 0x04 | Div => 0x07 | Mod => 0x0A | Mul => 0x0D | And => 0x10 | Or => 0x13 | Xor => 0x16
  | Shl => 0x1C | Shr => 0x1F
  end + (width_code w - 1).
Definition bw_code (w : width) : Z := 0x19 + (width_code w - 1).
Definition ld_code (w : width) : Z := 0x22 + (width_code w - 1).
Definition ld_value_code (w : width) : Z := 0x25 + (width_code w - 1).
Definition st_code (w : width) : Z := 0x28 + (width_code w - 1).
Definition ld_stack_code (w : width) : Z := 0x2D + (width_code w - 1).

Definition load_addr (a : Z) : list Z := FINSH_OP_LD_DWORD :: dword a.

(** load, add or subtract one, store *)
Definition increment_code (w : width) (up : bool) (a : Z) : list Z :=
  [ld_value_code w] ++ dword a ++ [ld_code w] ++ operand w 1 ++ [op_code (step_op up) w; st_code w].

Fixpoint code (e : expr) : list Z :=
  match e with
  | Char c => [FINSH_OP_LD_BYTE; u8 c]
  | Const v => FINSH_OP_LD_DWORD :: dword v
  | Load x => ld_value_code (expr_width e) :: dword (place_addr x)
  | Addr x => load_addr (place_addr x)
  | Bin o a b => code a ++ code b ++ [op_code o (expr_width a)]
  | Not a => code a ++ [bw_code (expr_width a)]
  | Assign x a => load_addr (place_addr x) ++ code a ++ [st_code (expr_width e); ld_stack_code (expr_width e)]
  | Deref a => code a ++ [ld_stack_code (expr_width e)]
  | AssignAt a b => code a ++ code b ++ [st_code (expr_width e); ld_stack_code (expr_width e)]
  | Pre up i =>
      let a := place_addr (PVar i) in
      load_addr a ++ increment_code (expr_width (Load (PVar i))) up a ++ [FINSH_OP_LD_VALUE_DWORD_STACK]
  | Post up i =>
      let a := place_addr (PVar i) in
      [ld_value_code (expr_width e)] ++ dword a ++ load_addr a ++ increment_code (expr_width e) up a ++ [FINSH_OP_POP]
  | Call f args => load_addr (func f) ++ args_code args ++ [FINSH_OP_SYSCALL; Z.of_nat (count args)]
  end
with args_code (es : exprs) : list Z :=
  match es with Nil => [] | Cons a es => code a ++ args_code es end.

(** the elements of the stack the code uses *)
Fixpoint depth (e : expr) : nat :=
  match e with
  | Char _ | Const _ | Load _ | Addr _ => 1
  | Bin _ a b => Nat.max (depth a) (S (depth b))
  | Not a | Deref a => depth a
  | Assign _ a => S (depth a)
  | AssignAt a b => Nat.max (depth a) (S (depth b))
  | Pre _ _ => 3
  | Post _ _ => 4
  | Call _ args => S (args_depth args)
  end
with args_depth (es : exprs) : nat :=
  match es with Nil => O | Cons a es => Nat.max (depth a) (S (args_depth es)) end.

End language.
