(* ===== verification/FinshEval.v ===== *)
(** The code of an expression computes its value. *)

From S2P Require Import Prelude Mem Finsh FinshCompiler FinshVm FinshVmSpec FinshExpr.

Open Scope Z_scope.

(** * Members of the union *)

Lemma member_assign w x v : member w (assign_member w x v) = member w v.
Proof. destruct w; simpl; unfold u8, u16, u32, s16, s32; Z.to_euclidean_division_equations; lia. Qed.

Lemma member_le a b x : width_le a b = true -> member a (member b x) = member a x.
Proof. destruct a, b; simpl; try done; intros _; unfold u8, s16, s32; Z.to_euclidean_division_equations; lia. Qed.

Lemma width_le_refl w : width_le w w = true.
Proof. by destruct w. Qed.

Lemma member_idemp w x : member w (member w x) = member w x.
Proof. apply member_le. by destruct w. Qed.

Lemma member_carried w v : member w (carried w v) = member w v.
Proof. destruct w; simpl; unfold u8, u32, s32; Z.to_euclidean_division_equations; lia. Qed.

Lemma lnot_member w x : member w (Z.lnot (member w x)) = member w (Z.lnot x).
Proof. destruct w; simpl; unfold Z.lnot, Z.pred, u8, s16, s32; Z.to_euclidean_division_equations; lia. Qed.

Lemma code_width_code w : code_width (width_code w) = Some w.
Proof. by destruct w. Qed.

Section eval.
Context `{finsh_image}.
Context (s0 : finsh).

(** * Entries of the operation table *)

Lemma op_code_entry o w : op_table !! Z.to_nat (op_code o w) = Some (OP_BIN w o).
Proof. by destruct o, w. Qed.
Lemma bw_code_entry w : op_table !! Z.to_nat (bw_code w) = Some (OP_bw w).
Proof. by destruct w. Qed.
Lemma ld_code_entry w : op_table !! Z.to_nat (ld_code w) = Some (OP_ld w).
Proof. by destruct w. Qed.
Lemma ld_value_code_entry w : op_table !! Z.to_nat (ld_value_code w) = Some (OP_ld_value w).
Proof. by destruct w. Qed.
Lemma st_code_entry w : op_table !! Z.to_nat (st_code w) = Some (OP_st w).
Proof. by destruct w. Qed.
Lemma ld_stack_code_entry w : op_table !! Z.to_nat (ld_stack_code w) = Some (OP_ld_value_stack w).
Proof. by destruct w. Qed.

(** * Code that pushes a value *)

(** [stk'] is [stk] with a value of a width at [sp]; what lies above it is not known *)
Definition pushed (stk stk' : list Z) (sp : nat) (w : width) (v : Z) : Prop :=
  length stk' = FINSH_STACK_MAX /\ take sp stk' = take sp stk /\ exists x, stk' !! sp = Some x /\ member w x = v.

(** [bs] computes [f]: it pushes its value on any stack with [d] free elements, or fails as [f] does *)
Definition computes (d : nat) (bs : list Z) (f : M memory Z) (w : width) : Prop :=
  forall pc stk sp m, code_at (text_segment s0) pc bs -> length stk = FINSH_STACK_MAX -> (sp + d <= FINSH_STACK_MAX)%nat ->
  match f m with
  | Ret v m' => exists stk', run (vm s0 pc stk sp m) = run (vm s0 (pc + Z.of_nat (length bs)) stk' (S sp) m') /\ pushed stk stk' sp w v
  | Fail e => run (vm s0 pc stk sp m) = Fail e
  end.

Lemma stack_slot (stk : list Z) sp : length stk = FINSH_STACK_MAX -> (sp + 1 <= FINSH_STACK_MAX)%nat -> exists x, stk !! sp = Some x.
Proof. intros Hl Hs. apply lookup_lt_is_Some_2. lia. Qed.

Lemma pushed_insert (stk : list Z) sp w y : length stk = FINSH_STACK_MAX -> (sp + 1 <= FINSH_STACK_MAX)%nat ->
  pushed stk (<[sp := y]> stk) sp w (member w y).
Proof.
  intros Hl Hs. split; [by rewrite length_insert|]. split; [by rewrite take_insert_ge|].
  exists y. by rewrite list_lookup_insert_eq by lia.
Qed.

(** what a push leaves of an earlier one *)
Lemma pushed_below stk stk' sp w v k x : pushed stk stk' sp w v -> (k < sp)%nat -> stk !! k = Some x -> stk' !! k = Some x.
Proof. intros (_ & Ht & _) Hk Hx. by rewrite <-(lookup_take_lt _ sp), Ht, lookup_take_lt. Qed.

Lemma pushed_over stk stk1 stk' sp w v k w1 v1 : pushed stk stk1 sp w1 v1 -> pushed stk1 stk' (sp + k) w v ->
  take sp stk' = take sp stk.
Proof.
  intros (_ & Ht1 & _) (_ & Ht & _). apply (f_equal (take sp)) in Ht. by rewrite !take_take, Nat.min_l, Ht1 in Ht by lia.
Qed.

(** the element of a push is replaced *)
Lemma pushed_replace stk stk' sp w y : length stk' = FINSH_STACK_MAX -> (sp + 1 <= FINSH_STACK_MAX)%nat ->
  take sp stk' = take sp stk -> pushed stk (<[sp := y]> stk') sp w (member w y).
Proof.
  intros Hl Hs Ht. destruct (pushed_insert stk' sp w y Hl Hs) as (H1 & H2 & H3). split; [done|]. by rewrite H2.
Qed.

Lemma computes_ld w v : (w = Word -> 0 <= v < 2 ^ 16) -> computes 1 (ld_code w :: operand w v) (ret (member w v)) w.
Proof.
  intros Hv pc stk sp m Hc Hl Hs. destruct (stack_slot _ _ Hl Hs) as [x Hx].
  rewrite (run_fetch _ _ _ _ Hl _ _ _ _ Hc (ld_code_entry w)). apply code_at_cons in Hc as [_ Hc].
  rewrite (OP_ld_at _ _ _ _ Hl w v [] sp x); [|done|by rewrite app_nil_r|done].
  eexists. split; [do 2 f_equal; simpl; lia|].
  rewrite <-(member_carried w v), <-(member_assign w x). by apply pushed_insert.
Qed.

Lemma computes_ld_value w a : computes 1 (ld_value_code w :: dword a) (load w a) w.
Proof.
  intros pc stk sp m Hc Hl Hs. destruct (stack_slot _ _ Hl Hs) as [x Hx]. simpl.
  rewrite (run_fetch _ _ _ _ Hl _ _ _ _ Hc (ld_value_code_entry w)). apply code_at_cons in Hc as [_ Hc].
  rewrite (OP_ld_value_at _ _ _ _ Hl w a [] sp x); [|by rewrite app_nil_r|done].
  eexists. split; [do 2 f_equal; simpl; lia|]. rewrite <-(member_assign w x). by apply pushed_insert.
Qed.

Lemma computes_ext d bs f g w : computes d bs f w -> (forall m, f m = g m) -> computes d bs g w.
Proof. intros Hf E pc stk sp m. rewrite <-E. by apply Hf. Qed.

(** an address or a constant of 32 bits *)
Lemma computes_dword a : computes 1 (load_addr a) (ret (s32 a)) Dword.
Proof. by apply (computes_ld Dword). Qed.

Lemma code_at_snoc pc bs b : code_at (text_segment s0) pc (bs ++ [b]) ->
  code_at (text_segment s0) pc bs /\ code_at (text_segment s0) (pc + Z.of_nat (length bs)) [b].
Proof. apply code_at_app. Qed.

Lemma computes_bin da db a b f g o w wb : computes da a f w -> computes db b g wb -> width_le w wb = true ->
  computes (Nat.max da (S db)) (a ++ b ++ [op_code o w])
    (let! x := f in let! y := g in let! r := of_option BadPointer (c_binop o x (member w y)) in ret (member w r)) w.
Proof.
  intros Ha Hb Hw pc stk sp m Hc Hl Hs. apply code_at_app in Hc as [Hca Hc]. apply code_at_app in Hc as [Hcb Hc].
  unfold bind at 1. specialize (Ha pc stk sp m Hca Hl ltac:(lia)).
  destruct (f m) as [x m1|]; [|done]. destruct Ha as (stk1 & -> & H1). pose proof H1 as (Hl1 & Ht1 & x1 & Hx1 & Ex).
  unfold bind at 1. specialize (Hb _ stk1 (S sp) m1 Hcb Hl1 ltac:(lia)).
  destruct (g m1) as [y m2|]; [|done]. destruct Hb as (stk2 & -> & H2). pose proof H2 as (Hl2 & Ht2 & y1 & Hy1 & Ey).
  assert (stk2 !! sp = Some x1) as Hx2 by (eapply pushed_below; [done|lia|done]).
  rewrite (run_fetch _ _ _ _ Hl2 _ _ _ _ Hc (op_code_entry o w)).
  rewrite (OP_BIN_at _ _ _ _ Hl2 w o sp x1 y1) by done. rewrite Ex.
  rewrite <-(member_le w wb y1), Ey by done. unfold bind, of_option.
  destruct (c_binop o x (member w y)) as [r|]; [|done]. simpl.
  eexists. split; [do 2 f_equal; rewrite !length_app; simpl; lia|].
  rewrite <-(member_assign w x1 r). apply pushed_replace; [done|lia|].
  replace (S sp) with (sp + 1)%nat in H2 by lia. by eapply pushed_over.
Qed.

Lemma computes_not d a f w : computes d a f w -> (0 < d)%nat ->
  computes d (a ++ [bw_code w]) (let! x := f in ret (member w (Z.lnot x))) w.
Proof.
  intros Ha Hd pc stk sp m Hc Hl Hs. apply code_at_snoc in Hc as [Hca Hc]. unfold bind. specialize (Ha pc stk sp m Hca Hl Hs).
  destruct (f m) as [x m1|]; [|done]. destruct Ha as (stk1 & -> & Hl1 & Ht1 & x1 & Hx1 & Ex).
  rewrite (run_fetch _ _ _ _ Hl1 _ _ _ _ Hc (bw_code_entry w)), (OP_bw_at _ _ _ _ Hl1 w sp x1) by done.
  eexists. split; [do 2 f_equal; rewrite length_app; simpl; lia|]. rewrite Ex, <-(member_assign w x1).
  apply pushed_replace; [done|lia|done].
Qed.

Lemma computes_deref d a f w : computes d a f Dword -> (0 < d)%nat ->
  computes d (a ++ [ld_stack_code w]) (let! p := f in load w p) w.
Proof.
  intros Ha Hd pc stk sp m Hc Hl Hs. apply code_at_snoc in Hc as [Hca Hc]. unfold bind at 1. specialize (Ha pc stk sp m Hca Hl Hs).
  destruct (f m) as [x m1|]; [|done]. destruct Ha as (stk1 & -> & Hl1 & Ht1 & x1 & Hx1 & Ex). simpl in Ex.
  rewrite (run_fetch _ _ _ _ Hl1 _ _ _ _ Hc (ld_stack_code_entry w)), (OP_ld_value_stack_at _ _ _ _ Hl1 w sp x1) by done.
  simpl. eexists. split; [do 2 f_equal; rewrite length_app; simpl; lia|]. rewrite Ex, <-(member_assign w x1).
  apply pushed_replace; [done|lia|done].
Qed.

(** the store of an assignment through the address [f] gives, and the load after it *)
Lemma computes_assign da db a b f g w wb : computes da a f Dword -> computes db b g wb -> width_le w wb = true ->
  computes (Nat.max da (S db)) (a ++ b ++ [st_code w; ld_stack_code w])
    (let! p := f in let! v := g in modify (store w (u32 p) (member w v)) ;! load w p) w.
Proof.
  intros Ha Hb Hw pc stk sp m Hc Hl Hs. apply code_at_app in Hc as [Hca Hc]. apply code_at_app in Hc as [Hcb Hc].
  unfold bind at 1. specialize (Ha pc stk sp m Hca Hl ltac:(lia)).
  destruct (f m) as [x m1|]; [|done]. destruct Ha as (stk1 & -> & H1). pose proof H1 as (Hl1 & Ht1 & x1 & Hx1 & Ex).
  unfold bind at 1. specialize (Hb _ stk1 (S sp) m1 Hcb Hl1 ltac:(lia)).
  destruct (g m1) as [y m2|]; [|done]. destruct Hb as (stk2 & -> & H2). pose proof H2 as (Hl2 & Ht2 & y1 & Hy1 & Ey).
  assert (stk2 !! sp = Some x1) as Hx2 by (eapply pushed_below; [done|lia|done]). simpl in Ex.
  rewrite (run_fetch _ _ _ _ Hl2 _ _ _ _ Hc (st_code_entry w)). apply code_at_cons in Hc as [_ Hc].
  rewrite (OP_st_at _ _ _ _ Hl2 w sp x1 y1) by done. rewrite Ex, <-(member_le w wb y1), Ey by done. cbv beta iota.
  rewrite (run_fetch _ _ _ _ Hl2 _ _ _ _ Hc (ld_stack_code_entry w)), (OP_ld_value_stack_at _ _ _ _ Hl2 w sp x1) by done.
  unfold bind, modify, load, get, ret. rewrite Ex.
  eexists. split; [do 2 f_equal; rewrite !length_app; simpl; lia|].
  rewrite <-(member_assign w x1 (fetch w _ _)).
  apply pushed_replace; [done|lia|]. replace (S sp) with (sp + 1)%nat in H2 by lia. by eapply pushed_over.
Qed.

(** * Increments *)

(** code that computes a value, and its store through the address below it *)
Lemma store_run d b g w wb pc stk sp x m : computes d b g wb -> width_le w wb = true ->
  code_at (text_segment s0) pc (b ++ [st_code w]) -> length stk = FINSH_STACK_MAX -> (S sp + d <= FINSH_STACK_MAX)%nat ->
  stk !! sp = Some x ->
  match g m with
  | Ret v m1 => exists stk', run (vm s0 pc stk (S sp) m) =
      run (vm s0 (pc + Z.of_nat (length (b ++ [st_code w]))) stk' (S sp) (store w (u32 x) (member w v) m1)) /\
      length stk' = FINSH_STACK_MAX /\ take (S sp) stk' = take (S sp) stk
  | Fail e => run (vm s0 pc stk (S sp) m) = Fail e
  end.
Proof.
  intros Hb Hw Hc Hl Hs Hx. apply code_at_snoc in Hc as [Hcb Hc]. specialize (Hb pc stk (S sp) m Hcb Hl Hs).
  destruct (g m) as [v m1|]; [|done]. destruct Hb as (stk1 & -> & H1). pose proof H1 as (Hl1 & Ht1 & y1 & Hy1 & Ey).
  assert (stk1 !! sp = Some x) as Hx1 by (eapply pushed_below; [done|lia|done]).
  rewrite (run_fetch _ _ _ _ Hl1 _ _ _ _ Hc (st_code_entry w)), (OP_st_at _ _ _ _ Hl1 w sp x y1) by done.
  rewrite u32_s32, <-(member_le w wb y1), Ey by done. eexists. split; [do 2 f_equal; rewrite length_app; simpl; lia|done].
Qed.

Lemma increment_run w up a pc stk sp x m : code_at (text_segment s0) pc (increment_code w up a) ->
  length stk = FINSH_STACK_MAX -> (sp + 3 <= FINSH_STACK_MAX)%nat -> stk !! sp = Some x -> u32 x = u32 a ->
  match increment w up a m with
  | Ret _ m1 => exists stk', run (vm s0 pc stk (S sp) m) = run (vm s0 (pc + Z.of_nat (length (increment_code w up a))) stk' (S sp) m1) /\
      length stk' = FINSH_STACK_MAX /\ take (S sp) stk' = take (S sp) stk
  | Fail e => run (vm s0 pc stk (S sp) m) = Fail e
  end.
Proof.
  intros Hc Hl Hs Hx Ea.
  assert (increment_code w up a = ((ld_value_code w :: dword a) ++ (ld_code w :: operand w 1) ++ [op_code (step_op up) w]) ++ [st_code w]) as E.
  { unfold increment_code. simpl. by rewrite <-!(assoc_L (++)). }
  rewrite E in Hc |- *. assert (w = Word -> 0 <= 1 < 2 ^ 16) as Hone by lia.
  pose proof (store_run 2 _ _ w w pc stk sp x m (computes_bin _ _ _ _ _ _ (step_op up) _ _ (computes_ld_value w a)
    (computes_ld w 1 Hone) (width_le_refl w)) (width_le_refl w) Hc Hl ltac:(lia) Hx) as Hr.
  revert Hr. unfold increment, load, bind, get, ret, modify, of_option. replace (member w (member w 1)) with 1 by (clear; destruct w; reflexivity).
  destruct (c_binop (step_op up) (member w (fetch w m (u32 a))) 1) as [r|]; [|done].
  by rewrite Ea, member_idemp.
Qed.

Lemma computes_pre w up a :
  computes 3 (load_addr a ++ increment_code w up a ++ [FINSH_OP_LD_VALUE_DWORD_STACK]) (increment w up a ;! load Dword a) Dword.
Proof.
  intros pc stk sp m Hc Hl Hs. apply code_at_app in Hc as [Hca Hc]. apply code_at_app in Hc as [Hcb Hc].
  destruct (computes_dword a pc stk sp m Hca Hl ltac:(lia)) as (stk1 & -> & Hl1 & Ht1 & x1 & Hx1 & Ex). simpl in Ex.
  assert (u32 x1 = u32 a) as Ea by (by rewrite <-(u32_s32 x1), Ex, u32_s32).
  pose proof (increment_run w up a _ stk1 sp x1 m Hcb Hl1 Hs Hx1 Ea) as Hi. unfold bind at 1.
  destruct (increment w up a m) as [[] m1|]; [|done]. destruct Hi as (stk2 & -> & Hl2 & Ht2).
  assert (stk2 !! sp = Some x1) as Hx2 by (by rewrite <-(lookup_take_lt _ (S sp)), Ht2, lookup_take_lt by lia).
  rewrite (run_fetch _ _ _ _ Hl2 _ _ _ _ Hc (ld_stack_code_entry Dword)), (OP_ld_value_stack_at _ _ _ _ Hl2 Dword sp x1) by done.
  unfold load, bind, get, ret. eexists. split; [do 2 f_equal; rewrite !length_app; simpl; lia|].
  rewrite (u32_s32 x1), Ea, <-(member_assign Dword x1 (fetch Dword _ _)). apply pushed_replace; [done|lia|].
  apply (f_equal (take sp)) in Ht2. by rewrite !take_take, Nat.min_l, Ht1 in Ht2 by lia.
Qed.

Lemma computes_post w up a :
  computes 4 ([ld_value_code w] ++ dword a ++ load_addr a ++ increment_code w up a ++ [FINSH_OP_POP])
    (let! v := load w a in increment w up a ;! ret v) w.
Proof.
  intros pc stk sp m Hc Hl Hs. rewrite (assoc_L (++)) in Hc |- *.
  change ([ld_value_code w] ++ dword a) with (ld_value_code w :: dword a) in Hc |- *. apply code_at_app in Hc as [Hcl Hc].
  apply code_at_app in Hc as [Hca Hc]. apply code_at_app in Hc as [Hcb Hc].
  pose proof (computes_ld_value w a pc stk sp m Hcl Hl ltac:(lia)) as Hv. unfold bind at 1.
  change (load w a m) with (Ret (S := memory) (member w (fetch w m (u32 a))) m) in Hv |- *. cbv beta iota in Hv |- *.
  destruct Hv as (stk1 & Hr & H1). rewrite Hr. pose proof H1 as (Hl1 & Ht1 & v1 & Hv1 & Ev).
  destruct (computes_dword a _ stk1 (S sp) m Hca Hl1 ltac:(lia)) as (stk2 & Hr2 & H2). rewrite Hr2. clear Hr Hr2.
  pose proof H2 as (Hl2 & Ht2 & x2 & Hx2 & Ex). simpl in Ex.
  assert (u32 x2 = u32 a) as Ea by (by rewrite <-(u32_s32 x2), Ex, u32_s32).
  pose proof (increment_run w up a _ stk2 (S sp) x2 m Hcb Hl2 ltac:(lia) Hx2 Ea) as Hi. unfold bind at 1.
  destruct (increment w up a m) as [[] m1|]; [|done]. destruct Hi as (stk3 & -> & Hl3 & Ht3).
  rewrite (run_fetch _ _ _ _ Hl3 _ _ (OP_pop) _ Hc eq_refl), (OP_pop_at _ _ _ _ Hl3) by done.
  simpl. eexists. split; [do 2 f_equal; rewrite !length_app; simpl; lia|].
  assert (stk3 !! sp = Some v1) as Hv3.
  { rewrite <-(lookup_take_lt _ (S (S sp))), Ht3, lookup_take_lt by lia. eapply pushed_below; [done|lia|done]. }
  split; [done|]. split; [|by exists v1].
  apply (f_equal (take sp)) in Ht3. rewrite !take_take, !Nat.min_l in Ht3 by lia. rewrite Ht3.
  apply (f_equal (take sp)) in Ht2. by rewrite !take_take, !Nat.min_l, Ht1 in Ht2 by lia.
Qed.

(** * Calls *)

(** the elements above [sp] hold the values of a list *)
Definition pushed_all (stk stk' : list Z) (sp : nat) (vs : list Z) : Prop :=
  length stk' = FINSH_STACK_MAX /\ take sp stk' = take sp stk /\
  exists xs, s32 <$> xs = vs /\ forall i x, xs !! i = Some x -> stk' !! (sp + i)%nat = Some x.

Definition computes_all (d : nat) (bs : list Z) (f : M memory (list Z)) : Prop :=
  forall pc stk sp m, code_at (text_segment s0) pc bs -> length stk = FINSH_STACK_MAX -> (sp + d <= FINSH_STACK_MAX)%nat ->
  match f m with
  | Ret vs m' => exists stk', run (vm s0 pc stk sp m) = run (vm s0 (pc + Z.of_nat (length bs)) stk' (sp + length vs) m') /\
      pushed_all stk stk' sp vs
  | Fail e => run (vm s0 pc stk sp m) = Fail e
  end.

Lemma computes_nil : computes_all 0 [] (ret []).
Proof.
  intros pc stk sp m _ Hl _. simpl. exists stk. rewrite Z.add_0_r, Nat.add_0_r. split; [done|]. split; [done|]. split; [done|].
  by exists [].
Qed.

Lemma computes_cons da db a b f g : computes da a f Dword -> computes_all db b g ->
  computes_all (Nat.max da (S db)) (a ++ b) (let! v := f in let! vs := g in ret (v :: vs)).
Proof.
  intros Ha Hb pc stk sp m Hc Hl Hs. apply code_at_app in Hc as [Hca Hc]. unfold bind at 1.
  specialize (Ha pc stk sp m Hca Hl ltac:(lia)). destruct (f m) as [v m1|]; [|done].
  destruct Ha as (stk1 & -> & Hl1 & Ht1 & x & Hx & Ex). unfold bind.
  specialize (Hb _ stk1 (S sp) m1 Hc Hl1 ltac:(lia)). destruct (g m1) as [vs m2|]; [|done].
  destruct Hb as (stk2 & -> & Hl2 & Ht2 & xs & Exs & Hxs). simpl.
  exists stk2. split; [f_equal; f_equal; [rewrite length_app; lia|lia]|]. split; [done|]. split.
  - apply (f_equal (take sp)) in Ht2. by rewrite !take_take, !Nat.min_l, Ht1 in Ht2 by lia.
  - exists (x :: xs). split; [simpl; by f_equal|]. intros [|i] y Hy; simpl in Hy.
    + injection Hy as ->. rewrite Nat.add_0_r. by rewrite <-(lookup_take_lt _ (S sp)), Ht2, lookup_take_lt by lia.
    + rewrite Nat.add_succ_r. by apply Hxs.
Qed.

Lemma computes_call d a bs g n : computes_all d bs g -> (forall m vs m', g m = Ret vs m' -> length vs = n) -> (n <= 16)%nat ->
  computes (S d) (load_addr a ++ bs ++ [FINSH_OP_SYSCALL; Z.of_nat n])
    (let! vs := g in let! r := call_function (u32 a) (call_args (u32 <$> vs)) in ret (s32 r)) Dword.
Proof.
  intros Hb Hn H16 pc stk sp m Hc Hl Hs. apply code_at_app in Hc as [Hca Hc]. apply code_at_app in Hc as [Hcb Hc].
  destruct (computes_dword a pc stk sp m Hca Hl ltac:(lia)) as (stk1 & -> & Hl1 & Ht1 & f1 & Hf1 & Ef). simpl in Ef.
  assert (u32 f1 = u32 a) as Ea by (by rewrite <-(u32_s32 f1), Ef, u32_s32).
  specialize (Hb _ stk1 (S sp) m Hcb Hl1 ltac:(lia)). unfold bind at 1. specialize (Hn m).
  destruct (g m) as [vs m1|]; [|done]. specialize (Hn _ _ eq_refl).
  destruct Hb as (stk2 & -> & Hl2 & Ht2 & xs & Exs & Hxs). rewrite Hn.
  assert (stk2 !! sp = Some f1) as Hf2 by (by rewrite <-(lookup_take_lt _ (S sp)), Ht2, lookup_take_lt by lia).
  rewrite (run_fetch _ _ _ _ Hl2 _ _ OP_call _ Hc eq_refl). apply code_at_cons in Hc as [_ Hc].
  assert (length xs = n) as Hxn by (by rewrite <-Hn, <-Exs, length_fmap).
  rewrite (OP_call_at _ _ _ Hl2 _ n f1 xs sp Hc Hxn H16 Hf2 Hxs), Ea.
  replace (u32 <$> xs) with (u32 <$> vs) by (rewrite <-Exs, <-list_fmap_compose; apply list_fmap_ext; intros; apply u32_s32).
  unfold bind. destruct (call_function _ _ m1) as [r m2|]; [|done]. unfold ret.
  eexists. split; [do 2 f_equal; rewrite !length_app; simpl; lia|].
  change (s32 r) with (member Dword r). rewrite <-(member_assign Dword f1 r).
  apply pushed_replace; [done|lia|]. apply (f_equal (take sp)) in Ht2. by rewrite !take_take, !Nat.min_l, Ht1 in Ht2 by lia.
Qed.

(** * Expressions *)

Section expressions.
Context (vars : list finsh_var).

Lemma eval_args_length es : forall m vs m', eval_args vars es m = Ret vs m' -> length vs = count es.
Proof.
  induction es as [|a es IH]; intros m vs m'; simpl.
  - by intros [= <- _].
  - unfold bind. destruct (eval vars a m) as [v m1|]; [|done]. destruct (eval_args vars es m1) as [vs1 m2|] eqn:E; [|done].
    intros [= <- _]. simpl. by erewrite IH.
Qed.

Lemma depth_pos e : (0 < depth e)%nat.
Proof. induction e; simpl; lia. Qed.

(** the value of an expression with a type is normalised at its width *)
Definition computed (e : expr) : Prop :=
  forall t, expr_type vars e = Some t -> computes (depth e) (code vars e) (eval vars e) t.2.
Definition computed_all (es : exprs) : Prop :=
  args_typed vars es = true -> computes_all (args_depth es) (args_code vars es) (eval_args vars es).

Lemma expr_width_type e t : expr_type vars e = Some t -> expr_width vars e = t.2.
Proof. unfold expr_width. destruct t. by intros ->. Qed.

Lemma expr_run : (forall e, computed e) /\ (forall es, computed_all es).
Proof.
  apply expr_exprs_ind; unfold computed, computed_all.
  - intros c t [= <-]. simpl. apply (computes_ld Byte). done.
  - intros v t [= <-]. apply computes_dword.
  - intros x t Ht. simpl code. simpl eval. rewrite (expr_width_type _ _ Ht). simpl in Ht.
    apply bind_Some in Ht as (w & _ & [= <-]). apply computes_ld_value.
  - intros x t Ht. simpl in Ht. apply bind_Some in Ht as (w & _ & [= <-]). apply computes_dword.
  - intros o a IHa b IHb t Ht. simpl in Ht. apply bind_Some in Ht as (ta & Ha & Ht). apply bind_Some in Ht as (tb & Hb & Ht).
    destruct (bool_decide _) eqn:E1; [|done]. destruct (width_le ta.2 tb.2) eqn:E2; [|done]. injection Ht as <-.
    simpl code. simpl eval. rewrite (expr_width_type _ _ Ha). by eapply computes_bin; [apply IHa|apply IHb|].
  - intros a IHa t Ht. simpl in Ht. apply bind_Some in Ht as (ta & Ha & Ht). destruct (bool_decide _); [|done]. injection Ht as <-.
    simpl code. simpl eval. rewrite (expr_width_type _ _ Ha). apply computes_not; [by apply IHa|apply depth_pos].
  - intros x a IHa t Ht. pose proof Ht as Ht'. simpl in Ht. apply bind_Some in Ht as (w & Hw & Ht).
    apply bind_Some in Ht as (ta & Ha & Ht). destruct (width_le w ta.2) eqn:E; [|done]. injection Ht as <-.
    cbn [code eval depth]. rewrite (expr_width_type _ _ Ht'). cbn [snd].
    replace (S (depth a)) with (Nat.max 1 (S (depth a))) by lia.
    eapply computes_ext; [eapply (computes_assign 1); [apply computes_dword|by apply IHa|done]|].
    intros m. unfold bind, ret, modify, load. destruct (eval vars a m); [|done]. simpl. by rewrite u32_s32.
  - intros a IHa t Ht. pose proof Ht as Ht'. simpl in Ht. apply bind_Some in Ht as (ta & Ha & Ht). apply bind_Some in Ht as (w & Hw & Ht).
    destruct (bool_decide _) eqn:E; [|done]. injection Ht as <-. apply bool_decide_eq_true in E.
    cbn [code eval depth]. rewrite (expr_width_type _ _ Ht'). cbn [snd]. apply computes_deref; [|apply depth_pos].
    rewrite <-E. by apply IHa.
  - intros a IHa b IHb t Ht. pose proof Ht as Ht'. simpl in Ht. apply bind_Some in Ht as (ta & Ha & Ht).
    apply bind_Some in Ht as (tb & Hb & Ht). apply bind_Some in Ht as (w & Hw & Ht).
    destruct (bool_decide _) eqn:E; [|done]. destruct (width_le w tb.2) eqn:E2; [|done]. injection Ht as <-. apply bool_decide_eq_true in E.
    cbn [code eval depth]. rewrite (expr_width_type _ _ Ht'). cbn [snd]. eapply computes_assign; [|by apply IHb|done].
    rewrite <-E. by apply IHa.
  - intros up i t Ht. pose proof Ht as Ht'. simpl in Ht. apply bind_Some in Ht as (w & Hw & [= <-]). cbn [code eval depth snd].
    assert (expr_width vars (Load (PVar i)) = w) as -> by (unfold expr_width; simpl; by rewrite Hw).
    apply computes_pre.
  - intros up i t Ht. cbn [code eval depth]. rewrite (expr_width_type _ _ Ht). simpl in Ht.
    apply bind_Some in Ht as (w & Hw & [= <-]). apply computes_post.
  - intros f es IH t Ht. simpl in Ht. destruct (args_typed vars es) eqn:E; [|done]. destruct (count es <=? 16)%nat eqn:E16; [|done].
    injection Ht as <-. cbn [code eval depth snd]. apply computes_call; [by apply IH|apply eval_args_length|by apply Nat.leb_le].
  - intros _. apply computes_nil.
  - intros a IHa es IHes Ht. simpl in Ht. destruct (expr_type vars a) as [[d []]|] eqn:E; try done.
    cbn [args_code eval_args args_depth]. apply computes_cons; [by apply (IHa (d, Dword))|by apply IHes].
Qed.

End expressions.

End eval.
