(* ===== verification/FinshTree.v ===== *)
(** The node table as a forest, and what the type check and the compiler do to it.

    A forest is the structure the child and sibling pointers spell out ([represents]).
    The type check is the function [annotate] on it and the compiler the function
    [forest_code]: the code of the children, of the node, of the siblings. *)

From S2P Require Import Prelude Mem Printf PrintfSpec Finsh FinshCompiler FinshVm FinshVmSpec FinshExpr.

Open Scope Z_scope.

Inductive forest : Type :=
| FNil
| FNode (p : nat) (n : finsh_node) (kids next : forest).

Definition root (f : forest) : option nat := match f with FNil => None | FNode p _ _ _ => Some p end.
Definition head_node (f : forest) : option finsh_node := match f with FNil => None | FNode _ n _ _ => Some n end.
Definition kids (f : forest) : forest := match f with FNil => FNil | FNode _ _ c _ => c end.
Definition next (f : forest) : forest := match f with FNil => FNil | FNode _ _ _ s => s end.

Fixpoint pointers (f : forest) : list nat := match f with FNil => [] | FNode p _ c s => p :: pointers c ++ pointers s end.
Fixpoint height (f : forest) : nat := match f with FNil => O | FNode _ _ c s => S (Nat.max (height c) (height s)) end.
Fixpoint siblings (f : forest) : nat := match f with FNil => O | FNode _ _ _ s => S (siblings s) end.

Fixpoint represents (tbl : list finsh_node) (f : forest) : Prop :=
  match f with
  | FNil => True
  | FNode p n c s => tbl !! p = Some n /\ child n = root c /\ sibling n = root s /\ represents tbl c /\ represents tbl s
  end.

Lemma represents_ext tbl tbl' f : (forall q, q ∈ pointers f -> tbl' !! q = tbl !! q) -> represents tbl f -> represents tbl' f.
Proof.
  induction f as [|p n c IHc s IHs]; simpl; [done|]. intros Hq (Hp & Hc & Hs & Rc & Rs).
  split_and!; try done; [rewrite Hq by set_solver; done| |].
  - apply IHc; [set_solver|done].
  - apply IHs; [set_solver|done].
Qed.

Lemma height_pointers f : (height f <= length (pointers f))%nat.
Proof. induction f; simpl; [lia|]. rewrite length_app. lia. Qed.

Lemma siblings_height f : (siblings f <= height f)%nat.
Proof. induction f; simpl; lia. Qed.

Lemma pointers_range tbl f : represents tbl f -> forall q, q ∈ pointers f -> (q < length tbl)%nat.
Proof.
  induction f as [|p n c IHc s IHs]; simpl; [set_solver|]. intros (Hp & _ & _ & Rc & Rs) q Hq.
  apply elem_of_cons in Hq as [->|Hq]; [by eapply lookup_lt_Some|]. apply elem_of_app in Hq as [Hq|Hq]; auto.
Qed.

(** the fuel of the walks is enough for a forest in the table *)
Lemma height_fuel tbl f : represents tbl f -> NoDup (pointers f) -> length tbl = FINSH_NODE_MAX -> (height f < node_fuel)%nat.
Proof.
  intros Hr Hn Hl. pose proof (height_pointers f).
  assert (length (pointers f) <= length (seq 0 FINSH_NODE_MAX))%nat as Hle.
  { apply submseteq_length, NoDup_submseteq; [done|]. intros q Hq. apply elem_of_seq.
    pose proof (pointers_range _ _ Hr q Hq). lia. }
  rewrite length_seq in Hle. unfold node_fuel. lia.
Qed.

Section forests.
Context `{finsh_image}.
Context (vars : list finsh_var).

(** * The type check *)

Definition annotate_node (is_addr : Z) (n : finsh_node) (c : forest) : finsh_node :=
  let n := mark_address is_addr n in
  match head_node c with
  | Some cn => set_data_type (data_type cn) n
  | None => match leaf_data vars n with Put dt => set_data_type dt n | _ => n end
  end.

Fixpoint annotate (is_addr : Z) (f : forest) : forest :=
  match f with
  | FNil => FNil
  | FNode p n c s =>
      let c' := annotate (child_addr n is_addr) c in
      FNode p (annotate_node is_addr n c') c' (annotate FINSH_NODE_VALUE s)
  end.

(** every leaf has a type *)
Fixpoint typable (is_addr : Z) (f : forest) : Prop :=
  match f with
  | FNil => True
  | FNode p n c s =>
      (c = FNil -> match leaf_data vars (mark_address is_addr n) with Keep | Put _ => True | _ => False end) /\
      typable (child_addr n is_addr) c /\ typable FINSH_NODE_VALUE s
  end.

Lemma annotate_root a f : root (annotate a f) = root f.
Proof. by destruct f. Qed.
Lemma annotate_pointers f : forall a, pointers (annotate a f) = pointers f.
Proof. induction f as [|p n c IHc s IHs]; intros a; simpl; [done|]. by rewrite IHc, IHs. Qed.
Lemma annotate_siblings f : forall a, siblings (annotate a f) = siblings f.
Proof. induction f as [|p n c IHc s IHs]; intros a; simpl; [done|]. by rewrite IHs. Qed.
Lemma annotate_height f : forall a, height (annotate a f) = height f.
Proof. induction f as [|p n c IHc s IHs]; intros a; simpl; [done|]. by rewrite IHc, IHs. Qed.

Lemma mark_address_fields a n : child (mark_address a n) = child n /\ sibling (mark_address a n) = sibling n /\
  node_type (mark_address a n) = node_type n /\ id (mark_address a n) = id n /\ value (mark_address a n) = value n /\
  data_type (mark_address a n) = data_type n.
Proof. unfold mark_address. by case_match. Qed.

Lemma annotate_node_fields a n c : child (annotate_node a n c) = child n /\ sibling (annotate_node a n c) = sibling n /\
  node_type (annotate_node a n c) = node_type n /\ id (annotate_node a n c) = id n /\ value (annotate_node a n c) = value n /\
  idtype (annotate_node a n c) = idtype (mark_address a n).
Proof.
  destruct (mark_address_fields a n) as (? & ? & ? & ? & ? & ?). unfold annotate_node.
  destruct (head_node c); [done|]. by case_match.
Qed.

(** what a walk leaves: the nodes of the forest annotated, the others alone *)
Definition checked (a : Z) (f : forest) (tbl tbl' : list finsh_node) : Prop :=
  length tbl' = length tbl /\ represents tbl' (annotate a f) /\ forall q, q ∉ pointers f -> tbl' !! q = tbl !! q.

Lemma node_at_Ret p n s : global_node_table s !! p = Some n -> node_at p s = Ret n s.
Proof. intros Hn. unfold node_at, bind, get, of_option. by rewrite Hn. Qed.

Lemma update_node_Ret p n f s : global_node_table s !! p = Some n ->
  update_node p f s = Ret tt (set_nodes (<[p := f n]> (global_node_table s)) s).
Proof. intros Hn. unfold update_node, bind at 1. by rewrite (node_at_Ret _ n). Qed.

Lemma checked_node a p n c sb (tbl t2 : list finsh_node) :
  tbl !! p = Some n -> child n = root c -> sibling n = root sb -> length t2 = length tbl ->
  p ∉ pointers c ++ pointers sb ->
  represents t2 (annotate (child_addr n a) c) -> represents t2 (annotate FINSH_NODE_VALUE sb) ->
  (forall q, q ∉ pointers c -> q ∉ pointers sb -> t2 !! q = tbl !! q) ->
  checked a (FNode p n c sb) tbl (<[p := annotate_node a n (annotate (child_addr n a) c)]> t2).
Proof.
  intros Hp Hc Hs Hl Hn Rc Rs Ho. pose proof (lookup_lt_Some _ _ _ Hp).
  destruct (annotate_node_fields a n (annotate (child_addr n a) c)) as (F1 & F2 & _).
  split; [by rewrite length_insert|]. split; [|intros q Hq; simpl in Hq; rewrite list_lookup_insert_ne by set_solver; apply Ho; set_solver].
  simpl. rewrite list_lookup_insert_eq by lia. rewrite F1, F2, !annotate_root. split_and!; try done;
    (eapply represents_ext; [|done]; rewrite annotate_pointers; intros q Hq; apply list_lookup_insert_ne; set_solver).
Qed.

(** the end of the function, after the walks of the children and the siblings *)
Lemma mark_and_type a p n c' s t2 : t2 !! p = Some n -> represents t2 c' -> p ∉ pointers c' -> global_variable s = vars ->
  (c' = FNil -> match leaf_data vars (mark_address a n) with Keep | Put _ => True | _ => False end) ->
  match root c' with
  | Some c => bind (node_at c) (fun cn => bind (update_node p (set_data_type (data_type cn))) (fun _ => ret 0))
  | None =>
      bind get (fun s => match leaf_data (global_variable s) (mark_address a n) with
      | Keep => ret 0
      | Put dt => bind (update_node p (set_data_type dt)) (fun _ => ret 0)
      | Unknown => bind (finsh_error_set FINSH_ERROR_UNKNOWN_TYPE) (fun _ => ret 0)
      | Wild f => fail f
      end)
  end (set_nodes (<[p := mark_address a n]> t2) s) = Ret 0 (set_nodes (<[p := annotate_node a n c']> t2) s).
Proof.
  intros Hp Hr Hn Hv Hleaf. pose proof (lookup_lt_Some _ _ _ Hp) as Hlt.
  assert (forall dt, update_node p (set_data_type dt) (set_nodes (<[p := mark_address a n]> t2) s) =
    Ret tt (set_nodes (<[p := set_data_type dt (mark_address a n)]> t2) s)) as Hu.
  { intros dt. rewrite (update_node_Ret p (mark_address a n)) by by apply list_lookup_insert_eq. simpl.
    by rewrite list_insert_insert_eq. }
  unfold annotate_node. destruct c' as [|q cn c1 s1]; simpl.
  - unfold bind at 1, get. simpl. rewrite Hv. specialize (Hleaf eq_refl). destruct (leaf_data vars _); try done.
    unfold bind. by rewrite Hu.
  - destruct Hr as (Hq & _). unfold bind at 1.
    rewrite (node_at_Ret q cn) by (simpl; rewrite list_lookup_insert_ne by set_solver; done).
    unfold bind. by rewrite Hu.
Qed.

Lemma finsh_type_check_spec fuel : forall f a s, (height f < fuel)%nat -> NoDup (pointers f) ->
  represents (global_node_table s) f -> typable a f -> global_variable s = vars ->
  exists tbl', finsh_type_check fuel (root f) a s = Ret 0 (set_nodes tbl' s) /\ checked a f (global_node_table s) tbl'.
Proof.
  induction fuel as [|fuel IH]; intros f a s Hh Hnd Hr Ht Hv; [lia|].
  destruct f as [|p n c sb]; simpl.
  - exists (global_node_table s). split; [by destruct s|done].
  - simpl in Hh, Hnd, Hr, Ht. destruct Hr as (Hp & Hc & Hs & Rc & Rs). destruct Ht as (Hleaf & Tc & Ts).
    apply NoDup_cons in Hnd as [Hpn Hnd]. apply NoDup_app in Hnd as (Nc & Hd & Ns).
    unfold bind at 1. rewrite (node_at_Ret p n) by done.
    destruct (IH c (child_addr n a) s ltac:(lia) Nc Rc Tc Hv) as (t1 & E1 & L1 & R1 & O1).
    unfold bind at 1. rewrite Hc, E1.
    assert (represents t1 sb) as Rs1 by (eapply represents_ext; [|done]; intros q Hq; apply O1; set_solver).
    destruct (IH sb FINSH_NODE_VALUE (set_nodes t1 s) ltac:(lia) Ns Rs1 Ts Hv) as (t2 & E2 & L2 & R2 & O2).
    unfold bind at 1. rewrite Hs, E2. simpl in L2, O2.
    assert (t2 !! p = Some n) as Hp2 by (rewrite O2, O1 by set_solver; done).
    assert (represents t2 (annotate (child_addr n a) c)) as R12.
    { eapply represents_ext; [|done]. rewrite annotate_pointers. intros q Hq. apply O2. set_solver. }
    exists (<[p := annotate_node a n (annotate (child_addr n a) c)]> t2). split; [|apply (checked_node a p n c sb _ t2); try done; [lia|]].
    2: { intros q Hq1 Hq2. rewrite O2, O1 by set_solver. done. }
    unfold bind at 1. rewrite (update_node_Ret p n) by done. unfold bind at 1.
    rewrite (node_at_Ret p (mark_address a n)) by (simpl; rewrite list_lookup_insert_eq; [done|by eapply lookup_lt_Some]).
    destruct (mark_address_fields a n) as (Fc & _). rewrite Fc, Hc. change (set_nodes ?x (set_nodes t2 (set_nodes t1 s))) with (set_nodes x s). simpl global_node_table.
    rewrite <-(annotate_root (child_addr n a) c). apply mark_and_type; [done|done|rewrite annotate_pointers; set_solver|done|].
    intros En. apply Hleaf. by destruct c.
Qed.

(** * The compiler *)

Definition parameters (n : finsh_node) (c : forest) : Z :=
  if node_type n =? FINSH_NODE_SYS_FUNC then Z.of_nat (siblings (next c)) else 0.

Definition own_code (n : finsh_node) (c : forest) : option (list Z) :=
  match node_code vars n (head_node c) (parameters n c) with Code bs => Some bs | _ => None end.

Fixpoint forest_code (f : forest) : option (list Z) :=
  match f with
  | FNil => Some []
  | FNode p n c s => bc ← forest_code c; bn ← own_code n c; bs ← forest_code s; Some (bc ++ bn ++ bs)
  end.

Lemma finsh_code_app a b s : finsh_code (a ++ b) s = bind (finsh_code a) (fun _ => finsh_code b) s.
Proof.
  revert s. induction a as [|x a IH]; intros s; simpl; [done|]. unfold bind. destruct (finsh_code_byte x s) as [[] s1|]; [|done].
  apply IH.
Qed.

Lemma finsh_code_app3 a b c s : bind (finsh_code (a ++ b ++ c)) (fun _ => ret 0) s =
  bind (finsh_code a) (fun _ => bind (finsh_code b) (fun _ => bind (finsh_code c) (fun _ => ret 0))) s.
Proof.
  unfold bind at 1. rewrite finsh_code_app. unfold bind. destruct (finsh_code a s) as [[] s1|]; [|done].
  rewrite finsh_code_app. unfold bind. by destruct (finsh_code b s1) as [[] s2|].
Qed.

(** generating code changes nothing but the text *)
Lemma finsh_code_Ret bs : forall s s', finsh_code bs s = Ret tt s' -> exists t pc, s' = set_text t pc s.
Proof.
  induction bs as [|b bs IH]; intros s s'; simpl.
  - intros [= <-]. exists (text_segment s), (finsh_compile_pc s). by destruct s.
  - unfold bind at 1, finsh_code_byte, bind at 1, get. destruct (_ <? _); [|done]. simpl. intros Hr.
    destruct (IH _ _ Hr) as (t & pc & ->). by exists t, pc.
Qed.

Lemma finsh_code_nodes t bs : forall s, finsh_code bs (set_nodes t s) =
  match finsh_code bs s with Ret x s' => Ret x (set_nodes t s') | Fail e => Fail e end.
Proof.
  induction bs as [|b bs IH]; intros s; simpl; [done|]. unfold bind, finsh_code_byte, bind, get. simpl.
  destruct (_ <? _); [|done]. unfold modify. rewrite <-IH. done.
Qed.

Lemma count_siblings_spec fuel : forall f s, (siblings f < fuel)%nat -> represents (global_node_table s) f ->
  count_siblings fuel (root f) s = Ret (Z.of_nat (siblings f)) s.
Proof.
  induction fuel as [|fuel IH]; intros [|p n c sb] s Hf Hr; simpl; try lia; [done|]. destruct Hr as (Hp & _ & Hs & _ & Rs).
  simpl in Hf. unfold bind at 1. rewrite (node_at_Ret p n), Hs by done. unfold bind. rewrite (IH sb) by (lia || done). unfold ret.
  f_equal. lia.
Qed.

Lemma child_node_spec n c s : child n = root c -> represents (global_node_table s) c -> child_node n s = Ret (head_node c) s.
Proof.
  intros Hc Hr. unfold child_node. rewrite Hc. destruct c as [|q cn c1 s1]; [done|]. destruct Hr as (Hq & _). simpl.
  unfold bind. by rewrite (node_at_Ret q cn).
Qed.

Lemma child_parameters_spec n c s : represents (global_node_table s) c -> (height c < node_fuel)%nat ->
  child_parameters n (head_node c) s = Ret (parameters n c) s.
Proof.
  intros Hr Hh. unfold child_parameters, parameters. destruct c as [|q cn c1 s1]; cbn [head_node next siblings]; [by destruct (_ =? _)|].
  destruct (_ =? _); [|done]. destruct Hr as (_ & _ & -> & _ & Rs). apply count_siblings_spec; [|done].
  pose proof (siblings_height s1). simpl in Hh. lia.
Qed.

Lemma finsh_compile_spec fuel : forall f s bs, (height f < fuel)%nat -> (height f < node_fuel)%nat ->
  represents (global_node_table s) f -> global_variable s = vars -> forest_code f = Some bs ->
  finsh_compile fuel (root f) s = bind (finsh_code bs) (fun _ => ret 0) s.
Proof.
  induction fuel as [|fuel IH]; intros f s bs Hh Hf Hr Hv Hbs; [lia|].
  destruct f as [|p n c sb]; simpl; [by injection Hbs as <-|]. simpl in Hh, Hf, Hr. destruct Hr as (Hp & Hc & Hs & Rc & Rs).
  simpl in Hbs. apply bind_Some in Hbs as (bc & Ec & Hbs). apply bind_Some in Hbs as (bn & En & Hbs).
  apply bind_Some in Hbs as (b2 & Es & [= <-]).
  assert (match child n with Some _ => bind (finsh_compile fuel (child n)) (fun _ => ret tt) | None => ret tt end s = finsh_code bc s) as E1.
  { rewrite Hc. destruct c as [|q cn c1 s1]; simpl; [by injection Ec as <-|]. unfold bind.
    pose proof (IH (FNode q cn c1 s1) s bc) as E0. cbn [root] in E0. rewrite E0 by (done || cbn [height] in *; lia). unfold bind.
    by destruct (finsh_code bc s) as [[] ?|]. }
  rewrite finsh_code_app3, (bind_Ret _ _ _ _ _ (node_at_Ret p n s Hp)).
  destruct (finsh_code bc s) as [[] s1|] eqn:E; [|by rewrite !(bind_Fail _ _ _ _ E), (bind_Fail _ _ _ _ E1)].
  rewrite (bind_Ret _ _ _ _ _ E), (bind_Ret _ _ _ _ _ E1). apply finsh_code_Ret in E as (t & pc & ->). clear E1.
  rewrite (bind_Ret _ _ _ _ _ (child_node_spec n c (set_text t pc s) Hc Rc)).
  rewrite (bind_Ret _ _ _ _ _ (child_parameters_spec n c (set_text t pc s) Rc ltac:(lia))).
  unfold bind at 1, get. cbv beta iota. change (global_variable (set_text t pc s)) with (global_variable s). rewrite Hv.
  unfold own_code in En. destruct (node_code vars n (head_node c) (parameters n c)) as [b1| |]; try done. injection En as ->.
  cbn [run_emitted]. destruct (finsh_code bn (set_text t pc s)) as [[] s2|] eqn:E2; [|by rewrite !(bind_Fail _ _ _ _ E2)].
  rewrite !(bind_Ret _ _ _ _ _ E2). apply finsh_code_Ret in E2 as (t2 & pc2 & ->).
  rewrite Hs. destruct sb as [|q sn c2 s2]; simpl; [by injection Es as <-|]. unfold bind.
  pose proof (IH (FNode q sn c2 s2) (set_text t2 pc2 (set_text t pc s)) b2) as E0. cbn [root] in E0.
  rewrite E0 by (done || cbn [height] in *; lia). unfold bind. by destruct (finsh_code b2 _) as [[] ?|].
Qed.

(** * The statements of a line *)

(** a tree without its siblings *)
Definition cut (f : forest) : forest :=
  match f with FNil => FNil | FNode p n c s => FNode p (set_sibling None n) c FNil end.

Fixpoint statements_code (f : forest) : option (list Z) :=
  match f with
  | FNil => Some []
  | FNode p n c s =>
      b ← forest_code (cut f); bs ← statements_code s;
      Some (b ++ (match s with FNil => [] | _ => [FINSH_OP_POP] end) ++ bs)
  end.

Lemma compile_statements_spec fuel : forall f s bs, (siblings f < fuel)%nat -> (height f < node_fuel)%nat -> NoDup (pointers f) ->
  represents (global_node_table s) f -> global_variable s = vars -> statements_code f = Some bs ->
  exists tbl', length tbl' = length (global_node_table s) /\
    compile_statements fuel (root f) s = bind (finsh_code bs) (fun _ => modify (set_nodes tbl')) s.
Proof.
  induction fuel as [|fuel IH]; intros f s bs Hf Hh Hnd Hr Hv Hbs; [lia|]. destruct f as [|p n c sb].
  { injection Hbs as <-. exists (global_node_table s). by destruct s. }
  cbn [statements_code] in Hbs. apply bind_Some in Hbs as (b & Eb & Hbs). apply bind_Some in Hbs as (b2 & E2 & [= <-]).
  cbn [siblings height pointers represents] in *. destruct Hr as (Hp & Hc & Hs & Rc & Rs). pose proof (lookup_lt_Some _ _ _ Hp) as Hlt.
  apply NoDup_cons in Hnd as [Hpn Hnd]. apply NoDup_app in Hnd as (Nc & Hd & Ns).
  set (t1 := <[p := set_sibling None n]> (global_node_table s)).
  assert (represents t1 (cut (FNode p n c sb))) as R1.
  { simpl. unfold t1. rewrite list_lookup_insert_eq by done. split_and!; try done.
    eapply represents_ext; [|done]. intros q Hq. apply list_lookup_insert_ne. set_solver. }
  assert (represents t1 sb) as Rs1 by (eapply represents_ext; [|done]; intros q Hq; apply list_lookup_insert_ne; set_solver).
  cbn [root compile_statements]. rewrite (bind_Ret _ _ _ _ _ (node_at_Ret p n s Hp)), (bind_Ret _ _ _ _ _ (update_node_Ret p n _ s Hp)).
  fold t1. rewrite Hs. pose proof (finsh_compile_spec node_fuel (cut (FNode p n c sb)) (set_nodes t1 s) b) as E.
  cbn [cut root height] in E. specialize (E ltac:(lia) ltac:(lia) R1 Hv Eb).
  assert (finsh_code b (set_nodes t1 s) = match finsh_code b s with Ret x s' => Ret x (set_nodes t1 s') | Fail e => Fail e end) as Ec
    by apply finsh_code_nodes.
  unfold bind in E at 1. rewrite Ec in E.
  destruct (finsh_code b s) as [[] s1|] eqn:Eb1.
  2: { exists t1. split; [apply length_insert|]. rewrite (bind_Fail _ _ _ _ E). unfold bind at 1. rewrite finsh_code_app. by rewrite (bind_Fail _ _ _ _ Eb1). }
  rewrite (bind_Ret _ _ _ _ _ E). clear E Ec. destruct (finsh_code_Ret _ _ _ Eb1) as (t & pc & ->).
  set (pop := match sb with FNil => [] | _ => [FINSH_OP_POP] end).
  assert (forall x, match root sb with Some _ => finsh_code_byte FINSH_OP_POP | None => ret tt end x = finsh_code pop x) as Ep.
  { intros x. unfold pop. destruct sb; simpl; [done|]. unfold bind. by destruct (finsh_code_byte _ x) as [[] ?|]. }
  pose proof (finsh_code_nodes t1 pop (set_text t pc s)) as En. rewrite <-Ep in En.
  assert (forall g : finsh -> finsh, bind (finsh_code (b ++ pop ++ b2)) (fun _ => modify g) s =
    bind (finsh_code pop) (fun _ => bind (finsh_code b2) (fun _ => modify g)) (set_text t pc s)) as Er.
  { intros g. unfold bind. rewrite finsh_code_app, (bind_Ret _ _ _ _ _ Eb1), finsh_code_app. unfold bind.
    by destruct (finsh_code pop _) as [[] ?|]. }
  destruct (finsh_code pop (set_text t pc s)) as [[] s2|] eqn:Ep2.
  2: { exists t1. split; [apply length_insert|]. by rewrite Er, (bind_Fail _ _ _ _ En), (bind_Fail _ _ _ _ Ep2). }
  rewrite (bind_Ret _ _ _ _ _ En). destruct (finsh_code_Ret _ _ _ Ep2) as (t2 & pc2 & ->).
  destruct (IH sb (set_nodes t1 (set_text t2 pc2 (set_text t pc s))) b2 ltac:(lia) ltac:(lia) Ns Rs1 Hv E2) as (tbl' & Hl' & Hi).
  exists tbl'. split; [rewrite Hl'; apply length_insert|]. rewrite Hi, Er, (bind_Ret _ _ _ _ _ Ep2). unfold bind.
  rewrite finsh_code_nodes. by destruct (finsh_code b2 _) as [[] ?|].
Qed.

(** ** The text *)

(** what the globals are after a line has been compiled to [bs] *)
Definition compiled (bs : list Z) (tbl : list finsh_node) (s : finsh) : finsh :=
  set_nodes tbl (set_text (bs ++ replicate (FINSH_TEXT_MAX - length bs) 0) (Z.of_nat (length bs))
    (set_stack (<[0%nat := 0]> (finsh_vm_stack s)) (finsh_sp s) s)).

Lemma finsh_code_text bs : forall l k s, (length l + k = FINSH_TEXT_MAX)%nat ->
  finsh_code bs (set_text (l ++ replicate k 0) (Z.of_nat (length l)) s) =
  if decide (length bs <= k)%nat
  then Ret tt (set_text (l ++ (u8 <$> bs) ++ replicate (k - length bs) 0) (Z.of_nat (length l + length bs)) s)
  else Fail BadPointer.
Proof.
  induction bs as [|b bs IH]; intros l k s Hk; cbn [finsh_code length fmap list_fmap app].
  - rewrite decide_True by lia. by rewrite Nat.add_0_r, Nat.sub_0_r.
  - unfold bind at 1, finsh_code_byte, bind, get. cbn [finsh_compile_pc text_segment set_text]. destruct (Z.ltb_spec (Z.of_nat (length l)) (Z.of_nat FINSH_TEXT_MAX)).
    2: { rewrite decide_False by lia. done. }
    destruct k as [|k]; [lia|]. unfold modify. rewrite Nat2Z.id, insert_app_r_alt, Nat.sub_diag by lia. cbn [replicate insert list_insert].
    replace (Z.of_nat (length l) + 1) with (Z.of_nat (length (l ++ [u8 b]))) by (rewrite length_app; simpl; lia).
    replace (l ++ u8 b :: replicate k 0) with ((l ++ [u8 b]) ++ replicate k 0) by by rewrite <-(assoc_L (++)).
    change (set_text ?x ?y (set_text _ _ s)) with (set_text x y s).
    rewrite IH by (rewrite length_app; simpl; lia). rewrite length_app. cbn [length]. destruct (decide (length bs <= k)%nat).
    + rewrite decide_True by lia. rewrite <-(assoc_L (++)). simpl. do 3 f_equal. lia.
    + by rewrite decide_False by lia.
Qed.

Lemma finsh_compiler_run_spec f s bs : represents (global_node_table s) f -> NoDup (pointers f) ->
  length (global_node_table s) = FINSH_NODE_MAX -> global_variable s = vars -> typable FINSH_NODE_VALUE f ->
  statements_code (annotate FINSH_NODE_VALUE f) = Some bs ->
  if decide (length bs <= FINSH_TEXT_MAX)%nat
  then exists tbl', length tbl' = FINSH_NODE_MAX /\ finsh_compiler_run (root f) s = Ret 0 (compiled (u8 <$> bs) tbl' s)
  else finsh_compiler_run (root f) s = Fail BadPointer.
Proof.
  intros Hr Hnd Hl Hv Ht Hbs. pose proof (height_fuel _ _ Hr Hnd Hl) as Hh.
  destruct (finsh_type_check_spec node_fuel f FINSH_NODE_VALUE s Hh Hnd Hr Ht Hv) as (t1 & E1 & L1 & R1 & _).
  set (s0 := set_text (replicate FINSH_TEXT_MAX 0) 0 (set_nodes t1 s)).
  set (s1 := set_stack (<[0%nat := 0]> (finsh_vm_stack s0)) (finsh_sp s0) s0).
  assert (siblings (annotate FINSH_NODE_VALUE f) < node_fuel)%nat by (rewrite annotate_siblings; pose proof (siblings_height f); lia).
  destruct (compile_statements_spec node_fuel (annotate FINSH_NODE_VALUE f) s1 bs) as (tbl' & L2 & E2); try done.
  { by rewrite annotate_height. }
  { by rewrite annotate_pointers. }
  assert (finsh_compiler_run (root f) s = bind (bind (finsh_code bs) (fun _ => modify (set_nodes tbl'))) (fun _ => ret 0) s1) as ->.
  { unfold finsh_compiler_run. rewrite (bind_Ret _ _ _ _ _ E1). unfold bind at 1, modify. cbv beta iota. unfold bind at 1. cbv beta iota.
    fold s0 s1. rewrite annotate_root in E2. unfold bind at 1. by rewrite E2. }
  assert (finsh_code bs s1 = _) as E3 by exact (finsh_code_text bs [] FINSH_TEXT_MAX s1 eq_refl). unfold bind.
  rewrite E3. destruct (decide _); [|done]. exists tbl'. split; [rewrite L2; simpl; congruence|].
  unfold compiled. by rewrite length_fmap.
Qed.

End forests.
