(* ===== verification/FinshFront.v ===== *)
(** The trees of expressions, and the code the type check and the compiler make of them:
    for an expression with a type it is the code of FinshExpr.v. *)

From S2P Require Import Prelude Mem Printf PrintfSpec Finsh FinshCompiler FinshVm FinshVmSpec FinshExpr FinshEval FinshTree.

Open Scope Z_scope.

(** * The trees *)

Definition binop_node (o : binop) : Z :=
  match o with
  | Add => FINSH_NODE_SYS_ADD | Sub => FINSH_NODE_SYS_SUB | Mul => FINSH_NODE_SYS_MUL | Div => FINSH_NODE_SYS_DIV
  | Mod => FINSH_NODE_SYS_MOD | And => FINSH_NODE_SYS_AND | Or => FINSH_NODE_SYS_OR | Xor => FINSH_NODE_SYS_XOR
  | Shl => FINSH_NODE_SYS_SHL | Shr => FINSH_NODE_SYS_SHR
  end.

Definition is_constant (t : Z) : Prop :=
  t = FINSH_NODE_VALUE_INT \/ t = FINSH_NODE_VALUE_LONG \/ t = FINSH_NODE_VALUE_STRING \/ t = FINSH_NODE_VALUE_NULL.

Definition place_flag (x : place) : Z := match x with PVar _ => FINSH_IDTYPE_VAR | PSys _ => FINSH_IDTYPE_SYSVAR end.

(** the node of an identifier that names a place, of a system call *)
Definition is_place (x : place) (f : forest) : Prop :=
  match f with
  | FNil => False
  | FNode _ n c _ => node_type n = FINSH_NODE_ID /\ idtype n = place_flag x /\ id n = place_id x /\ c = FNil
  end.
Definition is_syscall (x : finsh_syscall) (f : forest) : Prop :=
  match f with
  | FNil => False
  | FNode _ n c _ => node_type n = FINSH_NODE_ID /\ idtype n = FINSH_IDTYPE_SYSCALL /\ id n = id_syscall x /\
      data_type n = FINSH_DATA_TYPE_VOID /\ c = FNil
  end.

(** an operator node of a type *)
Definition is_node (t : Z) (f : forest) : Prop :=
  match f with FNil => False | FNode _ n _ _ => node_type n = t /\ idtype n = 0 end.

(** the first tree of the forest is that of the expression; its siblings are anything *)
Fixpoint is_expr (e : expr) (f : forest) : Prop :=
  match e with
  | Char c =>
      match f with FNil => False | FNode _ n k _ => node_type n = FINSH_NODE_VALUE_CHAR /\ idtype n = 0 /\ u8 (value n) = u8 c /\ k = FNil end
  | Const v =>
      match f with FNil => False | FNode _ n k _ => is_constant (node_type n) /\ idtype n = 0 /\ u32 (value n) = u32 v /\ k = FNil end
  | Load x => is_place x f
  | Addr x => is_node FINSH_NODE_SYS_GETADDR f /\ is_place x (kids f) /\ next (kids f) = FNil
  | Bin o a b => is_node (binop_node o) f /\ is_expr a (kids f) /\ is_expr b (next (kids f)) /\ next (next (kids f)) = FNil
  | Not a => is_node FINSH_NODE_SYS_BITWISE f /\ is_expr a (kids f) /\ next (kids f) = FNil
  | Assign x a => is_node FINSH_NODE_SYS_ASSIGN f /\ is_place x (kids f) /\ is_expr a (next (kids f)) /\ next (next (kids f)) = FNil
  | Deref a => is_node FINSH_NODE_SYS_GETVALUE f /\ is_expr a (kids f) /\ next (kids f) = FNil
  | AssignAt a b =>
      is_node FINSH_NODE_SYS_ASSIGN f /\ is_node FINSH_NODE_SYS_GETVALUE (kids f) /\
      is_expr a (kids (kids f)) /\ next (kids (kids f)) = FNil /\ is_expr b (next (kids f)) /\ next (next (kids f)) = FNil
  | Pre up i => is_node (if up then FINSH_NODE_SYS_PREINC else FINSH_NODE_SYS_PREDEC) f /\ is_place (PVar i) (kids f) /\ next (kids f) = FNil
  | Post up i => is_node (if up then FINSH_NODE_SYS_INC else FINSH_NODE_SYS_DEC) f /\ is_place (PVar i) (kids f) /\ next (kids f) = FNil
  | Call g args => is_node FINSH_NODE_SYS_FUNC f /\ is_syscall g (kids f) /\ is_args args (next (kids f))
  end
with is_args (es : exprs) (f : forest) : Prop :=
  match es with Nil => f = FNil | Cons a es => is_expr a f /\ is_args es (next f) end.

Lemma is_args_siblings es : forall f, is_args es f -> siblings f = count es.
Proof.
  induction es as [|a es IH]; intros f; simpl; [by intros ->|]. intros [Ha Hes]. rewrite <-(IH _ Hes).
  destruct f; [|done]. exfalso. destruct a; simpl in Ha; tauto.
Qed.

Section front.
Context `{finsh_image}.
Context (vars : list finsh_var).

(** * The code of one node *)

Lemma code_width_inv d w : code_width d = Some w -> d = width_code w.
Proof. unfold code_width, by_type. repeat case_match; intros [= <-]; simpl; lia. Qed.

Lemma type_data_width t w : type_width t = Some w -> type_data t = Some (width_code w) /\
  (forall idt a, code_load t idt a = (if has_flag idt FINSH_IDTYPE_ADDRESS then FINSH_OP_LD_DWORD else ld_value_code w) :: dword a).
Proof.
  unfold type_width, type_data, code_load, is_byte, is_word, is_dword. intros Ht.
  destruct (Z.eqb_spec t finsh_type_void) as [->|]; [done|].
  repeat case_match; try done; injection Ht as <-; done.
Qed.

Section nodes.
Context (n : finsh_node) (c : option finsh_node) (k : Z).

Ltac node_cases E := unfold node_code; rewrite E; reflexivity.

Lemma node_code_char : node_type n = FINSH_NODE_VALUE_CHAR -> node_code vars n c k = Code [FINSH_OP_LD_BYTE; u8 (value n)].
Proof. intros E. node_cases E. Qed.
Lemma node_code_const : is_constant (node_type n) -> node_code vars n c k = Code (FINSH_OP_LD_DWORD :: dword (value n)).
Proof. intros [E|[E|[E|E]]]; node_cases E. Qed.
Lemma node_code_id : node_type n = FINSH_NODE_ID -> node_code vars n c k = code_id vars n.
Proof. intros E. node_cases E. Qed.
Lemma node_code_bin o w : node_type n = binop_node o -> data_type n = width_code w -> node_code vars n c k = Code [op_code o w].
Proof. intros E D. unfold node_code. rewrite E, D. by destruct o, w. Qed.
Lemma node_code_bw w : node_type n = FINSH_NODE_SYS_BITWISE -> data_type n = width_code w -> node_code vars n c k = Code [bw_code w].
Proof. intros E D. unfold node_code. rewrite E, D. by destruct w. Qed.
Lemma node_code_getaddr : node_type n = FINSH_NODE_SYS_GETADDR -> node_code vars n c k = Code [].
Proof. intros E. node_cases E. Qed.
Lemma node_code_getvalue w : node_type n = FINSH_NODE_SYS_GETVALUE -> has_flag (idtype n) FINSH_IDTYPE_ADDRESS = false ->
  data_type n = width_code w -> node_code vars n c k = Code [ld_stack_code w].
Proof. intros E F D. unfold node_code. rewrite E, F, D. by destruct w. Qed.
Lemma node_code_place : node_type n = FINSH_NODE_SYS_GETVALUE -> has_flag (idtype n) FINSH_IDTYPE_ADDRESS = true ->
  node_code vars n c k = Code [].
Proof. intros E F. unfold node_code. by rewrite E, F. Qed.
Lemma node_code_assign cn w : node_type n = FINSH_NODE_SYS_ASSIGN -> c = Some cn ->
  node_type cn = FINSH_NODE_ID \/ node_type cn = FINSH_NODE_SYS_GETVALUE -> data_type cn = width_code w ->
  node_code vars n c k = Code [st_code w; ld_stack_code w].
Proof. intros E -> [F|F] D; unfold node_code; rewrite E, F, D; by destruct w. Qed.
Lemma node_code_func cn : node_type n = FINSH_NODE_SYS_FUNC -> c = Some cn -> node_code vars n c k = Code [FINSH_OP_SYSCALL; u8 k].
Proof. intros E ->. node_cases E. Qed.
Lemma node_code_pre cn up w : node_type n = (if up : bool then FINSH_NODE_SYS_PREINC else FINSH_NODE_SYS_PREDEC) -> c = Some cn ->
  node_type cn = FINSH_NODE_ID -> data_type n = width_code w ->
  node_code vars n c k = Code (increment_code w up (value_at (id cn)) ++ [FINSH_OP_LD_VALUE_DWORD_STACK]).
Proof. intros E -> F D. unfold node_code. rewrite E. destruct up; unfold of_id_child; rewrite F, D; by destruct w. Qed.
Lemma node_code_post cn up w : node_type n = (if up : bool then FINSH_NODE_SYS_INC else FINSH_NODE_SYS_DEC) -> c = Some cn ->
  node_type cn = FINSH_NODE_ID -> data_type n = width_code w ->
  node_code vars n c k = Code (load_addr (value_at (id cn)) ++ increment_code w up (value_at (id cn)) ++ [FINSH_OP_POP]).
Proof. intros E -> F D. unfold node_code. rewrite E. destruct up; unfold of_id_child; rewrite F, D; by destruct w. Qed.

End nodes.

(** * The code of a tree *)

(** the tree at the head of the forest has data type [d] and code [bs] when the place asks for [a] *)
Definition compiles (a : Z) (f : forest) (d : Z) (bs : list Z) : Prop :=
  (exists n, head_node (annotate vars a f) = Some n /\ data_type n = d) /\
  (typable vars FINSH_NODE_VALUE (next f) -> typable vars a f) /\
  forest_code vars (annotate vars a f) = (r ← forest_code vars (annotate vars FINSH_NODE_VALUE (next f)); Some (bs ++ r)).

Lemma compiles_last a f d bs : compiles a f d bs -> next f = FNil ->
  typable vars a f /\ forest_code vars (annotate vars a f) = Some bs.
Proof. intros (_ & Ht & Hc) Hn. rewrite Hn in Ht, Hc. split; [by apply Ht|]. rewrite Hc. simpl. by rewrite app_nil_r. Qed.

Lemma compiles_next a f d bs d' bs' : compiles a f d bs -> compiles FINSH_NODE_VALUE (next f) d' bs' -> next (next f) = FNil ->
  typable vars a f /\ forest_code vars (annotate vars a f) = Some (bs ++ bs').
Proof.
  intros (_ & Ht & Hc) Hb Hn. destruct (compiles_last _ _ _ _ Hb Hn) as [Tb Eb]. split; [by apply Ht|]. by rewrite Hc, Eb.
Qed.

(** a leaf *)
Lemma compiles_leaf a p n s dt bs : match leaf_data vars (mark_address a n) with Put d => d = dt | Keep => dt = data_type n | _ => False end ->
  (forall m, node_type m = node_type n -> id m = id n -> value m = value n -> idtype m = idtype (mark_address a n) ->
     node_code vars m None (parameters m FNil) = Code bs) ->
  compiles a (FNode p n FNil s) dt bs.
Proof.
  intros Hl Hc. destruct (annotate_node_fields vars a n FNil) as (_ & _ & F3 & F4 & F5 & F6). split; [|split].
  - simpl. eexists. split; [done|]. unfold annotate_node. simpl. destruct (mark_address_fields a n) as (_ & _ & _ & _ & _ & F).
    destruct (leaf_data _ _); try done. congruence.
  - intros Ht. simpl. split; [|done]. intros _. by destruct (leaf_data _ _).
  - simpl. unfold own_code. cbn [head_node]. by rewrite Hc.
Qed.

(** a node with children *)
Lemma compiles_node a p n c s cn bc bn : let c' := annotate vars (child_addr n a) c in
  head_node c' = Some cn -> typable vars (child_addr n a) c -> forest_code vars c' = Some bc ->
  (forall m, node_type m = node_type n -> idtype m = idtype (mark_address a n) -> data_type m = data_type cn ->
     node_code vars m (Some cn) (parameters m c') = Code bn) ->
  compiles a (FNode p n c s) (data_type cn) (bc ++ bn).
Proof.
  intros c' Hh Ht Hb Hc. destruct (annotate_node_fields vars a n c') as (_ & _ & F3 & F4 & F5 & F6). split; [|split].
  - simpl. fold c'. eexists. split; [done|]. unfold annotate_node. by rewrite Hh.
  - intros Hs. simpl. split_and!; try done. intros ->. done.
  - simpl. fold c'. rewrite Hb. simpl. unfold own_code. rewrite Hh, Hc; try done; [|unfold annotate_node; by rewrite Hh].
    simpl. destruct (forest_code vars (annotate vars FINSH_NODE_VALUE s)); simpl; [|done]. by rewrite <-(assoc_L (++)).
Qed.

Lemma compiles_place a x f w : is_place x f -> place_width vars x = Some w -> a = 0 \/ a = FINSH_IDTYPE_ADDRESS ->
  compiles a f (width_code w) ((if a =? 0 then ld_value_code w else FINSH_OP_LD_DWORD) :: dword (place_addr x)) /\
  exists n, head_node (annotate vars a f) = Some n /\ node_type n = FINSH_NODE_ID /\ id n = place_id x.
Proof.
  intros Hx Hw Ha. destruct f as [|p n c s]; [done|]. destruct Hx as (T & I & P & ->).
  unfold place_width in Hw. apply bind_Some in Hw as (t & Et & Ew). destruct (type_data_width _ _ Ew) as [Ed El].
  destruct (annotate_node_fields vars a n FNil) as (_ & _ & F3 & F4 & _). destruct (mark_address_fields a n) as (_ & _ & G3 & G4 & _).
  split; [|exists (annotate_node vars a n FNil); split; [done|by rewrite F3, F4]].
  assert (Hid : idtype (mark_address a n) = Z.lor (place_flag x) a).
  { unfold mark_address. rewrite I. by destruct x. }
  apply compiles_leaf.
  - unfold leaf_data. rewrite G3, T, G4, P, Hid. destruct x as [i|v]; simpl in Et |- *.
    + apply fmap_Some in Et as (v & Ev & ->). rewrite Ev. by destruct Ha as [-> | ->]; simpl; unfold type_leaf; rewrite Ed.
    + injection Et as <-. by destruct Ha as [-> | ->]; simpl; unfold type_leaf; rewrite Ed.
  - intros m M1 M2 _ M4. rewrite node_code_id by congruence. unfold code_id. rewrite M4, M2, Hid, P.
    destruct x as [i|v]; simpl in Et |- *.
    + apply fmap_Some in Et as (v & Ev & ->). rewrite Ev. by destruct Ha as [-> | ->]; simpl; rewrite El.
    + injection Et as <-. by destruct Ha as [-> | ->]; simpl; rewrite El.
Qed.

Definition front (e : expr) : Prop :=
  forall f t, expr_type vars e = Some t -> is_expr e f -> compiles FINSH_NODE_VALUE f t.1 (code vars e).
Definition front_all (es : exprs) : Prop :=
  forall f, args_typed vars es = true -> is_args es f ->
  typable vars FINSH_NODE_VALUE f /\ forest_code vars (annotate vars FINSH_NODE_VALUE f) = Some (args_code vars es).

Lemma dword_u32 x y : u32 x = u32 y -> dword x = dword y.
Proof. unfold dword. by intros ->. Qed.

Lemma mark_none n : idtype (mark_address FINSH_NODE_VALUE n) = idtype n.
Proof. unfold mark_address. case_match; [|done]. apply Z.lor_0_r. Qed.

Lemma front_char c : front (Char c).
Proof.
  intros [|p n k s] t [= <-] Hf; [done|]. destruct Hf as (T & I & V & ->). destruct (mark_address_fields FINSH_NODE_VALUE n) as (_ & _ & G & _).
  apply compiles_leaf; [unfold leaf_data; rewrite G, T; done|]. intros m M1 _ M3 _. rewrite node_code_char by congruence. simpl. congruence.
Qed.

Lemma front_const v : front (Const v).
Proof.
  intros [|p n k s] t [= <-] Hf; [done|]. destruct Hf as (T & I & V & ->). destruct (mark_address_fields FINSH_NODE_VALUE n) as (_ & _ & G & _).
  apply compiles_leaf; [unfold leaf_data; rewrite G; by destruct T as [->|[->|[->| ->]]]|].
  intros m M1 _ M3 _. rewrite node_code_const by congruence. simpl. by rewrite M3, (dword_u32 _ _ V).
Qed.

Lemma front_load x : front (Load x).
Proof.
  intros f t Ht Hf. pose proof (expr_width_type _ _ _ Ht) as Ew. simpl in Ht. apply bind_Some in Ht as (w & Hw & [= <-]). cbn [code]. rewrite Ew.
  by apply (compiles_place FINSH_NODE_VALUE x f w Hf Hw (or_introl eq_refl)).
Qed.

Lemma front_addr x : front (Addr x).
Proof.
  intros [|p n k s] t Ht (N & X & L); [done|]. simpl in Ht, X, L. apply bind_Some in Ht as (w & Hw & [= <-]). destruct N as [T I].
  destruct (compiles_place FINSH_IDTYPE_ADDRESS x k w X Hw (or_intror eq_refl)) as [Hp _]. pose proof Hp as ((cn & Hn & Hd) & _).
  destruct (compiles_last _ _ _ _ Hp L) as [Tp Ep]. assert (child_addr n FINSH_NODE_VALUE = FINSH_IDTYPE_ADDRESS) as Hc by (unfold child_addr; by rewrite T).
  cbn [code]. rewrite <-(app_nil_r (load_addr _)). simpl fst. rewrite <-Hd.
  apply compiles_node; rewrite ?Hc; try done. intros m M1 _ _. apply node_code_getaddr. congruence.
Qed.

Lemma front_bin o a b : front a -> front b -> front (Bin o a b).
Proof.
  intros IHa IHb [|p n k s] t Ht (N & Xa & Xb & L); [done|]. simpl in Ht, Xa, Xb, L. destruct N as [T I].
  apply bind_Some in Ht as (ta & Ha & Ht). apply bind_Some in Ht as (tb & Hb & Ht).
  destruct (bool_decide _) eqn:E1; [|done]. destruct (width_le ta.2 tb.2) eqn:E2; [|done]. injection Ht as <-.
  apply bool_decide_eq_true, code_width_inv in E1. specialize (IHa k ta Ha Xa). specialize (IHb _ tb Hb Xb).
  pose proof IHa as ((cn & Hn & Hd) & _). destruct (compiles_next _ _ _ _ _ _ IHa IHb L) as [Tk Ek].
  assert (child_addr n FINSH_NODE_VALUE = FINSH_NODE_VALUE) as Hc by (unfold child_addr; rewrite T; by destruct o).
  cbn [code]. rewrite (assoc_L (++)), <-Hd. rewrite (expr_width_type _ _ _ Ha).
  apply compiles_node; rewrite ?Hc; try done. intros m M1 _ M3. apply node_code_bin; congruence.
Qed.

(** a unary operator that asks for the value of its operand *)
Lemma front_unary p n k s a ta b d : front a -> expr_type vars a = Some ta -> is_expr a k -> next k = FNil ->
  child_addr n FINSH_NODE_VALUE = FINSH_NODE_VALUE -> d = ta.1 ->
  (forall m c j, node_type m = node_type n -> idtype m = idtype n -> data_type m = ta.1 -> node_code vars m c j = Code [b]) ->
  compiles FINSH_NODE_VALUE (FNode p n k s) d (code vars a ++ [b]).
Proof.
  intros IHa Ha Xa L Hc -> Hm. specialize (IHa k ta Ha Xa). pose proof IHa as ((cn & Hn & Hd) & _).
  destruct (compiles_last _ _ _ _ IHa L) as [Tk Ek]. rewrite <-Hd.
  apply compiles_node; rewrite ?Hc; try done. intros m M1 M2 M3. rewrite mark_none in M2. apply Hm; congruence.
Qed.

Lemma front_not a : front a -> front (Not a).
Proof.
  intros IHa [|p n k s] t Ht (N & Xa & L); [done|]. simpl in Ht, Xa, L. destruct N as [T I].
  apply bind_Some in Ht as (ta & Ha & Ht). destruct (bool_decide _) eqn:E1; [|done]. injection Ht as <-.
  apply bool_decide_eq_true, code_width_inv in E1. cbn [code]. rewrite (expr_width_type _ _ _ Ha).
  eapply front_unary; try done; [unfold child_addr; by rewrite T|]. intros m c j M1 _ M3. apply node_code_bw; congruence.
Qed.

Lemma front_deref a : front a -> front (Deref a).
Proof.
  intros IHa [|p n k s] t Ht (N & Xa & L); [done|]. simpl in Xa, L. destruct N as [T I]. pose proof (expr_width_type _ _ _ Ht) as Ew.
  simpl in Ht. apply bind_Some in Ht as (ta & Ha & Ht). apply bind_Some in Ht as (w & Hw & Ht). destruct (bool_decide _) eqn:E1; [|done].
  injection Ht as <-. apply code_width_inv in Hw. cbn [code]. rewrite Ew.
  eapply front_unary; try done; [unfold child_addr; by rewrite T|].
  intros m c j M1 M2 M3. apply node_code_getvalue; [congruence|rewrite M2, I; done|by rewrite M3].
Qed.

(** an assignment, given the code of its left side *)
Lemma front_assign p n k s b tb cn w bl : front b -> expr_type vars b = Some tb -> node_type n = FINSH_NODE_SYS_ASSIGN ->
  compiles FINSH_IDTYPE_ADDRESS k (width_code w) bl -> head_node (annotate vars FINSH_IDTYPE_ADDRESS k) = Some cn ->
  node_type cn = FINSH_NODE_ID \/ node_type cn = FINSH_NODE_SYS_GETVALUE ->
  is_expr b (next k) -> next (next k) = FNil ->
  compiles FINSH_NODE_VALUE (FNode p n k s) (width_code w) (bl ++ code vars b ++ [st_code w; ld_stack_code w]).
Proof.
  intros IHb Hb T Hl Hn Hk Xb L. specialize (IHb _ tb Hb Xb). destruct (compiles_next _ _ _ _ _ _ Hl IHb L) as [Tk Ek].
  destruct Hl as ((cn' & Hn' & Hd) & _). rewrite Hn in Hn'. injection Hn' as <-.
  assert (child_addr n FINSH_NODE_VALUE = FINSH_IDTYPE_ADDRESS) as Hc by (unfold child_addr; by rewrite T).
  rewrite (assoc_L (++)), <-Hd. apply compiles_node; rewrite ?Hc; try done.
  intros m M1 _ _. by apply (node_code_assign m _ _ cn w); [congruence|..].
Qed.

Lemma front_place x a : front a -> front (Assign x a).
Proof.
  intros IHa [|p n k s] t Ht (N & X & Xa & L); [done|]. simpl in X, Xa, L. destruct N as [T I]. pose proof (expr_width_type _ _ _ Ht) as Ew.
  simpl in Ht. apply bind_Some in Ht as (w & Hw & Ht). apply bind_Some in Ht as (ta & Ha & Ht). destruct (width_le w ta.2); [|done].
  injection Ht as <-. cbn [code]. rewrite Ew.
  destruct (compiles_place FINSH_IDTYPE_ADDRESS x k w X Hw (or_intror eq_refl)) as [Hp (cn & Hn & Hk & _)].
  eapply front_assign; try done. by left.
Qed.

Lemma front_assign_at a b : front a -> front b -> front (AssignAt a b).
Proof.
  intros IHa IHb [|p n [|q g k s1] s] t Ht (N & G & Xa & L1 & Xb & L2); try done. simpl in Xa, L1, Xb, L2.
  destruct N as [T I]. destruct G as [TG IG]. pose proof (expr_width_type _ _ _ Ht) as Ew.
  simpl in Ht. apply bind_Some in Ht as (ta & Ha & Ht). apply bind_Some in Ht as (tb & Hb & Ht). apply bind_Some in Ht as (w & Hw & Ht).
  destruct (bool_decide _ && width_le w tb.2) eqn:E; [|done]. injection Ht as <-. apply code_width_inv in Hw.
  cbn [snd] in Ew. cbn [code]. rewrite Ew. simpl fst. rewrite Hw. specialize (IHa k ta Ha Xa). pose proof IHa as ((cn & Hn & Hd) & _).
  destruct (compiles_last _ _ _ _ IHa L1) as [Tk Ek].
  assert (child_addr g FINSH_IDTYPE_ADDRESS = 0) as Hc by (unfold child_addr; by rewrite TG).
  assert (idtype (mark_address FINSH_IDTYPE_ADDRESS g) = FINSH_IDTYPE_ADDRESS) as Hg by (unfold mark_address; by rewrite IG).
  destruct (annotate_node_fields vars FINSH_IDTYPE_ADDRESS g (annotate vars 0 k)) as (_ & _ & F3 & _).
  eapply front_assign; [done|done|done| |simpl; rewrite Hc; done|right; rewrite F3; done|done|done].
  rewrite <-Hw, <-Hd, <-(app_nil_r (code vars a)). apply compiles_node; rewrite ?Hc; try done.
  intros m M1 M2 _. apply node_code_place; [congruence|by rewrite M2, Hg].
Qed.

Lemma front_pre up i : front (Pre up i).
Proof.
  intros [|p n k s] t Ht (N & X & L); [done|]. cbn [kids] in X, L. destruct N as [T I].
  cbn [expr_type] in Ht. apply bind_Some in Ht as (w & Hw & [= <-]).
  destruct (compiles_place FINSH_IDTYPE_ADDRESS (PVar i) k w X Hw (or_intror eq_refl)) as [Hp (cn & Hn & Hk & Hi)].
  pose proof Hp as ((cn' & Hn' & Hd) & _). rewrite Hn in Hn'. injection Hn' as <-. destruct (compiles_last _ _ _ _ Hp L) as [Tp Ep].
  assert (child_addr n FINSH_NODE_VALUE = FINSH_IDTYPE_ADDRESS) as Hc by (unfold child_addr; rewrite T; by destruct up).
  assert (expr_width vars (Load (PVar i)) = w) as Ew by (unfold expr_width; cbn [expr_type]; by rewrite Hw).
  cbn [code]. rewrite Ew. cbv zeta. cbn [fst]. rewrite <-Hd. apply compiles_node; rewrite ?Hc; try done.
  intros m M1 _ M3. rewrite (node_code_pre m _ _ cn up w) by congruence. by rewrite Hi.
Qed.

Lemma front_post up i : front (Post up i).
Proof.
  intros [|p n k s] t Ht (N & X & L); [done|]. cbn [kids] in X, L. destruct N as [T I]. pose proof (expr_width_type _ _ _ Ht) as Ew.
  cbn [expr_type] in Ht. apply bind_Some in Ht as (w & Hw & [= <-]).
  destruct (compiles_place FINSH_NODE_VALUE (PVar i) k w X Hw (or_introl eq_refl)) as [Hp (cn & Hn & Hk & Hi)].
  pose proof Hp as ((cn' & Hn' & Hd) & _). rewrite Hn in Hn'. injection Hn' as <-. destruct (compiles_last _ _ _ _ Hp L) as [Tp Ep].
  assert (child_addr n FINSH_NODE_VALUE = FINSH_NODE_VALUE) as Hc by (unfold child_addr; rewrite T; by destruct up).
  cbn [code]. rewrite Ew. cbv zeta. cbn [fst]. rewrite <-Hd, (assoc_L (++)). apply compiles_node; rewrite ?Hc; try done.
  intros m M1 _ M3. rewrite (node_code_post m _ _ cn up w) by congruence. by rewrite Hi.
Qed.

Lemma front_call g es : front_all es -> front (Call g es).
Proof.
  intros IH [|p n [|q m k s1] s] t Ht (N & G & X); try done. cbn [kids next] in X. destruct N as [T I].
  cbn [expr_type] in Ht. destruct (args_typed vars es) eqn:E; [|done]. destruct (count es <=? 16)%nat eqn:E16; [|done].
  injection Ht as <-. destruct G as (TG & IG & PG & DG & ->). destruct (IH s1 E X) as [Ts Es].
  assert (child_addr n FINSH_NODE_VALUE = FINSH_NODE_VALUE) as Hc by (unfold child_addr; by rewrite T).
  destruct (mark_address_fields FINSH_NODE_VALUE m) as (_ & _ & G3 & G4 & _ & G6).
  assert (idtype (mark_address FINSH_NODE_VALUE m) = FINSH_IDTYPE_SYSCALL) as Hi by by rewrite mark_none.
  assert (compiles FINSH_NODE_VALUE (FNode q m FNil s1) FINSH_DATA_TYPE_VOID (load_addr (func g))) as Hf.
  { apply compiles_leaf; [unfold leaf_data; rewrite G3, TG, Hi; done|].
    intros x M1 M2 _ M4. rewrite node_code_id by congruence. unfold code_id. by rewrite M4, Hi, M2, PG. }
  pose proof Hf as ((cn & Hn & Hd) & Hs & Ef). cbn [next] in Ef, Hs. rewrite Es in Ef. cbn [mbind option_bind] in Ef.
  cbn [code fst]. rewrite <-Hd, (assoc_L (++)). apply compiles_node; rewrite ?Hc; try done; [by apply Hs|].
  intros x M1 _ _. rewrite (node_code_func x _ _ cn) by congruence. unfold parameters. rewrite M1, T. cbn [annotate next].
  rewrite annotate_siblings, (is_args_siblings _ _ X). apply Nat.leb_le in E16. cbn [Z.eqb]. rewrite Z.eqb_refl, u8_small by lia. done.
Qed.

Lemma front_expr : (forall e, front e) /\ (forall es, front_all es).
Proof.
  apply expr_exprs_ind; eauto using front_char, front_const, front_load, front_addr, front_bin, front_not, front_place, front_deref,
    front_assign_at, front_pre, front_post, front_call.
  - by intros f _ ->.
  - intros a IHa es IHes f Ht [Xa Xs]. cbn [args_typed] in Ht. destruct (expr_type vars a) as [[d []]|] eqn:E; try done.
    destruct (IHa f _ E Xa) as (_ & Hs & Ef). destruct (IHes _ Ht Xs) as [Ts Es]. split; [by apply Hs|]. by rewrite Ef, Es.
Qed.

(** * Lines

    A line is a list of expressions; the value of each but the last is dropped. *)

Fixpoint line_code (es : list expr) : list Z :=
  match es with [] => [] | [e] => code vars e | e :: es => code vars e ++ [FINSH_OP_POP] ++ line_code es end.

Definition typed_line (es : list expr) : Prop := Forall (fun e => is_Some (expr_type vars e)) es.

(** the forest of a line *)
Fixpoint is_line (es : list expr) (f : forest) : Prop :=
  match es with [] => f = FNil | e :: es => is_expr e f /\ is_line es (next f) end.

Lemma annotate_next a f : next (annotate vars a f) = annotate vars FINSH_NODE_VALUE (next f).
Proof. by destruct f. Qed.

Lemma cut_code f bs : (exists r, forest_code vars f = Some r) ->
  forest_code vars f = (r ← forest_code vars (next f); Some (bs ++ r)) -> forest_code vars (cut f) = Some bs.
Proof.
  destruct f as [|p n c s]; intros [r Hr]; cbn [forest_code next cut].
  - simpl. intros [= E]. rewrite app_nil_r in E. by rewrite E.
  - cbn [forest_code] in Hr. apply bind_Some in Hr as (bc & Ec & Hr). apply bind_Some in Hr as (bn & En & Hr).
    apply bind_Some in Hr as (b2 & E2 & _). rewrite Ec, E2. simpl.
    assert (own_code vars (set_sibling None n) c = own_code vars n c) as -> by reflexivity.
    rewrite En. simpl. intros [= E]. rewrite !app_nil_r. rewrite (assoc_L (++)) in E. by apply app_inv_tail in E as ->.
Qed.

(** the text of a line is the code of its expressions *)
Lemma line_front es : forall f, typed_line es -> is_line es f ->
  typable vars FINSH_NODE_VALUE f /\ (exists r, forest_code vars (annotate vars FINSH_NODE_VALUE f) = Some r) /\
  statements_code vars (annotate vars FINSH_NODE_VALUE f) = Some (line_code es).
Proof.
  induction es as [|e es IH]; intros f Ht Hf.
  - simpl in Hf. subst f. split_and!; [done|by exists []|done].
  - destruct Hf as [Xe Xs]. apply Forall_cons in Ht as [[t Et] Ht]. destruct (IH _ Ht Xs) as (Ts & (r & Er) & Es).
    destruct (proj1 front_expr e f t Et Xe) as ((n & Hn & _) & Hs & Ef). rewrite Er in Ef. simpl in Ef.
    split_and!; [by apply Hs|by eexists|]. destruct f as [|p m c s]; [done|]. cbn [next] in *.
    pose proof (cut_code (annotate vars FINSH_NODE_VALUE (FNode p m c s)) (code vars e) (ex_intro _ _ Ef)) as Hcut.
    rewrite annotate_next in Hcut. cbn [next] in Hcut. rewrite Er in Hcut. specialize (Hcut Ef).
    cbn [annotate statements_code]. cbn [annotate] in Hcut. rewrite Hcut. cbn [mbind option_bind]. rewrite Es. cbn [mbind option_bind].
    destruct s as [|p1 n1 c1 s1], es as [|e1 es]; try done; [by simpl; rewrite app_nil_r|by destruct e1; simpl in Xs; exfalso; tauto].
Qed.

End front.
