(* ===== verification/FinshLine.v ===== *)
(** A line, compiled and run: the byte code of the line leaves the value of its last
    expression at the bottom of the stack ([compiled_line_runs]); the table of nodes is
    small enough for the stack, and for the text unless the line has increments
    ([compiled_line_fits]). *)

From S2P Require Import Prelude Mem Finsh FinshCompiler FinshVm FinshVmSpec FinshExpr FinshEval FinshTree FinshFront.

Open Scope Z_scope.

Section line.
Context `{finsh_image}.
Context (vars : list finsh_var).

(** * Sizes *)

Fixpoint nodes (e : expr) : nat :=
  match e with
  | Char _ | Const _ | Load _ => 1
  | Addr _ | Pre _ _ | Post _ _ => 2
  | Bin _ a b => S (nodes a + nodes b)
  | Not a | Deref a => S (nodes a)
  | Assign _ a => 2 + nodes a
  | AssignAt a b => 2 + (nodes a + nodes b)
  | Call _ args => 2 + args_nodes args
  end
with args_nodes (es : exprs) : nat := match es with Nil => O | Cons a es => nodes a + args_nodes es end.

(** the increments and decrements in an expression *)
Fixpoint steps (e : expr) : nat :=
  match e with
  | Char _ | Const _ | Load _ | Addr _ => 0
  | Pre _ _ | Post _ _ => 1
  | Bin _ a b | AssignAt a b => steps a + steps b
  | Not a | Deref a | Assign _ a => steps a
  | Call _ args => args_steps args
  end
with args_steps (es : exprs) : nat := match es with Nil => O | Cons a es => steps a + args_steps es end.

Lemma length_dword x : length (dword x) = 4%nat.
Proof. done. Qed.

Lemma increment_length w up a : (length (increment_code w up a) <= 12)%nat.
Proof. unfold increment_code. by destruct w; simpl; lia. Qed.

Lemma nodes_pos e : (0 < nodes e)%nat.
Proof. destruct e; simpl; lia. Qed.

Lemma code_call f es : code vars (Call f es) = load_addr (func f) ++ args_code vars es ++ [FINSH_OP_SYSCALL; Z.of_nat (count es)].
Proof. done. Qed.

Lemma args_code_cons a es : args_code vars (Cons a es) = code vars a ++ args_code vars es.
Proof. done. Qed.

Lemma sizes : (forall e, (depth e <= 2 * nodes e /\ length (code vars e) <= 5 * nodes e + 13 * steps e)%nat) /\
  (forall es, (args_depth es <= 2 * args_nodes es /\ length (args_code vars es) <= 5 * args_nodes es + 13 * args_steps es)%nat).
Proof.
  apply expr_exprs_ind; intros; rewrite ?code_call, ?args_code_cons; cbn [depth args_depth nodes args_nodes steps args_steps code args_code];
    unfold load_addr; cbv zeta; rewrite ?length_app; cbn [length]; rewrite ?length_app, ?length_dword; cbn [length];
    try match goal with |- context [length (increment_code ?w ?up ?a)] => pose proof (increment_length w up a) end;
    try match goal with |- context [nodes ?a] => pose proof (nodes_pos a) end; lia.
Qed.

Definition size (f : forest) : nat := length (pointers f).

Lemma size_node p n c s : size (FNode p n c s) = S (size c + size s).
Proof. unfold size. simpl. by rewrite length_app. Qed.

Lemma place_size x f : is_place x f -> size f = S (size (next f)).
Proof. destruct f as [|p n c s]; [done|]. intros (_ & _ & _ & ->). by rewrite size_node. Qed.

Lemma syscall_size x f : is_syscall x f -> size f = S (size (next f)).
Proof. destruct f as [|p n c s]; [done|]. intros (_ & _ & _ & _ & ->). by rewrite size_node. Qed.

Lemma node_size t f : is_node t f -> size f = S (size (kids f) + size (next f)).
Proof. destruct f as [|p n c s]; [done|]. intros _. apply size_node. Qed.

Lemma expr_size : (forall e f, is_expr e f -> size f = (nodes e + size (next f))%nat) /\
  (forall es f, is_args es f -> size f = args_nodes es).
Proof.
  apply expr_exprs_ind; cbn [is_expr is_args nodes args_nodes]; intros.
  all: repeat match goal with H : _ /\ _ |- _ => destruct H end.
  all: repeat match goal with
       | H : is_node _ ?f |- _ => apply node_size in H
       | H : is_place _ ?f |- _ => apply place_size in H
       | H : is_syscall _ ?f |- _ => apply syscall_size in H
       | IH : forall f, is_expr ?e f -> _, H : is_expr ?e ?f |- _ => apply IH in H
       | IH : forall f, is_args ?e f -> _, H : is_args ?e ?f |- _ => apply IH in H
       | H : next ?f = FNil |- _ => rewrite H in *; clear H
       end.
  all: change (size FNil) with O in *; try lia.
  - destruct f as [|p n k s]; [done|]. destruct H0 as (_ & _ & _ & ->). by rewrite size_node.
  - destruct f as [|p n k s]; [done|]. destruct H0 as (_ & _ & _ & ->). by rewrite size_node.
  - by subst.
Qed.

Lemma line_size es : forall f, is_line es f -> size f = sum_list (nodes <$> es).
Proof.
  induction es as [|e es IH]; intros f; simpl; [by intros ->|]. intros [He Hes]. rewrite (proj1 expr_size e f He). by rewrite (IH _ Hes).
Qed.

(** * The memory a line leaves, and its value *)

Fixpoint eval_line (es : list expr) : M memory Z :=
  match es with [] => ret 0 | [e] => eval vars e | e :: es => eval vars e ;! eval_line es end.

Fixpoint line_width (es : list expr) : width :=
  match es with [] => Dword | [e] => expr_width vars e | _ :: es => line_width es end.

Definition line_depth (es : list expr) : nat := list_max (depth <$> es).

Lemma line_fits es f tbl : represents tbl f -> NoDup (pointers f) -> length tbl = FINSH_NODE_MAX -> is_line es f ->
  (line_depth es <= FINSH_STACK_MAX)%nat /\
  (length (line_code vars es) <= 6 * FINSH_NODE_MAX + 13 * sum_list (steps <$> es))%nat.
Proof.
  intros Hr Hn Hl Hf. pose proof (line_size _ _ Hf) as Hs.
  assert (size f <= FINSH_NODE_MAX)%nat as Hb.
  { unfold size. rewrite <-(length_seq FINSH_NODE_MAX 0). apply submseteq_length, NoDup_submseteq; [done|].
    intros q Hq. apply elem_of_seq. pose proof (pointers_range _ _ Hr q Hq). lia. }
  rewrite Hs in Hb. clear Hs Hr Hn Hl Hf.
  assert (line_depth es <= 2 * sum_list (nodes <$> es) /\
    length (line_code vars es) <= 6 * sum_list (nodes <$> es) + 13 * sum_list (steps <$> es))%nat as [H1 H2].
  { clear Hb. unfold line_depth. induction es as [|e es [IH1 IH2]]; [done|]. destruct (proj1 sizes e) as [S1 S2]. pose proof (nodes_pos e).
    destruct es as [|e1 es]; [simpl; lia|]. cbn [line_code fmap list_fmap list_max list_max sum_list] in *.
    cbn [list_max foldr] in *. rewrite !length_app. cbn [length]. split; [simpl in *; lia|]. simpl in *. lia. }
  unfold FINSH_NODE_MAX, FINSH_STACK_MAX in *. lia.
Qed.

(** * Running the text *)

(** the rest of the text is no operation *)
Lemma run_zeros s0 k : forall l stk sp m, text_segment s0 = l ++ replicate k 0 -> (length l + k = FINSH_TEXT_MAX)%nat ->
  length stk = FINSH_STACK_MAX -> run (vm s0 (Z.of_nat (length l)) stk sp m) = Ret tt (vm s0 (Z.of_nat FINSH_TEXT_MAX) stk sp m).
Proof.
  induction k as [|k IH]; intros l stk sp m Ht Hl Hs.
  - rewrite Nat.add_0_r in Hl. rewrite Hl. by apply run_end.
  - assert (code_at (text_segment s0) (Z.of_nat (length l)) [0]) as Hc.
    { exists l, (replicate k 0). split_and!; [done|done|]. rewrite Ht, length_app, length_replicate. done. }
    rewrite (run_fetch _ _ _ _ Hs _ _ OP_no_op _ Hc eq_refl). unfold OP_no_op, ret.
    replace (Z.of_nat (length l) + 1) with (Z.of_nat (length (l ++ [0]))) by (rewrite length_app; simpl; lia).
    apply IH; [by rewrite <-(assoc_L (++))|rewrite length_app; simpl; lia|done].
Qed.

Lemma line_depth_cons e es : line_depth (e :: es) = Nat.max (depth e) (line_depth es).
Proof. done. Qed.

Lemma line_run s0 es : es <> [] -> typed_line vars es -> forall pc stk m, code_at (text_segment s0) pc (line_code vars es) ->
  length stk = FINSH_STACK_MAX -> (line_depth es <= FINSH_STACK_MAX)%nat ->
  match eval_line es m with
  | Ret v m' => exists stk', run (vm s0 pc stk 0 m) = run (vm s0 (pc + Z.of_nat (length (line_code vars es))) stk' 1 m') /\
      pushed stk stk' 0 (line_width es) v
  | Fail e => run (vm s0 pc stk 0 m) = Fail e
  end.
Proof.
  induction es as [|e es IH]; intros Hne Ht pc stk m Hc Hl Hd; [done|]. apply Forall_cons in Ht as [[t Et] Ht].
  rewrite line_depth_cons in Hd. pose proof (proj1 (expr_run s0 vars) e t Et) as He.
  destruct es as [|e1 es].
  - cbn [eval_line line_code line_width] in *. rewrite (expr_width_type _ _ _ Et). apply He; try done. simpl. lia.
  - change (eval_line (e :: e1 :: es)) with (eval vars e ;! eval_line (e1 :: es)).
    change (line_code vars (e :: e1 :: es)) with (code vars e ++ [FINSH_OP_POP] ++ line_code vars (e1 :: es)) in Hc |- *.
    change (line_width (e :: e1 :: es)) with (line_width (e1 :: es)). apply code_at_app in Hc as [Hce Hc]. unfold bind.
    specialize (He pc stk O m Hce Hl ltac:(simpl; lia)). destruct (eval vars e m) as [v m1|]; [|done].
    destruct He as (stk1 & -> & Hl1 & _). rewrite (run_fetch _ _ _ _ Hl1 _ _ OP_pop _ Hc eq_refl), (OP_pop_at _ _ _ _ Hl1).
    apply code_at_cons in Hc as [_ Hc]. specialize (IH ltac:(done) Ht _ stk1 m1 Hc Hl1 ltac:(lia)).
    destruct (eval_line (e1 :: es) m1) as [v2 m2|]; [|done]. destruct IH as (stk2 & -> & Hl2 & _ & Hx).
    exists stk2. split; [do 2 f_equal; rewrite !length_app; cbn [length]; lia|]. by split_and!.
Qed.

(** the code of an expression with a type is bytes *)
Definition byte_list (bs : list Z) : Prop := Forall (fun b => 0 <= b < 256) bs.

Lemma byte_list_u8 bs : byte_list bs -> u8 <$> bs = bs.
Proof. induction 1 as [|b bs Hb _ IH]; [done|]. by rewrite fmap_cons, IH, u8_small. Qed.

Lemma byte_list_dword x : byte_list (dword x).
Proof. rewrite dword_bytes. repeat (apply List.Forall_cons; [apply u8_range|]). constructor. Qed.

Lemma byte_list_operand w x : byte_list (operand w x).
Proof.
  destruct w; simpl; [|rewrite word_bytes|apply byte_list_dword]; repeat (apply List.Forall_cons; [apply u8_range|]); constructor.
Qed.

Lemma byte_list_app a b : byte_list a -> byte_list b -> byte_list (a ++ b).
Proof. intros. by apply Forall_app. Qed.

Lemma byte_list_cons x b : 0 <= x < 256 -> byte_list b -> byte_list (x :: b).
Proof. intros. by constructor. Qed.

Lemma byte_list_codes w o : (0 <= op_code o w < 256 /\ 0 <= bw_code w < 256 /\ 0 <= ld_code w < 256 /\ 0 <= ld_value_code w < 256 /\
  0 <= st_code w < 256 /\ 0 <= ld_stack_code w < 256).
Proof. destruct w, o; vm_compute; intuition congruence. Qed.

Ltac byte_codes := repeat match goal with
  | |- byte_list (_ ++ _) => apply byte_list_app
  | |- byte_list (_ :: _) => apply byte_list_cons
  | |- 0 <= op_code ?o ?w < 256 => apply (byte_list_codes w o)
  | |- 0 <= bw_code ?w < 256 => apply (byte_list_codes w Add)
  | |- 0 <= ld_code ?w < 256 => apply (byte_list_codes w Add)
  | |- 0 <= ld_value_code ?w < 256 => apply (byte_list_codes w Add)
  | |- 0 <= st_code ?w < 256 => apply (byte_list_codes w Add)
  | |- 0 <= ld_stack_code ?w < 256 => apply (byte_list_codes w Add)
  | |- 0 <= u8 _ < 256 => apply u8_range
  | |- 0 <= Z.of_nat _ < 256 => lia
  | |- 0 <= _ < 256 => split; [discriminate|reflexivity]
  | |- byte_list (dword _) => apply byte_list_dword
  | |- byte_list (operand _ _) => apply byte_list_operand
  | |- byte_list [] => constructor
  | IH : _ -> byte_list ?bs |- byte_list ?bs => solve [apply IH; (done || by eexists)]
  end.

Lemma code_bytes : (forall e, is_Some (expr_type vars e) -> byte_list (code vars e)) /\
  (forall es, args_typed vars es = true -> byte_list (args_code vars es)).
Proof.
  apply expr_exprs_ind; intros; rewrite ?code_call, ?args_code_cons; cbn [code args_code]; unfold load_addr, increment_code; cbv zeta.
  all: repeat match goal with
       | H : is_Some (expr_type vars (_ _)) |- _ => let t := fresh in let E := fresh in destruct H as [t E]; cbn [expr_type] in E
       | H : _ ≫= _ = Some _ |- _ => let t := fresh in apply bind_Some in H as (t & ? & H)
       | H : (if ?b then _ else _) = Some _ |- _ => destruct b eqn:?; [|done]
       | H : _ && _ = true |- _ => apply andb_prop in H as [??]
       | H : (_ <=? _)%nat = true |- _ => apply Nat.leb_le in H
       | H : args_typed vars (Cons ?a _) = true |- _ => cbn [args_typed] in H; destruct (expr_type vars a) as [[? []]|] eqn:?; try done
       end.
  all: byte_codes.
Qed.

Lemma line_bytes es : typed_line vars es -> byte_list (line_code vars es).
Proof.
  induction es as [|e es IH]; intros Ht; [constructor|]. apply Forall_cons in Ht as [He Ht].
  pose proof (proj1 code_bytes e He). destruct es as [|e1 es]; [done|].
  change (line_code vars (e :: e1 :: es)) with (code vars e ++ [FINSH_OP_POP] ++ line_code vars (e1 :: es)).
  apply byte_list_app; [done|]. apply byte_list_cons; [by vm_compute|]. by apply IH.
Qed.

(** * The whole *)

(** the text holds the code of the line, and nothing else *)
Definition holds_line (es : list expr) (s : finsh) : Prop :=
  exists k, text_segment s = line_code vars es ++ replicate k 0 /\ length (text_segment s) = FINSH_TEXT_MAX.

(** The machine from its start: the line's value is at the bottom of the stack, at the width of the last expression. *)
Lemma finsh_vm_run_line es s : es <> [] -> typed_line vars es -> holds_line es s -> length (finsh_vm_stack s) = FINSH_STACK_MAX ->
  (line_depth es <= FINSH_STACK_MAX)%nat ->
  match eval_line es (fmem s) with
  | Ret v m' => exists stk' x, finsh_vm_run s = Ret tt (vm s (Z.of_nat FINSH_TEXT_MAX) (x :: stk') 1 m') /\
      member (line_width es) x = v /\ length (x :: stk') = FINSH_STACK_MAX
  | Fail e => finsh_vm_run s = Fail e
  end.
Proof.
  intros Hne Ht (k & Htext & Hlen) Hl Hd. rewrite finsh_vm_run_run.
  change (set_pc 0 (set_stack (finsh_vm_stack s) 0 s)) with (set_pc 0 (set_stack (finsh_vm_stack s) (Z.of_nat 0) (set_fmem (fmem s) s))).
  fold (vm s 0 (finsh_vm_stack s) 0 (fmem s)).
  assert (code_at (text_segment s) 0 (line_code vars es)) as Hc by (exists [], (replicate k 0); done).
  pose proof (line_run s es Hne Ht 0 (finsh_vm_stack s) (fmem s) Hc Hl Hd) as Hr.
  destruct (eval_line es (fmem s)) as [v m'|]; [|done]. destruct Hr as (stk & -> & Hs & _ & x & Hx & Ev).
  destruct stk as [|y stk]; [done|]. injection Hx as ->. exists stk, x. rewrite Z.add_0_l.
  split_and!; [|done|done]. apply (run_zeros s k); [done| |done]. by rewrite <-Hlen, Htext, length_app, length_replicate.
Qed.


Section compiled.
Context (es : list expr) (f : forest) (s : finsh).

(** the line of the expressions is in the node table *)
Definition line_in_table : Prop :=
  represents (global_node_table s) f /\ NoDup (pointers f) /\ length (global_node_table s) = FINSH_NODE_MAX /\
  global_variable s = vars /\ is_line es f.

Lemma compile_line : line_in_table -> typed_line vars es ->
  if decide (length (line_code vars es) <= FINSH_TEXT_MAX)%nat
  then exists tbl', length tbl' = FINSH_NODE_MAX /\ finsh_compiler_run (root f) s = Ret 0 (compiled (line_code vars es) tbl' s)
  else finsh_compiler_run (root f) s = Fail BadPointer.
Proof.
  intros (Hr & Hn & Hl & Hv & Hf) Ht. destruct (line_front vars es f Ht Hf) as (Hty & _ & Hc).
  pose proof (finsh_compiler_run_spec vars f s _ Hr Hn Hl Hv Hty Hc) as H0. by rewrite (byte_list_u8 _ (line_bytes es Ht)) in H0.
Qed.

(** the globals that a line leaves alone *)
Definition same_shell (s1 s2 : finsh) : Prop :=
  global_errno s2 = global_errno s1 /\ global_variable s2 = global_variable s1 /\ global_syscall_list s2 = global_syscall_list s1 /\
  global_sysvar_list s2 = global_sysvar_list s1 /\ length (finsh_vm_stack s2) = length (finsh_vm_stack s1).

(** what the word at the bottom of the stack says of a value: all of a 32-bit value; of a narrower one
    the low bytes, the others being those that the element of the stack held before *)
Definition shows_value (w : width) (b v : Z) : Prop := match w with Dword => b = v | _ => member w b = v end.

(** The line is compiled, and its code leaves the value of the last expression at the bottom of the stack. *)
Lemma compiled_line_runs : line_in_table -> es <> [] -> typed_line vars es -> length (finsh_vm_stack s) = FINSH_STACK_MAX ->
  (length (line_code vars es) <= FINSH_TEXT_MAX)%nat ->
  exists s1, finsh_compiler_run (root f) s = Ret 0 s1 /\ global_errno s1 = global_errno s /\
    match eval_line es (fmem s) with
    | Ret v m' => exists s2 b, finsh_vm_run s1 = Ret tt s2 /\ finsh_stack_bottom s2 = Ret b s2 /\
        shows_value (line_width es) b v /\ finsh_sp s2 = 1 /\ fmem s2 = m' /\ same_shell s s2
    | Fail e => finsh_vm_run s1 = Fail e
    end.
Proof.
  intros Hin Hne Ht Hl Hb. pose proof (compile_line Hin Ht) as Hc. rewrite decide_True in Hc by done. destruct Hc as (tbl & _ & Ec).
  destruct Hin as (Hr & Hn & Hlt & Hv & Hf). destruct (line_fits es f _ Hr Hn Hlt Hf) as [Hd _].
  set (s1 := compiled (line_code vars es) tbl s) in *. exists s1. split_and!; [done|done|].
  assert (holds_line es s1) as Hh.
  { exists (FINSH_TEXT_MAX - length (line_code vars es))%nat. split; [done|]. simpl text_segment. rewrite length_app, length_replicate. lia. }
  assert (length (finsh_vm_stack s1) = FINSH_STACK_MAX) as Hl1 by (simpl; by rewrite length_insert).
  pose proof (finsh_vm_run_line es s1 Hne Ht Hh Hl1 Hd) as Hrun. change (fmem s1) with (fmem s) in Hrun.
  destruct (eval_line es (fmem s)) as [v m'|e]; [|done]. destruct Hrun as (stk & x & -> & Ev & Hx).
  eexists _, (s32 x). split; [done|]. split; [exact (get_member_at s1 _ _ _ Hx Dword 0 x 1 0 eq_refl eq_refl)|].
  split; [|split; [done|split; [done|split_and!; try done]]].
  - rewrite <-Ev. unfold shows_value. destruct (line_width es); [by apply (member_le _ Dword)..|done].
  - rewrite Hl. exact Hx.
Qed.

(** C24: A well-typed line whose trees fit into the node table and that has at most two
    increments or decrements is compiled into the text segment, and the machine runs its code
    within its stack of 64 words: when the expressions of the line have a meaning it comes to
    the end with exactly one word left on the stack and the memory the expressions leave, and
    it fails only with the fault of an expression. A line whose code is longer than the text
    segment is written past the end of it, which is a fault: the compiler does not check. *)
Theorem compiled_line_fits : line_in_table -> es <> [] -> typed_line vars es -> length (finsh_vm_stack s) = FINSH_STACK_MAX ->
  ((sum_list (steps <$> es) <= 2)%nat ->
     exists s1, finsh_compiler_run (root f) s = Ret 0 s1 /\
       match eval_line es (fmem s) with
       | Ret v m' => exists s2, finsh_vm_run s1 = Ret tt s2 /\ finsh_sp s2 = 1 /\ length (finsh_vm_stack s2) = FINSH_STACK_MAX /\ fmem s2 = m'
       | Fail e => finsh_vm_run s1 = Fail e
       end) /\
  ((FINSH_TEXT_MAX < length (line_code vars es))%nat -> finsh_compiler_run (root f) s = Fail BadPointer).
Proof.
  intros Hin Hne Ht Hst. split.
  - intros Hs. pose proof Hin as (Hr & Hn & Hlt & _ & Hf). destruct (line_fits es f _ Hr Hn Hlt Hf) as [_ Hb].
    destruct (compiled_line_runs Hin Hne Ht Hst ltac:(unfold FINSH_TEXT_MAX, FINSH_NODE_MAX in *; lia)) as (s1 & Ec & _ & Hrun).
    exists s1. split; [done|]. destruct (eval_line es (fmem s)) as [v m'|e]; [|done].
    destruct Hrun as (s2 & b & Er & _ & _ & Hsp & Hm & (_ & _ & _ & _ & Hl)). exists s2. by rewrite Hl.
  - intros Hs. pose proof (compile_line Hin Ht) as Hc. by rewrite decide_False in Hc by lia.
Qed.

End compiled.

End line.
