(* ===== verification/FinshToken.v ===== *)
(** The shell's lexer (components/finsh/finsh_token.c).

    The line is the list of its bytes before the terminating zero; [position] and the
    flags [eof] and [replay] are those of struct finsh_token, [string] is its buffer of
    FINSH_STRING_MAX bytes.  A loop over the characters of the line has the length of
    the line as fuel: every iteration but the last moves on in it. *)

From Stdlib Require Import Ascii String.
From S2P Require Import Prelude Mem Printf Finsh.

Open Scope Z_scope.

(** * Tokens *)

Inductive token_type : Type :=
| tk_none | left_paren | right_paren | comma | semicolon | tk_mul | tk_add | tk_inc | tk_sub | tk_dec | tk_div | tk_mod
| tk_assign | tk_and | tk_or | tk_xor | tk_bitwise | tk_shl | tk_shr | tk_comments
| type_void | type_char | type_short | type_int | type_long | type_unsigned
| value_char | value_int | value_long | value_string | value_null
| identifier | tk_bad | tk_eof.

#[export] Instance token_type_eq_dec : EqDecision token_type.
Proof. solve_decision. Defined.

(** struct finsh_token *)
Record finsh_token : Type := mk_token {
  eof : bool; replay : bool; position : nat; current_token : token_type;
  tvalue : Z; string : list Z; line : list Z }.

(** the lexer also sets the error of the shell *)
Notation T := (M (finsh_token * finsh)) (only parsing).

Definition set_eof b t := mk_token b (replay t) (position t) (current_token t) (tvalue t) (string t) (line t).
Definition set_replay b t := mk_token (eof t) b (position t) (current_token t) (tvalue t) (string t) (line t).
Definition set_position p t := mk_token (eof t) (replay t) p (current_token t) (tvalue t) (string t) (line t).
Definition set_token k t := mk_token (eof t) (replay t) (position t) k (tvalue t) (string t) (line t).
Definition set_tvalue v t := mk_token (eof t) (replay t) (position t) (current_token t) v (string t) (line t).
Definition set_string s t := mk_token (eof t) (replay t) (position t) (current_token t) (tvalue t) s (line t).

Definition tok {A} (m : M finsh_token A) : T A := on_fst m.
Definition shell {A} (m : F A) : T A := on_snd m.
Definition token : T finsh_token := tok get.
Definition update (f : finsh_token -> finsh_token) : T unit := tok (modify f).

Definition finsh_token_init (l : list Z) : T unit :=
  update (fun _ => mk_token false false 0 tk_none 0 (replicate FINSH_STRING_MAX 0) l).

(** * Characters *)

Definition is_digit (c : Z) : bool := (ch "0" <=? c) && (c <=? ch "9").
Definition is_alpha (c : Z) : bool := u32 (Z.lor c 0x20 - ch "a") <? 26.
Definition is_separator (c : Z) : bool :=
  negb (((ch "a" <=? c) && (c <=? ch "z")) || ((ch "A" <=? c) && (c <=? ch "Z")) || ((ch "0" <=? c) && (c <=? ch "9")) || (c =? ch "_")).

Definition token_next_char : T Z :=
  let! t := token in
  if eof t then ret 0
  else
    match line t !! position t with
    | Some c =>
        if c =? 10 then update (fun t => set_position 0 (set_eof true t)) ;! ret 0
        else update (set_position (S (position t))) ;! ret c
    | None => update (fun t => set_position 0 (set_eof true t)) ;! ret 0
    end.

Definition token_prev_char : T unit :=
  update (fun t => if eof t then t else match position t with O => t | S p => set_position p t end).

(** [self->string[i] = c], which the code does not keep inside the buffer *)
Definition put_string (i : nat) (c : Z) : T unit :=
  if (i <? FINSH_STRING_MAX)%nat then update (fun t => set_string (<[i := u8 c]> (string t)) t) else fail BadPointer.

(** fuel for a loop over the rest of the line *)
Definition line_fuel : T nat := let! t := token in ret (S (length (line t))).

(** [while (!is_separator(ch) && !is_eof(self)) { *p++ = ch; ch = token_next_char(self); }] *)
Fixpoint get_string_loop (fuel : nat) (c : Z) (p : nat) : T nat :=
  match fuel with
  | O => fail OutOfFuel
  | S fuel =>
      let! t := token in
      if negb (is_separator c) && negb (eof t) then
        put_string p c ;! let! c := token_next_char in get_string_loop fuel c (S p)
      else ret p
  end.

Definition token_get_string : T Z :=
  let! c := token_next_char in
  let! t := token in
  if eof t then ret (-1)
  else
    put_string 0 0 ;!
    if is_digit c then token_prev_char ;! ret (-1)
    else
      let! fuel := line_fuel in
      let! p := get_string_loop fuel c 0 in
      update (set_eof false) ;!
      token_prev_char ;!
      put_string p 0 ;!
      ret 0.

(** the C string in a buffer *)
Fixpoint c_string (buf : list Z) : option (list Z) :=
  match buf with
  | [] => None
  | c :: buf => if c =? 0 then Some [] else cons c <$> c_string buf
  end.

(** [strncpy(dst, buf, n)] as a string *)
Fixpoint prefix_string (n : nat) (buf : list Z) : list Z :=
  match n, buf with
  | O, _ | _, [] => []
  | S n, c :: buf => if c =? 0 then [] else c :: prefix_string n buf
  end.

Definition finsh_name_table : list (list Z * token_type) :=
  [(text "void", type_void); (text "char", type_char); (text "short", type_short); (text "int", type_int);
   (text "long", type_long); (text "unsigned", type_unsigned); (text "NULL", value_null); (text "null", value_null)].

Definition token_match_name (str : list Z) : T bool :=
  match list_find (fun e => strcmp e.1 str = 0) finsh_name_table with
  | Some (_, e) => update (set_token e.2) ;! ret true
  | None => ret false
  end.

Fixpoint trim_loop (fuel : nat) : T unit :=
  match fuel with
  | O => fail OutOfFuel
  | S fuel =>
      let! c := token_next_char in
      if (c =? ch " ") || (c =? 9) || (c =? 13) then trim_loop fuel else ret tt
  end.

Definition token_trim_space : T unit := let! fuel := line_fuel in trim_loop fuel ;! token_prev_char.

(** * Character constants *)

(** the digits of an escaped number go to a buffer of four bytes, each one place late *)
Fixpoint char_digits (fuel : nat) (c : Z) (p : nat) : T nat :=
  match fuel with
  | O => fail OutOfFuel
  | S fuel =>
      if is_digit c then
        let! c := token_next_char in
        if (p <? 4)%nat then char_digits fuel c (S p) else fail BadPointer
      else ret p
  end.

(** the letters after a backslash that stand for one character *)
Definition char_escape (c : Z) : option Z :=
  if c =? ch "n" then Some 10 else if c =? ch "t" then Some 9 else if c =? ch "v" then Some 11 else if c =? ch "b" then Some 8
  else if c =? ch "r" then Some 13 else if c =? 92 then Some 92 else if c =? 39 then Some 39 else None.

(** [*p = 0; ch = atoi(p)] reads the terminator it has just written *)
Definition token_proc_char : T Z :=
  let! c := token_next_char in
  let! c :=
    (if c =? 92 then
       let! c := token_next_char in
       match char_escape c with
       | Some r => ret r
       | None =>
           let! fuel := line_fuel in
           let! p := char_digits fuel c 0 in
           token_prev_char ;!
           if (p <? 4)%nat then ret 0 else fail BadPointer
       end
     else ret c) in
  let! q := token_next_char in
  if q =? 39 then ret c
  else token_prev_char ;! shell (finsh_error_set FINSH_ERROR_EXPECT_CHAR) ;! ret c.

(** * Strings *)

Fixpoint escape_number (fuel : nat) (base c result : Z) : T Z :=
  match fuel with
  | O => fail OutOfFuel
  | S fuel =>
      if u32 (c - ch "0") <? base then
        let result := s32 (result * base + c - ch "0") in
        let! c := token_next_char in escape_number fuel base c result
      else token_prev_char ;! ret result
  end.

Definition token_proc_escape : T Z :=
  let! c := token_next_char in
  let! fuel := line_fuel in
  if c =? ch "n" then ret 10 else if c =? ch "t" then ret 9 else if c =? ch "v" then ret 11 else if c =? ch "b" then ret 8
  else if c =? ch "r" then ret 13 else if c =? ch "f" then ret 12 else if c =? ch "a" then ret 7
  else if c =? ch "x" then let! c := token_next_char in escape_number fuel 16 c 0
  else if u32 (c - ch "0") <? 8 then escape_number fuel 8 c 0
  else ret 0.

(** [room] counts the bytes from [p] to the end of the buffer *)
Fixpoint string_loop (room p : nat) : T unit :=
  match room with
  | O => ret tt
  | S room =>
      let! c := token_next_char in
      let! t := token in
      if eof t then shell (finsh_error_set FINSH_ERROR_UNEXPECT_END) ;! ret tt
      else if c =? 92 then let! c := token_proc_escape in put_string p c ;! string_loop room (S p)
      else if c =? 34 then put_string p 0
      else put_string p c ;! string_loop room (S p)
  end.

Definition token_proc_string : T unit := string_loop FINSH_STRING_MAX 0.

(** * Numbers *)

Definition digit_value (t : Z) : Z :=
  if (ch "a" <=? t) && (t <=? ch "f") then t - ch "a" + 10
  else if (ch "A" <=? t) && (t <=? ch "F") then t - ch "A" + 10
  else t - ch "0".

Definition base_shift (b : Z) : Z := if b =? 16 then 4 else if b =? 8 then 3 else 1.

(** the two words [bn] take the digits in from the right; the result is the low one *)
Fixpoint spec_loop (shift : Z) (s : list Z) (bn0 bn1 : Z) : Z :=
  match s with
  | [] => bn0
  | c :: s =>
      let t := digit_value c in
      let t1 := Z.shiftr bn0 (32 - shift) in
      spec_loop shift s (Z.lor (u32 (Z.shiftl bn0 shift)) (u32 t)) (Z.lor (u32 (Z.shiftl bn1 shift)) t1)
  end.

Definition token_spec_number (s : list Z) (b : Z) : Z := s32 (spec_loop (base_shift b) s 0 0).

(** the characters that are digits for [digit] go to [buf] (128 bytes); the first other one is left in [ch] *)
Fixpoint number_digits (fuel : nat) (digit : Z -> bool) (c : Z) (buf : list Z) : T (Z * list Z) :=
  match fuel with
  | O => fail OutOfFuel
  | S fuel =>
      if digit c then
        if (length buf <? 128)%nat then let! c' := token_next_char in number_digits fuel digit c' (buf ++ [c]) else fail BadPointer
      else if (length buf <? 128)%nat then ret (c, buf) else fail BadPointer
  end.

Fixpoint decimal_loop (fuel : nat) (c v : Z) : T (Z * Z) :=
  match fuel with
  | O => fail OutOfFuel
  | S fuel =>
      if is_digit c then let! c' := token_next_char in decimal_loop fuel c' (s32 (v * 10 + (c - ch "0")))
      else ret (c, v)
  end.

Definition is_binary (c : Z) : bool := (c =? ch "0") || (c =? ch "1").

Definition token_proc_number : T unit :=
  let! fuel := line_fuel in
  let! c := token_next_char in
  let! r :=
    (if c =? ch "0" then
       let! c := token_next_char in
       let! d := (if (c =? ch "x") || (c =? ch "X") then
                    let! c := token_next_char in
                    let! r := number_digits fuel (fun c => is_digit c || is_alpha c) c [] in ret (r, 16)
                  else if (c =? ch "b") || (c =? ch "B") then
                    let! c := token_next_char in
                    let! r := number_digits fuel is_binary c [] in ret (r, 2)
                  else
                    let! r := number_digits fuel is_digit c [] in ret (r, 8)) in
       ret (d.1.1, token_spec_number d.1.2 d.2)
     else decimal_loop fuel c 0) in
  update (fun t => set_token value_int (set_tvalue (u32 r.2) t)) ;!
  if (r.1 =? ch "l") || (r.1 =? ch "L") then update (set_token value_long) else token_prev_char.

(** * The next token *)

(** an operator of one character, or of two: [c] again after it *)
Definition one_or_two (c : Z) (two one : token_type) : T unit :=
  let! c' := token_next_char in
  if c' =? c then update (set_token two) else token_prev_char ;! update (set_token one).

Definition token_operator (c : Z) : T unit :=
  let one k := update (set_token k) in
  if c =? ch "(" then one left_paren
  else if c =? ch ")" then one right_paren
  else if c =? ch "," then one comma
  else if c =? ch ";" then one semicolon
  else if c =? ch "&" then one tk_and
  else if c =? ch "*" then one tk_mul
  else if c =? ch "+" then one_or_two c tk_inc tk_add
  else if c =? ch "-" then one_or_two c tk_dec tk_sub
  else if c =? ch "/" then one_or_two c tk_eof tk_div
  else if c =? ch "<" then one_or_two c tk_shl tk_bad
  else if c =? ch ">" then one_or_two c tk_shr tk_bad
  else if c =? ch "|" then one tk_or
  else if c =? ch "%" then one tk_mod
  else if c =? ch "~" then one tk_bitwise
  else if c =? ch "^" then one tk_xor
  else if c =? ch "=" then one tk_assign
  else if c =? 39 then
    let! v := token_proc_char in
    update (fun t => set_token value_char (set_tvalue (tvalue t - u8 (tvalue t) + u8 v) t))
  else if c =? 34 then token_proc_string ;! one value_string
  else if is_digit c then token_prev_char ;! token_proc_number
  else shell (finsh_error_set FINSH_ERROR_UNKNOWN_TOKEN) ;! one tk_bad.

Definition token_run : T unit :=
  token_trim_space ;!
  token_get_string ;!
  let! t := token in
  if eof t then update (set_token tk_eof)
  else
    let! first := of_option BadPointer (string t !! 0%nat) in
    if negb (first =? 0) then
      let! str := of_option BadPointer (c_string (string t)) in
      let! known := token_match_name str in
      if known then ret tt else update (set_token identifier)
    else
      let! c := token_next_char in
      token_operator c.

Definition finsh_token_token : T token_type :=
  let! t := token in
  (if replay t then update (set_replay false) else token_run) ;!
  let! t := token in
  ret (current_token t).

Definition finsh_token_replay : T unit := update (set_replay true).

(** finsh_token_get_token *)
Definition finsh_token_get_token : T (list Z) := let! t := token in ret (prefix_string FINSH_NAME_MAX (string t)).
