(* ===== verification/FinshParser.v ===== *)
(** The shell's parser (components/finsh/finsh_parser.c): recursive descent over the
    tokens, building the tree in the node table.

    The functions that call each other in a circle, proc_cast_expr and
    proc_assign_expr, are defined together by recursion on a fuel; the others take as
    arguments the functions they call.  The loops have the same fuel. *)

From S2P Require Import Prelude Mem Printf Finsh FinshHeap FinshToken.

Open Scope Z_scope.

Section parser.
Context `{finsh_image}.

(** * Tokens *)

Definition error (e : Z) : T unit := shell (finsh_error_set e) ;! ret tt.

Definition next_token : T token_type := finsh_token_token.

Definition check_token (token type : token_type) : T unit :=
  if decide (token = type) then ret tt else error FINSH_ERROR_INVALID_TOKEN ;! finsh_token_replay.

Definition match_token (type : token_type) : T unit := let! token := next_token in check_token token type.

Definition is_base_type (token : token_type) : bool :=
  match token with type_void | type_char | type_short | type_int | type_long => true | _ => false end.

(** * make_sys_node *)

Definition make_sys_node (type : Z) (node1 node2 : option nat) : T (option nat) :=
  let! node := shell (finsh_node_allocate type) in
  match node1, node with
  | Some p1, Some p =>
      shell (update_node p (set_child (Some p1))) ;!
      shell (update_node p1 (set_sibling node2)) ;!
      ret node
  | _, _ => error FINSH_ERROR_NULL_NODE ;! ret node
  end.

(** * proc_type, proc_identifier *)

Definition base_type (token : token_type) : Z :=
  match token with
  | type_void => finsh_type_void | type_char => finsh_type_char | type_short => finsh_type_short
  | type_int => finsh_type_int | type_long => finsh_type_long | _ => finsh_type_unknown
  end.
Definition unsigned_type (token : token_type) : option Z :=
  match token with
  | type_char => Some finsh_type_uchar | type_short => Some finsh_type_ushort
  | type_int => Some finsh_type_uint | type_long => Some finsh_type_ulong | _ => None
  end.
Definition pointer_type (type : Z) : Z :=
  if type =? finsh_type_void then finsh_type_voidp
  else if (type =? finsh_type_char) || (type =? finsh_type_uchar) then finsh_type_charp
  else if (type =? finsh_type_short) || (type =? finsh_type_ushort) then finsh_type_shortp
  else if (type =? finsh_type_int) || (type =? finsh_type_uint) then finsh_type_intp
  else if (type =? finsh_type_long) || (type =? finsh_type_ulong) then finsh_type_longp
  else finsh_type_voidp.

(** the label __return *)
Definition type_error (type : Z) : T Z := finsh_token_replay ;! error FINSH_ERROR_UNKNOWN_TYPE ;! ret type.

Definition parse_pointer (type : Z) : T Z :=
  let! token := next_token in
  if decide (token = tk_mul) then ret (pointer_type type) else finsh_token_replay ;! ret type.

Definition proc_type : T Z :=
  let! token := next_token in
  if is_base_type token then parse_pointer (base_type token)
  else if decide (token = type_unsigned) then
    let! token := next_token in
    if is_base_type token then
      match unsigned_type token with
      | Some type => parse_pointer type
      | None => type_error finsh_type_unknown
      end
    else
      finsh_token_replay ;! error FINSH_ERROR_EXPECT_TYPE ;! parse_pointer finsh_type_unknown
  else type_error finsh_type_unknown.

(** [strncpy(id, self->token.string, FINSH_NAME_MAX)]; the last byte of [id], which the code does not
    initialise, is taken to be the terminator *)
Definition proc_identifier : T (list Z) := match_token identifier ;! finsh_token_get_token.

(** * Expressions *)

(** [left op right op right ...]: [node_of] gives the node type of the operators of the level *)
Fixpoint proc_chain (fuel : nat) (operand : T (option nat)) (node_of : token_type -> option Z) (left : option nat) : T (option nat) :=
  match fuel with
  | O => fail OutOfFuel
  | S fuel =>
      let! token := next_token in
      match node_of token with
      | None => finsh_token_replay ;! ret left
      | Some type =>
          let! right := operand in
          match right with
          | None => error FINSH_ERROR_EXPECT_OPERATOR ;! proc_chain fuel operand node_of left
          | Some _ => let! left := make_sys_node type left right in proc_chain fuel operand node_of left
          end
      end
  end.

Definition proc_binary (fuel : nat) (operand : T (option nat)) (node_of : token_type -> option Z) : T (option nat) :=
  let! left := operand in proc_chain fuel operand node_of left.

Definition or_node (t : token_type) : option Z := match t with tk_or => Some FINSH_NODE_SYS_OR | _ => None end.
Definition xor_node (t : token_type) : option Z := match t with tk_xor => Some FINSH_NODE_SYS_XOR | _ => None end.
Definition and_node (t : token_type) : option Z := match t with tk_and => Some FINSH_NODE_SYS_AND | _ => None end.
Definition shift_node (t : token_type) : option Z :=
  match t with tk_shl => Some FINSH_NODE_SYS_SHL | tk_shr => Some FINSH_NODE_SYS_SHR | _ => None end.
Definition additive_node (t : token_type) : option Z :=
  match t with tk_sub => Some FINSH_NODE_SYS_SUB | tk_add => Some FINSH_NODE_SYS_ADD | _ => None end.
Definition multiplicative_node (t : token_type) : option Z :=
  match t with tk_mul => Some FINSH_NODE_SYS_MUL | tk_div => Some FINSH_NODE_SYS_DIV | tk_mod => Some FINSH_NODE_SYS_MOD | _ => None end.

Section levels.
Context (fuel : nat).

Definition proc_multiplicative_expr (proc_cast_expr : T (option nat)) := proc_binary fuel proc_cast_expr multiplicative_node.
Definition proc_additive_expr (proc_cast_expr : T (option nat)) := proc_binary fuel (proc_multiplicative_expr proc_cast_expr) additive_node.
Definition proc_shift_expr (proc_cast_expr : T (option nat)) := proc_binary fuel (proc_additive_expr proc_cast_expr) shift_node.
Definition proc_and_expr (proc_cast_expr : T (option nat)) := proc_binary fuel (proc_shift_expr proc_cast_expr) and_node.
Definition proc_exclusive_or_expr (proc_cast_expr : T (option nat)) := proc_binary fuel (proc_and_expr proc_cast_expr) xor_node.
Definition proc_inclusive_or_expr (proc_cast_expr : T (option nat)) := proc_binary fuel (proc_exclusive_or_expr proc_cast_expr) or_node.

Definition proc_primary_expr (proc_expr : T (option nat)) : T (option nat) :=
  let! token_ := next_token in
  match token_ with
  | identifier => finsh_token_replay ;! let! id := proc_identifier in shell (finsh_node_new_id id)
  | left_paren => let! expr := proc_expr in match_token right_paren ;! ret expr
  | value_int => let! t := token in shell (finsh_node_new_int (tvalue t))
  | value_long => let! t := token in shell (finsh_node_new_long (tvalue t))
  | value_char => let! t := token in shell (finsh_node_new_char (u8 (tvalue t)))
  | value_string => let! t := token in let! cs := of_option BadPointer (c_string (string t)) in shell (finsh_node_new_string cs)
  | value_null => shell (finsh_node_new_ptr 0)
  | _ => error FINSH_ERROR_INVALID_TOKEN ;! ret None
  end.

(** [while (token == comma) { sibling(assign) = proc_assign_expr(self); ... }] *)
Fixpoint param_loop (fuel : nat) (proc_assign_expr : T (option nat)) (assign : nat) : T unit :=
  match fuel with
  | O => fail OutOfFuel
  | S fuel =>
      let! token := next_token in
      if decide (token = comma) then
        let! node := proc_assign_expr in
        shell (update_node assign (set_sibling node)) ;!
        match node with
        | Some node => param_loop fuel proc_assign_expr node
        | None => error FINSH_ERROR_EXPECT_OPERATOR ;! param_loop fuel proc_assign_expr assign
        end
      else finsh_token_replay
  end.

Definition proc_param_list (proc_assign_expr : T (option nat)) : T (option nat) :=
  let! assign := proc_assign_expr in
  match assign with
  | None => ret None
  | Some node => param_loop fuel proc_assign_expr node ;! ret (Some node)
  end.

Fixpoint postfix_loop (n : nat) (proc_assign_expr : T (option nat)) (postfix : option nat) : T (option nat) :=
  match n with
  | O => fail OutOfFuel
  | S n =>
      let! token := next_token in
      match token with
      | tk_inc => let! postfix := make_sys_node FINSH_NODE_SYS_INC postfix None in postfix_loop n proc_assign_expr postfix
      | tk_dec => let! postfix := make_sys_node FINSH_NODE_SYS_DEC postfix None in postfix_loop n proc_assign_expr postfix
      | left_paren =>
          let! token := next_token in
          let! param_list := (if decide (token = right_paren) then ret None
                              else
                                finsh_token_replay ;!
                                let! l := proc_param_list proc_assign_expr in
                                match_token right_paren ;!
                                ret l) in
          let! postfix := make_sys_node FINSH_NODE_SYS_FUNC postfix param_list in
          postfix_loop n proc_assign_expr postfix
      | _ => finsh_token_replay ;! ret postfix
      end
  end.

Definition proc_postfix_expr (proc_assign_expr : T (option nat)) : T (option nat) :=
  let! postfix := proc_primary_expr proc_assign_expr in
  postfix_loop fuel proc_assign_expr postfix.

Definition proc_unary_expr (proc_cast_expr proc_assign_expr : T (option nat)) : T (option nat) :=
  let! token := next_token in
  let unary type := (let! cast := proc_cast_expr in make_sys_node type cast None) in
  match token with
  | tk_add => proc_cast_expr
  | tk_inc => unary FINSH_NODE_SYS_PREINC
  | tk_sub =>
      let! cast := proc_cast_expr in
      let! zero := shell (finsh_node_new_long 0) in
      make_sys_node FINSH_NODE_SYS_SUB zero cast
  | tk_dec => unary FINSH_NODE_SYS_PREDEC
  | tk_bitwise => unary FINSH_NODE_SYS_BITWISE
  | tk_mul => unary FINSH_NODE_SYS_GETVALUE
  | tk_and => unary FINSH_NODE_SYS_GETADDR
  | _ => finsh_token_replay ;! proc_postfix_expr proc_assign_expr
  end.

End levels.

(** the type in parentheses is stored in the node, where the type check overwrites it *)
Fixpoint proc_cast_expr (fuel : nat) : T (option nat) :=
  match fuel with
  | O => fail OutOfFuel
  | S fuel =>
      let rest := finsh_token_replay ;! proc_unary_expr fuel (proc_cast_expr fuel) (proc_assign_expr fuel) in
      let! token := next_token in
      if decide (token = left_paren) then
        let! type := proc_type in
        match_token right_paren ;!
        let! cast := proc_cast_expr fuel in
        match cast with
        | Some p => shell (update_node p (set_data_type (u8 type))) ;! ret cast
        | None => rest
        end
      else rest
  end
with proc_assign_expr (fuel : nat) : T (option nat) :=
  match fuel with
  | O => fail OutOfFuel
  | S fuel =>
      let! or := proc_inclusive_or_expr fuel (proc_cast_expr fuel) in
      let! token := next_token in
      if decide (token = tk_assign) then
        let! assign := proc_assign_expr fuel in
        make_sys_node FINSH_NODE_SYS_ASSIGN or assign
      else finsh_token_replay ;! ret or
  end.

Definition proc_expr (fuel : nat) : T (option nat) := proc_assign_expr fuel.

Definition proc_expr_statement (fuel : nat) : T (option nat) :=
  let! token := next_token in
  if decide (token = semicolon) then ret None
  else
    finsh_token_replay ;!
    let! expr := proc_expr fuel in
    match_token semicolon ;!
    ret expr.

(** * Declarations *)

(** read a name and add it to the table of variables *)
Definition declare (type : Z) : T (list Z) :=
  let! id := proc_identifier in
  let! r := shell (finsh_var_insert id type) in
  (if r <? 0 then error FINSH_ERROR_VARIABLE_EXIST else ret tt) ;!
  ret id.

(** the assignment of a value that has been read to the declared name *)
Definition init_node (id : list Z) (assign : nat) : T (option nat) :=
  let! idnode := shell (finsh_node_new_id id) in
  make_sys_node FINSH_NODE_SYS_ASSIGN idnode (Some assign).

(** [while (token == comma)]; [node] is the first assignment, [last] the last one *)
Fixpoint declare_loop (fuel : nat) (type : Z) (token : token_type) (node last : option nat) : T (option nat) :=
  match fuel with
  | O => fail OutOfFuel
  | S n =>
      if decide (token = comma) then
        let! id := declare type in
        let! token := next_token in
        if decide (token = tk_assign) then
          let! assign := proc_assign_expr n in
          match assign with
          | None => declare_loop n type token node last
          | Some assign =>
              let! new := init_node id assign in
              match node with
              | Some _ =>
                  match last with
                  | None => fail NullDeref
                  | Some l =>
                      shell (update_node l (set_sibling new)) ;!
                      let! token := next_token in
                      declare_loop n type token node new
                  end
              | None => let! token := next_token in declare_loop n type token new new
              end
          end
        else declare_loop n type token node last
      else
        check_token token semicolon ;! ret node
  end.

Definition proc_variable_decl (fuel : nat) : T (option nat) :=
  let! type := proc_type in
  let! id := declare type in
  let! token := next_token in
  match token with
  | comma => declare_loop fuel type comma None None
  | tk_assign =>
      let! assign := proc_assign_expr fuel in
      match assign with
      | None => declare_loop fuel type tk_assign None None
      | Some assign =>
          let! node := init_node id assign in
          let! token := next_token in
          declare_loop fuel type token node node
      end
  | semicolon => ret None
  | _ => error FINSH_ERROR_EXPECT_TYPE ;! ret None
  end.

(** * finsh_parser_run *)

(** a statement: the function for it, and whether it is of the last kind of the switch *)
Definition proc_statement (fuel : nat) (token : token_type) : T (option nat) :=
  if is_base_type token || bool_decide (token = type_unsigned) then proc_variable_decl fuel else proc_expr_statement fuel.

Definition is_other (token : token_type) : bool :=
  negb (bool_decide (token = identifier)) && negb (is_base_type token || bool_decide (token = type_unsigned)).

(** the loop of finsh_parser_run; the result is [self->root] *)
Fixpoint parser_loop (fuel : nat) (token : token_type) (root node : option nat) : T (option nat) :=
  match fuel with
  | O => fail OutOfFuel
  | S n =>
      if bool_decide (token = tk_eof) || bool_decide (token = tk_bad) then ret root
      else
        finsh_token_replay ;!
        let! new := proc_statement n token in
        match root with
        | Some _ =>
            match node with
            | None => fail NullDeref
            | Some l =>
                shell (update_node l (set_sibling new)) ;!
                (if is_other token && bool_decide (new = None) then next_token ;! ret tt else ret tt) ;!
                let! token := next_token in
                parser_loop n token root (match new with Some _ => new | None => node end)
            end
        | None =>
            match new with
            | None => ret None
            | Some _ => let! token := next_token in parser_loop n token new new
            end
        end
  end.

(** [finsh_parser_run(self, string)]; [root] is [self->root] before *)
Definition finsh_parser_run (fuel : nat) (root : option nat) (s : list Z) : T (option nat) :=
  finsh_token_init s ;!
  let! token := next_token in
  parser_loop fuel token root None.

End parser.
