(* ===== verification/FinshRun.v ===== *)
(** The shell on one line (components/finsh/shell.c: finsh_run_line, finsh_init.c). *)

From Stdlib Require Import Ascii String.
From S2P Require Import Prelude Mem Printf Finsh FinshHeap FinshCompiler FinshVm FinshToken FinshParser.

Open Scope Z_scope.

Section shell.
Context `{finsh_image}.

(** ** finsh_init.c: the parser's [root] is the value these return *)

Definition finsh_parser_init : F (option nat) := ret None.

Definition finsh_init : F (option nat) :=
  let! root := finsh_parser_init in
  finsh_node_init ;! finsh_var_init ;! finsh_error_init ;! finsh_heap_init ;! ret root.

Definition finsh_flush : F (option nat) :=
  let! root := finsh_parser_init in
  finsh_node_init ;! finsh_error_init ;! ret root.

Definition finsh_reset : F unit := finsh_node_init ;! finsh_var_init ;! finsh_error_init ;! finsh_heap_init ;! ret tt.

(** ** finsh_run_line *)

(** what is printed: nothing, the text of an error, or the value at the bottom of the stack *)
Inductive shown : Type :=
| Nothing
| Message (s : list Z)
| Shown (v : Z).

Definition finsh_run_line (fuel : nat) (root : option nat) (l : list Z) : T (shown * option nat) :=
  let! root := finsh_parser_run fuel root l in
  let! e := shell finsh_errno in
  let! out := (if e =? FINSH_ERROR_OK then shell (finsh_compiler_run root) ;! ret Nothing
               else let! str := shell (finsh_error_string e) in ret (Message str)) in
  let! e := shell finsh_errno in
  let! out := (if e =? FINSH_ERROR_OK then shell finsh_vm_run ;! let! v := shell finsh_stack_bottom in ret (Shown v) else ret out) in
  let! root := shell finsh_flush in
  ret (out, root).

End shell.
