(* ===== verification/FinshNodes.v ===== *)
(** The node table while a tree is built: what allocation and linking do to the forest
    that has been built so far. *)

From S2P Require Import Prelude Mem Finsh FinshCompiler FinshVm FinshExpr FinshTree FinshFront FinshLine FinshToken FinshParser.

Open Scope Z_scope.

(** * Free nodes *)

(** a free node is as the flush of the table left it *)
Definition tidy (tbl : list finsh_node) : Prop := forall q n, tbl !! q = Some n -> node_type n = FINSH_NODE_UNKNOWN -> n = empty_node.

Definition frees (tbl : list finsh_node) : nat := length (filter (fun n => node_type n = FINSH_NODE_UNKNOWN) tbl).

Lemma frees_take (tbl : list finsh_node) p n : tbl !! p = Some empty_node -> node_type n <> FINSH_NODE_UNKNOWN ->
  S (frees (<[p := n]> tbl)) = frees tbl.
Proof.
  intros Hp Hn. unfold frees. rewrite (insert_take_drop _ _ _ (lookup_lt_Some _ _ _ Hp)).
  rewrite <-(take_drop_middle tbl p empty_node Hp) at 3. rewrite !filter_app, !filter_cons.
  rewrite decide_False by done. rewrite decide_True by done. rewrite !length_app. simpl. lia.
Qed.

Lemma frees_keep (tbl : list finsh_node) p m n : tbl !! p = Some m -> node_type m <> FINSH_NODE_UNKNOWN -> node_type n <> FINSH_NODE_UNKNOWN ->
  frees (<[p := n]> tbl) = frees tbl.
Proof.
  intros Hp Hm Hn. unfold frees. rewrite (insert_take_drop _ _ _ (lookup_lt_Some _ _ _ Hp)).
  rewrite <-(take_drop_middle tbl p m Hp) at 3. rewrite !filter_app, !filter_cons.
  rewrite !decide_False by done. done.
Qed.

Lemma find_free (tbl : list finsh_node) : tidy tbl -> (0 < frees tbl)%nat ->
  exists p, list_find (fun n => node_type n = FINSH_NODE_UNKNOWN) tbl = Some (p, empty_node) /\ tbl !! p = Some empty_node.
Proof.
  intros Ht Hf. destruct (list_find (fun n => node_type n = FINSH_NODE_UNKNOWN) tbl) as [[p n]|] eqn:E.
  - apply list_find_Some in E as E'. destruct E' as (Hp & Hn & _). pose proof (Ht _ _ Hp Hn) as ->. by exists p.
  - apply list_find_None in E. exfalso. unfold frees in Hf.
    assert (filter (fun n => node_type n = FINSH_NODE_UNKNOWN) tbl = []) as E0; [|rewrite E0 in Hf; simpl in Hf; lia].
    clear Hf Ht. induction E as [|n tbl Hn _ IH]; [done|]. rewrite filter_cons, decide_False by done. done.
Qed.

(** * Growing forests *)

(** [f] has been built in free nodes of [tbl], which makes it [tbl'] *)
Record grows (tbl tbl' : list finsh_node) (f : forest) : Prop := {
  grows_rep : represents tbl' f;
  grows_nodup : NoDup (pointers f);
  grows_fresh : forall q, q ∈ pointers f -> tbl !! q = Some empty_node;
  grows_used : forall q n, q ∈ pointers f -> tbl' !! q = Some n -> node_type n <> FINSH_NODE_UNKNOWN;
  grows_other : forall q, q ∉ pointers f -> tbl' !! q = tbl !! q;
  grows_length : length tbl' = length tbl;
  grows_frees : (frees tbl' + size f)%nat = frees tbl;
  grows_tidy : tidy tbl' }.

(** two trees as siblings *)
Definition attach (f g : forest) : forest :=
  match f with FNil => FNil | FNode p n c _ => FNode p (set_sibling (root g) n) c g end.

Lemma tidy_insert tbl p n : tidy tbl -> node_type n <> FINSH_NODE_UNKNOWN -> tidy (<[p := n]> tbl).
Proof. intros Ht Hn q m. rewrite list_lookup_insert_Some. naive_solver. Qed.

Lemma grows_leaf tbl p n : tidy tbl -> tbl !! p = Some empty_node -> node_type n <> FINSH_NODE_UNKNOWN -> child n = None -> sibling n = None ->
  grows tbl (<[p := n]> tbl) (FNode p n FNil FNil).
Proof.
  intros Ht Hp Hn Hc Hs. pose proof (lookup_lt_Some _ _ _ Hp). split; simpl.
  - by rewrite list_lookup_insert_eq.
  - apply NoDup_singleton.
  - intros q Hq. apply list_elem_of_singleton in Hq as ->. done.
  - intros q m Hq. apply list_elem_of_singleton in Hq as ->. rewrite list_lookup_insert_eq by done. by intros [= <-].
  - intros q Hq. apply list_lookup_insert_ne. set_solver.
  - apply length_insert.
  - rewrite <-(frees_take tbl p n) by done. unfold size. simpl. lia.
  - by apply tidy_insert.
Qed.

(** what was built stays when something else is built after it *)
Lemma grows_disjoint tbl t1 t2 f g : grows tbl t1 f -> grows t1 t2 g -> forall q, q ∈ pointers f -> q ∉ pointers g.
Proof. intros Hf Hg q Hq Hq'. apply (grows_fresh _ _ _ Hg) in Hq'. by apply (grows_used _ _ _ Hf) in Hq'. Qed.

Lemma grows_attach tbl t1 t2 p n c g : grows tbl t1 (FNode p n c FNil) -> grows t1 t2 g ->
  grows tbl (<[p := set_sibling (root g) n]> t2) (FNode p (set_sibling (root g) n) c g).
Proof.
  intros Hf Hg. pose proof (grows_disjoint _ _ _ _ _ Hf Hg) as Hd. simpl in Hd.
  destruct Hf as [(Rp & Rc & Rs & Rk & _) Fn Ff Fu Fo Fl Ff2 Ft]. destruct Hg as [Gr Gn Gf Gu Go Gl Gf2 Gt]. simpl in Fn, Ff, Fu, Fo, Ff2.
  assert (Hpg : p ∉ pointers g) by (apply Hd; set_solver).
  assert (Hp2 : t2 !! p = Some n) by (rewrite Go by done; done). pose proof (lookup_lt_Some _ _ _ Hp2).
  assert (Hn : node_type n <> FINSH_NODE_UNKNOWN) by (apply (Fu p n); [set_solver|done]).
  rewrite app_nil_r in *. apply NoDup_cons in Fn as [Hpc Fn]. split; simpl.
  - rewrite list_lookup_insert_eq by done. split_and!; [done|done|done| |].
    + eapply represents_ext; [|exact Rk]. intros q Hq. rewrite list_lookup_insert_ne by set_solver. apply Go. apply Hd. set_solver.
    + eapply represents_ext; [|exact Gr]. intros q Hq. apply list_lookup_insert_ne. set_solver.
  - apply NoDup_cons. split; [set_solver|]. apply NoDup_app. split_and!; [done| |done]. intros q Hq. apply Hd. set_solver.
  - intros q Hq. apply elem_of_cons in Hq as [->|Hq]; [apply Ff; set_solver|]. apply elem_of_app in Hq as [Hq|Hq]; [apply Ff; set_solver|].
    rewrite <-Fo; [by apply Gf|]. intros Hq'. apply (Hd q); set_solver.
  - intros q m Hq. destruct (decide (q = p)) as [->|Hne]; [rewrite list_lookup_insert_eq by done; by intros [= <-]|].
    rewrite list_lookup_insert_ne by done. apply elem_of_cons in Hq as [->|Hq]; [done|]. apply elem_of_app in Hq as [Hq|Hq].
    + rewrite Go by (apply Hd; set_solver). apply Fu. set_solver.
    + by apply Gu.
  - intros q Hq. rewrite list_lookup_insert_ne by set_solver. rewrite Go by set_solver. apply Fo. set_solver.
  - by rewrite length_insert, Gl.
  - rewrite (frees_keep _ _ n) by done. rewrite size_node. rewrite size_node in Ff2. change (size FNil) with O in Ff2. lia.
  - by apply tidy_insert.
Qed.

Lemma grows_wrap tbl t f p n : grows tbl t f -> t !! p = Some empty_node -> node_type n <> FINSH_NODE_UNKNOWN ->
  child n = root f -> sibling n = None -> grows tbl (<[p := n]> t) (FNode p n f FNil).
Proof.
  intros [Rf Fn Ff Fu Fo Fl Ff2 Ft] Hp Hn Hc Hs. pose proof (lookup_lt_Some _ _ _ Hp).
  assert (Hpf : p ∉ pointers f) by (intros Hq; by eapply Fu).
  split; simpl; rewrite ?app_nil_r.
  - rewrite list_lookup_insert_eq by done. split_and!; try done. eapply represents_ext; [|exact Rf]. intros q Hq. apply list_lookup_insert_ne. set_solver.
  - by apply NoDup_cons.
  - intros q Hq. apply elem_of_cons in Hq as [->|Hq]; [by rewrite <-Fo|by apply Ff].
  - intros q m Hq. destruct (decide (q = p)) as [->|Hne]; [rewrite list_lookup_insert_eq by done; by intros [= <-]|].
    rewrite list_lookup_insert_ne by done. apply Fu. set_solver.
  - intros q Hq. rewrite list_lookup_insert_ne by set_solver. apply Fo. set_solver.
  - by rewrite length_insert.
  - pose proof (frees_take t p n Hp Hn). rewrite size_node. change (size FNil) with O. lia.
  - by apply tidy_insert.
Qed.

(** a node outside of the forest does not matter *)
Lemma grows_frame A B g p x n : grows A B g -> A !! p = Some x -> p ∉ pointers g -> node_type n <> FINSH_NODE_UNKNOWN ->
  grows (<[p := n]> A) (<[p := n]> B) g.
Proof.
  intros [Gr Gn Gf Gu Go Gl Gf2 Gt] Hp Hpg Hn. assert (B !! p = Some x) as Hpb by (by rewrite Go).
  pose proof (lookup_lt_Some _ _ _ Hp). split.
  - eapply represents_ext; [|exact Gr]. intros q Hq. apply list_lookup_insert_ne. set_solver.
  - done.
  - intros q Hq. rewrite list_lookup_insert_ne by set_solver. by apply Gf.
  - intros q m Hq. rewrite list_lookup_insert_ne by set_solver. by apply Gu.
  - intros q Hq. destruct (decide (p = q)) as [->|Hne]; [by rewrite !list_lookup_insert_eq by lia|].
    rewrite !list_lookup_insert_ne by done. by apply Go.
  - by rewrite !length_insert.
  - destruct (decide (node_type x = FINSH_NODE_UNKNOWN)) as [Hx|Hx].
    + pose proof (Gt _ _ Hpb Hx) as ->. pose proof (frees_take A p n Hp Hn). pose proof (frees_take B p n Hpb Hn). lia.
    + rewrite !(frees_keep _ _ x) by done. done.
  - by apply tidy_insert.
Qed.

(** * The operations *)

Section operations.
Context `{finsh_image}.

Lemma finsh_node_allocate_spec type s : 0 < type < 256 -> tidy (global_node_table s) -> (0 < frees (global_node_table s))%nat ->
  exists p, global_node_table s !! p = Some empty_node /\
    finsh_node_allocate type s = Ret (Some p) (set_nodes (<[p := set_node_type type empty_node]> (global_node_table s)) s).
Proof.
  intros Ht Hty Hf. destruct (find_free _ Hty Hf) as (p & E & Hp). exists p. split; [done|].
  unfold finsh_node_allocate. unfold bind at 1, get. cbv beta iota. rewrite E. unfold bind.
  rewrite (update_node_Ret p empty_node) by done. unfold ret. by rewrite u8_small by lia.
Qed.

Lemma new_node_spec type (g : finsh_node -> finsh_node) s : 0 < type < 256 -> tidy (global_node_table s) -> (0 < frees (global_node_table s))%nat ->
  exists p, global_node_table s !! p = Some empty_node /\
    new_node type (fun p => update_node p g) s = Ret (Some p) (set_nodes (<[p := g (set_node_type type empty_node)]> (global_node_table s)) s).
Proof.
  intros Ht Hty Hf. destruct (finsh_node_allocate_spec type s Ht Hty Hf) as (p & Hp & E). exists p. split; [done|].
  unfold new_node. rewrite (bind_Ret _ _ _ _ _ E). unfold bind. pose proof (lookup_lt_Some _ _ _ Hp).
  rewrite (update_node_Ret p (set_node_type type empty_node)) by (simpl; by rewrite list_lookup_insert_eq).
  unfold ret. simpl. by rewrite list_insert_insert_eq.
Qed.

(** the state of the shell with another table *)
Lemma shell_Ret {A} (m : F A) t s a s' : m s = Ret a s' -> shell m (t, s) = Ret a (t, s').
Proof. intros E. unfold shell, on_snd. simpl. by rewrite E. Qed.

Definition op_node (type : Z) (c : option nat) : finsh_node := set_child c (set_node_type type empty_node).

Lemma grows_nil tbl : tidy tbl -> grows tbl tbl FNil.
Proof. intros Ht. split; [done|apply NoDup_nil_2|by intros q ?%elem_of_nil|by intros q n ?%elem_of_nil|done|done| |done]. apply Nat.add_0_r. Qed.

Lemma make_sys_node_spec type tbl t1 p1 n1 c1 g t s : 0 < type < 256 -> grows tbl t1 (FNode p1 n1 c1 FNil) ->
  grows t1 (global_node_table s) g -> (0 < frees (global_node_table s))%nat ->
  exists p tbl', make_sys_node type (Some p1) (root g) (t, s) = Ret (Some p) (t, set_nodes tbl' s) /\
    grows tbl tbl' (FNode p (op_node type (Some p1)) (attach (FNode p1 n1 c1 FNil) g) FNil).
Proof.
  intros Ht Hf Hg Hfr. destruct (finsh_node_allocate_spec type s Ht (grows_tidy _ _ _ Hg) Hfr) as (p & Hp & E).
  assert (global_node_table s !! p1 = Some n1) as Hp1.
  { rewrite (grows_other _ _ _ Hg); [apply (grows_rep _ _ _ Hf)|]. apply (grows_disjoint _ _ _ _ _ Hf Hg). simpl. set_solver. }
  assert (node_type n1 <> FINSH_NODE_UNKNOWN) as Hn1.
  { apply (grows_used _ _ _ Hf p1); [simpl; set_solver|apply (grows_rep _ _ _ Hf)]. }
  assert (p <> p1) as Hne by (intros ->; rewrite Hp in Hp1; injection Hp1 as <-; by apply Hn1). pose proof (lookup_lt_Some _ _ _ Hp). pose proof (lookup_lt_Some _ _ _ Hp1).
  exists p, (<[p := op_node type (Some p1)]> (<[p1 := set_sibling (root g) n1]> (global_node_table s))). split.
  - set (s1 := set_nodes (<[p := set_node_type type empty_node]> (global_node_table s)) s) in *.
    assert (update_node p (set_child (Some p1)) s1 = Ret tt (set_nodes (<[p := op_node type (Some p1)]> (global_node_table s)) s)) as E1.
    { rewrite (update_node_Ret p (set_node_type type empty_node)) by by apply list_lookup_insert_eq. simpl. by rewrite list_insert_insert_eq. }
    set (s2 := set_nodes (<[p := op_node type (Some p1)]> (global_node_table s)) s) in *.
    assert (global_node_table s2 !! p1 = Some n1) as Hp2 by (unfold s2; cbn [global_node_table set_nodes]; by rewrite list_lookup_insert_ne).
    unfold make_sys_node. rewrite (bind_Ret _ _ _ _ _ (shell_Ret _ t _ _ _ E)), (bind_Ret _ _ _ _ _ (shell_Ret _ t _ _ _ E1)).
    rewrite (bind_Ret _ _ _ _ _ (shell_Ret _ t _ _ _ (update_node_Ret p1 n1 _ _ Hp2))).
    unfold ret, s2. cbn [global_node_table set_nodes]. by rewrite list_insert_insert_ne by congruence.
  - apply grows_wrap; [by eapply grows_attach|by rewrite list_lookup_insert_ne|unfold FINSH_NODE_UNKNOWN; simpl; lia|done|done].
Qed.

End operations.
