(* ===== verification/FinshParse.v ===== *)
(** The parser builds the tree of the expression that the tokens spell.

    [prints l e ts] is the grammar of the comments of finsh_parser.c: at level [l] (0
    assignment, 1 to 6 the binary operators from '|' to '*', 7 the unary operators, 8
    the postfix ones) the tokens [ts] are the expression [e]; binary operators
    associate to the left.  Parentheses around an expression are not in it: the parser
    takes them for a cast (see [FinshScenarios]). *)

From S2P Require Import Prelude Mem Printf Finsh FinshHeap FinshCompiler FinshVm FinshExpr FinshTree FinshFront FinshLine FinshToken FinshParser FinshNodes.

Open Scope Z_scope.

(** * Lexemes *)

Inductive lexeme : Type :=
| LTok (k : token_type)
| LInt (v : Z)
| LLong (v : Z)
| LChar (c : Z)
| LId (name : list Z).

Definition kind (x : lexeme) : token_type :=
  match x with LTok k => k | LInt _ => value_int | LLong _ => value_long | LChar _ => value_char | LId _ => identifier end.

(** the lexer has just read the lexeme *)
Definition holds (x : lexeme) (t : finsh_token) : Prop :=
  current_token t = kind x /\
  match x with
  | LTok _ => True
  | LInt v | LLong v => tvalue t = u32 v
  | LChar c => u8 (tvalue t) = u8 c
  | LId name => prefix_string FINSH_NAME_MAX (string t) = name
  end.

(** the lexer reads it next, without an error *)
Definition reads (x : lexeme) (t t' : finsh_token) : Prop :=
  replay t = false /\ (forall s, token_run (t, s) = Ret tt (t', s)) /\ holds x t' /\ replay t' = false.

Fixpoint stream (t : finsh_token) (xs : list lexeme) : Prop :=
  match xs with [] => True | x :: xs => exists t', reads x t t' /\ stream t' xs end.

(** the next tokens the parser gets *)
Definition ready (t : finsh_token) (xs : list lexeme) : Prop :=
  if replay t then match xs with x :: xs => holds x t /\ stream (set_replay false t) xs | [] => False end
  else stream t xs.

Lemma set_replay_idem t : replay t = false -> set_replay false (set_replay true t) = t.
Proof. intros E. destruct t. simpl in E. by subst. Qed.

Lemma tok_Ret {A} (m : M finsh_token A) t s a t' : m t = Ret a t' -> tok m (t, s) = Ret a (t', s).
Proof. intros E. unfold tok, on_fst. simpl. by rewrite E. Qed.

Lemma next_token_spec t x xs : ready t (x :: xs) ->
  exists t', (forall s, next_token (t, s) = Ret (kind x) (t', s)) /\ holds x t' /\ replay t' = false /\ stream t' xs.
Proof.
  unfold ready, next_token, finsh_token_token. destruct (replay t) eqn:E.
  - intros [Hh Hs]. exists (set_replay false t). split_and!; [|done|done|done]. intros s. unfold bind, token, tok, on_fst, get, update. simpl.
    rewrite E. unfold tok, on_fst, modify. simpl. destruct Hh as [-> _]. done.
  - intros (t' & (_ & Hr & Hh & Hr') & Hs). exists t'. split_and!; try done. intros s. unfold bind, token, tok, on_fst, get. simpl.
    rewrite E, Hr. simpl. destruct Hh as [-> _]. done.
Qed.

Lemma ready_stream t xs : replay t = false -> stream t xs -> ready t xs.
Proof. unfold ready. by intros ->. Qed.

(** after a replay the token is read again *)
Lemma ready_replay t x xs : replay t = false -> holds x t -> stream t xs -> ready (set_replay true t) (x :: xs).
Proof. intros E Hh Hs. unfold ready. simpl. split; [done|]. by rewrite set_replay_idem. Qed.

Lemma finsh_token_replay_Ret t s : finsh_token_replay (t, s) = Ret tt (set_replay true t, s).
Proof. done. Qed.

(** * The grammar *)

Definition binop_token (o : binop) : token_type :=
  match o with
  | Add => tk_add | Sub => tk_sub | Mul => tk_mul | Div => tk_div | Mod => tk_mod
  | And => tk_and | Or => tk_or | Xor => tk_xor | Shl => tk_shl | Shr => tk_shr
  end.

Definition binop_level (o : binop) : nat :=
  match o with Or => 1 | Xor => 2 | And => 3 | Shl | Shr => 4 | Add | Sub => 5 | Mul | Div | Mod => 6 end.

(** the level of the operator that a token can be after an expression *)
Definition binds (k : token_type) : option nat :=
  match k with
  | tk_assign => Some 0%nat
  | tk_or => Some 1%nat | tk_xor => Some 2%nat | tk_and => Some 3%nat | tk_shl | tk_shr => Some 4%nat
  | tk_add | tk_sub => Some 5%nat | tk_mul | tk_div | tk_mod => Some 6%nat
  | tk_inc | tk_dec | left_paren => Some 8%nat
  | _ => None
  end.

(** what may follow an expression of a level *)
Definition follows (l : nat) (rest : list lexeme) : Prop :=
  match rest with
  | [] => False
  | x :: _ => match binds (kind x) with Some k => (k < l)%nat | None => True end
  end.

Lemma follows_le l l' rest : follows l rest -> (l <= l')%nat -> follows l' rest.
Proof. unfold follows. destruct rest; [done|]. destruct (binds _); [lia|done]. Qed.

Section grammar.
Context `{finsh_image}.
Context (vars : list finsh_var) (sysvars : list finsh_sysvar) (syscalls : list finsh_syscall).

(** what a name stands for *)
Definition symbol (name : list Z) : option (finsh_id * Z) :=
  match find_variable name vars 0 with
  | Some i => Some (id_var i, FINSH_IDTYPE_VAR)
  | None =>
      match find_symbol sysvar_name sysvar_table sysvars name with
      | Some x => Some (id_sysvar x, FINSH_IDTYPE_SYSVAR)
      | None =>
          match find_symbol syscall_name syscall_table syscalls name with
          | Some f => Some (id_syscall f, FINSH_IDTYPE_SYSCALL)
          | None => None
          end
      end
  end.

Definition names_place (name : list Z) (x : place) : Prop := symbol name = Some (place_id x, place_flag x).

Inductive prints : nat -> expr -> list lexeme -> Prop :=
| pr_up l e ts : prints (S l) e ts -> (l < 8)%nat -> prints l e ts
| pr_bin o a b ts us : prints (binop_level o) a ts -> prints (S (binop_level o)) b us ->
    prints (binop_level o) (Bin o a b) (ts ++ LTok (binop_token o) :: us)
| pr_assign x name a ts : names_place name x -> prints 0 a ts -> prints 0 (Assign x a) (LId name :: LTok tk_assign :: ts)
| pr_assign_at a b ts us : prints 7 a ts -> prints 0 b us -> prints 0 (AssignAt a b) ((LTok tk_mul :: ts) ++ LTok tk_assign :: us)
| pr_plus a ts : prints 7 a ts -> prints 7 a (LTok tk_add :: ts)
| pr_neg a ts : prints 7 a ts -> prints 7 (Bin Sub (Const 0) a) (LTok tk_sub :: ts)
| pr_not a ts : prints 7 a ts -> prints 7 (Not a) (LTok tk_bitwise :: ts)
| pr_deref a ts : prints 7 a ts -> prints 7 (Deref a) (LTok tk_mul :: ts)
| pr_addr x name : names_place name x -> prints 7 (Addr x) [LTok tk_and; LId name]
| pr_pre (up : bool) i name : names_place name (PVar i) -> prints 7 (Pre up i) [LTok (if up then tk_inc else tk_dec); LId name]
| pr_post (up : bool) i name : names_place name (PVar i) -> prints 8 (Post up i) [LId name; LTok (if up then tk_inc else tk_dec)]
| pr_call f name es ts : symbol name = Some (id_syscall f, FINSH_IDTYPE_SYSCALL) -> prints_args es ts ->
    prints 8 (Call f es) (LId name :: LTok left_paren :: ts ++ [LTok right_paren])
| pr_load x name : names_place name x -> prints 8 (Load x) [LId name]
| pr_int v : prints 8 (Const v) [LInt v]
| pr_long v : prints 8 (Const v) [LLong v]
| pr_null : prints 8 (Const 0) [LTok value_null]
| pr_char c : prints 8 (Char c) [LChar c]
with prints_args : exprs -> list lexeme -> Prop :=
| pa_nil : prints_args Nil []
| pa_cons a es ts us : prints 0 a ts -> prints_more es us -> prints_args (Cons a es) (ts ++ us)
with prints_more : exprs -> list lexeme -> Prop :=
| pm_nil : prints_more Nil []
| pm_cons a es ts us : prints 0 a ts -> prints_more es us -> prints_more (Cons a es) (LTok comma :: ts ++ us).

Scheme prints_mut := Minimality for prints Sort Prop
  with prints_args_mut := Minimality for prints_args Sort Prop
  with prints_more_mut := Minimality for prints_more Sort Prop.
Combined Scheme prints_ind3 from prints_mut, prints_args_mut, prints_more_mut.

(** * What the parser does *)

Definition shell_ok (s : finsh) : Prop :=
  tidy (global_node_table s) /\ global_variable s = vars /\ global_sysvar_list s = sysvars /\ global_syscall_list s = syscalls.

Definition level_node (l : nat) : token_type -> option Z :=
  match l with
  | 1 => or_node | 2 => xor_node | 3 => and_node | 4 => shift_node | 5 => additive_node | _ => multiplicative_node
  end%nat.

(** the function for a level; [f] is the fuel of the casts below it *)
Fixpoint proc_at_binary (k f : nat) : T (option nat) :=
  match k with
  | O => proc_cast_expr f
  | S k => proc_binary f (proc_at_binary k f) (level_node (7 - S k))
  end.

Definition proc_at (l f : nat) : T (option nat) :=
  match l with
  | O => proc_assign_expr (S f)
  | 8%nat => match f with O => fail OutOfFuel | S f => proc_postfix_expr f (proc_assign_expr f) end
  | _ => proc_at_binary (7 - l) f
  end.

Lemma proc_at_7 f : proc_at 7 f = proc_cast_expr f.
Proof. done. Qed.

Lemma proc_at_binary_level l f : (1 <= l <= 6)%nat -> proc_at l f = proc_binary f (proc_at (S l) f) (level_node l).
Proof. intros Hl. destruct l as [|[|[|[|[|[|[|l]]]]]]]; try lia; done. Qed.

Lemma proc_inclusive_or_at f : proc_inclusive_or_expr f (proc_cast_expr f) = proc_at 1 f.
Proof. done. Qed.

Lemma level_node_op o : level_node (binop_level o) (binop_token o) = Some (binop_node o).
Proof. by destruct o. Qed.

Lemma level_node_other l k : (1 <= l <= 6)%nat -> match binds k with Some j => (j < l)%nat | None => True end \/ binds k = Some 8%nat -> level_node l k = None.
Proof. intros Hl Hk. destruct l as [|[|[|[|[|[|[|l]]]]]]]; try lia; destruct k; simpl in *; try done; destruct Hk; try lia; done. Qed.

(** the tree of an expression has been built from [s] on, with a result, and the tokens of it are read *)
Definition built (e : expr) (s : finsh) (p : nat) (tbl : list finsh_node) : Prop :=
  exists n c, grows (global_node_table s) tbl (FNode p n c FNil) /\ is_expr e (FNode p n c FNil).

Definition gives (e : expr) (rest : list lexeme) (s : finsh) (r : outcome (finsh_token * finsh) (option nat)) : Prop :=
  exists p tbl t, r = Ret (Some p) (t, set_nodes tbl s) /\ ready t rest /\ built e s p tbl.

(** enough fuel and enough free nodes *)
Definition room_for (e : expr) (ts : list lexeme) (f : nat) (s : finsh) : Prop :=
  (length ts < f)%nat /\ (nodes e <= frees (global_node_table s))%nat /\ shell_ok s.

Definition parses (l : nat) (e : expr) (ts : list lexeme) : Prop :=
  forall f t s rest, room_for e ts f s -> ready t (ts ++ rest) -> follows l rest -> gives e rest s (proc_at l f (t, s)).

(** at a binary level: the parser is in the loop, with the expression on its left *)
Definition reduces (l : nat) (e : expr) (ts : list lexeme) : Prop :=
  forall f t s rest, room_for e ts f s -> ready t (ts ++ rest) -> follows (S l) rest ->
  exists p tbl t' k, proc_at l f (t, s) = proc_chain k (proc_at (S l) f) (level_node l) (Some p) (t', set_nodes tbl s) /\
    ready t' rest /\ built e s p tbl /\ (f <= k + length ts)%nat.

Lemma is_expr_sibling e p n c r g : is_expr e (FNode p n c FNil) -> is_expr e (FNode p (set_sibling r n) c g).
Proof. by destruct e. Qed.

Lemma shell_ok_nodes s tbl : shell_ok s -> tidy tbl -> shell_ok (set_nodes tbl s).
Proof. intros (_ & Hv & Hsv & Hsc) Ht. done. Qed.

Lemma built_ok e s p tbl : shell_ok s -> built e s p tbl -> shell_ok (set_nodes tbl s).
Proof. intros Hs (n & c & Hg & _). apply shell_ok_nodes; [done|]. apply (grows_tidy _ _ _ Hg). Qed.

Lemma built_size e s p tbl : built e s p tbl -> (frees tbl + nodes e = frees (global_node_table s))%nat.
Proof. intros (n & c & Hg & He). pose proof (grows_frees _ _ _ Hg). rewrite (proj1 expr_size _ _ He) in H0. change (size (next _)) with O in H0. lia. Qed.

(** ** Nodes on top of what has been built *)

(** one operand *)
Lemma make_unary type e e' s p tbl t : 0 < type < 256 -> built e s p tbl -> (0 < frees tbl)%nat ->
  (forall q n c, is_expr e (FNode p n c FNil) -> is_expr e' (FNode q (op_node type (Some p)) (FNode p (set_sibling None n) c FNil) FNil)) ->
  exists q tbl', make_sys_node type (Some p) None (t, set_nodes tbl s) = Ret (Some q) (t, set_nodes tbl' s) /\ built e' s q tbl'.
Proof.
  intros Ht (n & c & Hg & He) Hf Hi.
  destruct (make_sys_node_spec type _ _ _ _ _ FNil t (set_nodes tbl s) Ht Hg (grows_nil _ (grows_tidy _ _ _ Hg)) Hf) as (q & tbl' & E & Hq).
  exists q, tbl'. split; [exact E|]. eexists _, _. split; [exact Hq|]. by apply Hi.
Qed.

(** two operands *)
Lemma make_binary type a b e s p tbl q tbl2 t : 0 < type < 256 -> built a s p tbl -> built b (set_nodes tbl s) q tbl2 -> (0 < frees tbl2)%nat ->
  (forall r n c m d, is_expr a (FNode p n c FNil) -> is_expr b (FNode q m d FNil) ->
     is_expr e (FNode r (op_node type (Some p)) (FNode p (set_sibling (Some q) n) c (FNode q m d FNil)) FNil)) ->
  exists r tbl', make_sys_node type (Some p) (Some q) (t, set_nodes tbl2 s) = Ret (Some r) (t, set_nodes tbl' s) /\ built e s r tbl'.
Proof.
  intros Ht (n & c & Hg & Ha) (m & d & Hh & Hb) Hf Hi.
  destruct (make_sys_node_spec type _ _ _ _ _ _ t (set_nodes tbl2 s) Ht Hg Hh Hf) as (r & tbl' & E & Hq).
  exists r, tbl'. split; [exact E|]. eexists _, _. split; [exact Hq|]. by apply Hi.
Qed.

Lemma make_bin o a b s p tbl q tbl2 t : built a s p tbl -> built b (set_nodes tbl s) q tbl2 -> (0 < frees tbl2)%nat ->
  exists r tbl', make_sys_node (binop_node o) (Some p) (Some q) (t, set_nodes tbl2 s) = Ret (Some r) (t, set_nodes tbl' s) /\
    built (Bin o a b) s r tbl'.
Proof.
  intros Ha Hb Hf. eapply make_binary; [by destruct o|done..|].
  intros r n c m d Xa Xb. cbn [is_expr kids next]. split; [done|]. split; [by apply is_expr_sibling|done].
Qed.

(** ** The binary levels *)

Lemma reduces_up l e ts : (1 <= l <= 6)%nat -> parses (S l) e ts -> reduces l e ts.
Proof.
  intros Hl Hp f t s rest Hroom Hr Hf. destruct (Hp f t s rest Hroom Hr Hf) as (p & tbl & t' & E & Hr' & Hb).
  exists p, tbl, t', f. split_and!; [|done|done|lia]. rewrite proc_at_binary_level by done. unfold proc_binary. by rewrite (bind_Ret _ _ _ _ _ E).
Qed.

Lemma reduces_bin o a b ts us : reduces (binop_level o) a ts -> parses (S (binop_level o)) b us ->
  reduces (binop_level o) (Bin o a b) (ts ++ LTok (binop_token o) :: us).
Proof.
  intros Ha Hb f t s rest (Hf & Hn & Hs) Hr Hfo. rewrite length_app in Hf. simpl in Hf, Hn. rewrite <-(assoc_L (++)) in Hr.
  destruct (Ha f t s (LTok (binop_token o) :: us ++ rest)) as (p & tbl & t1 & k & E & Hr1 & B1 & Hk).
  { split_and!; [lia|lia|done]. }
  { done. }
  { unfold follows. by destruct o; simpl; lia. }
  destruct k as [|k]; [lia|]. rewrite E. simpl proc_chain. clear E.
  destruct (next_token_spec _ _ _ Hr1) as (t2 & E2 & Hh2 & R2 & S2). rewrite (bind_Ret _ _ _ _ _ (E2 _)).
  cbn [kind]. rewrite level_node_op. pose proof (built_size _ _ _ _ B1) as Z1.
  destruct (Hb f t2 (set_nodes tbl s) rest) as (q & tbl2 & t3 & E3 & Hr3 & B2).
  { split_and!; [lia|simpl; lia|by eapply built_ok]. }
  { by apply ready_stream. }
  { done. }
  rewrite (bind_Ret _ _ _ _ _ E3). change (set_nodes tbl2 (set_nodes tbl s)) with (set_nodes tbl2 s).
  pose proof (built_size _ _ _ _ B2) as Z2. cbn [global_node_table set_nodes] in Z2.
  destruct (make_bin o a b s p tbl q tbl2 t3 B1 B2 ltac:(lia)) as (r & tbl3 & E4 & B3). rewrite (bind_Ret _ _ _ _ _ E4).
  exists r, tbl3, t3, k. split_and!; [done|done|done|]. rewrite length_app. simpl. lia.
Qed.

Lemma reduces_parses l e ts : (1 <= l <= 6)%nat -> reduces l e ts -> parses l e ts.
Proof.
  intros Hl Hred f t s rest Hroom Hr Hf. pose proof Hroom as (Hlen & _).
  destruct (Hred f t s rest Hroom Hr (follows_le _ (S l) _ Hf (Nat.le_succ_diag_r l))) as (p & tbl & t1 & k & E & Hr1 & B1 & Hk).
  destruct k as [|k]; [lia|]. rewrite E. simpl proc_chain. destruct rest as [|x rest]; [done|].
  destruct (next_token_spec _ _ _ Hr1) as (t2 & E2 & Hh2 & R2 & S2). rewrite (bind_Ret _ _ _ _ _ (E2 _)).
  rewrite level_node_other by (done || by left). exists p, tbl, (set_replay true t2). split_and!; [done| |done]. by apply ready_replay.
Qed.

(** ** Primary and postfix expressions *)

Lemma built_leaf e s p n : shell_ok s -> global_node_table s !! p = Some empty_node -> node_type n <> FINSH_NODE_UNKNOWN ->
  child n = None -> sibling n = None -> is_expr e (FNode p n FNil FNil) -> built e s p (<[p := n]> (global_node_table s)).
Proof. intros Hs Hp Hn Hc Hb He. exists n, FNil. split; [|done]. apply grows_leaf; try done. apply Hs. Qed.

Lemma finsh_node_new_id_spec name x ty s : symbol name = Some (x, ty) -> shell_ok s -> (0 < frees (global_node_table s))%nat ->
  exists p, global_node_table s !! p = Some empty_node /\ finsh_node_new_id name s =
    Ret (Some p) (set_nodes (<[p := set_idtype ty (set_id x (set_node_type FINSH_NODE_ID empty_node))]> (global_node_table s)) s).
Proof.
  intros Hsym (Ht & Hv & Hsv & Hsc) Hf.
  destruct (new_node_spec FINSH_NODE_ID (fun n => set_idtype ty (set_id x n)) s ltac:(done) Ht Hf) as (p & Hp & E).
  exists p. split; [done|]. unfold finsh_node_new_id, finsh_var_lookup, finsh_sysvar_lookup, finsh_syscall_lookup.
  unfold bind, get, ret. rewrite Hv, Hsv, Hsc. unfold symbol in Hsym.
  destruct (find_variable name vars 0); [by injection Hsym as <- <-|].
  destruct (find_symbol sysvar_name _ _ _); [by injection Hsym as <- <-|].
  destruct (find_symbol syscall_name _ _ _); [by injection Hsym as <- <-|done].
Qed.

(** an identifier in the place of a primary expression *)
Lemma primary_id name xs t s A : ready t (LId name :: xs) ->
  exists t', proc_primary_expr A (t, s) = shell (finsh_node_new_id name) (t', s) /\ ready t' xs.
Proof.
  intros Hr. destruct (next_token_spec _ _ _ Hr) as (t1 & E1 & H1 & R1 & S1).
  destruct (next_token_spec _ _ _ (ready_replay _ _ _ R1 H1 S1)) as (t2 & E2 & H2 & R2 & S2).
  exists t2. split; [|by apply ready_stream]. unfold proc_primary_expr. rewrite (bind_Ret _ _ _ _ _ (E1 s)). cbn [kind].
  rewrite (bind_Ret _ _ _ _ _ (finsh_token_replay_Ret t1 s)). unfold proc_identifier, match_token.
  assert (bind (bind next_token (fun token => check_token token identifier)) (fun _ => finsh_token_get_token) (set_replay true t1, s) =
    Ret name (t2, s)) as E3; [|by rewrite (bind_Ret _ _ _ _ _ E3)].
  unfold bind at 1 2. rewrite E2. cbn [kind]. unfold check_token. rewrite decide_True by done.
  destruct H2 as [_ <-]. done.
Qed.

Definition constant (e : expr) (x : lexeme) : Prop :=
  match x with
  | LInt v | LLong v => e = Const v
  | LTok value_null => e = Const 0
  | LChar c => e = Char c
  | _ => False
  end.

Lemma primary_constant e x xs t s A : constant e x -> ready t (x :: xs) -> shell_ok s -> (0 < frees (global_node_table s))%nat ->
  exists p tbl t', proc_primary_expr A (t, s) = Ret (Some p) (t', set_nodes tbl s) /\ ready t' xs /\ built e s p tbl.
Proof.
  intros He Hr Hs Hf. destruct (next_token_spec _ _ _ Hr) as (t1 & E1 & (K1 & H1) & R1 & S1). pose proof Hs as (Ht & _).
  unfold proc_primary_expr. rewrite (bind_Ret _ _ _ _ _ (E1 s)).
  assert (forall type g, 0 < type < 256 -> child (g (set_node_type type empty_node)) = None -> sibling (g (set_node_type type empty_node)) = None ->
    node_type (g (set_node_type type empty_node)) = type ->
    (forall p, is_expr e (FNode p (g (set_node_type type empty_node)) FNil FNil)) ->
    exists p tbl t', shell (new_node type (fun p => update_node p g)) (t1, s) = Ret (Some p) (t', set_nodes tbl s) /\ ready t' xs /\ built e s p tbl) as G.
  { intros type g Hty G1 G2 G3 Hx. destruct (new_node_spec type g s Hty Ht Hf) as (p & Hp & E). exists p. eexists _, t1.
    split; [by apply (shell_Ret _ t1 _ _ _ E)|]. split; [by apply ready_stream|].
    apply built_leaf; try done. rewrite G3. unfold FINSH_NODE_UNKNOWN. lia. }
  destruct x as [[]|v|v|c|]; try done; simpl in He, H1; subst e; cbn [kind].
  - apply (G FINSH_NODE_VALUE_NULL); try done. intros p. cbn. split_and!; [by right; right; right|done|done|done].
  - unfold bind at 1, token, tok, on_fst, get. simpl fst. simpl snd. rewrite H1.
    apply (G FINSH_NODE_VALUE_INT); try done. intros p. cbn. split_and!; [by left|done|by rewrite !u32_u32|done].
  - unfold bind at 1, token, tok, on_fst, get. simpl fst. simpl snd. rewrite H1.
    apply (G FINSH_NODE_VALUE_LONG); try done. intros p. cbn. split_and!; [by right; left|done|by rewrite !u32_u32|done].
  - unfold bind at 1, token, tok, on_fst, get. simpl fst. simpl snd. rewrite H1.
    apply (G FINSH_NODE_VALUE_CHAR (fun n => set_value (value n - u8 (value n) + u8 (u8 c)) n)); try done.
    intros p. cbn. split_and!; [done|done|unfold u8; Z.to_euclidean_division_equations; lia|done].
Qed.

(** the end of a postfix expression *)
Lemma postfix_end m n A p t s rest : ready t rest -> follows 8 rest ->
  exists t', postfix_loop m (S n) A p (t, s) = Ret p (t', s) /\ ready t' rest.
Proof.
  intros Hr Hf. destruct rest as [|x rest]; [done|]. destruct (next_token_spec _ _ _ Hr) as (t1 & E1 & H1 & R1 & S1).
  exists (set_replay true t1). split; [|by apply ready_replay]. simpl postfix_loop. rewrite (bind_Ret _ _ _ _ _ (E1 s)).
  simpl in Hf. destruct (kind x); simpl in Hf; try lia; done.
Qed.

Lemma parses_constant e x : constant e x -> parses 8 e [x].
Proof.
  intros He f t s rest (Hf & Hn & Hs) Hr Hfo. destruct f as [|[|f]]; [simpl in Hf; lia..|].
  assert (0 < frees (global_node_table s))%nat as Hfr by (pose proof (nodes_pos e); lia).
  destruct (primary_constant e x rest t s (proc_assign_expr (S f)) He Hr Hs Hfr) as (p & tbl & t1 & E1 & Hr1 & B).
  destruct (postfix_end (S f) f (proc_assign_expr (S f)) (Some p) t1 (set_nodes tbl s) rest Hr1 Hfo) as (t2 & E2 & Hr2).
  exists p, tbl, t2. split_and!; [|done|done]. cbn [proc_at]. unfold proc_postfix_expr. by rewrite (bind_Ret _ _ _ _ _ E1), E2.
Qed.

(** a name read by the function for level 8 *)
Lemma postfix_name name x ty xs f t s : symbol name = Some (x, ty) -> ready t (LId name :: xs) -> shell_ok s ->
  (0 < frees (global_node_table s))%nat ->
  let n := set_idtype ty (set_id x (set_node_type FINSH_NODE_ID empty_node)) in
  exists p t', global_node_table s !! p = Some empty_node /\ ready t' xs /\
    proc_at 8 (S f) (t, s) = postfix_loop f f (proc_assign_expr f) (Some p) (t', set_nodes (<[p := n]> (global_node_table s)) s).
Proof.
  intros Hsym Hr Hs Hfr n. destruct (primary_id name xs t s (proc_assign_expr f) Hr) as (t1 & E1 & Hr1).
  destruct (finsh_node_new_id_spec name x ty s Hsym Hs Hfr) as (p & Hp & E2).
  exists p, t1. split_and!; [done|done|]. cbn [proc_at]. unfold proc_postfix_expr, bind. by rewrite E1, (shell_Ret _ t1 _ _ _ E2).
Qed.

Lemma built_place x s p : shell_ok s -> global_node_table s !! p = Some empty_node ->
  built (Load x) s p (<[p := set_idtype (place_flag x) (set_id (place_id x) (set_node_type FINSH_NODE_ID empty_node))]> (global_node_table s)).
Proof. intros Hs Hp. by apply built_leaf. Qed.

Lemma parses_load x name : names_place name x -> parses 8 (Load x) [LId name].
Proof.
  intros Hx f t s rest (Hf & Hn & Hs) Hr Hfo. destruct f as [|[|f]]; [simpl in Hf; lia..|]. simpl in Hn.
  destruct (postfix_name name _ _ rest (S f) t s Hx Hr Hs ltac:(lia)) as (p & t1 & Hp & Hr1 & E).
  rewrite E. destruct (postfix_end (S f) f (proc_assign_expr (S f)) (Some p) t1 (set_nodes (<[p := set_idtype (place_flag x) (set_id (place_id x)
    (set_node_type FINSH_NODE_ID empty_node))]> (global_node_table s)) s) rest Hr1 Hfo) as (t2 & E2 & Hr2).
  eexists p, _, t2. split_and!; [exact E2|done|]. by apply built_place.
Qed.

Lemma parses_post up i name : names_place name (PVar i) -> parses 8 (Post up i) [LId name; LTok (if up : bool then tk_inc else tk_dec)].
Proof.
  intros Hx f t s rest (Hf & Hn & Hs) Hr Hfo. destruct f as [|[|f]]; [simpl in Hf; lia..|]. cbn [length] in Hf. cbn [nodes] in Hn.
  destruct (postfix_name name _ _ _ (S f) t s Hx Hr Hs ltac:(lia)) as (p & t1 & Hp & Hr1 & E). rewrite E. clear E.
  pose proof (built_place (PVar i) s p Hs Hp) as B. pose proof (built_size _ _ _ _ B) as Z1. cbn [nodes] in Z1.
  destruct (next_token_spec _ _ _ Hr1) as (t2 & E2 & H2 & R2 & S2). cbn [postfix_loop]. rewrite (bind_Ret _ _ _ _ _ (E2 _)).
  destruct (make_unary (if up then FINSH_NODE_SYS_INC else FINSH_NODE_SYS_DEC) (Load (PVar i)) (Post up i) s p _ t2 ltac:(by destruct up) B ltac:(lia)) as (q & tbl & E3 & B3).
  { intros q n c Hq. cbn [is_expr kids next] in Hq |- *. done. }
  destruct f as [|f]; [lia|].
  destruct (postfix_end (S (S f)) f (proc_assign_expr (S (S f))) (Some q) t2 (set_nodes tbl s) rest (ready_stream _ _ R2 S2) Hfo) as (t3 & E4 & Hr4).
  exists q, tbl, t3. split_and!; [|done|done]. destruct up; cbn [kind]; by rewrite (bind_Ret _ _ _ _ _ E3), E4.
Qed.

(** ** Parameters *)

Definition starts (k : token_type) : bool :=
  match k with
  | identifier | value_int | value_long | value_char | value_null | tk_add | tk_sub | tk_bitwise | tk_mul | tk_and | tk_inc | tk_dec => true
  | _ => false
  end.

Lemma prints_starts l e ts : prints l e ts -> exists x us, ts = x :: us /\ starts (kind x) = true.
Proof.
  induction 1; try (eexists _, _; split; [reflexivity|]; try by (repeat match goal with b : bool |- _ => destruct b end)); try done.
  destruct IHprints1 as (x & vs & -> & Hx). by exists x, (vs ++ LTok (binop_token o) :: us).
Qed.

Definition more (es : exprs) (us : list lexeme) : Prop :=
  forall n f t s p np rest, (length us < n)%nat -> (length us < f)%nat -> (args_nodes es <= frees (global_node_table s))%nat -> shell_ok s ->
  global_node_table s !! p = Some np -> node_type np <> FINSH_NODE_UNKNOWN -> sibling np = None ->
  ready t (us ++ LTok right_paren :: rest) ->
  exists g tbl t', param_loop n (proc_assign_expr f) p (t, s) = Ret tt (t', set_nodes (<[p := set_sibling (root g) np]> tbl) s) /\
    ready t' (LTok right_paren :: rest) /\ grows (global_node_table s) tbl g /\ is_args es g.

Lemma more_nil : more Nil [].
Proof.
  intros n f t s p np rest Hn _ _ (Ht & _) Hp Hu Hsib Hr. destruct n as [|n]; [lia|].
  destruct (next_token_spec _ _ _ Hr) as (t1 & E1 & H1 & R1 & S1).
  exists FNil, (global_node_table s), (set_replay true t1). split_and!; [|by apply ready_replay|by apply grows_nil|done].
  cbn [param_loop]. rewrite (bind_Ret _ _ _ _ _ (E1 s)). cbn [kind root]. rewrite decide_False by done.
  rewrite list_insert_id; [by destruct s|]. rewrite Hp. f_equal. destruct np. simpl in Hsib. by subst.
Qed.

Lemma follows_more es us rest : prints_more es us -> follows 0 (us ++ LTok right_paren :: rest).
Proof. by destruct 1. Qed.

(** the tree of [e] is linked to the node [p] before it; what is built after it becomes its sibling *)
Lemma link_spec e s p np q tbl : shell_ok s -> global_node_table s !! p = Some np -> node_type np <> FINSH_NODE_UNKNOWN -> built e s q tbl ->
  exists s3 nq cq, update_node p (set_sibling (Some q)) (set_nodes tbl s) = Ret tt s3 /\ shell_ok s3 /\
    frees (global_node_table s3) = frees tbl /\ global_node_table s3 !! q = Some nq /\ node_type nq <> FINSH_NODE_UNKNOWN /\ sibling nq = None /\
    is_expr e (FNode q nq cq FNil) /\
    forall g tbl4, grows (global_node_table s3) tbl4 g -> exists tbl5, grows (global_node_table s) tbl5 (FNode q (set_sibling (root g) nq) cq g) /\
      set_nodes (<[q := set_sibling (root g) nq]> tbl4) s3 = set_nodes (<[p := set_sibling (Some q) np]> tbl5) s.
Proof.
  intros Hs Hp Hu (nq & cq & Hg & Hq).
  assert (p ∉ pointers (FNode q nq cq FNil)) as Hpn.
  { intros Hin. pose proof (grows_fresh _ _ _ Hg p Hin) as Hpe. rewrite Hp in Hpe. injection Hpe as ->. by apply Hu. }
  assert (q <> p) as Hqp by (intros ->; apply Hpn; simpl; set_solver).
  assert (tbl !! p = Some np) as Hp2 by (by rewrite (grows_other _ _ _ Hg)). pose proof (lookup_lt_Some _ _ _ Hp2) as Hlt.
  assert (tbl !! q = Some nq) as Hq2 by apply (grows_rep _ _ _ Hg).
  set (np' := set_sibling (Some q) np). exists (set_nodes (<[p := np']> tbl) s), nq, cq. cbn [global_node_table set_nodes]. split_and!.
  - exact (update_node_Ret p np _ (set_nodes tbl s) Hp2).
  - apply shell_ok_nodes; [done|]. apply tidy_insert; [apply (grows_tidy _ _ _ Hg)|done].
  - by apply (frees_keep tbl p np).
  - by rewrite list_lookup_insert_ne.
  - apply (grows_used _ _ _ Hg q); [simpl; set_solver|done].
  - apply (grows_rep _ _ _ Hg).
  - done.
  - intros g tbl4 Hg4. assert (p ∉ pointers g) as Hpg.
    { intros Hin. pose proof (grows_fresh _ _ _ Hg4 p Hin) as Hpe. rewrite list_lookup_insert_eq in Hpe by done.
      apply Hu. by apply (f_equal (fmap node_type)) in Hpe as [= ?]. }
    assert (tbl4 !! p = Some np') as Hp4 by (rewrite (grows_other _ _ _ Hg4) by done; by apply list_lookup_insert_eq).
    pose proof (grows_frame _ _ _ p np' np Hg4 ltac:(by apply list_lookup_insert_eq) Hpg Hu) as Hg5.
    rewrite list_insert_insert_eq, (list_insert_id tbl p np Hp2) in Hg5. eexists. split; [by eapply grows_attach|].
    unfold set_nodes; cbn [global_node_table]. f_equal. rewrite list_insert_insert_ne by done. by rewrite list_insert_insert_eq, (list_insert_id tbl4 p np' Hp4).
Qed.

Lemma more_cons a es ts us : parses 0 a ts -> prints_more es us -> more es us -> more (Cons a es) (LTok comma :: ts ++ us).
Proof.
  intros Ha Hus IH n f t s p np rest Hn Hf Hfr Hs Hp Hu Hsib Hr. cbn [length] in Hn, Hf. rewrite length_app in Hn, Hf.
  destruct n as [|n]; [lia|]. destruct f as [|f]; [lia|]. cbn [args_nodes] in Hfr.
  change (ready t (LTok comma :: (ts ++ us) ++ LTok right_paren :: rest)) in Hr. rewrite <-(assoc_L (++)) in Hr.
  destruct (next_token_spec _ _ _ Hr) as (t1 & E1 & H1 & R1 & S1).
  destruct (Ha f t1 s (us ++ LTok right_paren :: rest)) as (q & tbl & t2 & E2 & Hr2 & B).
  { split_and!; [lia|lia|done]. }
  { by apply ready_stream. }
  { by eapply follows_more. }
  cbn [param_loop]. rewrite (bind_Ret _ _ _ _ _ (E1 s)). cbn [kind]. rewrite decide_True by done.
  cbn [proc_at] in E2. rewrite (bind_Ret _ _ _ _ _ E2). pose proof (built_size _ _ _ _ B) as Z1.
  destruct (link_spec _ _ _ _ _ _ Hs Hp Hu B) as (s3 & nq & cq & E3 & Hs3 & Z3 & Hq3 & Hnq & Hsq & Hq & Hlink).
  rewrite (bind_Ret _ _ _ _ _ (shell_Ret _ t2 _ _ _ E3)).
  destruct (IH n (S f) t2 s3 q nq rest ltac:(lia) ltac:(lia) ltac:(lia) Hs3 Hq3 Hnq Hsq Hr2) as (g & tbl4 & t4 & E4 & Hr4 & Hg4 & Hes).
  destruct (Hlink _ _ Hg4) as (tbl5 & Hg5 & E5). exists (FNode q (set_sibling (root g) nq) cq g), tbl5, t4.
  split; [by rewrite E4, E5|]. split; [done|]. split; [done|]. cbn [is_args next]. split; [by apply is_expr_sibling|done].
Qed.

(** at least one parameter *)
Lemma param_list_spec a es ts us f t s rest : parses 0 a ts -> prints_more es us -> more es us ->
  (S (length (ts ++ us)) < f)%nat -> (args_nodes (Cons a es) <= frees (global_node_table s))%nat -> shell_ok s ->
  ready t ((ts ++ us) ++ LTok right_paren :: rest) ->
  exists g tbl t', proc_param_list f (proc_assign_expr f) (t, s) = Ret (root g) (t', set_nodes tbl s) /\
    ready t' (LTok right_paren :: rest) /\ grows (global_node_table s) tbl g /\ is_args (Cons a es) g.
Proof.
  intros Ha Hus IH Hf Hfr Hs Hr. rewrite length_app in Hf. destruct f as [|f]; [lia|]. cbn [args_nodes] in Hfr. rewrite <-(assoc_L (++)) in Hr.
  destruct (Ha f t s (us ++ LTok right_paren :: rest)) as (q & tbl & t2 & E2 & Hr2 & B).
  { split_and!; [lia|lia|done]. }
  { done. }
  { by eapply follows_more. }
  cbn [proc_at] in E2. pose proof (built_size _ _ _ _ B) as Z1. pose proof (built_ok _ _ _ _ Hs B) as Hs1. destruct B as (nq & cq & Hg & Hq).
  assert (tbl !! q = Some nq) as Hq2 by apply (grows_rep _ _ _ Hg). assert (sibling nq = None) as Hsq by apply (grows_rep _ _ _ Hg).
  assert (node_type nq <> FINSH_NODE_UNKNOWN) as Hnq by (apply (grows_used _ _ _ Hg q); [simpl; set_solver|done]).
  destruct (IH (S f) (S f) t2 (set_nodes tbl s) q nq rest ltac:(lia) ltac:(lia) ltac:(cbn [global_node_table set_nodes]; lia) Hs1 Hq2 Hnq Hsq Hr2) as (g & tbl4 & t4 & E4 & Hr4 & Hg4 & Hes).
  exists (FNode q (set_sibling (root g) nq) cq g), (<[q := set_sibling (root g) nq]> tbl4), t4.
  split; [|split; [done|split; [by eapply grows_attach|cbn [is_args next]; split; [by apply is_expr_sibling|done]]]].
  unfold proc_param_list. rewrite (bind_Ret _ _ _ _ _ E2). by rewrite (bind_Ret _ _ _ _ _ E4).
Qed.

(** the token after the left parenthesis of a call, and its parameters *)
Definition arguments (es : exprs) (ts : list lexeme) : Prop :=
  forall f t s rest, (S (length ts) < f)%nat -> (args_nodes es <= frees (global_node_table s))%nat -> shell_ok s ->
  ready t (ts ++ LTok right_paren :: rest) ->
  exists g tbl t', bind next_token (fun token => if decide (token = right_paren) then ret None
      else finsh_token_replay ;! let! l := proc_param_list f (proc_assign_expr f) in match_token right_paren ;! ret l) (t, s) =
      Ret (root g) (t', set_nodes tbl s) /\
    ready t' rest /\ grows (global_node_table s) tbl g /\ is_args es g.

Lemma arguments_nil : arguments Nil [].
Proof.
  intros f t s rest _ _ (Ht & _) Hr. destruct (next_token_spec _ _ _ Hr) as (t1 & E1 & H1 & R1 & S1).
  exists FNil, (global_node_table s), t1. split_and!; [|by apply ready_stream|by apply grows_nil|done].
  rewrite (bind_Ret _ _ _ _ _ (E1 s)). cbn [kind]. rewrite decide_True by done. by destruct s.
Qed.

Lemma arguments_cons a es ts us : prints 0 a ts -> parses 0 a ts -> prints_more es us -> more es us -> arguments (Cons a es) (ts ++ us).
Proof.
  intros Hp Ha Hus IH f t s rest Hf Hfr Hs Hr. destruct (prints_starts _ _ _ Hp) as (x & vs & -> & Hx).
  destruct (next_token_spec _ _ _ Hr) as (t1 & E1 & H1 & R1 & S1). rewrite (bind_Ret _ _ _ _ _ (E1 s)).
  rewrite decide_False by (intros E; by rewrite E in Hx). rewrite (bind_Ret _ _ _ _ _ (finsh_token_replay_Ret t1 s)).
  destruct (param_list_spec a es (x :: vs) us f (set_replay true t1) s rest Ha Hus IH Hf Hfr Hs (ready_replay _ _ _ R1 H1 S1))
    as (g & tbl & t2 & E2 & Hr2 & Hg & Hes).
  rewrite (bind_Ret _ _ _ _ _ E2). destruct (next_token_spec _ _ _ Hr2) as (t3 & E3 & H3 & R3 & S3).
  exists g, tbl, t3. split_and!; [|by apply ready_stream|done|done]. unfold match_token, bind. rewrite E3. cbn [kind]. unfold check_token.
  by rewrite decide_True.
Qed.

(** ** Calls *)

Lemma parses_call f name es ts : symbol name = Some (id_syscall f, FINSH_IDTYPE_SYSCALL) -> arguments es ts ->
  parses 8 (Call f es) (LId name :: LTok left_paren :: ts ++ [LTok right_paren]).
Proof.
  intros Hx Ha n t s rest (Hf & Hn & Hs) Hr Hfo. cbn [length] in Hf. rewrite length_app in Hf. cbn [length] in Hf. cbn [nodes] in Hn.
  destruct n as [|[|n]]; [lia..|]. cbn [app] in Hr. rewrite <-(assoc_L (++)) in Hr.
  destruct (postfix_name name _ _ _ (S n) t s Hx Hr Hs ltac:(lia)) as (p & t1 & Hp & Hr1 & E). rewrite E. clear E.
  set (np := set_idtype FINSH_IDTYPE_SYSCALL (set_id (id_syscall f) (set_node_type FINSH_NODE_ID empty_node))).
  assert (grows (global_node_table s) (<[p := np]> (global_node_table s)) (FNode p np FNil FNil)) as Hgp by (by apply grows_leaf; [apply Hs|..]).
  pose proof (frees_take _ p np Hp ltac:(done)) as Z1. set (s1 := set_nodes (<[p := np]> (global_node_table s)) s).
  assert (shell_ok s1) as Hs1 by (apply shell_ok_nodes; [done|apply (grows_tidy _ _ _ Hgp)]).
  destruct (next_token_spec _ _ _ Hr1) as (t2 & E2 & H2 & R2 & S2). cbn [postfix_loop]. rewrite (bind_Ret _ _ _ _ _ (E2 _)). cbn [kind].
  change (S (frees (global_node_table s1)) = frees (global_node_table s)) in Z1.
  destruct (Ha (S n) t2 s1 rest ltac:(lia) ltac:(lia) Hs1 (ready_stream _ _ R2 S2)) as (g & tbl & t3 & E3 & Hr3 & Hg & Hes).
  rewrite bind_bind, (bind_Ret _ _ _ _ _ E3). pose proof (grows_frees _ _ _ Hg) as Z2. rewrite (proj2 expr_size _ _ Hes) in Z2. cbn [global_node_table set_nodes] in Z2.
  destruct (make_sys_node_spec FINSH_NODE_SYS_FUNC _ _ _ _ _ _ t3 (set_nodes tbl s1) ltac:(done) Hgp Hg ltac:(cbn [global_node_table set_nodes]; lia)) as (q & tbl' & E4 & Hq).
  rewrite (bind_Ret _ _ _ _ _ E4). destruct n as [|n]; [lia|].
  destruct (postfix_end (S (S n)) n (proc_assign_expr (S (S n))) (Some q) t3 (set_nodes tbl' s) rest Hr3 Hfo) as (t4 & E5 & Hr5).
  exists q, tbl', t4. split_and!; [exact E5|done|]. eexists _, _. split; [exact Hq|]. done.
Qed.

(** ** Unary operators *)

Lemma cast_start x xs f t s : ready t (x :: xs) -> kind x <> left_paren ->
  exists t', proc_at 7 (S f) (t, s) = proc_unary_expr f (proc_cast_expr f) (proc_assign_expr f) (t', s) /\ ready t' (x :: xs).
Proof.
  intros Hr Hx. destruct (next_token_spec _ _ _ Hr) as (t1 & E1 & H1 & R1 & S1).
  exists (set_replay true t1). split; [|by apply ready_replay]. rewrite proc_at_7. cbn [proc_cast_expr]. rewrite (bind_Ret _ _ _ _ _ (E1 s)).
  rewrite decide_False by done. by rewrite (bind_Ret _ _ _ _ _ (finsh_token_replay_Ret t1 s)).
Qed.

Definition is_primary (k : token_type) : bool :=
  match k with identifier | value_int | value_long | value_char | value_null => true | _ => false end.

Lemma prints_primary e ts : prints 8 e ts -> exists x us, ts = x :: us /\ is_primary (kind x) = true.
Proof.
  intros Hp. inversion Hp as [| o | | | | | | | | | | | | | | |]; subst; try lia; try (by destruct o); eexists _, _; by split.
Qed.

Lemma parses_postfix e ts : prints 8 e ts -> parses 8 e ts -> parses 7 e ts.
Proof.
  intros Hp IH f t s rest Hroom Hr Hfo. destruct f as [|f]; [destruct Hroom; lia|].
  destruct (prints_primary _ _ Hp) as (x & us & -> & Hx). destruct (cast_start x (us ++ rest) f t s Hr ltac:(by intros E; rewrite E in Hx)) as (t1 & -> & Hr1).
  destruct (next_token_spec _ _ _ Hr1) as (t2 & E2 & H2 & R2 & S2). unfold proc_unary_expr. rewrite (bind_Ret _ _ _ _ _ (E2 s)).
  pose proof (IH (S f) (set_replay true t2) s rest Hroom (ready_replay _ _ _ R2 H2 S2) (follows_le _ 8 _ Hfo ltac:(lia))) as HP.
  destruct (kind x); try done; by rewrite (bind_Ret _ _ _ _ _ (finsh_token_replay_Ret t2 s)).
Qed.

(** the operators that make one node *)
Definition unary_node (k : token_type) : option Z :=
  match k with
  | tk_inc => Some FINSH_NODE_SYS_PREINC | tk_dec => Some FINSH_NODE_SYS_PREDEC | tk_bitwise => Some FINSH_NODE_SYS_BITWISE
  | tk_mul => Some FINSH_NODE_SYS_GETVALUE | tk_and => Some FINSH_NODE_SYS_GETADDR | _ => None
  end.

Lemma parses_unary k type a e ts : unary_node k = Some type -> parses 7 a ts -> nodes e = S (nodes a) ->
  (forall p q n c, is_expr a (FNode p n c FNil) -> is_expr e (FNode q (op_node type (Some p)) (FNode p (set_sibling None n) c FNil) FNil)) ->
  parses 7 e (LTok k :: ts).
Proof.
  intros Hk IH Hn Hi f t s rest (Hf & Hfr & Hs) Hr Hfo. cbn [length] in Hf. destruct f as [|f]; [lia|].
  destruct (cast_start (LTok k) (ts ++ rest) f t s Hr ltac:(cbn [kind]; intros ->; done)) as (t1 & -> & Hr1).
  destruct (next_token_spec _ _ _ Hr1) as (t2 & E2 & H2 & R2 & S2). unfold proc_unary_expr. rewrite (bind_Ret _ _ _ _ _ (E2 s)). cbn [kind].
  destruct (IH f t2 s rest) as (p & tbl & t3 & E3 & Hr3 & B); [split_and!; [lia|lia|done]|by apply ready_stream|done|].
  pose proof (built_size _ _ _ _ B) as Z1. rewrite proc_at_7 in E3.
  assert (0 < type < 256) as Hty by (by destruct k; try done; injection Hk as <-).
  destruct (make_unary type a e s p tbl t3 Hty B ltac:(lia) (Hi p)) as (q & tbl' & E4 & B').
  exists q, tbl', t3. split_and!; [|done|done]. destruct k; try done; injection Hk as <-; by rewrite (bind_Ret _ _ _ _ _ E3).
Qed.

Lemma parses_plus a ts : parses 7 a ts -> parses 7 a (LTok tk_add :: ts).
Proof.
  intros IH f t s rest (Hf & Hfr & Hs) Hr Hfo. cbn [length] in Hf. destruct f as [|f]; [lia|].
  destruct (cast_start (LTok tk_add) (ts ++ rest) f t s Hr ltac:(done)) as (t1 & -> & Hr1).
  destruct (next_token_spec _ _ _ Hr1) as (t2 & E2 & H2 & R2 & S2). unfold proc_unary_expr. rewrite (bind_Ret _ _ _ _ _ (E2 s)). cbn [kind].
  apply (IH f t2 s rest); [split_and!; [lia|lia|done]|by apply ready_stream|done].
Qed.

(** a minus sign: the node of the zero is made after those of the operand *)
Lemma parses_neg a ts : parses 7 a ts -> parses 7 (Bin Sub (Const 0) a) (LTok tk_sub :: ts).
Proof.
  intros IH f t s rest (Hf & Hfr & Hs) Hr Hfo. cbn [length] in Hf. destruct f as [|f]; [lia|]. cbn [nodes] in Hfr.
  destruct (cast_start (LTok tk_sub) (ts ++ rest) f t s Hr ltac:(done)) as (t1 & -> & Hr1).
  destruct (next_token_spec _ _ _ Hr1) as (t2 & E2 & H2 & R2 & S2). unfold proc_unary_expr. rewrite (bind_Ret _ _ _ _ _ (E2 s)). cbn [kind].
  destruct (IH f t2 s rest) as (p & tbl & t3 & E3 & Hr3 & B); [split_and!; [lia|lia|done]|by apply ready_stream|done|].
  pose proof (built_size _ _ _ _ B) as Z1. destruct B as (n & c & Hg & He). rewrite proc_at_7 in E3. rewrite (bind_Ret _ _ _ _ _ E3).
  destruct (new_node_spec FINSH_NODE_VALUE_LONG (set_value 0) (set_nodes tbl s) ltac:(done) (grows_tidy _ _ _ Hg) ltac:(cbn [global_node_table set_nodes]; lia)) as (z & Hz & E4).
  cbn [global_node_table set_nodes] in Hz. set (nz := set_value 0 (set_node_type FINSH_NODE_VALUE_LONG empty_node)).
  assert (z ∉ pointers (FNode p n c FNil)) as Hzp by (intros Hin; by apply (grows_used _ _ _ Hg z empty_node Hin Hz)).
  assert (global_node_table s !! z = Some empty_node) as Hz0 by (by rewrite <-(grows_other _ _ _ Hg)).
  pose proof (grows_frame _ _ _ z _ nz Hg Hz0 Hzp ltac:(done)) as Hg'. pose proof (frees_take _ z nz Hz ltac:(done)) as Z2.
  assert (grows (global_node_table s) (<[z := nz]> (global_node_table s)) (FNode z nz FNil FNil)) as Hgz by (by apply grows_leaf; [apply Hs|..]).
  destruct (make_sys_node_spec FINSH_NODE_SYS_SUB _ _ _ _ _ _ t3 (set_nodes (<[z := nz]> tbl) s) ltac:(done) Hgz Hg' ltac:(cbn [global_node_table set_nodes]; lia)) as (q & tbl' & E5 & Hq).
  rewrite (bind_Ret _ _ _ _ _ (shell_Ret _ t3 _ _ _ E4)). exists q, tbl', t3. split_and!; [exact E5|done|]. eexists _, _. split; [exact Hq|].
  cbn [attach is_expr kids next root]. split; [done|]. split; [|done]. split_and!; [by right; left|done|done|done].
Qed.

(** ** Assignments *)

Lemma parses_low e ts : parses 7 e ts -> parses 1 e ts.
Proof.
  intros IH. do 6 (apply reduces_parses; [lia|]; apply reduces_up; [lia|]). done.
Qed.

Lemma parses_plain e ts : parses 1 e ts -> parses 0 e ts.
Proof.
  intros IH f t s rest Hroom Hr Hfo. destruct (IH f t s rest Hroom Hr (follows_le _ 1 _ Hfo ltac:(lia))) as (p & tbl & t1 & E1 & Hr1 & B).
  cbn [proc_at proc_assign_expr]. rewrite proc_inclusive_or_at, (bind_Ret _ _ _ _ _ E1). destruct rest as [|x rest]; [done|].
  destruct (next_token_spec _ _ _ Hr1) as (t2 & E2 & H2 & R2 & S2). rewrite (bind_Ret _ _ _ _ _ (E2 _)).
  rewrite decide_False by (intros E; simpl in Hfo; rewrite E in Hfo; simpl in Hfo; lia).
  exists p, tbl, (set_replay true t2). split_and!; [done|by apply ready_replay|done].
Qed.

Lemma parses_assign l a e ts us : parses 1 l ts -> parses 0 a us -> (0 < length ts)%nat -> nodes e = S (nodes l + nodes a) ->
  (forall r p n c q m d, is_expr l (FNode p n c FNil) -> is_expr a (FNode q m d FNil) ->
     is_expr e (FNode r (op_node FINSH_NODE_SYS_ASSIGN (Some p)) (FNode p (set_sibling (Some q) n) c (FNode q m d FNil)) FNil)) ->
  parses 0 e (ts ++ LTok tk_assign :: us).
Proof.
  intros IHl IHa Hlen Hn Hi f t s rest (Hf & Hfr & Hs) Hr Hfo. rewrite length_app in Hf. cbn [length] in Hf. rewrite <-(assoc_L (++)) in Hr.
  destruct (IHl f t s (LTok tk_assign :: us ++ rest)) as (p & tbl & t1 & E1 & Hr1 & B1); [split_and!; [lia|lia|done]|done|simpl; lia|].
  pose proof (built_size _ _ _ _ B1) as Z1. cbn [proc_at proc_assign_expr]. rewrite proc_inclusive_or_at, (bind_Ret _ _ _ _ _ E1).
  destruct (next_token_spec _ _ _ Hr1) as (t2 & E2 & H2 & R2 & S2). rewrite (bind_Ret _ _ _ _ _ (E2 _)). cbn [kind]. rewrite decide_True by done.
  destruct f as [|f]; [lia|].
  destruct (IHa f t2 (set_nodes tbl s) rest) as (q & tbl2 & t3 & E3 & Hr3 & B2);
    [split_and!; [lia|cbn [global_node_table set_nodes]; lia|by eapply built_ok]|by apply ready_stream|done|].
  cbn [proc_at] in E3. rewrite (bind_Ret _ _ _ _ _ E3). pose proof (built_size _ _ _ _ B2) as Z2. cbn [global_node_table set_nodes] in Z2.
  destruct (make_binary FINSH_NODE_SYS_ASSIGN l a e s p tbl q tbl2 t3 ltac:(done) B1 B2 ltac:(lia)) as (r & tbl3 & E4 & B3).
  { intros. by apply Hi. }
  exists r, tbl3, t3. split_and!; [exact E4|done|done].
Qed.

(** ** Expressions *)

Definition understood (l : nat) (e : expr) (ts : list lexeme) : Prop := parses l e ts /\ ((1 <= l <= 6)%nat -> reduces l e ts).

Lemma understood_high l e ts : (6 < l)%nat -> parses l e ts -> understood l e ts.
Proof. intros Hl Hp. split; [done|lia]. Qed.

Lemma understood_up l e ts : prints (S l) e ts -> understood (S l) e ts -> (l < 8)%nat -> understood l e ts.
Proof.
  intros Hp [IH _] Hl. destruct (decide (1 <= l <= 6)%nat) as [Hb|Hb].
  - pose proof (reduces_up l e ts Hb IH). split; [by apply reduces_parses|done].
  - split; [|lia]. destruct l as [|l]; [by apply parses_plain|]. assert (S l = 7)%nat as E by lia. injection E as ->. by apply parses_postfix.
Qed.

Lemma place_parses x name : names_place name x -> parses 7 (Load x) [LId name].
Proof. intros Hx. apply parses_postfix; [by constructor|by apply parses_load]. Qed.

Lemma prints_understood :
  (forall l e ts, prints l e ts -> understood l e ts) /\
  (forall es ts, prints_args es ts -> arguments es ts) /\
  (forall es ts, prints_more es ts -> more es ts).
Proof.
  apply prints_ind3.
  - intros l e ts Hp IH Hl. by apply understood_up.
  - intros o a b ts us _ [_ IHa] _ [IHb _]. assert (1 <= binop_level o <= 6)%nat as Hl by (destruct o; simpl; lia).
    pose proof (reduces_bin o a b ts us (IHa Hl) IHb) as Hr. split; [by apply reduces_parses|done].
  - intros x name a ts Hx _ [IHa _]. split; [|lia].
    apply (parses_assign (Load x) a _ [LId name] ts); [apply parses_low, place_parses, Hx|done|simpl; lia|done|]. intros. cbn [is_expr kids next] in *. done.
  - intros a b ts us _ [IHa _] _ [IHb _]. split; [|lia].
    apply (parses_assign (Deref a) b); [apply parses_low|done|simpl; lia|cbn [nodes]; lia|].
    + eapply parses_unary; [done|exact IHa|done|]. intros. cbn [is_expr kids next]. split; [done|]. split; [by apply is_expr_sibling|done].
    + intros r p n c q m d Hl Hb. cbn [is_expr] in Hl |- *. cbn [kids next] in Hl |- *. destruct Hl as (H1 & H2 & H3). done.
  - intros a ts _ [IH _]. apply understood_high; [lia|by apply parses_plus].
  - intros a ts _ [IH _]. apply understood_high; [lia|by apply parses_neg].
  - intros a ts _ [IH _]. apply understood_high; [lia|]. eapply parses_unary; [done|exact IH|done|].
    intros. cbn [is_expr kids next]. split; [done|]. split; [by apply is_expr_sibling|done].
  - intros a ts _ [IH _]. apply understood_high; [lia|]. eapply parses_unary; [done|exact IH|done|].
    intros. cbn [is_expr kids next]. split; [done|]. split; [by apply is_expr_sibling|done].
  - intros x name Hx. apply understood_high; [lia|]. eapply parses_unary; [done|by apply (place_parses x name)|done|].
    intros. cbn [is_expr kids next] in *. done.
  - intros up i name Hx. apply understood_high; [lia|].
    apply (parses_unary _ (if up then FINSH_NODE_SYS_PREINC else FINSH_NODE_SYS_PREDEC) (Load (PVar i))); [by destruct up|by apply place_parses|done|].
    intros. cbn [is_expr kids next] in *. by destruct up.
  - intros up i name Hx. apply understood_high; [lia|]. by apply parses_post.
  - intros f name es ts Hx _ IH. apply understood_high; [lia|]. by apply parses_call.
  - intros x name Hx. apply understood_high; [lia|]. by apply parses_load.
  - intros v. apply understood_high; [lia|]. by apply parses_constant.
  - intros v. apply understood_high; [lia|]. by apply parses_constant.
  - apply understood_high; [lia|]. by apply parses_constant.
  - intros c. apply understood_high; [lia|]. by apply parses_constant.
  - apply arguments_nil.
  - intros a es ts us Hp [IHa _] Hus IH. by apply arguments_cons.
  - apply more_nil.
  - intros a es ts us _ [IHa _] Hus IH. by apply more_cons.
Qed.

Lemma expr_parses l e ts : prints l e ts -> parses l e ts.
Proof. intros Hp. apply prints_understood, Hp. Qed.

End grammar.
