(* ===== verification/FinshStatements.v ===== *)
(** The parser on a whole line: the statements that the tokens spell become the forest
    of the line in the table of nodes. *)

From S2P Require Import Prelude Mem Printf Finsh FinshHeap FinshCompiler FinshVm FinshExpr FinshTree FinshFront FinshLine FinshToken FinshParser FinshNodes FinshParse.

Open Scope Z_scope.

Section statements.
Context `{finsh_image}.
Context (vars : list finsh_var) (sysvars : list finsh_sysvar) (syscalls : list finsh_syscall).

(** every expression ends with a semicolon *)
Inductive prints_line : list expr -> list lexeme -> Prop :=
| pl_nil : prints_line [] []
| pl_cons e es ts us : prints vars sysvars syscalls 0 e ts -> prints_line es us -> prints_line (e :: es) (ts ++ LTok semicolon :: us).

(** the first token of a statement has been read *)
Definition at_start (t : finsh_token) (xs : list lexeme) (k : token_type) : Prop :=
  match xs with [] => False | x :: xs => k = kind x /\ replay t = false /\ holds x t /\ stream t xs end.

Lemma at_start_next t xs : xs <> [] -> ready t xs -> exists k t', (forall s, next_token (t, s) = Ret k (t', s)) /\ at_start t' xs k.
Proof. destruct xs as [|x xs]; [done|]. intros _ Hr. destruct (next_token_spec _ _ _ Hr) as (t1 & E1 & H1 & R1 & S1). by exists (kind x), t1. Qed.

Lemma statement_spec e ts n t s rest k : prints vars sysvars syscalls 0 e ts -> (S (length ts) < n)%nat ->
  (nodes e <= frees (global_node_table s))%nat -> shell_ok vars sysvars syscalls s -> at_start t (ts ++ LTok semicolon :: rest) k ->
  starts k = true /\ exists p tbl t', bind finsh_token_replay (fun _ => proc_statement n k) (t, s) = Ret (Some p) (t', set_nodes tbl s) /\
    ready t' rest /\ built e s p tbl.
Proof.
  intros Hp Hn Hfr Hs Hst. destruct (prints_starts _ _ _ _ _ _ Hp) as (x & us & -> & Hx). destruct Hst as (-> & R0 & H0 & S0). split; [done|].
  rewrite (bind_Ret _ _ _ _ _ (finsh_token_replay_Ret t s)).
  assert (proc_statement n (kind x) = proc_expr_statement n) as -> by (by unfold proc_statement; destruct (kind x)).
  destruct (next_token_spec _ _ _ (ready_replay _ _ _ R0 H0 S0)) as (t1 & E1 & H1 & R1 & S1).
  unfold proc_expr_statement. rewrite (bind_Ret _ _ _ _ _ (E1 s)). rewrite decide_False by (intros E; by rewrite E in Hx).
  rewrite (bind_Ret _ _ _ _ _ (finsh_token_replay_Ret t1 s)). destruct n as [|n]; [lia|].
  destruct (expr_parses _ _ _ _ _ _ Hp n (set_replay true t1) s (LTok semicolon :: rest)) as (p & tbl & t2 & E2 & Hr2 & B).
  { split_and!; [lia|done|done]. }
  { by apply ready_replay. }
  { done. }
  unfold proc_expr. cbn [proc_at] in E2. rewrite (bind_Ret _ _ _ _ _ E2).
  destruct (next_token_spec _ _ _ Hr2) as (t3 & E3 & H3 & R3 & S3).
  exists p, tbl, t3. split_and!; [|by apply ready_stream|done]. unfold match_token, bind. rewrite E3. cbn [kind]. unfold check_token.
  by rewrite decide_True.
Qed.

(** the loop, after the first statement: [l] is the root of the last statement *)
Definition continues (es : list expr) (us : list lexeme) : Prop :=
  forall n k t s r l nl, (S (length us) < n)%nat -> (sum_list (nodes <$> es) <= frees (global_node_table s))%nat ->
  shell_ok vars sysvars syscalls s -> global_node_table s !! l = Some nl -> node_type nl <> FINSH_NODE_UNKNOWN -> sibling nl = None ->
  at_start t (us ++ [LTok tk_eof]) k ->
  exists g tbl t', parser_loop n k (Some r) (Some l) (t, s) = Ret (Some r) (t', set_nodes (<[l := set_sibling (root g) nl]> tbl) s) /\
    grows (global_node_table s) tbl g /\ is_line es g.

Lemma starts_goes_on k : starts k = true -> bool_decide (k = tk_eof) || bool_decide (k = tk_bad) = false.
Proof. by destruct k. Qed.

Lemma line_continues es us : prints_line es us -> continues es us.
Proof.
  induction 1 as [|e es ts us Hp Hus IH]; intros n k t s r l nl Hn Hfr Hs Hl Hu Hsib Hst.
  - destruct n as [|n]; [lia|]. destruct Hst as (-> & R0 & _). exists FNil, (global_node_table s), t. split_and!; [|apply grows_nil, Hs|done].
    cbn [parser_loop kind root]. rewrite list_insert_id; [by destruct s|]. rewrite Hl. f_equal. destruct nl. simpl in Hsib. by subst.
  - rewrite length_app in Hn. cbn [length] in Hn. rewrite <-(assoc_L (++)) in Hst. cbn [app] in Hst.
    change (sum_list (nodes <$> e :: es)) with (nodes e + sum_list (nodes <$> es))%nat in Hfr.
    destruct (prints_starts _ _ _ _ _ _ Hp) as (x0 & us0 & Ets & _). rewrite Ets in Hn. cbn [length] in Hn. destruct n as [|n]; [lia|].
    destruct (statement_spec e ts n t s (us ++ [LTok tk_eof]) k Hp ltac:(rewrite Ets; cbn [length]; lia) ltac:(lia) Hs Hst)
      as (Hk & q & tbl & t1 & E1 & Hr1 & B).
    cbn [parser_loop]. rewrite starts_goes_on by done. rewrite bind_bind, (bind_Ret _ _ _ _ _ E1). pose proof (built_size _ _ _ _ B) as Z1.
    destruct (link_spec _ _ _ _ _ _ _ _ _ Hs Hl Hu B) as (s3 & nq & cq & E3 & Hs3 & Z3 & Hq3 & Hnq & Hsq & Hq & Hlink).
    rewrite (bind_Ret _ _ _ _ _ (shell_Ret _ t1 _ _ _ E3)). rewrite (bool_decide_eq_false_2 (Some q = None)) by done. rewrite andb_false_r.
    destruct (at_start_next t1 (us ++ [LTok tk_eof]) ltac:(by destruct us) Hr1) as (k2 & t2 & E2 & Hst2).
    rewrite (bind_Ret _ _ _ tt (t1, s3)) by done. rewrite (bind_Ret _ _ _ _ _ (E2 s3)).
    destruct (IH n k2 t2 s3 r q nq ltac:(lia) ltac:(lia) Hs3 Hq3 Hnq Hsq Hst2) as (g & tbl4 & t4 & E4 & Hg4 & Hes).
    destruct (Hlink _ _ Hg4) as (tbl5 & Hg5 & E5). exists (FNode q (set_sibling (root g) nq) cq g), tbl5, t4.
    split; [by rewrite E4, E5|]. split; [done|]. cbn [is_line next]. split; [by apply is_expr_sibling|done].
Qed.

(** the lexer when it starts on a line *)
Definition line_token (l : list Z) : finsh_token := mk_token false false 0 tk_none 0 (replicate FINSH_STRING_MAX 0) l.

(** the parser on the tokens of a line *)
Lemma parser_run_line es us l fuel t s : es <> [] -> prints_line es us -> stream (line_token l) (us ++ [LTok tk_eof]) ->
  (S (length us) < fuel)%nat -> (sum_list (nodes <$> es) <= frees (global_node_table s))%nat -> shell_ok vars sysvars syscalls s ->
  exists f tbl t', finsh_parser_run fuel None l (t, s) = Ret (root f) (t', set_nodes tbl s) /\
    grows (global_node_table s) tbl f /\ is_line es f.
Proof.
  intros Hne Hp Hst Hf Hfr Hs. destruct Hp as [|e es ts us Hp Hus]; [done|]. rewrite length_app in Hf. cbn [length] in Hf.
  change (sum_list (nodes <$> e :: es)) with (nodes e + sum_list (nodes <$> es))%nat in Hfr. rewrite <-(assoc_L (++)) in Hst. cbn [app] in Hst.
  unfold finsh_parser_run. rewrite (bind_Ret _ _ _ tt (line_token l, s)) by done.
  destruct (at_start_next (line_token l) (ts ++ LTok semicolon :: us ++ [LTok tk_eof]) ltac:(by destruct ts) Hst) as (k & t1 & E1 & Hst1).
  rewrite (bind_Ret _ _ _ _ _ (E1 s)). destruct (prints_starts _ _ _ _ _ _ Hp) as (x0 & us0 & Ets & _).
  destruct fuel as [|n]; [lia|].
  destruct (statement_spec e ts n t1 s (us ++ [LTok tk_eof]) k Hp ltac:(lia) ltac:(lia) Hs Hst1) as (Hk & q & tbl & t2 & E2 & Hr2 & B).
  cbn [parser_loop]. rewrite starts_goes_on by done. rewrite bind_bind, (bind_Ret _ _ _ _ _ E2). pose proof (built_size _ _ _ _ B) as Z1.
  destruct (at_start_next t2 (us ++ [LTok tk_eof]) ltac:(by destruct us) Hr2) as (k3 & t3 & E3 & Hst3). rewrite (bind_Ret _ _ _ _ _ (E3 _)).
  pose proof (built_ok _ _ _ _ _ _ _ Hs B) as Hs2. destruct B as (nq & cq & Hg & Hq).
  assert (tbl !! q = Some nq) as Hq2 by apply (grows_rep _ _ _ Hg). assert (sibling nq = None) as Hsq by apply (grows_rep _ _ _ Hg).
  assert (node_type nq <> FINSH_NODE_UNKNOWN) as Hnq by (apply (grows_used _ _ _ Hg q); [simpl; set_solver|done]).
  destruct (line_continues es us Hus n k3 t3 (set_nodes tbl s) q q nq ltac:(lia) ltac:(cbn [global_node_table set_nodes]; lia) Hs2 Hq2 Hnq Hsq Hst3)
    as (g & tbl4 & t4 & E4 & Hg4 & Hes).
  exists (FNode q (set_sibling (root g) nq) cq g), (<[q := set_sibling (root g) nq]> tbl4), t4.
  split; [exact E4|]. split; [by eapply grows_attach|]. cbn [is_line next]. split; [by apply is_expr_sibling|done].
Qed.

End statements.
