(* ===== verification/FinshLex.v ===== *)
(** The lexer reads the tokens that a text spells.

    [spelling x cs rest]: the characters [cs] are the token [x] when [rest] comes after
    them; [spelled xs cs]: the text [cs] is the tokens [xs], with blanks between them
    or not. *)

From Stdlib Require Import Ascii String.
From S2P Require Import Prelude Mem Printf Finsh FinshCompiler FinshVm FinshVmSpec FinshExpr FinshTree FinshFront FinshLine FinshToken FinshParser FinshNodes FinshParse.

Open Scope Z_scope.

(** * Characters *)

(** [cs] is the text that is still to be read *)
Record at_text (cs : list Z) (t : finsh_token) : Prop := {
  text_eof : eof t = false;
  text_replay : replay t = false;
  text_buffer : List.length (FinshToken.string t) = FINSH_STRING_MAX;
  text_rest : drop (position t) (line t) = cs;
  text_line : 10 ∉ cs }.

Definition forward (t : finsh_token) : finsh_token := set_position (S (position t)) t.

Lemma text_length cs t : at_text cs t -> (List.length cs <= List.length (line t))%nat.
Proof. intros [_ _ _ <- _]. rewrite length_drop. lia. Qed.

Lemma at_text_forward c cs t : at_text (c :: cs) t -> at_text cs (forward t).
Proof.
  intros [He Hr Hb Ht Hl]. split; try done; [|set_solver].
  simpl. replace (S (position t)) with (position t + 1)%nat by lia. by rewrite <-drop_drop, Ht.
Qed.

(** changing the token, its value or the buffer *)
Lemma at_text_token k cs t : at_text cs t -> at_text cs (set_token k t).
Proof. by intros []. Qed.
Lemma at_text_value v cs t : at_text cs t -> at_text cs (set_tvalue v t).
Proof. by intros []. Qed.
Lemma at_text_string b cs t : List.length b = FINSH_STRING_MAX -> at_text cs t -> at_text cs (set_string b t).
Proof. by intros ? []. Qed.

(** an operation of the lexer that changes its own state only *)
Definition moves {A} (m : T A) (t : finsh_token) (a : A) (t' : finsh_token) : Prop := forall s, m (t, s) = Ret a (t', s).

Lemma moves_bind {A B} (m : T A) (f : A -> T B) t a t1 b t2 : moves m t a t1 -> moves (f a) t1 b t2 -> moves (bind m f) t b t2.
Proof. intros H1 H2 s. by rewrite (bind_Ret _ _ _ _ _ (H1 s)). Qed.

Lemma moves_ret {A} (a : A) t : moves (ret a) t a t.
Proof. done. Qed.

Lemma moves_token t : moves token t t t.
Proof. done. Qed.

Lemma moves_update f t : moves (update f) t tt (f t).
Proof. done. Qed.

Lemma moves_next c cs t : at_text (c :: cs) t -> moves token_next_char t c (forward t).
Proof.
  intros [He Hr Hb Ht Hl] s. assert (line t !! position t = Some c) as Hc.
  { rewrite <-(Nat.add_0_r (position t)), <-lookup_drop, Ht. done. }
  unfold token_next_char. rewrite (bind_Ret _ _ _ _ _ (moves_token t s)). rewrite He, Hc.
  rewrite (proj2 (Z.eqb_neq c 10)) by set_solver. done.
Qed.

Lemma moves_end t : at_text [] t -> moves token_next_char t 0 (set_position 0 (set_eof true t)).
Proof.
  intros [He Hr Hb Ht Hl] s. assert (line t !! position t = None) as Hc.
  { rewrite <-(Nat.add_0_r (position t)), <-lookup_drop, Ht. done. }
  unfold token_next_char. rewrite (bind_Ret _ _ _ _ _ (moves_token t s)). by rewrite He, Hc.
Qed.

Lemma moves_prev cs t : at_text cs t -> moves token_prev_char (forward t) tt t.
Proof. intros [He _ _ _ _] s. destruct t. simpl in He. by subst. Qed.

Lemma moves_put i c cs t : at_text cs t -> (i < FINSH_STRING_MAX)%nat ->
  moves (put_string i c) t tt (set_string (<[i := u8 c]> (FinshToken.string t)) t).
Proof. intros _ Hi s. unfold put_string. by rewrite (proj2 (Nat.ltb_lt _ _) Hi). Qed.

Lemma at_text_put i c cs t : at_text cs t -> at_text cs (set_string (<[i := u8 c]> (FinshToken.string t)) t).
Proof. intros Ht. apply at_text_string; [|done]. rewrite length_insert. apply Ht. Qed.

Create HintDb lexer.
#[export] Hint Resolve moves_ret moves_token moves_update moves_next moves_prev moves_put at_text_forward at_text_token at_text_value at_text_put : lexer.

(** the next step of the lexer *)
Ltac step := eapply moves_bind; [solve [eauto with lexer] | cbv beta iota].

(** * Blanks *)

Definition is_blank (c : Z) : bool := (c =? ch " ") || (c =? 9) || (c =? 13).
Definition blanks (bs : list Z) : Prop := Forall (fun b => is_blank b = true) bs.

Lemma trim_loop_spec bs c cs : blanks bs -> is_blank c = false -> forall fuel t, at_text (bs ++ c :: cs) t ->
  (List.length bs < fuel)%nat -> exists t', moves (trim_loop fuel) t tt (forward t') /\ at_text (c :: cs) t'.
Proof.
  intros Hb Hc. induction Hb as [|b bs Hb _ IH]; intros [|fuel] t Ht Hf; simpl in Hf; try lia; cbn [trim_loop].
  - exists t. split; [|done]. step. unfold is_blank in Hc. by rewrite Hc.
  - destruct (IH fuel (forward t)) as (t' & E & Ht'); [by eapply at_text_forward|lia|]. exists t'. split; [|done].
    eapply moves_bind; [by eapply moves_next|]. unfold is_blank in Hb. by rewrite Hb.
Qed.

Lemma trim_spec bs c cs t : blanks bs -> is_blank c = false -> at_text (bs ++ c :: cs) t ->
  exists t', moves token_trim_space t tt t' /\ at_text (c :: cs) t'.
Proof.
  intros Hb Hc Ht. pose proof (text_length _ _ Ht) as Hl. rewrite length_app in Hl. simpl in Hl.
  destruct (trim_loop_spec bs c cs Hb Hc (S (List.length (line t))) t Ht ltac:(lia)) as (t' & E & Ht').
  exists t'. split; [|done]. unfold token_trim_space, line_fuel. eapply moves_bind; [by eapply moves_bind; [apply moves_token|apply moves_ret]|].
  eapply moves_bind; [exact E|]. by eapply moves_prev.
Qed.

(** nothing but blanks: the end of the line *)
Lemma trim_end bs : blanks bs -> forall fuel t, at_text bs t -> (List.length bs < fuel)%nat ->
  exists t', moves (trim_loop fuel) t tt t' /\ eof t' = true /\ replay t' = false.
Proof.
  intros Hb. induction Hb as [|b bs Hb _ IH]; intros [|fuel] t Ht Hf; simpl in Hf; try lia; cbn [trim_loop].
  - eexists. split; [eapply moves_bind; [by apply moves_end|apply moves_ret]|]. split; [done|apply Ht].
  - destruct (IH fuel (forward t)) as (t' & E & Ht'); [by eapply at_text_forward|lia|]. exists t'. split; [|done].
    eapply moves_bind; [by eapply moves_next|]. unfold is_blank in Hb. by rewrite Hb.
Qed.

Lemma token_run_end bs t : blanks bs -> at_text bs t -> exists t', moves token_run t tt t' /\ current_token t' = tk_eof /\ replay t' = false.
Proof.
  intros Hb Ht. pose proof (text_length _ _ Ht) as Hl.
  destruct (trim_end bs Hb (S (List.length (line t))) t Ht ltac:(lia)) as (t0 & E0 & He & Hr).
  exists (set_token tk_eof t0). split_and!; [|done|done]. unfold token_run, token_trim_space, line_fuel.
  eapply moves_bind. { eapply moves_bind; [by eapply moves_bind; [apply moves_token|apply moves_ret]|]. eapply moves_bind; [exact E0|].
    unfold token_prev_char. apply moves_update. }
  rewrite He. assert (moves token_get_string t0 (-1) t0) as E1.
  { unfold token_get_string. eapply moves_bind. { unfold token_next_char. eapply moves_bind; [apply moves_token|]. rewrite He. apply moves_ret. }
    eapply moves_bind; [apply moves_token|]. by rewrite He. }
  eapply moves_bind; [exact E1|]. eapply moves_bind; [apply moves_token|]. by rewrite He.
Qed.

(** * Names *)

Definition line_fuel_of (t : finsh_token) : nat := S (List.length (line t)).

Lemma moves_fuel t : moves line_fuel t (line_fuel_of t) t.
Proof. eapply moves_bind; [apply moves_token|apply moves_ret]. Qed.

Lemma put_set_eof cs t : at_text cs t -> moves (update (set_eof false)) t tt t.
Proof. intros [He _ _ _ _] s. destruct t. simpl in He. by subst. Qed.

(** no name here: a digit or a separator *)
Lemma get_string_none c cs t : at_text (c :: cs) t -> is_digit c || is_separator c = true ->
  exists r t', moves token_get_string t r t' /\ at_text (c :: cs) t' /\ FinshToken.string t' !! 0%nat = Some 0.
Proof.
  intros Ht Hc. set (t1 := set_string (<[0%nat := u8 0]> (FinshToken.string t)) t).
  assert (at_text (c :: cs) t1) as Ht1 by by apply at_text_put.
  assert (FinshToken.string t1 !! 0%nat = Some 0) as Hz.
  { unfold t1. simpl. rewrite list_lookup_insert_eq; [done|]. rewrite (text_buffer _ _ Ht). unfold FINSH_STRING_MAX. lia. }
  assert (moves (put_string 0 0) (forward t) tt (forward t1)) as Ep by by eapply moves_put; [eapply at_text_forward|vm_compute; lia].
  unfold token_get_string. destruct (is_digit c) eqn:Hd.
  - exists (-1), t1. split; [|done]. eapply moves_bind; [by eapply moves_next|]. eapply moves_bind; [apply moves_token|]. cbn [forward set_position eof].
    rewrite (text_eof _ _ Ht). eapply moves_bind; [exact Ep|]. rewrite Hd. eapply moves_bind; [by eapply moves_prev|apply moves_ret].
  - simpl in Hc. exists 0, (set_string (<[0%nat := u8 0]> (FinshToken.string t1)) t1). split_and!; [|by apply at_text_put|].
    + eapply moves_bind; [by eapply moves_next|]. eapply moves_bind; [apply moves_token|]. cbn [forward set_position eof].
      rewrite (text_eof _ _ Ht). eapply moves_bind; [exact Ep|]. rewrite Hd. eapply moves_bind; [apply moves_fuel|].
      eapply (moves_bind _ _ _ 0%nat (forward t1)). { cbn [get_string_loop line_fuel_of]. eapply moves_bind; [apply moves_token|]. rewrite Hc. apply moves_ret. }
      eapply moves_bind; [by eapply put_set_eof, at_text_forward|]. eapply moves_bind; [by eapply moves_prev|].
      eapply moves_bind; [by eapply moves_put; [done|vm_compute; lia]|apply moves_ret].
    + simpl. rewrite list_lookup_insert_eq; [done|]. rewrite length_insert, (text_buffer _ _ Ht). unfold FINSH_STRING_MAX. lia.
Qed.

Lemma letter_byte c : is_separator c = false -> 0 < c < 256 /\ c <> 10.
Proof. unfold is_separator. change (ch "_") with 95. change (ch "a") with 97. change (ch "z") with 122. change (ch "A") with 65. change (ch "Z") with 90.
  change (ch "0") with 48. change (ch "9") with 57. intros Hc. apply negb_false_iff in Hc. rewrite !orb_true_iff, !andb_true_iff, !Z.leb_le, Z.eqb_eq in Hc. lia. Qed.

Definition letters (name : list Z) : Prop := Forall (fun c => is_separator c = false) name.

(** the loop, when the character at the text's front has been read *)
Lemma get_string_loop_spec name d cs : letters name -> is_separator d = true -> forall fuel x rest p pre t, name ++ d :: cs = x :: rest ->
  at_text (x :: rest) t -> (List.length name < fuel)%nat -> (p + List.length name < FINSH_STRING_MAX)%nat ->
  take p (FinshToken.string t) = pre -> List.length pre = p ->
  exists t', moves (get_string_loop fuel x p) (forward t) (p + List.length name)%nat (forward t') /\ at_text (d :: cs) t' /\
    take (p + List.length name) (FinshToken.string t') = pre ++ name.
Proof.
  intros Hn Hd. induction Hn as [|c name Hc Hn IH]; intros [|fuel] x rest p pre t Ex Ht Hf Hp Hpre Hlen; simpl in Hf; try lia; cbn [get_string_loop].
  - injection Ex as -> ->. exists t. rewrite Nat.add_0_r, app_nil_r. split_and!; [|done|done]. eapply moves_bind; [apply moves_token|]. by rewrite Hd.
  - injection Ex as -> <-. set (t1 := set_string (<[p := u8 x]> (FinshToken.string (forward t))) (forward t)).
    assert (at_text (name ++ d :: cs) t1) as Ht1 by (by eapply at_text_put, at_text_forward). cbn [List.length] in Hp |- *.
    destruct (name ++ d :: cs) as [|y rest'] eqn:Ey; [by destruct name|].
    destruct (IH fuel y rest' (S p) (pre ++ [x]) t1 eq_refl Ht1 ltac:(lia) ltac:(lia)) as (t' & E & Ht' & Hs').
    { unfold t1. simpl FinshToken.string. rewrite (take_S_r _ _ x); [|rewrite list_lookup_insert_eq].
      - rewrite take_insert_ge by lia. f_equal. exact Hpre.
      - rewrite u8_small; [done|]. apply letter_byte in Hc. lia.
      - change (FinshToken.string (forward t)) with (FinshToken.string t). rewrite (text_buffer _ _ Ht). lia. }
    { rewrite length_app. simpl. lia. }
    replace (p + S (List.length name))%nat with (S p + List.length name)%nat by lia. exists t'. split_and!; [|done|].
    + eapply moves_bind; [apply moves_token|]. rewrite Hc. cbn [forward set_position eof negb andb]. rewrite (text_eof _ _ Ht). cbn [negb].
      eapply moves_bind; [by eapply moves_put; [eapply at_text_forward|lia]|]. eapply moves_bind; [by eapply moves_next|exact E].
    + rewrite Hs', <-(assoc_L (++)). done.
Qed.

Lemma get_string_name c name d cs t : letters (c :: name) -> is_digit c = false -> is_separator d = true ->
  (List.length (c :: name) < FINSH_STRING_MAX)%nat -> at_text ((c :: name) ++ d :: cs) t ->
  exists t', moves token_get_string t 0 t' /\ at_text (d :: cs) t' /\ take (S (List.length (c :: name))) (FinshToken.string t') = (c :: name) ++ [0].
Proof.
  intros Hn Hc Hd Hl Ht. set (t1 := set_string (<[0%nat := u8 0]> (FinshToken.string t)) t).
  assert (at_text ((c :: name) ++ d :: cs) t1) as Ht1 by by apply at_text_put.
  assert (moves (put_string 0 0) (forward t) tt (forward t1)) as Ep by by eapply moves_put; [eapply at_text_forward|vm_compute; lia].
  pose proof (text_length _ _ Ht) as Hll. rewrite length_app in Hll.
  destruct (get_string_loop_spec (c :: name) d cs Hn Hd (line_fuel_of t1) c (name ++ d :: cs) 0 [] t1 eq_refl Ht1 ltac:(unfold line_fuel_of; cbn [line set_string t1]; lia) ltac:(lia) eq_refl eq_refl)
    as (t2 & E2 & Ht2 & Hs2). rewrite Nat.add_0_l in E2, Hs2. cbn [app] in Hs2.
  exists (set_string (<[List.length (c :: name) := u8 0]> (FinshToken.string t2)) t2). split_and!; [|by apply at_text_put|].
  - unfold token_get_string. eapply moves_bind; [by eapply moves_next|]. eapply moves_bind; [apply moves_token|]. cbn [forward set_position eof].
    rewrite (text_eof _ _ Ht). eapply moves_bind; [exact Ep|]. rewrite Hc. eapply moves_bind; [apply moves_fuel|].
    eapply moves_bind; [exact E2|]. eapply moves_bind; [by eapply put_set_eof, at_text_forward|]. eapply moves_bind; [by eapply moves_prev|].
    eapply moves_bind; [by eapply moves_put|apply moves_ret].
  - simpl FinshToken.string. rewrite (take_S_r _ _ 0); [rewrite take_insert_ge by done; f_equal; exact Hs2|].
    rewrite list_lookup_insert_eq; [done|]. by rewrite (text_buffer _ _ Ht2).
Qed.

(** the string in the buffer *)
Lemma c_string_take buf name : take (S (List.length name)) buf = name ++ [0] -> letters name -> c_string buf = Some name.
Proof.
  revert buf. induction name as [|c name IH]; intros [|b buf] E Hn; try done; simpl in E.
  - by injection E as ->.
  - injection E as -> E. apply Forall_cons in Hn as [Hc Hn]. apply letter_byte in Hc. cbn [c_string]. rewrite (proj2 (Z.eqb_neq c 0)) by lia. by rewrite (IH _ E Hn).
Qed.

Lemma prefix_string_take buf name n : take (S (List.length name)) buf = name ++ [0] -> letters name -> (List.length name <= n)%nat -> prefix_string n buf = name.
Proof.
  revert buf n. induction name as [|c name IH]; intros [|b buf] n E Hn Hl; try done; simpl in E.
  - injection E as ->. by destruct n.
  - injection E as -> E. apply Forall_cons in Hn as [Hc Hn]. apply letter_byte in Hc. destruct n as [|n]; [simpl in Hl; lia|]. cbn [prefix_string].
    rewrite (proj2 (Z.eqb_neq c 0)) by lia. f_equal. apply IH; [done|done|simpl in Hl; lia].
Qed.

(** * Numbers *)

Definition is_letter_digit (c : Z) : bool := is_digit c || is_alpha c.
Definition is_hex_letter (c : Z) : bool := ((ch "a" <=? c) && (c <=? ch "f")) || ((ch "A" <=? c) && (c <=? ch "F")).

(** a digit of the base [2 ^ shift] *)
Definition is_radix_digit (shift c : Z) : bool := (is_digit c || is_hex_letter c) && (digit_value c <? 2 ^ shift).

Definition decimal_value (v : Z) (ds : list Z) : Z := foldl (fun v c => v * 10 + (c - ch "0")) v ds.
Definition radix_value (shift v : Z) (ds : list Z) : Z := foldl (fun v c => v * 2 ^ shift + digit_value c) v ds.

Definition is_decimal (ds : list Z) : Prop :=
  match ds with [] => False | d :: _ => d <> ch "0" end /\ Forall (fun c => is_digit c = true) ds /\ decimal_value 0 ds < 2 ^ 31.

(** 0x1F, 017 or 0b101 *)
Definition is_radix (prefix : list Z) (shift : Z) : Prop :=
  (prefix = [] /\ shift = 3) \/ ((prefix = [ch "x"] \/ prefix = [ch "X"]) /\ shift = 4) \/ ((prefix = [ch "b"] \/ prefix = [ch "B"]) /\ shift = 1).

Inductive numeral : list Z -> Z -> Prop :=
| num_decimal ds : is_decimal ds -> numeral ds (decimal_value 0 ds)
| num_radix prefix shift ds : is_radix prefix shift -> Forall (fun c => is_radix_digit shift c = true) ds -> (List.length ds < 128)%nat ->
    radix_value shift 0 ds < 2 ^ 32 -> numeral (ch "0" :: prefix ++ ds) (radix_value shift 0 ds).

Lemma number_digits_spec digit ds e cs : Forall (fun c => digit c = true) ds -> digit e = false -> forall fuel x rest buf t, ds ++ e :: cs = x :: rest ->
  at_text (x :: rest) t -> (List.length ds < fuel)%nat -> (List.length buf + List.length ds < 128)%nat ->
  exists t', moves (number_digits fuel digit x buf) (forward t) (e, buf ++ ds) (forward t') /\ at_text (e :: cs) t'.
Proof.
  intros Hd He. induction Hd as [|d ds Hd _ IH]; intros [|fuel] x rest buf t Ex Ht Hf Hb; simpl in Hf; try lia; cbn [number_digits List.length] in *.
  - injection Ex as -> ->. exists t. rewrite He, (proj2 (Nat.ltb_lt _ _)), app_nil_r by lia. split; [apply moves_ret|done].
  - injection Ex as -> <-. apply at_text_forward in Ht. destruct (ds ++ e :: cs) as [|y rest'] eqn:Ey; [by destruct ds|].
    destruct (IH fuel y rest' (buf ++ [x]) (forward t) eq_refl Ht ltac:(lia)) as (t' & E & Ht'); [rewrite length_app; simpl; lia|].
    exists t'. split; [|done]. rewrite Hd, (proj2 (Nat.ltb_lt _ _)) by lia. rewrite <-(assoc_L (++)) in E. eapply moves_bind; [by eapply moves_next|exact E].
Qed.

Lemma decimal_loop_spec ds e cs : Forall (fun c => is_digit c = true) ds -> is_digit e = false -> forall fuel x rest a v t, ds ++ e :: cs = x :: rest ->
  at_text (x :: rest) t -> (List.length ds < fuel)%nat -> u32 a = u32 v ->
  exists r t', moves (decimal_loop fuel x a) (forward t) (e, r) (forward t') /\ at_text (e :: cs) t' /\ u32 r = u32 (decimal_value v ds).
Proof.
  intros Hd He. induction Hd as [|d ds Hd _ IH]; intros [|fuel] x rest a v t Ex Ht Hf Hv; simpl in Hf; try lia; cbn [decimal_loop List.length] in *.
  - injection Ex as -> ->. exists a, t. rewrite He. split_and!; [apply moves_ret|done|done].
  - injection Ex as -> <-. apply at_text_forward in Ht. destruct (ds ++ e :: cs) as [|y rest'] eqn:Ey; [by destruct ds|].
    destruct (IH fuel y rest' (s32 (a * 10 + (x - ch "0"))) (v * 10 + (x - ch "0")) (forward t) eq_refl Ht ltac:(lia)) as (r & t' & E & Ht' & Hr).
    { rewrite u32_s32. unfold u32 in *. change (2 ^ 32) with 4294967296 in *. Z.to_euclidean_division_equations. lia. }
    exists r, t'. split_and!; [|done|done]. rewrite Hd. eapply moves_bind; [by eapply moves_next|exact E].
Qed.

Lemma digit_value_radix shift c : is_radix_digit shift c = true -> 0 <= digit_value c < 2 ^ shift.
Proof.
  unfold is_radix_digit. intros Hc. apply andb_prop in Hc as [Hc Hs]. apply Z.ltb_lt in Hs. split; [|done]. clear Hs.
  unfold is_digit, is_hex_letter, digit_value in *. change (ch "0") with 48 in *. change (ch "9") with 57 in *. change (ch "a") with 97 in *.
  change (ch "f") with 102 in *. change (ch "A") with 65 in *. change (ch "F") with 70 in *.
  rewrite !orb_true_iff, !andb_true_iff, !Z.leb_le in Hc. repeat case_match; rewrite ?andb_true_iff, ?Z.leb_le in *; lia.
Qed.

Lemma spec_loop_spec shift ds : 0 < shift < 32 -> Forall (fun c => is_radix_digit shift c = true) ds -> forall v bn1,
  spec_loop shift ds (u32 v) bn1 = u32 (radix_value shift v ds).
Proof.
  intros Hs Hd. induction Hd as [|d ds Hd _ IH]; intros v bn1; [done|]. cbn [spec_loop]. cbv zeta. apply digit_value_radix in Hd.
  assert (2 ^ shift < 2 ^ 32) as Hp by (apply Z.pow_lt_mono_r; lia). change (radix_value shift v (d :: ds)) with (radix_value shift (v * 2 ^ shift + digit_value d) ds).
  set (b1 := Z.lor (u32 (Z.shiftl bn1 shift)) _). rewrite <-(IH _ b1). f_equal. clear b1 IH. rewrite (u32_small (digit_value d)) by (change 4294967296 with (2 ^ 32); lia).
  unfold u32. change 4294967296 with (2 ^ 32). rewrite Z.shiftl_mul_pow2 by lia.
  assert ((v mod 2 ^ 32 * 2 ^ shift) mod 2 ^ 32 = Z.shiftl (v mod 2 ^ (32 - shift)) shift) as ->.
  { rewrite Z.shiftl_mul_pow2 by lia. rewrite Z.mul_mod_idemp_l by done. replace (2 ^ 32) with (2 ^ (32 - shift) * 2 ^ shift) by (rewrite <-Z.pow_add_r by lia; f_equal; lia).
    apply Z.mul_mod_distr_r; lia. }
  rewrite Z.lor_comm, lor_shift by lia. replace (v * 2 ^ shift + digit_value d) with (digit_value d + 2 ^ shift * v) by lia.
  replace (2 ^ 32) with (2 ^ shift * 2 ^ (32 - shift)) by (rewrite <-Z.pow_add_r by lia; f_equal; lia).
  assert (0 < 2 ^ (32 - shift)) by (apply Z.pow_pos_nonneg; lia). rewrite Z.rem_mul_r by lia.
  replace (digit_value d + 2 ^ shift * v) with (digit_value d + v * 2 ^ shift) by lia. rewrite Z.mod_add, Z.div_add by lia.
  rewrite (Z.mod_small (digit_value d)), (Z.div_small (digit_value d)) by lia. done.
Qed.

(** a character that ends a number *)
Definition ends_number (c : Z) : bool := negb (is_letter_digit c).

Lemma ends_number_not c : ends_number c = true -> is_digit c = false /\ is_alpha c = false.
Proof. unfold ends_number, is_letter_digit. by destruct (is_digit c), (is_alpha c). Qed.

Lemma radix_digit_digit shift c : is_radix_digit shift c = true -> (shift = 3 -> is_digit c = true) /\ (shift = 1 -> is_binary c = true) /\ is_letter_digit c = true.
Proof.
  unfold is_radix_digit, is_binary, is_letter_digit, is_alpha. intros Hc. apply andb_prop in Hc as [Hc Hs]. apply Z.ltb_lt in Hs.
  destruct (is_digit c) eqn:Hd.
  - split_and!; [done| |done]. intros ->. unfold is_digit, digit_value in *. change (ch "0") with 48 in *. change (ch "9") with 57 in *. change (ch "1") with 49.
    change (ch "a") with 97 in *. change (ch "f") with 102 in *. change (ch "A") with 65 in *. change (ch "F") with 70 in *.
    rewrite andb_true_iff, !Z.leb_le in Hd. assert (c = 48 \/ c = 49) as [-> | ->]; [|done|done]. repeat case_match; rewrite ?andb_true_iff, ?Z.leb_le in *; lia.
  - simpl in Hc. unfold is_hex_letter, digit_value in *. change (ch "a") with 97 in *. change (ch "f") with 102 in *. change (ch "A") with 65 in *. change (ch "F") with 70 in *.
    assert (97 <= c <= 102 \/ 65 <= c <= 70) as Hr by (rewrite orb_true_iff, !andb_true_iff, !Z.leb_le in Hc; lia).
    assert (10 <= if (97 <=? c) && (c <=? 102) then c - 97 + 10 else if (65 <=? c) && (c <=? 70) then c - 65 + 10 else c - ch "0") as Hge
      by (repeat case_match; rewrite ?andb_true_iff, ?andb_false_iff, ?Z.leb_le, ?Z.leb_gt in *; lia).
    split_and!; [intros ->; lia|intros ->; lia|]. simpl.
    assert (c ∈ [97; 98; 99; 100; 101; 102; 65; 66; 67; 68; 69; 70]) as Hin.
    { assert (c = 97 \/ c = 98 \/ c = 99 \/ c = 100 \/ c = 101 \/ c = 102 \/ c = 65 \/ c = 66 \/ c = 67 \/ c = 68 \/ c = 69 \/ c = 70) by lia. set_solver. }
    clear -Hin. repeat (apply elem_of_cons in Hin as [->|Hin]; [done|]). by apply elem_of_nil in Hin.
Qed.

Definition read_number (k : token_type) (v : Z) (rest : list Z) (t' : finsh_token) : Prop :=
  current_token t' = k /\ tvalue t' = u32 v /\ at_text rest t'.

(** after the digits: the value is stored, and the suffix looked for *)
Definition finish (e r : Z) : T unit :=
  update (fun t => set_token value_int (set_tvalue (u32 r) t)) ;!
  if (e =? ch "l") || (e =? ch "L") then update (set_token value_long) else token_prev_char.

Lemma finish_int (e r v : Z) cs t : at_text (e :: cs) t -> ends_number e = true -> u32 r = u32 v ->
  exists t', moves (finish e r) (forward t) tt t' /\ read_number value_int v (e :: cs) t'.
Proof.
  intros Ht He Hv. set (t1 := set_token value_int (set_tvalue (u32 r) t)). exists t1.
  assert (at_text (e :: cs) t1) as Ht1 by by apply at_text_token, at_text_value.
  split; [|split_and!; [done|done|done]]. eapply moves_bind; [apply moves_update|]. assert ((e =? ch "l") || (e =? ch "L") = false) as ->.
  { apply orb_false_iff. split; apply Z.eqb_neq; intros ->; done. }
  exact (moves_prev (e :: cs) t1 Ht1).
Qed.

Lemma finish_long (e r v : Z) cs t : at_text (e :: cs) t -> e = ch "l" \/ e = ch "L" -> u32 r = u32 v ->
  exists t', moves (finish e r) (forward t) tt t' /\ read_number value_long v cs t'.
Proof.
  intros Ht He Hv. eexists. split; [eapply moves_bind; [apply moves_update|]; destruct He as [-> | ->]; apply moves_update|].
  split_and!; [done|done|]. apply at_text_token, at_text_token, at_text_value. by eapply at_text_forward.
Qed.

(** a decimal number, up to the character after it *)
Lemma proc_decimal ds e cs t : is_decimal ds -> is_digit e = false -> at_text (ds ++ e :: cs) t ->
  exists r t1, at_text (e :: cs) t1 /\ u32 r = u32 (decimal_value 0 ds) /\
    forall t', moves (finish e r) (forward t1) tt t' -> moves token_proc_number t tt t'.
Proof.
  intros (Hh & Hd & _) He Ht. destruct ds as [|d ds]; [done|]. pose proof (text_length _ _ Ht) as Hl. rewrite length_app in Hl.
  destruct (decimal_loop_spec (d :: ds) e cs Hd He (line_fuel_of t) d (ds ++ e :: cs) 0 0 t eq_refl Ht ltac:(unfold line_fuel_of; lia) eq_refl) as (r & t1 & E & Ht1 & Hr).
  exists r, t1. split_and!; [done|done|]. intros t' E2. unfold token_proc_number. eapply moves_bind; [apply moves_fuel|].
  eapply moves_bind; [by eapply moves_next|]. rewrite (proj2 (Z.eqb_neq d (ch "0")) Hh). eapply moves_bind; [exact E|]. exact E2.
Qed.

(** the digits after the prefix *)
Definition radix_branch (fuel : nat) (c : Z) : T ((Z * list Z) * Z) :=
  if (c =? ch "x") || (c =? ch "X") then
    let! c := token_next_char in
    let! r := number_digits fuel (fun c => is_digit c || is_alpha c) c [] in ret (r, 16)
  else if (c =? ch "b") || (c =? ch "B") then
    let! c := token_next_char in
    let! r := number_digits fuel is_binary c [] in ret (r, 2)
  else
    let! r := number_digits fuel is_digit c [] in ret (r, 8).

Lemma radix_branch_spec prefix shift ds e cs fuel x rest t : is_radix prefix shift -> Forall (fun c => is_radix_digit shift c = true) ds ->
  (List.length ds < 128)%nat -> ends_number e = true -> prefix ++ ds ++ e :: cs = x :: rest -> at_text (x :: rest) t -> (List.length ds < fuel)%nat ->
  exists t', moves (radix_branch fuel x) (forward t) ((e, ds), 2 ^ shift) (forward t') /\ at_text (e :: cs) t'.
Proof.
  intros Hr Hd Hl He Ex Ht Hf. pose proof (ends_number_not e He) as [He1 He2].
  assert (forall digit y rest t, (forall c, is_radix_digit shift c = true -> digit c = true) -> digit e = false -> ds ++ e :: cs = y :: rest -> at_text (y :: rest) t ->
    exists t', moves (number_digits fuel digit y []) (forward t) (e, ds) (forward t') /\ at_text (e :: cs) t') as G.
  { intros digit y rest' t0 H1 H2 H3 H4. apply (number_digits_spec digit ds e cs (Forall_impl _ _ _ Hd H1) H2 fuel y rest' [] t0 H3 H4 Hf). simpl. lia. }
  unfold radix_branch. destruct Hr as [[-> ->]|[[Hp ->]|[Hp ->]]].
  - destruct (G is_digit x rest t) as (t' & E & Ht'); [intros c Hc; by apply radix_digit_digit in Hc as (Hc & _); apply Hc|done|done|done|].
    exists t'. split; [|done].
    assert (is_digit x = true \/ ends_number x = true) as Hx.
    { simpl in Ex. destruct Hd as [|d ds Hd _]; injection Ex as -> _; [by right|left]. apply radix_digit_digit in Hd as (Hd & _). by apply Hd. }
    assert ((x =? ch "x") || (x =? ch "X") = false /\ (x =? ch "b") || (x =? ch "B") = false) as [-> ->].
    { rewrite !orb_false_iff, !Z.eqb_neq. split_and!; intros ->; by destruct Hx. }
    eapply moves_bind; [exact E|apply moves_ret].
  - assert (exists y rest', ds ++ e :: cs = y :: rest' /\ rest = y :: rest') as (y & rest' & Ey & ->).
    { destruct (ds ++ e :: cs) as [|y rest'] eqn:Ey; [by destruct ds|]. exists y, rest'. split; [done|]. destruct Hp as [-> | ->]; injection Ex as _ <-; done. }
    pose proof (at_text_forward _ _ _ Ht) as Ht1.
    destruct (G (fun c => is_digit c || is_alpha c) y rest' (forward t)) as (t' & E & Ht'); [intros c Hc; by apply radix_digit_digit in Hc as (_ & _ & Hc)|by rewrite He1, He2|done|done|].
    exists t'. split; [|done]. assert ((x =? ch "x") || (x =? ch "X") = true) as -> by (destruct Hp as [-> | ->]; by injection Ex as <- _).
    eapply moves_bind; [by eapply moves_next|]. eapply moves_bind; [exact E|apply moves_ret].
  - assert (exists y rest', ds ++ e :: cs = y :: rest' /\ rest = y :: rest') as (y & rest' & Ey & ->).
    { destruct (ds ++ e :: cs) as [|y rest'] eqn:Ey; [by destruct ds|]. exists y, rest'. split; [done|]. destruct Hp as [-> | ->]; injection Ex as _ <-; done. }
    pose proof (at_text_forward _ _ _ Ht) as Ht1.
    destruct (G is_binary y rest' (forward t)) as (t' & E & Ht'); [intros c Hc; apply radix_digit_digit in Hc as (_ & Hc & _); by apply Hc| |done|done|].
    { apply orb_false_iff. split; apply Z.eqb_neq; intros ->; done. }
    exists t'. split; [|done]. assert ((x =? ch "x") || (x =? ch "X") = false /\ (x =? ch "b") || (x =? ch "B") = true) as [-> ->] by (destruct Hp as [-> | ->]; by injection Ex as <- _).
    eapply moves_bind; [by eapply moves_next|]. eapply moves_bind; [exact E|apply moves_ret].
Qed.

Lemma proc_radix prefix shift ds e cs t : is_radix prefix shift -> Forall (fun c => is_radix_digit shift c = true) ds ->
  (List.length ds < 128)%nat -> ends_number e = true -> at_text ((ch "0" :: prefix ++ ds) ++ e :: cs) t ->
  exists r t1, at_text (e :: cs) t1 /\ u32 r = u32 (radix_value shift 0 ds) /\
    forall t', moves (finish e r) (forward t1) tt t' -> moves token_proc_number t tt t'.
Proof.
  intros Hr Hd Hl He Ht. pose proof (text_length _ _ Ht) as Hll. cbn [app List.length] in Hll. rewrite !length_app in Hll.
  cbn [app] in Ht. rewrite <-(assoc_L (++)) in Ht. pose proof (at_text_forward _ _ _ Ht) as Ht1.
  destruct (prefix ++ ds ++ e :: cs) as [|x rest] eqn:Ex; [by destruct prefix; [destruct ds|]|].
  destruct (radix_branch_spec prefix shift ds e cs (line_fuel_of t) x rest (forward t) Hr Hd Hl He Ex Ht1 ltac:(unfold line_fuel_of; lia)) as (t2 & E & Ht2).
  exists (token_spec_number ds (2 ^ shift)), t2. split_and!; [done| |].
  - unfold token_spec_number. rewrite u32_s32. assert (base_shift (2 ^ shift) = shift /\ 0 < shift < 32) as [-> Hs] by (destruct Hr as [[_ ->]|[[_ ->]|[_ ->]]]; done).
    pose proof (spec_loop_spec shift ds Hs Hd 0 0) as E0. change (u32 0) with 0 in E0. rewrite E0. apply Z.mod_mod. done.
  - intros t' E2. unfold token_proc_number. eapply moves_bind; [apply moves_fuel|]. eapply moves_bind; [by eapply moves_next|]. rewrite Z.eqb_refl.
    eapply (moves_bind _ _ _ (e, token_spec_number ds (2 ^ shift)) (forward t2)); [|exact E2]. eapply moves_bind; [by eapply moves_next|]. fold (radix_branch (line_fuel_of t) x).
    eapply moves_bind; [exact E|apply moves_ret].
Qed.

(** * Tokens *)

Definition next_is (P : Z -> bool) (rest : list Z) : Prop := match rest with [] => False | c :: _ => P c = true end.

(** the operators; the three of one character that could be the first of two *)
Definition op_text (k : token_type) : list Z :=
  match k with
  | left_paren => [ch "("] | right_paren => [ch ")"] | comma => [ch ","] | semicolon => [ch ";"] | tk_and => [ch "&"] | tk_mul => [ch "*"]
  | tk_or => [ch "|"] | tk_mod => [ch "%"] | tk_bitwise => [ch "~"] | tk_xor => [ch "^"] | tk_assign => [ch "="]
  | tk_inc => [ch "+"; ch "+"] | tk_dec => [ch "-"; ch "-"] | tk_shl => [ch "<"; ch "<"] | tk_shr => [ch ">"; ch ">"]
  | tk_add => [ch "+"] | tk_sub => [ch "-"] | tk_div => [ch "/"]
  | _ => []
  end.
Definition op_ends (k : token_type) (rest : list Z) : Prop :=
  match k with
  | tk_add => next_is (fun c => negb (c =? ch "+")) rest
  | tk_sub => next_is (fun c => negb (c =? ch "-")) rest
  | tk_div => next_is (fun c => negb (c =? ch "/")) rest
  | _ => True
  end.

(** a name that is not a word of the language *)
Definition is_name (name : list Z) : Prop :=
  match name with [] => False | c :: _ => is_digit c = false end /\ letters name /\ (List.length name < FINSH_NAME_MAX)%nat /\
  list_find (fun e => strcmp e.1 name = 0) finsh_name_table = None.

Definition spelling (x : lexeme) (cs rest : list Z) : Prop :=
  match x with
  | LTok value_null => (cs = text "NULL" \/ cs = text "null") /\ next_is is_separator rest
  | LTok k => op_text k <> [] /\ cs = op_text k /\ op_ends k rest
  | LId name => cs = name /\ is_name name /\ next_is is_separator rest
  | LInt v => numeral cs v /\ next_is ends_number rest
  | LLong v => exists ds l, cs = ds ++ [l] /\ is_decimal ds /\ v = decimal_value 0 ds /\ (l = ch "l" \/ l = ch "L")
  | LChar c => cs = [39; c; 39] /\ c <> 92
  end.

Lemma run_symbol bs c rest t : blanks bs -> is_blank c = false -> is_digit c || is_separator c = true -> at_text (bs ++ c :: rest) t ->
  exists t1, at_text (c :: rest) t1 /\ forall t', moves (token_operator c) (forward t1) tt t' -> moves token_run t tt t'.
Proof.
  intros Hb Hc Hs Ht. destruct (trim_spec bs c rest t Hb Hc Ht) as (t0 & E0 & Ht0).
  destruct (get_string_none c rest t0 Ht0 Hs) as (r & t1 & E1 & Ht1 & Hz). exists t1. split; [done|]. intros t' E2. unfold token_run.
  eapply moves_bind; [exact E0|]. eapply moves_bind; [exact E1|]. eapply moves_bind; [apply moves_token|]. rewrite (text_eof _ _ Ht1), Hz. cbn [of_option].
  eapply moves_bind; [apply moves_ret|]. cbn [Z.eqb negb]. eapply moves_bind; [by eapply moves_next|exact E2].
Qed.

Lemma letter_not_blank c : is_separator c = false -> is_blank c = false.
Proof. intros Hc. unfold is_blank. rewrite !orb_false_iff, !Z.eqb_neq. split_and!; intros ->; done. Qed.

Lemma run_name bs name d rest t : blanks bs -> match name with [] => False | c :: _ => is_digit c = false end -> letters name ->
  (List.length name < FINSH_NAME_MAX)%nat -> is_separator d = true -> at_text (bs ++ name ++ d :: rest) t ->
  exists t1, at_text (d :: rest) t1 /\ prefix_string FINSH_NAME_MAX (FinshToken.string t1) = name /\
    forall t', moves (let! known := token_match_name name in if known : bool then ret tt else update (set_token identifier)) t1 tt t' -> moves token_run t tt t'.
Proof.
  intros Hb Hc Hn Hl Hd Ht. destruct name as [|c name]; [done|]. pose proof Hn as Hn'. apply Forall_cons in Hn' as [Hcs _].
  destruct (trim_spec bs c (name ++ d :: rest) t Hb (letter_not_blank c Hcs) Ht) as (t0 & E0 & Ht0).
  destruct (get_string_name c name d rest t0 Hn Hc Hd ltac:(unfold FINSH_NAME_MAX, FINSH_STRING_MAX in *; lia) Ht0) as (t1 & E1 & Ht1 & Hs).
  exists t1. split; [done|]. split; [apply prefix_string_take; [done|done|lia]|]. intros t' E2. unfold token_run.
  eapply moves_bind; [exact E0|]. eapply moves_bind; [exact E1|]. eapply moves_bind; [apply moves_token|]. rewrite (text_eof _ _ Ht1), (c_string_take _ _ Hs Hn).
  destruct (FinshToken.string t1) as [|b buf]; [done|]. simpl in Hs. injection Hs as -> Hs. cbn [lookup list_lookup of_option].
  eapply moves_bind; [apply moves_ret|]. apply letter_byte in Hcs. rewrite (proj2 (Z.eqb_neq c 0)) by lia. cbn [negb].
  eapply moves_bind; [apply moves_ret|]. exact E2.
Qed.

(** the state in which the lexer is after a token *)
Definition after (x : lexeme) (rest : list Z) (t t' : finsh_token) : Prop := moves token_run t tt t' /\ holds x t' /\ at_text rest t'.

Lemma run_number bs cs e rest t : blanks bs -> match cs with [] => False | d :: _ => is_digit d = true end -> at_text (bs ++ cs ++ e :: rest) t ->
  exists t1, at_text (cs ++ e :: rest) t1 /\ forall t', moves token_proc_number t1 tt t' -> moves token_run t tt t'.
Proof.
  intros Hb Hd Ht. destruct cs as [|d cs]; [done|].
  assert (is_blank d = false) as Hbl by (unfold is_blank; rewrite !orb_false_iff, !Z.eqb_neq; split_and!; intros ->; done).
  destruct (run_symbol bs d (cs ++ e :: rest) t Hb Hbl ltac:(by rewrite Hd) Ht) as (t1 & Ht1 & Hrun). exists t1. split; [done|]. intros t' E.
  apply Hrun. unfold token_operator. assert (forall c, is_digit c = false -> (d =? c) = false) as Hne by (intros c Hc; apply Z.eqb_neq; intros ->; congruence).
  rewrite !Hne by done. rewrite Hd. eapply moves_bind; [by eapply moves_prev|exact E].
Qed.

Lemma numeral_head cs v : numeral cs v -> match cs with [] => False | d :: _ => is_digit d = true end.
Proof. destruct 1 as [ds (Hh & Hd & _)|]; [|done]. destruct ds as [|d ds]; [done|]. by apply Forall_cons in Hd as [? _]. Qed.

Lemma reads_int bs cs v rest t : blanks bs -> numeral cs v -> next_is ends_number rest -> at_text (bs ++ cs ++ rest) t -> exists t', after (LInt v) rest t t'.
Proof.
  intros Hb Hv He Ht. destruct rest as [|e rest]; [done|]. destruct (run_number bs cs e rest t Hb (numeral_head _ _ Hv) Ht) as (t1 & Ht1 & Hrun).
  assert (exists r t2, at_text (e :: rest) t2 /\ u32 r = u32 v /\ forall t', moves (finish e r) (forward t2) tt t' -> moves token_proc_number t1 tt t') as (r & t2 & Ht2 & Hr & Hp).
  { destruct Hv as [ds Hd|prefix shift ds Hr Hd Hl _]; [by apply proc_decimal; [|apply ends_number_not|]|by apply (proc_radix prefix)]. }
  destruct (finish_int e r v rest t2 Ht2 He Hr) as (t' & E & K & V & Ht'). exists t'. split; [by apply Hrun, Hp|by split_and!].
Qed.

Lemma reads_long bs ds l rest t : blanks bs -> is_decimal ds -> l = ch "l" \/ l = ch "L" -> at_text (bs ++ (ds ++ [l]) ++ rest) t ->
  exists t', after (LLong (decimal_value 0 ds)) rest t t'.
Proof.
  intros Hb Hd Hl Ht. rewrite <-(assoc_L (++) ds) in Ht. cbn [app] in Ht.
  destruct (run_number bs ds l rest t Hb (numeral_head _ _ (num_decimal ds Hd)) Ht) as (t1 & Ht1 & Hrun).
  destruct (proc_decimal ds l rest t1 Hd ltac:(by destruct Hl as [-> | ->]) Ht1) as (r & t2 & Ht2 & Hr & Hp).
  destruct (finish_long l r _ rest t2 Ht2 Hl Hr) as (t' & E & K & V & Ht'). exists t'. split; [by apply Hrun, Hp|by split_and!].
Qed.

Lemma reads_id bs name rest t : blanks bs -> is_name name -> next_is is_separator rest -> at_text (bs ++ name ++ rest) t -> exists t', after (LId name) rest t t'.
Proof.
  intros Hb (Hc & Hn & Hl & Hf) Hs Ht. destruct rest as [|d rest]; [done|].
  destruct (run_name bs name d rest t Hb Hc Hn Hl Hs Ht) as (t1 & Ht1 & Hp & Hrun). exists (set_token identifier t1). split; [|split; [done|by apply at_text_token]].
  apply Hrun. eapply (moves_bind _ _ _ false t1); [|apply moves_update]. unfold token_match_name. rewrite Hf. apply moves_ret.
Qed.

Lemma reads_null bs cs rest t : blanks bs -> cs = text "NULL" \/ cs = text "null" -> next_is is_separator rest -> at_text (bs ++ cs ++ rest) t ->
  exists t', after (LTok value_null) rest t t'.
Proof.
  intros Hb Hcs Hs Ht. destruct rest as [|d rest]; [done|].
  assert (match cs with [] => False | c :: _ => is_digit c = false end /\ letters cs /\ (List.length cs < FINSH_NAME_MAX)%nat /\
    exists i, list_find (fun e => strcmp e.1 cs = 0) finsh_name_table = Some (i, (cs, value_null))) as (Hc & Hn & Hl & i & Hf).
  { destruct Hcs as [-> | ->]; (split; [done|]; split; [by repeat constructor|]; split; [vm_compute; lia|]); eexists; by vm_compute. }
  destruct (run_name bs cs d rest t Hb Hc Hn Hl Hs Ht) as (t1 & Ht1 & Hp & Hrun). exists (set_token value_null t1). split; [|split; [done|by apply at_text_token]].
  apply Hrun. eapply (moves_bind _ _ _ true); [|apply moves_ret]. unfold token_match_name. rewrite Hf. eapply moves_bind; [apply moves_update|apply moves_ret].
Qed.

Lemma reads_char bs c rest t : blanks bs -> c <> 92 -> at_text (bs ++ [39; c; 39] ++ rest) t -> exists t', after (LChar c) rest t t'.
Proof.
  intros Hb Hc Ht. destruct (run_symbol bs 39 (c :: 39 :: rest) t Hb eq_refl eq_refl Ht) as (t1 & Ht1 & Hrun).
  apply at_text_forward in Ht1. pose proof (at_text_forward _ _ _ Ht1) as Ht2. pose proof (at_text_forward _ _ _ Ht2) as Ht3.
  eexists. split; [apply Hrun|].
  - change (token_operator 39) with (let! v := token_proc_char in update (fun t => set_token value_char (set_tvalue (tvalue t - u8 (tvalue t) + u8 v) t))).
    eapply moves_bind; [|apply moves_update]. unfold token_proc_char. eapply moves_bind; [by eapply moves_next|]. rewrite (proj2 (Z.eqb_neq c 92) Hc).
    eapply moves_bind; [apply moves_ret|]. eapply moves_bind; [by eapply moves_next|]. apply moves_ret.
  - split; [|by apply at_text_token, at_text_value]. split; [done|]. simpl tvalue. unfold u8. Z.to_euclidean_division_equations. lia.
Qed.

(** an operator of two characters, of one that could be two, of one *)
Lemma reads_one_or_two c two one rest t (second : bool) : at_text (if second then c :: rest else rest) t ->
  (second = false -> next_is (fun d => negb (d =? c)) rest) ->
  exists t', moves (one_or_two c two one) t tt t' /\ current_token t' = (if second then two else one) /\ at_text rest t'.
Proof.
  intros Ht Hs. unfold one_or_two. destruct second.
  - eexists. split; [eapply moves_bind; [by eapply moves_next|]; rewrite Z.eqb_refl; apply moves_update|]. split; [done|]. by eapply at_text_token, at_text_forward.
  - destruct rest as [|d rest]; [by destruct (Hs eq_refl)|]. exists (set_token one t). split_and!; [|done|by apply at_text_token].
    specialize (Hs eq_refl). simpl in Hs. apply negb_true_iff in Hs. eapply moves_bind; [by eapply moves_next|]. rewrite Hs.
    eapply moves_bind; [by eapply moves_prev|apply moves_update].
Qed.

Lemma reads_operator bs k rest t : blanks bs -> op_text k <> [] -> op_ends k rest -> at_text (bs ++ op_text k ++ rest) t -> exists t', after (LTok k) rest t t'.
Proof.
  intros Hb Hk He Ht.
  assert (exists c tl, op_text k = c :: tl /\ is_blank c = false /\ is_digit c || is_separator c = true) as (c & tl & Ek & Hc & Hs) by (destruct k; try done; by eexists _, _).
  rewrite Ek in Ht. destruct (run_symbol bs c (tl ++ rest) t Hb Hc Hs Ht) as (t1 & Ht1 & Hrun). apply at_text_forward in Ht1.
  assert (exists t', moves (token_operator c) (forward t1) tt t' /\ current_token t' = k /\ at_text rest t') as (t' & E & K & Ht').
  { destruct k; try done; injection Ek as <- <-; cbn [app] in Ht1;
      try (eexists; split; [apply moves_update|split; [done|by apply at_text_token]]).
    - by apply (reads_one_or_two (ch "+") tk_inc tk_add rest _ false).
    - by apply (reads_one_or_two (ch "+") tk_inc tk_add rest _ true).
    - by apply (reads_one_or_two (ch "-") tk_dec tk_sub rest _ false).
    - by apply (reads_one_or_two (ch "-") tk_dec tk_sub rest _ true).
    - by apply (reads_one_or_two (ch "/") tk_eof tk_div rest _ false).
    - by apply (reads_one_or_two (ch "<") tk_shl tk_bad rest _ true).
    - by apply (reads_one_or_two (ch ">") tk_shr tk_bad rest _ true). }
  exists t'. split; [by apply Hrun|]. by split_and!.
Qed.

Lemma reads_lexeme bs x cs rest t : blanks bs -> spelling x cs rest -> at_text (bs ++ cs ++ rest) t -> exists t', after x rest t t'.
Proof.
  intros Hb Hx Ht. destruct x as [k|v|v|c|name].
  - destruct (decide (k = value_null)) as [->|Hne]; [destruct Hx as [Hcs Hs]; by eapply reads_null|].
    assert (op_text k <> [] /\ cs = op_text k /\ op_ends k rest) as (H1 & -> & H2) by (by destruct k). by eapply reads_operator.
  - destruct Hx. by eapply reads_int.
  - destruct Hx as (ds & l & -> & Hd & -> & Hl). by eapply reads_long.
  - destruct Hx as [-> Hc]. by eapply reads_char.
  - destruct Hx as (-> & Hn & Hs). by eapply reads_id.
Qed.

(** * Texts *)

(** the tokens of a line, up to its end *)
Inductive spelled : list lexeme -> list Z -> Prop :=
| sp_end bs : blanks bs -> spelled [LTok tk_eof] bs
| sp_token bs x cs rest xs : blanks bs -> spelling x cs rest -> spelled xs rest -> spelled (x :: xs) (bs ++ cs ++ rest).

Lemma spelled_stream xs cs t : spelled xs cs -> at_text cs t -> stream t xs.
Proof.
  intros Hx. revert t. induction Hx as [bs Hb|bs x cs rest xs Hb Hs _ IH]; intros t Ht.
  - destruct (token_run_end bs t Hb Ht) as (t' & E & K & R). exists t'. split; [|done]. split; [apply Ht|]. by split_and!.
  - destruct (reads_lexeme bs x cs rest t Hb Hs Ht) as (t' & E & K & R). exists t'. split; [|by apply IH]. split; [apply Ht|]. split; [exact E|]. split; [done|apply R].
Qed.

Lemma numeral_not_empty cs v : numeral cs v -> (0 < List.length cs)%nat.
Proof. destruct 1 as [ds [Hh _]|]; [|simpl; lia]. destruct ds; [done|simpl; lia]. Qed.

Lemma spelling_length x cs rest : spelling x cs rest -> (0 < List.length cs)%nat.
Proof.
  destruct x as [k|v|v|c|name]; simpl.
  - intros Hx. destruct (decide (k = value_null)) as [->|Hne]; [destruct Hx as [[-> | ->] _]; simpl; lia|].
    assert (op_text k <> [] /\ cs = op_text k /\ op_ends k rest) as (H1 & -> & _) by (by destruct k). destruct (op_text k); [done|simpl; lia].
  - intros [Hn _]. by eapply numeral_not_empty.
  - intros (ds & l & -> & _). rewrite length_app. simpl. lia.
  - intros [-> _]. simpl. lia.
  - intros (-> & (Hn & _) & _). destruct name; [done|simpl; lia].
Qed.

Lemma spelled_length xs cs : spelled xs cs -> (List.length xs <= S (List.length cs))%nat.
Proof.
  induction 1 as [|bs x cs rest xs _ Hs _ IH]; [simpl; lia|]. apply spelling_length in Hs. rewrite !length_app. cbn [List.length]. lia.
Qed.
