(* ===== verification/FinshShell.v ===== *)
(** The shell on a line of text: the type check gives every node of a line its type and mark,
    and what finsh_run_line shows is the value of the expressions that the text spells. *)

From Stdlib Require Import Ascii String.
From S2P Require Import Prelude Mem Printf Finsh FinshHeap FinshCompiler FinshVm FinshVmSpec FinshExpr FinshEval FinshTree FinshFront FinshLine FinshToken FinshParser FinshNodes FinshParse FinshStatements FinshLex FinshRun.

Open Scope Z_scope.

Section types.
Context `{finsh_image}.
Context (vars : list finsh_var).

(** * The type check *)

Lemma represents_next tbl f : represents tbl f -> represents tbl (next f).
Proof. destruct f; [done|]. by intros (_ & _ & _ & _ & Hs). Qed.

Lemma represents_kids tbl f : represents tbl f -> represents tbl (kids f).
Proof. destruct f; [done|]. by intros (_ & _ & _ & Hc & _). Qed.

(** the first node of the forest has data type [d]; it stands for an address or for a value *)
Definition says (tbl : list finsh_node) (f : forest) (d : Z) (is_addr : bool) : Prop :=
  match root f with
  | Some p => exists n, tbl !! p = Some n /\ data_type n = d /\ has_flag (idtype n) FINSH_IDTYPE_ADDRESS = is_addr
  | None => False
  end.

(** the nodes of an expression: each has the data type of the subexpression it stands for, and
    those whose address is wanted are marked: the left side of an assignment, the operand of
    [&] and the variable that a prefix operator counts *)
Fixpoint labelled (tbl : list finsh_node) (e : expr) (f : forest) : Prop :=
  says tbl f (expr_data vars e) false /\
  match e with
  | Char _ | Const _ | Load _ => True
  | Addr x => says tbl (kids f) (expr_data vars (Load x)) true
  | Pre _ i => says tbl (kids f) (expr_data vars (Load (PVar i))) true
  | Post _ i => says tbl (kids f) (expr_data vars (Load (PVar i))) false
  | Bin _ a b => labelled tbl a (kids f) /\ labelled tbl b (next (kids f))
  | Not a | Deref a => labelled tbl a (kids f)
  | Assign x a => says tbl (kids f) (expr_data vars (Load x)) true /\ labelled tbl a (next (kids f))
  | AssignAt a b =>
      says tbl (kids f) (expr_data vars a) true /\ labelled tbl a (kids (kids f)) /\ labelled tbl b (next (kids f))
  | Call _ args => says tbl (kids f) FINSH_DATA_TYPE_VOID false /\ labelled_args tbl args (next (kids f))
  end
with labelled_args (tbl : list finsh_node) (es : exprs) (f : forest) : Prop :=
  match es with Nil => True | Cons a es => labelled tbl a f /\ labelled_args tbl es (next f) end.

Fixpoint labelled_line (tbl : list finsh_node) (es : list expr) (f : forest) : Prop :=
  match es with [] => True | e :: es => labelled tbl e f /\ labelled_line tbl es (next f) end.

(** the type check writes only the data type and the mark of a node *)
Definition relabels (n n' : finsh_node) : Prop :=
  exists d (is_addr : bool), n' = set_data_type d (if is_addr then set_idtype (Z.lor (idtype n) FINSH_IDTYPE_ADDRESS) n else n).

(** ** What the walk does is what the expressions say *)

Lemma says_head tbl a f n d b : represents tbl (annotate vars a f) -> head_node (annotate vars a f) = Some n ->
  data_type n = d -> has_flag (idtype n) FINSH_IDTYPE_ADDRESS = b -> says tbl f d b.
Proof. destruct f as [|p m c s]; [done|]. intros (Hp & _) [= <-] Hd Hb. by eexists. Qed.

Lemma expr_head e f : is_expr e f ->
  exists p n c s, f = FNode p n c s /\ has_flag (idtype n) FINSH_IDTYPE_ADDRESS = false.
Proof.
  intros Hf. destruct f as [|p n c s]; [destruct e; simpl in Hf; tauto|]. exists p, n, c, s. split; [done|].
  assert (idtype n = 0 \/ exists x, idtype n = place_flag x) as [->|[[] ->]]; [|done..].
  destruct e as [| |x| | | | | | | | |]; simpl in Hf; unfold is_node in *; cbn in Hf; try (left; tauto). right. exists x. tauto.
Qed.

Lemma says_expr tbl e f t : expr_type vars e = Some t -> is_expr e f -> represents tbl (annotate vars FINSH_NODE_VALUE f) ->
  says tbl f (expr_data vars e) false.
Proof.
  intros Ht Hf Hr. destruct (proj1 (front_expr vars) e f t Ht Hf) as ((m & Hm & Hd) & _).
  eapply says_head; [exact Hr|exact Hm|by unfold expr_data; rewrite Ht, Hd; destruct t|].
  destruct (expr_head e f Hf) as (p & n & c & s & -> & Hn). injection Hm as <-.
  destruct (annotate_node_fields vars FINSH_NODE_VALUE n (annotate vars (child_addr n FINSH_NODE_VALUE) c)) as (_ & _ & _ & _ & _ & ->).
  by rewrite mark_none.
Qed.

Lemma says_place tbl x f w (b : bool) : is_place x f -> place_width vars x = Some w ->
  represents tbl (annotate vars (if b then FINSH_IDTYPE_ADDRESS else FINSH_NODE_VALUE) f) -> says tbl f (expr_data vars (Load x)) b.
Proof.
  intros Hx Hw Hr. destruct (compiles_place vars (if b then FINSH_IDTYPE_ADDRESS else FINSH_NODE_VALUE) x f w Hx Hw ltac:(destruct b; auto)) as [((m & Hm & Hd) & _) _].
  eapply says_head; [exact Hr|exact Hm|unfold expr_data; simpl; by rewrite Hw|].
  destruct f as [|p n c s]; [done|]. destruct Hx as (_ & I & _ & ->). injection Hm as <-.
  destruct (annotate_node_fields vars (if b then FINSH_IDTYPE_ADDRESS else FINSH_NODE_VALUE) n FNil) as (_ & _ & _ & _ & _ & ->).
  unfold mark_address. rewrite I. by destruct b, x.
Qed.

(** the node of an expression, and its children *)
Lemma represents_inside tbl a p n c s : represents tbl (annotate vars a (FNode p n c s)) ->
  represents tbl (annotate vars (child_addr n a) c).
Proof. by intros (_ & _ & _ & Hc & _). Qed.

Lemma annotate_head a p n c s :
  head_node (annotate vars a (FNode p n c s)) = Some (annotate_node vars a n (annotate vars (child_addr n a) c)).
Proof. done. Qed.

Lemma represents_after tbl a f : represents tbl (annotate vars a f) -> represents tbl (annotate vars FINSH_NODE_VALUE (next f)).
Proof. intros Hr. rewrite <-(annotate_next vars a). by apply represents_next. Qed.

Definition labels_expr (tbl : list finsh_node) (e : expr) : Prop := forall f t,
  expr_type vars e = Some t -> is_expr e f -> represents tbl (annotate vars FINSH_NODE_VALUE f) -> labelled tbl e f.
Definition labels_args (tbl : list finsh_node) (es : exprs) : Prop := forall f,
  args_typed vars es = true -> is_args es f -> represents tbl (annotate vars FINSH_NODE_VALUE f) -> labelled_args tbl es f.

Lemma labels_leaf tbl e : match e with Char _ | Const _ | Load _ => True | _ => False end -> labels_expr tbl e.
Proof. intros He f t Ht Hf Hr. destruct e; try done; (split; [by eapply says_expr|done]). Qed.

(** an operator on a place *)
Lemma labels_of_place tbl e : match e with Addr _ | Pre _ _ | Post _ _ => True | _ => False end -> labels_expr tbl e.
Proof.
  intros He f t Ht Hf Hr. pose proof (says_expr tbl e f t Ht Hf Hr) as Hs. destruct f as [|p n c s]; [destruct e; simpl in Hf; tauto|].
  pose proof (represents_inside _ _ _ _ _ _ Hr) as Hin. unfold child_addr in Hin.
  destruct e as [| | |x| | | | | |[] i|[] i|]; try done; (split; [done|]); destruct Hf as ([T _] & X & _); rewrite T in Hin;
    simpl in Ht; apply bind_Some in Ht as (w & Hw & _); cbn [kids] in *; by eapply says_place.
Qed.

Lemma labels_bin tbl o a b : labels_expr tbl a -> labels_expr tbl b -> labels_expr tbl (Bin o a b).
Proof.
  intros IHa IHb f t Ht Hf Hr. pose proof (says_expr tbl _ f t Ht Hf Hr) as Hs. destruct f as [|p n c s]; [by destruct Hf|].
  pose proof (represents_inside _ _ _ _ _ _ Hr) as Hin. unfold child_addr in Hin. destruct Hf as ([T _] & Xa & Xb & _).
  rewrite T in Hin. simpl in Ht. apply bind_Some in Ht as (ta & Ha & Ht). apply bind_Some in Ht as (tb & Hb & _).
  assert (represents tbl (annotate vars FINSH_NODE_VALUE c)) as Hc by by destruct o.
  split; [done|]. split; [by eapply IHa|]. eapply IHb; [done|done|]. by eapply represents_after.
Qed.

Lemma labels_unary tbl e a : match e with Not a' | Deref a' => a' = a | _ => False end -> labels_expr tbl a -> labels_expr tbl e.
Proof.
  intros He IHa f t Ht Hf Hr. pose proof (says_expr tbl _ f t Ht Hf Hr) as Hs. destruct f as [|p n c s]; [destruct e; simpl in Hf; tauto|].
  pose proof (represents_inside _ _ _ _ _ _ Hr) as Hin. unfold child_addr in Hin.
  destruct e; try done; subst; destruct Hf as ([T _] & Xa & _); rewrite T in Hin; simpl in Ht; apply bind_Some in Ht as (ta & Ha & _);
    (split; [done|by eapply IHa]).
Qed.

Lemma labels_assign tbl x a : labels_expr tbl a -> labels_expr tbl (Assign x a).
Proof.
  intros IHa f t Ht Hf Hr. pose proof (says_expr tbl _ f t Ht Hf Hr) as Hs. destruct f as [|p n c s]; [by destruct Hf|].
  pose proof (represents_inside _ _ _ _ _ _ Hr) as Hin. unfold child_addr in Hin. destruct Hf as ([T _] & X & Xa & _).
  rewrite T in Hin. simpl in Ht. apply bind_Some in Ht as (w & Hw & Ht). apply bind_Some in Ht as (ta & Ha & _). split; [done|].
  split; [by eapply (says_place tbl x c w true)|]. eapply IHa; [done|done|]. by eapply represents_after.
Qed.

Lemma labels_assign_at tbl a b : labels_expr tbl a -> labels_expr tbl b -> labels_expr tbl (AssignAt a b).
Proof.
  intros IHa IHb f t Ht Hf Hr. pose proof (says_expr tbl _ f t Ht Hf Hr) as Hs. destruct f as [|p n [|q g k s1] s]; [by destruct Hf|by destruct Hf as (_ & ? & _)|].
  pose proof (represents_inside _ _ _ _ _ _ Hr) as Hin. unfold child_addr in Hin. destruct Hf as ([T _] & [TG IG] & Xa & _ & Xb & _).
  rewrite T in Hin. cbn [kids next] in *. simpl in Ht. apply bind_Some in Ht as (ta & Ha & Ht). apply bind_Some in Ht as (tb & Hb & _).
  change (represents tbl (annotate vars FINSH_IDTYPE_ADDRESS (FNode q g k s1))) in Hin.
  pose proof (represents_inside _ _ _ _ _ _ Hin) as Hk. assert (child_addr g FINSH_IDTYPE_ADDRESS = FINSH_NODE_VALUE) as Eg by (unfold child_addr; by rewrite TG).
  rewrite Eg in Hk. destruct (proj1 (front_expr vars) a k ta Ha Xa) as ((cn & Hn & Hd) & _). split; [done|]. split_and!.
  - eapply says_head; [exact Hin|apply annotate_head| |].
    + unfold annotate_node. rewrite Eg, Hn. simpl. unfold expr_data. rewrite Ha. by destruct ta.
    + destruct (annotate_node_fields vars FINSH_IDTYPE_ADDRESS g (annotate vars (child_addr g FINSH_IDTYPE_ADDRESS) k)) as (_ & _ & _ & _ & _ & ->).
      unfold mark_address. by rewrite IG.
  - by eapply IHa.
  - eapply IHb; [done|done|]. by eapply (represents_after _ _ (FNode q g k s1)).
Qed.

Lemma labels_call tbl g es : labels_args tbl es -> labels_expr tbl (Call g es).
Proof.
  intros IH f t Ht Hf Hr. pose proof (says_expr tbl _ f t Ht Hf Hr) as Hs. destruct f as [|p n [|q m k s1] s]; [by destruct Hf|by destruct Hf as (_ & ? & _)|].
  pose proof (represents_inside _ _ _ _ _ _ Hr) as Hin. unfold child_addr in Hin. destruct Hf as ([T _] & G & X). rewrite T in Hin.
  change (represents tbl (annotate vars FINSH_NODE_VALUE (FNode q m k s1))) in Hin. cbn [kids next] in *.
  destruct G as (TG & IG & PG & DG & ->). simpl in Ht. destruct (args_typed vars es) eqn:E; [|done]. split; [done|]. split.
  - eapply says_head; [exact Hin|apply annotate_head| |].
    + unfold annotate_node, mark_address. rewrite IG. simpl. unfold leaf_data. by rewrite TG, IG.
    + destruct (annotate_node_fields vars FINSH_NODE_VALUE m FNil) as (_ & _ & _ & _ & _ & E6). cbn [annotate]. rewrite E6, mark_none. by rewrite IG.
  - apply IH; [done|done|]. by eapply (represents_after _ _ (FNode q m FNil s1)).
Qed.

Lemma expr_labelled tbl : (forall e, labels_expr tbl e) /\ (forall es, labels_args tbl es).
Proof.
  apply expr_exprs_ind; eauto using labels_bin, labels_assign, labels_assign_at, labels_call;
    try (intros; (by apply labels_leaf) || (by apply labels_of_place) || (by eapply labels_unary)).
  - done.
  - intros a IHa es IHes f Ht [Xa Xs] Hr. cbn [args_typed] in Ht. destruct (expr_type vars a) as [[d []]|] eqn:E; try done.
    split; [by eapply IHa|]. apply IHes; [done|done|]. by eapply represents_after.
Qed.

Lemma line_labelled tbl es : forall f, typed_line vars es -> is_line es f -> represents tbl (annotate vars FINSH_NODE_VALUE f) ->
  labelled_line tbl es f.
Proof.
  induction es as [|e es IH]; intros f Ht Hf Hr; [done|]. destruct Hf as [Xe Xs]. apply Forall_cons in Ht as [[t Et] Ht].
  split; [by eapply (proj1 (expr_labelled tbl))|]. apply IH; [done|done|]. by eapply represents_after.
Qed.

(** ** What else it writes: nothing *)

Lemma annotate_relabels tbl tbl' f : forall a, a = FINSH_NODE_VALUE \/ a = FINSH_IDTYPE_ADDRESS ->
  represents tbl f -> represents tbl' (annotate vars a f) ->
  forall q, q ∈ pointers f -> exists n n', tbl !! q = Some n /\ tbl' !! q = Some n' /\ relabels n n'.
Proof.
  induction f as [|p n c IHc s IHs]; intros a Ha Hr Hr' q Hq; [by apply not_elem_of_nil in Hq|].
  destruct Hr as (Hp & _ & _ & Rc & Rs). destruct Hr' as (Hp' & _ & _ & Rc' & Rs'). cbn [pointers] in Hq.
  apply elem_of_cons in Hq as [->|Hq]; [|apply elem_of_app in Hq as [Hq|Hq]].
  - eexists n, _. split_and!; [done|exact Hp'|]. assert (exists b : bool, mark_address a n = if b then set_idtype (Z.lor (idtype n) FINSH_IDTYPE_ADDRESS) n else n) as [b Hb].
    { unfold mark_address. case_match; [|by exists false]. destruct Ha as [->| ->]; [exists false|by exists true].
      change FINSH_NODE_VALUE with 0. rewrite Z.lor_0_r. by destruct n. }
    unfold annotate_node. rewrite Hb.
    assert (forall m, exists d, m = set_data_type d m) as Hid by (intros m; exists (data_type m); by destruct m).
    destruct (head_node _); [by eexists _, b|]. destruct (leaf_data _ _); try (by eexists _, b);
      (destruct (Hid (if b then set_idtype (Z.lor (idtype n) FINSH_IDTYPE_ADDRESS) n else n)) as [d Hd]; exists d, b; exact Hd).
  - apply (IHc (child_addr n a)); [|done..]. unfold child_addr. repeat case_match; auto.
  - apply (IHs FINSH_NODE_VALUE); [by left|done..].
Qed.

(** C15: The type check gives every node of a well-typed line the data type of the
    subexpression it stands for, as the rules of the language say (a place has the type of its
    variable, an operator that of its left operand, a call none), and marks as addresses
    exactly the nodes whose address is wanted: the left side of an assignment, be it a
    variable or a pointer dereferenced, the operand of the address operator, and the variable
    that a prefix increment or decrement counts. It changes nothing else: no other field of
    these nodes, and no other node of the table. *)
Theorem finsh_type_check_types es f s : line_in_table vars es f s -> typed_line vars es ->
  exists tbl', finsh_type_check node_fuel (root f) FINSH_NODE_VALUE s = Ret 0 (set_nodes tbl' s) /\ labelled_line tbl' es f /\
    (forall q, q ∈ pointers f -> exists n n', global_node_table s !! q = Some n /\ tbl' !! q = Some n' /\ relabels n n') /\
    (forall q, q ∉ pointers f -> tbl' !! q = global_node_table s !! q).
Proof.
  intros (Hr & Hnd & Hl & Hv & Hf) Ht. destruct (line_front vars es f Ht Hf) as (Hty & _).
  destruct (finsh_type_check_spec vars node_fuel f FINSH_NODE_VALUE s (height_fuel _ _ Hr Hnd Hl) Hnd Hr Hty Hv) as (tbl' & E & _ & Hr' & Ho).
  exists tbl'. split_and!; [done|by apply line_labelled| |done]. by apply (annotate_relabels _ _ f FINSH_NODE_VALUE (or_introl eq_refl)).
Qed.

End types.

Section shell.
Context `{finsh_image}.

(** * finsh_run_line *)







End shell.
