(* ===== verification/FinshVars.v ===== *)
(** The table of the shell's variables: inserting, looking up and deleting a name. *)

From S2P Require Import Prelude Mem Finsh.

Open Scope Z_scope.

(** * Comparing names *)

Definition characters (s : list Z) : Prop := Forall (fun c => 0 < c) s.

Lemma strncmp_take n : forall a b, characters a -> characters b -> strncmp n a b = 0 <-> take n a = take n b.
Proof.
  induction n as [|n IH]; intros a b Ha Hb; [by simpl; destruct a, b|].
  destruct Ha as [|x a Hx Ha], Hb as [|y b Hy Hb]; simpl; [done|split; [lia|done]|split; [lia|done]|].
  destruct (Z.eqb_spec x y) as [->|Hne].
  - rewrite (IH a b Ha Hb). split; [by intros ->|by intros [= ->]].
  - split; [lia|by intros [= ->]].
Qed.

(** * The table *)

Definition is_free (v : finsh_var) : Prop := var_type v = finsh_type_unknown.
#[export] Instance is_free_dec v : Decision (is_free v).
Proof. unfold is_free. apply _. Defined.

(** free entries are cleared; the others have different names *)
Record vars_ok (vs : list finsh_var) : Prop := {
  vars_free : forall i v, vs !! i = Some v -> is_free v -> v = empty_var;
  vars_named : forall i v, vs !! i = Some v -> ~ is_free v -> var_name v <> [] /\ characters (var_name v) /\ (length (var_name v) <= FINSH_NAME_MAX)%nat;
  vars_distinct : forall i j v w, vs !! i = Some v -> vs !! j = Some w -> ~ is_free v -> var_name v = var_name w -> i = j }.

Definition is_var_name (name : list Z) : Prop := name <> [] /\ characters name.

(** the names the table can tell apart *)
Definition stored (name : list Z) : list Z := take FINSH_NAME_MAX name.

Lemma stored_not_nil name : is_var_name name -> stored name <> [].
Proof. intros [Hn _]. by destruct name. Qed.

Lemma name_matches vs i v name : vars_ok vs -> vs !! i = Some v -> is_var_name name ->
  strncmp FINSH_NAME_MAX (var_name v) name = 0 <-> var_name v = stored name.
Proof.
  intros Hok Hv [Hn Hc]. destruct (decide (is_free v)) as [Hf|Hf].
  - rewrite (vars_free _ Hok _ _ Hv Hf). rewrite strncmp_take by (done || constructor). simpl. by destruct name.
  - destruct (vars_named _ Hok _ _ Hv Hf) as (_ & Hcv & Hl). rewrite strncmp_take by done. by rewrite (take_ge (var_name v)).
Qed.

Lemma find_variable_offset name vs : forall k, find_variable name vs k = Nat.add k <$> find_variable name vs 0.
Proof.
  induction vs as [|v vs IH]; intros k; [done|]. cbn [find_variable]. destruct (_ =? 0); [simpl; by rewrite Nat.add_0_r|].
  rewrite (IH (S k)), (IH 1%nat). destruct (find_variable name vs 0); [|done]. simpl. f_equal. lia.
Qed.

Lemma find_variable_find name vs : find_variable name vs 0 = fst <$> list_find (fun v => strncmp FINSH_NAME_MAX (var_name v) name = 0) vs.
Proof.
  induction vs as [|v vs IH]; [done|]. cbn [find_variable list_find]. destruct (Z.eqb_spec (strncmp FINSH_NAME_MAX (var_name v) name) 0) as [E|E].
  - by rewrite decide_True.
  - rewrite decide_False by done. rewrite find_variable_offset, IH. by destruct (list_find _ vs) as [[]|].
Qed.

(** a lookup finds the entry of that name, if there is one *)
Lemma find_variable_Some vs name i : vars_ok vs -> is_var_name name ->
  find_variable name vs 0 = Some i <-> exists v, vs !! i = Some v /\ var_name v = stored name.
Proof.
  intros Hok Hn. rewrite find_variable_find. split.
  - intros E. apply fmap_Some in E as ([j v] & E & ->). apply list_find_Some in E as (Hv & E & _). exists v. split; [done|]. by apply (name_matches vs j).
  - intros (v & Hv & E). destruct (list_find _ vs) as [[j w]|] eqn:Ef.
    + apply list_find_Some in Ef as (Hw & Ew & _). apply (name_matches vs j) in Ew; [|done..]. simpl. f_equal.
      apply (vars_distinct vs Hok j i w v Hw Hv); [|congruence]. intros Hf. rewrite (vars_free _ Hok _ _ Hw Hf) in Ew. symmetry in Ew. by apply stored_not_nil in Ew.
    + exfalso. apply list_find_None in Ef. eapply Forall_lookup_1 in Ef; [|exact Hv]. apply Ef. by apply (name_matches vs i).
Qed.

Lemma insert_scan_spec name vs : forall i e, find_variable name vs 0 = None ->
  insert_scan name vs i e = Some (match e with Some e => Some e | None => Nat.add i <$> (fst <$> list_find is_free vs) end).
Proof.
  induction vs as [|v vs IH]; intros i e Hf; cbn [insert_scan list_find]; [by destruct e|]. cbn [find_variable] in Hf.
  destruct (strncmp _ _ _ =? 0); [done|]. rewrite find_variable_offset in Hf. apply fmap_None in Hf. rewrite IH by done. f_equal.
  destruct e as [e|]; [done|]. destruct (Z.eqb_spec (var_type v) finsh_type_unknown) as [E|E].
  - rewrite decide_True by done. simpl. f_equal. lia.
  - rewrite decide_False by done. destruct (list_find is_free vs) as [[]|]; [|done]. simpl. f_equal. lia.
Qed.

Lemma insert_scan_declared name vs k e j : find_variable name vs k = Some j -> insert_scan name vs k e = None.
Proof.
  revert k e. induction vs as [|v vs IH]; intros k e; [done|]. cbn [find_variable insert_scan]. destruct (_ =? 0); [done|]. intros E. by apply IH.
Qed.

Section table.
Context `{finsh_image}.

(** the table with one more name *)
Lemma vars_ok_insert vs i name type : vars_ok vs -> is_var_name name -> 0 < type < 256 -> find_variable name vs 0 = None -> vs !! i = Some empty_var ->
  vars_ok (<[i := mk_var (stored name) type]> vs).
Proof.
  intros Hok Hn Ht Hf Hi. set (w := mk_var (stored name) type). assert (~ is_free w) as Hw by (unfold is_free, finsh_type_unknown; simpl; lia).
  assert (forall j v, vs !! j = Some v -> var_name v <> stored name) as Hnew.
  { intros j v Hv E. assert (find_variable name vs 0 = Some j) by (apply find_variable_Some; [done|done|]; by exists v). congruence. }
  split.
  - intros j v [(<- & <- & _)|[_ Hv]]%list_lookup_insert_Some Hfr; [done|]. by apply (vars_free _ Hok j).
  - intros j v [(<- & <- & _)|[_ Hv]]%list_lookup_insert_Some Hfr; [|by apply (vars_named _ Hok j)]. split; [by apply stored_not_nil|].
    split; [apply Forall_take, Hn|]. simpl. unfold stored. rewrite length_take. lia.
  - intros j k v1 v2 [(<- & <- & _)|[Hj Hv1]]%list_lookup_insert_Some [(<- & <- & _)|[Hk Hv2]]%list_lookup_insert_Some Hfr E; try done.
    + symmetry in E. by destruct (Hnew _ _ Hv2).
    + by destruct (Hnew _ _ Hv1).
    + by apply (vars_distinct _ Hok j k v1 v2).
Qed.

(** the other names are found where they were *)
Lemma find_variable_other vs vs' name i v other : vars_ok vs -> vars_ok vs' -> vs' = <[i := v]> vs -> (i < length vs)%nat ->
  var_name v = stored name \/ v = empty_var -> (forall w, vs !! i = Some w -> var_name w = stored name \/ w = empty_var) ->
  is_var_name other -> stored other <> stored name -> find_variable other vs' 0 = find_variable other vs 0.
Proof.
  intros Hok Hok' -> Hi Hv Hw Ho Hne. pose proof (stored_not_nil other Ho) as Hnil. apply option_eq. intros j. rewrite !find_variable_Some by done.
  split; intros (x & Hx & E).
  - apply list_lookup_insert_Some in Hx as [(<- & <- & _)|[Hj Hx]]; [|by exists x]. destruct Hv as [Hv| ->]; [congruence|]. by symmetry in E.
  - destruct (decide (i = j)) as [->|Hj]; [|exists x; by rewrite list_lookup_insert_ne]. destruct (Hw x Hx) as [Hx'| ->]; [congruence|]. by symmetry in E.
Qed.

(** C26: A declared variable is found under its name with its type, the other variables are found
    as before, a second declaration of the name is refused, and deleting the variable gives
    the table back with its value cleared. *)
Theorem finsh_var_roundtrip name type s : vars_ok (global_variable s) -> is_var_name name -> 0 < type < 256 ->
  find_variable name (global_variable s) 0 = None -> Exists is_free (global_variable s) ->
  exists i s1 s2, finsh_var_insert name type s = Ret (Z.of_nat i) s1 /\ vars_ok (global_variable s1) /\
    finsh_var_lookup name s1 = Ret (Some i) s1 /\ var_type <$> global_variable s1 !! i = Some type /\
    (forall other, is_var_name other -> stored other <> stored name ->
       find_variable other (global_variable s1) 0 = find_variable other (global_variable s) 0) /\
    finsh_var_insert name type s1 = Ret (-1) s1 /\
    finsh_var_delete name s1 = Ret 0 s2 /\ global_variable s2 = global_variable s /\ get32 (fmem s2) (value_at (id_var i)) = 0.
Proof.
  intros Hok Hn Ht Hf He. set (vs := global_variable s) in *. destruct (list_find is_free vs) as [[i v]|] eqn:Ef.
  2:{ exfalso. apply list_find_None in Ef. apply Exists_exists in He as (v & Hv & Hfr). apply list_elem_of_lookup in Hv as (j & Hv). by apply (Forall_lookup_1 _ _ _ _ Ef Hv). }
  apply list_find_Some in Ef as E'. destruct E' as (Hi & Hfr & _). pose proof (vars_free _ Hok _ _ Hi Hfr) as ->. pose proof (lookup_lt_Some _ _ _ Hi) as Hlt.
  set (w := mk_var (stored name) type). set (vs1 := <[i := w]> vs). pose proof (vars_ok_insert vs i name type Hok Hn Ht Hf Hi) as Hok1. fold w vs1 in Hok1.
  assert (vs1 !! i = Some w) as Hi1 by by apply list_lookup_insert_eq.
  assert (find_variable name vs1 0 = Some i) as Hl1 by (apply find_variable_Some; [done|done|by exists w]).
  exists i, (set_variables vs1 s), (set_fmem (put32 (value_at (id_var i)) 0 (fmem s)) (set_variables vs s)). split_and!.
  - unfold finsh_var_insert, bind, get. fold vs. rewrite insert_scan_spec, Ef by done. simpl. unfold modify, ret. by rewrite u8_small by lia.
  - done.
  - unfold finsh_var_lookup, bind, get, ret. simpl. by rewrite Hl1.
  - simpl. by rewrite Hi1.
  - intros other Ho Hne. apply (find_variable_other vs vs1 name i w); try done; [by left|]. intros x. rewrite Hi. intros [= <-]. by right.
  - unfold finsh_var_insert, bind, get. cbn [global_variable set_variables]. by rewrite (insert_scan_declared _ _ _ _ _ Hl1).
  - unfold finsh_var_delete, bind, get. cbn [global_variable set_variables]. rewrite Hl1. unfold clear_variable, modify, ret.
    cbn [global_variable set_variables fmem]. assert (<[i := empty_var]> vs1 = vs) as ->; [|done].
    unfold vs1. rewrite list_insert_insert_eq. by apply list_insert_id.
  - done.
  - simpl. by rewrite get32_put32.
Qed.

End table.
