(* ===== verification/FinshInput.v ===== *)
(** The shell's input (components/finsh/shell.c: finsh_thread_entry and what it calls;
    cmd.c: list_prefix).

    The characters that have arrived at the device are a list, of which rt_device_read
    takes the first.  What goes to the console is not modelled, but for the results of
    the lines.  An access outside of a buffer of the shell is the failure
    [BadPointer]; the buffer [line] is followed by [line_position]. *)

From Stdlib Require Import Ascii String.
From S2P Require Import Prelude Mem Printf Finsh FinshHeap FinshToken FinshParser FinshRun.

Open Scope Z_scope.

Definition FINSH_CMD_SIZE : nat := 80.
Definition FINSH_HISTORY_LINES : nat := 5.

Inductive input_stat : Type := WAIT_NORMAL | WAIT_SPEC_KEY | WAIT_FUNC_KEY.

(** struct finsh_shell; [rx] are the characters in the device, [shows] the results of the lines so far *)
Record finsh_shell : Type := mk_shell {
  stat : input_stat; echo_mode : Z; current_history : Z; history_count : Z; cmd_history : list (list Z);
  parser_root : option nat; cmd_line : list Z; line_position : Z; line_curpos : Z; rx : list Z; shows : list shown }.

Definition set_stat x s := mk_shell x (echo_mode s) (current_history s) (history_count s) (cmd_history s) (parser_root s) (cmd_line s) (line_position s) (line_curpos s) (rx s) (shows s).
Definition set_echo x s := mk_shell (stat s) x (current_history s) (history_count s) (cmd_history s) (parser_root s) (cmd_line s) (line_position s) (line_curpos s) (rx s) (shows s).
Definition set_current x s := mk_shell (stat s) (echo_mode s) x (history_count s) (cmd_history s) (parser_root s) (cmd_line s) (line_position s) (line_curpos s) (rx s) (shows s).
Definition set_history n h s := mk_shell (stat s) (echo_mode s) (current_history s) n h (parser_root s) (cmd_line s) (line_position s) (line_curpos s) (rx s) (shows s).
Definition set_line l s := mk_shell (stat s) (echo_mode s) (current_history s) (history_count s) (cmd_history s) (parser_root s) l (line_position s) (line_curpos s) (rx s) (shows s).
Definition set_cursor p c s := mk_shell (stat s) (echo_mode s) (current_history s) (history_count s) (cmd_history s) (parser_root s) (cmd_line s) (u8 p) (u8 c) (rx s) (shows s).
Definition set_rx x s := mk_shell (stat s) (echo_mode s) (current_history s) (history_count s) (cmd_history s) (parser_root s) (cmd_line s) (line_position s) (line_curpos s) x (shows s).
Definition set_result o r s := mk_shell (stat s) (echo_mode s) (current_history s) (history_count s) (cmd_history s) r (cmd_line s) (line_position s) (line_curpos s) (rx s) (shows s ++ [o]).

(** the shell, and the parser with the globals behind it *)
Notation I := (M (finsh_shell * (finsh_token * finsh))) (only parsing).
Definition input {A} (m : M finsh_shell A) : I A := on_fst m.

Section input.
Context `{finsh_image}.

(** * The buffer *)

(** [line[i] = c] *)
Definition put_line (i c : Z) : M finsh_shell unit :=
  if (0 <=? i) && (i <? Z.of_nat FINSH_CMD_SIZE) then modify (fun s => set_line (<[Z.to_nat i := u8 c]> (cmd_line s)) s) else fail BadPointer.

(** [rt_memmove(&line[dst], &line[src], n)] *)
Definition move_line (dst src n : Z) : M finsh_shell unit :=
  if (0 <=? dst) && (0 <=? src) && (0 <=? n) && (dst + n <=? Z.of_nat FINSH_CMD_SIZE) && (src + n <=? Z.of_nat FINSH_CMD_SIZE) then
    modify (fun s => let l := cmd_line s in
      set_line (take (Z.to_nat dst) l ++ take (Z.to_nat n) (drop (Z.to_nat src) l) ++ drop (Z.to_nat (dst + n)) l) s)
  else fail BadPointer.

(** the C string in the buffer; without a terminator the functions read on behind it *)
Definition line_string : M finsh_shell (list Z) := let! s := get in of_option BadPointer (c_string (cmd_line s)).

(** [line_curpos = line_position = strlen(line)] *)
Definition measure_line : M finsh_shell unit :=
  let! l := line_string in modify (set_cursor (Z.of_nat (List.length l)) (Z.of_nat (List.length l))).

(** * History *)

Definition shell_push_history : M finsh_shell unit :=
  let! s := get in
  (if line_position s =? 0 then ret tt
   else if line_position s <=? Z.of_nat FINSH_CMD_SIZE then
     let n := Z.to_nat (line_position s) in
     let row := take n (cmd_line s) ++ replicate (FINSH_CMD_SIZE - n) 0 in
     if Z.of_nat FINSH_HISTORY_LINES <=? history_count s then
       modify (set_history (Z.of_nat FINSH_HISTORY_LINES) (drop 1 (cmd_history s) ++ [row]))
     else
       modify (set_history (history_count s + 1) (<[Z.to_nat (history_count s) := row]> (cmd_history s)))
   else fail BadPointer) ;!
  modify (fun s => set_current (history_count s) s).

(** [memcpy(line, &cmd_history[current_history][0], FINSH_CMD_SIZE)], and the positions *)
Definition copy_history : M finsh_shell unit :=
  let! s := get in
  let! row := of_option BadPointer (cmd_history s !! Z.to_nat (current_history s)) in
  modify (set_line row) ;!
  measure_line.

Definition history_up : M finsh_shell unit :=
  let! s := get in
  if 0 <? current_history s then modify (set_current (current_history s - 1)) ;! copy_history
  else modify (set_current 0).

Definition history_down : M finsh_shell unit :=
  let! s := get in
  if current_history s <? history_count s - 1 then modify (set_current (current_history s + 1)) ;! copy_history
  else if negb (history_count s =? 0) then modify (set_current (history_count s - 1)) ;! copy_history
  else ret tt.

(** * Completion *)

Definition str_is_prefix (prefix str : list Z) : bool := bool_decide (take (List.length prefix) str = prefix).

Fixpoint str_common (s1 s2 : list Z) : nat :=
  match s1, s2 with c1 :: s1, c2 :: s2 => if c1 =? c2 then S (str_common s1 s2) else O | _, _ => O end.

(** the state of the loops of list_prefix: a counter, name_ptr and min_length *)
Record candidates : Type := mk_candidates { cnt : Z; name_ptr : option (list Z); min_length : nat }.

(** one name; [reset]: name_ptr is set even when it is not NULL *)
Definition list_name (prefix : list Z) (reset : bool) (c : candidates) (name : list Z) : option candidates :=
  if str_is_prefix prefix name then
    let c := if (cnt c =? 0) && negb (bool_decide (prefix = [])) && (reset || bool_decide (name_ptr c = None))
             then mk_candidates (cnt c) (Some name) (List.length name) else c in
    let n := u16 (cnt c + 1) in
    if bool_decide (prefix = []) then Some (mk_candidates n (name_ptr c) (min_length c))
    else p ← name_ptr c; Some (mk_candidates n (Some p) (Nat.min (min_length c) (str_common p name)))
  else Some c.

Fixpoint list_names (prefix : list Z) (reset : bool) (c : candidates) (names : list (list Z)) : option candidates :=
  match names with [] => Some c | name :: names => c ← list_name prefix reset c name; list_names prefix reset c names end.

(** the result is what [rt_strncpy(prefix, name_ptr, min_length)] writes *)
Definition list_prefix (prefix : list Z) (s : finsh) : option (list Z) :=
  let shown_names := filter (fun n => str_is_prefix (text "__") n = false) (syscall_name <$> syscall_table) in
  c ← list_names prefix true (mk_candidates 0 None 0) shown_names;
  c ← list_names prefix false c (syscall_name <$> global_syscall_list s);
  c ← list_names prefix false (mk_candidates 0 (name_ptr c) (min_length c)) (sysvar_name <$> sysvar_table);
  c ← list_names prefix false c (sysvar_name <$> global_sysvar_list s);
  Some (match name_ptr c with Some p => take (min_length c) p | None => [] end).

Definition shell_auto_complete : I unit :=
  let! prefix := input line_string in
  let! g := on_snd get in
  let! name := of_option NullDeref (list_prefix prefix g.2) in
  if (List.length name <=? FINSH_CMD_SIZE)%nat
  then input (modify (fun s => set_line (name ++ drop (List.length name) (cmd_line s)) s)) else fail BadPointer.

(** * Keys *)

Definition cursor_left : M finsh_shell unit :=
  modify (fun s => if line_curpos s =? 0 then s else set_cursor (line_position s) (line_curpos s - 1) s).
Definition cursor_right : M finsh_shell unit :=
  modify (fun s => if line_curpos s <? line_position s then set_cursor (line_position s) (line_curpos s + 1) s else s).

Definition backspace : M finsh_shell unit :=
  let! s := get in
  if line_curpos s =? 0 then ret tt
  else
    modify (set_cursor (line_position s - 1) (line_curpos s - 1)) ;!
    let! s := get in
    (if line_curpos s <? line_position s then move_line (line_curpos s) (line_curpos s + 1) (line_position s - line_curpos s) else ret tt) ;!
    put_line (line_position s) 0.

Definition normal_char (c : Z) : M finsh_shell unit :=
  modify (fun s => if Z.of_nat FINSH_CMD_SIZE <=? line_position s then set_cursor 0 (line_curpos s) s else s) ;!
  let! s := get in
  (if line_curpos s <? line_position s then
     move_line (line_curpos s + 1) (line_curpos s) (line_position s - line_curpos s) ;!
     put_line (line_curpos s) c
   else put_line (line_position s) c) ;!
  modify (fun s => set_cursor (line_position s + 1) (line_curpos s + 1) s).

(** the end of a line *)
Definition run_line (fuel : nat) : I unit :=
  input shell_push_history ;!
  let! s := input get in
  input (put_line (line_position s) (ch ";")) ;!
  (if negb (line_position s =? 0) then
     let! l := input line_string in
     let! r := on_snd (finsh_run_line fuel (parser_root s) l) in
     input (modify (set_result r.1 r.2))
   else ret tt) ;!
  input (modify (fun s => set_cursor 0 0 (set_line (replicate FINSH_CMD_SIZE 0) s))).

Definition device_read : M finsh_shell (option Z) :=
  let! s := get in
  match rx s with [] => ret None | c :: cs => modify (set_rx cs) ;! ret (Some c) end.

(** the keys that are not part of an escape sequence; the result is true when the loop is left *)
Definition plain_key (fuel : nat) (c : Z) : I bool :=
  let rest c := if (c =? 13) || (c =? 10) then run_line fuel ;! ret true else input (normal_char c) ;! ret false in
  if c =? 13 then let! next := input device_read in rest (match next with Some next => next | None => 13 end)
  else if c =? 9 then shell_auto_complete ;! input measure_line ;! ret false
  else if (c =? 0x7f) || (c =? 8) then input backspace ;! ret false
  else rest c.

Definition function_key (c : Z) : option (M finsh_shell unit) :=
  if c =? 0x41 then Some history_up else if c =? 0x42 then Some history_down
  else if c =? 0x44 then Some cursor_left else if c =? 0x43 then Some cursor_right else None.

Definition handle_char (fuel : nat) (c : Z) : I bool :=
  let! s := input get in
  if c =? 0x1b then input (modify (set_stat WAIT_SPEC_KEY)) ;! ret false
  else
    match stat s with
    | WAIT_NORMAL => plain_key fuel c
    | WAIT_SPEC_KEY =>
        if c =? 0x5b then input (modify (set_stat WAIT_FUNC_KEY)) ;! ret false
        else input (modify (set_stat WAIT_NORMAL)) ;! plain_key fuel c
    | WAIT_FUNC_KEY =>
        input (modify (set_stat WAIT_NORMAL)) ;!
        match function_key c with Some key => input key ;! ret false | None => plain_key fuel c end
    end.

(** [while (rt_device_read(shell->device, 0, &ch, 1) == 1)]; every iteration takes a character *)
Fixpoint read_loop (n fuel : nat) : I unit :=
  match n with
  | O => fail OutOfFuel
  | S n =>
      let! c := input device_read in
      match c with
      | None => ret tt
      | Some c => let! left := handle_char fuel c in if left then ret tt else read_loop n fuel
      end
  end.

(** the loop after rx_sem has been taken *)
Definition finsh_input (fuel : nat) : I unit := let! s := input get in read_loop (S (List.length (rx s))) fuel.

(** ** The echo mode, the start *)

Definition finsh_set_echo (echo : Z) : M finsh_shell unit := modify (set_echo (echo mod 2)).
Definition finsh_get_echo : M finsh_shell Z := let! s := get in ret (echo_mode s).

(** what [memset(shell, 0, sizeof(struct finsh_shell))] leaves *)
Definition finsh_shell_zero : finsh_shell :=
  mk_shell WAIT_NORMAL 0 0 0 (replicate FINSH_HISTORY_LINES (replicate FINSH_CMD_SIZE 0)) None (replicate FINSH_CMD_SIZE 0) 0 0 [] [].

(** the first part of finsh_thread_entry *)
Definition finsh_thread_init : I unit :=
  input (modify (set_echo 1)) ;!
  let! root := on_snd (shell finsh_init) in
  input (modify (fun s => mk_shell (stat s) (echo_mode s) (current_history s) (history_count s) (cmd_history s) root (cmd_line s) (line_position s)
    (line_curpos s) (rx s) (shows s))).

End input.
