(* ===== verification/FinshInputSpec.v ===== *)
(** The shell's input against an editor of one line.

    The editor has the characters on the left and on the right of the cursor, and the
    lines entered before.  [displays] relates it to the shell as long as the line has
    at most 78 characters: with 79 the semicolon that the shell adds takes the place of
    the terminator, with 80 it is written behind the buffer (see [FinshScenarios]). *)

From Stdlib Require Import Ascii String.
From S2P Require Import Prelude Mem Printf Finsh FinshHeap FinshTree FinshToken FinshParser FinshRun FinshInput.

Open Scope Z_scope.

(** * The editor *)

Record editor : Type := mk_editor { left_of : list Z; right_of : list Z; past : list (list Z); recalled : nat; escape : input_stat }.

Definition line_of (e : editor) : list Z := left_of e ++ right_of e.

Definition with_escape x (e : editor) := mk_editor (left_of e) (right_of e) (past e) (recalled e) x.
Definition with_line l r (e : editor) := mk_editor l r (past e) (recalled e) (escape e).

Definition type_char (c : Z) (e : editor) : editor := with_line (left_of e ++ [c]) (right_of e) e.
Definition erase (e : editor) : editor := with_line (take (List.length (left_of e) - 1) (left_of e)) (right_of e) e.
Definition go_left (e : editor) : editor :=
  match last (left_of e) with None => e | Some c => with_line (take (List.length (left_of e) - 1) (left_of e)) (c :: right_of e) e end.
Definition go_right (e : editor) : editor :=
  match right_of e with [] => e | c :: r => with_line (left_of e ++ [c]) r e end.

(** an entered line again *)
Definition recall (k : nat) (e : editor) : editor :=
  match past e !! k with Some l => mk_editor l [] (past e) k (escape e) | None => e end.
Definition go_up (e : editor) : editor := match recalled e with O => e | S k => recall k e end.
Definition go_down (e : editor) : editor :=
  if (S (recalled e) <? List.length (past e))%nat then recall (S (recalled e)) e else recall (List.length (past e) - 1) e.

Definition plain (e : editor) (c : Z) : editor := if (c =? 0x7f) || (c =? 8) then erase e else type_char c e.

Definition edit (e : editor) (c : Z) : editor :=
  if c =? 0x1b then with_escape WAIT_SPEC_KEY e
  else
    match escape e with
    | WAIT_NORMAL => plain e c
    | WAIT_SPEC_KEY => if c =? 0x5b then with_escape WAIT_FUNC_KEY e else plain (with_escape WAIT_NORMAL e) c
    | WAIT_FUNC_KEY =>
        let e := with_escape WAIT_NORMAL e in
        if c =? 0x41 then go_up e else if c =? 0x42 then go_down e else if c =? 0x44 then go_left e else if c =? 0x43 then go_right e
        else plain e c
    end.

(** a new line; the old one, if it is not empty, is remembered *)
Definition remember (l : list Z) (past : list (list Z)) : list (list Z) :=
  match l with [] => past | _ => (if (FINSH_HISTORY_LINES <=? List.length past)%nat then drop 1 past else past) ++ [l] end.
Definition enter (e : editor) : editor :=
  let past := remember (line_of e) (past e) in mk_editor [] [] past (List.length past) WAIT_NORMAL.

(** * The shell *)

(** the longest line that the shell can take *)
Definition LINE_MAX : nat := 78.

Definition line_ok (l : list Z) : Prop := Forall (fun c => 0 < c < 256) l /\ (List.length l <= LINE_MAX)%nat.
Definition pad (l : list Z) : list Z := l ++ replicate (FINSH_CMD_SIZE - List.length l) 0.

Record displays (s : finsh_shell) (e : editor) : Prop := {
  displays_stat : stat s = escape e;
  displays_line : cmd_line s = pad (line_of e);
  displays_curpos : line_curpos s = Z.of_nat (List.length (left_of e));
  displays_position : line_position s = Z.of_nat (List.length (line_of e));
  displays_ok : line_ok (line_of e);
  displays_count : history_count s = Z.of_nat (List.length (past e));
  displays_current : current_history s = Z.of_nat (recalled e);
  displays_recalled : (recalled e <= List.length (past e) <= FINSH_HISTORY_LINES)%nat;
  displays_rows : List.length (cmd_history s) = FINSH_HISTORY_LINES;
  displays_past : forall i l, past e !! i = Some l -> line_ok l /\ cmd_history s !! i = Some (pad l) }.

Lemma length_pad l : (List.length l <= LINE_MAX)%nat -> List.length (pad l) = FINSH_CMD_SIZE.
Proof. unfold pad, LINE_MAX, FINSH_CMD_SIZE. rewrite length_app, length_replicate. lia. Qed.

Lemma c_string_app l r : Forall (fun c => 0 < c < 256) l -> c_string (l ++ 0 :: r) = Some l.
Proof. induction 1 as [|c l Hc _ IH]; [done|]. cbn [app c_string]. rewrite (proj2 (Z.eqb_neq c 0)) by lia. by rewrite IH. Qed.

Lemma pad_zero l : (List.length l <= LINE_MAX)%nat -> pad l = l ++ 0 :: 0 :: replicate (FINSH_CMD_SIZE - List.length l - 2) 0.
Proof. intros Hl. unfold pad, LINE_MAX, FINSH_CMD_SIZE in *. assert (80 - List.length l = S (S (80 - List.length l - 2)))%nat as E by lia. by rewrite E at 1. Qed.

(** the parts of a buffer *)
Lemma take_at {A} (l r : list A) n : List.length l = n -> take n (l ++ r) = l.
Proof. intros <-. apply take_app_length. Qed.
Lemma drop_at {A} (l r : list A) n : List.length l = n -> drop n (l ++ r) = r.
Proof. intros <-. apply drop_app_length. Qed.

Lemma set_cursor_small p c s : 0 <= p < 256 -> 0 <= c < 256 ->
  set_cursor p c s = mk_shell (stat s) (echo_mode s) (current_history s) (history_count s) (cmd_history s) (parser_root s) (cmd_line s) p c (rx s) (shows s).
Proof. intros Hp Hc. unfold set_cursor. by rewrite !u8_small. Qed.

(** what keys leave alone *)
Definition same_rest (s s' : finsh_shell) : Prop := rx s' = rx s /\ shows s' = shows s /\ parser_root s' = parser_root s.

(** a shell with another line *)
Lemma displays_new_line s e l r : displays s e -> line_ok (l ++ r) ->
  displays (set_cursor (Z.of_nat (List.length (l ++ r))) (Z.of_nat (List.length l)) (set_line (pad (l ++ r)) s)) (with_line l r e).
Proof.
  intros [] Hok. pose proof Hok as [_ Hl]. pose proof (length_app l r) as El. unfold LINE_MAX in Hl. rewrite set_cursor_small by lia. by split.
Qed.

Lemma displays_escape s e x : displays s e -> displays (set_stat x s) (with_escape x e).
Proof. by intros []. Qed.

(** ** The keys *)

Lemma put_line_Ret i c s : 0 <= i < 80 -> put_line i c s = Ret tt (set_line (<[Z.to_nat i := u8 c]> (cmd_line s)) s).
Proof. intros Hi. unfold put_line, FINSH_CMD_SIZE. rewrite (proj2 (Z.leb_le 0 i)), (proj2 (Z.ltb_lt i (Z.of_nat 80))) by lia. done. Qed.

Lemma move_line_Ret dst src n s : 0 <= dst -> 0 <= src -> 0 <= n -> dst + n <= 80 -> src + n <= 80 -> move_line dst src n s =
  Ret tt (set_line (take (Z.to_nat dst) (cmd_line s) ++ take (Z.to_nat n) (drop (Z.to_nat src) (cmd_line s)) ++ drop (Z.to_nat (dst + n)) (cmd_line s)) s).
Proof.
  intros. unfold move_line, FINSH_CMD_SIZE. rewrite (proj2 (Z.leb_le 0 dst)), (proj2 (Z.leb_le 0 src)), (proj2 (Z.leb_le 0 n)) by lia.
  rewrite (proj2 (Z.leb_le (dst + n) (Z.of_nat 80))), (proj2 (Z.leb_le (src + n) (Z.of_nat 80))) by lia. done.
Qed.

(** the buffer after a character has been put in the middle *)
Lemma open_line (l r z : list Z) x c : r <> [] ->
  <[List.length l := c]> (take (S (List.length l)) (l ++ r ++ x :: z) ++ take (List.length r) (drop (List.length l) (l ++ r ++ x :: z)) ++
    drop (S (List.length l + List.length r)) (l ++ r ++ x :: z)) = l ++ c :: r ++ z.
Proof.
  destruct r as [|y r]; [done|]. intros _. rewrite drop_app_length. rewrite (take_app_length (y :: r)).
  replace (l ++ (y :: r) ++ x :: z) with ((l ++ [y]) ++ r ++ x :: z) by by rewrite <-!(assoc_L (++)).
  rewrite take_at by (rewrite length_app; simpl; lia). replace ((l ++ [y]) ++ r ++ x :: z) with ((l ++ (y :: r) ++ [x]) ++ z) by by rewrite <-!(assoc_L (++)).
  rewrite drop_at by (rewrite !length_app; simpl; lia). rewrite <-(assoc_L (++) l). cbn [app]. rewrite insert_app_r_alt by done.
  by rewrite Nat.sub_diag.
Qed.

(** ... and after one has been taken out of it *)
Lemma close_line (l r z : list Z) x : <[(List.length l + List.length r)%nat := 0]> (take (List.length l) (l ++ x :: r ++ z) ++
    take (List.length r) (drop (S (List.length l)) (l ++ x :: r ++ z)) ++ drop (List.length l + List.length r) (l ++ x :: r ++ z)) = l ++ r ++ 0 :: z.
Proof.
  rewrite take_app_length. replace (l ++ x :: r ++ z) with ((l ++ [x]) ++ r ++ z) by by rewrite <-!(assoc_L (++)).
  rewrite drop_at by (rewrite length_app; simpl; lia). rewrite take_app_length.
  assert (exists y, drop (List.length l + List.length r) ((l ++ [x]) ++ r ++ z) = y :: z) as (y & ->).
  { rewrite <-drop_drop, <-(assoc_L (++) l), drop_app_length. change ([x] ++ r ++ z) with ((x :: r) ++ z).
    destruct (x :: r) as [|u v _] eqn:E using rev_ind; [done|]. exists u. assert (List.length r = List.length v) as ->.
    { apply (f_equal List.length) in E. rewrite length_app in E. simpl in E. lia. }
    by rewrite <-(assoc_L (++)), drop_app_length. }
  rewrite insert_app_r_alt by lia. replace (List.length l + List.length r - List.length l)%nat with (List.length r) by lia.
  rewrite insert_app_r_alt by done. by rewrite Nat.sub_diag.
Qed.

Lemma pad_parts l r c : (List.length (l ++ r) < FINSH_CMD_SIZE)%nat ->
  exists z, pad (l ++ r) = l ++ r ++ 0 :: z /\ pad ((l ++ [c]) ++ r) = l ++ c :: r ++ z.
Proof.
  intros Hl. unfold pad. rewrite !length_app in *. cbn [List.length]. exists (replicate (FINSH_CMD_SIZE - (List.length l + 1 + List.length r)) 0).
  rewrite <-!(assoc_L (++)). split; [|done]. do 2 f_equal. replace (FINSH_CMD_SIZE - (List.length l + List.length r))%nat with
    (S (FINSH_CMD_SIZE - (List.length l + 1 + List.length r))) by lia. done.
Qed.

Lemma normal_char_spec c s e : displays s e -> 0 < c < 256 -> (List.length (line_of e) < LINE_MAX)%nat ->
  exists s', normal_char c s = Ret tt s' /\ displays s' (type_char c e) /\ same_rest s s'.
Proof.
  intros Hd Hc Hl. pose proof Hd as [_ Dl Dc Dp [Dok _] _ _ _ _ _]. unfold line_of in *. set (l := left_of e) in *. set (r := right_of e) in *.
  unfold LINE_MAX in Hl. destruct (pad_parts l r c ltac:(unfold FINSH_CMD_SIZE; lia)) as (z & Ez & Ez'). pose proof (length_app l r) as El.
  assert (line_ok ((l ++ [c]) ++ r)) as Hok.
  { rewrite <-(assoc_L (++)). apply Forall_app in Dok as [D1 D2]. split; [|rewrite !length_app; unfold LINE_MAX; simpl; lia].
    apply Forall_app. split; [done|]. by constructor. }
  pose proof (displays_new_line s e (l ++ [c]) r Hd Hok) as Hnew. rewrite !length_app in Hnew. cbn [List.length] in Hnew.
  eexists. split; [|split; [exact Hnew|done]]. unfold normal_char. rewrite (bind_Ret _ _ s tt s).
  2:{ unfold modify, FINSH_CMD_SIZE. rewrite (proj2 (Z.leb_gt (Z.of_nat 80) (line_position s))) by lia. done. }
  rewrite (bind_Ret get _ s s s) by done. rewrite Dc, Dp, El, Ez'. rewrite Ez in Dl. destruct (Z.ltb_spec (Z.of_nat (List.length l)) (Z.of_nat (List.length l + List.length r))) as [Hlt|Hge].
  - assert (r <> []) as Hr by (intros ->; simpl in Hlt; lia). rewrite (bind_Ret _ _ _ tt (set_line (l ++ c :: r ++ z) s)).
    + unfold modify. cbn [line_position line_curpos set_line]. rewrite Dp, Dc. do 3 f_equal; lia.
    + erewrite bind_Ret by (apply move_line_Ret; lia). rewrite put_line_Ret by lia.
      cbn [cmd_line set_line]. rewrite Dl, Nat2Z.id, u8_small by lia.
      replace (Z.to_nat (Z.of_nat (List.length l) + 1)) with (S (List.length l)) by lia.
      replace (Z.to_nat (Z.of_nat (List.length l + List.length r) - Z.of_nat (List.length l))) with (List.length r) by lia.
      replace (Z.to_nat (Z.of_nat (List.length l) + 1 + (Z.of_nat (List.length l + List.length r) - Z.of_nat (List.length l)))) with (S (List.length l + List.length r)) by lia.
      by rewrite open_line.
  - assert (r = []) as Hr by (destruct r; [done|simpl in Hge; lia]). rewrite Hr in *. cbn [List.length app] in *. rewrite (bind_Ret _ _ _ tt (set_line (l ++ c :: z) s)).
    + unfold modify. cbn [line_position line_curpos set_line]. rewrite Dp, Dc. do 3 f_equal; lia.
    + rewrite put_line_Ret by lia. rewrite Dl, u8_small by lia. replace (Z.to_nat (Z.of_nat (List.length l + 0))) with (List.length l) by lia.
      rewrite insert_app_r_alt by done. by rewrite Nat.sub_diag.
Qed.

Lemma line_ok_app l r : line_ok (l ++ r) <-> Forall (fun c => 0 < c < 256) l /\ Forall (fun c => 0 < c < 256) r /\ (List.length l + List.length r <= LINE_MAX)%nat.
Proof. unfold line_ok. rewrite Forall_app, length_app. tauto. Qed.

Lemma with_line_same e : with_line (left_of e) (right_of e) e = e.
Proof. by destruct e. Qed.

Lemma backspace_spec s e : displays s e -> exists s', backspace s = Ret tt s' /\ displays s' (erase e) /\ same_rest s s'.
Proof.
  intros Hd. pose proof Hd as [_ Dl Dc Dp Dok _ _ _ _ _]. unfold line_of, erase in *. set (l0 := left_of e) in *. set (r := right_of e) in *.
  unfold backspace. rewrite (bind_Ret get _ s s s) by done. destruct l0 as [|x l _] eqn:E0 using rev_ind.
  { exists s. rewrite Dc. split; [done|]. split; [|done]. simpl. replace (with_line [] r e) with e; [done|]. rewrite <-E0. symmetry. apply with_line_same. }
  pose proof Dok as (D1 & D2 & D3)%line_ok_app. apply Forall_app in D1 as [D1 _]. rewrite length_app in D3, Dc. cbn [List.length] in D3, Dc. unfold LINE_MAX in D3.
  assert (line_ok (l ++ r)) as Hok by (apply line_ok_app; unfold LINE_MAX; split_and!; [done|done|lia]).
  replace (take (List.length (l ++ [x]) - 1) (l ++ [x])) with l by (rewrite length_app, Nat.add_sub; by rewrite take_app_length).
  pose proof (displays_new_line s e l r Hd Hok) as Hnew. rewrite (length_app l r) in Hnew.
  destruct (pad_parts l r x) as (z & Ez & Ez'); [unfold FINSH_CMD_SIZE; rewrite length_app; lia|]. rewrite Ez' in Dl. rewrite Ez in Hnew.
  rewrite (proj2 (Z.eqb_neq (line_curpos s) 0)) by lia. rewrite !length_app in Dp. cbn [List.length] in Dp.
  eexists. split; [|split; [exact Hnew|done]]. unfold bind at 1, modify at 1. rewrite Dp, Dc.
  replace (Z.of_nat (List.length l + 1 + List.length r) - 1) with (Z.of_nat (List.length l + List.length r)) by lia.
  replace (Z.of_nat (List.length l + 1) - 1) with (Z.of_nat (List.length l)) by lia.
  set (s1 := set_cursor (Z.of_nat (List.length l + List.length r)) (Z.of_nat (List.length l)) s).
  assert (line_curpos s1 = Z.of_nat (List.length l) /\ line_position s1 = Z.of_nat (List.length l + List.length r)) as [C1 P1].
  { unfold s1. rewrite set_cursor_small by lia. done. }
  rewrite (bind_Ret get _ s1 s1 s1) by done. rewrite C1, P1. destruct (Z.ltb_spec (Z.of_nat (List.length l)) (Z.of_nat (List.length l + List.length r))) as [Hlt|Hge].
  - erewrite bind_Ret by (apply move_line_Ret; lia). rewrite put_line_Ret by lia. cbn [cmd_line set_line]. change (cmd_line s1) with (cmd_line s). rewrite Dl, !Nat2Z.id.
    replace (Z.to_nat (Z.of_nat (List.length l + List.length r) - Z.of_nat (List.length l))) with (List.length r) by lia.
    replace (Z.to_nat (Z.of_nat (List.length l) + 1)) with (S (List.length l)) by lia.
    replace (Z.to_nat (Z.of_nat (List.length l) + (Z.of_nat (List.length l + List.length r) - Z.of_nat (List.length l)))) with (List.length l + List.length r)%nat by lia.
    change (u8 0) with 0. by rewrite close_line.
  - assert (r = []) as Hr by (destruct r; [done|simpl in Hge; lia]). rewrite Hr in *. cbn [List.length app] in *. rewrite (bind_Ret _ _ _ tt s1) by done.
    rewrite put_line_Ret by lia. change (cmd_line s1) with (cmd_line s). rewrite Dl. change (u8 0) with 0.
    replace (Z.to_nat (Z.of_nat (List.length l + 0))) with (List.length l) by lia. rewrite insert_app_r_alt by done. rewrite Nat.sub_diag. unfold s1. by rewrite Hr.
Qed.

Lemma displays_cursor s e l r : displays s e -> l ++ r = line_of e ->
  displays (set_cursor (line_position s) (Z.of_nat (List.length l)) s) (with_line l r e).
Proof.
  intros Hd El. pose proof Hd as [_ Dl _ Dp Dok _ _ _ _ _]. assert (line_ok (l ++ r)) as Hok by (rewrite El; exact Dok).
  pose proof (displays_new_line s e l r Hd Hok) as Hn.
  rewrite El, <-Dl, <-Dp in Hn. by destruct s.
Qed.

Lemma left_spec s e : displays s e -> exists s', cursor_left s = Ret tt s' /\ displays s' (go_left e) /\ same_rest s s'.
Proof.
  intros Hd. pose proof Hd as [_ _ Dc _ _ _ _ _ _ _]. unfold cursor_left, modify, go_left. destruct (left_of e) as [|x l _] eqn:El using rev_ind.
  - exists s. rewrite Dc. by split_and!.
  - rewrite last_snoc. replace (take (List.length (l ++ [x]) - 1) (l ++ [x])) with l by (rewrite length_app, Nat.add_sub; by rewrite take_app_length).
    rewrite length_app in Dc. cbn [List.length] in Dc. rewrite (proj2 (Z.eqb_neq (line_curpos s) 0)) by lia.
    eexists. split; [done|]. split; [|done]. replace (line_curpos s - 1) with (Z.of_nat (List.length l)) by lia.
    apply displays_cursor; [done|]. unfold line_of. rewrite El, <-(assoc_L (++)). done.
Qed.

Lemma right_spec s e : displays s e -> exists s', cursor_right s = Ret tt s' /\ displays s' (go_right e) /\ same_rest s s'.
Proof.
  intros Hd. pose proof Hd as [_ _ Dc Dp _ _ _ _ _ _]. unfold cursor_right, modify, go_right. unfold line_of in Dp. rewrite length_app in Dp.
  destruct (right_of e) as [|x r] eqn:Er; cbn [List.length] in Dp.
  - exists s. rewrite (proj2 (Z.ltb_ge (line_curpos s) (line_position s))) by lia. by split_and!.
  - rewrite (proj2 (Z.ltb_lt (line_curpos s) (line_position s))) by lia. eexists. split; [done|]. split; [|done].
    replace (line_curpos s + 1) with (Z.of_nat (List.length (left_of e ++ [x]))) by (rewrite length_app; simpl; lia).
    apply displays_cursor; [done|]. unfold line_of. rewrite Er, <-(assoc_L (++)). done.
Qed.

(** ** History *)

Lemma measure_spec s l : line_ok l -> cmd_line s = pad l ->
  measure_line s = Ret tt (set_cursor (Z.of_nat (List.length l)) (Z.of_nat (List.length l)) s).
Proof.
  intros [Hc Hl] El. assert (line_string s = Ret l s) as E; [|by unfold measure_line; rewrite (bind_Ret _ _ _ _ _ E)].
  unfold line_string, bind, get. by rewrite El, pad_zero, c_string_app.
Qed.

Lemma recall_spec s e k l : displays s e -> past e !! k = Some l ->
  (modify (set_current (Z.of_nat k)) ;! copy_history) s = Ret tt (set_cursor (Z.of_nat (List.length l)) (Z.of_nat (List.length l)) (set_line (pad l) (set_current (Z.of_nat k) s))) /\
  displays (set_cursor (Z.of_nat (List.length l)) (Z.of_nat (List.length l)) (set_line (pad l) (set_current (Z.of_nat k) s))) (recall k e).
Proof.
  intros Hd Hk. destruct (displays_past _ _ Hd k l Hk) as [Hok Hrow]. split.
  - unfold bind at 1, modify at 1, copy_history. set (s1 := set_current (Z.of_nat k) s). rewrite (bind_Ret get _ s1 s1 s1) by done.
    change (cmd_history s1) with (cmd_history s). cbn [s1 current_history set_current]. rewrite Nat2Z.id, Hrow. cbn [of_option].
    rewrite (bind_Ret _ _ _ (pad l) s1) by done. unfold bind, modify. by apply measure_spec.
  - pose proof (lookup_lt_Some _ _ _ Hk). pose proof Hok as [Hc Hl]. unfold LINE_MAX in Hl. unfold recall. rewrite Hk. rewrite set_cursor_small by lia.
    destruct Hd. split; cbn; rewrite ?app_nil_r; try done. lia.
Qed.

Lemma up_spec s e : displays s e -> exists s', history_up s = Ret tt s' /\ displays s' (go_up e) /\ same_rest s s'.
Proof.
  intros Hd. pose proof Hd as [_ _ _ _ _ _ Dc Dr _ _]. unfold history_up, go_up. rewrite (bind_Ret get _ s s s) by done. rewrite Dc.
  destruct (recalled e) as [|k] eqn:Ek.
  - exists (set_current 0 s). split; [done|]. split; [|done]. replace (set_current 0 s) with s; [done|]. destruct s. simpl in Dc. by subst.
  - rewrite (proj2 (Z.ltb_lt 0 (Z.of_nat (S k)))) by lia. replace (Z.of_nat (S k) - 1) with (Z.of_nat k) by lia.
    destruct (lookup_lt_is_Some_2 (past e) k ltac:(lia)) as [l Hl]. destruct (recall_spec s e k l Hd Hl) as [E Hd']. eexists. split; [exact E|]. by split.
Qed.

Lemma down_spec s e : displays s e -> exists s', history_down s = Ret tt s' /\ displays s' (go_down e) /\ same_rest s s'.
Proof.
  intros Hd. pose proof Hd as [_ _ _ _ _ Dn Dc Dr _ _]. unfold history_down, go_down. rewrite (bind_Ret get _ s s s) by done. rewrite Dc, Dn.
  destruct (Nat.ltb_spec (S (recalled e)) (List.length (past e))) as [Hlt|Hge].
  - rewrite (proj2 (Z.ltb_lt _ _)) by lia. replace (Z.of_nat (recalled e) + 1) with (Z.of_nat (S (recalled e))) by lia.
    destruct (lookup_lt_is_Some_2 (past e) (S (recalled e)) ltac:(lia)) as [l Hl]. destruct (recall_spec s e _ l Hd Hl) as [E Hd']. eexists. split; [exact E|]. by split.
  - rewrite (proj2 (Z.ltb_ge _ _)) by lia. destruct (past e) as [|l0 p] eqn:Ep.
    + exists s. split; [done|]. split; [|done]. unfold recall. rewrite Ep. done.
    + rewrite <-Ep in *. assert (0 < List.length (past e))%nat by (rewrite Ep; simpl; lia). rewrite (proj2 (Z.eqb_neq _ 0)) by lia. cbn [negb].
      replace (Z.of_nat (List.length (past e)) - 1) with (Z.of_nat (List.length (past e) - 1)) by lia.
      destruct (lookup_lt_is_Some_2 (past e) (List.length (past e) - 1) ltac:(lia)) as [l Hl]. destruct (recall_spec s e _ l Hd Hl) as [E Hd']. eexists. split; [exact E|]. by split.
Qed.

(** ** A character *)

Section characters.
Context `{finsh_image}.

Definition key (c : Z) : Prop := 0 < c < 256 /\ c <> 9 /\ c <> 10 /\ c <> 13.

Lemma input_Ret {A} (m : M finsh_shell A) s g a s' : m s = Ret a s' -> input m (s, g) = Ret a (s', g).
Proof. intros E. unfold input, on_fst. simpl. by rewrite E. Qed.

(** a key whose operation is [m] *)
Lemma key_Ret (m : M finsh_shell unit) s g e' : (exists s', m s = Ret tt s' /\ displays s' e' /\ same_rest s s') ->
  exists s', (input m ;! ret false) (s, g) = Ret false (s', g) /\ displays s' e' /\ same_rest s s'.
Proof. intros (s' & E & Hd & Hs). exists s'. by rewrite (bind_Ret _ _ _ _ _ (input_Ret _ _ g _ _ E)). Qed.

Lemma plain_key_spec fuel c s g e : displays s e -> key c -> (List.length (line_of e) < LINE_MAX)%nat ->
  exists s', plain_key fuel c (s, g) = Ret false (s', g) /\ displays s' (plain e c) /\ same_rest s s'.
Proof.
  intros Hd (Hc & H9 & H10 & H13) Hl. unfold plain_key, plain. rewrite (proj2 (Z.eqb_neq c 13) H13), (proj2 (Z.eqb_neq c 9) H9), (proj2 (Z.eqb_neq c 10) H10).
  cbn [orb]. destruct ((c =? 127) || (c =? 8)); apply key_Ret; [by apply backspace_spec|by apply normal_char_spec].
Qed.

Lemma handle_char_edits fuel c s g e : displays s e -> key c -> (List.length (line_of e) < LINE_MAX)%nat ->
  exists s', handle_char fuel c (s, g) = Ret false (s', g) /\ displays s' (edit e c) /\ same_rest s s'.
Proof.
  intros Hd Hc Hl. unfold handle_char, edit. rewrite (bind_Ret _ _ _ s (s, g)) by done. rewrite (displays_stat _ _ Hd).
  assert (forall x, (input (modify (set_stat x)) ;! ret false) (s, g) = Ret false (set_stat x s, g)) as Hx by done.
  destruct (c =? 0x1b); [eexists; split; [apply Hx|]; split; [by apply displays_escape|done]|].
  destruct (escape e) eqn:Ee; [by apply plain_key_spec| |].
  - destruct (c =? 0x5b); [eexists; split; [apply Hx|]; split; [by apply displays_escape|done]|].
    pose proof (displays_escape s e WAIT_NORMAL Hd) as Hd1. exact (plain_key_spec fuel c (set_stat WAIT_NORMAL s) g _ Hd1 Hc Hl).
  - pose proof (displays_escape s e WAIT_NORMAL Hd) as Hd1. rewrite (bind_Ret _ _ _ tt (set_stat WAIT_NORMAL s, g)) by done.
    assert (forall m e', (exists s', m (set_stat WAIT_NORMAL s) = Ret tt s' /\ displays s' e' /\ same_rest (set_stat WAIT_NORMAL s) s') ->
      exists s', (input m ;! ret false) (set_stat WAIT_NORMAL s, g) = Ret false (s', g) /\ displays s' e' /\ same_rest s s') as K
      by (intros m e' X; exact (key_Ret m (set_stat WAIT_NORMAL s) g e' X)).
    unfold function_key. destruct (c =? 65); [by apply K, up_spec|]. destruct (c =? 66); [by apply K, down_spec|].
    destruct (c =? 68); [by apply K, left_spec|]. destruct (c =? 67); [by apply K, right_spec|].
    exact (plain_key_spec fuel c (set_stat WAIT_NORMAL s) g _ Hd1 Hc Hl).
Qed.

(** ** The end of a line *)

Definition with_past p (e : editor) := mk_editor (left_of e) (right_of e) p (List.length p) (escape e).

Lemma push_spec s e : displays s e -> exists s', shell_push_history s = Ret tt s' /\ displays s' (with_past (remember (line_of e) (past e)) e) /\ same_rest s s'.
Proof.
  intros Hd. pose proof Hd as [Ds Dl Dc Dp Dok Dn Dcu Dr Dh Dpast]. unfold shell_push_history. rewrite (bind_Ret get _ s s s) by done. rewrite Dp, Dn.
  assert (Hl : (List.length (line_of e) <= 78)%nat) by apply Dok.
  destruct (Z.eqb_spec (Z.of_nat (List.length (line_of e))) 0) as [E0|E0].
  - rewrite (bind_Ret _ _ _ tt s) by done. eexists. split; [done|]. split; [|done].
    assert (remember (line_of e) (past e) = past e) as -> by (destruct (line_of e); [done|simpl in E0; lia]). split; try done; simpl; lia.
  - rewrite (proj2 (Z.leb_le _ (Z.of_nat FINSH_CMD_SIZE))) by (unfold FINSH_CMD_SIZE; lia). rewrite Nat2Z.id, Dl.
    assert (take (List.length (line_of e)) (pad (line_of e)) ++ replicate (FINSH_CMD_SIZE - List.length (line_of e)) 0 = pad (line_of e)) as ->
      by (unfold pad at 1; by rewrite take_app_length).
    unfold remember. destruct (line_of e) as [|c0 l0] eqn:El; [simpl in E0; lia|]. rewrite <-El in *.
    destruct (Nat.leb_spec FINSH_HISTORY_LINES (List.length (past e))) as [Hge|Hlt].
    + rewrite (proj2 (Z.leb_le _ _)) by lia. eexists. split; [done|]. split; [|done].
      assert (List.length (drop 1 (past e) ++ [line_of e]) = FINSH_HISTORY_LINES) as Hpl by (rewrite length_app, length_drop; simpl; unfold FINSH_HISTORY_LINES in *; lia).
      split; try done; cbn; rewrite ?Hpl; try done.
      * rewrite length_app, length_drop, Dh. done.
      * intros i l Hi. apply lookup_app_Some in Hi as [Hi|[Hi1 Hi]].
        -- rewrite lookup_drop in Hi. destruct (Dpast _ _ Hi) as [H1 H2]. split; [done|]. rewrite lookup_app_l; [by rewrite lookup_drop|].
           apply lookup_lt_Some in Hi. rewrite length_drop, Dh. unfold FINSH_HISTORY_LINES in *. lia.
        -- apply list_lookup_singleton_Some in Hi as [Hi <-]. split; [done|]. rewrite length_drop in Hi, Hi1.
           rewrite lookup_app_r by (rewrite length_drop, Dh; unfold FINSH_HISTORY_LINES in *; lia). rewrite length_drop, Dh.
           unfold FINSH_HISTORY_LINES in *. by replace (i - (5 - 1))%nat with O by lia.
    + rewrite (proj2 (Z.leb_gt _ _)) by lia. eexists. split; [done|]. split; [|done].
      split; try done; cbn; rewrite ?length_app, ?length_insert; cbn [List.length]; try done; try lia.
      intros i l Hi. rewrite Nat2Z.id. apply lookup_app_Some in Hi as [Hi|[Hi1 Hi]].
      * destruct (Dpast _ _ Hi) as [H1 H2]. split; [done|]. apply lookup_lt_Some in Hi. by rewrite list_lookup_insert_ne by lia.
      * apply list_lookup_singleton_Some in Hi as [Hi <-]. split; [done|]. replace i with (List.length (past e)) by lia.
        rewrite list_lookup_insert_eq; [done|]. rewrite Dh. lia.
Qed.

Definition text_with_semicolon (l : list Z) : list Z := l ++ [ch ";"].

(** the shell after a line *)
Definition entered (s : finsh_shell) (e : editor) (rest : list Z) (new : list shown) (root : option nat) (s' : finsh_shell) : Prop :=
  displays s' (enter e) /\ rx s' = rest /\ shows s' = shows s ++ new /\ parser_root s' = root.

Definition line_outcome (fuel : nat) (s : finsh_shell) (g : finsh_token * finsh) (e : editor) (rest : list Z) (r : outcome (finsh_shell * (finsh_token * finsh)) unit) : Prop :=
  if decide (line_of e = []) then exists s', r = Ret tt (s', g) /\ entered s e rest [] (parser_root s) s'
  else
    match finsh_run_line fuel (parser_root s) (text_with_semicolon (line_of e)) g with
    | Ret (o, root) g' => exists s', r = Ret tt (s', g') /\ entered s e rest [o] root s'
    | Fail x => r = Fail x
    end.

Lemma displays_enter s e p : displays s (with_past p e) -> escape e = WAIT_NORMAL ->
  displays (set_cursor 0 0 (set_line (replicate FINSH_CMD_SIZE 0) s)) (mk_editor [] [] p (List.length p) WAIT_NORMAL).
Proof.
  intros [Ds _ _ _ _ Dn Dcu Dr Dh Dpast] He. cbn in Ds, Dn, Dcu, Dr, Dpast. rewrite He in Ds. rewrite set_cursor_small by lia.
  split; cbn; try done. split; [constructor|simpl; lia].
Qed.

Lemma displays_root s e o r : displays s e -> displays (set_result o r s) e.
Proof. by intros []. Qed.

Lemma run_line_spec fuel s g e : displays s e -> escape e = WAIT_NORMAL -> line_outcome fuel s g e (rx s) (run_line fuel (s, g)).
Proof.
  intros Hd He. destruct (push_spec s e Hd) as (s1 & E1 & Hd1 & (Q1 & Q2 & Q3)). unfold run_line. rewrite (bind_Ret _ _ _ _ _ (input_Ret _ _ g _ _ E1)).
  rewrite (bind_Ret _ _ _ s1 (s1, g)) by done. pose proof Hd1 as [_ Dl _ Dp Dok _ _ _ _ _]. cbn [with_past line_of left_of right_of] in Dl, Dp, Dok.
  fold (line_of e) in Dl, Dp, Dok. change (line_of (with_past _ e)) with (line_of e) in *. pose proof Dok as [Hch Hl]. unfold LINE_MAX in Hl.
  assert (put_line (line_position s1) (ch ";") s1 = Ret tt (set_line (line_of e ++ ch ";" :: 0 :: replicate (FINSH_CMD_SIZE - List.length (line_of e) - 2) 0) s1)) as E2.
  { rewrite put_line_Ret by lia. rewrite Dp, Nat2Z.id, Dl, pad_zero by done. rewrite insert_app_r_alt by done. by rewrite Nat.sub_diag. }
  rewrite (bind_Ret _ _ _ _ _ (input_Ret _ _ g _ _ E2)). set (s2 := set_line _ s1) in *.
  assert (forall p, p = remember (line_of e) (past e) -> forall s3, displays s3 (with_past p e) ->
    displays (set_cursor 0 0 (set_line (replicate FINSH_CMD_SIZE 0) s3)) (enter e)) as Hent by (intros p -> s3 H3; by apply (displays_enter s3 e)).
  unfold line_outcome. rewrite Dp. destruct (decide (line_of e = [])) as [E0|E0].
  - rewrite E0. cbn [List.length Z.of_nat Z.eqb negb]. rewrite (bind_Ret _ _ _ tt (s2, g)) by done. eexists. split; [done|].
    split; [exact (Hent _ eq_refl s1 Hd1)|]. cbn. rewrite app_nil_r. by split_and!.
  - assert (0 < List.length (line_of e))%nat by (destruct (line_of e); [done|simpl; lia]). rewrite (proj2 (Z.eqb_neq _ 0)) by lia. cbn [negb].
    assert (line_string s2 = Ret (text_with_semicolon (line_of e)) s2) as E3.
    { unfold line_string, bind, get. cbn [s2 cmd_line set_line].
      replace (line_of e ++ ch ";" :: 0 :: replicate (FINSH_CMD_SIZE - List.length (line_of e) - 2) 0) with
        (text_with_semicolon (line_of e) ++ 0 :: replicate (FINSH_CMD_SIZE - List.length (line_of e) - 2) 0) by (unfold text_with_semicolon; by rewrite <-(assoc_L (++))).
      rewrite c_string_app; [done|]. apply Forall_app. split; [done|]. by repeat constructor. }
    assert (parser_root s1 = parser_root s) as -> by done.
    destruct (finsh_run_line fuel (parser_root s) (text_with_semicolon (line_of e)) g) as [[o root] g'|x] eqn:Er.
    + assert ((let! l := input line_string in let! r := on_snd (finsh_run_line fuel (parser_root s) l) in input (modify (set_result r.1 r.2))) (s2, g) =
        Ret tt (set_result o root s2, g')) as E4.
      { rewrite (bind_Ret _ _ _ _ _ (input_Ret _ _ g _ _ E3)). unfold bind, on_snd. simpl snd. by rewrite Er. }
      rewrite (bind_Ret _ _ _ _ _ E4). eexists. split; [done|]. split; [exact (Hent _ eq_refl (set_result o root s1) (displays_root _ _ _ _ Hd1))|].
      cbn. rewrite Q2. by split_and!.
    + apply bind_Fail. rewrite (bind_Ret _ _ _ _ _ (input_Ret _ _ g _ _ E3)). apply bind_Fail. unfold on_snd. simpl snd. by rewrite Er.
Qed.

(** ** A line of keys *)

(** the keys, with room in the line for each *)
Fixpoint fits (e : editor) (cs : list Z) : Prop :=
  match cs with [] => True | c :: cs => key c /\ (List.length (line_of e) < LINE_MAX)%nat /\ fits (edit e c) cs end.

Lemma line_outcome_rest fuel s s1 g e rest r : shows s1 = shows s -> parser_root s1 = parser_root s ->
  line_outcome fuel s1 g e rest r -> line_outcome fuel s g e rest r.
Proof. intros E1 E2. unfold line_outcome, entered. by rewrite E1, E2. Qed.

Lemma enter_escape e x : enter (with_escape x e) = enter e.
Proof. done. Qed.

Lemma read_one s g c cs : rx s = c :: cs -> input device_read (s, g) = Ret (Some c) (set_rx cs s, g).
Proof. intros E. apply input_Ret. unfold device_read, bind, get. by rewrite E. Qed.

Lemma displays_rx s e cs : displays s e -> displays (set_rx cs s) e.
Proof. by intros []. Qed.

Lemma newline_spec fuel s g : handle_char fuel 10 (s, g) = (run_line fuel ;! ret true) (set_stat WAIT_NORMAL s, g).
Proof.
  unfold handle_char. rewrite (bind_Ret _ _ _ s (s, g)) by done. assert (set_stat (stat s) s = s) as Es by (by destruct s).
  destruct (stat s); [by rewrite Es|done|done].
Qed.

Lemma read_loop_spec fuel cs : forall n s g e rest, displays s e -> rx s = cs ++ 10 :: rest -> fits e cs -> (List.length cs < n)%nat ->
  line_outcome fuel s g (foldl edit e cs) rest (read_loop n fuel (s, g)).
Proof.
  induction cs as [|c cs IH]; intros [|n] s g e rest Hd Hrx Hf Hn; simpl in Hn; try lia; cbn [read_loop foldl app] in *.
  - rewrite (bind_Ret _ _ _ _ _ (read_one _ g _ _ Hrx)). pose proof (displays_escape _ _ WAIT_NORMAL (displays_rx s e rest Hd)) as Hd1.
    pose proof (run_line_spec fuel _ g _ Hd1 eq_refl) as Ho. set (s1 := set_stat WAIT_NORMAL (set_rx rest s)) in *.
    unfold bind at 1. rewrite newline_spec. fold s1. replace (match _ with Ret _ _ => _ | Fail _ => _ end) with (run_line fuel (s1, g)); [exact Ho|].
    unfold bind. by destruct (run_line fuel (s1, g)) as [[] []|].
  - destruct Hf as (Hk & Hl & Hf). rewrite (bind_Ret _ _ _ _ _ (read_one _ g _ _ Hrx)).
    destruct (handle_char_edits fuel c (set_rx (cs ++ 10 :: rest) s) g e (displays_rx _ _ _ Hd) Hk Hl) as (s1 & E1 & Hd1 & (Q1 & Q2 & Q3)).
    rewrite (bind_Ret _ _ _ _ _ E1). eapply line_outcome_rest; [| |apply (IH n s1 g _ rest Hd1 Q1 Hf ltac:(lia))]; done.
Qed.

(** C8: The input loop of the shell is a line editor: whatever characters, cursor keys,
    backspaces and history keys (tab and carriage return apart) come before the newline, as
    long as the line has fewer than 78 characters whenever one of them comes, the line that is
    run is the one that an editor with a text before and one after the cursor holds, and it
    becomes the last of the history. *)
Theorem finsh_input_refines fuel cs rest s g e : displays s e -> rx s = cs ++ 10 :: rest -> fits e cs ->
  line_outcome fuel s g (foldl edit e cs) rest (finsh_input fuel (s, g)).
Proof.
  intros Hd Hrx Hf. unfold finsh_input. rewrite (bind_Ret _ _ _ s (s, g)) by done. apply read_loop_spec; [done|done|done|].
  rewrite Hrx, length_app. simpl. lia.
Qed.

End characters.

(** * Completion *)

(** [r] is the longest common prefix of the names *)
Definition is_lcp (r : list Z) (names : list (list Z)) : Prop :=
  (forall m, m ∈ names -> r `prefix_of` m) /\ (forall q, (forall m, m ∈ names -> q `prefix_of` m) -> q `prefix_of` r).

Lemma common_prefix (q p n : list Z) : q `prefix_of` p -> (q `prefix_of` n <-> (List.length q <= str_common p n)%nat).
Proof.
  revert p n. induction q as [|x q IH]; intros p n Hq; [split; [simpl; lia|intros _; apply prefix_nil]|].
  destruct Hq as [t ->]. destruct n as [|y n]; cbn [app str_common List.length].
  - split; [by intros [? ?]|lia].
  - destruct (Z.eqb_spec x y) as [->|Hne].
    + rewrite <-Nat.succ_le_mono, <-(IH (q ++ t) n) by by exists t. split; [by intros ?%prefix_cons_inv_2|by intros ?; apply prefix_cons].
    + split; [intros Hp%prefix_cons_inv_1; congruence|lia].
Qed.

Lemma prefix_take (q p : list Z) j : q `prefix_of` p -> (List.length q <= j)%nat -> q `prefix_of` take j p.
Proof. intros [t ->] Hj. rewrite take_app_ge by done. by eexists. Qed.

Lemma take_prefix_of j (p : list Z) : take j p `prefix_of` p.
Proof. exists (drop j p). by rewrite take_drop. Qed.

(** one more name *)
Lemma is_lcp_more p k names n : p ∈ names -> is_lcp (take k p) names -> is_lcp (take (Nat.min k (str_common p n)) p) (names ++ [n]).
Proof.
  intros Hp [H1 H2]. split.
  - intros m [Hm|Hm]%elem_of_app.
    + etrans; [|by apply H1]. rewrite Nat.min_comm, <-take_take. apply take_prefix_of.
    + apply list_elem_of_singleton in Hm as ->. apply (common_prefix _ p); [apply take_prefix_of|]. rewrite length_take. lia.
  - intros q Hq. assert (q `prefix_of` take k p) as Hk by (apply H2; intros m Hm; apply Hq; set_solver).
    assert (q `prefix_of` p) as Hqp by (etrans; [exact Hk|apply take_prefix_of]). apply prefix_take; [done|].
    apply prefix_length in Hk. rewrite length_take in Hk. assert (q `prefix_of` n) as Hn by (apply Hq; set_solver). apply (common_prefix q p n Hqp) in Hn. lia.
Qed.

Lemma is_lcp_one n : is_lcp (take (Nat.min (List.length n) (str_common n n)) n) [n].
Proof.
  split.
  - intros m ->%list_elem_of_singleton. apply take_prefix_of.
  - intros q Hq. assert (q `prefix_of` n) as Hn by (apply Hq; set_solver). apply prefix_take; [done|]. pose proof (prefix_length _ _ Hn).
    apply (common_prefix q n n Hn) in Hn. lia.
Qed.

(** the loops after the names [ms] that match, [k] of them in this loop *)
Record tracks (c : candidates) (k : nat) (ms : list (list Z)) : Prop := {
  tracks_cnt : cnt c = Z.of_nat k;
  tracks_ptr : match name_ptr c with None => ms = [] | Some p => p ∈ ms /\ is_lcp (take (min_length c) p) ms end;
  tracks_some : k <> O -> ms <> [] }.

Definition matches (prefix : list Z) (names : list (list Z)) : list (list Z) := filter (fun n => str_is_prefix prefix n = true) names.

Lemma list_names_spec prefix reset names : prefix <> [] -> forall c k ms, tracks c k ms -> (reset = true -> k = O -> ms = []) ->
  Z.of_nat (k + List.length names) < 2 ^ 16 ->
  exists c' k', list_names prefix reset c names = Some c' /\ tracks c' k' (ms ++ matches prefix names) /\ (k' <= k + List.length names)%nat.
Proof.
  intros Hp. induction names as [|n names IH]; intros c k ms Ht Hr Hk; cbn [list_names].
  { exists c, k. rewrite app_nil_r. split_and!; [done|done|lia]. }
  cbn [List.length] in Hk. unfold list_name, matches. rewrite filter_cons. fold (matches prefix names). destruct (str_is_prefix prefix n).
  2:{ rewrite decide_False by done. destruct (IH c k ms Ht Hr ltac:(lia)) as (c' & k' & E & Ht' & Hk'). exists c', k'. split_and!; [done|done|]. cbn [List.length]. lia. }
  rewrite decide_True by done. rewrite (bool_decide_eq_false_2 (prefix = [])) by done. cbn [negb]. rewrite andb_true_r.
  destruct Ht as [Hc Hptr Hs]. set (c1 := if (cnt c =? 0) && (reset || bool_decide (name_ptr c = None)) then mk_candidates (cnt c) (Some n) (List.length n) else c).
  assert (exists p, name_ptr c1 = Some p /\ is_lcp (take (Nat.min (min_length c1) (str_common p n)) p) (ms ++ [n]) /\ p ∈ ms ++ [n]) as (p & Hp1 & Hl & Hin).
  { unfold c1. destruct ((cnt c =? 0) && _) eqn:Eb.
    - exists n. split; [done|]. split; [|set_solver]. assert (ms = []) as ->; [|apply is_lcp_one]. apply andb_prop in Eb as [E1 E2]. apply Z.eqb_eq in E1.
      apply orb_prop in E2 as [E2|E2]; [apply Hr; [done|lia]|]. apply bool_decide_eq_true in E2. by rewrite E2 in Hptr.
    - destruct (name_ptr c) as [p|] eqn:Ep; [destruct Hptr; exists p; split; [done|]; split; [by apply is_lcp_more|set_solver]|]. exfalso.
      rewrite orb_comm in Eb. rewrite bool_decide_eq_true_2 in Eb by done. rewrite andb_true_r in Eb. apply Z.eqb_neq in Eb. by apply Hs; [lia|]. }
  assert (cnt c1 = Z.of_nat k) as Hc1 by (unfold c1; by destruct (_ && _)).
  rewrite Hp1. cbn [mbind option_bind]. destruct (IH (mk_candidates (u16 (cnt c1 + 1)) (Some p) (Nat.min (min_length c1) (str_common p n))) (S k) (ms ++ [n])) as (c' & k' & E & Ht' & Hk').
  { split; cbn; [rewrite Hc1, u16_small; lia|done|by destruct ms]. }
  { done. }
  { lia. }
  exists c', k'. rewrite <-(assoc_L (++)) in Ht'. split_and!; [done|done|]. cbn [List.length]. lia.
Qed.

Section completion.
Context `{finsh_image}.

(** the names that the shell completes to: internal system calls are not among them *)
Definition functions_of (s : finsh) : list (list Z) :=
  filter (fun n => str_is_prefix (text "__") n = false) (syscall_name <$> syscall_table) ++ (syscall_name <$> global_syscall_list s).
Definition variables_of (s : finsh) : list (list Z) := (sysvar_name <$> sysvar_table) ++ (sysvar_name <$> global_sysvar_list s).

(** The text is completed to the longest common prefix of the names that it begins. *)
Lemma list_prefix_spec prefix s : prefix <> [] -> Z.of_nat (List.length (functions_of s)) < 2 ^ 16 -> Z.of_nat (List.length (variables_of s)) < 2 ^ 16 ->
  exists r, list_prefix prefix s = Some r /\
    let ms := matches prefix (functions_of s ++ variables_of s) in
    if decide (ms = []) then r = [] else is_lcp r ms /\ prefix `prefix_of` r.
Proof.
  intros Hp Hf Hv. unfold functions_of, variables_of in *. rewrite length_app in Hf, Hv. unfold list_prefix. cbv zeta.
  set (f1 := filter _ _) in *. set (f2 := syscall_name <$> global_syscall_list s) in *. set (v1 := sysvar_name <$> sysvar_table) in *.
  set (v2 := sysvar_name <$> global_sysvar_list s) in *.
  destruct (list_names_spec prefix true f1 Hp (mk_candidates 0 None 0) 0 []) as (c1 & k1 & E1 & T1 & K1); [by split|done|lia|].
  destruct (list_names_spec prefix false f2 Hp c1 k1 _ T1) as (c2 & k2 & E2 & T2 & K2); [done|lia|].
  destruct (list_names_spec prefix false v1 Hp (mk_candidates 0 (name_ptr c2) (min_length c2)) 0
    (([] ++ matches prefix f1) ++ matches prefix f2)) as (c3 & k3 & E3 & T3 & K3); [by split; [done|apply T2|]|done|lia|].
  destruct (list_names_spec prefix false v2 Hp c3 k3 _ T3) as (c4 & k4 & E4 & T4 & K4); [done|lia|].
  rewrite E1. cbn [mbind option_bind]. rewrite E2. cbn [mbind option_bind]. rewrite E3. cbn [mbind option_bind]. rewrite E4. cbn [mbind option_bind].
  eexists. split; [done|]. cbv zeta. assert (matches prefix ((f1 ++ f2) ++ v1 ++ v2) = ((([] ++ matches prefix f1) ++ matches prefix f2) ++ matches prefix v1) ++ matches prefix v2) as ->.
  { unfold matches. rewrite !filter_app. simpl. by rewrite !(assoc_L (++)). }
  pose proof (tracks_ptr _ _ _ T4) as Hptr. destruct (name_ptr c4) as [p|]; [|by rewrite Hptr].
  destruct Hptr as [Hin Hl]. destruct (decide _) as [E|_]; [rewrite E in Hin; by apply elem_of_nil in Hin|]. split; [done|].
  apply Hl. intros m Hm. assert (str_is_prefix prefix m = true) as Hpm.
  { simpl in Hm. rewrite !elem_of_app in Hm. unfold matches in Hm. rewrite !list_elem_of_filter in Hm. tauto. }
  apply bool_decide_eq_true in Hpm. rewrite <-Hpm. apply take_prefix_of.
Qed.

Lemma pad_longer l r : l `prefix_of` r -> (List.length r <= LINE_MAX)%nat -> r ++ drop (List.length r) (pad l) = pad r.
Proof.
  intros [t ->] Hl. rewrite length_app in Hl. unfold LINE_MAX in Hl. unfold pad. f_equal. rewrite !length_app, <-drop_drop, drop_app_length.
  rewrite drop_replicate. f_equal. unfold FINSH_CMD_SIZE. lia.
Qed.

(** C27: Completion replaces the line by the longest common prefix of the names that begin with it,
    the internal functions left out, and leaves the line as it is when there is none. *)
Theorem shell_auto_complete_spec s g e : displays s e -> line_of e <> [] ->
  Forall line_ok (functions_of g.2 ++ variables_of g.2) ->
  Z.of_nat (List.length (functions_of g.2)) < 2 ^ 16 -> Z.of_nat (List.length (variables_of g.2)) < 2 ^ 16 ->
  exists s' r, (shell_auto_complete ;! input measure_line) (s, g) = Ret tt (s', g) /\ displays s' (with_line r [] e) /\
    let ms := matches (line_of e) (functions_of g.2 ++ variables_of g.2) in
    if decide (ms = []) then r = line_of e else is_lcp r ms /\ line_of e `prefix_of` r.
Proof.
  intros Hd Hne Hnames Hf Hv. destruct (list_prefix_spec (line_of e) g.2 Hne Hf Hv) as (r & Er & Hr). cbv zeta in Hr.
  pose proof Hd as [_ Dl _ _ Dok _ _ _ _ _]. set (ms := matches _ _) in *. set (w := if decide (ms = []) then line_of e else r).
  assert (line_ok w /\ line_of e `prefix_of` w) as [Hok Hpre].
  { unfold w. destruct (decide (ms = [])) as [|Hms]; [done|]. destruct Hr as [[Hl _] Hpre]. split; [|done].
    destruct ms as [|m ms'] eqn:Em; [done|]. assert (m ∈ functions_of g.2 ++ variables_of g.2) as Hm.
    { assert (m ∈ ms) as Hin by (rewrite Em; set_solver). by apply list_elem_of_filter in Hin as [_ ?]. }
    destruct (proj1 (Forall_forall _ _) Hnames m Hm) as [Hc Hlen]. destruct (Hl m ltac:(set_solver)) as [t ->]. rewrite length_app in Hlen.
    apply Forall_app in Hc as [Hc _]. split; [done|lia]. }
  assert (r ++ drop (List.length r) (cmd_line s) = pad w /\ (List.length r <= FINSH_CMD_SIZE)%nat) as [Ew Hlen].
  { unfold w in *. rewrite Dl. destruct (decide (ms = [])) as [|Hms]; [rewrite Hr; split; [done|simpl; lia]|].
    split; [apply pad_longer; [done|apply Hok]|]. destruct Hok as [_ Hok]. unfold LINE_MAX, FINSH_CMD_SIZE in *. lia. }
  assert (shell_auto_complete (s, g) = Ret tt (set_line (pad w) s, g)) as E1.
  { unfold shell_auto_complete. assert (line_string s = Ret (line_of e) s) as E0.
    { unfold line_string, bind, get. rewrite Dl, pad_zero, c_string_app by apply Dok. done. }
    rewrite (bind_Ret _ _ _ _ _ (input_Ret _ _ g _ _ E0)). rewrite (bind_Ret _ _ _ g (s, g)) by (by destruct g). rewrite Er. cbn [of_option].
    rewrite (bind_Ret _ _ _ r (s, g)) by done. rewrite (proj2 (Nat.leb_le _ _) Hlen). unfold input, on_fst, modify. cbn. by rewrite Ew. }
  pose proof (displays_new_line s e w [] Hd ltac:(by rewrite app_nil_r)) as Hnew. rewrite app_nil_r in Hnew.
  eexists _, w. rewrite (bind_Ret _ _ _ _ _ E1). split; [by apply input_Ret, measure_spec|]. split; [done|]. cbv zeta. unfold w. fold ms. by destruct (decide (ms = [])).
Qed.

End completion.
