(* ===== verification/FinshScenarios.v ===== *)
(** The shell at work: a system with two functions and a variable, lines typed into it,
    and what goes wrong with some lines. *)

From Stdlib Require Import Ascii String.
From S2P Require Import Prelude Mem Printf Finsh FinshHeap FinshCompiler FinshVm FinshVmSpec FinshExpr FinshEval FinshTree FinshFront FinshLine FinshToken FinshParser FinshRun FinshNodes FinshParse FinshStatements FinshLex FinshShell FinshVars FinshInput FinshInputSpec.

Open Scope Z_scope.

(** * The system *)

(** the function at 5000 adds its parameters *)
Definition sum_of (f : Z) (args : list Z) : M memory Z := if f =? 5000 then ret (foldr Z.add 0 args) else fail BadPointer.

Instance demo : finsh_image := {|
  variables_at := 1000; heap_at := 2000;
  syscall_table := [mk_syscall (text "sum") 5000; mk_syscall (text "sub") 6000];
  sysvar_table := [mk_sysvar (text "tick") finsh_type_uint 3000 4000];
  call_function := sum_of |}.

Definition zeros : memory := fun _ => 0.

(** the shell after finsh_init, before its first line *)
Definition fresh : finsh :=
  mk_finsh (replicate FINSH_VARIABLE_MAX empty_var) (replicate FINSH_NODE_MAX empty_node) FINSH_ERROR_OK [] [] (replicate FINSH_TEXT_MAX 0) 0
    (replicate FINSH_STACK_MAX 0) 0 0 0 0 zeros.
Definition no_token : finsh_token := line_token [].

(** lines one after the other; what is shown for the last *)
Fixpoint session (lines : list String.string) (out : shown) (st : finsh_token * finsh) : outcome (finsh_token * finsh) shown :=
  match lines with
  | [] => Ret out st
  | l :: lines => match finsh_run_line 200 None (text l) st with Ret (out, _) st => session lines out st | Fail e => Fail e end
  end.
Definition showing (lines : list String.string) : option shown := match session lines Nothing (no_token, fresh) with Ret o _ => Some o | Fail _ => None end.
Definition failing (lines : list String.string) : option fault := match session lines Nothing (no_token, fresh) with Ret _ _ => None | Fail e => Some e end.

Lemma shell_at_work :
  showing ["1+2*3;"%string] = Some (Shown 7) /\
  showing ["int a = 5;"%string; "a = a * 2; a++;"%string; "a;"%string] = Some (Shown 11) /\
  showing ["int a;"%string; "a = 1 << 4 | 0x0f;"%string] = Some (Shown 31) /\
  showing ["sum(1, 2, 017);"%string] = Some (Shown 18) /\
  showing ["1 + ;"%string] = Some (Message (text "Invalid token")) /\
  showing ["nothing;"%string] = Some (Message (text "Unknown symbol")).
Proof. vm_compute. split_and!; reflexivity. Qed.

(** * Lines that go wrong *)

(** parentheses around an expression are taken for a cast *)
Lemma parentheses_refused : showing ["(1+2)*3;"%string] = Some (Message (text "Null node")).
Proof. vm_compute. reflexivity. Qed.

(** the result of a call has no type, so that no operation is compiled for it *)
Lemma call_in_expression : showing ["sum(1,2)+5;"%string] = Some (Shown 3).
Proof. vm_compute. reflexivity. Qed.

(** an increment is 18 bytes of code, and six of them and their pops do not fit in the text *)
Lemma text_overflow : failing ["int a;"%string; "a++;a++;a++;a++;a++;a++;"%string] = Some BadPointer.
Proof. vm_compute. reflexivity. Qed.

(** a char fills one byte of its element of the stack, and a call reads the four that are there *)
Lemma char_parameter : showing ["char c = 'a';"%string; "sum(1, 0x12345678);"%string; "sum(1, c);"%string] = Some (Shown 0x12345662).
Proof. vm_compute. reflexivity. Qed.

(** the value of a char or a short is shown with the bytes that its element of the stack held before, and without its sign *)
Lemma narrow_values :
  showing ["300; 'A';"%string] = Some (Shown 321) /\
  showing ["char c = 7;"%string; "70000; c;"%string] = Some (Shown 69895) /\
  showing ["short h = 0 - 1;"%string; "h;"%string] = Some (Shown 65535).
Proof. vm_compute. split_and!; reflexivity. Qed.

(** a pointer to void cannot be assigned *)
Lemma void_pointer : failing ["void *p;"%string; "p = 5;"%string] = Some BadPointer.
Proof. vm_compute. reflexivity. Qed.

(** what comes after a declaration without a value is not read *)
Lemma declaration_ends_line : showing ["int a; a = 5;"%string; "a;"%string] = Some (Shown 0).
Proof. vm_compute. reflexivity. Qed.

(** the second value of a declaration is lost when a statement follows *)
Lemma second_value_lost :
  showing ["int a = 1, b = 2;"%string; "b;"%string] = Some (Shown 2) /\ showing ["int a = 1, b = 2; a;"%string; "b;"%string] = Some (Shown 0).
Proof. vm_compute. split; reflexivity. Qed.

(** an identifier at the end of the text: the lexer starts again at its beginning *)
Lemma no_semicolon : forall n, n ∈ [10; 50; 200]%nat -> finsh_run_line n None (text "1; tick") (no_token, fresh) = Fail OutOfFuel.
Proof. intros n Hn. repeat (apply elem_of_cons in Hn as [->|Hn]; [by vm_compute|]). by apply elem_of_nil in Hn. Qed.

(** * Typing *)

Definition typed (keys : list Z) : finsh_shell := set_rx keys finsh_shell_zero.
Definition typing (keys : list Z) : outcome (finsh_shell * (finsh_token * finsh)) unit := finsh_input 200 (typed keys, (no_token, fresh)).
Definition results (r : outcome (finsh_shell * (finsh_token * finsh)) unit) : option (list shown) := match r with Ret _ st => Some (shows st.1) | Fail _ => None end.

(** left and right, backspace, and the line before *)
Lemma keys_at_work :
  results (typing (text "1+3" ++ [0x1b; 0x5b; 0x44; 0x1b; 0x5b; 0x44] ++ text "0" ++ [0x1b; 0x5b; 0x43; 8; 10])) = Some [Shown 103] /\
  results (typing (text "1+3" ++ [0x1b; 0x5b; 0x44; 8] ++ text "*7" ++ [10])) = Some [Shown 73].
Proof. vm_compute. split; reflexivity. Qed.

(** a line of 79 characters has no terminator after the semicolon; with 80 the semicolon is written behind the line *)
Lemma long_line : typing (replicate 79 (ch "1") ++ [10]) = Fail BadPointer /\ typing (replicate 80 (ch "1") ++ [10]) = Fail BadPointer.
Proof. vm_compute. split; reflexivity. Qed.

(** a longer line is dropped, but the cursor stays behind its end: taking characters back moves what lies behind the line *)
Lemma long_line_backspace : typing (replicate 81 (ch "1") ++ [8; 8]) = Fail BadPointer.
Proof. vm_compute. reflexivity. Qed.

(** a carriage return is lost when a character has been typed ahead *)
Lemma typed_ahead : results (typing (text "1" ++ [13] ++ text "2" ++ [10])) = Some [Shown 12].
Proof. vm_compute. reflexivity. Qed.

(** * The theorems at these inputs *)

Lemma finsh_vm_run_stops_witness : finsh_vm_run fresh <> Fail OutOfFuel.
Proof.
  apply (finsh_vm_run_stops (H := demo)). intros f args m. simpl. unfold sum_of. by destruct (f =? 5000).
Defined.


(** [int a] has been declared *)
Definition with_a : finsh := set_variables (<[0%nat := mk_var (text "a") finsh_type_int]> (global_variable fresh)) fresh.
Definition demo_line : list expr := [Assign (PVar 0) (Bin Add (Const 1) (Const 2))].




(** the tree of [a = 1 + 2] in the table of nodes *)
Definition node_of (t v : Z) (c b : option nat) : finsh_node := mk_node t 0 0 v id_null b c.
Definition a_node (b : option nat) : finsh_node := mk_node FINSH_NODE_ID 0 FINSH_IDTYPE_VAR 0 (id_var 0) b None.
Definition demo_tree : forest :=
  FNode 4 (node_of FINSH_NODE_SYS_ASSIGN 0 (Some 0%nat) None)
    (FNode 0 (a_node (Some 3%nat)) FNil
      (FNode 3 (node_of FINSH_NODE_SYS_ADD 0 (Some 1%nat) None)
        (FNode 1 (node_of FINSH_NODE_VALUE_INT 1 None (Some 2%nat)) FNil (FNode 2 (node_of FINSH_NODE_VALUE_INT 2 None None) FNil FNil))
        FNil)) FNil.

(** the tree of [a++; a++; ...], [n] times *)
Fixpoint counting_tree (n k : nat) : forest :=
  match n with
  | O => FNil
  | S n => FNode (2 * k + 1) (node_of FINSH_NODE_SYS_INC 0 (Some (2 * k)%nat) (match n with O => None | _ => Some (2 * k + 3)%nat end))
      (FNode (2 * k) (a_node None) FNil FNil) (counting_tree n (S k))
  end.
Definition counting_line : list expr := replicate 6 (Post true 0).

Fixpoint put_forest (f : forest) (tbl : list finsh_node) : list finsh_node :=
  match f with FNil => tbl | FNode p n c s => <[p := n]> (put_forest c (put_forest s tbl)) end.
Definition with_tree (f : forest) : finsh := set_nodes (put_forest f (replicate FINSH_NODE_MAX empty_node)) with_a.

Lemma demo_in_table : line_in_table (global_variable with_a) demo_line demo_tree (with_tree demo_tree).
Proof.
  split_and!; [by cbn|repeat (apply NoDup_cons; split; [set_solver|]); constructor|done|done|].
  cbn. split; [|done]. split_and!; try done; by left.
Qed.

Lemma demo_typed : typed_line (global_variable with_a) demo_line.
Proof. repeat constructor. by eexists. Qed.

Lemma counting_in_table : line_in_table (global_variable with_a) counting_line (counting_tree 6 0) (with_tree (counting_tree 6 0)).
Proof. split_and!; [by cbn|by apply (bool_decide_unpack _)|done|done|]. by cbn. Qed.

Lemma counting_typed : typed_line (global_variable with_a) counting_line.
Proof. repeat (apply List.Forall_cons; [by eexists|]). constructor. Qed.

(** the node of [a], the left side of the assignment, is marked as an address; the sum is not *)
Lemma finsh_type_check_witness :
  exists tbl', finsh_type_check node_fuel (root demo_tree) FINSH_NODE_VALUE (with_tree demo_tree) = Ret 0 (set_nodes tbl' (with_tree demo_tree)) /\
    says tbl' (kids demo_tree) FINSH_DATA_TYPE_DWORD true /\ says tbl' (next (kids demo_tree)) FINSH_DATA_TYPE_DWORD false.
Proof.
  destruct (finsh_type_check_types (H := demo) (global_variable with_a) demo_line demo_tree (with_tree demo_tree) demo_in_table demo_typed)
    as (tbl' & E & ((_ & Hx & (Hs & _)) & _) & _).
  exists tbl'. split_and!; [exact E|exact Hx|exact Hs].
Defined.

(** [a = 1 + 2] fits; six increments of [a] do not *)
Lemma compiled_line_fits_witness :
  (exists s1 s2, finsh_compiler_run (root demo_tree) (with_tree demo_tree) = Ret 0 s1 /\ finsh_vm_run s1 = Ret tt s2 /\ finsh_sp s2 = 1) /\
  finsh_compiler_run (root (counting_tree 6 0)) (with_tree (counting_tree 6 0)) = Fail BadPointer.
Proof.
  split.
  - destruct (proj1 (compiled_line_fits (H := demo) (global_variable with_a) demo_line demo_tree (with_tree demo_tree) demo_in_table
      ltac:(discriminate) demo_typed eq_refl) ltac:(vm_compute; lia)) as (s1 & E & s2 & Er & Hsp & _).
    exists s1, s2. split; [exact E|]. split; [exact Er|exact Hsp].
  - apply (proj2 (compiled_line_fits (H := demo) (global_variable with_a) counting_line (counting_tree 6 0) (with_tree (counting_tree 6 0))
      counting_in_table ltac:(discriminate) counting_typed eq_refl)). vm_compute. lia.
Defined.

(** the table of variables *)
Lemma fresh_vars : vars_ok (global_variable fresh).
Proof.
  split; intros i.
  - intros v Hv _. by apply lookup_replicate in Hv as [-> _].
  - intros v Hv Hf. apply lookup_replicate in Hv as [-> _]. by destruct Hf.
  - intros j v w Hv _ Hf. apply lookup_replicate in Hv as [-> _]. by destruct Hf.
Qed.

Lemma finsh_var_witness :
  exists i s1 s2, finsh_var_insert (text "speed") finsh_type_int fresh = Ret (Z.of_nat i) s1 /\ vars_ok (global_variable s1) /\
    finsh_var_lookup (text "speed") s1 = Ret (Some i) s1 /\ var_type <$> global_variable s1 !! i = Some finsh_type_int /\
    (forall other, is_var_name other -> stored other <> stored (text "speed") ->
       find_variable other (global_variable s1) 0 = find_variable other (global_variable fresh) 0) /\
    finsh_var_insert (text "speed") finsh_type_int s1 = Ret (-1) s1 /\
    finsh_var_delete (text "speed") s1 = Ret 0 s2 /\ global_variable s2 = global_variable fresh /\ get32 (fmem s2) (value_at (id_var i)) = 0.
Proof.
  apply (finsh_var_roundtrip (H := demo)); [apply fresh_vars|split; [done|by repeat constructor]|done|by vm_compute|by left].
Defined.

(** an empty line *)
Definition new_editor : editor := mk_editor [] [] [] 0 WAIT_NORMAL.

Lemma fresh_displays keys : displays (typed keys) new_editor.
Proof. split; try done; [split; [constructor|simpl; lia]|vm_compute; lia]. Qed.

Lemma finsh_input_witness :
  line_outcome 200 (typed (text "tick" ++ [8] ++ [10])) (no_token, fresh) (foldl edit new_editor (text "tick" ++ [8])) [] (typing (text "tick" ++ [8] ++ [10])).
Proof.
  apply (finsh_input_refines (H := demo)); [apply fresh_displays|done|]. cbn [text fmap list_fmap list_ascii_of_string app fits]. split_and!; try done; vm_compute; lia.
Defined.

Definition su_typed : finsh_shell := set_cursor 2 2 (set_line (pad (text "su")) finsh_shell_zero).

Lemma auto_complete_witness :
  exists s' r, (shell_auto_complete ;! input measure_line) (su_typed, (no_token, fresh)) = Ret tt (s', (no_token, fresh)) /\
    displays s' (with_line r [] (with_line (text "su") [] new_editor)) /\
    let ms := matches (text "su") (functions_of fresh ++ variables_of fresh) in
    if decide (ms = []) then r = text "su" else is_lcp r ms /\ text "su" `prefix_of` r.
Proof.
  apply (shell_auto_complete_spec (H := demo) su_typed (no_token, fresh) (with_line (text "su") [] new_editor)); [|done| |done|done].
  - apply (displays_new_line finsh_shell_zero new_editor (text "su") []); [apply (fresh_displays [])|]. split; [cbn; repeat (apply List.Forall_cons; [done|]); by apply List.Forall_nil|simpl; unfold LINE_MAX; lia].
  - repeat (apply List.Forall_cons; [split; [by repeat constructor|vm_compute; lia]|]). constructor.
Defined.
